(* ===== verification/_CoqProject ===== *)
-Q . S2P
Prelude.v
Num.v
GoTime.v
Asset.v
Period.v
Frame.v
Metrics.v
FrameOps.v
Resample.v
Broker.v
Lots.v
Ledger.v
Samples.v
Gains.v
Account.v
Batch.v
Exec.v
SimBroker.v
Runs.v
FrameProps.v
AccountProps.v
LedgerFacts.v
LedgerProps.v
LotProps.v
WashProps.v
Risk.v
MarginCall.v
Calendar.v
Schedule.v
Provider.v
Resampling.v
DataCache.v
Fetch.v
Engine.v
Backtest.v
Setup.v
Live.v
Stats.v
ReturnMetrics.v
GrowthMetrics.v
TradeTaxMetrics.v
MetricQuery.v
Index.v
Universe.v
Signal.v
Indicators.v
FactorRegression.v
Weighting.v
Study.v
Search.v
StudyReports.v
StudyProps.v
GaussianProps.v
SearchProps.v
FrameOpsProps.v
StatsProps.v
MetricProps.v
ReportProps.v
SignalProps.v
ResampleProps.v
ScheduleProps.v
Sessions.v
FetchFacts.v
FetchChunks.v
FetchProps.v
ProviderProps.v
FetchRuns.v
PlanProps.v
TradeFacts.v
BacktestProps.v
BacktestRuns.v
SetupProps.v
LiveProps.v
UniverseProps.v
WeightingProps.v
FillProps.v
SimProps.v
ExecProps.v
BatchProps.v
Findings.v
