(* ===== verification/Prelude.v ===== *)
(** * pvbt: a verification development of the backtesting core

    pvbt runs trading strategies over historical prices.  At each step a
    strategy reads data frames and writes orders into a batch; risk and tax
    middleware edit the batch; the account submits it to a broker; the broker
    reports fills on a channel; the account books each fill as a transaction;
    at the end of the day the account is marked to market.  This development
    models the packages that decide what a backtest reports, [portfolio/] with
    its performance metrics, [broker/], the data access, set-up, run loop, live
    loop, simulated broker, margin calls and middleware of [engine/], the
    schedules of [tradecron/], the universes of [universe/], the indicators of
    [signal/], the parameter searches and studies of [study/], and the parts of
    [asset/] and [data/] they stand on, and proves what makes them correct.  The parts
    are composed as the source composes them: [Backtest] runs strategies on
    the engine's data, the account, the simulated broker and the schedules of
    the other files, and [BacktestRuns] executes such a run from its plan to
    its prediction.

    ** Files, in dependency order, with the code they model

    - [Prelude]: results of Go's [(T, error)], Go maps and their iteration
      order, list lemmas, tactics and hints shared by all files.
    - [Num]: [float64].  The class [Num] of operations the source uses, with the
      instances [Num_float64] (IEEE binary64) and [Num_exact] (rationals with
      NaN and infinities); [NumOrd] the order laws both satisfy.
    - [GoTime]: instants, civil dates and locations of package [time].
    - [Asset]: [asset/].  [Period]: [data/period.go].  [Metrics]: the catalogue
      of [data/metric.go] and [metric_registry.go] and the tables that say
      where [data/pvdata_provider.go] finds a metric.
    - [Frame]: [data/data_frame.go], the column store of prices and history:
      construction, lookup, selection, transforms, [AppendRow].  [FrameOps]:
      the rest of that file, [Insert], filters, arithmetic between frames,
      aggregation, covariance.  [Resample]: [data/merge.go], rolling windows,
      [data/downsample.go] and [data/upsample.go].
    - [Broker]: [broker/], orders, fills, fill models and the fill pipeline.
    - [Lots]: [portfolio/lot_selection.go] and the lot loops of
      [portfolio/account.go].
    - [Ledger]: [Record] ([Record_]), [SyncTransactions], [ApplySplit], the
      wash-sale checks and the trade log of [portfolio/account.go].
    - [Gains]: the replay of [portfolio/metric_helpers.go], and what it conserves.
    - [Account]: valuation, margin ([portfolio/margin.go]), substitutions,
      excursions and the daily mark [UpdatePrices].
    - [Batch]: [portfolio/batch.go], [order.go], [allocation.go]; the read-only
      interface [Portfolio] is the record [PortfolioView].
    - [Exec]: [ExecuteBatch], the fill drain, brackets and one-cancels-other
      groups of [portfolio/account.go], against the class [Broker] with the
      laws [BrokerLaws]; the account's own [Order], [RebalanceTo] and [Clone].
    - [SimBroker]: [engine/simulated_broker.go], an instance of both.
    - [Risk]: [engine/middleware/risk/] and [engine/middleware/tax/].
    - [MarginCall]: [engine/margin_call.go], [margin_config.go] and
      [reconciler.go].
    - [Calendar]: arithmetic of months and dates the schedules share.
      [Schedule]: [tradecron/], the market calendar and [TradeCron], and the
      times of day of [DailyAtTime] ([data/period.go]).
    - [Provider]: [data/data_provider.go], [data/test_provider.go] and the
      fetching of [data/pvdata_provider.go], over the class [PVDatabase] of
      the rows its queries return.  [Resampling]: [data/resampler.go] and
      [data/resampling_provider.go], with their theorems.
    - [DataCache]: [engine/data_cache.go] and the books of the cache.  [Fetch]: the data access of
      [engine/engine.go] ([Fetch], [FetchAt], [fetchRange], [Prices],
      [markBar], ...) and the per-firing window of
      [engine/intraday_fill_cache.go].
    - [Engine]: the parts of a daily step, housekeeping, marks and prefetching
      ([engine/backtest.go], [engine/engine.go], [engine/margin_call.go]).
    - [Backtest]: the plan of a run, a firing, a step, the run and the prediction
      ([engine/backtest.go], [PredictedPortfolio] of [engine/engine.go],
      [engine/metrics.go], [engine/child_allocations.go]).
    - [Setup]: what [Backtest] does before its plan: [engine/warmup.go],
      [engine/stale_data.go], [engine/child.go], the account and its broker,
      [portfolio/snapshot.go].  [Live]: the loop of [engine/live.go].
    - [Stats]: the statistics interface of [portfolio/metric_query.go], the
      account, windowed and benchmark views behind it and their derived frames.
      [ReturnMetrics], [GrowthMetrics] and [TradeTaxMetrics]: the performance
      metrics, a file of the source each.  [MetricQuery]: their registration,
      queries and views.
    - [Signal], [Indicators]: [signal/], windows and statistics, then every
      indicator.  [FactorRegression]: the factor analysis of [portfolio/].
    - [Index]: [data/index_state.go], proved a replay.  [Universe]: [universe/] and
      [data/rating_filter.go], against the interface [DataSource].
    - [Weighting]: the selectors and weighting functions of [portfolio/]
      ([top_bottom_n.go], [max_above_zero.go], [equal_weight.go],
      [weighted_by_signal.go], [market_cap_weighted.go],
      [inverse_volatility.go], [risk_parity_fast.go], [risk_parity.go]).
    - [Study]: [study/split.go], [sweep.go], [search.go], [metric.go].
      [Search]: [study/gp.go], [bayesian.go], the random search and [runner.go].
      [StudyReports]: [study/scenario.go] and the configurations and analyses
      of [study/montecarlo/], [study/stress/] and [study/optimize/].
    - [Samples] and [Runs] hold the concrete values and short runs on which
      the witnesses and the executions of [Findings] are evaluated.
    - The theorems: [FrameProps], [FrameOpsProps], [ResampleProps],
      [LedgerFacts] (shared lemmas), [LedgerProps], [LotProps], [WashProps],
      [AccountProps], [BatchProps], [ExecProps], [SimProps], [FillProps],
      [ScheduleProps], [UniverseProps], [WeightingProps], [StudyProps],
      [GaussianProps] and [SearchProps] (searches), [ReportProps] (analyses of
      studies), [Findings]; of statistics, [StatsProps] and [MetricProps]; of
      indicators and factors, [SignalProps]; of data access, [Sessions],
      [FetchFacts] and [FetchChunks] (shared lemmas), [FetchProps],
      [ProviderProps], [FetchRuns] (their witnesses); of runs, [PlanProps],
      [TradeFacts] (shared lemmas), [BacktestProps], [BacktestRuns]
      (witnesses), [SetupProps] and [LiveProps].

    ** Correspondence

    A Go struct is a record with the fields the modelled code reads or writes,
    a method that changes its receiver is a function returning the changed
    record, a Go function literal stays a function.  Definitions carry the name
    of the Go function where Rocq allows it ([Record] is a keyword, hence
    [Record_]); a suffix or prefix tells apart methods of the same name
    ([batch_Order], [sim_Submit], [account_Value]).  A Go [map] is a [gmap]; an
    indexed missing key yields the zero value ([lookup_d]).  The order in which
    [range] visits a map is a parameter ([GoMapOrder]): theorems hold for every
    order that lists each entry once.  The order is a function of the map's
    value, so two loops over equal maps see the same order.  A Go [int] used as
    an index or a length is a [nat], and a [Z] where it may be negative; none of
    them can approach the width of the machine word, being bounded by the number
    of elements in memory.  Where the source works on one object through
    several references, in the prediction at the end of a run, objects have
    numbers and the run's state says which each reference names ([Scene]); a
    clone is a new object.  A channel is a buffer with a capacity: a send that
    finds it full fails, the [select] with a [default] of [deliverFill].

    Parameters, all of them supplied from outside the modelled packages: the time-zone database
    ([TZDB]), the rendering of floats in the text of a split ([FmtFloat]),
    [math.Sqrt], the functions of the gonum library ([Gonum],
    with their documented behaviour in [GonumLaws]), the cron parser and its
    activation times ([Cron]), which sorted permutation [sort.Slice] returns
    ([GoSort]), in which order the concurrent fetches of one chunk answer
    ([GoSched]), [math.Pow], the infinities ([GoInf]), [math.Log] ([NumLog]),
    the linear algebra of gonum ([GonumMat]), the random sources ([GoRand],
    [GoRandFloat]), the normal distribution ([NumNormal]), the text of floats
    in keys and reports ([GoFloatText], [GoFixed]), the price provider and data
    fetcher a broker is given, the data source of a universe, rating and index
    providers, the callbacks a strategy supplies, the outside world of the live
    loop ([LiveEnv]: what the broker reports, what an hour's wait brings; and
    the instants at which it wakes), and, in a study, the function from a configuration to its result
    and the score of a window.

    Which number type a theorem uses is part of what it says.  Functional and
    structural theorems are stated for any [Num] and so hold of binary64.
    Conservation and optimality are theorems of exact arithmetic ([xq]), since
    in binary64 they hold up to rounding only.  The executions of [Findings]
    state which instance they run on.

    ** What the theorems show

    - Ledger ([LedgerProps]): [reachable] is the closure of the three ledger
      operations.  In every reachable ledger each position is its long lots less
      its short lots and never both ([ledger_balanced]); the cash is the total
      of the transaction log ([cash_is_log_total]); synchronising the same
      broker transactions again changes nothing; recording touches one asset
      only and rejects non-finite amounts.
    - Lots ([LotProps]): every selection method closes exactly the asked quantity,
      and its average cost, trade details and basis agree; highest-cost
      selection removes the most basis any method can.
    - Wash sales ([WashProps]): the check at a buy matches the loss sales of the
      thirty days before in order, splits the new lot alone, and records each
      loss once in the basis of the piece that takes it
      ([checkWashSaleOnBuy_absorbs]); no share is created or lost.
    - Account ([AccountProps]): the two valuations agree; the margin deficiency
      is the least amount of cover that cures both limits; position history
      rows stay aligned with the equity curve.
    - Batches ([BatchProps]): [built] is the closure of the operations of
      [Batch]; a built batch has sound groups, the interface [ExecuteBatch]
      relies on.  Liquidating flattens, allocating lands within one share,
      rebalancing empties what is not a member.
    - Execution ([ExecProps]): proved from [BrokerLaws]: every order of
      a batch with sound groups is submitted once, whatever the middleware, a
      fill is booked once, a filled exit leg cancels its siblings and nothing
      else, the drain empties the queue, cancelling keeps exit legs.
    - Simulated broker ([SimProps]): [deliverFill] refines an unbounded queue;
      each accepted submission is answered by exactly one fill; an order
      accepted on submission respects the margin and leverage limits; a group fills at most one leg.
    - Fill adjusters ([FillProps]): no chain of adjusters improves the price.
    - Frames and periods ([FrameProps], [FrameOpsProps], [ResampleProps],
      [Period]): lookups and ranges are exact on a chronological axis;
      appending and inserting keep the frame well formed and read back;
      arithmetic pairs columns by asset and metric; upsampling fills from the
      right rows, downsampling partitions the rows, merging concatenates; the
      running maximum; the week-to-date window starts on a Monday.
    - Schedules ([ScheduleProps]): of the exchange's time zone,
      [MarketZone] says that its midnights read back, and [ExchangeZone], where
      the clocks change, that the times of day outside the hour changed do; New
      York's clock of 2024 and UTC are instances.  Offsets to market times are exact or out of
      range; the first and last trading days of a month exist and are what
      they are called; a month-end schedule fires at the close of the right
      day, and a schedule without a date modifier at the first activation the
      market is open for.
    - Data access: [served] relates a cache entry to what is on record; whatever
      the cache holds, a request shows exactly what is on record in its range
      ([fetchRange_serves]), the path for one instant agrees with the general
      one ([point_in_time_slab]), a repeated request asks nobody
      ([fetchRange_repeats]), nothing after the current day is shown, and
      nothing of the day itself in mid-session ([Fetch_no_lookahead],
      [FetchAt_no_lookahead]).  The contract these theorems suppose of a
      provider ([answered]) is what the test provider keeps
      ([TestProvider_truthful]).  The cache's byte count is exact
      ([cache_bytes_exact]); every metric of a view has its column
      ([catalogue_has_columns]).
    - Runs: against [ScheduleLaws], the plan lists every trading day with exactly
      its firings ([plan_enumerates]), and a daily close keeps these laws
      ([daily_close_lawful]); a run calls every strategy once a firing, in
      order, with the right clock ([run_calls_strategies_in_order]); the
      equity curves gain one row a step at most and logs only grow
      ([run_records_once_a_day]); the prediction at the end works on clones and
      leaves the account, broker, children and clock of the run as they were
      ([prediction_is_isolated]).
    - Set-up ([SetupProps]): the strict warm-up check passes exactly when every
      asset has its closes on record, and otherwise names the assets that are
      short and by how much ([validateWarmup_strict]); the end of a
      run is cut to the last day whose closes are published
      ([adjustEndForExpectedEOD_exact]); an account resumed from a snapshot
      without substitutions has that snapshot and stays in balance
      ([snapshot_round_trip]).
    - Live ([LiveProps]): the loop calls the strategy once at each firing of
      its schedule it wakes for, in order, and misses a firing only while a
      step is under way ([live_serves_firings]); a step records the day at its
      close, and not after an error of the strategy ([live_step_marks]).
    - Statistics and metrics ([StatsProps], [MetricProps], [Gains]): the
      performance frame stays well typed and gains the row of the day, with the
      account's value, when the mark is later than the last
      ([UpdatePrices_keeps_history_typed]);
      the cache of derived frames cannot be observed ([cache_is_invisible]);
      gains, proceeds and open cost balance over a log
      ([realized_gains_conserve]); returns ignore deposits
      ([TWRR_ignores_flows]); the drawdown is the deepest fall; the withdrawal
      rates are the greatest of their grid that last
      ([WithdrawalRates_are_greatest]); the one-pass deviation series is the
      expanding sample deviation ([StdDev_series_is_expanding]).
    - Indicators and factors ([SignalProps]): oscillators stay in their ranges
      ([Oscillators_in_range]); the regression line is the least-squares line;
      forward selection of factors adds the best one, descends and ends
      ([StepwiseFactorAnalysis_descends]).
    - Resampled histories ([Resampling]): every resampler returns as many whole
      days as asked for ([Resample_draws_days]), and prices rebuilt from
      returns are the original ones ([synthetic_prices_round_trip]).
    - Universes ([Index], [UniverseProps]): index membership is the replay
      of snapshots and changes whatever dates were asked before; the cache of a
      rated universe cannot be observed; a spliced window is the concatenation
      of its segments' rows.
    - Weighting ([WeightingProps]): ranked selection picks the best and equal
      weighting spreads over them; signal weights are proportional and sum to
      one; the risk parity iteration stays on the simplex.
    - Studies ([StudyProps]): range subtraction is exact; folds partition, walk-
      forward windows advance, hold-outs are enumerated once each; sweeps and
      their product list every value and combination.
    - Searches ([GaussianProps], [SearchProps]): the fitted regression solves its
      system ([Fit_predicts_scores]); the top-k scan selects the greatest values
      ([topKIndices_selects]); a Bayesian search with a first batch ends with a
      score for each combination ([bayesian_search_ends]); scoring through the
      map of combinations is scoring block by block
      ([scoreBatch_scores_blocks]).
    - Analyses ([ReportProps]): the bands of the fan chart are ordered and
      bounded ([fan_chart_bands_ordered]); the optimizer ranks each combination
      once, best first ([optimizer_ranks_once]).
    - [Findings], the last theorems of [WashProps] and single theorems of other
      files ([Covariance_panics_without_rows], [SubtractRanges_past_window],
      [SweepRange_diverges_at_max], [week_begin_skips_first_day],
      [splice_cutoff_within_a_day], [flow_between_rows_is_return],
      [windows_count_returns_differently], [permissive_start_forgets_asset],
      [resumed_substitute_out_of_balance], [nested_weights_rejected],
      [live_error_skips_mark], [delisted_short_never_realized], [empty_batch_never_ends],
      [historical_without_risk_free_aborts]): executions whose results contradict the
      purpose or the documentation of the code.

    ** Fuel and bounds

    Loops that are not structural take fuel.  The fill drain takes the length
    of the queue; by [BrokerLaws] handling a fill enqueues nothing, so the queue
    is empty at the end ([drain_takes_everything]).  The binary search takes the
    length of the range, which at least halves ([search_loop_least]).  Moving a
    full channel into a grown one takes the number of elements
    ([deliverFill_is_enqueue]).  The reconciler's passes are bounded by 16
    ([maxReconcilePasses]), the risk parity iterations by 1000
    ([riskParityMaxIter]) and the search for an open market by 5001 activations
    ([max_iterations]) in the source itself.  The day loops of the market
    calendar, the time axis of an upsampled frame, the walk-forward windows,
    the hold-out combinations and the sweeps return nothing when their fuel
    runs out; the theorems about them say how much is enough
    ([Month_trading_days], [Next_month_end], [Upsample_fills],
    [WalkForward_windows], [ScenarioLeaveNOut_enumerates],
    [SweepRange_lists_grid]).  So do the enumeration of firings, for which
    [plan_enumerates] gives a bound (the nanoseconds of the range; a witness
    runs with ten), the filling of a predicted frame ([fill_rows]), the walk
    back over trading days and the permissive scan of the warm-up check
    ([validateWarmup_strict] says how much the walk needs).  The block bootstrap takes the
    length it fills ([fill_blocks]), forward selection the number of factors
    ([stepwise]), Newton's method and the withdrawal grids the bounds of the
    source, and the search loop the number of guided rounds and two
    ([bayesian_search_ends]); with an empty first batch none is enough
    ([empty_batch_never_ends]).  A Go
    panic, of [Next] or of an allocation of negative length in [chunkYears],
    is the absence of a result.

    ** Not modelled

    - Storage and snapshots on disk ([portfolio/sqlite.go],
      [data/snapshot_provider.go], [data/snapshot_recorder.go],
      [data/pvdata_intraday.go]): SQL text and row scanning around drivers that
      are not part of the repository.  The rows the price queries of
      [data/pvdata_provider.go] return are modelled.
    - Broker adapters ([broker/alpaca/] and its siblings): HTTP, OAuth and
      streaming clients of services outside the repository.
    - Command line, terminal and JSON reports, the library registry: input and
      output, and builds of other programs.
    - Reflection over strategy structs ([engine/hydrate.go],
      [engine/apply_params.go], [engine/descriptor.go]): the fields it finds are
      given as lists ([StrategyField], [ChildField]).
    - Concurrency: the worker pool of a study and the fetches of a chunk are
      modelled by the results they collect, in every order the latter may
      answer; progress and portfolio channels are left out.
    - Logging, progress callbacks, metadata, guards for a nil broker, formatted
      numbers inside error texts and annotations, and the data source attached
      to a frame (an argument where it is used).

    A strategy's [Reconcile] and margin-call handlers are functions that fill the
    batch they are given and change nothing else.  What the engine's caches
    gain from a broker's own price request is not carried on; by
    [fetchRange_serves] it could not be seen in an answer. *)
From Stdlib Require Import ZArith Lia Sorted.
From stdpp Require Import base list gmap strings.

(** ** Results

    Go's [(T, error)] pair: the value when the error is nil, the error's text
    otherwise.  Texts keep their static part and the strings they embed;
    formatted floats and dates are left out. *)
Definition error : Type := string.

Inductive result (A : Type) : Type :=
  | Ok (a : A)
  | Err (e : error).
Arguments Ok {A} _.
Arguments Err {A} _.

Definition is_Ok {A} (r : result A) : bool := match r with Ok _ => true | Err _ => false end.

#[export] Instance result_ret : MRet result := λ A a, Ok a.
#[export] Instance result_bind : MBind result := λ A B f m,
  match m with Ok a => f a | Err e => Err e end.
#[export] Instance result_fmap : FMap result := λ A B f m,
  match m with Ok a => Ok (f a) | Err e => Err e end.

Lemma result_bind_Ok {A B} (f : A → result B) (m : result A) (b : B) :
  m ≫= f = Ok b ↔ ∃ a, m = Ok a ∧ f a = Ok b.
Proof.
  destruct m as [a|e]; cbn.
  - split; [by exists a|]. by intros (? & [= ->] & ?).
  - split; [done|]. by intros (? & ? & ?).
Qed.

(** ** Go maps

    Indexing a missing key gives the zero value ([lookup_d]); [range] visits
    every entry once, in an order the language leaves unspecified.  The order
    is a parameter of the definitions that iterate a map, so that a theorem
    holds for every order. *)
Definition lookup_d {K A} `{Countable K} (d : A) (m : gmap K A) (k : K) : A :=
  default d (m !! k).

Class GoMapOrder : Type := {
  range : ∀ {K A : Type} `{Countable K}, gmap K A → list (K * A);
  range_perm : ∀ {K A : Type} `{Countable K} (m : gmap K A), range m ≡ₚ map_to_list m;
}.

(** The order of the key encoding, for evaluating concrete runs. *)
#[global] Instance canonical_order : GoMapOrder | 100 := {
  range := λ K A _ _ m, map_to_list m;
  range_perm := λ K A _ _ m, reflexivity _;
}.

Section Maps.
Context {K A : Type} `{Countable K}.
Implicit Types (m : gmap K A) (k : K).

Lemma lookup_d_insert_eq (d x : A) m k : lookup_d d (<[k:=x]> m) k = x.
Proof. unfold lookup_d. by rewrite lookup_insert_eq. Qed.

Lemma lookup_d_insert_ne (d x : A) m k k' :
  k ≠ k' → lookup_d d (<[k:=x]> m) k' = lookup_d d m k'.
Proof. intros. unfold lookup_d. by rewrite lookup_insert_ne. Qed.

Lemma lookup_d_delete_eq (d : A) m k : lookup_d d (delete k m) k = d.
Proof. unfold lookup_d. by rewrite lookup_delete_eq. Qed.

Lemma lookup_d_delete_ne (d : A) m k k' :
  k ≠ k' → lookup_d d (delete k m) k' = lookup_d d m k'.
Proof. intros. unfold lookup_d. by rewrite lookup_delete_ne. Qed.

Lemma lookup_d_alter_eq (d : A) (f : A → A) m k :
  lookup_d d (alter f k m) k = default d (f <$> m !! k).
Proof. unfold lookup_d. by rewrite lookup_alter_eq. Qed.

Lemma lookup_d_alter_ne (d : A) (f : A → A) m k k' :
  k ≠ k' → lookup_d d (alter f k m) k' = lookup_d d m k'.
Proof. intros. unfold lookup_d. by rewrite lookup_alter_ne. Qed.

Lemma lookup_d_empty (d : A) k : lookup_d d (∅ : gmap K A) k = d.
Proof. unfold lookup_d. by rewrite lookup_empty. Qed.

Context `{GoMapOrder}.

Lemma elem_of_range m k (x : A) : (k, x) ∈ range m ↔ m !! k = Some x.
Proof. rewrite range_perm. apply elem_of_map_to_list. Qed.

Lemma NoDup_range_fst m : NoDup (range m).*1.
Proof. rewrite range_perm. apply NoDup_fst_map_to_list. Qed.

Lemma length_range m : length (range m) = size m.
Proof. rewrite range_perm. apply length_map_to_list. Qed.

Lemma range_empty : range (∅ : gmap K A) = [].
Proof. apply Permutation_nil_r. rewrite range_perm. by rewrite map_to_list_empty. Qed.
End Maps.

Create Rewrite HintDb lookup_d.
#[export] Hint Rewrite @lookup_d_insert_eq @lookup_d_delete_eq : lookup_d.
#[export] Hint Rewrite @lookup_d_insert_ne @lookup_d_delete_ne
  @lookup_d_alter_ne using done : lookup_d.

(** ** Lists *)
Section Lists.
Context {A : Type}.
Implicit Types (l : list A).

(** The last element, as the source's [s[len(s)-1]] guarded by [len(s) > 0]. *)
Definition last_opt l : option A := last l.

(** [floats = floats[:0]; for x { if keep(x) { append } }] *)
Definition keep (P : A → bool) l : list A := List.filter P l.

Lemma StronglySorted_mono (R S : relation A) l :
  (∀ x y, R x y → S x y) → StronglySorted R l → StronglySorted S l.
Proof.
  intros HRS. induction 1 as [|x l Hl IH Hx]; constructor; [done|].
  eapply Forall_impl; [exact Hx|]. auto.
Qed.

Lemma StronglySorted_snoc (R : relation A) l x :
  Transitive R → StronglySorted R l → (∀ u, last l = Some u → R u x) → StronglySorted R (l ++ [x]).
Proof.
  intros HR. induction 1 as [|u l Hs IH Hu]; intros Hl; cbn; [by repeat constructor|]. constructor.
  - apply IH. intros v Hv. apply Hl. by rewrite last_cons, Hv.
  - apply Forall_app. split; [done|]. constructor; [|constructor]. destruct (last l) as [v|] eqn:Hv.
    + transitivity v; [|apply Hl; by rewrite last_cons, Hv]. rewrite Forall_forall in Hu. apply Hu.
      apply last_Some in Hv as [l' ->]. set_solver.
    + apply Hl. by rewrite last_cons, Hv.
Qed.

Lemma fold_left_ext {B} (f g : B → A → B) (l : list A) b :
  (∀ b x, f b x = g b x) → fold_left f l b = fold_left g l b.
Proof. intros Hfg. revert b. induction l as [|x l IH]; intros b; cbn; [done|]. by rewrite Hfg, IH. Qed.

(** What a loop keeps, and what each of its steps leaves for good. *)
Lemma fold_left_keeps {B} (f : B → A → B) (P : B → Prop) (l : list A) b :
  P b → (∀ b x, x ∈ l → P b → P (f b x)) → P (fold_left f l b).
Proof.
  revert b. induction l as [|x l IH]; intros b Hb Hf; cbn; [done|]. apply IH; [apply Hf; [left|done]|].
  intros. apply Hf; [by right|done].
Qed.
Lemma fold_left_leaves {B} (f : B → A → B) (P : B → Prop) (Q : A → B → Prop) (l : list A) b :
  P b → (∀ b x, x ∈ l → P b → P (f b x) ∧ Q x (f b x)) →
  (∀ b x y, x ∈ l → P b → Q y b → Q y (f b x)) →
  P (fold_left f l b) ∧ ∀ x, x ∈ l → Q x (fold_left f l b).
Proof.
  intros Hb Hf Hkeep. revert b Hb. induction l as [|x l IH]; intros b Hb; cbn; [split; [done|set_solver]|].
  destruct (Hf b x) as [Hx HQ]; [left|done|]. destruct (IH (λ b y Hy, Hf b y (list_elem_of_further _ _ _ Hy))
    (λ b y z Hy, Hkeep b y z (list_elem_of_further _ _ _ Hy)) (f b x) Hx) as [HP HQ'].
  split; [done|]. intros y [->|Hy]%elem_of_cons; [|by apply HQ'].
  apply (fold_left_keeps f (λ b, P b ∧ Q x b)); [done|]. intros b' z Hz [HPb HQb].
  split; [apply Hf; [by right|done]|apply Hkeep; [by right|done|done]].
Qed.

Lemma keep_cons P x l : keep P (x :: l) = if P x then x :: keep P l else keep P l.
Proof. reflexivity. Qed.

Lemma keep_false P l : Forall (λ x, P x = false) l → keep P l = [].
Proof. induction 1 as [|x l Hx _ IH]; [done|]. by rewrite keep_cons, Hx. Qed.

Lemma keep_app P l1 l2 : keep P (l1 ++ l2) = keep P l1 ++ keep P l2.
Proof. apply List.filter_app. Qed.

Lemma elem_of_keep P l x : x ∈ keep P l ↔ P x = true ∧ x ∈ l.
Proof. unfold keep. rewrite !list_elem_of_In, List.filter_In. tauto. Qed.

Lemma keep_sublist P l : keep P l `sublist_of` l.
Proof.
  induction l as [|x l IH]; cbn; [constructor|].
  destruct (P x); by constructor.
Qed.
Lemma NoDup_keep P l : NoDup l → NoDup (keep P l).
Proof. intros Hnd. eapply sublist_NoDup; [exact Hnd|apply keep_sublist]. Qed.

Lemma keep_keep P l : keep P (keep P l) = keep P l.
Proof.
  unfold keep. induction l as [|x l IH]; cbn; [done|].
  destruct (P x) eqn:E; cbn; rewrite ?E; congruence.
Qed.

Lemma keep_all P l : Forall (λ x, P x = true) l → keep P l = l.
Proof. unfold keep. induction 1 as [|x l Hx _ IH]; cbn; [done|]. by rewrite Hx, IH. Qed.

(** [sort.SliceStable]: for a strict weak order every stable sort gives this
    list. *)
Fixpoint insert_stable (less : A → A → bool) (x : A) l : list A :=
  match l with
  | [] => [x]
  | y :: l' => if less y x then y :: insert_stable less x l' else x :: l
  end.

Definition stable_sort (less : A → A → bool) l : list A :=
  foldr (insert_stable less) [] l.

Lemma insert_stable_perm less x l : insert_stable less x l ≡ₚ x :: l.
Proof.
  induction l as [|y l IH]; cbn; [done|].
  destruct (less y x); [|done]. rewrite IH. constructor.
Qed.

Lemma stable_sort_perm less l : stable_sort less l ≡ₚ l.
Proof. induction l as [|x l IH]; cbn; [done|]. by rewrite insert_stable_perm, IH. Qed.

Definition in_order (less : A → A → bool) (x y : A) : Prop := less y x = false.

(** A strict weak order on the elements that satisfy [P]: a float order is one
    on the numbers, not on NaN. *)
Section Sorted.
Context (less : A → A → bool) (P : A → Prop).
Context (less_asym : ∀ x y, P x → P y → less x y = true → less y x = false).
Context (nless_trans : ∀ x y z, P x → P y → P z →
  less y x = false → less z y = false → less z x = false).

Lemma insert_stable_sorted x l :
  P x → Forall P l → StronglySorted (in_order less) l → StronglySorted (in_order less) (insert_stable less x l).
Proof.
  intros Hx HP. induction 1 as [|y l Hl IH Hy]; cbn; [repeat constructor|].
  apply Forall_cons in HP as [HPy HPl]. destruct (less y x) eqn:E; constructor; try done.
  - by apply IH.
  - rewrite insert_stable_perm. constructor; [by apply less_asym|done].
  - by constructor.
  - constructor; [done|]. apply Forall_forall. intros z Hz. rewrite Forall_forall in Hy, HPl.
    unfold in_order in *. eauto.
Qed.

Lemma stable_sort_sorted_on l : Forall P l → StronglySorted (in_order less) (stable_sort less l).
Proof.
  induction 1 as [|x l Hx Hl IH]; cbn; [constructor|]. apply insert_stable_sorted; [done| |done].
  change (Forall P (stable_sort less l)). by rewrite stable_sort_perm.
Qed.
End Sorted.

Lemma stable_sort_sorted less l :
  (∀ x y, less x y = true → less y x = false) →
  (∀ x y z, less y x = false → less z y = false → less z x = false) →
  StronglySorted (in_order less) (stable_sort less l).
Proof. intros Ha Ht. apply (stable_sort_sorted_on less (λ _, True)); eauto. by apply Forall_true. Qed.

(** Sorting a list already in order changes nothing. *)
Lemma stable_sort_id less l : StronglySorted (in_order less) l → stable_sort less l = l.
Proof.
  induction 1 as [|x l Hl IH Hx]; [done|].
  change (stable_sort less (x :: l)) with (insert_stable less x (stable_sort less l)).
  rewrite IH. destruct l as [|y l]; [done|]. cbn.
  rewrite Forall_cons in Hx. by destruct Hx as [-> _].
Qed.
End Lists.

(** ** [sort.Slice]

    The sort is not stable, so which of several sorted permutations it returns
    is a parameter; [stable_sort] is one of them.  The result is in order when
    the comparison is a strict weak order on the elements of the list. *)
Class GoSort : Type := {
  sort_slice : ∀ {A : Type}, (A → A → bool) → list A → list A;
  sort_slice_perm : ∀ {A : Type} (less : A → A → bool) (l : list A), sort_slice less l ≡ₚ l;
  sort_slice_sorted_on : ∀ {A : Type} (less : A → A → bool) (P : A → Prop) (l : list A),
    (∀ x y, P x → P y → less x y = true → less y x = false) →
    (∀ x y z, P x → P y → P z → less y x = false → less z y = false → less z x = false) →
    Forall P l → StronglySorted (in_order less) (sort_slice less l);
}.

Lemma sort_slice_sorted `{GoSort} {A : Type} (less : A → A → bool) (l : list A) :
  (∀ x y, less x y = true → less y x = false) →
  (∀ x y z, less y x = false → less z y = false → less z x = false) →
  StronglySorted (in_order less) (sort_slice less l).
Proof. intros Ha Ht. apply (sort_slice_sorted_on less (λ _, True)); eauto. by apply Forall_true. Qed.

Definition stable_sort_slice : GoSort := {|
  sort_slice := @stable_sort;
  sort_slice_perm := @stable_sort_perm;
  sort_slice_sorted_on := λ A less P l Ha Ht, stable_sort_sorted_on less P Ha Ht l;
|}.

(** ** Tactics *)

(** Case analysis on the conditions of the goal, in evaluation order. *)
Ltac case_if := match goal with
  | |- context [if ?b then _ else _] => destruct b eqn:?
  end.
Ltac case_if_in H := match type of H with
  | context [if ?b then _ else _] => destruct b eqn:?
  end.
