(* ===== verification/Num.v ===== *)
(** * Num: the numbers the program computes with

    Every quantity, price and dollar amount of the Go code is a [float64].  The
    development abstracts the operations the source uses (arithmetic, the three
    comparisons, NaN and infinity tests, [math.Floor], [math.Abs], the
    conversion [float64(int)]) in the class [Num] and gives two instances:

    - [Num_float64]: IEEE 754 binary64, the kernel's primitive floats, the
      numbers the compiled program has (without fused multiply-add);
    - [Num_exact]: the same operations without rounding, on rationals extended
      with NaN and the two infinities, so that the guards against special
      values keep their meaning.

    A theorem quantified over [Num F] holds of binary64.  A theorem of exact
    arithmetic (conservation laws, bounds that rounding can break by an ulp) is
    stated at [Num_exact].  [NumOrd] collects the order laws both instances
    satisfy, NaN included. *)
From Stdlib Require Import ZArith QArith Qcanon Qround Lqa Floats.
From stdpp Require Import base list.
From S2P Require Import Prelude.

Declare Scope num_scope.
Delimit Scope num_scope with F.

(** ** The operations *)
Class Num (F : Type) : Type := {
  fadd : F → F → F;
  fsub : F → F → F;
  fmul : F → F → F;
  fdiv : F → F → F;
  fneg : F → F;
  fabs : F → F;
  ffloor : F → F;
  flt : F → F → bool;
  fle : F → F → bool;
  feq : F → F → bool;
  fnan : F;
  is_nan : F → bool;
  is_inf : F → bool;
  of_Z : Z → F;
}.

Notation "x + y" := (fadd x y) : num_scope.
Notation "x - y" := (fsub x y) : num_scope.
Notation "x * y" := (fmul x y) : num_scope.
Notation "x / y" := (fdiv x y) : num_scope.
Notation "- x" := (fneg x) : num_scope.
Notation "x <? y" := (flt x y) : num_scope.
Notation "x <=? y" := (fle x y) : num_scope.
Notation "x >? y" := (flt y x) (at level 70, only parsing) : num_scope.
Notation "x >=? y" := (fle y x) (at level 70, only parsing) : num_scope.
Notation "x =? y" := (feq x y) : num_scope.
Notation "x !=? y" := (negb (feq x y)) (at level 70) : num_scope.
Notation "0" := (of_Z 0) : num_scope.
Notation "1" := (of_Z 1) : num_scope.

Section Derived.
Context {F : Type} `{Num F}.
Local Open Scope num_scope.

(** [math.Ceil(x) = -math.Floor(-x)], as Go defines it. *)
Definition fceil (x : F) : F := - ffloor (- x).

(** A decimal literal n/d: both parts are integers binary64 represents, so
    the quotient is the correctly rounded literal. *)
Definition lit (n d : Z) : F := of_Z n / of_Z d.

(** [a > b ? b : a]: the source's capping idiom [if x > y { x = y }]. *)
Definition cap (x y : F) : F := if x >? y then y else x.

(** A left-to-right accumulation [for _, x := range l { acc += x }]. *)
Definition fsum_from (acc : F) (l : list F) : F := fold_left fadd l acc.
Definition fsum (l : list F) : F := fsum_from 0 l.

Lemma fsum_from_app (acc : F) (l1 l2 : list F) :
  fsum_from acc (l1 ++ l2) = fsum_from (fsum_from acc l1) l2.
Proof. apply fold_left_app. Qed.

Lemma fsum_from_snoc (acc : F) (l : list F) (x : F) :
  fsum_from acc (l ++ [x]) = fsum_from acc l + x.
Proof. by rewrite fsum_from_app. Qed.
End Derived.

(** ** binary64 *)
Definition sf_to_float (s : spec_float) : float := SF2Prim s.

Definition float_of_Z (z : Z) : float :=
  sf_to_float (binary_normalize FloatOps.prec FloatOps.emax z 0 false).

(** [math.Floor]: the identity on special values and on integers. *)
Definition float_floor (x : float) : float :=
  match Prim2SF x with
  | S754_finite s m e =>
      if (0 <=? e)%Z then x
      else float_of_Z ((if s then Z.neg m else Z.pos m) / 2 ^ (- e))%Z
  | _ => x
  end.

#[export] Instance Num_float64 : Num float := {
  fadd := PrimFloat.add;
  fsub := PrimFloat.sub;
  fmul := PrimFloat.mul;
  fdiv := PrimFloat.div;
  fneg := PrimFloat.opp;
  fabs := PrimFloat.abs;
  ffloor := float_floor;
  flt := PrimFloat.ltb;
  fle := PrimFloat.leb;
  feq := PrimFloat.eqb;
  fnan := PrimFloat.nan;
  is_nan := PrimFloat.is_nan;
  is_inf := PrimFloat.is_infinity;
  of_Z := float_of_Z;
}.

(** [math.Sqrt] and [math.Log]; the square root of binary64 is the kernel's. *)
Class NumSqrt (F : Type) : Type := { fsqrt : F → F }.
#[export] Instance NumSqrt_float64 : NumSqrt float := { fsqrt := PrimFloat.sqrt }.
Class NumLog (F : Type) : Type := { flog : F → F }.
(** [math.Pow] *)
Class NumPow (F : Type) : Type := { fpow : F → F → F }.
(** [math.Erfc] and [math.Sqrt2] *)
Class NumErfc (F : Type) : Type := { ferfc : F → F; fsqrt2 : F }.

(** ** Arithmetic without rounding *)
Inductive xq : Type :=
  | Fin (q : Qc)
  | PInf
  | NInf
  | XNaN.

Definition qc_ltb (a b : Qc) : bool := negb (Qle_bool b a).
Definition qc_leb (a b : Qc) : bool := Qle_bool a b.
Definition qc_eqb (a b : Qc) : bool := Qeq_bool a b.
Definition qc_of_Z (z : Z) : Qc := Q2Qc (inject_Z z).

Definition xneg (x : xq) : xq :=
  match x with Fin q => Fin (- q) | PInf => NInf | NInf => PInf | XNaN => XNaN end.

Definition xadd (x y : xq) : xq :=
  match x, y with
  | Fin a, Fin b => Fin (a + b)
  | XNaN, _ | _, XNaN | PInf, NInf | NInf, PInf => XNaN
  | PInf, _ | _, PInf => PInf
  | NInf, _ | _, NInf => NInf
  end.

(** The infinity of the sign of [a]; [zero] when a is zero. *)
Definition inf_of_sign (a : Qc) (zero : xq) : xq :=
  if qc_ltb 0 a then PInf else if qc_ltb a 0 then NInf else zero.

Definition xmul (x y : xq) : xq :=
  match x, y with
  | Fin a, Fin b => Fin (a * b)
  | XNaN, _ | _, XNaN => XNaN
  | PInf, PInf | NInf, NInf => PInf
  | PInf, NInf | NInf, PInf => NInf
  | Fin a, PInf | PInf, Fin a => inf_of_sign a XNaN
  | Fin a, NInf | NInf, Fin a => inf_of_sign (- a) XNaN
  end.

Definition xdiv (x y : xq) : xq :=
  match x, y with
  | Fin a, Fin b => if qc_eqb b 0 then inf_of_sign a XNaN else Fin (a / b)
  | XNaN, _ | _, XNaN => XNaN
  | Fin _, _ => Fin 0
  | PInf, Fin b => if qc_ltb b 0 then NInf else PInf
  | NInf, Fin b => if qc_ltb b 0 then PInf else NInf
  | _, _ => XNaN
  end.

Definition xlt (x y : xq) : bool :=
  match x, y with
  | Fin a, Fin b => qc_ltb a b
  | XNaN, _ | _, XNaN => false
  | Fin _, PInf | NInf, Fin _ | NInf, PInf => true
  | _, _ => false
  end.

Definition xle (x y : xq) : bool :=
  match x, y with
  | Fin a, Fin b => qc_leb a b
  | XNaN, _ | _, XNaN => false
  | _, PInf | NInf, _ => true
  | _, _ => false
  end.

Definition xeq (x y : xq) : bool :=
  match x, y with
  | Fin a, Fin b => qc_eqb a b
  | PInf, PInf | NInf, NInf => true
  | _, _ => false
  end.

#[export] Instance Num_exact : Num xq := {
  fadd := xadd;
  fsub := λ x y, xadd x (xneg y);
  fmul := xmul;
  fdiv := xdiv;
  fneg := xneg;
  fabs := λ x, match x with
               | Fin a => Fin (if qc_ltb a 0 then - a else a)
               | NInf => PInf
               | x => x
               end;
  ffloor := λ x, match x with Fin a => Fin (qc_of_Z (Qfloor a)) | x => x end;
  flt := xlt;
  fle := xle;
  feq := xeq;
  fnan := XNaN;
  is_nan := λ x, match x with XNaN => true | _ => false end;
  is_inf := λ x, match x with PInf | NInf => true | _ => false end;
  of_Z := λ z, Fin (qc_of_Z z);
}.

#[global] Arguments Qcplus : simpl never.
#[global] Arguments Qcminus : simpl never.
#[global] Arguments Qcmult : simpl never.
#[global] Arguments Qcopp : simpl never.
#[global] Arguments Qcdiv : simpl never.
#[global] Arguments Qcinv : simpl never.
#[global] Arguments Q2Qc : simpl never.
#[global] Arguments qc_ltb : simpl never.
#[global] Arguments qc_leb : simpl never.
#[global] Arguments qc_eqb : simpl never.
#[global] Arguments qc_of_Z : simpl never.

(** ** Linear arithmetic on [Qc]

    [qclra] moves a goal about canonical rationals to [Q], where [lra] decides
    it: each sum, difference, product or opposite contributes its defining
    equation as a hypothesis. *)
Lemma this_add (a b : Qc) : (this (a + b)%Qc == this a + this b)%Q.
Proof. apply Qred_correct. Qed.
Lemma this_mul (a b : Qc) : (this (a * b)%Qc == this a * this b)%Q.
Proof. apply Qred_correct. Qed.
Lemma this_opp (a : Qc) : (this (- a)%Qc == - this a)%Q.
Proof. apply Qred_correct. Qed.
Lemma this_sub (a b : Qc) : (this (a - b)%Qc == this a - this b)%Q.
Proof. unfold Qcminus. by rewrite this_add, this_opp. Qed.
Lemma this_of_Z (z : Z) : (this (qc_of_Z z) == inject_Z z)%Q.
Proof. apply Qred_correct. Qed.
Lemma this_0 : (this 0%Qc == 0)%Q.
Proof. reflexivity. Qed.
Lemma this_1 : (this 1%Qc == 1)%Q.
Proof. reflexivity. Qed.
Lemma qc_eq_this (a b : Qc) : a = b → (this a == this b)%Q.
Proof. by intros ->. Qed.
Lemma qc_neq_this (a b : Qc) : a ≠ b → (this a < this b)%Q ∨ (this b < this a)%Q.
Proof.
  intros Hne. destruct (Q_dec (this a) (this b)) as [[?|?]|?]; auto.
  destruct Hne. by apply Qc_is_canon.
Qed.

Lemma qc_of_Z_0 : qc_of_Z 0 = 0%Qc.
Proof. reflexivity. Qed.
Lemma qc_of_Z_1 : qc_of_Z 1 = 1%Qc.
Proof. reflexivity. Qed.

(** Evaluation of exact operations on finite numbers. *)
Ltac xcbn := cbn in *; rewrite ?qc_of_Z_0, ?qc_of_Z_1 in *.

Ltac qc_pose H :=
  let T := type of H in
  lazymatch goal with _ : T |- _ => fail | _ => pose proof H end.

Ltac qc_expand :=
  repeat match goal with
    | H : @eq Qc ?a ?b |- _ => apply qc_eq_this in H
    | H : @eq Qc ?a ?b → False |- _ => apply qc_neq_this in H
    | H : not (@eq Qc ?a ?b) |- _ => apply qc_neq_this in H
    | |- @eq Qc ?a ?b => apply Qc_is_canon
    end;
  unfold Qclt, Qcle in *;
  repeat match goal with
    | |- context [this (?a + ?b)%Qc] => qc_pose (this_add a b)
    | |- context [this (?a - ?b)%Qc] => qc_pose (this_sub a b)
    | |- context [this (?a * ?b)%Qc] => qc_pose (this_mul a b)
    | |- context [this (- ?a)%Qc] => qc_pose (this_opp a)
    | |- context [this 0%Qc] => qc_pose this_0
    | |- context [this 1%Qc] => qc_pose this_1
    | H : context [this (?a + ?b)%Qc] |- _ => qc_pose (this_add a b)
    | H : context [this (?a - ?b)%Qc] |- _ => qc_pose (this_sub a b)
    | H : context [this (?a * ?b)%Qc] |- _ => qc_pose (this_mul a b)
    | H : context [this (- ?a)%Qc] |- _ => qc_pose (this_opp a)
    | H : context [this 0%Qc] |- _ => qc_pose this_0
    | H : context [this 1%Qc] |- _ => qc_pose this_1
    end.

(** The rational facts reach [lra] with opaque atoms for the [this] terms. *)
Ltac qc_atoms :=
  repeat match goal with
    | H : (_ == _)%Q |- _ => revert H
    | H : (_ < _)%Q |- _ => revert H
    | H : (_ <= _)%Q |- _ => revert H
    | H : (_ < _)%Q ∨ (_ < _)%Q |- _ => revert H
    end;
  repeat match goal with |- context [this ?t] => generalize (this t) end; intros.
Ltac qc_goal :=
  intros;
  lazymatch goal with
  | |- @eq Qc _ _ => idtac
  | |- Qclt _ _ => idtac
  | |- Qcle _ _ => idtac
  | |- not (@eq Qc _ _) => intro
  | |- _ => exfalso
  end.
Ltac qclra := intros;
  lazymatch goal with
  | |- _ ∧ _ => split; qclra
  | |- _ => qc_goal; qc_expand; qc_atoms; lra
  end.
Ltac qcnra := qc_goal; qc_expand; qc_atoms; nra.

Lemma qc_ltb_true (a b : Qc) : qc_ltb a b = true ↔ (a < b)%Qc.
Proof.
  unfold qc_ltb, Qclt. rewrite negb_true_iff, <-not_true_iff_false, Qle_bool_iff.
  split; [apply Qnot_le_lt | apply Qlt_not_le].
Qed.
Lemma qc_ltb_false (a b : Qc) : qc_ltb a b = false ↔ (b <= a)%Qc.
Proof. unfold qc_ltb, Qcle. by rewrite negb_false_iff, Qle_bool_iff. Qed.
Lemma qc_leb_true (a b : Qc) : qc_leb a b = true ↔ (a <= b)%Qc.
Proof. unfold qc_leb, Qcle. apply Qle_bool_iff. Qed.
Lemma qc_leb_false (a b : Qc) : qc_leb a b = false ↔ (b < a)%Qc.
Proof.
  unfold qc_leb, Qclt. rewrite <-not_true_iff_false, Qle_bool_iff.
  split; [apply Qnot_le_lt | apply Qlt_not_le].
Qed.
Lemma qc_eqb_true (a b : Qc) : qc_eqb a b = true ↔ a = b.
Proof.
  unfold qc_eqb. rewrite Qeq_bool_iff. split; [apply Qc_is_canon | by intros ->].
Qed.
Lemma qc_eqb_false (a b : Qc) : qc_eqb a b = false ↔ a ≠ b.
Proof. by rewrite <-not_true_iff_false, qc_eqb_true. Qed.
Lemma qc_eqb_refl (a : Qc) : qc_eqb a a = true.
Proof. by apply qc_eqb_true. Qed.

Lemma qc_of_Z_le (a b : Z) : (a <= b)%Z → (qc_of_Z a <= qc_of_Z b)%Qc.
Proof. intros Hab. unfold Qcle. rewrite !this_of_Z. by apply inject_Z_Zle || rewrite <-Zle_Qle. Qed.

Lemma qc_mul_nonneg (a b : Qc) : (0 <= a)%Qc → (0 <= b)%Qc → (0 <= a * b)%Qc.
Proof. qcnra. Qed.

#[export] Instance Qc_eq_dec' : EqDecision Qc := Qc_eq_dec.
#[export] Instance xq_eq_dec : EqDecision xq.
Proof. solve_decision. Defined.

(** The truth values of the exact comparisons, for [autorewrite with qcb]. *)
Create Rewrite HintDb qcb.
#[export] Hint Rewrite qc_ltb_true qc_ltb_false qc_leb_true qc_leb_false
  qc_eqb_true qc_eqb_false : qcb.

(** [qc_case b] splits on a boolean comparison and turns it into the
    inequality it decides. *)
Ltac qc_bools :=
  repeat match goal with
    | H : qc_ltb _ _ = true |- _ => apply qc_ltb_true in H
    | H : qc_ltb _ _ = false |- _ => apply qc_ltb_false in H
    | H : qc_leb _ _ = true |- _ => apply qc_leb_true in H
    | H : qc_leb _ _ = false |- _ => apply qc_leb_false in H
    | H : qc_eqb _ _ = true |- _ => apply qc_eqb_true in H
    | H : qc_eqb _ _ = false |- _ => apply qc_eqb_false in H
    end.
Ltac qc_case :=
  match goal with
  | |- context [if ?b then _ else _] => destruct b eqn:?; qc_bools
  end.

(** Finite sums of rationals. *)
Fixpoint qsum (l : list Qc) : Qc :=
  match l with [] => 0%Qc | x :: l => (x + qsum l)%Qc end.

Lemma qsum_app (l1 l2 : list Qc) : qsum (l1 ++ l2) = (qsum l1 + qsum l2)%Qc.
Proof. induction l1 as [|x l1 IH]; cbn; [qclra|]. rewrite IH. qclra. Qed.

Lemma qsum_perm (l1 l2 : list Qc) : l1 ≡ₚ l2 → qsum l1 = qsum l2.
Proof. induction 1; cbn; [done|congruence|qclra|congruence]. Qed.

Lemma qsum_nonneg (l : list Qc) : Forall (λ x, 0 <= x)%Qc l → (0 <= qsum l)%Qc.
Proof. induction 1; cbn; qclra. Qed.

Lemma fsum_from_exact (acc : Qc) (l : list Qc) :
  fsum_from (Fin acc) (Fin <$> l) = Fin (acc + qsum l)%Qc.
Proof.
  revert acc. induction l as [|x l IH]; intros acc; cbn.
  - f_equal. qclra.
  - unfold fsum_from in IH. rewrite IH. f_equal. qclra.
Qed.

Lemma fsum_exact (l : list Qc) : fsum (Fin <$> l) = Fin (qsum l).
Proof.
  unfold fsum. change (of_Z 0) with (Fin 0).
  rewrite fsum_from_exact. f_equal. qclra.
Qed.

(** ** Order laws that hold with NaN

    [flt] is a strict order, [fle] is its reflexive closure away from NaN, and
    a comparison with NaN is false. *)
Class NumOrd (F : Type) `{Num F} : Prop := {
  flt_irrefl : ∀ x : F, flt x x = false;
  flt_trans : ∀ x y z : F, flt x y = true → flt y z = true → flt x z = true;
  flt_fle : ∀ x y : F, flt x y = true → fle x y = true;
  fle_not_flt : ∀ x y : F, fle x y = true → flt y x = false;
  flt_total : ∀ x y : F, is_nan x = false → is_nan y = false →
    flt x y = false → fle y x = true;
  flt_nan : ∀ x y : F, flt x y = true → is_nan x = false ∧ is_nan y = false;
  fle_nan : ∀ x y : F, fle x y = true → is_nan x = false ∧ is_nan y = false;
  flt_neg_trans : ∀ x y z : F, is_nan x = false → is_nan y = false → is_nan z = false →
    flt x y = false → flt y z = false → flt x z = false;
  flt_0_1 : flt (of_Z 0) (of_Z 1) = true;
  nan_is_nan : is_nan (fnan : F) = true;
}.

#[export] Instance NumOrd_exact : NumOrd xq.
Proof.
  split; cbn.
  - intros [q| | |]; cbn; try done. apply qc_ltb_false. qclra.
  - intros [x| | |] [y| | |] [z| | |]; cbn; try done; rewrite !qc_ltb_true; qclra.
  - intros [x| | |] [y| | |]; cbn; try done; rewrite qc_ltb_true, qc_leb_true; qclra.
  - intros [x| | |] [y| | |]; cbn; try done; rewrite qc_ltb_false, qc_leb_true; qclra.
  - intros [x| | |] [y| | |]; cbn; try done; rewrite qc_ltb_false, qc_leb_true; qclra.
  - by intros [x| | |] [y| | |].
  - by intros [x| | |] [y| | |].
  - intros [x| | |] [y| | |] [z| | |]; cbn; try done; rewrite !qc_ltb_false; qclra.
  - done.
  - done.
Qed.

(** binary64 satisfies the same laws: its comparisons are those of
    [SpecFloat], lexicographic on (sign, exponent, mantissa). *)
Lemma sf_compare_lt_trans (x y z : spec_float) :
  SFcompare x y = Some Lt → SFcompare y z = Some Lt → SFcompare x z = Some Lt.
Proof.
  destruct x as [sx|sx| |sx mx ex], y as [sy|sy| |sy my ey], z as [sz|sz| |sz mz ez];
    cbn; try destruct sx; try destruct sy; try destruct sz; try done; intros H1 H2;
    (destruct (Z.compare_spec ex ey), (Z.compare_spec ey ez), (Z.compare_spec ex ez);
     try done; try lia;
     change (Pos.compare_cont Eq) with Pos.compare in *;
     destruct (Pos.compare_spec mx my), (Pos.compare_spec my mz), (Pos.compare_spec mx mz);
     try done; try lia).
Qed.

Lemma sf_compare_eq_lt (x y z : spec_float) :
  SFcompare x y = Some Eq → SFcompare x z = Some Lt → SFcompare y z = Some Lt.
Proof.
  destruct x as [sx|sx| |sx mx ex], y as [sy|sy| |sy my ey], z as [sz|sz| |sz mz ez];
    cbn; try destruct sx; try destruct sy; try destruct sz; try done; intros H1 H2;
    (destruct (Z.compare_spec ex ey), (Z.compare_spec ey ez), (Z.compare_spec ex ez);
     try done; try lia;
     change (Pos.compare_cont Eq) with Pos.compare in *;
     destruct (Pos.compare_spec mx my), (Pos.compare_spec my mz), (Pos.compare_spec mx mz);
     try done; try lia).
Qed.

Lemma sf_compare_refl (x : spec_float) :
  SFcompare x x = match x with S754_nan => None | _ => Some Eq end.
Proof.
  destruct x as [[]|[]| |[] m e]; cbn; try done; rewrite Z.compare_refl;
    change (Pos.compare_cont Eq) with Pos.compare; by rewrite Pos.compare_refl.
Qed.

Lemma sf_compare_antisym (x y : spec_float) :
  SFcompare y x = CompOpp <$> SFcompare x y.
Proof.
  destruct x as [[]|[]| |[] mx ex], y as [[]|[]| |[] my ey]; cbn; try done;
    rewrite (Z.compare_antisym ex ey);
    destruct (Z.compare ex ey); cbn; try done;
    change (Pos.compare_cont Eq) with Pos.compare;
    rewrite (Pos.compare_antisym mx my); by destruct (Pos.compare mx my).
Qed.

Lemma sf_compare_some (x y : spec_float) :
  SFcompare x x ≠ None → SFcompare y y ≠ None → SFcompare x y ≠ None.
Proof.
  rewrite !sf_compare_refl.
  destruct x as [[]|[]| |[] mx ex], y as [[]|[]| |[] my ey]; cbn; try done;
    by destruct (Z.compare ex ey).
Qed.

Lemma sf_compare_nan (x y : spec_float) (c : comparison) :
  SFcompare x y = Some c → SFcompare x x = Some Eq ∧ SFcompare y y = Some Eq.
Proof.
  rewrite !sf_compare_refl. by destruct x, y.
Qed.

Lemma float_is_nan_spec (x : float) :
  PrimFloat.is_nan x = match SFcompare (Prim2SF x) (Prim2SF x) with
                       | Some Eq => false | _ => true end.
Proof.
  unfold PrimFloat.is_nan. rewrite FloatAxioms.eqb_spec. unfold SFeqb.
  rewrite sf_compare_refl. by destruct (Prim2SF x).
Qed.

#[export] Instance NumOrd_float64 : NumOrd float.
Proof.
  split; cbn; intros *;
    rewrite ?FloatAxioms.ltb_spec, ?FloatAxioms.leb_spec, ?float_is_nan_spec; unfold SFltb, SFleb.
  - rewrite sf_compare_refl. by destruct (Prim2SF x).
  - destruct (SFcompare (Prim2SF x) (Prim2SF y)) as [[]|] eqn:H1; try done.
    destruct (SFcompare (Prim2SF y) (Prim2SF z)) as [[]|] eqn:H2; try done.
    by rewrite (sf_compare_lt_trans _ _ _ H1 H2).
  - by destruct (SFcompare (Prim2SF x) (Prim2SF y)) as [[]|].
  - rewrite (sf_compare_antisym (Prim2SF x) (Prim2SF y)).
    by destruct (SFcompare (Prim2SF x) (Prim2SF y)) as [[]|].
  - rewrite (sf_compare_antisym (Prim2SF x) (Prim2SF y)).
    destruct (SFcompare (Prim2SF x) (Prim2SF x)) eqn:Hx; [|done].
    destruct (SFcompare (Prim2SF y) (Prim2SF y)) eqn:Hy; [|done].
    destruct (SFcompare (Prim2SF x) (Prim2SF y)) as [[]|] eqn:Hxy; cbn; intros; try done.
    exfalso. eapply sf_compare_some; [| |exact Hxy]; congruence.
  - destruct (SFcompare (Prim2SF x) (Prim2SF y)) as [[]|] eqn:Hxy; try done.
    by destruct (sf_compare_nan _ _ _ Hxy) as [-> ->].
  - destruct (SFcompare (Prim2SF x) (Prim2SF y)) as [[]|] eqn:Hxy; try done;
      by destruct (sf_compare_nan _ _ _ Hxy) as [-> ->].
  - destruct (SFcompare (Prim2SF x) (Prim2SF x)) eqn:Hx; [|done].
    destruct (SFcompare (Prim2SF y) (Prim2SF y)) eqn:Hy; [|done].
    destruct (SFcompare (Prim2SF x) (Prim2SF z)) as [[]|] eqn:Hxz; intros _ _ _; try done.
    destruct (SFcompare (Prim2SF x) (Prim2SF y)) as [[]|] eqn:Hxy; try done; intros _.
    + by rewrite (sf_compare_eq_lt _ _ _ Hxy Hxz).
    + assert (Hyx : SFcompare (Prim2SF y) (Prim2SF x) = Some Lt) by by rewrite sf_compare_antisym, Hxy.
      by rewrite (sf_compare_lt_trans _ _ _ Hyx Hxz).
    + exfalso. eapply sf_compare_some; [| |exact Hxy]; congruence.
  - by vm_compute.
  - by vm_compute.
Qed.

Section OrderLemmas.
Context {F : Type} `{NumOrd F}.
Local Open Scope num_scope.

Lemma flt_asym (x y : F) : (x <? y) = true → (y <? x) = false.
Proof. intros Hxy. by apply fle_not_flt, flt_fle. Qed.

Lemma not_flt_fle (x y : F) :
  is_nan x = false → is_nan y = false → (x <? y) = false → (y <=? x) = true.
Proof. apply flt_total. Qed.

(** Capping never exceeds the cap, unless a NaN is involved. *)
Lemma cap_le_r (x y : F) :
  is_nan x = false → is_nan y = false → (cap x y <=? y) = true.
Proof.
  intros Hx Hy. unfold cap. destruct (y <? x) eqn:E.
  - apply not_flt_fle; auto using flt_irrefl.
  - by apply not_flt_fle.
Qed.
End OrderLemmas.
