(* ===== verification/GoTime.v ===== *)
(** * GoTime: the part of Go's [time] package the source uses

    A [Time] is an instant in nanoseconds since the Unix epoch together with
    the name of its location.  The time-zone database is not part of the
    repository: [TZDB] is its lookup function, a parameter of the definitions
    that use wall-clock fields.  Calendar arithmetic ([Date], [AddDate],
    [Weekday]) is the proleptic Gregorian calendar, as in Go. *)
From Stdlib Require Import ZArith Lia.
From stdpp Require Import base countable strings numbers.
From S2P Require Import Prelude Num.
Local Open Scope Z_scope.

Record Time : Type := mkTime { t_ns : Z; t_loc : string }.

#[export] Instance Time_eq_dec : EqDecision Time.
Proof. solve_decision. Defined.

#[export] Instance Time_countable : Countable Time.
Proof.
  refine (inj_countable' (λ t, (t_ns t, t_loc t)) (λ p, mkTime p.1 p.2) _).
  by intros [].
Defined.

(** [zone loc u]: seconds east of UTC in force in [loc] at Unix time [u]. *)
Class TZDB : Type := { zone : string → Z → Z }.

Definition ns_per_sec : Z := 1000000000.
Definition ns_per_hour : Z := 3600 * ns_per_sec.
Definition secs_per_day : Z := 86400.

(** The zero value [time.Time{}]: 1 January of year 1, UTC. *)
Definition zero_time : Time := mkTime (-62135596800 * ns_per_sec) "UTC".
Definition IsZero (t : Time) : bool := t_ns t =? t_ns zero_time.

Definition After (t u : Time) : bool := t_ns u <? t_ns t.
Definition Before (t u : Time) : bool := t_ns t <? t_ns u.
Definition Equal (t u : Time) : bool := t_ns t =? t_ns u.

(** Two's complement wrap-around to int64. *)
Definition wrap64 (z : Z) : Z := (z + 2 ^ 63) mod 2 ^ 64 - 2 ^ 63.

Lemma wrap64_small (z : Z) : - 2 ^ 63 <= z < 2 ^ 63 → wrap64 z = z.
Proof. intros Hz. unfold wrap64. rewrite Z.mod_small; lia. Qed.

Definition UnixNano (t : Time) : Z := wrap64 (t_ns t).
Definition Unix (t : Time) : Z := t_ns t / ns_per_sec.

(** [Time.Sub] saturates at the bounds of [Duration], an int64. *)
Definition Sub (t u : Time) : Z :=
  Z.max (- 2 ^ 63) (Z.min (2 ^ 63 - 1) (t_ns t - t_ns u)).

Definition AddDur (t : Time) (d : Z) : Time := mkTime (t_ns t + d) (t_loc t).
Definition InLoc (t : Time) (loc : string) : Time := mkTime (t_ns t) loc.

(** [Duration.Hours]: whole hours plus the fractional remainder. *)
Definition Hours {F} `{Num F} (d : Z) : F :=
  fadd (of_Z (Z.quot d ns_per_hour))
       (fdiv (of_Z (Z.rem d ns_per_hour)) (of_Z ns_per_hour)).

(** ** The Gregorian calendar *)

(** Days from 1970-01-01 to [y]-[m]-[d], for a month in 1..12 and any [d]. *)
Definition days_from_civil (y m d : Z) : Z :=
  let y' := if m <=? 2 then y - 1 else y in
  let era := y' / 400 in
  let yoe := y' mod 400 in
  let mp := (m + 9) mod 12 in
  let doy := (153 * mp + 2) / 5 + d - 1 in
  era * 146097 + (yoe * 365 + yoe / 4 - yoe / 100 + doy) - 719468.

Record Civil : Type := mkCivil { c_year : Z; c_month : Z; c_day : Z }.

Definition year_of_era (doe : Z) : Z :=
  (doe - doe / 1460 + doe / 36524 - doe / 146096) / 365.

Definition civil_from_days (z : Z) : Civil :=
  let z' := z + 719468 in
  let era := z' / 146097 in
  let doe := z' mod 146097 in
  let yoe := year_of_era doe in
  let doy := doe - (365 * yoe + yoe / 4 - yoe / 100) in
  let mp := (5 * doy + 2) / 153 in
  let d := doy - (153 * mp + 2) / 5 + 1 in
  let m := if mp <? 10 then mp + 3 else mp - 9 in
  mkCivil (yoe + era * 400 + (if m <=? 2 then 1 else 0)) m d.

Section Zoned.
Context `{TZDB}.

(** Wall-clock seconds of [t] in its location, counted as if in UTC. *)
Definition wall_secs (t : Time) : Z := Unix t + zone (t_loc t) (Unix t).

Definition civil (t : Time) : Civil := civil_from_days (wall_secs t / secs_per_day).
Definition Year (t : Time) : Z := c_year (civil t).
Definition Month (t : Time) : Z := c_month (civil t).
Definition Day (t : Time) : Z := c_day (civil t).
Definition sec_of_day (t : Time) : Z := wall_secs t mod secs_per_day.
Definition Hour (t : Time) : Z := sec_of_day t / 3600.
Definition Minute (t : Time) : Z := sec_of_day t mod 3600 / 60.
Definition Second (t : Time) : Z := sec_of_day t mod 60.
Definition Nanosecond (t : Time) : Z := t_ns t mod ns_per_sec.

(** The day of the year, from 1. *)
Definition YearDay (t : Time) : Z :=
  days_from_civil (Year t) (Month t) (Day t) - days_from_civil (Year t) 1 1 + 1.

(** Sunday is 0; 1970-01-01 was a Thursday. *)
Definition Weekday (t : Time) : Z := (wall_secs t / secs_per_day + 4) mod 7.

(** [time.Date]: out-of-range months carry into the year, and the other
    fields are added as they are.  The zone offset is looked up at the wall
    time and then, as Go does, at the instant that first guess gives. *)
Definition Date (y mo d h mi s ns : Z) (loc : string) : Time :=
  let m0 := mo - 1 in
  let days := days_from_civil (y + m0 / 12) (m0 mod 12 + 1) d in
  let wall := days * secs_per_day + h * 3600 + mi * 60 + s + ns / ns_per_sec in
  let guess := wall - zone loc wall in
  mkTime ((wall - zone loc guess) * ns_per_sec + ns mod ns_per_sec) loc.

(** [Time.AddDate] *)
Definition AddDate (t : Time) (years months days : Z) : Time :=
  let c := civil t in
  Date (c_year c + years) (c_month c + months) (c_day c + days)
    (Hour t) (Minute t) (Second t) (Nanosecond t) (t_loc t).
End Zoned.

(** ** Calendar facts *)
Local Ltac Zify.zify_post_hook ::= Z.to_euclidean_division_equations.

Lemma days_from_civil_day (y m d k : Z) :
  days_from_civil y m (d + k) = days_from_civil y m d + k.
Proof. unfold days_from_civil. lia. Qed.

Lemma year_of_era_range (doe : Z) :
  0 <= doe < 146097 →
  let yoe := year_of_era doe in
  0 <= yoe < 400 ∧ 0 <= doe - (365 * yoe + yoe / 4 - yoe / 100) <= 365.
Proof.
  intros Hdoe. unfold year_of_era. cbn zeta.
  assert (Hb : doe / 36524 = 0 ∨ doe / 36524 = 1 ∨ doe / 36524 = 2 ∨
    doe / 36524 = 3 ∨ doe / 36524 = 4) by lia.
  assert (Hc : doe / 146096 = 0 ∨ doe / 146096 = 1) by lia.
  destruct Hb as [Hb|[Hb|[Hb|[Hb|Hb]]]], Hc as [Hc|Hc]; rewrite Hb, Hc;
    set (yoe := (doe - doe / 1460 + _ - _) / 365);
    assert (yoe / 100 = 0 ∨ yoe / 100 = 1 ∨ yoe / 100 = 2 ∨ yoe / 100 = 3) by lia;
    lia.
Qed.

(** [days_from_civil] inverts [civil_from_days]. *)
Lemma days_civil_roundtrip (z : Z) :
  let c := civil_from_days z in
  days_from_civil (c_year c) (c_month c) (c_day c) = z ∧ 1 <= c_month c <= 12.
Proof.
  unfold civil_from_days. cbn zeta. cbn [c_year c_month c_day].
  set (z' := z + 719468). set (doe := z' mod 146097).
  assert (Hdoe : 0 <= doe < 146097) by (apply Z.mod_pos_bound; lia).
  destruct (year_of_era_range doe Hdoe) as [Hyoe Hdoy].
  set (yoe := year_of_era doe) in *. clearbody yoe.
  set (doy := doe - (365 * yoe + yoe / 4 - yoe / 100)) in *.
  assert (Hmp : 0 <= (5 * doy + 2) / 153 < 12) by lia.
  set (mp := (5 * doy + 2) / 153) in *. clearbody mp.
  assert (Hz : z' = z' / 146097 * 146097 + doe) by (unfold doe; lia).
  unfold days_from_civil.
  destruct (Z.ltb_spec mp 10) as [Hlt|Hge].
  - destruct (Z.leb_spec (mp + 3) 2); [lia|].
    replace ((mp + 3 + 9) mod 12) with mp by lia.
    rewrite Z.add_0_r, Z.div_add, Z.mod_add by lia.
    rewrite Z.div_small, Z.mod_small by lia. lia.
  - destruct (Z.leb_spec (mp - 9) 2); [|lia].
    replace ((mp - 9 + 9) mod 12) with mp by lia.
    replace (yoe + z' / 146097 * 400 + 1 - 1) with (yoe + z' / 146097 * 400) by lia.
    rewrite Z.div_add, Z.mod_add by lia.
    rewrite Z.div_small, Z.mod_small by lia. lia.
Qed.

Definition ns_per_day : Z := secs_per_day * ns_per_sec.

(** In a zone of constant offset, adding days adds whole 24-hour days. *)
Lemma AddDate_days_fixed `{TZDB} (t : Time) (off k : Z) :
  (∀ u, zone (t_loc t) u = off) →
  AddDate t 0 0 k = mkTime (t_ns t + k * ns_per_day) (t_loc t).
Proof.
  intros Hoff. unfold AddDate, Date, civil, Hour, Minute, Second, Nanosecond, sec_of_day.
  rewrite !Hoff.
  assert (Hw : wall_secs t = Unix t + off) by (unfold wall_secs; by rewrite Hoff).
  rewrite !Hw. set (w := Unix t + off).
  destruct (days_civil_roundtrip (w / secs_per_day)) as [Hrt Hm].
  set (c := civil_from_days (w / secs_per_day)) in *.
  replace (c_year c + 0 + (c_month c + 0 - 1) / 12) with (c_year c) by lia.
  replace ((c_month c + 0 - 1) mod 12 + 1) with (c_month c) by lia.
  rewrite days_from_civil_day, Hrt.
  unfold Unix in w. subst w. unfold ns_per_day, secs_per_day, ns_per_sec. f_equal. lia.
Qed.

(** One Go day later or earlier is strictly later or earlier. *)
Lemma After_Before (t u : Time) : After t u = Before u t.
Proof. reflexivity. Qed.

Lemma Before_irrefl (t : Time) : Before t t = false.
Proof. unfold Before. lia. Qed.

Lemma Before_trans (t u v : Time) :
  Before t u = true → Before u v = true → Before t v = true.
Proof. unfold Before. lia. Qed.

Lemma not_Before_trans (t u v : Time) :
  Before u t = false → Before v u = false → Before v t = false.
Proof. unfold Before. lia. Qed.
