(* ===== verification/Asset.v ===== *)
(** * Asset: [asset/asset.go] and [asset/transaction_type.go]

    An [Asset] is a comparable Go struct and is used as a map key, so equality
    of assets is equality of every field.  The string types [AssetType],
    [Exchange], [Sector] and [Industry] stay strings. *)
From Stdlib Require Import ZArith.
From stdpp Require Import base countable strings numbers list pretty.
From S2P Require Import Prelude Num GoTime.
Local Open Scope string_scope.

Record Asset : Type := mkAsset {
  CompositeFigi : string;
  Ticker : string;
  Name : string;
  AssetType : string;
  PrimaryExchange : string;
  Sector : string;
  Industry : string;
  SICCode : Z;
  CIK : string;
  Listed : Time;
  Delisted : Time;
}.

#[export] Instance Asset_eq_dec : EqDecision Asset.
Proof. solve_decision. Defined.

#[export] Instance Asset_countable : Countable Asset.
Proof.
  refine (inj_countable'
    (λ a, (CompositeFigi a, Ticker a, Name a, AssetType a, PrimaryExchange a,
           Sector a, Industry a, SICCode a, CIK a, Listed a, Delisted a))
    (λ '(a, b, c, d, e, f, g, h, i, j, k), mkAsset a b c d e f g h i j k) _).
  by intros [].
Defined.

(** An asset with the given FIGI and ticker and every other field zero. *)
Definition mk_asset (figi ticker : string) : Asset :=
  mkAsset figi ticker "" "" "" "" "" 0 "" zero_time zero_time.

(** The zero value [asset.Asset{}]. *)
Definition zero_asset : Asset := mk_asset "" "".

Definition EconomicIndicator : Asset := mk_asset "" "$ECONOMIC_INDICATOR".
Definition CashAsset : Asset := mk_asset "$CASH" "$CASH".
Definition Factor : Asset := mk_asset "$FACTOR" "$FACTOR".

(** ** FRED tickers *)
Definition FREDPrefix : string := "FRED:".
Definition AssetTypeFRED : string := "FRED".
Definition ExchangeNYSE : string := "NYSE".
Definition ExchangeNASDAQ : string := "NASDAQ".
Definition ExchangeBATS : string := "BATS".
Definition ExchangeFRED : string := "FRED".

(** [strings.CutPrefix]: the rest of [s] after [p], if [p] is a prefix. *)
Fixpoint cut_prefix (p s : string) : option string :=
  match p, s with
  | EmptyString, _ => Some s
  | String a p', String b s' => if Ascii.eqb a b then cut_prefix p' s' else None
  | String _ _, EmptyString => None
  end.

Definition IsFREDTicker (ticker : string) : bool :=
  match cut_prefix FREDPrefix ticker with Some _ => true | None => false end.

Definition FREDSeries (ticker : string) : string :=
  match cut_prefix FREDPrefix ticker with Some rest => rest | None => ticker end.

Definition NewFREDAsset (ticker : string) : Asset :=
  let namespaced := FREDPrefix +:+ FREDSeries ticker in
  mkAsset namespaced namespaced "" AssetTypeFRED ExchangeFRED "" "" 0 "" zero_time zero_time.

(** ** Exchanges *)
Definition NormalizeExchange (raw : string) : string :=
  if bool_decide (raw ∈ ["NYSE"; "XNYS"; "NYSE ARCA"; "NYSE MKT"; "ARCX"; "XASE"; "AMEX"])
  then ExchangeNYSE
  else if bool_decide (raw ∈ ["NASDAQ"; "XNAS"; "NMFQS"]) then ExchangeNASDAQ
  else if bool_decide (raw ∈ ["BATS"]) then ExchangeBATS
  else if bool_decide (raw ∈ ["FRED"]) then ExchangeFRED
  else raw.

(** ** Transaction types: a Go [int] with named constants *)
Inductive TransactionType : Type :=
  | BuyTransaction
  | SellTransaction
  | DividendTransaction
  | FeeTransaction
  | DepositTransaction
  | WithdrawalTransaction
  | SplitTransaction
  | InterestTransaction
  | JournalTransaction
  | OtherTransaction (n : Z).

#[export] Instance TransactionType_eq_dec : EqDecision TransactionType.
Proof. solve_decision. Defined.

Definition transaction_type_String (tt : TransactionType) : string :=
  match tt with
  | BuyTransaction => "Buy"
  | SellTransaction => "Sell"
  | DividendTransaction => "Dividend"
  | FeeTransaction => "Fee"
  | DepositTransaction => "Deposit"
  | WithdrawalTransaction => "Withdrawal"
  | SplitTransaction => "Split"
  | InterestTransaction => "Interest"
  | JournalTransaction => "Journal"
  | OtherTransaction n => "TransactionType(" +:+ pretty n +:+ ")"
  end.

(** ** Properties *)
Lemma cut_prefix_app (p s : string) : cut_prefix p (p +:+ s) = Some s.
Proof.
  induction p as [|a p IH]; [done|].
  change (String a p +:+ s) with (String a (p +:+ s)).
  cbn [cut_prefix]. by rewrite Ascii.eqb_refl.
Qed.

Lemma cut_prefix_Some (p s rest : string) : cut_prefix p s = Some rest → s = p +:+ rest.
Proof.
  revert s. induction p as [|a p IH]; intros s; cbn; [by intros [= ->]|].
  destruct s as [|b s]; [done|]. destruct (Ascii.eqb_spec a b) as [->|]; [|done].
  intros ->%IH. done.
Qed.

Lemma NormalizeExchange_idempotent (raw : string) :
  NormalizeExchange (NormalizeExchange raw) = NormalizeExchange raw.
Proof.
  unfold NormalizeExchange at 2 3. repeat case_bool_decide; try reflexivity.
  unfold NormalizeExchange. by repeat case_bool_decide.
Qed.

(** A namespaced FRED ticker survives the round trip through an asset. *)
Theorem NewFREDAsset_stable (ticker : string) :
  let a := NewFREDAsset ticker in
  IsFREDTicker (Ticker a) = true ∧ FREDSeries (Ticker a) = FREDSeries ticker ∧
  NewFREDAsset (Ticker a) = a.
Proof.
  assert (H : FREDSeries (FREDPrefix +:+ FREDSeries ticker) = FREDSeries ticker).
  { unfold FREDSeries at 1. by rewrite cut_prefix_app. }
  cbn zeta. split; [|split].
  - unfold IsFREDTicker, NewFREDAsset. cbn [Ticker]. by rewrite cut_prefix_app.
  - done.
  - unfold NewFREDAsset at 1. cbn [Ticker NewFREDAsset]. by rewrite H.
Qed.
