(* ===== verification/Period.v ===== *)
(** * Period: [data/period.go]

    Calendar-aware look-back windows.  A [Period] keeps the Go struct's fields;
    its unit is an enumeration with the constants of the source. *)
From Stdlib Require Import ZArith Lia.
From stdpp Require Import base list strings.
From S2P Require Import Prelude Num GoTime.
Local Open Scope Z_scope.

Inductive PeriodUnit : Type :=
  | UnitDay
  | UnitMonth
  | UnitYear
  | UnitYTD
  | UnitMTD
  | UnitWTD
  | UnitMinuteBar
  | UnitDailyAtTime
  | UnitOther (n : Z).

Record TimeOfDay : Type := mkTimeOfDay { tod_Hour : Z; tod_Minute : Z }.

Record Period : Type := mkPeriod { N : Z; Unit : PeriodUnit; tods : list TimeOfDay }.

Definition MinutesSinceMidnight (t : TimeOfDay) : Z := tod_Hour t * 60 + tod_Minute t.

Definition Days (n : Z) : Period := mkPeriod n UnitDay [].
Definition Months (n : Z) : Period := mkPeriod n UnitMonth [].
Definition Years (n : Z) : Period := mkPeriod n UnitYear [].
Definition YTD : Period := mkPeriod 0 UnitYTD [].
Definition MTD : Period := mkPeriod 0 UnitMTD [].
Definition WTD : Period := mkPeriod 0 UnitWTD [].
Definition MinuteBars (n : Z) : Period := mkPeriod n UnitMinuteBar [].

Section Before.
Context `{TZDB}.

(** The start of the period ending at [ref]. *)
Definition period_Before (p : Period) (ref : Time) : Time :=
  match Unit p with
  | UnitDay => AddDate ref 0 0 (- N p)
  | UnitMonth =>
      let first := Date (Year ref) (Month ref) 1
        (Hour ref) (Minute ref) (Second ref) (Nanosecond ref) (t_loc ref) in
      AddDate first 0 (- (N p - 1)) 0
  | UnitYear => AddDate ref (- N p) 0 0
  | UnitYTD => Date (Year ref) 1 1 0 0 0 0 (t_loc ref)
  | UnitMTD => Date (Year ref) (Month ref) 1 0 0 0 0 (t_loc ref)
  | UnitWTD =>
      let offset := Weekday ref - 1 in
      let offset := if offset <? 0 then offset + 7 else offset in
      AddDate ref 0 0 (- offset)
  | UnitMinuteBar => AddDur ref (wrap64 (- N p * (60 * ns_per_sec)))
  | UnitDailyAtTime => AddDate ref 0 0 (- N p)
  | UnitOther _ => ref
  end.
End Before.

Definition IsIntraday (p : Period) : bool :=
  match Unit p with
  | UnitMinuteBar | UnitDailyAtTime => true
  | _ => false
  end.

Lemma IsIntraday_MinuteBars (n : Z) : IsIntraday (MinuteBars n) = true.
Proof. reflexivity. Qed.

Local Ltac Zify.zify_post_hook ::= Z.to_euclidean_division_equations.

(** In a zone of constant offset, week-to-date starts on the Monday on or
    before the reference, less than seven days earlier, at the same time of
    day. *)
Theorem WTD_is_monday `{TZDB} (ref : Time) (off : Z) :
  (∀ u, zone (t_loc ref) u = off) →
  let start := period_Before WTD ref in
  Weekday start = 1 ∧
  (∃ k, 0 <= k < 7 ∧ t_ns start = t_ns ref - k * ns_per_day) ∧
  t_loc start = t_loc ref.
Proof.
  intros Hoff. cbn zeta. unfold period_Before, WTD. cbn [Unit].
  rewrite (AddDate_days_fixed ref off _ Hoff). cbn [t_ns t_loc].
  set (k := if Weekday ref - 1 <? 0 then Weekday ref - 1 + 7 else Weekday ref - 1).
  assert (Hwd : 0 <= Weekday ref < 7) by (unfold Weekday; lia).
  assert (Hk : 0 <= k < 7 ∧ (Weekday ref - k) mod 7 = 1).
  { unfold k. destruct (Z.ltb_spec (Weekday ref - 1) 0); lia. }
  split; [|split; [exists k; lia|done]].
  unfold Weekday, wall_secs, Unix in *. cbn [t_ns t_loc] in *. rewrite Hoff in Hk |- *.
  unfold ns_per_day, ns_per_sec, secs_per_day in *. clearbody k. lia.
Qed.
