(* ===== verification/Frame.v ===== *)
(** * Frame: the column store of [data/data_frame.go]

    A [DataFrame] holds one column of float64 per (asset, metric) pair, the
    time axis, and an index from CompositeFigi to asset position.  Modelled are
    its construction, the lookups the rest of the program reads prices with,
    the selections ([At], [Last], [Metrics], [Between], [Window]) and the
    column transforms the equity curve uses ([Pct], [Diff], [CumMax], [Shift]),
    and [AppendRow], which changes a frame in place.  The date keys are
    recomputed instead of cached; the attached data source is left out. *)
From Stdlib Require Import ZArith Lia.
From stdpp Require Import base list gmap strings.
From S2P Require Import Prelude Num GoTime Asset Period.
Local Open Scope Z_scope.

Definition Metric : Type := string.
Definition MetricClose : Metric := "Close"%string.
Definition MetricHigh : Metric := "High"%string.
Definition MetricLow : Metric := "Low"%string.
Definition AdjClose : Metric := "AdjClose"%string.
Definition Volume : Metric := "Volume"%string.
Definition Bid : Metric := "Bid"%string.
Definition Ask : Metric := "Ask"%string.
Definition Dividend : Metric := "Dividend"%string.
Definition SplitFactor : Metric := "SplitFactor"%string.

Inductive Frequency : Type := Tick | Daily | Weekly | Monthly | Quarterly | Yearly.

(** [freq >= Daily] *)
Definition daily_or_coarser (f : Frequency) : bool :=
  match f with Tick => false | _ => true end.

Definition PeriodsPerYear {F} `{Num F} (f : Frequency) : F :=
  of_Z match f with
       | Daily => 252 | Weekly => 52 | Monthly => 12 | Quarterly => 4 | Yearly => 1
       | Tick => 252
       end.

(** [sort.Search]: the least index in [i, j) at which [p] holds, by bisection;
    [fuel] bounds the number of halvings. *)
Fixpoint search_loop (p : nat → bool) (fuel i j : nat) : nat :=
  match fuel with
  | O => i
  | S fuel =>
      if (i <? j)%nat then
        let h := Nat.div2 (i + j) in
        if p h then search_loop p fuel i h else search_loop p fuel (S h) j
      else i
  end.
Definition sort_Search (n : nat) (p : nat → bool) : nat := search_loop p n 0 n.

Record DataFrame (F : Type) : Type := mkFrame {
  df_columns : list (list F);
  df_times : list Time;
  df_assets : list Asset;
  df_metrics : list Metric;
  df_assetIndex : gmap string nat;
  df_err : option error;
  df_freq : Frequency;
  df_riskFreeRates : option (list F);
}.
Arguments mkFrame {F}.
Arguments df_columns {F}.
Arguments df_times {F}.
Arguments df_assets {F}.
Arguments df_metrics {F}.
Arguments df_assetIndex {F}.
Arguments df_err {F}.
Arguments df_freq {F}.
Arguments df_riskFreeRates {F}.

Section Frame.
Context {F : Type} `{Num F} `{TZDB}.
Implicit Types (df : DataFrame F) (a : Asset) (m : Metric) (t : Time).

(** YYYYMMDD of a time in its own location, as int32. *)
Definition dateKey t : Z := Year t * 10000 + Month t * 100 + Day t.

Fixpoint index_assets (i : nat) (assets : list Asset) (idx : gmap string nat) : gmap string nat :=
  match assets with
  | [] => idx
  | a :: rest => index_assets (S i) rest (<[CompositeFigi a := i]> idx)
  end.

Definition build (times : list Time) (assets : list Asset) (metrics : list Metric)
    (freq : Frequency) (columns : list (list F)) : DataFrame F :=
  mkFrame columns times assets metrics (index_assets 0 assets ∅) None freq None.

Definition NewDataFrame (times : list Time) (assets : list Asset) (metrics : list Metric)
    (freq : Frequency) (columns : list (list F)) : result (DataFrame F) :=
  let expected := (length assets * length metrics)%nat in
  let columns :=
    if (length times =? 0)%nat && (length columns =? 0)%nat then replicate expected []
    else columns in
  if negb (length columns =? expected)%nat then
    Err "columns count does not match dimensions"
  else if existsb (λ col, negb (length col =? length times)%nat) columns then
    Err "column length does not match time axis length"
  else Ok (build times assets metrics freq columns).

(** [mustNewDataFrame(nil, nil, nil, 0, nil)] *)
Definition empty_frame : DataFrame F := build [] [] [] Tick [].

Definition WithErr (e : error) : DataFrame F :=
  mkFrame [] [] [] [] ∅ (Some e) Tick None.

Fixpoint metric_pos (i : nat) (ms : list Metric) m : option nat :=
  match ms with
  | [] => None
  | m' :: rest => if bool_decide (m' = m) then Some i else metric_pos (S i) rest m
  end.
Definition metricIndex df m : option nat := metric_pos 0 (df_metrics df) m.

Definition colIdx df (aIdx mIdx : nat) : nat := (aIdx * length (df_metrics df) + mIdx)%nat.
Definition colSlice df (aIdx mIdx : nat) : list F :=
  default [] (df_columns df !! colIdx df aIdx mIdx).

Definition timeIndexByDate df t : option nat :=
  let target := dateKey t in
  let keys := dateKey <$> df_times df in
  let idx := sort_Search (length keys) (λ i, match keys !! i with
                                             | Some k => target <=? k | None => true end) in
  match keys !! idx with
  | Some k => if k =? target then Some idx else None
  | None => None
  end.

Definition timeIndex df t : option nat :=
  if daily_or_coarser (df_freq df) then timeIndexByDate df t
  else
    let ts := df_times df in
    let idx := sort_Search (length ts) (λ i, match ts !! i with
                                             | Some u => negb (Before u t) | None => true end) in
    match ts !! idx with
    | Some u => if Equal u t then Some idx else None
    | None => None
    end.

(** ** Accessors *)
Definition Len df : nat := length (df_times df).
Definition Start df : Time := default zero_time (head (df_times df)).
Definition End df : Time := default zero_time (last (df_times df)).

Definition Column df a m : list F :=
  match df_err df with
  | Some _ => []
  | None =>
      match df_assetIndex df !! CompositeFigi a with
      | None => []
      | Some aIdx =>
          match metricIndex df m with
          | None => []
          | Some mIdx => colSlice df aIdx mIdx
          end
      end
  end.

Definition Value df a m : F :=
  match df_err df with
  | Some _ => fnan
  | None =>
      match df_assetIndex df !! CompositeFigi a with
      | None => fnan
      | Some aIdx =>
          match metricIndex df m with
          | None => fnan
          | Some mIdx => default fnan (last (colSlice df aIdx mIdx))
          end
      end
  end.

Definition ValueAt df a m t : F :=
  match df_err df with
  | Some _ => fnan
  | None =>
      match df_assetIndex df !! CompositeFigi a with
      | None => fnan
      | Some aIdx =>
          match metricIndex df m with
          | None => fnan
          | Some mIdx =>
              match timeIndex df t with
              | None => fnan
              | Some tIdx => default fnan (colSlice df aIdx mIdx !! tIdx)
              end
          end
      end
  end.

(** ** Selections *)
Definition slice {A} (i j : nat) (l : list A) : list A := take (j - i) (drop i l).

Definition sliceByTimeIndices df (i j : nat) : DataFrame F :=
  let r := build (slice i j (df_times df)) (df_assets df) (df_metrics df) (df_freq df)
             (slice i j <$> df_columns df) in
  mkFrame (df_columns r) (df_times r) (df_assets r) (df_metrics r) (df_assetIndex r)
    None (df_freq r) (slice i j <$> df_riskFreeRates df).

Definition At df t : DataFrame F :=
  match df_err df with
  | Some e => WithErr e
  | None =>
      match timeIndex df t with
      | None => empty_frame
      | Some i => sliceByTimeIndices df i (S i)
      end
  end.

Definition Last df : DataFrame F :=
  match df_err df with
  | Some e => WithErr e
  | None =>
      match last (df_times df) with
      | None => empty_frame
      | Some t => At df t
      end
  end.

Definition Between df (start end_ : Time) : DataFrame F :=
  match df_err df with
  | Some e => WithErr e
  | None =>
      let ts := df_times df in
      let keys := dateKey <$> ts in
      let '(i, j) :=
        if daily_or_coarser (df_freq df) then
          (sort_Search (length keys) (λ i, match keys !! i with
                                           | Some k => dateKey start <=? k | None => true end),
           sort_Search (length keys) (λ i, match keys !! i with
                                           | Some k => dateKey end_ <? k | None => true end))
        else
          (sort_Search (length ts) (λ i, match ts !! i with
                                         | Some u => negb (Before u start) | None => true end),
           sort_Search (length ts) (λ i, match ts !! i with
                                         | Some u => After u end_ | None => true end)) in
      if (j <=? i)%nat then empty_frame else sliceByTimeIndices df i j
  end.

Definition Window df (period : option Period) : DataFrame F :=
  match df_err df with
  | Some e => WithErr e
  | None =>
      match period with
      | None => sliceByTimeIndices df 0 (Len df)
      | Some p =>
          if (Len df =? 0)%nat then empty_frame
          else
            let start := period_Before p (End df) in
            if negb (After start (Start df)) then sliceByTimeIndices df 0 (Len df)
            else Between df start (End df)
      end
  end.

Definition propagateAux df (target : DataFrame F) : DataFrame F :=
  mkFrame (df_columns target) (df_times target) (df_assets target) (df_metrics target)
    (df_assetIndex target) (df_err target) (df_freq target) (df_riskFreeRates df).

Definition Metrics df (metrics : list Metric) : DataFrame F :=
  match df_err df with
  | Some e => WithErr e
  | None =>
      let matched := omap (λ m, pair m <$> metricIndex df m) metrics in
      match matched with
      | [] => empty_frame
      | _ =>
          let cols := flat_map
            (λ aIdx, (λ mi : Metric * nat, colSlice df aIdx mi.2) <$> matched)
            (seq 0 (length (df_assets df))) in
          propagateAux df (build (df_times df) (df_assets df) matched.*1 (df_freq df) cols)
      end
  end.

(** ** Transforms *)
Definition Apply df (transform : list F → list F) : DataFrame F :=
  match df_err df with
  | Some e => WithErr e
  | None =>
      propagateAux df (build (df_times df) (df_assets df) (df_metrics df) (df_freq df)
                         (transform <$> df_columns df))
  end.

Definition pct_col (period : nat) (col : list F) : list F :=
  replicate (Nat.min period (length col)) fnan ++
  zip_with (λ prev cur, fdiv (fsub cur prev) prev) col (drop period col).
Definition Pct df (period : nat) : DataFrame F := Apply df (pct_col period).

Definition diff_col (col : list F) : list F :=
  match col with
  | [] => []
  | _ :: rest => fnan :: zip_with (λ prev cur, fsub cur prev) col rest
  end.
Definition Diff df : DataFrame F := Apply df diff_col.

(** The running maximum, from the value reached so far. *)
Fixpoint cum_max_from (peak : F) (col : list F) : list F :=
  match col with
  | [] => []
  | x :: rest =>
      let peak := if flt peak x then x else peak in
      peak :: cum_max_from peak rest
  end.
Definition cum_max_col (col : list F) : list F :=
  match col with [] => [] | x :: rest => x :: cum_max_from x rest end.
Definition CumMax df : DataFrame F := Apply df cum_max_col.

Definition shift_col (positions : Z) (col : list F) : list F :=
  let n := length col in
  if 0 <=? positions then
    let k := Z.to_nat positions in
    if (k <? n)%nat then replicate k fnan ++ take (n - k) col else replicate n fnan
  else
    let k := Z.to_nat (- positions) in
    if (k <? n)%nat then drop k col ++ replicate k fnan else replicate n fnan.
Definition Shift df (positions : Z) : DataFrame F := Apply df (shift_col positions).

(** ** Growth *)
Definition AppendRow df t (values : list F) : result (DataFrame F) :=
  match df_err df with
  | Some e => Err e
  | None =>
      let colCount := (length (df_assets df) * length (df_metrics df))%nat in
      if negb (length values =? colCount)%nat then
        Err "AppendRow: values length does not match column count"
      else if negb (Len df =? 0)%nat && negb (After t (End df)) then
        Err "AppendRow: timestamp is not after current End() (must be chronological)"
      else
        Ok (mkFrame (zip_with (λ col v, col ++ [v]) (df_columns df) values)
              (df_times df ++ [t]) (df_assets df) (df_metrics df) (df_assetIndex df)
              None (df_freq df) None)
  end.
End Frame.
