(* ===== verification/Metrics.v ===== *)
(** * Metrics: the catalogue of metrics ([data/metric.go],
    [data/metric_registry.go]) and the tables that route them to the views of
    the database ([data/pvdata_provider.go])

    The constants live in the module [Catalog], since several carry the name
    of an account query. *)
From Stdlib Require Import ZArith.
From stdpp Require Import base list gmap strings.
From S2P Require Import Prelude Num GoTime Asset Period Frame.

Module Catalog.
Definition MetricOpen : Metric := "Open"%string.
Definition AdjOpen : Metric := "AdjOpen"%string.
Definition AdjHigh : Metric := "AdjHigh"%string.
Definition AdjLow : Metric := "AdjLow"%string.
Definition AdjVolume : Metric := "AdjVolume"%string.
Definition Price : Metric := "Price"%string.
Definition MarketCap : Metric := "MarketCap"%string.
Definition EnterpriseValue : Metric := "EnterpriseValue"%string.
Definition PE : Metric := "PE"%string.
Definition ForwardPE : Metric := "ForwardPE"%string.
Definition PEG : Metric := "PEG"%string.
Definition PB : Metric := "PB"%string.
Definition PS : Metric := "PS"%string.
Definition PriceToCashFlow : Metric := "PriceToCashFlow"%string.
Definition EVtoEBIT : Metric := "EVtoEBIT"%string.
Definition EVtoEBITDA : Metric := "EVtoEBITDA"%string.
Definition Beta : Metric := "Beta"%string.
Definition Revenue : Metric := "Revenue"%string.
Definition CostOfRevenue : Metric := "CostOfRevenue"%string.
Definition GrossProfit : Metric := "GrossProfit"%string.
Definition OperatingExpenses : Metric := "OperatingExpenses"%string.
Definition OperatingIncome : Metric := "OperatingIncome"%string.
Definition EBIT : Metric := "EBIT"%string.
Definition EBITDA : Metric := "EBITDA"%string.
Definition EBT : Metric := "EBT"%string.
Definition ConsolidatedIncome : Metric := "ConsolidatedIncome"%string.
Definition NetIncome : Metric := "NetIncome"%string.
Definition NetIncomeCommonStock : Metric := "NetIncomeCommonStock"%string.
Definition EarningsPerShare : Metric := "EarningsPerShare"%string.
Definition EPSDiluted : Metric := "EPSDiluted"%string.
Definition InterestExpense : Metric := "InterestExpense"%string.
Definition IncomeTaxExpense : Metric := "IncomeTaxExpense"%string.
Definition RandDExpenses : Metric := "RandDExpenses"%string.
Definition SGAExpense : Metric := "SGAExpense"%string.
Definition ShareBasedCompensation : Metric := "ShareBasedCompensation"%string.
Definition DividendsPerShare : Metric := "DividendsPerShare"%string.
Definition NetLossIncomeDiscontinuedOperations : Metric := "NetLossIncomeDiscontinuedOperations"%string.
Definition NetIncomeToNonControllingInterests : Metric := "NetIncomeToNonControllingInterests"%string.
Definition PreferredDividendsImpact : Metric := "PreferredDividendsImpact"%string.
Definition TotalAssets : Metric := "TotalAssets"%string.
Definition CurrentAssets : Metric := "CurrentAssets"%string.
Definition AssetsNonCurrent : Metric := "AssetsNonCurrent"%string.
Definition AverageAssets : Metric := "AverageAssets"%string.
Definition CashAndEquivalents : Metric := "CashAndEquivalents"%string.
Definition Inventory : Metric := "Inventory"%string.
Definition Receivables : Metric := "Receivables"%string.
Definition Investments : Metric := "Investments"%string.
Definition InvestmentsCurrent : Metric := "InvestmentsCurrent"%string.
Definition InvestmentsNonCur : Metric := "InvestmentsNonCurrent"%string.
Definition Intangibles : Metric := "Intangibles"%string.
Definition PPENet : Metric := "PPENet"%string.
Definition TaxAssets : Metric := "TaxAssets"%string.
Definition TotalLiabilities : Metric := "TotalLiabilities"%string.
Definition CurrentLiabilities : Metric := "CurrentLiabilities"%string.
Definition LiabilitiesNonCurrent : Metric := "LiabilitiesNonCurrent"%string.
Definition TotalDebt : Metric := "TotalDebt"%string.
Definition DebtCurrent : Metric := "DebtCurrent"%string.
Definition DebtNonCurrent : Metric := "DebtNonCurrent"%string.
Definition Payables : Metric := "Payables"%string.
Definition DeferredRevenue : Metric := "DeferredRevenue"%string.
Definition Deposits : Metric := "Deposits"%string.
Definition TaxLiabilities : Metric := "TaxLiabilities"%string.
Definition Equity : Metric := "Equity"%string.
Definition EquityAvg : Metric := "EquityAvg"%string.
Definition AccumulatedOtherComprehensiveIncome : Metric := "AccumulatedOtherComprehensiveIncome"%string.
Definition AccumulatedRetainedEarningsDeficit : Metric := "AccumulatedRetainedEarningsDeficit"%string.
Definition FreeCashFlow : Metric := "FreeCashFlow"%string.
Definition NetCashFlow : Metric := "NetCashFlow"%string.
Definition NetCashFlowFromOperations : Metric := "NetCashFlowFromOperations"%string.
Definition NetCashFlowFromInvesting : Metric := "NetCashFlowFromInvesting"%string.
Definition NetCashFlowFromFinancing : Metric := "NetCashFlowFromFinancing"%string.
Definition NetCashFlowBusiness : Metric := "NetCashFlowBusiness"%string.
Definition NetCashFlowCommon : Metric := "NetCashFlowCommon"%string.
Definition NetCashFlowDebt : Metric := "NetCashFlowDebt"%string.
Definition NetCashFlowDividend : Metric := "NetCashFlowDividend"%string.
Definition NetCashFlowInvest : Metric := "NetCashFlowInvest"%string.
Definition NetCashFlowFx : Metric := "NetCashFlowFx"%string.
Definition CapitalExpenditure : Metric := "CapitalExpenditure"%string.
Definition DepreciationAmortization : Metric := "DepreciationAmortization"%string.
Definition BookValue : Metric := "BookValue"%string.
Definition FreeCashFlowPerShare : Metric := "FreeCashFlowPerShare"%string.
Definition SalesPerShare : Metric := "SalesPerShare"%string.
Definition TangibleAssetsBookValuePerShare : Metric := "TangibleAssetsBookValuePerShare"%string.
Definition ShareFactor : Metric := "ShareFactor"%string.
Definition SharesBasic : Metric := "SharesBasic"%string.
Definition WeightedAverageShares : Metric := "WeightedAverageShares"%string.
Definition WeightedAverageSharesDiluted : Metric := "WeightedAverageSharesDiluted"%string.
Definition FundamentalPrice : Metric := "FundamentalPrice"%string.
Definition PE1 : Metric := "PE1"%string.
Definition PS1 : Metric := "PS1"%string.
Definition FxUSD : Metric := "FxUSD"%string.
Definition GrossMargin : Metric := "GrossMargin"%string.
Definition EBITDAMargin : Metric := "EBITDAMargin"%string.
Definition ProfitMargin : Metric := "ProfitMargin"%string.
Definition ROA : Metric := "ROA"%string.
Definition ROE : Metric := "ROE"%string.
Definition ROIC : Metric := "ROIC"%string.
Definition ReturnOnSales : Metric := "ReturnOnSales"%string.
Definition AssetTurnover : Metric := "AssetTurnover"%string.
Definition CurrentRatio : Metric := "CurrentRatio"%string.
Definition DebtToEquity : Metric := "DebtToEquity"%string.
Definition DividendYield : Metric := "DividendYield"%string.
Definition PayoutRatio : Metric := "PayoutRatio"%string.
Definition InvestedCapital : Metric := "InvestedCapital"%string.
Definition InvestedCapitalAvg : Metric := "InvestedCapitalAvg"%string.
Definition TangibleAssetValue : Metric := "TangibleAssetValue"%string.
Definition WorkingCapital : Metric := "WorkingCapital"%string.
Definition MarketCapFundamental : Metric := "MarketCapFundamental"%string.
Definition FundamentalsDateKey : Metric := "FundamentalsDateKey"%string.
Definition FundamentalsReportPeriod : Metric := "FundamentalsReportPeriod"%string.
Definition Count : Metric := "Count"%string.
Definition PortfolioEquity : Metric := "PortfolioEquity"%string.
Definition PortfolioBenchmark : Metric := "PortfolioBenchmark"%string.
Definition PortfolioRiskFree : Metric := "PortfolioRiskFree"%string.
Definition PortfolioReturns : Metric := "portfolio_returns"%string.
Definition PortfolioExcessReturns : Metric := "portfolio_excess_returns"%string.
Definition PortfolioDrawdown : Metric := "portfolio_drawdown"%string.
Definition PortfolioBenchReturns : Metric := "portfolio_bench_returns"%string.
Definition PositionMarketValue : Metric := "PositionMarketValue"%string.
Definition PositionQuantity : Metric := "PositionQuantity"%string.
End Catalog.

(** ** The registry of names *)
Definition metricRegistry : gmap string Metric := list_to_map [
  ("MetricOpen", Catalog.MetricOpen); ("MetricHigh", MetricHigh); ("MetricLow", MetricLow);
  ("MetricClose", MetricClose); ("AdjClose", AdjClose); ("Volume", Volume); ("Dividend", Dividend);
  ("SplitFactor", SplitFactor); ("Price", Catalog.Price); ("Bid", Bid); ("Ask", Ask);
  ("MarketCap", Catalog.MarketCap); ("EnterpriseValue", Catalog.EnterpriseValue); ("PE", Catalog.PE);
  ("PB", Catalog.PB); ("PS", Catalog.PS); ("EVtoEBIT", Catalog.EVtoEBIT); ("EVtoEBITDA", Catalog.EVtoEBITDA);
  ("ForwardPE", Catalog.ForwardPE); ("PEG", Catalog.PEG); ("PriceToCashFlow", Catalog.PriceToCashFlow);
  ("Beta", Catalog.Beta); ("Revenue", Catalog.Revenue); ("CostOfRevenue", Catalog.CostOfRevenue);
  ("GrossProfit", Catalog.GrossProfit); ("OperatingExpenses", Catalog.OperatingExpenses);
  ("OperatingIncome", Catalog.OperatingIncome); ("EBIT", Catalog.EBIT); ("EBITDA", Catalog.EBITDA);
  ("EBT", Catalog.EBT); ("ConsolidatedIncome", Catalog.ConsolidatedIncome); ("NetIncome", Catalog.NetIncome);
  ("NetIncomeCommonStock", Catalog.NetIncomeCommonStock); ("EarningsPerShare", Catalog.EarningsPerShare);
  ("EPSDiluted", Catalog.EPSDiluted); ("InterestExpense", Catalog.InterestExpense);
  ("IncomeTaxExpense", Catalog.IncomeTaxExpense); ("RandDExpenses", Catalog.RandDExpenses);
  ("SGAExpense", Catalog.SGAExpense); ("ShareBasedCompensation", Catalog.ShareBasedCompensation);
  ("DividendsPerShare", Catalog.DividendsPerShare);
  ("NetLossIncomeDiscontinuedOperations", Catalog.NetLossIncomeDiscontinuedOperations);
  ("NetIncomeToNonControllingInterests", Catalog.NetIncomeToNonControllingInterests);
  ("PreferredDividendsImpact", Catalog.PreferredDividendsImpact); ("TotalAssets", Catalog.TotalAssets);
  ("CurrentAssets", Catalog.CurrentAssets); ("AssetsNonCurrent", Catalog.AssetsNonCurrent);
  ("AverageAssets", Catalog.AverageAssets); ("CashAndEquivalents", Catalog.CashAndEquivalents);
  ("Inventory", Catalog.Inventory); ("Receivables", Catalog.Receivables);
  ("Investments", Catalog.Investments); ("InvestmentsCurrent", Catalog.InvestmentsCurrent);
  ("InvestmentsNonCurrent", Catalog.InvestmentsNonCur); ("Intangibles", Catalog.Intangibles);
  ("PPENet", Catalog.PPENet); ("TaxAssets", Catalog.TaxAssets);
  ("TotalLiabilities", Catalog.TotalLiabilities); ("CurrentLiabilities", Catalog.CurrentLiabilities);
  ("LiabilitiesNonCurrent", Catalog.LiabilitiesNonCurrent); ("TotalDebt", Catalog.TotalDebt);
  ("DebtCurrent", Catalog.DebtCurrent); ("DebtNonCurrent", Catalog.DebtNonCurrent);
  ("Payables", Catalog.Payables); ("DeferredRevenue", Catalog.DeferredRevenue);
  ("Deposits", Catalog.Deposits); ("TaxLiabilities", Catalog.TaxLiabilities); ("Equity", Catalog.Equity);
  ("EquityAvg", Catalog.EquityAvg);
  ("AccumulatedOtherComprehensiveIncome", Catalog.AccumulatedOtherComprehensiveIncome);
  ("AccumulatedRetainedEarningsDeficit", Catalog.AccumulatedRetainedEarningsDeficit);
  ("FreeCashFlow", Catalog.FreeCashFlow); ("NetCashFlow", Catalog.NetCashFlow);
  ("NetCashFlowFromOperations", Catalog.NetCashFlowFromOperations);
  ("NetCashFlowFromInvesting", Catalog.NetCashFlowFromInvesting);
  ("NetCashFlowFromFinancing", Catalog.NetCashFlowFromFinancing);
  ("NetCashFlowBusiness", Catalog.NetCashFlowBusiness); ("NetCashFlowCommon", Catalog.NetCashFlowCommon);
  ("NetCashFlowDebt", Catalog.NetCashFlowDebt); ("NetCashFlowDividend", Catalog.NetCashFlowDividend);
  ("NetCashFlowInvest", Catalog.NetCashFlowInvest); ("NetCashFlowFx", Catalog.NetCashFlowFx);
  ("CapitalExpenditure", Catalog.CapitalExpenditure);
  ("DepreciationAmortization", Catalog.DepreciationAmortization); ("BookValue", Catalog.BookValue);
  ("FreeCashFlowPerShare", Catalog.FreeCashFlowPerShare); ("SalesPerShare", Catalog.SalesPerShare);
  ("TangibleAssetsBookValuePerShare", Catalog.TangibleAssetsBookValuePerShare);
  ("ShareFactor", Catalog.ShareFactor); ("SharesBasic", Catalog.SharesBasic);
  ("WeightedAverageShares", Catalog.WeightedAverageShares);
  ("WeightedAverageSharesDiluted", Catalog.WeightedAverageSharesDiluted);
  ("FundamentalPrice", Catalog.FundamentalPrice); ("PE1", Catalog.PE1); ("PS1", Catalog.PS1);
  ("FxUSD", Catalog.FxUSD); ("GrossMargin", Catalog.GrossMargin); ("EBITDAMargin", Catalog.EBITDAMargin);
  ("ProfitMargin", Catalog.ProfitMargin); ("ROA", Catalog.ROA); ("ROE", Catalog.ROE); ("ROIC", Catalog.ROIC);
  ("ReturnOnSales", Catalog.ReturnOnSales); ("AssetTurnover", Catalog.AssetTurnover);
  ("CurrentRatio", Catalog.CurrentRatio); ("DebtToEquity", Catalog.DebtToEquity);
  ("DividendYield", Catalog.DividendYield); ("PayoutRatio", Catalog.PayoutRatio);
  ("InvestedCapital", Catalog.InvestedCapital); ("InvestedCapitalAvg", Catalog.InvestedCapitalAvg);
  ("TangibleAssetValue", Catalog.TangibleAssetValue); ("WorkingCapital", Catalog.WorkingCapital);
  ("MarketCapFundamental", Catalog.MarketCapFundamental)
]%string.
Definition MetricByName (name : string) : option Metric := metricRegistry !! name.

(** [sort.Strings] *)
Definition string_less (x y : string) : bool := match String.compare x y with Lt => true | _ => false end.
Definition AllMetricNames `{GoMapOrder, GoSort} : list string := sort_slice string_less (range metricRegistry).*1.

(** ** The views of the database *)
Definition metricView : gmap Metric string := list_to_map [
  (Catalog.MetricOpen, "eod"); (MetricHigh, "eod"); (MetricLow, "eod"); (MetricClose, "eod");
  (AdjClose, "eod"); (Volume, "eod"); (Dividend, "eod"); (SplitFactor, "eod");
  (Catalog.MarketCap, "metrics"); (Catalog.EnterpriseValue, "metrics"); (Catalog.PE, "metrics");
  (Catalog.PB, "metrics"); (Catalog.PS, "metrics"); (Catalog.EVtoEBIT, "metrics");
  (Catalog.EVtoEBITDA, "metrics"); (Catalog.ForwardPE, "metrics"); (Catalog.PEG, "metrics");
  (Catalog.PriceToCashFlow, "metrics"); (Catalog.Beta, "metrics"); (Catalog.Revenue, "fundamentals");
  (Catalog.CostOfRevenue, "fundamentals"); (Catalog.GrossProfit, "fundamentals");
  (Catalog.OperatingExpenses, "fundamentals"); (Catalog.OperatingIncome, "fundamentals");
  (Catalog.EBIT, "fundamentals"); (Catalog.EBITDA, "fundamentals"); (Catalog.EBT, "fundamentals");
  (Catalog.ConsolidatedIncome, "fundamentals"); (Catalog.NetIncome, "fundamentals");
  (Catalog.NetIncomeCommonStock, "fundamentals"); (Catalog.EarningsPerShare, "fundamentals");
  (Catalog.EPSDiluted, "fundamentals"); (Catalog.InterestExpense, "fundamentals");
  (Catalog.IncomeTaxExpense, "fundamentals"); (Catalog.RandDExpenses, "fundamentals");
  (Catalog.SGAExpense, "fundamentals"); (Catalog.ShareBasedCompensation, "fundamentals");
  (Catalog.DividendsPerShare, "fundamentals"); (Catalog.NetLossIncomeDiscontinuedOperations, "fundamentals");
  (Catalog.NetIncomeToNonControllingInterests, "fundamentals");
  (Catalog.PreferredDividendsImpact, "fundamentals"); (Catalog.TotalAssets, "fundamentals");
  (Catalog.CurrentAssets, "fundamentals"); (Catalog.AssetsNonCurrent, "fundamentals");
  (Catalog.AverageAssets, "fundamentals"); (Catalog.CashAndEquivalents, "fundamentals");
  (Catalog.Inventory, "fundamentals"); (Catalog.Receivables, "fundamentals");
  (Catalog.Investments, "fundamentals"); (Catalog.InvestmentsCurrent, "fundamentals");
  (Catalog.InvestmentsNonCur, "fundamentals"); (Catalog.Intangibles, "fundamentals");
  (Catalog.PPENet, "fundamentals"); (Catalog.TaxAssets, "fundamentals");
  (Catalog.TotalLiabilities, "fundamentals"); (Catalog.CurrentLiabilities, "fundamentals");
  (Catalog.LiabilitiesNonCurrent, "fundamentals"); (Catalog.TotalDebt, "fundamentals");
  (Catalog.DebtCurrent, "fundamentals"); (Catalog.DebtNonCurrent, "fundamentals");
  (Catalog.Payables, "fundamentals"); (Catalog.DeferredRevenue, "fundamentals");
  (Catalog.Deposits, "fundamentals"); (Catalog.TaxLiabilities, "fundamentals");
  (Catalog.Equity, "fundamentals"); (Catalog.EquityAvg, "fundamentals");
  (Catalog.AccumulatedOtherComprehensiveIncome, "fundamentals");
  (Catalog.AccumulatedRetainedEarningsDeficit, "fundamentals"); (Catalog.FreeCashFlow, "fundamentals");
  (Catalog.NetCashFlow, "fundamentals"); (Catalog.NetCashFlowFromOperations, "fundamentals");
  (Catalog.NetCashFlowFromInvesting, "fundamentals"); (Catalog.NetCashFlowFromFinancing, "fundamentals");
  (Catalog.NetCashFlowBusiness, "fundamentals"); (Catalog.NetCashFlowCommon, "fundamentals");
  (Catalog.NetCashFlowDebt, "fundamentals"); (Catalog.NetCashFlowDividend, "fundamentals");
  (Catalog.NetCashFlowInvest, "fundamentals"); (Catalog.NetCashFlowFx, "fundamentals");
  (Catalog.CapitalExpenditure, "fundamentals"); (Catalog.DepreciationAmortization, "fundamentals");
  (Catalog.BookValue, "fundamentals"); (Catalog.FreeCashFlowPerShare, "fundamentals");
  (Catalog.SalesPerShare, "fundamentals"); (Catalog.TangibleAssetsBookValuePerShare, "fundamentals");
  (Catalog.ShareFactor, "fundamentals"); (Catalog.SharesBasic, "fundamentals");
  (Catalog.WeightedAverageShares, "fundamentals"); (Catalog.WeightedAverageSharesDiluted, "fundamentals");
  (Catalog.FundamentalPrice, "fundamentals"); (Catalog.PE1, "fundamentals"); (Catalog.PS1, "fundamentals");
  (Catalog.FxUSD, "fundamentals"); (Catalog.GrossMargin, "fundamentals");
  (Catalog.EBITDAMargin, "fundamentals"); (Catalog.ProfitMargin, "fundamentals");
  (Catalog.ROA, "fundamentals"); (Catalog.ROE, "fundamentals"); (Catalog.ROIC, "fundamentals");
  (Catalog.ReturnOnSales, "fundamentals"); (Catalog.AssetTurnover, "fundamentals");
  (Catalog.CurrentRatio, "fundamentals"); (Catalog.DebtToEquity, "fundamentals");
  (Catalog.DividendYield, "fundamentals"); (Catalog.PayoutRatio, "fundamentals");
  (Catalog.InvestedCapital, "fundamentals"); (Catalog.InvestedCapitalAvg, "fundamentals");
  (Catalog.TangibleAssetValue, "fundamentals"); (Catalog.WorkingCapital, "fundamentals");
  (Catalog.MarketCapFundamental, "fundamentals"); (Catalog.FundamentalsDateKey, "fundamentals");
  (Catalog.FundamentalsReportPeriod, "fundamentals")
]%string.
Definition IsFundamental (metric : Metric) : bool :=
  bool_decide (lookup_d EmptyString metricView metric = "fundamentals"%string).

(** The SQL column of a fundamental metric. *)
Definition metricColumn : gmap Metric string := list_to_map [
  (Catalog.Revenue, "revenues"); (Catalog.CostOfRevenue, "cost_of_revenue");
  (Catalog.GrossProfit, "gross_profit"); (Catalog.OperatingExpenses, "operating_expenses");
  (Catalog.OperatingIncome, "operating_income"); (Catalog.EBIT, "ebit"); (Catalog.EBITDA, "ebitda");
  (Catalog.EBT, "ebt"); (Catalog.ConsolidatedIncome, "consolidated_income");
  (Catalog.NetIncome, "net_income"); (Catalog.NetIncomeCommonStock, "net_income_common_stock");
  (Catalog.EarningsPerShare, "eps"); (Catalog.EPSDiluted, "eps_diluted");
  (Catalog.InterestExpense, "interest_expense"); (Catalog.IncomeTaxExpense, "income_tax_expense");
  (Catalog.RandDExpenses, "r_and_d_expenses");
  (Catalog.SGAExpense, "selling_general_and_administrative_expense");
  (Catalog.ShareBasedCompensation, "share_based_compensation");
  (Catalog.DividendsPerShare, "dividends_per_basic_common_share");
  (Catalog.NetLossIncomeDiscontinuedOperations, "net_loss_income_discontinued_operations");
  (Catalog.NetIncomeToNonControllingInterests, "net_income_to_non_controlling_interests");
  (Catalog.PreferredDividendsImpact, "preferred_dividends_income_statement_impact");
  (Catalog.TotalAssets, "total_assets"); (Catalog.CurrentAssets, "current_assets");
  (Catalog.AssetsNonCurrent, "assets_non_current"); (Catalog.AverageAssets, "average_assets");
  (Catalog.CashAndEquivalents, "cash_and_equivalents"); (Catalog.Inventory, "inventory");
  (Catalog.Receivables, "receivables"); (Catalog.Investments, "investments");
  (Catalog.InvestmentsCurrent, "investments_current");
  (Catalog.InvestmentsNonCur, "investments_non_current"); (Catalog.Intangibles, "intangibles");
  (Catalog.PPENet, "property_plant_and_equipment_net"); (Catalog.TaxAssets, "tax_assets");
  (Catalog.TotalLiabilities, "total_liabilities"); (Catalog.CurrentLiabilities, "current_liabilities");
  (Catalog.LiabilitiesNonCurrent, "liabilities_non_current"); (Catalog.TotalDebt, "total_debt");
  (Catalog.DebtCurrent, "debt_current"); (Catalog.DebtNonCurrent, "debt_non_current");
  (Catalog.Payables, "payables"); (Catalog.DeferredRevenue, "deferred_revenue");
  (Catalog.Deposits, "deposits"); (Catalog.TaxLiabilities, "tax_liabilities"); (Catalog.Equity, "equity");
  (Catalog.EquityAvg, "equity_avg");
  (Catalog.AccumulatedOtherComprehensiveIncome, "accumulated_other_comprehensive_income");
  (Catalog.AccumulatedRetainedEarningsDeficit, "accumulated_retained_earnings_deficit");
  (Catalog.FreeCashFlow, "free_cash_flow"); (Catalog.NetCashFlow, "net_cash_flow");
  (Catalog.NetCashFlowFromOperations, "net_cash_flow_from_operations");
  (Catalog.NetCashFlowFromInvesting, "net_cash_flow_from_investing");
  (Catalog.NetCashFlowFromFinancing, "net_cash_flow_from_financing");
  (Catalog.NetCashFlowBusiness, "net_cash_flow_business");
  (Catalog.NetCashFlowCommon, "net_cash_flow_common"); (Catalog.NetCashFlowDebt, "net_cash_flow_debt");
  (Catalog.NetCashFlowDividend, "net_cash_flow_dividend");
  (Catalog.NetCashFlowInvest, "net_cash_flow_invest"); (Catalog.NetCashFlowFx, "net_cash_flow_fx");
  (Catalog.CapitalExpenditure, "capital_expenditure");
  (Catalog.DepreciationAmortization, "depreciation_amortization_and_accretion");
  (Catalog.BookValue, "book_value_per_share"); (Catalog.FreeCashFlowPerShare, "free_cash_flow_per_share");
  (Catalog.SalesPerShare, "sales_per_share");
  (Catalog.TangibleAssetsBookValuePerShare, "tangible_assets_book_value_per_share");
  (Catalog.ShareFactor, "share_factor"); (Catalog.SharesBasic, "shares_basic");
  (Catalog.WeightedAverageShares, "weighted_average_shares");
  (Catalog.WeightedAverageSharesDiluted, "weighted_average_shares_diluted");
  (Catalog.FundamentalPrice, "price"); (Catalog.PE1, "pe1"); (Catalog.PS1, "ps1"); (Catalog.FxUSD, "fx_usd");
  (Catalog.GrossMargin, "gross_margin"); (Catalog.EBITDAMargin, "ebitda_margin");
  (Catalog.ProfitMargin, "profit_margin"); (Catalog.ROA, "roa"); (Catalog.ROE, "roe");
  (Catalog.ROIC, "roic"); (Catalog.ReturnOnSales, "return_on_sales");
  (Catalog.AssetTurnover, "asset_turnover"); (Catalog.CurrentRatio, "current_ratio");
  (Catalog.DebtToEquity, "debt_to_equity_ratio"); (Catalog.DividendYield, "dividend_yield");
  (Catalog.PayoutRatio, "payout_ratio"); (Catalog.InvestedCapital, "invested_capital");
  (Catalog.InvestedCapitalAvg, "invested_capital_average");
  (Catalog.TangibleAssetValue, "tangible_asset_value"); (Catalog.WorkingCapital, "working_capital");
  (Catalog.MarketCapFundamental, "market_capitalization"); (Catalog.FundamentalsDateKey, "date_key");
  (Catalog.FundamentalsReportPeriod, "report_period")
]%string.

(** The SQL column of a metric of the metrics view, and whether it is an
    integer. *)
Definition metricsColumn : gmap Metric (string * bool) := list_to_map [
  (Catalog.MarketCap, ("market_cap", true)); (Catalog.EnterpriseValue, ("ev", true));
  (Catalog.PE, ("pe", false)); (Catalog.PB, ("pb", false)); (Catalog.PS, ("ps", false));
  (Catalog.EVtoEBIT, ("ev_ebit", false)); (Catalog.EVtoEBITDA, ("ev_ebitda", false));
  (Catalog.ForwardPE, ("pe_forward", false)); (Catalog.PEG, ("peg", false));
  (Catalog.PriceToCashFlow, ("price_to_cash_flow", false)); (Catalog.Beta, ("beta", false))
]%string.
