(* ===== verification/FrameOps.v ===== *)
(** * FrameOps: the rest of [data/data_frame.go]

    Selections by asset and by row, insertion and renaming of columns,
    arithmetic between frames and with scalars, aggregation across assets and
    over time, covariance and correlation, and the remaining transforms.  The
    functions of the gonum library are the operations of the class [Gonum];
    [GonumLaws] states the documented behaviour the proofs rely on. *)
From Stdlib Require Import ZArith.
From stdpp Require Import base list gmap strings.
From S2P Require Import Prelude Num GoTime Asset Period Frame.

(** [gonum.org/v1/gonum/floats] and [stat]; the [To] functions return what
    they store into their destination. *)
Class Gonum (F : Type) : Type := {
  floats_Sum : list F → F;
  floats_Max : list F → F;
  floats_Min : list F → F;
  floats_AddTo : list F → list F → list F;
  floats_SubTo : list F → list F → list F;
  floats_MulTo : list F → list F → list F;
  floats_DivTo : list F → list F → list F;
  floats_AddConst : F → list F → list F;
  floats_Scale : F → list F → list F;
  floats_CumSum : list F → list F;
  stat_Mean : list F → F;
  stat_Quantile : F → list F → F;
}.

Class GonumLaws (F : Type) `{Num F} `{Gonum F} : Prop := {
  AddTo_elem : ∀ s t, length s = length t → floats_AddTo s t = zip_with fadd s t;
  SubTo_elem : ∀ s t, length s = length t → floats_SubTo s t = zip_with fsub s t;
  MulTo_elem : ∀ s t, length s = length t → floats_MulTo s t = zip_with fmul s t;
  DivTo_elem : ∀ s t, length s = length t → floats_DivTo s t = zip_with fdiv s t;
  AddConst_elem : ∀ c s, floats_AddConst c s = (λ x, fadd x c) <$> s;
  Scale_elem : ∀ c s, floats_Scale c s = (λ x, fmul x c) <$> s;
}.

Definition CountMetric : Metric := "Count"%string.

Section FrameOps.
Context {F : Type} `{Num F} `{TZDB}.
Local Open Scope num_scope.
Implicit Types (df other : DataFrame F) (a : Asset) (m : Metric) (t : Time).

Definition set_rates (rates : option (list F)) df : DataFrame F :=
  mkFrame (df_columns df) (df_times df) (df_assets df) (df_metrics df) (df_assetIndex df) (df_err df)
    (df_freq df) rates.

Definition SetRiskFreeRates df (rates : list F) : result (DataFrame F) :=
  if negb (length rates =? length (df_times df))%nat
  then Err "SetRiskFreeRates: length does not match time axis length"
  else Ok (set_rates (Some rates) df).

Definition CompositeAsset a b : Asset :=
  mk_asset (CompositeFigi a +:+ ":" +:+ CompositeFigi b) (Ticker a +:+ ":" +:+ Ticker b).
Definition CompositeMetric m m' : Metric := (m +:+ ":" +:+ m')%string.

(** A deep copy is the same value, rebuilt with its asset index. *)
Definition frame_Copy df : DataFrame F :=
  match df_err df with
  | Some e => WithErr e
  | None => set_rates (df_riskFreeRates df)
              (build (df_times df) (df_assets df) (df_metrics df) (df_freq df) (df_columns df))
  end.

(** ** Selections *)
Fixpoint match_assets df (seen : list string) (assets : list Asset) : list (Asset * nat) :=
  match assets with
  | [] => []
  | a :: rest =>
      if bool_decide (CompositeFigi a ∈ seen) then match_assets df seen rest
      else
        match df_assetIndex df !! CompositeFigi a ≫= λ i, (λ b, (b, i)) <$> df_assets df !! i with
        | Some p => p :: match_assets df (CompositeFigi a :: seen) rest
        | None => match_assets df seen rest
        end
  end.

Definition Assets df (assets : list Asset) : DataFrame F :=
  match df_err df with
  | Some e => WithErr e
  | None =>
      match match_assets df [] assets with
      | [] => empty_frame
      | matched =>
          let cols := flat_map
            (λ p : Asset * nat, colSlice df p.2 <$> seq 0 (length (df_metrics df))) matched in
          propagateAux df (build (df_times df) matched.*1 (df_metrics df) (df_freq df) cols)
      end
  end.

Definition pick {A} (indices : list nat) (l : list A) : list A := omap (λ i, l !! i) indices.

Definition sliceByIndices df (indices : list nat) : DataFrame F :=
  match indices with
  | [] => empty_frame
  | _ => set_rates (pick indices <$> df_riskFreeRates df)
           (build (pick indices (df_times df)) (df_assets df) (df_metrics df) (df_freq df)
              (pick indices <$> df_columns df))
  end.

(** The single-row frame a predicate sees. *)
Definition row_frame df (i : nat) t : DataFrame F :=
  build [t] (df_assets df) (df_metrics df) (df_freq df)
    ((λ col, [default fnan (col !! i)]) <$> df_columns df).

Definition Filter df (predicate : Time → DataFrame F → bool) : DataFrame F :=
  match df_err df with
  | Some e => WithErr e
  | None =>
      sliceByIndices df
        (keep (λ i, match df_times df !! i with
                    | Some t => predicate t (row_frame df i t)
                    | None => false
                    end) (seq 0 (length (df_times df))))
  end.

Definition row_has_nan df (i : nat) : bool :=
  existsb (λ col, is_nan (default 0 (col !! i))) (df_columns df).
Definition dropNaN df : DataFrame F :=
  sliceByIndices df (keep (λ i, negb (row_has_nan df i)) (seq 0 (length (df_times df)))).

Definition Drop df (val : F) : DataFrame F :=
  match df_err df with
  | Some e => WithErr e
  | None =>
      if is_nan val then dropNaN df
      else Filter df (λ _ row, negb (existsb (λ col, match col with x :: _ => x =? val | [] => false end)
                                       (df_columns row)))
  end.

(** ** Columns *)

(** The loop meets the new name at any index and stops there; the last index
    with the old name is renamed. *)
Definition RenameMetric df (old new : Metric) : DataFrame F :=
  match df_err df with
  | Some e => WithErr e
  | None =>
      if bool_decide (new ∈ df_metrics df) then WithErr ("RenameMetric: metric " +:+ new +:+ " already exists")%string
      else
        match last (keep (λ i, bool_decide (df_metrics df !! i = Some old)) (seq 0 (length (df_metrics df)))) with
        | None => WithErr ("RenameMetric: metric " +:+ old +:+ " not found")%string
        | Some i =>
            let c := frame_Copy df in
            mkFrame (df_columns c) (df_times c) (df_assets c) (<[i := new]> (df_metrics c)) (df_assetIndex c)
              (df_err c) (df_freq c) (df_riskFreeRates c)
        end
  end.

(** The column list after an asset, a metric or both were added. *)
Definition grow_columns (oldA oldM newA newM n : nat) (cols : list (list F)) : list (list F) :=
  (λ k, let ai := (k / newM)%nat in
        let mi := (k mod newM)%nat in
        if (ai <? oldA)%nat && (mi <? oldM)%nat
        then default (replicate n 0) (cols !! (ai * oldM + mi)%nat)
        else replicate n 0) <$> seq 0 (newA * newM).

Definition Insert df a m (values : list F) : result (DataFrame F) :=
  match df_err df with
  | Some e => Err e
  | None =>
      if negb (length values =? length (df_times df))%nat then
        Err "Insert: values length does not match Len()"
      else
        let known_a := df_assetIndex df !! CompositeFigi a in
        let known_m := metricIndex df m in
        let assets := match known_a with Some _ => df_assets df | None => df_assets df ++ [a] end in
        let index := match known_a with
                     | Some _ => df_assetIndex df
                     | None => <[CompositeFigi a := length (df_assets df)]> (df_assetIndex df)
                     end in
        let metrics := match known_m with Some _ => df_metrics df | None => df_metrics df ++ [m] end in
        let cols := match known_a, known_m with
                    | Some _, Some _ => df_columns df
                    | _, _ => grow_columns (length (df_assets df)) (length (df_metrics df))
                                (length assets) (length metrics) (length (df_times df)) (df_columns df)
                    end in
        let ai := default (length (df_assets df)) known_a in
        let mi := default (length (df_metrics df)) known_m in
        Ok (mkFrame (<[(ai * length metrics + mi)%nat := values]> cols) (df_times df) assets metrics index
              None (df_freq df) (df_riskFreeRates df))
  end.

(** ** Arithmetic *)
Record colPair : Type := mkPair { cp_a : Asset; cp_m : Metric; cp_self : nat; cp_other : nat }.

Definition metric_pairs df other a (ai oi : nat) : list colPair :=
  omap (λ im : nat * Metric,
    (λ om, mkPair a im.2 (colIdx df ai im.1) (colIdx other oi om)) <$> metricIndex other im.2)
    (zip (seq 0 (length (df_metrics df))) (df_metrics df)).

(** The columns both frames have, by asset and then by metric. *)
Definition col_pairs df other : list colPair :=
  flat_map (λ ia : nat * Asset,
    match df_assetIndex other !! CompositeFigi ia.2 with
    | None => []
    | Some oi => metric_pairs df other ia.2 ia.1 oi
    end) (zip (seq 0 (length (df_assets df))) (df_assets df)).

Fixpoint dedup_by {A K} `{EqDecision K} (key : A → K) (seen : list K) (l : list A) : list A :=
  match l with
  | [] => []
  | x :: rest => if bool_decide (key x ∈ seen) then dedup_by key seen rest
                 else x :: dedup_by key (key x :: seen) rest
  end.

Definition findIntersection df other : list colPair * list Asset * list Metric :=
  let pairs := col_pairs df other in
  (pairs, dedup_by CompositeFigi [] (cp_a <$> pairs), dedup_by (λ m, m) [] (cp_m <$> pairs)).

Definition times_match (ts us : list Time) : bool :=
  (length ts =? length us)%nat && forallb (λ p : Time * Time, Equal p.1 p.2) (zip ts us).

Definition elemWiseOp df other (op : list F → list F → list F) : DataFrame F :=
  match df_err df, df_err other with
  | Some e, _ => WithErr e
  | None, Some e => WithErr e
  | None, None =>
      if negb (times_match (df_times df) (df_times other)) then WithErr "elemWiseOp: timestamp mismatch"
      else
        let '(pairs, resAssets, resMetrics) := findIntersection df other in
        match pairs with
        | [] => empty_frame
        | _ =>
            let resIdx := index_assets 0 resAssets ∅ in
            let place cols p :=
              <[(default 0%nat (resIdx !! CompositeFigi (cp_a p)) * length resMetrics +
                 default 0%nat (metric_pos 0 resMetrics (cp_m p)))%nat :=
                op (default [] (df_columns df !! cp_self p)) (default [] (df_columns other !! cp_other p))]> cols in
            propagateAux df (build (df_times df) resAssets resMetrics (df_freq df)
              (fold_left place pairs (replicate (length resAssets * length resMetrics) [])))
        end
  end.

(** One named metric of [other] applied to every column of its assets. *)
Definition broadcast_metric other (op : list F → list F → list F) (cols : list (list F)) df m : list (list F) :=
  match metricIndex other m with
  | None => cols
  | Some mi =>
      (λ kc : nat * list F,
        match df_assets df !! (kc.1 / length (df_metrics df))%nat ≫= λ a, df_assetIndex other !! CompositeFigi a with
        | None => kc.2
        | Some oi => op kc.2 (colSlice other oi mi)
        end) <$> zip (seq 0 (length cols)) cols
  end.

Definition broadcastOp df other (metrics : list Metric) (op : list F → list F → list F) : DataFrame F :=
  match df_err df, df_err other with
  | Some e, _ => WithErr e
  | None, Some e => WithErr e
  | None, None =>
      if negb (times_match (df_times df) (df_times other)) then WithErr "broadcastOp: timestamp mismatch"
      else
        let c := frame_Copy df in
        mkFrame (fold_left (λ cols m, broadcast_metric other op cols df m) metrics (df_columns c))
          (df_times c) (df_assets c) (df_metrics c) (df_assetIndex c) (df_err c) (df_freq c) (df_riskFreeRates c)
  end.

Definition arith (op : list F → list F → list F) df other (metrics : list Metric) : DataFrame F :=
  match metrics with
  | [] => elemWiseOp df other op
  | _ => broadcastOp df other metrics op
  end.

Definition on_columns (f : list F → list F) df : DataFrame F :=
  match df_err df with
  | Some e => WithErr e
  | None =>
      let c := frame_Copy df in
      mkFrame (f <$> df_columns c) (df_times c) (df_assets c) (df_metrics c) (df_assetIndex c) (df_err c)
        (df_freq c) (df_riskFreeRates c)
  end.

Context `{Gonum F}.

Definition frame_Add := arith floats_AddTo.
Definition frame_Sub := arith floats_SubTo.
Definition frame_Mul := arith floats_MulTo.
Definition frame_Div := arith floats_DivTo.

Definition AddScalar df (scalar : F) : DataFrame F := on_columns (floats_AddConst scalar) df.
Definition SubScalar df (scalar : F) : DataFrame F := AddScalar df (- scalar).
Definition MulScalar df (scalar : F) : DataFrame F := on_columns (floats_Scale scalar) df.
Definition DivScalar df (scalar : F) : DataFrame F := MulScalar df (1 / scalar).

(** ** Across assets *)

(** The values of one metric at one row, in asset order. *)
Definition row_values df (mi ti : nat) : list F :=
  (λ ai, default fnan (colSlice df ai mi !! ti)) <$> seq 0 (length (df_assets df)).

Definition across df (ticker : string) (pick_value : list F → F) : DataFrame F :=
  match df_err df with
  | Some e => WithErr e
  | None =>
      propagateAux df (build (df_times df) [mk_asset "" ticker] (df_metrics df) (df_freq df)
        ((λ mi, (λ ti, pick_value (row_values df mi ti)) <$> seq 0 (length (df_times df)))
           <$> seq 0 (length (df_metrics df))))
  end.

Definition pos_inf : F := 1 / 0.
Definition neg_inf : F := (- (1)) / 0.

Definition MaxAcrossAssets df : DataFrame F :=
  across df "MAX" (λ vals, fold_left (λ best v, if v >? best then v else best) vals neg_inf).
Definition MinAcrossAssets df : DataFrame F :=
  across df "MIN" (λ vals, fold_left (λ best v, if v <? best then v else best) vals pos_inf).

Definition CountWhere df m (predicate : F → bool) : DataFrame F :=
  match df_err df with
  | Some e => WithErr e
  | None =>
      match metricIndex df m with
      | None => WithErr ("CountWhere: metric " +:+ m +:+ " not found")%string
      | Some mi =>
          propagateAux df (build (df_times df) [mk_asset "" "COUNT"] [CountMetric] (df_freq df)
            [(λ ti, fold_left (λ count v, if predicate v then count + 1 else count) (row_values df mi ti) 0)
               <$> seq 0 (length (df_times df))])
      end
  end.

(** The index of the largest value of the row, the first among equals; index 0
    when no value exceeds minus infinity. *)
Definition arg_max (vals : list F) : nat :=
  (fold_left (λ acc iv : nat * F,
    if iv.2 >? acc.2 then iv else acc) (zip (seq 0 (length vals)) vals) (0%nat, neg_inf)).1.

Definition IdxMaxAcrossAssets df : list Asset :=
  match df_err df with
  | Some _ => []
  | None => omap (λ ti, df_assets df !! arg_max (row_values df 0 ti)) (seq 0 (length (df_times df)))
  end.

(** ** Over time *)
Definition Reduce df (reducer : list F → F) : DataFrame F :=
  match df_err df with
  | Some e => WithErr e
  | None =>
      build (match last (df_times df) with Some t => [t] | None => [] end)
        (df_assets df) (df_metrics df) (df_freq df) ((λ col, [reducer col]) <$> df_columns df)
  end.

Definition or_nan (f : list F → F) (col : list F) : F := match col with [] => fnan | _ => f col end.
Definition float_len (col : list F) (less : Z) : F := of_Z (Z.of_nat (length col) - less).

(** Sum of squared deviations over [n - 1]; 0 below two values. *)
Definition sample_var (col : list F) : F :=
  if (length col <? 2)%nat then 0
  else
    let m := stat_Mean col in
    fold_left (λ sum v, sum + (v - m) * (v - m)) col 0 / float_len col 1.

Definition frame_Mean df := Reduce df (or_nan stat_Mean).
Definition frame_Sum df := Reduce df floats_Sum.
Definition frame_Max df := Reduce df (or_nan floats_Max).
Definition frame_Min df := Reduce df (or_nan floats_Min).
Definition Variance df := Reduce df sample_var.

Context `{NumSqrt F} `{NumLog F}.

Definition sampleStd (values : list F) : F :=
  if (length values <? 2)%nat then 0
  else
    let m := stat_Mean values in
    fsqrt (fold_left (λ sum v, sum + (v - m) * (v - m)) values 0 / float_len values 1).
Definition frame_Std df := Reduce df sampleStd.

(** ** Covariance and correlation *)
Definition sampleCov (xs ys : list F) : F :=
  let count := Nat.min (length xs) (length ys) in
  if (count <? 2)%nat then 0
  else
    let mx := stat_Mean (take count xs) in
    let my := stat_Mean (take count ys) in
    fold_left (λ (sum : F) (p : F * F), sum + (p.1 - mx) * (p.2 - my)) (zip (take count xs) (take count ys)) 0
      / of_Z (Z.of_nat count - 1).

Definition pearsonCorr (xs ys : list F) : F :=
  let count := Nat.min (length xs) (length ys) in
  if (count <? 2)%nat then 0
  else
    let cov := sampleCov (take count xs) (take count ys) in
    let stdX := sampleStd (take count xs) in
    let stdY := sampleStd (take count ys) in
    if (stdX =? 0) || (stdY =? 0) then 0 else cov / (stdX * stdY).

(** All pairs of a list, the earlier element first. *)
Fixpoint pairs_of {A} (l : list A) : list (A * A) :=
  match l with
  | [] => []
  | x :: rest => (pair x <$> rest) ++ pairs_of rest
  end.

Definition last_times df : list Time := match last (df_times df) with Some t => [t] | None => [] end.

(** [mustNewDataFrame]: [None] is its panic on mismatched dimensions. *)
Definition mustNewDataFrame (times : list Time) (assets : list Asset) (metrics : list Metric)
    (freq : Frequency) (columns : list (list F)) : option (DataFrame F) :=
  match NewDataFrame times assets metrics freq columns with Ok df => Some df | Err _ => None end.

Definition cross_metric (stat : list F → list F → F) df a (lastTime : list Time) : option (DataFrame F) :=
  match df_assetIndex df !! CompositeFigi a with
  | None => Some empty_frame
  | Some ai =>
      match pairs_of (zip (seq 0 (length (df_metrics df))) (df_metrics df)) with
      | [] => Some empty_frame
      | pairs =>
          mustNewDataFrame lastTime [a] ((λ p, CompositeMetric p.1.2 p.2.2) <$> pairs) (df_freq df)
            ((λ p, [stat (colSlice df ai p.1.1) (colSlice df ai p.2.1)]) <$> pairs)
      end
  end.
Definition crossMetricCovariance := cross_metric sampleCov.
Definition crossMetricCorrelation := cross_metric pearsonCorr.

Definition cross_asset (stat : list F → list F → F) df (assets : list Asset) (lastTime : list Time) :
    option (DataFrame F) :=
  let found := omap (λ p : Asset * Asset,
    match df_assetIndex df !! CompositeFigi p.1, df_assetIndex df !! CompositeFigi p.2 with
    | Some i, Some j => Some (p, (i, j))
    | _, _ => None
    end) (pairs_of assets) in
  match found with
  | [] => Some empty_frame
  | _ =>
      mustNewDataFrame lastTime ((λ f, CompositeAsset f.1.1 f.1.2) <$> found) (df_metrics df) (df_freq df)
        (flat_map (λ f, (λ mi, [stat (colSlice df f.2.1 mi) (colSlice df f.2.2 mi)])
                          <$> seq 0 (length (df_metrics df))) found)
  end.
Definition crossAssetCovariance := cross_asset sampleCov.
Definition crossAssetCorrelation := cross_asset pearsonCorr.

Definition Covariance df (assets : list Asset) : option (DataFrame F) :=
  match df_err df with
  | Some e => Some (WithErr e)
  | None =>
      match assets with
      | [] => Some empty_frame
      | [a] => crossMetricCovariance df a (last_times df)
      | _ => crossAssetCovariance df assets (last_times df)
      end
  end.
Definition Correlation df (assets : list Asset) : option (DataFrame F) :=
  match df_err df with
  | Some e => Some (WithErr e)
  | None =>
      match assets with
      | [] => Some empty_frame
      | [a] => crossMetricCorrelation df a (last_times df)
      | _ => crossAssetCorrelation df assets (last_times df)
      end
  end.

(** ** Transforms *)
Definition rf_adjusted (period : nat) (rf : list F) (perYear : F) (col : list F) : list F :=
  (λ i, if (i <? period)%nat then fnan
        else
          let prev := default fnan (col !! (i - period)%nat) in
          let pctChange := (default fnan (col !! i) - prev) / prev in
          let rfSum := fsum (take period (drop (i - period + 1) rf)) in
          pctChange - rfSum / perYear / of_Z 100) <$> seq 0 (length col).

Definition RiskAdjustedPct df (period : nat) : DataFrame F :=
  match df_err df with
  | Some e => WithErr e
  | None =>
      match df_riskFreeRates df with
      | None => WithErr "RiskAdjustedPct: no risk-free rates attached"
      | Some rf => Apply df (rf_adjusted period rf (PeriodsPerYear (df_freq df)))
      end
  end.

Definition Log df : DataFrame F := Apply df (fmap flog).
Definition CumSum df : DataFrame F := Apply df floats_CumSum.

(** [Annotate]: the cells a destination receives, with their keys. *)
Definition annotations df : list (Time * string * F) :=
  match df_err df with
  | Some _ => []
  | None =>
      flat_map (λ t, flat_map (λ a, omap (λ m,
        let v := ValueAt df a m t in
        if is_nan v then None else Some (t, (Ticker a +:+ "/" +:+ m)%string, v)) (df_metrics df))
        (df_assets df)) (df_times df)
  end.
End FrameOps.
