(* ===== verification/Resample.v ===== *)
(** * Resample: merging, rolling windows, down- and upsampling
    ([data/merge.go], [data/rolling_data_frame.go], [data/downsample.go],
    [data/upsample.go])

    Rolling windows and groups reduce slices of a column; upsampling walks a
    generated time axis with a cursor into the source rows.  The loop that
    generates the axis takes fuel. *)
From Stdlib Require Import ZArith.
From stdpp Require Import base list gmap strings.
From S2P Require Import Prelude Num GoTime Asset Period Frame FrameOps.

Section Merge.
Context {F : Type} `{Num F} `{TZDB} `{GoSort}.
Implicit Types (df f : DataFrame F) (frames : list (DataFrame F)).

(** ** Merging *)
Definition same_times df f : option string :=
  if negb (length (df_times f) =? length (df_times df))%nat then Some "MergeColumns: timestamp count mismatch"%string
  else if negb (forallb (λ p : Time * Time, Equal p.1 p.2) (zip (df_times df) (df_times f)))
  then Some "MergeColumns: timestamp mismatch"%string
  else None.

Definition first_error {A} (check : A → option string) (l : list A) : option string :=
  head (omap check l).

(** The columns of one frame, inserted into the result.  A nil column is one
    the frame has not got. *)
Definition insert_column f (res : result (DataFrame F)) (am : Asset * Metric) : result (DataFrame F) :=
  match res with
  | Err e => Err e
  | Ok r =>
      match df_err f, df_assetIndex f !! CompositeFigi am.1, metricIndex f am.2 with
      | None, Some ai, Some mi =>
          match Insert r am.1 am.2 (colSlice f ai mi) with
          | Ok r => Ok r
          | Err e => Err ("MergeColumns: insert: " +:+ e)%string
          end
      | _, _, _ => Ok r
      end
  end.

Definition cells df : list (Asset * Metric) :=
  flat_map (λ a, pair a <$> df_metrics df) (df_assets df).

Definition insert_frame (res : result (DataFrame F)) f : result (DataFrame F) :=
  fold_left (insert_column f) (cells f) res.

Definition MergeColumns frames : result (DataFrame F) :=
  match frames with
  | [] => Ok empty_frame
  | [f] => Ok f
  | base :: rest =>
      match first_error (same_times base) rest with
      | Some e => Err e
      | None => fold_left insert_frame rest (Ok (frame_Copy base))
      end
  end.

Definition overlap_at (p : DataFrame F * DataFrame F) : bool := negb (After (Start p.2) (End p.1)).

Definition column_or_zeros f (am : Asset * Metric) : list F :=
  match df_err f, df_assetIndex f !! CompositeFigi am.1, metricIndex f am.2 with
  | None, Some ai, Some mi => colSlice f ai mi
  | _, _, _ => replicate (length (df_times f)) (of_Z 0)
  end.

(** Some rates when every frame has them. *)
Fixpoint all_rates frames : option (list F) :=
  match frames with
  | [] => Some []
  | f :: rest =>
      match df_riskFreeRates f, all_rates rest with
      | Some r, Some rs => Some (r ++ rs)
      | _, _ => None
      end
  end.

Definition concat_frames (sorted : list (DataFrame F)) : result (DataFrame F) :=
  match sorted with
  | [] => Ok empty_frame
  | first :: _ =>
      match NewDataFrame (mjoin (df_times <$> sorted)) (df_assets first) (df_metrics first) (df_freq first)
              ((λ am, mjoin ((λ f, column_or_zeros f am) <$> sorted)) <$> cells first) with
      | Err e => Err e
      | Ok r =>
          match all_rates sorted with
          | None => Ok r
          | Some rates =>
              match SetRiskFreeRates r rates with
              | Ok r => Ok r
              | Err e => Err ("concat: set risk-free rates: " +:+ e)%string
              end
          end
      end
  end.

Definition MergeTimes frames : result (DataFrame F) :=
  match frames with
  | [] => Ok empty_frame
  | [f] => Ok f
  | _ =>
      match keep (λ f, (0 <? Len f)%nat) frames with
      | [] => Ok empty_frame
      | [f] => Ok f
      | nonEmpty =>
          let sorted := sort_slice (λ f g, Before (Start f) (Start g)) nonEmpty in
          if existsb overlap_at (zip sorted (tail sorted)) then Err "MergeTimes: overlapping time ranges"
          else concat_frames sorted
      end
  end.
End Merge.

Section Resample.
Context {F : Type} `{Num F} `{TZDB}.
Local Open Scope num_scope.
Implicit Types (df : DataFrame F) (col vals : list F) (t : Time).

(** ** Rolling windows *)

(** The values of the window that ends at index [i]. *)
Definition window_at (n i : nat) col : list F := take n (drop (i + 1 - n) col).

Definition rolling_col (n : nat) (reduce : list F → F) col : list F :=
  (λ i, if (i <? n - 1)%nat then fnan else reduce (window_at n i col)) <$> seq 0 (length col).
Definition rolling (n : nat) (reduce : list F → F) df : DataFrame F := Apply df (rolling_col n reduce).

Context `{Gonum F} `{NumSqrt F} `{GoSort}.

Definition Rolling_Mean df (n : nat) := rolling n stat_Mean df.
Definition Rolling_Sum df (n : nat) := rolling n floats_Sum df.
Definition Rolling_Max df (n : nat) := rolling n floats_Max df.
Definition Rolling_Min df (n : nat) := rolling n floats_Min df.

Definition deviation_sum vals : F :=
  let mean := stat_Mean vals in
  fold_left (λ s v, s + (v - mean) * (v - mean)) vals 0.
Definition rolling_var (n : nat) vals : F :=
  if (n <=? 1)%nat then 0 else deviation_sum vals / of_Z (Z.of_nat n - 1).
Definition Rolling_Variance df (n : nat) := rolling n (rolling_var n) df.
Definition Rolling_Std df (n : nat) :=
  rolling n (λ vals, if (n <=? 1)%nat then 0 else fsqrt (deviation_sum vals / of_Z (Z.of_nat n - 1))) df.
(** [sort.Float64s] orders NaN before every other value. *)
Definition float_less (x y : F) : bool := (x <? y) || (is_nan x && negb (is_nan y)).
Definition Rolling_Percentile df (n : nat) (p : F) :=
  rolling n (λ vals, stat_Quantile p (sort_slice float_less vals)) df.

(** The averages after the seed, one per further value. *)
Fixpoint ema_from (alpha prev : F) col : list F :=
  match col with
  | [] => []
  | x :: rest => let v := alpha * x + (1 - alpha) * prev in v :: ema_from alpha v rest
  end.
Definition ema_col (n : nat) col : list F :=
  let alpha := of_Z 2 / of_Z (Z.of_nat n + 1) in
  if (length col <? n)%nat || (length col =? 0)%nat then replicate (length col) fnan
  else
    let seed := stat_Mean (take n col) in
    replicate (n - 1) fnan ++ seed :: ema_from alpha seed (drop n col).
Definition Rolling_EMA df (n : nat) := Apply df (ema_col n).

(** ** Downsampling *)
(** The number of the ISO week: the week of the Thursday nearest to the date. *)
Definition iso_week t : Z :=
  let days := days_from_civil (Year t) (Month t) (Day t) in
  let thursday := (days + 3 - (days + 3) mod 7)%Z in
  let year := c_year (civil_from_days thursday) in
  ((thursday - days_from_civil year 1 1) / 7 + 1)%Z.

Definition periodChanged (prev curr : Time) (freq : Frequency) : bool :=
  match freq with
  | Daily => negb (Year prev =? Year curr)%Z || negb (YearDay prev =? YearDay curr)%Z
  | Weekly => negb (iso_week prev =? iso_week curr)%Z
  | Monthly => negb (Month prev =? Month curr)%Z || negb (Year prev =? Year curr)%Z
  | Quarterly => negb ((Month prev - 1) / 3 =? (Month curr - 1) / 3)%Z || negb (Year prev =? Year curr)%Z
  | Yearly => negb (Year prev =? Year curr)%Z
  | Tick => true
  end.

(** The half-open index ranges between period changes, from a group that
    started at [start]; [i] is the index of the head of [times]. *)
Fixpoint group_ends (freq : Frequency) (start i : nat) (prev : Time) (times : list Time) : list (nat * nat) :=
  match times with
  | [] => [(start, i)]
  | t :: rest =>
      if periodChanged prev t freq then (start, i) :: group_ends freq i (S i) t rest
      else group_ends freq start (S i) t rest
  end.
Definition groups_of_times (freq : Frequency) (times : list Time) : list (nat * nat) :=
  match times with
  | [] => []
  | t :: rest => group_ends freq 0 1 t rest
  end.

Definition group_last {A} (d : A) (l : list A) (g : nat * nat) : A := default d (l !! (g.2 - 1)%nat).

Definition aggregate df (freq : Frequency) (reducer : list F → F) : DataFrame F :=
  match df_times df with
  | [] => empty_frame
  | _ =>
      let groups := groups_of_times freq (df_times df) in
      set_rates ((λ rf, group_last 0 rf <$> groups) <$> df_riskFreeRates df)
        (build (group_last zero_time (df_times df) <$> groups) (df_assets df) (df_metrics df) freq
          ((λ col, (λ g : nat * nat, reducer (slice g.1 g.2 col)) <$> groups) <$> df_columns df))
  end.

Definition Downsample_Mean df freq := aggregate df freq stat_Mean.
Definition Downsample_Sum df freq := aggregate df freq floats_Sum.
Definition Downsample_Max df freq := aggregate df freq floats_Max.
Definition Downsample_Min df freq := aggregate df freq floats_Min.
Definition Downsample_First df freq := aggregate df freq (λ vals, default 0 (head vals)).
Definition Downsample_Last df freq := aggregate df freq (λ vals, default 0 (last vals)).
Definition Downsample_Std df freq := aggregate df freq sampleStd.
Definition Downsample_Variance df freq := aggregate df freq sample_var.

(** ** Upsampling *)
Definition next_time (freq : Frequency) t : Time :=
  match freq with
  | Weekly => AddDate t 0 0 7
  | Monthly => AddDate t 0 1 0
  | Quarterly => AddDate t 0 3 0
  | Yearly => AddDate t 1 0 0
  | Daily | Tick => AddDate t 0 0 1
  end.

(** [None] when the loop is still running. *)
Fixpoint times_loop (fuel : nat) (freq : Frequency) (current end_ : Time) : option (list Time) :=
  match fuel with
  | O => None
  | S fuel =>
      if After current end_ then Some []
      else cons current <$> times_loop fuel freq (next_time freq current) end_
  end.

Definition generateTimes (fuel : nat) df (freq : Frequency) : option (list Time) :=
  if (length (df_times df) <? 2)%nat then Some (df_times df)
  else times_loop fuel freq (Start df) (End df).

(** The cursor loop: while the cursor is not on the last row and [more] holds
    at it, it moves on. *)
Fixpoint move_cursor (fuel : nat) (n : nat) (more : nat → bool) (idx : nat) : nat :=
  match fuel with
  | O => idx
  | S fuel => if (idx <? n - 1)%nat && more idx then move_cursor fuel n more (S idx) else idx
  end.

(** The values picked along the new axis, the cursor carried from one
    timestamp to the next. *)
Fixpoint walk {A} (times : list Time) (more : Time → nat → bool) (value : Time → nat → A) (idx : nat)
    (axis : list Time) : list A :=
  match axis with
  | [] => []
  | t :: rest =>
      let idx := move_cursor (length times) (length times) (more t) idx in
      value t idx :: walk times more value idx rest
  end.

Definition upsample (fuel : nat) df (freq : Frequency)
    (fill : list Time → list F → list Time → list F) : option (DataFrame F) :=
  match df_times df with
  | [] => Some empty_frame
  | times =>
      (λ axis,
        set_rates ((λ rf, fill times rf axis) <$> df_riskFreeRates df)
          (build axis (df_assets df) (df_metrics df) freq ((λ col, fill times col axis) <$> df_columns df)))
      <$> generateTimes fuel df freq
  end.

Definition time_at (times : list Time) (i : nat) : Time := default zero_time (times !! i).

Definition forward_fill (times : list Time) col (axis : list Time) : list F :=
  walk times (λ t i, negb (After (time_at times (S i)) t)) (λ _ i, default 0 (col !! i)) 0 axis.
Definition back_fill (times : list Time) col (axis : list Time) : list F :=
  walk times (λ t i, Before (time_at times i) t) (λ _ i, default 0 (col !! i)) 0 axis.

Definition interpolated (times : list Time) col t (i : nat) : F :=
  if (length times - 1 <=? i)%nat || Equal t (time_at times i) then default 0 (col !! i)
  else
    let v0 := default 0 (col !! i) in
    let v1 := default 0 (col !! S i) in
    let frac := of_Z (GoTime.Sub t (time_at times i)) / of_Z (GoTime.Sub (time_at times (S i)) (time_at times i)) in
    v0 + frac * (v1 - v0).
Definition interpolate (times : list Time) col (axis : list Time) : list F :=
  walk times (λ t i, Before (time_at times (S i)) t) (interpolated times col) 0 axis.

Definition ForwardFill (fuel : nat) df freq := upsample fuel df freq forward_fill.
Definition BackFill (fuel : nat) df freq := upsample fuel df freq back_fill.
Definition Interpolate (fuel : nat) df freq := upsample fuel df freq interpolate.
End Resample.
