(* ===== verification/Broker.v ===== *)
(** * Broker: orders, fills and the fill pipeline ([broker/])

    The vocabulary of [broker/broker.go] and the fill models: the base models
    of [fill_close.go] and [fill_vwap.go], and the adjusters of
    [fill_slippage.go], [fill_spread.go] and [fill_impact.go], composed by the
    pipeline of [fill.go].  A slippage option is a Go function value and stays
    one here; [math.Sqrt] is the operation of the class [NumSqrt]. *)
From Stdlib Require Import ZArith Floats.
From stdpp Require Import base list gmap strings.
From S2P Require Import Prelude Num GoTime Asset Frame.

Inductive Side : Type := Buy | Sell.
#[export] Instance Side_eq_dec : EqDecision Side.
Proof. solve_decision. Defined.

Inductive OrderStatus : Type :=
  | OrderOpen | OrderSubmitted | OrderFilled | OrderPartiallyFilled | OrderCancelled.

Inductive OrderType : Type := Market | Limit | Stop | StopLimit.
#[export] Instance OrderType_eq_dec : EqDecision OrderType.
Proof. solve_decision. Defined.

Inductive TimeInForce : Type := Day_ | GTC | GTD | IOC | FOK | OnOpen | OnClose.

(** The zero value of [GroupRole] means no role. *)
Inductive GroupRole : Type := NoRole | RoleEntry | RoleStopLoss | RoleTakeProfit.
#[export] Instance GroupRole_eq_dec : EqDecision GroupRole.
Proof. solve_decision. Defined.

Inductive GroupType : Type := GroupOCO | GroupBracket.
#[export] Instance GroupType_eq_dec : EqDecision GroupType.
Proof. solve_decision. Defined.

Record Order (F : Type) : Type := mkOrder {
  o_ID : string;
  o_Asset : Asset;
  o_Side : Side;
  o_Status : OrderStatus;
  o_Qty : F;
  o_Amount : F;
  o_OrderType : OrderType;
  o_TimeInForce : TimeInForce;
  o_LimitPrice : F;
  o_StopPrice : F;
  o_GTDDate : Time;
  o_Justification : string;
  o_LotSelection : Z;
  o_GroupID : string;
  o_GroupRole : GroupRole;
  o_BatchID : Z;
}.
Arguments mkOrder {F}.
Arguments o_ID {F}.
Arguments o_Asset {F}.
Arguments o_Side {F}.
Arguments o_Status {F}.
Arguments o_Qty {F}.
Arguments o_Amount {F}.
Arguments o_OrderType {F}.
Arguments o_TimeInForce {F}.
Arguments o_LimitPrice {F}.
Arguments o_StopPrice {F}.
Arguments o_GTDDate {F}.
Arguments o_Justification {F}.
Arguments o_LotSelection {F}.
Arguments o_GroupID {F}.
Arguments o_GroupRole {F}.
Arguments o_BatchID {F}.

Record OrderGroup : Type := mkGroup {
  g_ID : string;
  g_Type : GroupType;
  g_OrderIDs : list string;
}.

(** A fill with an error reports an order that resolved without executing. *)
Record Fill (F : Type) : Type := mkFill {
  f_OrderID : string;
  f_Price : F;
  f_Qty : F;
  f_FilledAt : Time;
  f_Err : option error;
}.
Arguments mkFill {F}.
Arguments f_OrderID {F}.
Arguments f_Price {F}.
Arguments f_Qty {F}.
Arguments f_FilledAt {F}.
Arguments f_Err {F}.

(** [broker.Transaction], an account activity the broker reports. *)
Record BrokerTxn (F : Type) : Type := mkBrokerTxn {
  bt_ID : string;
  bt_Date : Time;
  bt_Asset : Asset;
  bt_Type : TransactionType;
  bt_Qty : F;
  bt_Price : F;
  bt_Amount : F;
  bt_Justification : string;
}.
Arguments mkBrokerTxn {F}.
Arguments bt_ID {F}.
Arguments bt_Date {F}.
Arguments bt_Asset {F}.
Arguments bt_Type {F}.
Arguments bt_Qty {F}.
Arguments bt_Price {F}.
Arguments bt_Amount {F}.
Arguments bt_Justification {F}.

Section OrderUpdates.
Context {F : Type} `{Num F}.
Implicit Types o : Order F.

(** An order with every field zero but the ones the source sets. *)
Definition base_order (a : Asset) (side : Side) (qty amount : F) (ot : OrderType)
    (tif : TimeInForce) (justification : string) : Order F :=
  mkOrder "" a side OrderOpen qty amount ot tif (of_Z 0) (of_Z 0) zero_time
    justification 0 "" NoRole 0.

Definition set_ID (id : string) o : Order F :=
  mkOrder id (o_Asset o) (o_Side o) (o_Status o) (o_Qty o) (o_Amount o) (o_OrderType o)
    (o_TimeInForce o) (o_LimitPrice o) (o_StopPrice o) (o_GTDDate o) (o_Justification o)
    (o_LotSelection o) (o_GroupID o) (o_GroupRole o) (o_BatchID o).
Definition set_Qty (q : F) o : Order F :=
  mkOrder (o_ID o) (o_Asset o) (o_Side o) (o_Status o) q (o_Amount o) (o_OrderType o)
    (o_TimeInForce o) (o_LimitPrice o) (o_StopPrice o) (o_GTDDate o) (o_Justification o)
    (o_LotSelection o) (o_GroupID o) (o_GroupRole o) (o_BatchID o).
Definition set_Amount (x : F) o : Order F :=
  mkOrder (o_ID o) (o_Asset o) (o_Side o) (o_Status o) (o_Qty o) x (o_OrderType o)
    (o_TimeInForce o) (o_LimitPrice o) (o_StopPrice o) (o_GTDDate o) (o_Justification o)
    (o_LotSelection o) (o_GroupID o) (o_GroupRole o) (o_BatchID o).
Definition set_OrderType (ot : OrderType) o : Order F :=
  mkOrder (o_ID o) (o_Asset o) (o_Side o) (o_Status o) (o_Qty o) (o_Amount o) ot
    (o_TimeInForce o) (o_LimitPrice o) (o_StopPrice o) (o_GTDDate o) (o_Justification o)
    (o_LotSelection o) (o_GroupID o) (o_GroupRole o) (o_BatchID o).
Definition set_TIF (tif : TimeInForce) o : Order F :=
  mkOrder (o_ID o) (o_Asset o) (o_Side o) (o_Status o) (o_Qty o) (o_Amount o) (o_OrderType o)
    tif (o_LimitPrice o) (o_StopPrice o) (o_GTDDate o) (o_Justification o)
    (o_LotSelection o) (o_GroupID o) (o_GroupRole o) (o_BatchID o).
Definition set_LimitPrice (p : F) o : Order F :=
  mkOrder (o_ID o) (o_Asset o) (o_Side o) (o_Status o) (o_Qty o) (o_Amount o) (o_OrderType o)
    (o_TimeInForce o) p (o_StopPrice o) (o_GTDDate o) (o_Justification o)
    (o_LotSelection o) (o_GroupID o) (o_GroupRole o) (o_BatchID o).
Definition set_StopPrice (p : F) o : Order F :=
  mkOrder (o_ID o) (o_Asset o) (o_Side o) (o_Status o) (o_Qty o) (o_Amount o) (o_OrderType o)
    (o_TimeInForce o) (o_LimitPrice o) p (o_GTDDate o) (o_Justification o)
    (o_LotSelection o) (o_GroupID o) (o_GroupRole o) (o_BatchID o).
Definition set_GTDDate (d : Time) o : Order F :=
  mkOrder (o_ID o) (o_Asset o) (o_Side o) (o_Status o) (o_Qty o) (o_Amount o) (o_OrderType o)
    (o_TimeInForce o) (o_LimitPrice o) (o_StopPrice o) d (o_Justification o)
    (o_LotSelection o) (o_GroupID o) (o_GroupRole o) (o_BatchID o).
Definition set_Justification (j : string) o : Order F :=
  mkOrder (o_ID o) (o_Asset o) (o_Side o) (o_Status o) (o_Qty o) (o_Amount o) (o_OrderType o)
    (o_TimeInForce o) (o_LimitPrice o) (o_StopPrice o) (o_GTDDate o) j
    (o_LotSelection o) (o_GroupID o) (o_GroupRole o) (o_BatchID o).
Definition set_LotSelection (n : Z) o : Order F :=
  mkOrder (o_ID o) (o_Asset o) (o_Side o) (o_Status o) (o_Qty o) (o_Amount o) (o_OrderType o)
    (o_TimeInForce o) (o_LimitPrice o) (o_StopPrice o) (o_GTDDate o) (o_Justification o)
    n (o_GroupID o) (o_GroupRole o) (o_BatchID o).
Definition set_Group (gid : string) (role : GroupRole) o : Order F :=
  mkOrder (o_ID o) (o_Asset o) (o_Side o) (o_Status o) (o_Qty o) (o_Amount o) (o_OrderType o)
    (o_TimeInForce o) (o_LimitPrice o) (o_StopPrice o) (o_GTDDate o) (o_Justification o)
    (o_LotSelection o) gid role (o_BatchID o).
Definition set_BatchID (b : Z) o : Order F :=
  mkOrder (o_ID o) (o_Asset o) (o_Side o) (o_Status o) (o_Qty o) (o_Amount o) (o_OrderType o)
    (o_TimeInForce o) (o_LimitPrice o) (o_StopPrice o) (o_GTDDate o) (o_Justification o)
    (o_LotSelection o) (o_GroupID o) (o_GroupRole o) b.
End OrderUpdates.

(** ** The fill pipeline *)
Record FillResult (F : Type) : Type := mkFillResult {
  fr_Price : F;
  fr_Partial : bool;
  fr_Quantity : F;
}.
Arguments mkFillResult {F}.
Arguments fr_Price {F}.
Arguments fr_Partial {F}.
Arguments fr_Quantity {F}.

(** The interfaces [BaseModel] and [Adjuster] have one method each. *)
Definition BaseModel (F : Type) : Type := Order F → DataFrame F → result (FillResult F).
Definition Adjuster (F : Type) : Type :=
  Order F → DataFrame F → FillResult F → result (FillResult F).

Record Pipeline (F : Type) : Type := NewPipeline {
  p_base : BaseModel F;
  p_adjusters : list (Adjuster F);
}.
Arguments NewPipeline {F}.
Arguments p_base {F}.
Arguments p_adjusters {F}.

(** [DataFetcher.FetchAt]: a frame, or an error. *)
Definition DataFetcher (F : Type) : Type :=
  list Asset → Time → list Metric → result (DataFrame F).

Section Fills.
Context {F : Type} `{Num F}.
Local Open Scope num_scope.
Implicit Types (order : Order F) (bar : DataFrame F) (r : FillResult F).

Definition FillBase (pp : Pipeline F) : BaseModel F := p_base pp.

(** Adjusters run in sequence; the first error ends the run. *)
Fixpoint adjust_all (adjs : list (Adjuster F)) order bar r : result (FillResult F) :=
  match adjs with
  | [] => Ok r
  | adj :: rest => match adj order bar r with
                   | Ok r' => adjust_all rest order bar r'
                   | Err e => Err e
                   end
  end.
Definition Adjust (pp : Pipeline F) order bar r : result (FillResult F) :=
  adjust_all (p_adjusters pp) order bar r.

Definition pipeline_Fill (pp : Pipeline F) order bar : result (FillResult F) :=
  match FillBase pp order bar with
  | Ok r => Adjust pp order bar r
  | Err e => Err e
  end.

Definition FillAtClose : BaseModel F := λ order bar,
  let price := Value bar (o_Asset order) MetricClose in
  if is_nan price || (price =? 0)
  then Err ("close fill: no close price for " +:+ Ticker (o_Asset order))%string
  else Ok (mkFillResult price false (o_Qty order)).

(** *** Slippage *)
Definition SlippageOption : Type := F → F.
Definition Percent (pct : F) : SlippageOption := λ price, price * pct.
Definition Fixed (amount : F) : SlippageOption := λ _, amount.

Definition Slippage (opt : SlippageOption) : Adjuster F := λ order _ current,
  let delta := opt (fr_Price current) in
  let adjusted := if decide (o_Side order = Buy)
                  then fr_Price current + delta
                  else fr_Price current - delta in
  Ok (mkFillResult adjusted (fr_Partial current) (fr_Quantity current)).

(** *** Bid-ask spread; [bps] is 0 when no fallback is configured *)
Definition SpreadAware (bps : Z) : Adjuster F := λ order bar current,
  let bidVal := Value bar (o_Asset order) Bid in
  let askVal := Value bar (o_Asset order) Ask in
  let hasBidAsk := negb (is_nan bidVal) && negb (is_nan askVal) &&
                   negb (bidVal =? 0) && negb (askVal =? 0) in
  if hasBidAsk then
    let price := if decide (o_Side order = Sell) then bidVal else askVal in
    Ok (mkFillResult price (fr_Partial current) (fr_Quantity current))
  else if (0 <? bps)%Z then
    let halfSpread := fr_Price current * of_Z bps / of_Z 10000 in
    let price := if decide (o_Side order = Sell)
                 then fr_Price current - halfSpread
                 else fr_Price current + halfSpread in
    Ok (mkFillResult price (fr_Partial current) (fr_Quantity current))
  else Err "spread adjuster: no bid/ask data and no BPS fallback configured".

(** *** Market impact *)
Record ImpactPreset : Type := mkPreset { Coefficient : F; PartialThreshold : F }.
Definition LargeCap : ImpactPreset := mkPreset (lit 1 10) (lit 5 100).
Definition SmallCap : ImpactPreset := mkPreset (lit 3 10) (lit 2 100).
Definition MicroCap : ImpactPreset := mkPreset (lit 5 10) (lit 1 100).

Definition MarketImpact `{NumSqrt F} (preset : ImpactPreset) : Adjuster F :=
  λ order bar current,
    let volume := Value bar (o_Asset order) Volume in
    if is_nan volume || (volume <=? 0)
    then Err ("market impact adjuster: volume data is unavailable or zero for "
              +:+ Ticker (o_Asset order))%string
    else
      let qty := fr_Quantity current in
      let participation := qty / volume in
      let '(qty, partial, participation) :=
        if participation >? PartialThreshold preset then
          let qty := ffloor (volume * PartialThreshold preset) in
          (qty, true, qty / volume)
        else (qty, fr_Partial current, participation) in
      let impact := Coefficient preset * fsqrt participation in
      let adjustedPrice := if decide (o_Side order = Sell)
                           then fr_Price current * (1 - impact)
                           else fr_Price current * (1 + impact) in
      Ok (mkFillResult adjustedPrice partial qty).

(** *** VWAP *)
Fixpoint vwap_sums (high low close vol : list F) (sumPV sumVol : F) : F * F :=
  match high, low, close, vol with
  | h :: high, l :: low, c :: close, v :: vol =>
      if is_nan h || is_nan l || is_nan c || is_nan v
      then vwap_sums high low close vol sumPV sumVol
      else
        let tp := (h + l + c) / of_Z 3 in
        vwap_sums high low close vol (sumPV + tp * v) (sumVol + v)
  | _, _, _, _ => (sumPV, sumVol)
  end.

Definition intradayVWAP (fetcher : DataFetcher F) order bar : option F :=
  match last (df_times bar) with
  | None => None
  | Some barDate =>
      match fetcher [o_Asset order] barDate [MetricHigh; MetricLow; MetricClose; Volume] with
      | Err _ => None
      | Ok df =>
          let highCol := Column df (o_Asset order) MetricHigh in
          let lowCol := Column df (o_Asset order) MetricLow in
          let closeCol := Column df (o_Asset order) MetricClose in
          let volCol := Column df (o_Asset order) Volume in
          let '(sumPV, sumVol) := vwap_sums highCol lowCol closeCol volCol 0 0 in
          if (sumVol =? 0) || is_nan sumVol then None else Some (sumPV / sumVol)
      end
  end.

Definition typicalPrice order bar : result F :=
  let high := Value bar (o_Asset order) MetricHigh in
  let low := Value bar (o_Asset order) MetricLow in
  let closePrice := Value bar (o_Asset order) MetricClose in
  if is_nan high || is_nan low || is_nan closePrice
  then Err ("vwap fill: missing OHLC data for " +:+ Ticker (o_Asset order))%string
  else Ok ((high + low + closePrice) / of_Z 3).

Definition VWAP (fetcher : option (DataFetcher F)) : BaseModel F := λ order bar,
  match fetcher ≫= λ f, intradayVWAP f order bar with
  | Some price => Ok (mkFillResult price false (o_Qty order))
  | None =>
      match typicalPrice order bar with
      | Err e => Err e
      | Ok price => Ok (mkFillResult price false (o_Qty order))
      end
  end.
End Fills.

(** ** Properties of the fill models *)
Section FillLemmas.
Context {F : Type} `{Num F}.
Local Open Scope num_scope.

Lemma adjust_all_app (l1 l2 : list (Adjuster F)) order bar r :
  adjust_all (l1 ++ l2) order bar r =
  match adjust_all l1 order bar r with
  | Ok r' => adjust_all l2 order bar r'
  | Err e => Err e
  end.
Proof. revert r. induction l1 as [|a l1 IH]; intros r; cbn; [done|]. by destruct (a order bar r). Qed.

(** No fill at a missing or zero close price; otherwise the close, in full. *)
Lemma FillAtClose_spec order bar :
  let price := Value bar (o_Asset order) MetricClose in
  match FillAtClose order bar with
  | Ok r => is_nan price = false ∧ (price =? 0) = false ∧
            r = mkFillResult price false (o_Qty order)
  | Err _ => is_nan price = true ∨ (price =? 0) = true
  end.
Proof.
  cbn zeta. unfold FillAtClose. destruct (is_nan _) eqn:E1; cbn; [by left|].
  destruct (feq _ _) eqn:E2; [by right|done].
Qed.

(** A spread-aware fill never changes the quantity. *)
Lemma SpreadAware_quantity bps order bar r r' :
  SpreadAware bps order bar r = Ok r' →
  fr_Quantity r' = fr_Quantity r ∧ fr_Partial r' = fr_Partial r.
Proof.
  unfold SpreadAware. destruct (_ && _); [by intros [= <-]|].
  destruct (_ <? _)%Z; [by intros [= <-]|done].
Qed.
End FillLemmas.
