(* ===== verification/Lots.v ===== *)
(** * Lots: tax lots and lot selection

    [portfolio/lot_selection.go] and the lot-walking loops of
    [portfolio/account.go]: the order in which a method consumes lots, the
    matching of a closing quantity against that order, and the removal of the
    matched shares.  Quantities and prices are generic in the number type; the
    conservation laws are proved in exact arithmetic. *)
From Stdlib Require Import ZArith Qcanon Sorted Lia.
From stdpp Require Import base list strings.
From S2P Require Import Prelude Num GoTime.

(** Selection methods, a Go [int]: any other value behaves as FIFO. *)
Inductive LotSelection : Type := LotFIFO | LotLIFO | LotHighestCost | LotSpecificID.
#[export] Instance LotSelection_eq_dec : EqDecision LotSelection.
Proof. solve_decision. Defined.

(** The conversion [LotSelection(order.LotSelection)]. *)
Definition lot_selection_of_int (n : Z) : LotSelection :=
  match n with
  | 1%Z => LotLIFO
  | 2%Z => LotHighestCost
  | 3%Z => LotSpecificID
  | _ => LotFIFO
  end.

Record TaxLot (F : Type) : Type := mkLot {
  l_ID : string;
  l_Date : Time;
  l_Qty : F;
  l_Price : F;
}.
Arguments mkLot {F}.
Arguments l_ID {F}.
Arguments l_Date {F}.
Arguments l_Qty {F}.
Arguments l_Price {F}.

Section Lots.
Context {F : Type} `{Num F}.
Local Open Scope num_scope.
Implicit Types (lot : TaxLot F) (lots : list (TaxLot F)) (remaining qty : F).

Definition lot_set_qty (q : F) lot : TaxLot F :=
  mkLot (l_ID lot) (l_Date lot) q (l_Price lot).
Definition lot_set_price (p : F) lot : TaxLot F :=
  mkLot (l_ID lot) (l_Date lot) (l_Qty lot) p.

(** [shortQty += lot.Qty] over a lot list. *)
Definition lots_qty lots : F := fsum (l_Qty <$> lots).

Definition sortLotsByDateAsc lots : list (TaxLot F) :=
  stable_sort (λ i j, Before (l_Date i) (l_Date j)) lots.
Definition sortLotsByPriceDesc lots : list (TaxLot F) :=
  stable_sort (λ i j, l_Price i >? l_Price j) lots.

Definition lotsInConsumptionOrder lots (method : LotSelection) : list (TaxLot F) :=
  match method with
  | LotLIFO => reverse lots
  | LotHighestCost => sortLotsByPriceDesc lots
  | _ => lots
  end.

(** The matching loop shared by [computeConsumedLotInfo],
    [avgShortEntryPrice] and the trade-detail loops of [Record]: each lot in
    turn gives [min(lot.Qty, remaining)], while some quantity remains. *)
Fixpoint match_lots lots remaining : list (TaxLot F * F) :=
  match lots with
  | [] => []
  | lot :: rest =>
      if remaining >? 0 then
        let matched := cap (l_Qty lot) remaining in
        (lot, matched) :: match_lots rest (remaining - matched)
      else []
  end.

(** The consuming loop of [consumeLots]: a lot no larger than the remainder
    is removed whole, a larger one is reduced. *)
Fixpoint consume_front lots remaining : list (TaxLot F) :=
  match lots with
  | [] => []
  | lot :: rest =>
      if remaining >? 0 then
        if l_Qty lot <=? remaining then consume_front rest (remaining - l_Qty lot)
        else lot_set_qty (l_Qty lot - remaining) lot :: rest
      else lots
  end.

(** [consumeLots] and its mirror [consumeShortLots], on the lots of one
    asset. *)
Definition consume_lots lots qty (method : LotSelection) : list (TaxLot F) :=
  match method with
  | LotLIFO => reverse (consume_front (reverse lots) qty)
  | LotHighestCost => sortLotsByDateAsc (consume_front (sortLotsByPriceDesc lots) qty)
  | _ => consume_front lots qty
  end.

(** *** Averages over the lots that would be consumed *)
Record consumedLotInfo : Type := mkConsumed { avgCostBasis : F; latestBuyDate : Time }.

Definition total_cost (ms : list (TaxLot F * F)) : F :=
  fsum ((λ m, m.2 * l_Price m.1) <$> ms).
Definition total_qty (ms : list (TaxLot F * F)) : F := fsum ms.*2.

(** [if latest.IsZero() || lot.Date.After(latest) { latest = lot.Date }] *)
Definition latest_date (ms : list (TaxLot F * F)) : Time :=
  fold_left (λ latest m,
    if IsZero latest || After (l_Date m.1) latest then l_Date m.1 else latest)
    ms zero_time.

Definition computeConsumedLotInfo lots qty (method : LotSelection) : consumedLotInfo :=
  let none := mkConsumed 0 zero_time in
  if (length lots =? 0)%nat || (qty =? 0) then none
  else
    let ms := match_lots (lotsInConsumptionOrder lots method) qty in
    if total_qty ms =? 0 then none
    else mkConsumed (total_cost ms / total_qty ms) (latest_date ms).

Definition avgShortEntryPrice lots qty (method : LotSelection) : F :=
  let ms := match_lots (lotsInConsumptionOrder lots method) qty in
  if total_qty ms =? 0 then 0 else total_cost ms / total_qty ms.

(** *** Editing one lot, found by its ID *)
Fixpoint adjust_basis lots (lotID : string) (adj : F) : list (TaxLot F) :=
  match lots with
  | [] => []
  | lot :: rest =>
      if decide (l_ID lot = lotID) then lot_set_price (l_Price lot + adj) lot :: rest
      else lot :: adjust_basis rest lotID adj
  end.

Definition lot_exists lots (lotID : string) : bool :=
  existsb (λ lot, bool_decide (l_ID lot = lotID)) lots.

Definition split_id (lotID : string) : string := (lotID +:+ "-split")%string.

(** The first lot with the ID becomes a head of [headQty] shares followed by
    a tail with the rest; [None] when no lot has the ID. *)
Fixpoint split_lots lots (lotID : string) (headQty : F) : option (list (TaxLot F)) :=
  match lots with
  | [] => None
  | lot :: rest =>
      if decide (l_ID lot = lotID) then
        Some (lot_set_qty headQty lot ::
              mkLot (split_id (l_ID lot)) (l_Date lot) (l_Qty lot - headQty) (l_Price lot) :: rest)
      else cons lot <$> split_lots rest lotID headQty
  end.

(** [splitLot]: the new lots with the IDs of head and tail. *)
Definition splitLot lots (lotID : string) (headQty : F)
  : list (TaxLot F) * string * string :=
  match split_lots lots lotID headQty with
  | Some lots' => (lots', lotID, split_id lotID)
  | None => (lots, lotID, EmptyString)
  end.

(** [ApplySplit] on one lot. *)
Definition split_adjust_lot (factor : F) lot : TaxLot F :=
  mkLot (l_ID lot) (l_Date lot) (l_Qty lot * factor) (l_Price lot / factor).
End Lots.
Arguments consumedLotInfo : clear implicits.

(** ** Order of consumption *)
Section OrderFacts.
Context {F : Type} `{NumOrd F}.

Lemma lotsInConsumptionOrder_perm (lots : list (TaxLot F)) method :
  lotsInConsumptionOrder lots method ≡ₚ lots.
Proof.
  destruct method; cbn; try done.
  - apply reverse_Permutation.
  - apply stable_sort_perm.
Qed.

Lemma sortLotsByDateAsc_sorted (lots : list (TaxLot F)) :
  StronglySorted (λ i j, Before (l_Date j) (l_Date i) = false) (sortLotsByDateAsc lots).
Proof.
  apply stable_sort_sorted.
  - intros x y. unfold Before. lia.
  - intros x y z. unfold Before. lia.
Qed.

(** FIFO keeps a suffix of the lots, but for the reduced first one. *)
Lemma consume_front_suffix (lots : list (TaxLot F)) remaining :
  ∃ gone rest, lots = gone ++ rest ∧
    (consume_front lots remaining = rest ∨
     ∃ lot q, head rest = Some lot ∧
       consume_front lots remaining = lot_set_qty q lot :: tail rest).
Proof.
  revert remaining. induction lots as [|lot lots IH]; intros remaining; cbn.
  - exists [], []. auto.
  - case_if; [|exists [], (lot :: lots); auto].
    case_if.
    + destruct (IH (fsub remaining (l_Qty lot))) as (gone & rest & -> & Hc).
      exists (lot :: gone), rest. auto.
    + exists [], (lot :: lots). split; [done|]. right. eauto.
Qed.
End OrderFacts.

(** ** Conservation in exact arithmetic

    The lots of an exact ledger hold finite numbers: [exact_lot] gives a lot
    from two rationals.  Shares and cost basis are sums over a lot list. *)
Definition finite (x : xq) : Prop := ∃ q, x = Fin q.
Definition val (x : xq) : Qc := match x with Fin q => q | _ => 0%Qc end.

Lemma finite_val (x : xq) : finite x → x = Fin (val x).
Proof. by intros [q ->]. Qed.
Lemma finite_Fin (q : Qc) : finite (Fin q).
Proof. by exists q. Qed.
Lemma finite_of_Z (z : Z) : finite (of_Z z).
Proof. apply finite_Fin. Qed.
Lemma finite_add (x y : xq) : finite x → finite y → finite (fadd x y).
Proof. intros [a ->] [b ->]. apply finite_Fin. Qed.
Lemma finite_sub (x y : xq) : finite x → finite y → finite (fsub x y).
Proof. intros [a ->] [b ->]. apply finite_Fin. Qed.
Lemma finite_mul (x y : xq) : finite x → finite y → finite (fmul x y).
Proof. intros [a ->] [b ->]. apply finite_Fin. Qed.
Lemma finite_neg (x : xq) : finite x → finite (fneg x).
Proof. intros [a ->]. apply finite_Fin. Qed.
Lemma finite_cap (x y : xq) : finite x → finite y → finite (cap x y).
Proof. intros. unfold cap. by case_if. Qed.

Create HintDb exact.
#[export] Hint Resolve finite_Fin finite_of_Z finite_add finite_sub finite_mul
  finite_neg finite_cap : exact.

Record exact_lot (lot : TaxLot xq) : Prop := {
  el_qty : finite (l_Qty lot);
  el_price : finite (l_Price lot);
}.
Definition exact_lots (lots : list (TaxLot xq)) : Prop := Forall exact_lot lots.

Definition lot_shares (lot : TaxLot xq) : Qc := val (l_Qty lot).
Definition lot_basis (lot : TaxLot xq) : Qc := (val (l_Qty lot) * val (l_Price lot))%Qc.
Definition shares (lots : list (TaxLot xq)) : Qc := qsum (lot_shares <$> lots).
Definition basis (lots : list (TaxLot xq)) : Qc := qsum (lot_basis <$> lots).

(** The matched pieces of a walk. *)
Definition matched_shares (ms : list (TaxLot xq * xq)) : Qc := qsum ((λ m, val m.2) <$> ms).
Definition matched_basis (ms : list (TaxLot xq * xq)) : Qc :=
  qsum ((λ m, val m.2 * val (l_Price m.1))%Qc <$> ms).

#[global] Arguments shares : simpl never.
#[global] Arguments basis : simpl never.

Lemma shares_nil : shares [] = 0%Qc.
Proof. reflexivity. Qed.
Lemma shares_cons lot lots : shares (lot :: lots) = (lot_shares lot + shares lots)%Qc.
Proof. reflexivity. Qed.
Lemma basis_cons lot lots : basis (lot :: lots) = (lot_basis lot + basis lots)%Qc.
Proof. reflexivity. Qed.
Lemma shares_app l1 l2 : shares (l1 ++ l2) = (shares l1 + shares l2)%Qc.
Proof. unfold shares. by rewrite fmap_app, qsum_app. Qed.
Lemma basis_app l1 l2 : basis (l1 ++ l2) = (basis l1 + basis l2)%Qc.
Proof. unfold basis. by rewrite fmap_app, qsum_app. Qed.
Lemma shares_perm l1 l2 : l1 ≡ₚ l2 → shares l1 = shares l2.
Proof. intros Hp. apply qsum_perm. by rewrite Hp. Qed.
Lemma basis_perm l1 l2 : l1 ≡ₚ l2 → basis l1 = basis l2.
Proof. intros Hp. apply qsum_perm. by rewrite Hp. Qed.

Lemma exact_lots_fsum (f : TaxLot xq → xq) lots :
  Forall (λ lot, finite (f lot)) lots →
  fsum (f <$> lots) = Fin (qsum ((λ lot, val (f lot)) <$> lots)).
Proof.
  intros Hf. rewrite <-fsum_exact. f_equal.
  rewrite <-list_fmap_compose. apply list_fmap_ext. intros i lot Hi.
  apply finite_val. rewrite Forall_lookup in Hf. eauto.
Qed.

Lemma lots_qty_exact lots : exact_lots lots → lots_qty lots = Fin (shares lots).
Proof.
  intros Hl. apply exact_lots_fsum. eapply Forall_impl; [exact Hl|]. by intros ? [].
Qed.

(** One step of the two loops, on a finite lot. *)
Lemma match_lots_exact lot lots (q r : Qc) :
  l_Qty lot = Fin q →
  match_lots (lot :: lots) (Fin r) =
  if qc_ltb 0 r then
    let m := if qc_ltb r q then r else q in
    (lot, Fin m) :: match_lots lots (Fin (r - m))
  else [].
Proof.
  intros Hq. cbn [match_lots]. rewrite Hq. unfold cap. xcbn.
  by destruct (qc_ltb 0 r), (qc_ltb r q).
Qed.

Lemma consume_front_exact lot lots (q r : Qc) :
  l_Qty lot = Fin q →
  consume_front (lot :: lots) (Fin r) =
  if qc_ltb 0 r then
    if qc_ltb r q then lot_set_qty (Fin (q - r)) lot :: lots
    else consume_front lots (Fin (r - q))
  else lot :: lots.
Proof.
  intros Hq. cbn [consume_front]. rewrite Hq. xcbn.
  destruct (qc_ltb 0 r); [|done].
  destruct (qc_ltb r q) eqn:Hlt, (qc_leb q r) eqn:Hle; try done; qc_bools;
    exfalso; revert Hlt Hle; qclra.
Qed.

Lemma match_lots_done lots (r : Qc) : (r <= 0)%Qc → match_lots lots (Fin r) = [].
Proof.
  intros Hr. destruct lots; [done|]. xcbn.
  replace (qc_ltb 0 r) with false; [done|]. symmetry. by apply qc_ltb_false.
Qed.

Lemma consume_front_done lots (r : Qc) : (r <= 0)%Qc → consume_front lots (Fin r) = lots.
Proof.
  intros Hr. destruct lots; [done|]. xcbn.
  replace (qc_ltb 0 r) with false; [done|]. symmetry. by apply qc_ltb_false.
Qed.

(** Removing [r] shares from the front removes exactly the matched pieces:
    their shares and their cost basis. *)
Lemma consume_front_conserves lots (r : Qc) :
  exact_lots lots →
  let ms := match_lots lots (Fin r) in
  let rest := consume_front lots (Fin r) in
  exact_lots rest ∧ Forall (λ m, finite m.2 ∧ finite (l_Price m.1)) ms ∧
  shares lots = (matched_shares ms + shares rest)%Qc ∧
  basis lots = (matched_basis ms + basis rest)%Qc.
Proof.
  intros Hl. cbn zeta. revert r. induction Hl as [|lot lots Hlot Hl IH]; intros r.
  { split; [constructor|]. split; [constructor|]. split; reflexivity. }
  pose proof Hlot as [[q Hq] [p Hp]].
  rewrite (match_lots_exact _ _ q), (consume_front_exact _ _ q) by done. cbn zeta.
  destruct (qc_ltb 0 r) eqn:Hr.
  2:{ split; [by constructor|]. split; [constructor|].
      unfold matched_shares, matched_basis. cbn. split; qclra. }
  destruct (qc_ltb r q) eqn:Hlt; qc_bools.
  - rewrite match_lots_done by qclra.
    split; [constructor; [split; cbn; rewrite ?Hp; eauto with exact|done]|].
    split; [by repeat constructor; cbn; rewrite ?Hp; eauto with exact|].
    rewrite !shares_cons, !basis_cons. unfold lot_shares, lot_basis, matched_shares, matched_basis.
    cbn. rewrite Hq, Hp. cbn. split; ring.
  - destruct (IH (r - q)%Qc) as (He & Hm & Hs & Hb).
    split; [done|]. split; [by constructor; cbn; rewrite ?Hp; eauto with exact|].
    rewrite shares_cons, basis_cons, Hs, Hb.
    unfold lot_shares, lot_basis, matched_shares, matched_basis. cbn. rewrite Hq, Hp. cbn.
    split; qclra.
Qed.

(** When the lots hold at least [r] shares, exactly [r] are matched. *)
Lemma match_lots_all lots (r : Qc) :
  exact_lots lots → (0 <= r <= shares lots)%Qc →
  matched_shares (match_lots lots (Fin r)) = r.
Proof.
  intros Hl. revert r. induction Hl as [|lot lots [[q Hq] _] Hl IH]; intros r [H0 Hr].
  { unfold shares, matched_shares in *. cbn in *. qclra. }
  rewrite shares_cons in Hr. unfold lot_shares in Hr. rewrite Hq in Hr. cbn in Hr.
  rewrite (match_lots_exact _ _ q) by done. cbn zeta.
  destruct (qc_ltb 0 r) eqn:E0; qc_bools.
  2:{ unfold matched_shares. cbn. qclra. }
  unfold matched_shares. cbn [fmap list_fmap qsum snd val].
  change (qsum _) with (matched_shares (match_lots lots (Fin (r - if qc_ltb r q then r else q)))).
  destruct (qc_ltb r q) eqn:Hlt; qc_bools.
  - rewrite match_lots_done by qclra. unfold matched_shares. cbn. qclra.
  - rewrite IH by qclra. qclra.
Qed.

Lemma exact_lots_perm l1 l2 : l1 ≡ₚ l2 → exact_lots l1 → exact_lots l2.
Proof. unfold exact_lots. by intros ->. Qed.

(** The lots a method leaves are those [consume_front] leaves of the
    consumption order, up to order. *)
Lemma consume_lots_perm (lots : list (TaxLot xq)) qty method :
  consume_lots lots qty method ≡ₚ
  consume_front (lotsInConsumptionOrder lots method) qty.
Proof.
  destruct method; cbn; try done.
  - apply reverse_Permutation.
  - apply stable_sort_perm.
Qed.

Lemma consume_lots_conserves lots (q : Qc) method :
  exact_lots lots → (0 <= q <= shares lots)%Qc →
  let ms := match_lots (lotsInConsumptionOrder lots method) (Fin q) in
  let rest := consume_lots lots (Fin q) method in
  exact_lots rest ∧ matched_shares ms = q ∧
  shares rest = (shares lots - q)%Qc ∧
  basis rest = (basis lots - matched_basis ms)%Qc.
Proof.
  intros Hl Hq. cbn zeta.
  pose proof (lotsInConsumptionOrder_perm lots method) as Hp.
  pose proof (exact_lots_perm _ _ (symmetry Hp) Hl) as Hl'.
  destruct (consume_front_conserves _ q Hl') as (He & _ & Hs & Hb).
  pose proof (consume_lots_perm lots (Fin q) method) as Hc.
  rewrite (shares_perm _ _ Hc), (basis_perm _ _ Hc).
  rewrite (shares_perm _ _ Hp) in Hs. rewrite (basis_perm _ _ Hp) in Hb.
  assert (Hm : matched_shares (match_lots (lotsInConsumptionOrder lots method) (Fin q)) = q).
  { apply match_lots_all; [done|]. by rewrite (shares_perm _ _ Hp). }
  split; [by eapply exact_lots_perm; [symmetry; exact Hc|]|].
  split; [done|]. rewrite Hs, Hb, Hm. split; ring.
Qed.

Lemma total_qty_exact ms :
  Forall (λ m : TaxLot xq * xq, finite m.2 ∧ finite (l_Price m.1)) ms →
  total_qty ms = Fin (matched_shares ms) ∧ total_cost ms = Fin (matched_basis ms).
Proof.
  intros Hm. unfold total_qty, total_cost, matched_shares, matched_basis.
  rewrite <-!fsum_exact, <-!list_fmap_compose. split; f_equal; apply list_fmap_ext;
    intros i m Hi; rewrite Forall_lookup in Hm; destruct (Hm _ _ Hi) as [H2 Hp]; cbn.
  - by apply finite_val.
  - by rewrite (finite_val _ H2), (finite_val _ Hp).
Qed.

(** The average of the lots about to be consumed: cost basis per share. *)
Lemma consumed_average lots (q : Qc) method :
  exact_lots lots → (0 < q)%Qc → (q <= shares lots)%Qc →
  let avg := (matched_basis (match_lots (lotsInConsumptionOrder lots method) (Fin q)) / q)%Qc in
  avgCostBasis (computeConsumedLotInfo lots (Fin q) method) = Fin avg ∧
  avgShortEntryPrice lots (Fin q) method = Fin avg.
Proof.
  intros Hl H0 Hq. cbn zeta.
  set (ms := match_lots (lotsInConsumptionOrder lots method) (Fin q)).
  pose proof (exact_lots_perm _ _ (symmetry (lotsInConsumptionOrder_perm lots method)) Hl) as Hl'.
  destruct (consume_front_conserves _ q Hl') as (_ & Hms & _ & _).
  destruct (total_qty_exact ms Hms) as [Htq Htc].
  assert (Hm : matched_shares ms = q).
  { apply match_lots_all; [done|].
    rewrite (shares_perm _ _ (lotsInConsumptionOrder_perm lots method)). split; qclra. }
  assert (Hne : qc_eqb q 0 = false) by (apply qc_eqb_false; qclra).
  assert (Hlen : (length lots =? 0)%nat = false).
  { destruct lots; [|done]. unfold shares in Hq. cbn in Hq. exfalso. revert H0 Hq. qclra. }
  unfold computeConsumedLotInfo, avgShortEntryPrice. fold ms. rewrite Hlen, Htq, Htc, Hm.
  xcbn. by repeat (rewrite Hne; cbn).
Qed.

(** ** Editing lots keeps the shares *)
Lemma adjust_basis_shares lots lotID (adj : Qc) :
  exact_lots lots →
  exact_lots (adjust_basis lots lotID (Fin adj)) ∧
  shares (adjust_basis lots lotID (Fin adj)) = shares lots.
Proof.
  induction 1 as [|lot lots Hlot Hl [IHe IHs]]; cbn; [split; constructor|].
  destruct (decide _); rewrite !shares_cons.
  - split; [|done]. destruct Hlot as [Hq Hp]. by repeat constructor; cbn; eauto with exact.
  - split; [by constructor|]. by rewrite IHs.
Qed.

Lemma split_lots_conserves lots lotID (h : Qc) lots' :
  exact_lots lots → split_lots lots lotID (Fin h) = Some lots' →
  exact_lots lots' ∧ shares lots' = shares lots ∧ basis lots' = basis lots.
Proof.
  intros Hl. revert lots'. induction Hl as [|lot lots Hlot Hl IH]; intros lots'; cbn; [done|].
  destruct (decide _).
  - intros [= <-]. rewrite !shares_cons, !basis_cons.
    destruct Hlot as [[q Hq] [p Hp]]. unfold lot_shares, lot_basis. cbn. rewrite Hq, Hp. cbn.
    split; [|split; ring].
    repeat constructor; cbn; rewrite ?Hp; eauto with exact.
  - rewrite fmap_Some. intros (l & Hs & ->). destruct (IH _ Hs) as (He & Hsh & Hb).
    rewrite !shares_cons, !basis_cons, Hsh, Hb. split; [by constructor|done].
Qed.

Lemma splitLot_conserves lots lotID (h : Qc) :
  exact_lots lots →
  let lots' := (splitLot lots lotID (Fin h)).1.1 in
  exact_lots lots' ∧ shares lots' = shares lots ∧ basis lots' = basis lots.
Proof.
  intros Hl. unfold splitLot. destruct (split_lots _ _ _) eqn:E; [|done].
  by apply (split_lots_conserves _ _ _ _ Hl E).
Qed.
