(* ===== verification/Ledger.v ===== *)
(** * Ledger: recording transactions ([portfolio/account.go])

    The [Ledger] is the part of [Account] that [Record], [SyncTransactions] and
    [ApplySplit] read and write: cash, holdings, the transaction log, long and
    short tax lots, wash-sale tracking, excursions and completed trades.  Each
    phase of [Record] is a definition; the number type is generic. *)
From Stdlib Require Import ZArith Qcanon Lia.
From stdpp Require Import base list gmap strings pretty.
From S2P Require Import Prelude Num GoTime Asset Broker Lots.

(** ** Data *)
Record Transaction (F : Type) : Type := mkTxn {
  t_ID : string;
  t_Date : Time;
  t_Asset : Asset;
  t_Type : TransactionType;
  t_Qty : F;
  t_Price : F;
  t_Amount : F;
  t_Qualified : bool;
  t_Justification : string;
  t_LotSelection : LotSelection;
  t_BatchID : Z;
}.
Arguments mkTxn {F}.
Arguments t_ID {F}.
Arguments t_Date {F}.
Arguments t_Asset {F}.
Arguments t_Type {F}.
Arguments t_Qty {F}.
Arguments t_Price {F}.
Arguments t_Amount {F}.
Arguments t_Qualified {F}.
Arguments t_Justification {F}.
Arguments t_LotSelection {F}.
Arguments t_BatchID {F}.

(** A disallowed loss: [portfolio/wash_sale.go]. *)
Record WashSaleRecord (F : Type) : Type := mkWash {
  w_Asset : Asset;
  w_SellDate : Time;
  w_RebuyDate : Time;
  w_DisallowedLoss : F;
  w_AdjustedLotID : string;
}.
Arguments mkWash {F}.
Arguments w_Asset {F}.
Arguments w_SellDate {F}.
Arguments w_RebuyDate {F}.
Arguments w_DisallowedLoss {F}.
Arguments w_AdjustedLotID {F}.
Record recentLossSale (F : Type) : Type := mkLossSale {
  ls_date : Time;
  ls_lossPerShare : F;
  ls_qty : F;
}.
Arguments mkLossSale {F}.
Arguments ls_date {F}.
Arguments ls_lossPerShare {F}.
Arguments ls_qty {F}.
Record recentBuy (F : Type) : Type := mkBuy {
  rb_date : Time;
  rb_lotID : string;
  rb_qty : F;
}.
Arguments mkBuy {F}.
Arguments rb_date {F}.
Arguments rb_lotID {F}.
Arguments rb_qty {F}.
Definition washSaleWindowDays : Z := 30.

Record ExcursionRecord (F : Type) : Type := mkExcursion {
  e_Entry : F;
  e_High : F;
  e_Low : F;
}.
Arguments mkExcursion {F}.
Arguments e_Entry {F}.
Arguments e_High {F}.
Arguments e_Low {F}.

Inductive TradeDirection : Type := TradeLong | TradeShort.

Record TradeDetail (F : Type) : Type := mkTrade {
  td_Asset : Asset;
  td_EntryDate : Time;
  td_ExitDate : Time;
  td_EntryPrice : F;
  td_ExitPrice : F;
  td_Qty : F;
  td_PnL : F;
  td_HoldDays : F;
  td_MFE : F;
  td_MAE : F;
  td_Direction : TradeDirection;
}.
Arguments mkTrade {F}.
Arguments td_Asset {F}.
Arguments td_EntryDate {F}.
Arguments td_ExitDate {F}.
Arguments td_EntryPrice {F}.
Arguments td_ExitPrice {F}.
Arguments td_Qty {F}.
Arguments td_PnL {F}.
Arguments td_HoldDays {F}.
Arguments td_MFE {F}.
Arguments td_MAE {F}.
Arguments td_Direction {F}.

Record Ledger (F : Type) : Type := mkLedger {
  cash : F;
  holdings : gmap Asset F;
  transactions : list (Transaction F);
  taxLots : gmap Asset (list (TaxLot F));
  shortLots : gmap Asset (list (TaxLot F));
  recentLossSales : gmap Asset (list (recentLossSale F));
  recentBuys : gmap Asset (list (recentBuy F));
  washSales : list (WashSaleRecord F);
  lotSelection : LotSelection;
  excursions : gmap Asset (ExcursionRecord F);
  tradeDetails : list (TradeDetail F);
  seenTransactions : gset string;
}.
Arguments mkLedger {F}.
Arguments cash {F}.
Arguments holdings {F}.
Arguments transactions {F}.
Arguments taxLots {F}.
Arguments shortLots {F}.
Arguments recentLossSales {F}.
Arguments recentBuys {F}.
Arguments washSales {F}.
Arguments lotSelection {F}.
Arguments excursions {F}.
Arguments tradeDetails {F}.
Arguments seenTransactions {F}.

(** The text of [%.4g], used in the justification of a split only. *)
Class FmtFloat (F : Type) : Type := { fmt_4g : F → string }.

Section Ledger.
Context {F : Type} `{Num F} `{TZDB} `{FmtFloat F}.
Local Open Scope num_scope.
Implicit Types (L : Ledger F) (ast : Asset) (txn : Transaction F).

Definition with_cash (x : F) (L : Ledger F) : Ledger F :=
  mkLedger x (holdings L) (transactions L) (taxLots L) (shortLots L) (recentLossSales
    L) (recentBuys L) (washSales L) (lotSelection L) (excursions L) (tradeDetails L)
    (seenTransactions L).
Definition with_holdings (x : gmap Asset F) (L : Ledger F) : Ledger F :=
  mkLedger (cash L) x (transactions L) (taxLots L) (shortLots L) (recentLossSales L)
    (recentBuys L) (washSales L) (lotSelection L) (excursions L) (tradeDetails L)
    (seenTransactions L).
Definition with_transactions (x : list (Transaction F)) (L : Ledger F) : Ledger F :=
  mkLedger (cash L) (holdings L) x (taxLots L) (shortLots L) (recentLossSales L)
    (recentBuys L) (washSales L) (lotSelection L) (excursions L) (tradeDetails L)
    (seenTransactions L).
Definition with_taxLots (x : gmap Asset (list (TaxLot F))) (L : Ledger F) : Ledger F :=
  mkLedger (cash L) (holdings L) (transactions L) x (shortLots L) (recentLossSales L)
    (recentBuys L) (washSales L) (lotSelection L) (excursions L) (tradeDetails L)
    (seenTransactions L).
Definition with_shortLots (x : gmap Asset (list (TaxLot F))) (L : Ledger F) : Ledger F :=
  mkLedger (cash L) (holdings L) (transactions L) (taxLots L) x (recentLossSales L)
    (recentBuys L) (washSales L) (lotSelection L) (excursions L) (tradeDetails L)
    (seenTransactions L).
Definition with_recentLossSales (x : gmap Asset (list (recentLossSale F))) (L : Ledger F) : Ledger F :=
  mkLedger (cash L) (holdings L) (transactions L) (taxLots L) (shortLots L) x
    (recentBuys L) (washSales L) (lotSelection L) (excursions L) (tradeDetails L)
    (seenTransactions L).
Definition with_recentBuys (x : gmap Asset (list (recentBuy F))) (L : Ledger F) : Ledger F :=
  mkLedger (cash L) (holdings L) (transactions L) (taxLots L) (shortLots L)
    (recentLossSales L) x (washSales L) (lotSelection L) (excursions L) (tradeDetails
    L) (seenTransactions L).
Definition with_washSales (x : list (WashSaleRecord F)) (L : Ledger F) : Ledger F :=
  mkLedger (cash L) (holdings L) (transactions L) (taxLots L) (shortLots L)
    (recentLossSales L) (recentBuys L) x (lotSelection L) (excursions L) (tradeDetails
    L) (seenTransactions L).
Definition with_lotSelection (x : LotSelection) (L : Ledger F) : Ledger F :=
  mkLedger (cash L) (holdings L) (transactions L) (taxLots L) (shortLots L)
    (recentLossSales L) (recentBuys L) (washSales L) x (excursions L) (tradeDetails L)
    (seenTransactions L).
Definition with_excursions (x : gmap Asset (ExcursionRecord F)) (L : Ledger F) : Ledger F :=
  mkLedger (cash L) (holdings L) (transactions L) (taxLots L) (shortLots L)
    (recentLossSales L) (recentBuys L) (washSales L) (lotSelection L) x (tradeDetails
    L) (seenTransactions L).
Definition with_tradeDetails (x : list (TradeDetail F)) (L : Ledger F) : Ledger F :=
  mkLedger (cash L) (holdings L) (transactions L) (taxLots L) (shortLots L)
    (recentLossSales L) (recentBuys L) (washSales L) (lotSelection L) (excursions L) x
    (seenTransactions L).
Definition with_seenTransactions (x : gset string) (L : Ledger F) : Ledger F :=
  mkLedger (cash L) (holdings L) (transactions L) (taxLots L) (shortLots L)
    (recentLossSales L) (recentBuys L) (washSales L) (lotSelection L) (excursions L)
    (tradeDetails L) x.

(** The ledger of a new account. *)
Definition empty_ledger : Ledger F :=
  mkLedger 0 ∅ [] ∅ ∅ ∅ ∅ [] LotFIFO ∅ [] ∅.

Definition position L ast : F := lookup_d 0 (holdings L) ast.
Definition long_lots L ast : list (TaxLot F) := lookup_d [] (taxLots L) ast.
Definition short_lots L ast : list (TaxLot F) := lookup_d [] (shortLots L) ast.
Definition loss_sales L ast : list (recentLossSale F) := lookup_d [] (recentLossSales L) ast.
Definition recent_buys L ast : list (recentBuy F) := lookup_d [] (recentBuys L) ast.

(** [for x { if keep(x) ... }; if len == 0 { delete } else { store }] *)
Definition store_pruned {A} (m : gmap Asset (list A)) ast (l : list A) : gmap Asset (list A) :=
  match l with [] => delete ast m | _ => <[ast := l]> m end.

(** ** Wash sales *)
Definition not_before (cutoff d : Time) : bool := After d cutoff || Equal d cutoff.

(** The two range loops: each entry is rewritten or deleted on its own, so
    the order of the visit does not matter. *)
Definition prune_map {A} (date : A → Time) (cutoff : Time) (m : gmap Asset (list A)) :
    gmap Asset (list A) :=
  foldr (λ kv m', store_pruned m' kv.1 (keep (λ x, not_before cutoff (date x)) kv.2))
    m (map_to_list m).

Definition pruneWashSaleTracking (asOf : Time) L : Ledger F :=
  let cutoff := AddDate asOf 0 0 (- washSaleWindowDays) in
  with_recentBuys (prune_map rb_date cutoff (recentBuys L))
    (with_recentLossSales (prune_map ls_date cutoff (recentLossSales L)) L).

(** [daysDiff > 30 || daysDiff < 0] *)
Definition outside_window (later earlier : Time) : bool :=
  let daysDiff := Hours (Sub later earlier) / of_Z 24 in
  (daysDiff >? of_Z washSaleWindowDays) || (daysDiff <? 0).

Definition ls_set_qty (q : F) (s : recentLossSale F) : recentLossSale F :=
  mkLossSale (ls_date s) (ls_lossPerShare s) q.
Definition rb_set (id : string) (q : F) (b : recentBuy F) : recentBuy F :=
  mkBuy (rb_date b) id q.

(** What the wash-sale loops thread: the asset's lots, the sales or buys
    visited so far, the records made, and the quantities. *)
Record BuyWash : Type := mkBuyWash {
  bw_lots : list (TaxLot F);
  bw_lotID : string;
  bw_remaining : F;
  bw_sales : list (recentLossSale F);
  bw_records : list (WashSaleRecord F);
}.

Definition wash_buy_step ast (buyDate : Time) (sale : recentLossSale F) (w : BuyWash) : BuyWash :=
  if outside_window buyDate (ls_date sale) then
    mkBuyWash (bw_lots w) (bw_lotID w) (bw_remaining w) (bw_sales w ++ [sale]) (bw_records w)
  else
    let matchQty := cap (ls_qty sale) (bw_remaining w) in
    let disallowedLoss := matchQty * ls_lossPerShare sale in
    let '(lots, adjustedLotID, lotID) :=
      if matchQty <? bw_remaining w then
        let '(lots, headID, tailID) := splitLot (bw_lots w) (bw_lotID w) matchQty in
        (lots, headID, tailID)
      else (bw_lots w, bw_lotID w, bw_lotID w) in
    mkBuyWash (adjust_basis lots adjustedLotID (ls_lossPerShare sale)) lotID
      (bw_remaining w - matchQty)
      (bw_sales w ++ [ls_set_qty (ls_qty sale - matchQty) sale])
      (bw_records w ++ [mkWash ast (ls_date sale) buyDate disallowedLoss adjustedLotID]).

Fixpoint wash_buy_loop ast (buyDate : Time) (sales : list (recentLossSale F)) (w : BuyWash) :
    BuyWash :=
  match sales with
  | [] => w
  | sale :: rest =>
      if bw_remaining w >? 0 then wash_buy_loop ast buyDate rest (wash_buy_step ast buyDate sale w)
      else mkBuyWash (bw_lots w) (bw_lotID w) (bw_remaining w) (bw_sales w ++ sales) (bw_records w)
  end.

(** The ledger after the check, and the lot and quantity that absorbed no
    loss. *)
Definition checkWashSaleOnBuy ast (buyDate : Time) (buyQty : F) (lotID : string) L :
    Ledger F * string * F :=
  match loss_sales L ast with
  | [] => (L, lotID, buyQty)
  | sales =>
      let w := wash_buy_loop ast buyDate sales (mkBuyWash (long_lots L ast) lotID buyQty [] []) in
      let L := with_taxLots (alter (λ _, bw_lots w) ast (taxLots L)) L in
      let L := with_washSales (washSales L ++ bw_records w) L in
      let pruned := keep (λ s, ls_qty s >? 0) (bw_sales w) in
      (with_recentLossSales (store_pruned (recentLossSales L) ast pruned) L,
       bw_lotID w, bw_remaining w)
  end.

Record SellWash : Type := mkSellWash {
  sw_lots : list (TaxLot F);
  sw_remaining : F;
  sw_disallowed : F;
  sw_buys : list (recentBuy F);
  sw_records : list (WashSaleRecord F);
}.

Definition wash_sell_step ast (sellDate : Time) (lossPerShare : F) (consumedLotDate : Time)
    (buy : recentBuy F) (w : SellWash) : SellWash :=
  if outside_window sellDate (rb_date buy) || negb (After (rb_date buy) consumedLotDate)
     || negb (lot_exists (sw_lots w) (rb_lotID buy)) then
    mkSellWash (sw_lots w) (sw_remaining w) (sw_disallowed w) (sw_buys w ++ [buy]) (sw_records w)
  else
    let matchQty := cap (rb_qty buy) (sw_remaining w) in
    let disallowedLoss := matchQty * lossPerShare in
    let '(lots, adjustedLotID, lotID) :=
      if matchQty <? rb_qty buy then
        let '(lots, headID, tailID) := splitLot (sw_lots w) (rb_lotID buy) matchQty in
        (lots, headID, tailID)
      else (sw_lots w, rb_lotID buy, rb_lotID buy) in
    mkSellWash (adjust_basis lots adjustedLotID lossPerShare)
      (sw_remaining w - matchQty) (sw_disallowed w + matchQty)
      (sw_buys w ++ [rb_set lotID (rb_qty buy - matchQty) buy])
      (sw_records w ++ [mkWash ast sellDate (rb_date buy) disallowedLoss adjustedLotID]).

Fixpoint wash_sell_loop ast (sellDate : Time) (lossPerShare : F) (consumedLotDate : Time)
    (buys : list (recentBuy F)) (w : SellWash) : SellWash :=
  match buys with
  | [] => w
  | buy :: rest =>
      if sw_remaining w >? 0 then
        wash_sell_loop ast sellDate lossPerShare consumedLotDate rest
          (wash_sell_step ast sellDate lossPerShare consumedLotDate buy w)
      else mkSellWash (sw_lots w) (sw_remaining w) (sw_disallowed w) (sw_buys w ++ buys)
             (sw_records w)
  end.

Definition checkWashSaleOnSell ast (sellDate : Time) (sellQty lossPerShare : F)
    (consumedLotDate : Time) L : Ledger F * F :=
  match recent_buys L ast with
  | [] => (L, 0)
  | buys =>
      let w := wash_sell_loop ast sellDate lossPerShare consumedLotDate buys
                 (mkSellWash (long_lots L ast) sellQty 0 [] []) in
      let L := with_taxLots (alter (λ _, sw_lots w) ast (taxLots L)) L in
      let L := with_washSales (washSales L ++ sw_records w) L in
      let pruned := keep (λ b, rb_qty b >? 0) (sw_buys w) in
      (with_recentBuys (store_pruned (recentBuys L) ast pruned) L, sw_disallowed w)
  end.

(** ** Record *)
Definition isFiniteTransaction txn : bool :=
  if is_nan (t_Qty txn) || is_inf (t_Qty txn) then false
  else if is_nan (t_Price txn) || is_inf (t_Price txn) then false
  else if is_nan (t_Amount txn) || is_inf (t_Amount txn) then false
  else true.

Definition isDividendQualified L ast (divDate : Time) : bool :=
  match long_lots L ast with
  | [] => false
  | lot :: _ =>
      let holdingDays := Hours (Sub divDate (l_Date lot)) / of_Z 24 in
      holdingDays >? of_Z 60
  end.

Definition set_Qualified (q : bool) txn : Transaction F :=
  mkTxn (t_ID txn) (t_Date txn) (t_Asset txn) (t_Type txn) (t_Qty txn) (t_Price txn)
    (t_Amount txn) q (t_Justification txn) (t_LotSelection txn) (t_BatchID txn).

Definition effective_method L txn : LotSelection :=
  if decide (t_LotSelection txn = LotFIFO ∧ lotSelection L ≠ LotFIFO)
  then lotSelection L else t_LotSelection txn.

Definition hold_days (later earlier : Time) : F := Hours (Sub later earlier) / of_Z 24.

(** The trade-detail loop of both sides: one entry per matched lot. *)
Definition trade_entries (dir : TradeDirection) txn (mfe mae : F)
    (ms : list (TaxLot F * F)) : list (TradeDetail F) :=
  (λ m : TaxLot F * F,
     let '(lot, matched) := m in
     let pnl := match dir with
                | TradeShort => (l_Price lot - t_Price txn) * matched
                | TradeLong => (t_Price txn - l_Price lot) * matched
                end in
     mkTrade (t_Asset txn) (l_Date lot) (t_Date txn) (l_Price lot) (t_Price txn) matched pnl
       (hold_days (t_Date txn) (l_Date lot)) mfe mae dir) <$> ms.

Definition add_trades (dir : TradeDirection) txn (closeQty : F) (method : LotSelection)
    (lots : list (TaxLot F)) L : Ledger F :=
  match excursions L !! t_Asset txn with
  | None => L
  | Some ex =>
      let '(mfe, mae) :=
        match dir with
        | TradeShort => ((e_Entry ex - e_Low ex) / e_Entry ex, (e_Entry ex - e_High ex) / e_Entry ex)
        | TradeLong => ((e_High ex - e_Entry ex) / e_Entry ex, (e_Low ex - e_Entry ex) / e_Entry ex)
        end in
      with_tradeDetails
        (tradeDetails L ++
         trade_entries dir txn mfe mae (match_lots (lotsInConsumptionOrder lots method) closeQty)) L
  end.

Definition open_excursion ast (price : F) L : Ledger F :=
  match excursions L !! ast with
  | Some _ => L
  | None => with_excursions (<[ast := mkExcursion price price price]> (excursions L)) L
  end.

Definition drop_excursion_if_empty (lots : list (TaxLot F)) ast L : Ledger F :=
  match lots with [] => with_excursions (delete ast (excursions L)) L | _ => L end.

(** "Cleanup: remove tracking when fully flat." *)
Definition cleanup_flat ast L : Ledger F :=
  if position L ast =? 0 then
    with_excursions (delete ast (excursions L))
      (with_shortLots (delete ast (shortLots L))
        (with_taxLots (delete ast (taxLots L))
          (with_holdings (delete ast (holdings L)) L)))
  else L.

(** *** Buys: cover short lots, then open a long lot *)
Definition cover_shorts txn (coverQty : F) L : Ledger F :=
  let ast := t_Asset txn in
  let method := effective_method L txn in
  let L := add_trades TradeShort txn coverQty method (short_lots L ast) L in
  let avgShortEntry := avgShortEntryPrice (short_lots L ast) coverQty method in
  let L := with_shortLots (<[ast := consume_lots (short_lots L ast) coverQty method]> (shortLots L)) L in
  let lossPerShare := t_Price txn - avgShortEntry in
  let L := if lossPerShare >? 0 then
             with_recentLossSales
               (<[ast := loss_sales L ast ++ [mkLossSale (t_Date txn) lossPerShare coverQty]]>
                  (recentLossSales L)) L
           else L in
  drop_excursion_if_empty (short_lots L ast) ast L.

Definition lot_id (prefix : string) (d : Time) (n : nat) : string :=
  (prefix +:+ pretty (UnixNano d) +:+ "-" +:+ pretty n)%string.

Definition open_long txn (longQty : F) L : Ledger F :=
  let ast := t_Asset txn in
  let lotID := lot_id "lot-" (t_Date txn) (length (long_lots L ast)) in
  let newLot := mkLot lotID (t_Date txn) longQty (t_Price txn) in
  let L := with_taxLots (<[ast := long_lots L ast ++ [newLot]]> (taxLots L)) L in
  let '(L, remainingLotID, remainingQty) := checkWashSaleOnBuy ast (t_Date txn) longQty lotID L in
  let L := if remainingQty >? 0 then
             with_recentBuys
               (<[ast := recent_buys L ast ++ [mkBuy (t_Date txn) remainingLotID remainingQty]]>
                  (recentBuys L)) L
           else L in
  open_excursion ast (t_Price txn) L.

Definition record_buy txn L : Ledger F :=
  let ast := t_Asset txn in
  let L := with_holdings (<[ast := position L ast + t_Qty txn]> (holdings L)) L in
  let shortQty := lots_qty (short_lots L ast) in
  let coverQty := cap (t_Qty txn) shortQty in
  let L := if coverQty >? 0 then cover_shorts txn coverQty L else L in
  let longQty := t_Qty txn - coverQty in
  let L := if longQty >? 0 then open_long txn longQty L else L in
  cleanup_flat ast L.

(** *** Sells: close long lots, then open a short lot *)
Definition close_longs txn (closeLongQty : F) L : Ledger F :=
  let ast := t_Asset txn in
  let method := effective_method L txn in
  let L := add_trades TradeLong txn closeLongQty method (long_lots L ast) L in
  let consumed := computeConsumedLotInfo (long_lots L ast) closeLongQty method in
  let L := with_taxLots (<[ast := consume_lots (long_lots L ast) closeLongQty method]> (taxLots L)) L in
  let lossPerShare := avgCostBasis consumed - t_Price txn in
  if lossPerShare >? 0 then
    let '(L, disallowedQty) :=
      checkWashSaleOnSell ast (t_Date txn) closeLongQty lossPerShare (latestBuyDate consumed) L in
    let remainingLossQty := closeLongQty - disallowedQty in
    if remainingLossQty >? 0 then
      with_recentLossSales
        (<[ast := loss_sales L ast ++ [mkLossSale (t_Date txn) lossPerShare remainingLossQty]]>
           (recentLossSales L)) L
    else L
  else L.

Definition open_short txn (shortQty : F) L : Ledger F :=
  let ast := t_Asset txn in
  let lotID := lot_id "short-" (t_Date txn) (length (short_lots L ast)) in
  let newLot := mkLot lotID (t_Date txn) shortQty (t_Price txn) in
  let L := with_shortLots (<[ast := short_lots L ast ++ [newLot]]> (shortLots L)) L in
  open_excursion ast (t_Price txn) L.

Definition record_sell txn L : Ledger F :=
  let ast := t_Asset txn in
  let L := with_holdings (<[ast := position L ast - t_Qty txn]> (holdings L)) L in
  let longQty := lots_qty (long_lots L ast) in
  let closeLongQty := cap (t_Qty txn) longQty in
  let L := if closeLongQty >? 0
           then let L := close_longs txn closeLongQty L in
                drop_excursion_if_empty (long_lots L ast) ast L
           else L in
  let shortQty := t_Qty txn - closeLongQty in
  let L := if shortQty >? 0 then open_short txn shortQty L else L in
  cleanup_flat ast L.

(** The bookkeeping every recorded transaction gets. *)
Definition log_transaction txn L : Ledger F :=
  let L := pruneWashSaleTracking (t_Date txn) L in
  let L := with_transactions (transactions L ++ [txn]) L in
  let L := if decide (t_ID txn = EmptyString) then L
           else with_seenTransactions ({[t_ID txn]} ∪ seenTransactions L) L in
  with_cash (cash L + t_Amount txn) L.

Definition Record_ txn L : Ledger F :=
  if negb (isFiniteTransaction txn) then L
  else
    let txn := if decide (t_Type txn = DividendTransaction)
               then set_Qualified (isDividendQualified L (t_Asset txn) (t_Date txn)) txn
               else txn in
    let L := log_transaction txn L in
    match t_Type txn with
    | BuyTransaction => record_buy txn L
    | SellTransaction => record_sell txn L
    | _ => L
    end.

(** ** Splits *)
Definition split_excursion (factor : F) (ex : ExcursionRecord F) : ExcursionRecord F :=
  mkExcursion (e_Entry ex / factor) (e_High ex / factor) (e_Low ex / factor).

Definition split_text (factor oldQty newQty : F) : string :=
  ("split " +:+ fmt_4g factor +:+ ":1 old_qty=" +:+ fmt_4g oldQty
   +:+ " new_qty=" +:+ fmt_4g newQty)%string.

Definition ApplySplit ast (date : Time) (splitFactor : F) L : result (Ledger F) :=
  if splitFactor =? 0 then
    Err ("apply split: split factor cannot be zero for " +:+ Ticker ast)%string
  else
    let qty := position L ast in
    if qty =? 0 then Ok L
    else
      let newQty := qty * splitFactor in
      let L := with_holdings (<[ast := newQty]> (holdings L)) L in
      let L := with_taxLots (alter (fmap (split_adjust_lot splitFactor)) ast (taxLots L)) L in
      let L := with_shortLots (alter (fmap (split_adjust_lot splitFactor)) ast (shortLots L)) L in
      let L := with_excursions (alter (split_excursion splitFactor) ast (excursions L)) L in
      let txn := mkTxn "" date ast SplitTransaction newQty splitFactor 0 false
                   (split_text splitFactor qty newQty) LotFIFO 0 in
      Ok (with_transactions (transactions L ++ [txn]) L).

(** ** Broker-reported transactions *)
Definition txn_of_broker (bt : BrokerTxn F) : Transaction F :=
  mkTxn (bt_ID bt) (bt_Date bt) (bt_Asset bt) (bt_Type bt) (bt_Qty bt) (bt_Price bt)
    (bt_Amount bt) false (bt_Justification bt) LotFIFO 0.

Definition mark_seen (id : string) L : Ledger F :=
  with_seenTransactions ({[id]} ∪ seenTransactions L) L.

Definition sync_one (bt : BrokerTxn F) L : result (Ledger F) :=
  if decide (bt_ID bt ∈ seenTransactions L) then Ok L
  else if decide (bt_Type bt = SplitTransaction) then
    match ApplySplit (bt_Asset bt) (bt_Date bt) (bt_Price bt) L with
    | Ok L => Ok (mark_seen (bt_ID bt) L)
    | Err e => Err ("sync transactions: " +:+ e)%string
    end
  else Ok (Record_ (txn_of_broker bt) L).

(** The ledger reached, and the error that stopped the loop, if any. *)
Fixpoint SyncTransactions (txns : list (BrokerTxn F)) L : Ledger F * option error :=
  match txns with
  | [] => (L, None)
  | bt :: rest =>
      match sync_one bt L with
      | Ok L => SyncTransactions rest L
      | Err e => (L, Some e)
      end
  end.

(** ** Tax-aware queries *)
Definition WashSaleWindow L ast : list (WashSaleRecord F) :=
  keep (λ r, bool_decide (w_Asset r = ast)) (washSales L).
Definition UnrealizedLots L ast : list (TaxLot F) := long_lots L ast.

(** [WithCash]: the opening balance and its deposit. *)
Definition WithCash (amount : F) (date : Time) L : Ledger F :=
  with_transactions
    (transactions L ++ [mkTxn "" date zero_asset DepositTransaction 0 0 amount false "" LotFIFO 0])
    (with_cash amount L).
(** [WithDefaultLotSelection] *)
Definition WithDefaultLotSelection (method : LotSelection) L : Ledger F :=
  with_lotSelection method L.
End Ledger.
