(* ===== verification/Samples.v ===== *)
(** * Samples: the concrete values the witnesses run on

    A time zone database with a single zone at offset zero, a rendering of
    numbers that is constant, two assets, days of 2024 and a few constructors
    of transactions and lots.  Every witness of the development instantiates
    the parameters of its theorem with these. *)
From Stdlib Require Import ZArith Qcanon.
From stdpp Require Import base list gmap strings.
From S2P Require Import Prelude Num GoTime Asset Period Frame Broker Lots Ledger.

(** The zone database of a machine that knows UTC only. *)
Definition utc_db : TZDB := {| zone := λ _ _, 0%Z |}.

Definition blank_fmt {F} : FmtFloat F := {| fmt_4g := λ _, EmptyString |}.

Definition SPY : Asset := mk_asset "BBG000BDTBL9" "SPY".
Definition TLT : Asset := mk_asset "BBG000BJKYW3" "TLT".

(** Midnight UTC, [n] days after 2024-01-01. *)
Definition day (n : Z) : Time := mkTime ((19723 + n) * ns_per_day) "UTC".

Definition q (z : Z) : xq := Fin (qc_of_Z z).

Definition qfrac (n : Z) (d : positive) : Qc := Q2Qc (QArith_base.Qmake n d).

Section Txns.
Context {F : Type} `{Num F}.

Definition buy (id : string) (d : Z) (a : Asset) (qty price : Z) : Transaction F :=
  mkTxn id (day d) a BuyTransaction (of_Z qty) (of_Z price) (of_Z (- (qty * price)))
    false "" LotFIFO 0.
Definition sell (id : string) (d : Z) (a : Asset) (qty price : Z) : Transaction F :=
  mkTxn id (day d) a SellTransaction (of_Z qty) (of_Z price) (of_Z (qty * price))
    false "" LotFIFO 0.
Definition with_method (m : LotSelection) (t : Transaction F) : Transaction F :=
  mkTxn (t_ID t) (t_Date t) (t_Asset t) (t_Type t) (t_Qty t) (t_Price t) (t_Amount t)
    (t_Qualified t) (t_Justification t) m (t_BatchID t).
Definition dividend (id : string) (d : Z) (a : Asset) (amount : Z) : BrokerTxn F :=
  mkBrokerTxn id (day d) a DividendTransaction (of_Z 0) (of_Z 0) (of_Z amount) "".
Definition split (id : string) (d : Z) (a : Asset) (factor : F) : BrokerTxn F :=
  mkBrokerTxn id (day d) a SplitTransaction (of_Z 0) factor (of_Z 0) "".
Definition lot (id : string) (d qty price : Z) : TaxLot F :=
  mkLot id (day d) (of_Z qty) (of_Z price).

(** One day of integer values, a column per asset and metric. *)
Definition bar (d : Z) (assets : list Asset) (metrics : list Metric) (vals : list Z) : DataFrame F :=
  build [day d] assets metrics Daily ((λ v, [of_Z v]) <$> vals).
End Txns.

(** Decides an equality of numbers by evaluation: two rationals may carry
    different proofs of canonicity, so conversion alone does not. *)
Ltac eval_eq :=
  lazymatch goal with
  | |- ?x = ?y => refine (bool_decide_eq_true_1 (x = y) _); vm_compute; reflexivity
  end.
