(* ===== verification/Gains.v ===== *)
(** * Gains: realized gains from the transaction log
    ([portfolio/metric_helpers.go])

    [replayGainEvents] rebuilds FIFO lots from the log and reports one event per
    closing trade, with the dividend income of the window.  Lots are keyed by
    CompositeFigi; a zero start or end leaves that side of the window open.

    The second half proves what the replay conserves. *)
From Stdlib Require Import ZArith Qcanon Field Lia.
From stdpp Require Import base list gmap strings.
From S2P Require Import Prelude Num GoTime Asset Broker Lots Ledger Samples.
Record glot (F : Type) : Type := mkGlot { gl_date : Time; gl_qty : F; gl_price : F }.
Arguments mkGlot {F}.
Arguments gl_date {F}.
Arguments gl_qty {F}.
Arguments gl_price {F}.

Record gainEvent (F : Type) : Type := mkEvent { ge_date : Time; ge_ltcg : F; ge_stcg : F }.
Arguments mkEvent {F}.
Arguments ge_date {F}.
Arguments ge_ltcg {F}.
Arguments ge_stcg {F}.

(** What the replay threads through the log. *)
Record Replay (F : Type) : Type := mkReplay {
  rp_long : gmap string (list (glot F));
  rp_short : gmap string (list (glot F));
  rp_events : list (gainEvent F);
  rp_qualDiv : F;
  rp_nonQualDiv : F;
}.
Arguments mkReplay {F}.
Arguments rp_long {F}.
Arguments rp_short {F}.
Arguments rp_events {F}.
Arguments rp_qualDiv {F}.
Arguments rp_nonQualDiv {F}.

Section Gains.
Context {F : Type} `{Num F}.
Local Open Scope num_scope.
Implicit Types (lots : list (glot F)) (txn : Transaction F) (r : Replay F).

Definition inRange (start stop date : Time) : bool :=
  negb (negb (IsZero start) && Before date start) &&
  negb (negb (IsZero stop) && After date stop).

(** The matched pieces, in order. *)
Fixpoint gain_matches lots (qty : F) : list (glot F * F) :=
  match lots with
  | [] => []
  | l :: rest =>
      if qty >? 0 then
        (l, cap (gl_qty l) qty) ::
        (if gl_qty l <=? qty then gain_matches rest (qty - gl_qty l) else [])
      else []
  end.

(** The lots left and the unmatched quantity. *)
Fixpoint gain_consume lots (qty : F) : list (glot F) * F :=
  match lots with
  | [] => ([], qty)
  | l :: rest =>
      if qty >? 0 then
        if gl_qty l <=? qty then gain_consume rest (qty - gl_qty l)
        else (mkGlot (gl_date l) (gl_qty l - qty) (gl_price l) :: rest, 0)
      else (lots, qty)
  end.

Definition key_of txn : string := CompositeFigi (t_Asset txn).

Definition cover_gain txn (acc : F) (m : glot F * F) : F :=
  acc + (gl_price m.1 - t_Price txn) * m.2.

(** Long- and short-term gains of closing long lots. *)
Definition close_gain txn (acc : F * F) (m : glot F * F) : F * F :=
  let gain := (t_Price txn - gl_price m.1) * m.2 in
  let holdingDays := Hours (Sub (t_Date txn) (gl_date m.1)) / of_Z 24 in
  if holdingDays >? of_Z 365 then (acc.1 + gain, acc.2) else (acc.1, acc.2 + gain).

Definition push_event (e : gainEvent F) r : list (gainEvent F) :=
  if (ge_ltcg e !=? 0) || (ge_stcg e !=? 0) then rp_events r ++ [e] else rp_events r.

Definition open_lot txn (m : gmap string (list (glot F))) (remaining : F) : gmap string (list (glot F)) :=
  if remaining >? 0 then
    <[key_of txn := lookup_d [] m (key_of txn) ++ [mkGlot (t_Date txn) remaining (t_Price txn)]]> m
  else m.

Definition replay_buy (attribute : bool) txn r : Replay F :=
  let key := key_of txn in
  let shorts := lookup_d [] (rp_short r) key in
  let ms := gain_matches shorts (t_Qty txn) in
  let '(rest, remaining) := gain_consume shorts (t_Qty txn) in
  let stcg := if attribute then fold_left (cover_gain txn) ms 0 else 0 in
  let events := if attribute then push_event (mkEvent (t_Date txn) 0 stcg) r else rp_events r in
  mkReplay (open_lot txn (rp_long r) remaining) (<[key := rest]> (rp_short r)) events
    (rp_qualDiv r) (rp_nonQualDiv r).

Definition replay_sell (attribute : bool) txn r : Replay F :=
  let key := key_of txn in
  let longs := lookup_d [] (rp_long r) key in
  let ms := gain_matches longs (t_Qty txn) in
  let '(rest, remaining) := gain_consume longs (t_Qty txn) in
  let '(ltcg, stcg) := if attribute then fold_left (close_gain txn) ms (0, 0) else (0, 0) in
  let events := if attribute then push_event (mkEvent (t_Date txn) ltcg stcg) r else rp_events r in
  mkReplay (<[key := rest]> (rp_long r)) (open_lot txn (rp_short r) remaining) events
    (rp_qualDiv r) (rp_nonQualDiv r).

Definition split_glot (factor : F) (l : glot F) : glot F :=
  mkGlot (gl_date l) (gl_qty l * factor) (gl_price l / factor).

Definition replay_split txn r : Replay F :=
  if t_Price txn =? 0 then r
  else
    let scale := alter (fmap (split_glot (t_Price txn))) (key_of txn) in
    mkReplay (scale (rp_long r)) (scale (rp_short r)) (rp_events r) (rp_qualDiv r) (rp_nonQualDiv r).

Definition replay_dividend txn r : Replay F :=
  if t_Qualified txn
  then mkReplay (rp_long r) (rp_short r) (rp_events r) (rp_qualDiv r + t_Amount txn) (rp_nonQualDiv r)
  else mkReplay (rp_long r) (rp_short r) (rp_events r) (rp_qualDiv r) (rp_nonQualDiv r + t_Amount txn).

Definition replay_one (start stop : Time) r txn : Replay F :=
  let attribute := inRange start stop (t_Date txn) in
  match t_Type txn with
  | BuyTransaction => replay_buy attribute txn r
  | SellTransaction => replay_sell attribute txn r
  | SplitTransaction => replay_split txn r
  | DividendTransaction => if attribute then replay_dividend txn r else r
  | _ => r
  end.

Definition empty_replay : Replay F := mkReplay ∅ ∅ [] 0 0.

Definition replayGainEvents (txns : list (Transaction F)) (start stop : Time) : Replay F :=
  fold_left (replay_one start stop) txns empty_replay.

Definition realizedGainsInRange (txns : list (Transaction F)) (start stop : Time) : F * F * F * F :=
  let r := replayGainEvents txns start stop in
  (fsum (ge_ltcg <$> rp_events r), fsum (ge_stcg <$> rp_events r), rp_qualDiv r, rp_nonQualDiv r).

Definition realizedGains (txns : list (Transaction F)) : F * F * F * F :=
  realizedGainsInRange txns zero_time zero_time.

(** [Account.RealizedGainsYTD] *)
Definition RealizedGainsYTD (L : Ledger F) : F * F := (realizedGains (transactions L)).1.1.
End Gains.

(** * What the replay of the transaction log reports

    A window selects events without touching the lots, and over a whole log
    the realized gains are what the trades brought in, less what they paid,
    corrected by the cost of the lots still open.  Splits rescale lots without
    changing their cost. *)
(** ** Windows *)
Section Windows.
Context {F : Type} `{Num F}.
Implicit Types (r : Replay F) (txn : Transaction F).

Lemma inRange_open (d : Time) : inRange zero_time zero_time d = true.
Proof. reflexivity. Qed.

(** A replay and the same replay restricted to a window. *)
Record restricts (start stop : Time) r r0 : Prop := {
  rs_long : rp_long r = rp_long r0;
  rs_short : rp_short r = rp_short r0;
  rs_events : rp_events r = keep (λ e, inRange start stop (ge_date e)) (rp_events r0);
}.

Lemma push_restricts start stop (e : gainEvent F) r r0 :
  restricts start stop r r0 →
  (if inRange start stop (ge_date e) then push_event e r else rp_events r)
  = keep (λ e, inRange start stop (ge_date e)) (push_event e r0).
Proof.
  intros [_ _ He]. unfold push_event. destruct (_ || _).
  - rewrite keep_app, <-He, keep_cons. destruct (inRange _ _ _); [done|].
    cbn. by rewrite app_nil_r.
  - rewrite He. by destruct (inRange _ _ _).
Qed.

Lemma replay_one_restricts start stop txn r r0 :
  restricts start stop r r0 →
  restricts start stop (replay_one start stop r txn) (replay_one zero_time zero_time r0 txn).
Proof.
  intros Hr. pose proof Hr as [Hl Hs He]. unfold replay_one. rewrite inRange_open.
  destruct (t_Type txn); try done.
  - unfold replay_buy. rewrite Hl, Hs. destruct (gain_consume _ _) as [rest remaining].
    split; cbn [rp_long rp_short rp_events]; [done..|].
    rewrite <-(push_restricts _ _ _ r) by done. cbn [ge_date].
    by destruct (inRange start stop (t_Date txn)).
  - unfold replay_sell. rewrite Hl, Hs. destruct (gain_consume _ _) as [rest remaining].
    destruct (fold_left _ _ _) as [ltcg stcg] eqn:Hf.
    destruct (inRange start stop (t_Date txn)) eqn:Hin; split; cbn [rp_long rp_short rp_events]; try done;
      rewrite <-(push_restricts _ _ _ r) by done; cbn [ge_date]; by rewrite Hin.
  - unfold replay_dividend. destruct (inRange _ _ _), (t_Qualified txn); by split.
  - unfold replay_split. destruct (feq _ _); [by split|]. split; cbn [rp_long rp_short rp_events]; congruence.
Qed.

(** A window changes what is reported, not how lots are matched: replaying
    the log for a window leaves the same open lots as replaying it for all time,
    and reports exactly the events of the full replay dated inside the window,
    in their order. *)
Theorem window_selects_events (txns : list (Transaction F)) (start stop : Time) :
  let r := replayGainEvents txns start stop in
  let full := replayGainEvents txns zero_time zero_time in
  rp_long r = rp_long full ∧ rp_short r = rp_short full ∧
  rp_events r = keep (λ e, inRange start stop (ge_date e)) (rp_events full).
Proof.
  cbn zeta. unfold replayGainEvents.
  assert (Hgo : ∀ r r0, restricts start stop r r0 →
    restricts start stop (fold_left (replay_one start stop) txns r) (fold_left (replay_one zero_time zero_time) txns r0)).
  { induction txns as [|txn rest IH]; cbn; [done|]. intros r r0 Hr. apply IH. by apply replay_one_restricts. }
  destruct (Hgo empty_replay empty_replay) as [? ? ?]; [by split|done].
Qed.
End Windows.

(** ** Conservation in exact arithmetic *)
Local Open Scope Qc_scope.

Definition piece_cost (l : glot xq) : Qc := val (gl_qty l) * val (gl_price l).
Definition lots_cost (lots : list (glot xq)) : Qc := qsum (piece_cost <$> lots).
Definition book_cost (m : gmap string (list (glot xq))) : Qc := qsum ((λ kl, lots_cost kl.2) <$> map_to_list m).
Definition exact_glot (l : glot xq) : Prop := finite (gl_qty l) ∧ finite (gl_price l).
Definition exact_book (m : gmap string (list (glot xq))) : Prop := map_Forall (λ _, Forall exact_glot) m.

(** What a trade of the log paid or brought in, as far as the replay sees it: a
    quantity below zero matches no lot and opens none. *)
Definition counted (n : Qc) : Qc := if qc_leb 0 n then n else 0.
Definition bought (txn : Transaction xq) : Qc :=
  match t_Type txn with BuyTransaction => counted (val (t_Qty txn)) * val (t_Price txn) | _ => 0 end.
Definition sold (txn : Transaction xq) : Qc :=
  match t_Type txn with SellTransaction => counted (val (t_Qty txn)) * val (t_Price txn) | _ => 0 end.

Record exact_trade (txn : Transaction xq) : Prop := {
  et_price : finite (t_Price txn);
  et_qty : finite (t_Qty txn);
}.

Definition event_total (e : gainEvent xq) : Qc := val (ge_ltcg e) + val (ge_stcg e).
Definition exact_event (e : gainEvent xq) : Prop := finite (ge_ltcg e) ∧ finite (ge_stcg e).

#[global] Arguments lots_cost : simpl never.

Lemma lots_cost_cons l lots : lots_cost (l :: lots) = piece_cost l + lots_cost lots.
Proof. reflexivity. Qed.
Lemma lots_cost_snoc l lots : lots_cost (lots ++ [l]) = lots_cost lots + piece_cost l.
Proof. unfold lots_cost. rewrite fmap_app, qsum_app. cbn. qclra. Qed.

Lemma book_cost_fresh m k lots : m !! k = None → book_cost (<[k := lots]> m) = lots_cost lots + book_cost m.
Proof. 
  intros Hk. unfold book_cost. etrans; [apply qsum_perm, fmap_Permutation; by apply map_to_list_insert|done].
Qed.

Lemma book_cost_insert m k lots :
  book_cost (<[k := lots]> m) = book_cost m - lots_cost (lookup_d [] m k) + lots_cost lots.
Proof.
  unfold lookup_d. destruct (m !! k) as [old|] eqn:Hk; cbn [default from_option].
  - rewrite <-(insert_delete_eq m k lots), book_cost_fresh by apply lookup_delete_eq.
    assert (Hm : book_cost m = lots_cost old + book_cost (delete k m)).
    { rewrite <-(book_cost_fresh (delete k m) k old) by apply lookup_delete_eq. by rewrite insert_delete_id. }
    rewrite Hm. unfold id. qclra.
  - rewrite book_cost_fresh by done. unfold id. change (lots_cost []) with 0. qclra.
Qed.

Lemma exact_book_lookup m k : exact_book m → Forall exact_glot (lookup_d [] m k).
Proof. intros Hm. unfold lookup_d. destruct (m !! k) eqn:Hk; cbn; [by eapply Hm|constructor]. Qed.
Lemma exact_book_insert m k lots : exact_book m → Forall exact_glot lots → exact_book (<[k := lots]> m).
Proof. intros. by apply map_Forall_insert_2. Qed.

(** The pieces matched from a list of lots, their quantity and cost, and what
    the walk leaves. *)
Definition pieces_qty (ms : list (glot xq * xq)) : Qc := qsum ((λ m, val m.2) <$> ms).
Definition pieces_cost (ms : list (glot xq * xq)) : Qc := qsum ((λ m, val (gl_price m.1) * val m.2) <$> ms).
Definition exact_piece (m : glot xq * xq) : Prop := finite (gl_price m.1) ∧ finite m.2.

Lemma gain_consume_conserves lots (n : Qc) :
  Forall exact_glot lots → 0 <= n →
  let ms := gain_matches lots (Fin n) in
  ∃ rest left_, gain_consume lots (Fin n) = (rest, Fin left_) ∧ 0 <= left_ ∧
    Forall exact_glot rest ∧ Forall exact_piece ms ∧
    n = pieces_qty ms + left_ ∧ lots_cost lots = pieces_cost ms + lots_cost rest.
Proof.
  intros Hl. revert n. induction Hl as [|l lots [[lq Hq] [lp Hp]] Hl IH]; intros n Hn; cbn zeta.
  { exists [], n. unfold pieces_qty, pieces_cost, lots_cost. cbn. split_and!; try done; constructor || qclra. }
  cbn [gain_consume gain_matches]. rewrite Hq. unfold cap. xcbn.
  destruct (qc_ltb 0 n) eqn:Hpos; qc_bools.
  2:{ exists (l :: lots), n. unfold pieces_qty, pieces_cost. cbn.
      split_and!; [done|done|constructor; [by split; [exists lq|exists lp]|done]|constructor|qclra|qclra]. }
  destruct (qc_leb lq n) eqn:Hle; qc_bools.
  - destruct (IH (n + - lq)) as (rest & left_ & Hc & Hleft & Hrest & Hms & Hn' & Hcost); [qclra|].
    exists rest, left_. rewrite Hc. split; [done|]. split; [done|]. split; [done|].
    replace (qc_ltb n lq) with false by (symmetry; by apply qc_ltb_false).
    split; [constructor; [by split; [exists lp|exists lq]|done]|].
    unfold pieces_qty, pieces_cost in *. rewrite lots_cost_cons. unfold piece_cost. rewrite Hq, Hp. cbn [fmap list_fmap fst snd qsum val].
    rewrite Hp, Hcost. cbn [val]. split; qcnra.
  - exists (mkGlot (gl_date l) (Fin (lq + - n)) (gl_price l) :: lots), 0.
    replace (qc_ltb n lq) with true by (symmetry; by apply qc_ltb_true).
    split; [done|]. split; [qclra|]. split; [constructor; [by split; [eexists|exists lp]|done]|].
    split; [constructor; [by split; [exists lp|exists n]|constructor]|].
    unfold pieces_qty, pieces_cost. rewrite !lots_cost_cons. unfold piece_cost. cbn. rewrite Hq, Hp. cbn.
    split; qcnra.
Qed.

Lemma counted_pos n : 0 <= n → counted n = n.
Proof. intros Hn. unfold counted. by rewrite (proj2 (qc_leb_true _ _) Hn). Qed.
Lemma counted_neg n : n < 0 → counted n = 0.
Proof. intros Hn. unfold counted. replace (qc_leb 0 n) with false; [done|]. symmetry. by apply qc_leb_false. Qed.

(** The same for any quantity: below zero nothing is matched. *)
Lemma gain_consume_any lots (n : Qc) :
  Forall exact_glot lots →
  let ms := gain_matches lots (Fin n) in
  ∃ rest left_, gain_consume lots (Fin n) = (rest, Fin left_) ∧
    Forall exact_glot rest ∧ Forall exact_piece ms ∧
    counted n = pieces_qty ms + counted left_ ∧ lots_cost lots = pieces_cost ms + lots_cost rest.
Proof.
  intros Hl. destruct (Qclt_le_dec n 0) as [Hn|Hn].
  - assert (gain_matches lots (Fin n) = [] ∧ gain_consume lots (Fin n) = (lots, Fin n)) as [-> ->].
    { destruct lots as [|l lots]; [done|]. cbn [gain_matches gain_consume]. xcbn.
      replace (qc_ltb 0 n) with false; [done|]. symmetry. apply qc_ltb_false. by apply Qclt_le_weak. }
    exists lots, n. split; [done|]. split; [done|]. split; [constructor|]. unfold pieces_qty, pieces_cost. cbn [fmap list_fmap qsum]. split; qclra.
  - destruct (gain_consume_conserves lots n Hl Hn) as (rest & left_ & Hc & Hleft & Hrest & Hms & Hqty & Hcost).
    exists rest, left_. by rewrite !counted_pos.
Qed.

Lemma cover_gain_exact txn (p acc : Qc) ms :
  t_Price txn = Fin p → Forall exact_piece ms →
  fold_left (cover_gain txn) ms (Fin acc) = Fin (acc + (pieces_cost ms - p * pieces_qty ms)).
Proof.
  intros Hp Hms. revert acc. induction Hms as [|m ms [[lp Hlp] [n Hn]] Hms IH]; intros acc.
  { unfold pieces_cost, pieces_qty. cbn. f_equal. qcnra. }
  cbn [fold_left]. unfold cover_gain at 2. rewrite Hp, Hlp, Hn. cbn. rewrite IH. f_equal.
  unfold pieces_cost, pieces_qty. cbn. rewrite Hlp, Hn. cbn. qcnra.
Qed.

Lemma close_gain_exact txn (p a b : Qc) ms :
  t_Price txn = Fin p → Forall exact_piece ms →
  ∃ l s, fold_left (close_gain txn) ms (Fin a, Fin b) = (Fin l, Fin s) ∧
    l + s = a + b + (p * pieces_qty ms - pieces_cost ms).
Proof.
  intros Hp Hms. revert a b. induction Hms as [|m ms [[lp Hlp] [n Hn]] Hms IH]; intros a b.
  { exists a, b. split; [done|]. unfold pieces_cost, pieces_qty. cbn. qcnra. }
  cbn [fold_left]. unfold close_gain at 2. rewrite Hp, Hlp, Hn. cbn [fst snd].
  destruct (flt _ _); [destruct (IH (a + (p + - lp) * n) b) as (l & s & Hf & Hs)
                      |destruct (IH a (b + (p + - lp) * n)) as (l & s & Hf & Hs)];
    exists l, s; (split; [exact Hf|]); rewrite Hs; unfold pieces_cost, pieces_qty; cbn; rewrite Hlp, Hn; cbn; qcnra.
Qed.

(** The replay after the trades [txns]. *)
Record settled (txns : list (Transaction xq)) (r : Replay xq) : Prop := {
  st_long : exact_book (rp_long r);
  st_short : exact_book (rp_short r);
  st_events : Forall exact_event (rp_events r);
  st_total : qsum (event_total <$> rp_events r)
    = qsum (sold <$> txns) - qsum (bought <$> txns) + book_cost (rp_long r) - book_cost (rp_short r);
}.

(** An event that is dropped has no gain. *)
Lemma push_event_total (e : gainEvent xq) r :
  exact_event e → Forall exact_event (rp_events r) →
  Forall exact_event (push_event e r) ∧
  qsum (event_total <$> push_event e r) = qsum (event_total <$> rp_events r) + event_total e.
Proof.
  intros [[l Hl] [s Hs]] Hr. unfold push_event. rewrite Hl, Hs. cbn.
  destruct (negb _ || negb _) eqn:Hz.
  - split; [apply Forall_app; split; [done|]; constructor; [by split; [exists l|exists s]|constructor]|].
    rewrite fmap_app, qsum_app. cbn. qclra.
  - split; [done|]. apply orb_false_iff in Hz as [Hlz Hsz]. apply negb_false_iff in Hlz, Hsz. qc_bools.
    unfold event_total. rewrite Hl, Hs. cbn. rewrite Hlz, Hsz, qc_of_Z_0. qclra.
Qed.

Lemma open_lot_cost txn (m : gmap string (list (glot xq))) (p left_ : Qc) :
  exact_book m → t_Price txn = Fin p →
  exact_book (open_lot txn m (Fin left_)) ∧ book_cost (open_lot txn m (Fin left_)) = book_cost m + counted left_ * p.
Proof.
  intros Hm Hp. unfold open_lot. cbn. rewrite qc_of_Z_0. destruct (qc_ltb 0 left_) eqn:Hpos; qc_bools.
  - split.
    + apply exact_book_insert; [done|]. apply Forall_app. split; [by apply exact_book_lookup|].
      constructor; [by split; eexists|constructor].
    + rewrite book_cost_insert, lots_cost_snoc. unfold piece_cost. cbn. rewrite Hp. cbn. rewrite counted_pos by qclra. qclra.
  - split; [done|]. replace (counted left_) with 0; [qcnra|]. destruct (Qclt_le_dec left_ 0); [by rewrite counted_neg|].
    rewrite counted_pos by done. qclra.
Qed.

Lemma total_snoc (f : Transaction xq → Qc) txns txn : qsum (f <$> txns ++ [txn]) = qsum (f <$> txns) + f txn.
Proof. rewrite fmap_app, qsum_app. cbn. qclra. Qed.

Lemma replay_buy_settles txns txn r :
  exact_trade txn → t_Type txn = BuyTransaction → settled txns r → settled (txns ++ [txn]) (replay_buy true txn r).
Proof.
  intros [[p Hp] [n Hn]] Ht [Hl Hs He Htot]. unfold replay_buy. rewrite Hn.
  destruct (gain_consume_any (lookup_d [] (rp_short r) (key_of txn)) n) as
    (rest & left_ & Hc & Hrest & Hms & Hqty & Hcost); [by apply exact_book_lookup|].
  rewrite Hc. change (@of_Z xq _ 0) with (Fin 0). rewrite (cover_gain_exact _ p) by done.
  destruct (push_event_total (mkEvent (t_Date txn) (Fin 0)
    (Fin (0 + (pieces_cost (gain_matches (lookup_d [] (rp_short r) (key_of txn)) (Fin n))
       - p * pieces_qty (gain_matches (lookup_d [] (rp_short r) (key_of txn)) (Fin n)))))) r) as [Hev Hevt];
    [by split; eexists|done|].
  destruct (open_lot_cost txn (rp_long r) p left_) as [Hlong Hlcost]; [done..|].
  split; cbn [rp_long rp_short rp_events]; [done|by apply exact_book_insert|exact Hev|].
  unfold event_total at 3 in Hevt. cbn [ge_ltcg ge_stcg val] in Hevt.
  rewrite Hlcost, book_cost_insert, !total_snoc. etrans; [exact Hevt|].
  rewrite Htot. unfold sold at 3, bought at 3. rewrite Ht, Hn, Hp. cbn [val]. rewrite Hqty.
  generalize dependent (gain_matches (lookup_d [] (rp_short r) (key_of txn)) (Fin n)). intros. qcnra.
Qed.

Lemma replay_sell_settles txns txn r :
  exact_trade txn → t_Type txn = SellTransaction → settled txns r → settled (txns ++ [txn]) (replay_sell true txn r).
Proof.
  intros [[p Hp] [n Hn]] Ht [Hl Hs He Htot]. unfold replay_sell. rewrite Hn.
  destruct (gain_consume_any (lookup_d [] (rp_long r) (key_of txn)) n) as
    (rest & left_ & Hc & Hrest & Hms & Hqty & Hcost); [by apply exact_book_lookup|].
  rewrite Hc. change (@of_Z xq _ 0) with (Fin 0).
  destruct (close_gain_exact txn p 0 0 (gain_matches (lookup_d [] (rp_long r) (key_of txn)) (Fin n)) Hp Hms)
    as (lt & stc & Hf & Hsum).
  rewrite Hf.
  destruct (push_event_total (mkEvent (t_Date txn) (Fin lt) (Fin stc)) r) as [Hev Hevt]; [by split; eexists|done|].
  destruct (open_lot_cost txn (rp_short r) p left_) as [Hshort Hscost]; [done..|].
  split; cbn [rp_long rp_short rp_events]; [by apply exact_book_insert|done|exact Hev|].
  unfold event_total at 3 in Hevt. cbn [ge_ltcg ge_stcg val] in Hevt.
  rewrite Hscost, book_cost_insert, !total_snoc. etrans; [exact Hevt|].
  rewrite Htot. unfold sold at 3, bought at 3. rewrite Ht, Hn, Hp. cbn [val]. rewrite Hqty.
  generalize dependent (gain_matches (lookup_d [] (rp_long r) (key_of txn)) (Fin n)). intros. qcnra.
Qed.

Lemma split_lots_cost (f : Qc) lots :
  f ≠ 0 → Forall exact_glot lots →
  Forall exact_glot (split_glot (Fin f) <$> lots) ∧ lots_cost (split_glot (Fin f) <$> lots) = lots_cost lots.
Proof.
  intros Hf. induction 1 as [|l lots [[n Hn] [p Hp]] Hl [IHe IHc]]; [by split|].
  cbn [fmap list_fmap]. rewrite !lots_cost_cons. fold (split_glot (Fin f) <$> lots). rewrite IHc.
  unfold split_glot at 1 3, exact_glot, piece_cost. cbn. rewrite Hn, Hp. cbn.
  replace (qc_eqb f 0) with false by (symmetry; by apply qc_eqb_false). cbn. split.
  - constructor; [by split; eexists|done].
  - f_equal. field. done.
Qed.

Lemma alter_split_cost (f : Qc) k m :
  f ≠ 0 → exact_book m →
  exact_book (alter (fmap (split_glot (Fin f))) k m) ∧ book_cost (alter (fmap (split_glot (Fin f))) k m) = book_cost m.
Proof.
  intros Hf Hm. destruct (m !! k) as [lots|] eqn:Hk.
  - assert (Ha : alter (fmap (split_glot (Fin f))) k m = <[k := split_glot (Fin f) <$> lots]> m).
    { apply map_eq. intros j. destruct (decide (k = j)) as [<-|].
      - by rewrite lookup_alter_eq, lookup_insert_eq, Hk.
      - by rewrite lookup_alter_ne, lookup_insert_ne. }
    destruct (split_lots_cost f lots Hf) as [He Hc]; [by eapply Hm|].
    rewrite Ha. split; [by apply exact_book_insert|].
    rewrite book_cost_insert, Hc. unfold lookup_d. rewrite Hk. cbn. unfold id. qclra.
  - by rewrite alter_id by (intros ? Hk'; congruence).
Qed.

Lemma replay_one_settles txns txn r :
  exact_trade txn → settled txns r → settled (txns ++ [txn]) (replay_one zero_time zero_time r txn).
Proof.
  intros Hx Hr. unfold replay_one. rewrite inRange_open.
  assert (Hno : sold txn = 0 → bought txn = 0 → ∀ r', rp_long r' = rp_long r → rp_short r' = rp_short r →
    rp_events r' = rp_events r → settled (txns ++ [txn]) r').
  { intros Hsold Hbought r' Hl Hs He. destruct Hr as [Hrl Hrs Hre Htot].
    split; rewrite ?Hl, ?Hs, ?He; try done. rewrite !total_snoc, Hsold, Hbought. rewrite Htot. qclra. }
  destruct (t_Type txn) eqn:Ht; try (apply Hno; unfold sold, bought; by rewrite ?Ht).
  - by apply replay_buy_settles.
  - by apply replay_sell_settles.
  - apply Hno; unfold sold, bought, replay_dividend; rewrite ?Ht; try done; by destruct (t_Qualified txn).
  - unfold replay_split. destruct Hx as [[p Hp] _]. rewrite Hp. cbn. rewrite qc_of_Z_0.
    destruct (qc_eqb p 0) eqn:Hz; qc_bools; [apply Hno; unfold sold, bought; by rewrite ?Ht|].
    destruct Hr as [Hrl Hrs Hre Htot].
    destruct (alter_split_cost p (key_of txn) (rp_long r)) as [? Hcl]; [done..|].
    destruct (alter_split_cost p (key_of txn) (rp_short r)) as [? Hcs]; [done..|].
    split; cbn [rp_long rp_short rp_events]; try done.
    rewrite Hcl, Hcs, !total_snoc, Htot. unfold sold at 3, bought at 3. rewrite Ht. qclra.
Qed.

Lemma exact_fsum (f : gainEvent xq → xq) (l : list (gainEvent xq)) :
  Forall (λ e, finite (f e)) l → fsum (f <$> l) = Fin (qsum ((λ e, val (f e)) <$> l)).
Proof.
  intros Hf. rewrite <-fsum_exact. f_equal. rewrite <-list_fmap_compose. apply list_fmap_ext.
  intros i e Hi. apply finite_val. rewrite Forall_lookup in Hf. eauto.
Qed.

Lemma event_totals (l : list (gainEvent xq)) :
  qsum (event_total <$> l) = qsum ((λ e, val (ge_ltcg e)) <$> l) + qsum ((λ e, val (ge_stcg e)) <$> l).
Proof. induction l as [|e l IH]; cbn; [qclra|]. rewrite IH. unfold event_total. qclra. Qed.

(** C3. Realized gains conserve money.  Over any log with finite prices and
    quantities, splits and dividends included, long- and short-term gains add
    up to what the sells brought in less what the buys paid, plus the cost of
    the long lots still open, less the proceeds of the short lots still open.
    A trade of a negative quantity, which the replay ignores, counts for
    nothing on either side. *)
Theorem realized_gains_conserve (txns : list (Transaction xq)) :
  Forall exact_trade txns →
  let r := replayGainEvents txns zero_time zero_time in
  ∃ ltcg stcg, (realizedGains txns).1.1 = (Fin ltcg, Fin stcg) ∧
    ltcg + stcg = qsum (sold <$> txns) - qsum (bought <$> txns) + book_cost (rp_long r) - book_cost (rp_short r).
Proof.
  intros Hx r.
  assert (Hgo : ∀ done_ r0, settled done_ r0 → settled (done_ ++ txns) (fold_left (replay_one zero_time zero_time) txns r0)).
  { clear r. induction Hx as [|txn rest Htxn _ IH]; intros done_ r0 Hr0; cbn [fold_left]; [by rewrite app_nil_r|].
    rewrite cons_middle, app_assoc. by apply IH, replay_one_settles. }
  destruct (Hgo [] empty_replay) as [_ _ He Htot]; [by split|]. cbn [app] in Htot.
  exists (qsum ((λ e, val (ge_ltcg e)) <$> rp_events r)), (qsum ((λ e, val (ge_stcg e)) <$> rp_events r)). split.
  - unfold realizedGains, realizedGainsInRange. cbn [fst].
    rewrite !exact_fsum; [done|..]; eapply Forall_impl; [exact He|by intros ? []|exact He|by intros ? []].
  - rewrite <-event_totals. exact Htot.
Qed.

(** A short sale covered and reversed into a long position, split two for one
    and sold in part; and a short sale whose asset is delisted. *)
Definition gains_log : list (Transaction xq) :=
  [sell "s0" 0 SPY 10 100; buy "b1" 1 SPY 15 90; txn_of_broker (split "x2" 2 SPY (q 2)); sell "s3" 400 SPY 4 60;
   sell "s4" 401 TLT 3 50; sell "s5" 402 TLT (-3) 40].

Lemma realized_gains_conserve_witness :
  Forall exact_trade gains_log ∧
  ∃ ltcg stcg, (realizedGains gains_log).1.1 = (Fin ltcg, Fin stcg) ∧
    ltcg + stcg = qsum (sold <$> gains_log) - qsum (bought <$> gains_log)
      + book_cost (rp_long (replayGainEvents gains_log zero_time zero_time))
      - book_cost (rp_short (replayGainEvents gains_log zero_time zero_time)).
Proof.
  assert (Hx : Forall exact_trade gains_log).
  { repeat constructor; eexists; reflexivity. }
  split; [exact Hx|]. exact (realized_gains_conserve gains_log Hx).
Defined.

(** A sale of an asset without long lots realizes nothing. *)
Lemma replay_sell_short (txn : Transaction xq) (r : Replay xq) :
  lookup_d [] (rp_long r) (key_of txn) = [] →
  replay_sell true txn r =
    mkReplay (<[key_of txn := []]> (rp_long r)) (open_lot txn (rp_short r) (t_Qty txn)) (rp_events r) (rp_qualDiv r) (rp_nonQualDiv r).
Proof. intros Hl. unfold replay_sell. by rewrite Hl. Qed.

(** A short whose asset is delisted is never realized: the broker reports its
    liquidation as a sale of the negative quantity, which matches no lot.  The
    lot stays open and no event is reported, whatever the last price. *)
Lemma delisted_short_never_realized (n p last d : Z) :
  (0 < n)%Z →
  let r := replayGainEvents [sell "open" 0 TLT n p; sell "sim-delist" d TLT (- n) last] zero_time zero_time in
  rp_events r = [] ∧ lookup_d [] (rp_short r) (CompositeFigi TLT) = [mkGlot (day 0) (q n) (q p)].
Proof.
  intros Hn. cbn zeta. assert (Hlt : qc_ltb (qc_of_Z 0) (qc_of_Z n) = true).
  { apply qc_ltb_true. unfold Qclt. rewrite !this_of_Z. unfold QArith_base.Qlt. cbn. lia. }
  assert (Hneg : qc_ltb (qc_of_Z 0) (qc_of_Z (- n)) = false) by (apply qc_ltb_false, qc_of_Z_le; lia).
  unfold replayGainEvents. cbn [fold_left]. unfold replay_one. rewrite !inRange_open. cbn [t_Type sell].
  rewrite (replay_sell_short (sell "open" 0 TLT n p)) by done. rewrite replay_sell_short by done.
  cbn [rp_events rp_short]. split; [done|]. unfold open_lot. cbn [t_Qty sell]. xcbn. by rewrite Hneg, Hlt.
Qed.
