(* ===== verification/Account.v ===== *)
(** * Account: valuation, margin and the daily mark ([portfolio/account.go],
    [portfolio/margin.go], [portfolio/margin_option.go],
    [portfolio/substitution.go], [portfolio/excursion.go])

    An [Account] is a ledger together with the latest prices, the margin
    settings, the substitutions of the tax middleware, the pending orders and
    groups, and the equity history.  Sums over the holdings visit them in the
    order [range] gives. *)
From Stdlib Require Import ZArith.
From stdpp Require Import base list gmap strings.
From S2P Require Import Prelude Num GoTime Asset Period Frame Broker Lots Ledger.

(** [portfolio/tax_aware.go] *)
Record Substitution : Type := mkSub {
  s_Original : Asset;
  s_Substitute : Asset;
  s_Until : Time;
}.

(** [ExitTarget] and [OrderGroupSpec] of [portfolio/order.go] and
    [portfolio/batch.go]; an entry index of -1 marks a standalone OCO. *)
Record ExitTarget (F : Type) : Type := mkExit { x_AbsolutePrice : F; x_PercentOffset : F }.
Arguments mkExit {F}.
Arguments x_AbsolutePrice {F}.
Arguments x_PercentOffset {F}.

Record OrderGroupSpec (F : Type) : Type := mkSpec {
  gs_GroupID : string;
  gs_Type : GroupType;
  gs_EntryIndex : Z;
  gs_StopLoss : ExitTarget F;
  gs_TakeProfit : ExitTarget F;
}.
Arguments mkSpec {F}.
Arguments gs_GroupID {F}.
Arguments gs_Type {F}.
Arguments gs_EntryIndex {F}.
Arguments gs_StopLoss {F}.
Arguments gs_TakeProfit {F}.

Record Annotation : Type := mkAnnotation {
  an_Timestamp : Time;
  an_Key : string;
  an_Value : string;
  an_BatchID : Z;
}.

(** The configuration set by options and setters; zero means the default. *)
Record MarginSettings (F : Type) : Type := mkMargin {
  initialMargin : F;
  maintenanceMargin : F;
  maxLeverage : F;
  grossMaintenanceLeverage : F;
  borrowRate : F;
}.
Arguments mkMargin {F}.
Arguments initialMargin {F}.
Arguments maintenanceMargin {F}.
Arguments maxLeverage {F}.
Arguments grossMaintenanceLeverage {F}.
Arguments borrowRate {F}.

(** The daily history: [perfData], [positionMV], [positionQty]. *)
Record History (F : Type) : Type := mkHistory {
  perfData : option (DataFrame F);
  positionMV : gmap Asset (list F);
  positionQty : gmap Asset (list F);
  benchmark : Asset;
  riskFreeValue : F;
}.
Arguments mkHistory {F}.
Arguments perfData {F}.
Arguments positionMV {F}.
Arguments positionQty {F}.
Arguments benchmark {F}.
Arguments riskFreeValue {F}.

(** The order-tracking maps of the account. *)
Record OrderBook (F : Type) : Type := mkBook {
  pendingOrders : gmap string (Order F);
  pendingGroups : gmap string OrderGroup;
  deferredExits : gmap string (OrderGroupSpec F);
}.
Arguments mkBook {F}.
Arguments pendingOrders {F}.
Arguments pendingGroups {F}.
Arguments deferredExits {F}.

Record Account (F : Type) : Type := mkAccount {
  ledger : Ledger F;
  prices : option (DataFrame F);
  substitutions : gmap Asset Substitution;
  margin : MarginSettings F;
  history : History F;
  book : OrderBook F;
  annotations : list Annotation;
  batches : list (Z * Time);
}.
Arguments mkAccount {F}.
Arguments ledger {F}.
Arguments prices {F}.
Arguments substitutions {F}.
Arguments margin {F}.
Arguments history {F}.
Arguments book {F}.
Arguments annotations {F}.
Arguments batches {F}.

Section Account.
Context {F : Type} `{Num F} {tz : TZDB} {go : GoMapOrder}.
Local Open Scope num_scope.
Implicit Types (a : Account F) (ast : Asset).

Definition set_ledger (x : Ledger F) a : Account F :=
  mkAccount x (prices a) (substitutions a) (margin a) (history a) (book a) (annotations a) (batches a).
Definition set_prices (x : option (DataFrame F)) a : Account F :=
  mkAccount (ledger a) x (substitutions a) (margin a) (history a) (book a) (annotations a) (batches a).
Definition set_substitutions (x : gmap Asset Substitution) a : Account F :=
  mkAccount (ledger a) (prices a) x (margin a) (history a) (book a) (annotations a) (batches a).
Definition set_margin (x : MarginSettings F) a : Account F :=
  mkAccount (ledger a) (prices a) (substitutions a) x (history a) (book a) (annotations a) (batches a).
Definition set_history (x : History F) a : Account F :=
  mkAccount (ledger a) (prices a) (substitutions a) (margin a) x (book a) (annotations a) (batches a).
Definition set_book (x : OrderBook F) a : Account F :=
  mkAccount (ledger a) (prices a) (substitutions a) (margin a) (history a) x (annotations a) (batches a).
Definition set_annotations (x : list Annotation) a : Account F :=
  mkAccount (ledger a) (prices a) (substitutions a) (margin a) (history a) (book a) x (batches a).
Definition set_batches (x : list (Z * Time)) a : Account F :=
  mkAccount (ledger a) (prices a) (substitutions a) (margin a) (history a) (book a) (annotations a) x.

Definition no_margin : MarginSettings F := mkMargin 0 0 0 0 0.
Definition empty_history : History F := mkHistory None ∅ ∅ zero_asset 0.
Definition empty_book : OrderBook F := mkBook ∅ ∅ ∅.

(** [New] with no option. *)
Definition new_account : Account F :=
  mkAccount empty_ledger None ∅ no_margin empty_history empty_book [] [].

(** [SetPrices] *)
Definition SetPrices (df : DataFrame F) a : Account F := set_prices (Some df) a.

(** ** Substitutions *)
Fixpoint mapToLogical_in (subs : list (Asset * Substitution)) (realAsset : Asset) (asOf : Time) : Asset :=
  match subs with
  | [] => realAsset
  | (_, sub) :: rest =>
      if bool_decide (s_Substitute sub = realAsset) && Before asOf (s_Until sub)
      then s_Original sub else mapToLogical_in rest realAsset asOf
  end.
Definition mapToLogical (realAsset : Asset) (subs : gmap Asset Substitution) (asOf : Time) : Asset :=
  mapToLogical_in (range subs) realAsset asOf.

Definition RegisterSubstitution (original substitute : Asset) (until : Time) a : Account F :=
  set_substitutions (<[original := mkSub original substitute until]> (substitutions a)) a.
Definition ActiveSubstitutions a : gmap Asset Substitution := substitutions a.

(** ** Queries *)
Definition Cash a : F := cash (ledger a).
Definition Position a ast : F := position (ledger a) ast.

Definition close_of (df : DataFrame F) ast : F := Value df ast MetricClose.

(** [for ast, qty := range a.holdings { ... total += ... }] over the priced
    holdings that [keep_if] selects. *)
Definition add_priced (df : DataFrame F) (keep_if : F → bool) (worth : F → F → F)
    (total : F) (h : Asset * F) : F :=
  let '(ast, qty) := h in
  if keep_if qty then
    let price := close_of df ast in
    if is_nan price then total else total + worth qty price
  else total.

Definition market_sum (keep_if : F → bool) (worth : F → F → F) (start : F) a : F :=
  match prices a with
  | None => start
  | Some df => fold_left (add_priced df keep_if worth) (range (holdings (ledger a))) start
  end.

Definition account_Value a : F := market_sum (λ _, true) (λ qty v, qty * v) (Cash a) a.
Definition ShortMarketValue a : F := market_sum (λ qty, qty <? 0) (λ qty p, fabs qty * p) 0 a.
Definition LongMarketValue a : F := market_sum (λ qty, qty >? 0) (λ qty p, qty * p) 0 a.

Definition PositionValue a ast : F :=
  let qty := Position a ast in
  match prices a with
  | None => 0
  | Some df =>
      if qty =? 0 then 0
      else let v := close_of df ast in if is_nan v then 0 else qty * v
  end.

Definition Holdings a : gmap Asset F :=
  if decide (substitutions a = ∅) then holdings (ledger a)
  else
    let asOf := match prices a with Some df => End df | None => zero_time end in
    fold_left (λ logical h,
      let key := mapToLogical h.1 (substitutions a) asOf in
      <[key := lookup_d 0 logical key + h.2]> logical) (range (holdings (ledger a))) ∅.

(** ** Margin *)
Definition Equity a : F := Cash a + LongMarketValue a - ShortMarketValue a.

Definition MarginRatio a : F :=
  let smv := ShortMarketValue a in
  if smv =? 0 then fnan else Equity a / smv.

Definition defaultInitialMarginRate : F := lit 1 2.
Definition defaultMaintenanceMarginRate : F := lit 3 10.
Definition defaultMaxLeverage : F := of_Z 2.
Definition defaultGrossMaintenanceLeverage : F := of_Z 4.

Definition or_default (x d : F) : F := if x >? 0 then x else d.
Definition MaxLeverage a : F := or_default (maxLeverage (margin a)) defaultMaxLeverage.
Definition GrossMaintenanceLeverage a : F :=
  or_default (grossMaintenanceLeverage (margin a)) defaultGrossMaintenanceLeverage.
Definition initialMarginRate a : F := or_default (initialMargin (margin a)) defaultInitialMarginRate.
Definition maintenanceMarginRate a : F :=
  or_default (maintenanceMargin (margin a)) defaultMaintenanceMarginRate.
Definition BorrowRate a : F := or_default (borrowRate (margin a)) (lit 5 1000).

Definition shortDeficit (equity smv rate : F) : F :=
  if (smv >? 0) && (rate >? 0) then
    let needed := smv - equity / rate in
    if needed >? 0 then needed else 0
  else 0.

Definition leverageDeficit (equity gross maintLev : F) : F :=
  if (maintLev >? 0) && (gross >? 0) then
    if equity <=? 0 then gross
    else if gross / equity >? maintLev then gross - maintLev * equity else 0
  else 0.

Definition MarginDeficiency a : F :=
  let equity := Equity a in
  let smv := ShortMarketValue a in
  let short_def := shortDeficit equity smv (maintenanceMarginRate a) in
  let gross := LongMarketValue a + smv in
  let lev_def := leverageDeficit equity gross (GrossMaintenanceLeverage a) in
  if short_def >? lev_def then short_def else lev_def.

Definition GrossLeverage a : F :=
  let gross := LongMarketValue a + ShortMarketValue a in
  if gross =? 0 then 0
  else let equity := Equity a in if equity <=? 0 then fnan else gross / equity.

Definition LeverageHeadroom a : F :=
  let equity := Equity a in
  let gross := LongMarketValue a + ShortMarketValue a in
  MaxLeverage a * equity - gross.

Definition BuyingPower a : F := Cash a - ShortMarketValue a * initialMarginRate a.

(** *** Options and setters *)
Definition with_maxLeverage (x : F) (m : MarginSettings F) : MarginSettings F :=
  mkMargin (initialMargin m) (maintenanceMargin m) x (grossMaintenanceLeverage m) (borrowRate m).
Definition with_grossMaintenance (x : F) (m : MarginSettings F) : MarginSettings F :=
  mkMargin (initialMargin m) (maintenanceMargin m) (maxLeverage m) x (borrowRate m).

Definition SetMaxLeverage (ratio : F) a : Account F :=
  if ratio >? 0 then set_margin (with_maxLeverage ratio (margin a)) a else a.
Definition HasMaxLeverage a : bool := maxLeverage (margin a) >? 0.
Definition SetGrossMaintenanceLeverage (ratio : F) a : Account F :=
  if ratio >? 0 then set_margin (with_grossMaintenance ratio (margin a)) a else a.
Definition HasGrossMaintenanceLeverage a : bool := grossMaintenanceLeverage (margin a) >? 0.

Record RegT : Type := mkRegT { Initial : F; Maintenance : F }.
Definition WithMarginModel (model : RegT) a : Account F :=
  let a := if Initial model >? 0
           then set_margin (with_maxLeverage (1 / Initial model) (margin a)) a else a in
  if Maintenance model >? 0
  then set_margin (with_grossMaintenance (1 / Maintenance model) (margin a)) a else a.

(** ** Excursions: running extremes of the daily high and low *)
Definition bump_excursion (df : DataFrame F) ast (r : ExcursionRecord F) : ExcursionRecord F :=
  let highPrice := Value df ast MetricHigh in
  let lowPrice := Value df ast MetricLow in
  let high := if negb (is_nan highPrice) && (highPrice >? e_High r) then highPrice else e_High r in
  let low := if negb (is_nan lowPrice) && (lowPrice <? e_Low r) then lowPrice else e_Low r in
  mkExcursion (e_Entry r) high low.

Definition UpdateExcursions (df : DataFrame F) a : Account F :=
  let ex := fold_left (λ m kv, alter (bump_excursion df kv.1) kv.1 m)
              (range (excursions (ledger a))) (excursions (ledger a)) in
  set_ledger (with_excursions ex (ledger a)) a.

(** ** The daily mark *)
Definition portfolioAsset : Asset := mk_asset "_PORTFOLIO_" "_PORTFOLIO_".
Definition cashSentinel : Asset := mk_asset "" "$CASH".
Definition PortfolioEquity : Metric := "PortfolioEquity"%string.
Definition PortfolioBenchmark : Metric := "PortfolioBenchmark"%string.
Definition PortfolioRiskFree : Metric := "PortfolioRiskFree"%string.

Definition set_position_rows (mv qty : gmap Asset (list F)) (h : History F) : History F :=
  mkHistory (perfData h) mv qty (benchmark h) (riskFreeValue h).

(** The padding of both slices is driven by the length of the first. *)
Definition appendPositionRow ast (mv qty : F) (targetLen : nat) (h : History F) : History F :=
  let mvs := lookup_d [] (positionMV h) ast in
  let qtys := lookup_d [] (positionQty h) ast in
  let pad := replicate (targetLen - 1 - length mvs) fnan in
  set_position_rows (<[ast := mvs ++ pad ++ [mv]]> (positionMV h))
    (<[ast := qtys ++ pad ++ [qty]]> (positionQty h)) h.

(** The last known price of a holding without a close. *)
Definition carried_mv (h : History F) ast (qty : F) : option F :=
  match last (lookup_d [] (positionMV h) ast), last (lookup_d [] (positionQty h) ast) with
  | Some lastMV, Some lastQty =>
      if is_nan lastMV then None
      else if lastQty >? 0 then Some (qty * (lastMV / lastQty)) else None
  | _, _ => None
  end.

Definition mark_one (df : DataFrame F) (h : History F) (acc : F * list (Asset * F)) (hold : Asset * F) :
    F * list (Asset * F) :=
  let '(total, steps) := acc in
  let '(ast, qty) := hold in
  let price := close_of df ast in
  if is_nan price then
    match carried_mv h ast qty with
    | Some mv => (total + mv, steps ++ [(ast, mv)])
    | None => (total, steps ++ [(ast, fnan)])
    end
  else (total + qty * price, steps ++ [(ast, qty * price)]).

Definition mark_holdings (df : DataFrame F) a : F * list (Asset * F) :=
  fold_left (mark_one df (history a)) (range (holdings (ledger a))) (Cash a, []).

Definition benchmark_value (df : DataFrame F) (h : History F) : F :=
  if decide (benchmark h = zero_asset) then 0
  else let bv := Value df (benchmark h) AdjClose in
       if is_nan bv || (bv =? 0) then Value df (benchmark h) MetricClose else bv.

Definition append_perf (df : DataFrame F) (row : list F) (h : History F) : result (DataFrame F) :=
  match perfData h with
  | None => NewDataFrame [End df] [portfolioAsset]
              [PortfolioEquity; PortfolioBenchmark; PortfolioRiskFree] Daily ((λ x, [x]) <$> row)
  | Some perf => AppendRow perf (End df) row
  end.

Definition set_perf (perf : DataFrame F) (h : History F) : History F :=
  mkHistory (Some perf) (positionMV h) (positionQty h) (benchmark h) (riskFreeValue h).

(** The rows of assets tracked before and no longer held. *)
Definition close_row (L : Ledger F) (histLen : nat) (h : History F) ast : History F :=
  if decide (ast = cashSentinel) then h
  else if decide (is_Some (holdings L !! ast)) then h
  else
    match last (lookup_d [] (positionQty h) ast) with
    | Some lastQty =>
        if lastQty >? 0 then appendPositionRow ast 0 0 histLen h
        else appendPositionRow ast fnan fnan histLen h
    | None => appendPositionRow ast fnan fnan histLen h
    end.

Definition UpdatePrices (df : DataFrame F) a : Account F :=
  if (Len df =? 0)%nat then a
  else
    let a := set_prices (Some df) a in
    let '(total, stepMV) := mark_holdings df a in
    let h := history a in
    let benchVal := benchmark_value df h in
    let rfVal := riskFreeValue h in
    match append_perf df [total; benchVal; rfVal] h with
    | Err _ => a
    | Ok perf =>
        let histLen := Len perf in
        let h := set_perf perf h in
        let h := fold_left (λ h s, appendPositionRow s.1 s.2 (Position a s.1) histLen h) stepMV h in
        let h := fold_left (λ h kv, close_row (ledger a) histLen h kv.1) (range (positionMV h)) h in
        let h := appendPositionRow cashSentinel (Cash a) (Cash a) histLen h in
        set_history h a
    end.

(** ** Annotations: last write wins *)
Fixpoint annotate_in (l : list Annotation) (n : Annotation) : list Annotation :=
  match l with
  | [] => [n]
  | x :: rest =>
      if Equal (an_Timestamp x) (an_Timestamp n) && bool_decide (an_Key x = an_Key n)
      then mkAnnotation (an_Timestamp x) (an_Key x) (an_Value n) (an_BatchID n) :: rest
      else x :: annotate_in rest n
  end.
Definition Annotate (timestamp : Time) (key value : string) (batchID : Z) a : Account F :=
  set_annotations (annotate_in (annotations a) (mkAnnotation timestamp key value batchID)) a.
End Account.
Arguments RegT : clear implicits.
