(* ===== verification/Batch.v ===== *)
(** * Batch: accumulating the orders of one frame ([portfolio/batch.go],
    [portfolio/order.go], [portfolio/allocation.go])

    A batch reads the portfolio through the read-only interface [Portfolio] and
    projects what its pending orders would do to holdings, cash and value.  The
    interface is the record [PortfolioView]; [view] is the account behind it. *)
From Stdlib Require Import ZArith.
From stdpp Require Import base list gmap strings pretty.
From S2P Require Import Prelude Num GoTime Asset Period Frame Broker Lots Ledger Account.

(** The methods of [Portfolio] (and [TaxAware]) a batch calls. *)
Record PortfolioView (F : Type) : Type := mkView {
  v_Cash : F;
  v_Holdings : gmap Asset F;
  v_Position : Asset → F;
  v_PositionValue : Asset → F;
  v_Prices : option (DataFrame F);
  v_Substitutions : gmap Asset Substitution;
  v_LongMarketValue : F;
  v_ShortMarketValue : F;
  v_Equity : F;
}.
Arguments mkView {F}.
Arguments v_Cash {F}.
Arguments v_Holdings {F}.
Arguments v_Position {F}.
Arguments v_PositionValue {F}.
Arguments v_Prices {F}.
Arguments v_Substitutions {F}.
Arguments v_LongMarketValue {F}.
Arguments v_ShortMarketValue {F}.
Arguments v_Equity {F}.

Record OrderOutcome (F : Type) : Type := mkOutcome {
  oc_Order : Order F;
  oc_Filled : bool;
  oc_Qty : F;
  oc_Price : F;
  oc_Err : option error;
}.
Arguments mkOutcome {F}.
Arguments oc_Order {F}.
Arguments oc_Filled {F}.
Arguments oc_Qty {F}.
Arguments oc_Price {F}.
Arguments oc_Err {F}.

Record Batch (F : Type) : Type := mkBatch {
  b_Timestamp : Time;
  b_Orders : list (Order F);
  b_Annotations : gmap string string;
  b_Outcomes : list (OrderOutcome F);
  b_batchID : Z;
  b_executed : nat;
  b_executedGroups : nat;
  b_SkipMiddleware : bool;
  b_groups : list (OrderGroupSpec F);
}.
Arguments mkBatch {F}.
Arguments b_Timestamp {F}.
Arguments b_Orders {F}.
Arguments b_Annotations {F}.
Arguments b_Outcomes {F}.
Arguments b_batchID {F}.
Arguments b_executed {F}.
Arguments b_executedGroups {F}.
Arguments b_SkipMiddleware {F}.
Arguments b_groups {F}.

Record OCOLeg (F : Type) : Type := mkLeg { leg_OrderType : OrderType; leg_Price : F }.
Arguments mkLeg {F}.
Arguments leg_OrderType {F}.
Arguments leg_Price {F}.

Inductive OrderModifier (F : Type) : Type :=
  | LimitMod (price : F)
  | StopMod (price : F)
  | DayOrder
  | GoodTilCancel
  | FillOrKill
  | ImmediateOrCancel
  | OnTheOpen
  | OnTheClose
  | GoodTilDate (d : Time)
  | WithJustification (reason : string)
  | WithLotSelection (method : Z)
  | WithBracket (stopLoss takeProfit : ExitTarget F)
  | OCO (legA legB : OCOLeg F).
Arguments LimitMod {F}.
Arguments StopMod {F}.
Arguments DayOrder {F}.
Arguments GoodTilCancel {F}.
Arguments FillOrKill {F}.
Arguments ImmediateOrCancel {F}.
Arguments OnTheOpen {F}.
Arguments OnTheClose {F}.
Arguments GoodTilDate {F}.
Arguments WithJustification {F}.
Arguments WithLotSelection {F}.
Arguments WithBracket {F}.
Arguments OCO {F}.

Record Allocation (F : Type) : Type := mkAlloc {
  al_Date : Time;
  al_Members : gmap Asset F;
  al_Justification : string;
}.
Arguments mkAlloc {F}.
Arguments al_Date {F}.
Arguments al_Members {F}.
Arguments al_Justification {F}.

Section Batch.
Context {F : Type} `{Num F} {tz : TZDB} {go : GoMapOrder}.
Local Open Scope num_scope.
Implicit Types (b : Batch F) (p : PortfolioView F) (ast : Asset) (order : Order F).

Definition view (a : Account F) : PortfolioView F :=
  mkView (Cash a) (Holdings a) (Position a) (PositionValue a) (prices a) (ActiveSubstitutions a)
    (LongMarketValue a) (ShortMarketValue a) (Equity a).

Definition NewBatch (timestamp : Time) : Batch F :=
  mkBatch timestamp [] ∅ [] 0 0 0 false [].

Definition set_Orders (x : list (Order F)) b : Batch F :=
  mkBatch (b_Timestamp b) x (b_Annotations b) (b_Outcomes b) (b_batchID b) (b_executed b)
    (b_executedGroups b) (b_SkipMiddleware b) (b_groups b).
Definition set_Outcomes (x : list (OrderOutcome F)) b : Batch F :=
  mkBatch (b_Timestamp b) (b_Orders b) (b_Annotations b) x (b_batchID b) (b_executed b)
    (b_executedGroups b) (b_SkipMiddleware b) (b_groups b).
Definition set_batchID (x : Z) b : Batch F :=
  mkBatch (b_Timestamp b) (b_Orders b) (b_Annotations b) (b_Outcomes b) x (b_executed b)
    (b_executedGroups b) (b_SkipMiddleware b) (b_groups b).
Definition set_executed (n ng : nat) b : Batch F :=
  mkBatch (b_Timestamp b) (b_Orders b) (b_Annotations b) (b_Outcomes b) (b_batchID b) n
    ng (b_SkipMiddleware b) (b_groups b).
Definition set_SkipMiddleware (x : bool) b : Batch F :=
  mkBatch (b_Timestamp b) (b_Orders b) (b_Annotations b) (b_Outcomes b) (b_batchID b) (b_executed b)
    (b_executedGroups b) x (b_groups b).
Definition set_groups (x : list (OrderGroupSpec F)) b : Batch F :=
  mkBatch (b_Timestamp b) (b_Orders b) (b_Annotations b) (b_Outcomes b) (b_batchID b) (b_executed b)
    (b_executedGroups b) (b_SkipMiddleware b) x.

Definition add_orders (os : list (Order F)) b : Batch F := set_Orders (b_Orders b ++ os) b.

(** [Batch.Annotate] *)
Definition batch_Annotate (key value : string) b : Batch F :=
  mkBatch (b_Timestamp b) (b_Orders b) (<[key := value]> (b_Annotations b)) (b_Outcomes b)
    (b_batchID b) (b_executed b) (b_executedGroups b) (b_SkipMiddleware b) (b_groups b).

Definition FailedOrders b : list (OrderOutcome F) := keep (λ o, negb (oc_Filled o)) (b_Outcomes b).
Definition unexecutedOrders b : list (Order F) := drop (b_executed b) (b_Orders b).

(** ** Exit targets and legs *)
Definition StopLossPrice (price : F) : ExitTarget F := mkExit price 0.
Definition StopLossPercent (pct : F) : ExitTarget F := mkExit 0 (- pct / of_Z 100).
Definition TakeProfitPrice (price : F) : ExitTarget F := mkExit price 0.
Definition TakeProfitPercent (pct : F) : ExitTarget F := mkExit 0 (pct / of_Z 100).
Definition StopLeg (price : F) : OCOLeg F := mkLeg Stop price.
Definition LimitLeg (price : F) : OCOLeg F := mkLeg Limit price.

(** ** Modifiers *)
Record ModState : Type := mkMods {
  ms_order : Order F;
  ms_hasLimit : bool;
  ms_hasStop : bool;
  ms_bracket : option (ExitTarget F * ExitTarget F);
  ms_oco : option (OCOLeg F * OCOLeg F);
}.

Definition apply_modifier (s : ModState) (m : OrderModifier F) : ModState :=
  let with_order o := mkMods o (ms_hasLimit s) (ms_hasStop s) (ms_bracket s) (ms_oco s) in
  let order := ms_order s in
  match m with
  | LimitMod price => mkMods (set_LimitPrice price order) true (ms_hasStop s) (ms_bracket s) (ms_oco s)
  | StopMod price => mkMods (set_StopPrice price order) (ms_hasLimit s) true (ms_bracket s) (ms_oco s)
  | DayOrder => with_order (set_TIF Day_ order)
  | GoodTilCancel => with_order (set_TIF GTC order)
  | FillOrKill => with_order (set_TIF FOK order)
  | ImmediateOrCancel => with_order (set_TIF IOC order)
  | OnTheOpen => with_order (set_TIF OnOpen order)
  | OnTheClose => with_order (set_TIF OnClose order)
  | GoodTilDate d => with_order (set_GTDDate d (set_TIF GTD order))
  | WithJustification reason => with_order (set_Justification reason order)
  | WithLotSelection method => with_order (set_LotSelection method order)
  | WithBracket sl tp => mkMods order (ms_hasLimit s) (ms_hasStop s) (Some (sl, tp)) (ms_oco s)
  | OCO legA legB => mkMods order (ms_hasLimit s) (ms_hasStop s) (ms_bracket s) (Some (legA, legB))
  end.

(** The order with its type inferred from the prices set, and the bracket and
    OCO modifiers seen last. *)
Definition applyOrderModifiers order (mods : list (OrderModifier F)) :
    Order F * option (ExitTarget F * ExitTarget F) * option (OCOLeg F * OCOLeg F) :=
  let s := fold_left apply_modifier mods (mkMods order false false None None) in
  let order := ms_order s in
  let order := if ms_hasLimit s && ms_hasStop s then set_OrderType StopLimit order
               else if ms_hasLimit s then set_OrderType Limit order
               else if ms_hasStop s then set_OrderType Stop order
               else order in
  (order, ms_bracket s, ms_oco s).

(** ** Orders *)
Definition group_id (prefix : string) b : string :=
  (prefix +:+ pretty (UnixNano (b_Timestamp b)) +:+ "-" +:+ pretty (length (b_groups b)))%string.

(** One leg: a stop leg sets the stop price, any other type the limit price. *)
Definition oco_leg order (groupID : string) (qty : F) (role : GroupRole) (leg : OCOLeg F) : Order F :=
  let o := base_order (o_Asset order) (o_Side order) qty 0 (leg_OrderType leg)
             (o_TimeInForce order) "" in
  let o := set_GTDDate (o_GTDDate order) (set_Group groupID role o) in
  if decide (leg_OrderType leg = Stop) then set_StopPrice (leg_Price leg) o
  else set_LimitPrice (leg_Price leg) o.

Definition no_exit : ExitTarget F := mkExit 0 0.

Definition batch_Order ast (side : Side) (qty : F) (mods : list (OrderModifier F)) b : Batch F :=
  let order := base_order ast side qty 0 Market Day_ "" in
  let '(order, bracket, oco) := applyOrderModifiers order mods in
  match oco with
  | Some (legA, legB) =>
      let groupID := group_id "oco-" b in
      let legAOrder := oco_leg order groupID qty RoleStopLoss legA in
      let legBOrder := oco_leg order groupID qty RoleTakeProfit legB in
      set_groups (b_groups b ++ [mkSpec groupID GroupOCO (-1) no_exit no_exit])
        (add_orders [legAOrder; legBOrder] b)
  | None =>
      match bracket with
      | Some (sl, tp) =>
          let groupID := group_id "bracket-" b in
          let entryIndex := Z.of_nat (length (b_Orders b)) in
          set_groups (b_groups b ++ [mkSpec groupID GroupBracket entryIndex sl tp])
            (add_orders [set_Group groupID RoleEntry order] b)
      | None => add_orders [order] b
      end
  end.

(** ** Projections *)
Definition priceOf p ast : F :=
  let qty := v_Position p ast in
  if qty !=? 0 then v_PositionValue p ast / qty
  else
    match v_Prices p with
    | None => 0
    | Some df => let v := Value df ast MetricClose in if is_nan v then 0 else v
    end.

(** [map[k] += x; if map[k] == 0 { delete }] *)
Definition bump_holding (m : gmap Asset F) ast (x : F → F) : gmap Asset F :=
  let v := x (lookup_d 0 m ast) in
  if v =? 0 then delete ast m else <[ast := v]> m.

Definition projected_qty p order : F :=
  let price := priceOf p (o_Asset order) in
  if o_Qty order !=? 0 then o_Qty order
  else if (price >? 0) && (o_Amount order >? 0) then ffloor (o_Amount order / price)
  else 0.

Definition project_order b p (m : gmap Asset F) order : gmap Asset F :=
  let qty := projected_qty p order in
  let subs := v_Substitutions p in
  let orderAsset := if decide (subs = ∅) then o_Asset order
                    else mapToLogical (o_Asset order) subs (b_Timestamp b) in
  match o_Side order with
  | Buy => bump_holding m orderAsset (λ h, h + qty)
  | Sell => bump_holding m orderAsset (λ h, h - qty)
  end.

Definition ProjectedHoldings b p : gmap Asset F :=
  fold_left (project_order b p) (unexecutedOrders b) (v_Holdings p).

Definition order_dollars p order : F :=
  let price := priceOf p (o_Asset order) in
  if o_Amount order >? 0 then o_Amount order
  else if (o_Qty order !=? 0) && (price >? 0) then o_Qty order * price
  else 0.

Definition project_cash p (cash : F) order : F :=
  match o_Side order with
  | Buy => cash - order_dollars p order
  | Sell => cash + order_dollars p order
  end.

Definition projectedCash b p : F := fold_left (project_cash p) (unexecutedOrders b) (v_Cash p).

Definition dollar_flow ast (flow : F) order : F :=
  if bool_decide (o_Asset order ≠ ast) || (o_Amount order <=? 0) then flow
  else match o_Side order with
       | Buy => flow + o_Amount order
       | Sell => flow - o_Amount order
       end.
Definition pendingDollarFlow b ast : F := fold_left (dollar_flow ast) (unexecutedOrders b) 0.

Definition unpriced_step b p (acc : gset Asset * F) order : gset Asset * F :=
  let '(seen, total) := acc in
  let ast := o_Asset order in
  if decide (ast ∈ seen) then acc
  else if priceOf p ast >? 0 then ({[ast]} ∪ seen, total)
  else ({[ast]} ∪ seen, total + pendingDollarFlow b ast).
Definition pendingUnpricedValue b p : F :=
  (fold_left (unpriced_step b p) (unexecutedOrders b) (∅, 0)).2.

Definition ProjectedValue b p : F :=
  let total := fold_left (λ total h,
    let price := priceOf p h.1 in
    if price >? 0 then total + h.2 * price else total)
    (range (ProjectedHoldings b p)) (projectedCash b p) in
  total + pendingUnpricedValue b p.

Definition projectedPositionValue b p ast : F :=
  let price := priceOf p ast in
  if price <=? 0 then pendingDollarFlow b ast
  else lookup_d 0 (ProjectedHoldings b p) ast * price.

Definition ProjectedWeights b p : gmap Asset F :=
  let total := ProjectedValue b p in
  if total =? 0 then ∅
  else fold_left (λ weights h,
    let price := priceOf p h.1 in
    if price >? 0 then <[h.1 := (h.2 * price) / total]> weights else weights)
    (range (ProjectedHoldings b p)) ∅.

(** ** Sizing operations *)
Definition no_groups (r : Order F * option (ExitTarget F * ExitTarget F) * option (OCOLeg F * OCOLeg F)) :
    option (Order F) :=
  match r with (order, None, None) => Some order | _ => None end.

Definition Allocate ast (weight : F) (mods : list (OrderModifier F)) b p : result (Batch F) :=
  let targetDollars := weight * ProjectedValue b p in
  let diff := targetDollars - projectedPositionValue b p ast in
  if diff =? 0 then Ok b
  else
    let side := if diff <? 0 then Sell else Buy in
    let order := base_order ast side 0 (fabs diff) Market Day_ "" in
    match no_groups (applyOrderModifiers order mods) with
    | Some order => Ok (add_orders [order] b)
    | None => Err "portfolio: Allocate does not support bracket or OCO modifiers"
    end.

Definition Liquidate ast (mods : list (OrderModifier F)) b p : result (Batch F) :=
  let qty := lookup_d 0 (ProjectedHoldings b p) ast in
  if qty =? 0 then Ok b
  else
    let side := if qty <? 0 then Buy else Sell in
    let order := base_order ast side (fabs qty) 0 Market Day_ "" in
    match no_groups (applyOrderModifiers order mods) with
    | Some order => Ok (add_orders [order] b)
    | None => Err "portfolio: Liquidate does not support bracket or OCO modifiers"
    end.

(** [RebalanceTo] for one allocation *)
Definition rebalance_order (j : string) ast (side : Side) (qty amount : F) : Order F :=
  base_order ast side qty amount Market Day_ j.

Definition strip_cash (members : gmap Asset F) : gmap Asset F :=
  foldr (λ kv m, if decide (Ticker kv.1 = "$CASH"%string) then delete kv.1 m else m)
    members (map_to_list members).

(** Positions absent from the target: sells of longs, covers of shorts. *)
Definition liquidations (members : gmap Asset F) (hs : list (Asset * F)) :
    list (Asset * F) * list (Asset * F) :=
  fold_left (λ acc h,
    let '(sells, covers) := acc in
    let '(ast, qty) := h in
    match members !! ast with
    | Some _ => acc
    | None => if qty =? 0 then acc
              else if qty >? 0 then (sells ++ [(ast, qty)], covers)
              else (sells, covers ++ [(ast, fabs qty)])
    end) hs ([], []).

(** Target minus current dollars of the members, in range order. *)
Definition member_diffs b p (members : gmap Asset F) (value : F) : list (Asset * F) :=
  (λ m : Asset * F, (m.1, m.2 * value - projectedPositionValue b p m.1)) <$> range members.

Definition rebalance_one (alloc : Allocation F) b p : Batch F :=
  let members := strip_cash (al_Members alloc) in
  let j := al_Justification alloc in
  let totalValue := ProjectedValue b p in
  let '(sells, covers) := liquidations members (range (ProjectedHoldings b p)) in
  let overweight := keep (λ d, d.2 <? 0) (member_diffs b p members totalValue) in
  let sell_orders :=
    ((λ s : Asset * F, rebalance_order j s.1 Sell s.2 0) <$> sells) ++
    ((λ d : Asset * F, rebalance_order j d.1 Sell 0 (- d.2)) <$> overweight) in
  let cover_orders := (λ c : Asset * F, rebalance_order j c.1 Buy c.2 0) <$> covers in
  let b := add_orders (sell_orders ++ cover_orders) b in
  let postSellValue := ProjectedValue b p in
  let underweight := keep (λ d, d.2 >? 0) (member_diffs b p members postSellValue) in
  add_orders ((λ d : Asset * F, rebalance_order j d.1 Buy 0 d.2) <$> underweight) b.

Definition RebalanceTo (allocs : list (Allocation F)) b p : Batch F :=
  fold_left (λ b alloc, rebalance_one alloc b p) allocs b.
End Batch.
