(* ===== verification/Exec.v ===== *)
(** * Exec: submitting a batch and draining its fills ([portfolio/account.go])

    [ExecuteBatch], [drainFillsFromChannel], [cancelOCOSiblings],
    [submitBracketExits], [CancelOpenOrders] and the direct [Order] path,
    against an abstract broker.  The class [Broker] states the operations the
    account calls; [BrokerLaws] what it promises of its fill queue: receiving
    takes the oldest fill, and cancelling delivers none.

    The last part holds the direct orders of an account. *)
From Stdlib Require Import ZArith Lia.
From stdpp Require Import base list gmap strings pretty.
From S2P Require Import Prelude Num GoTime Asset Period Frame FrameOps Broker Lots Ledger Account Batch.
(** The broker as the account sees it.  [SubmitGroup] is absent when the
    broker does not implement [GroupSubmitter]; [recv] is the non-blocking
    receive on the fill channel. *)
Class Broker (B F : Type) : Type := {
  bk_Submit : PortfolioView F → Order F → B → B * option error;
  bk_SubmitGroup : option (PortfolioView F → list (Order F) → GroupType → B → B * option error);
  bk_Cancel : string → B → B * option error;
  bk_queue : B → list (Fill F);
  bk_recv : B → option (Fill F * B);
}.

Class BrokerLaws (B F : Type) `{Broker B F} : Prop := {
  recv_none : ∀ b : B, bk_queue (F := F) b = [] → bk_recv (F := F) b = None;
  recv_some : ∀ (b : B) f q, bk_queue (F := F) b = f :: q →
    ∃ b', bk_recv b = Some (f, b') ∧ bk_queue b' = q;
  cancel_queue : ∀ (b : B) id, bk_queue (F := F) (bk_Cancel (F := F) id b).1 = bk_queue b;
}.

Record deferredExitInfo (F : Type) : Type := mkExitInfo {
  ei_groupID : string;
  ei_spec : OrderGroupSpec F;
  ei_entrySide : Side;
  ei_fillPrice : F;
  ei_asset : Asset;
  ei_qty : F;
  ei_batchID : Z;
}.
Arguments mkExitInfo {F}.
Arguments ei_groupID {F}.
Arguments ei_spec {F}.
Arguments ei_entrySide {F}.
Arguments ei_fillPrice {F}.
Arguments ei_asset {F}.
Arguments ei_qty {F}.
Arguments ei_batchID {F}.

(** The account with its broker, and the batch being executed, if any. *)
Record ExecState (B F : Type) : Type := mkExec {
  es_account : Account F;
  es_broker : B;
  es_batch : option (Batch F);
  es_batchID : Z;
}.
Arguments mkExec {B F}.
Arguments es_account {B F}.
Arguments es_broker {B F}.
Arguments es_batch {B F}.
Arguments es_batchID {B F}.

(** A middleware may change the batch and, through the portfolio, the account;
    it may also fail. *)
Definition Middleware (F : Type) : Type :=
  Account F → Batch F → Account F * Batch F * option error.

Section Exec.
Context {F : Type} `{Num F} {tz : TZDB} {fx : FmtFloat F} {go : GoMapOrder}.
Context {B : Type} `{!Broker B F}.
Local Open Scope num_scope.
Implicit Types (s : ExecState B F) (a : Account F) (order : Order F) (fill : Fill F).

Definition put_account a s : ExecState B F := mkExec a (es_broker s) (es_batch s) (es_batchID s).
Definition put_broker (k : B) s : ExecState B F := mkExec (es_account s) k (es_batch s) (es_batchID s).
Definition put_batch (b : option (Batch F)) (id : Z) s : ExecState B F :=
  mkExec (es_account s) (es_broker s) b id.

Definition on_book (f : OrderBook F → OrderBook F) s : ExecState B F :=
  put_account (set_book (f (book (es_account s))) (es_account s)) s.
Definition map_orders (f : gmap string (Order F) → gmap string (Order F)) (k : OrderBook F) :=
  mkBook (f (pendingOrders k)) (pendingGroups k) (deferredExits k).
Definition map_groups (f : gmap string OrderGroup → gmap string OrderGroup) (k : OrderBook F) :=
  mkBook (pendingOrders k) (f (pendingGroups k)) (deferredExits k).
Definition map_exits (f : gmap string (OrderGroupSpec F) → gmap string (OrderGroupSpec F)) (k : OrderBook F) :=
  mkBook (pendingOrders k) (pendingGroups k) (f (deferredExits k)).

Definition submit order s : ExecState B F * option error :=
  let '(k, e) := bk_Submit (view (es_account s)) order (es_broker s) in (put_broker k s, e).
Definition has_groups : bool := match bk_SubmitGroup with Some _ => true | None => false end.
Definition cancel (id : string) s : ExecState B F * option error :=
  let '(k, e) := bk_Cancel (F := F) id (es_broker s) in (put_broker k s, e).

(** Orders in turn; the first error stops. *)
Fixpoint submit_all (orders : list (Order F)) s : ExecState B F * option error :=
  match orders with
  | [] => (s, None)
  | o :: rest => let '(s, e) := submit o s in
                 match e with
                 | None => submit_all rest s
                 | Some e => (s, Some ("execute batch: submit " +:+ Ticker (o_Asset o) +:+ ": " +:+ e)%string)
                 end
  end.

(** ** Draining fills *)
Definition resolveExitPrice (fillPrice : F) (target : ExitTarget F) : F :=
  if x_AbsolutePrice target !=? 0 then x_AbsolutePrice target
  else fillPrice * (1 + x_PercentOffset target).

Definition cancel_sibling s (siblingID : string) : ExecState B F :=
  let s := if has_groups then s else (cancel siblingID s).1 in
  on_book (map_orders (delete siblingID)) s.

Definition cancelOCOSiblings (groupID filledOrderID : string) s : ExecState B F :=
  match pendingGroups (book (es_account s)) !! groupID with
  | None => s
  | Some group =>
      let siblings := keep (λ id, bool_decide (id ≠ filledOrderID)) (g_OrderIDs group) in
      on_book (map_groups (delete groupID)) (fold_left cancel_sibling siblings s)
  end.

Definition exit_order (info : deferredExitInfo F) (suffix : string) (ot : OrderType) (stop limit : F)
    (role : GroupRole) : Order F :=
  let gid := (ei_groupID info +:+ "-exits")%string in
  let exitSide := match ei_entrySide info with Buy => Sell | Sell => Buy end in
  mkOrder (gid +:+ suffix)%string (ei_asset info) exitSide OrderOpen (ei_qty info) 0 ot GTC
    limit stop zero_time "" 0 gid role (ei_batchID info).

Definition submit_quiet s order : ExecState B F := (submit order s).1.

Definition submitBracketExits s (info : deferredExitInfo F) : ExecState B F :=
  let gid := (ei_groupID info +:+ "-exits")%string in
  let stopPrice := resolveExitPrice (ei_fillPrice info) (gs_StopLoss (ei_spec info)) in
  let tpPrice := resolveExitPrice (ei_fillPrice info) (gs_TakeProfit (ei_spec info)) in
  let sl := exit_order info "-sl" Stop stopPrice 0 RoleStopLoss in
  let tp := exit_order info "-tp" Limit 0 tpPrice RoleTakeProfit in
  let s := on_book (map_orders (λ m, <[o_ID tp := tp]> (<[o_ID sl := sl]> m))) s in
  let s := on_book (map_groups (insert gid (mkGroup gid GroupOCO [o_ID sl; o_ID tp]))) s in
  let s := match bk_SubmitGroup with
           | Some sg => put_broker (sg (view (es_account s)) [sl; tp] GroupOCO (es_broker s)).1 s
           | None => fold_left submit_quiet [sl; tp] s
           end in
  on_book (map_groups (delete (ei_groupID info))) s.

(** The transaction a fill records. *)
Definition fill_transaction order fill : Transaction F :=
  let '(txType, amount) :=
    match o_Side order with
    | Buy => (BuyTransaction, - (f_Price fill * f_Qty fill))
    | Sell => (SellTransaction, f_Price fill * f_Qty fill)
    end in
  mkTxn "" (f_FilledAt fill) (o_Asset order) txType (f_Qty fill) (f_Price fill) amount false
    (o_Justification order) (lot_selection_of_int (o_LotSelection order)) (o_BatchID order).

Definition record_outcome order fill s : ExecState B F :=
  match es_batch s with
  | Some b =>
      if (o_BatchID order =? es_batchID s)%Z then
        put_batch (Some (set_Outcomes (b_Outcomes b ++
          [mkOutcome order (bool_decide (f_Err fill = None)) (f_Qty fill) (f_Price fill) (f_Err fill)]) b))
          (es_batchID s) s
      else s
  | None => s
  end.

Definition settle_order order fill s : ExecState B F :=
  if o_Qty order - f_Qty fill >? lit 1 1000000000 then
    on_book (map_orders (insert (f_OrderID fill) (set_Qty (o_Qty order - f_Qty fill) order))) s
  else on_book (map_orders (delete (f_OrderID fill))) s.

(** Group handling of a filled order: the exits to submit afterwards. *)
Definition settle_group order fill s : ExecState B F * list (deferredExitInfo F) :=
  if decide (o_GroupID order = EmptyString) then (s, [])
  else
    match o_GroupRole order with
    | RoleEntry =>
        match deferredExits (book (es_account s)) !! o_GroupID order with
        | Some spec =>
            (on_book (map_exits (delete (o_GroupID order))) s,
             [mkExitInfo (o_GroupID order) spec (o_Side order) (f_Price fill) (o_Asset order)
                (f_Qty fill) (o_BatchID order)])
        | None => (s, [])
        end
    | RoleStopLoss | RoleTakeProfit => (cancelOCOSiblings (o_GroupID order) (f_OrderID fill) s, [])
    | NoRole => (s, [])
    end.

Definition handle_fill fill s : ExecState B F * list (deferredExitInfo F) :=
  match pendingOrders (book (es_account s)) !! f_OrderID fill with
  | None => (s, [])
  | Some order =>
      let s := record_outcome order fill s in
      match f_Err fill with
      | Some _ => (on_book (map_orders (delete (f_OrderID fill))) s, [])
      | None =>
          let a := es_account s in
          let s := put_account (set_ledger (Record_ (fill_transaction order fill) (ledger a)) a) s in
          settle_group order fill (settle_order order fill s)
      end
  end.

(** Phase 1, until the channel is empty; the fuel is the length of the queue. *)
Fixpoint drain_loop (fuel : nat) s (exits : list (deferredExitInfo F)) :
    ExecState B F * list (deferredExitInfo F) :=
  match fuel with
  | O => (s, exits)
  | S fuel =>
      match bk_recv (es_broker s) with
      | None => (s, exits)
      | Some (fill, k) =>
          let '(s, new) := handle_fill fill (put_broker k s) in
          drain_loop fuel s (exits ++ new)
      end
  end.

Definition drainFills s : ExecState B F :=
  let '(s, exits) := drain_loop (length (bk_queue (F := F) (es_broker s))) s [] in
  fold_left submitBracketExits exits s.

(** ** Executing a batch *)
Fixpoint run_middleware (mws : list (Middleware F)) a (b : Batch F) : Account F * Batch F * option error :=
  match mws with
  | [] => (a, b, None)
  | mw :: rest =>
      match mw a b with
      | (a, b, Some e) => (a, b, Some e)
      | (a, b, None) => run_middleware rest a b
      end
  end.

Definition order_id (b : Batch F) (idx : nat) : string :=
  ("batch-" +:+ pretty (UnixNano (b_Timestamp b)) +:+ "-" +:+ pretty idx)%string.

(** IDs and the batch ID, from index [idx] on. *)
Fixpoint assign_ids (b : Batch F) (batchID : Z) (idx : nat) (os : list (Order F)) : list (Order F) :=
  match os with
  | [] => []
  | o :: rest =>
      let o := if decide (o_ID o = EmptyString) then set_ID (order_id b idx) o else o in
      set_BatchID batchID o :: assign_ids b batchID (S idx) rest
  end.

Definition track_orders (os : list (Order F)) (m : gmap string (Order F)) : gmap string (Order F) :=
  fold_left (λ m o, <[o_ID o := o]> m) os m.

Definition orders_of_group (gid : string) (os : list (Order F)) : list (Order F) :=
  if decide (gid = EmptyString) then [] else keep (λ o, bool_decide (o_GroupID o = gid)) os.

Definition defer_exits (specs : list (OrderGroupSpec F)) (m : gmap string (OrderGroupSpec F)) :=
  fold_left (λ m (g : OrderGroupSpec F), match gs_Type g with
                   | GroupBracket => <[gs_GroupID g := g]> m
                   | GroupOCO => m
                   end) specs m.

Definition register_group (g : OrderGroup) s : ExecState B F :=
  on_book (map_groups (insert (g_ID g) g)) s.

Definition submit_group (all news : list (Order F)) (spec : OrderGroupSpec F) s :
    ExecState B F * option error :=
  let orders := orders_of_group (gs_GroupID spec) news in
  match gs_Type spec with
  | GroupOCO =>
      let group := mkGroup (gs_GroupID spec) GroupOCO (o_ID <$> orders) in
      match bk_SubmitGroup with
      | Some sg =>
          let '(k, e) := sg (view (es_account s)) orders GroupOCO (es_broker s) in
          let s := put_broker k s in
          match e with
          | Some e => (s, Some ("execute batch: submit group " +:+ gs_GroupID spec +:+ ": " +:+ e)%string)
          | None => (register_group group s, None)
          end
      | None =>
          let '(s, e) := submit_all orders s in
          match e with
          | Some e => (s, Some e)
          | None => (register_group group s, None)
          end
      end
  | GroupBracket =>
      if (0 <=? gs_EntryIndex spec)%Z then
        match all !! Z.to_nat (gs_EntryIndex spec) with
        | Some entry =>
            let '(s, e) := submit entry s in
            match e with
            | Some e => (s, Some ("execute batch: submit " +:+ Ticker (o_Asset entry) +:+ ": " +:+ e)%string)
            | None => (register_group (mkGroup (gs_GroupID spec) GroupBracket [o_ID entry]) s, None)
            end
        | None => (s, None)
        end
      else (s, None)
  end.

Fixpoint submit_groups (all news : list (Order F)) (specs : list (OrderGroupSpec F)) s :
    ExecState B F * option error :=
  match specs with
  | [] => (s, None)
  | spec :: rest =>
      let '(s, e) := submit_group all news spec s in
      match e with
      | Some e => (s, Some e)
      | None => submit_groups all news rest s
      end
  end.

(** Orders no submitted group has handled. *)
Definition ungrouped (specs : list (OrderGroupSpec F)) (os : list (Order F)) : list (Order F) :=
  keep (λ o, negb (bool_decide (o_GroupID o ≠ EmptyString ∧ o_GroupID o ∈ gs_GroupID <$> specs))) os.

Definition annotate_all (b : Batch F) (batchID : Z) a : Account F :=
  fold_left (λ a kv, Annotate (b_Timestamp b) kv.1 kv.2 batchID a) (range (b_Annotations b)) a.

(** Steps 4 to 9: the new orders and groups of a batch that passed the
    middleware. *)
Definition submit_batch (b : Batch F) s : ExecState B F * option error :=
  let batchID := b_batchID b in
  let news := assign_ids b batchID (b_executed b) (drop (b_executed b) (b_Orders b)) in
  let all := take (b_executed b) (b_Orders b) ++ news in
  let b := set_Orders all b in
  let specs := drop (b_executedGroups b) (b_groups b) in
  let s := on_book (map_orders (track_orders news)) s in
  let s := on_book (map_exits (defer_exits specs)) s in
  let s := put_batch (Some b) batchID s in
  let '(s, e) := submit_groups all news specs s in
  match e with
  | Some e => (s, Some e)
  | None =>
      let '(s, e) := submit_all (ungrouped specs news) s in
      match e with
      | Some e => (s, Some e)
      | None =>
          let s := put_batch (Some (set_executed (length all) (length (b_groups b)) b)) batchID s in
          (drainFills s, None)
      end
  end.

(** The result is the account with its broker, the batch, and the error.  The
    current batch is cleared on every return. *)
Definition ExecuteBatch (mws : list (Middleware F)) a (k : B) (b : Batch F) :
    Account F * B * Batch F * option error :=
  let fresh := (b_batchID b =? 0)%Z in
  let batchID := if fresh then Z.of_nat (length (batches a) + 1) else b_batchID b in
  let a := if fresh then set_batches (batches a ++ [(batchID, b_Timestamp b)]) a else a in
  let b := set_batchID batchID b in
  let first := (b_executed b =? 0)%nat in
  let '(a, b, e) :=
    if first && negb (b_SkipMiddleware b) then run_middleware mws a b else (a, b, None) in
  match e with
  | Some e => (a, k, b, Some e)
  | None =>
      let a := if first then annotate_all b batchID a else a in
      let '(s, e) := submit_batch b (mkExec a k (Some b) batchID) in
      (es_account s, es_broker s, default b (es_batch s), e)
  end.

(** ** Direct orders and cancellation *)
Definition submitAndRecord ast order (justification : string) s : ExecState B F * option error :=
  let order := if decide (o_ID order = EmptyString)
               then set_ID ("order-" +:+ CompositeFigi ast +:+ "-" +:+
                            pretty (length (transactions (ledger (es_account s)))))%string order
               else order in
  let order := set_Justification justification order in
  let s := on_book (map_orders (insert (o_ID order) order)) s in
  let '(s, e) := submit order s in
  match e with
  | Some e => (on_book (map_orders (delete (o_ID order))) s,
               Some ("order " +:+ Ticker ast +:+ ": " +:+ e)%string)
  | None => (drainFills s, None)
  end.

Definition is_exit_leg order : bool :=
  match o_GroupRole order with RoleStopLoss | RoleTakeProfit => true | _ => false end.

Definition cancel_step (acc : ExecState B F * OrderBook F) (kv : string * Order F) :
    ExecState B F * OrderBook F :=
  let '(s, kept) := acc in
  let '(orderID, order) := kv in
  if is_exit_leg order then
    let kept := map_orders (insert orderID order) kept in
    if decide (o_GroupID order = EmptyString) then (s, kept)
    else match pendingGroups (book (es_account s)) !! o_GroupID order with
         | Some g => (s, map_groups (insert (o_GroupID order) g) kept)
         | None => (s, kept)
         end
  else ((cancel orderID s).1, kept).

Definition CancelOpenOrders s : ExecState B F :=
  let '(s, kept) := fold_left cancel_step (range (pendingOrders (book (es_account s))))
                      (s, mkBook ∅ ∅ ∅) in
  on_book (λ _, kept) s.
End Exec.

(** * Orders placed on the account itself ([portfolio/account.go])

    [Account.Order] and [Account.RebalanceTo], the paths that submit each order
    on its own instead of through a batch, and [Account.Clone].  Values of the
    model are immutable, so a clone is the account rebuilt from the fields the
    source copies; the daily history is copied by [DataFrame.Copy]. *)
Section Direct.
Context {F : Type} `{Num F} {tz : TZDB} {fx : FmtFloat F} {go : GoMapOrder}.
Context {B : Type} `{!Broker B F}.
Local Open Scope num_scope.
Implicit Types (s : ExecState B F) (a : Account F) (ast : Asset).

(** One order; a bracket or an OCO pair is refused before anything is sent. *)
Definition account_Order ast (side : Side) (qty : F) (mods : list (OrderModifier F)) s : ExecState B F * option error :=
  let '(order, bracket, oco) := applyOrderModifiers (base_order ast side qty 0 Market Day_ "") mods in
  match bracket, oco with
  | None, None => submitAndRecord ast order (o_Justification order) s
  | _, _ => (s, Some "bracket/OCO modifiers require batch submission"%string)
  end.

(** Orders in turn; the first that fails stops the rebalance. *)
Fixpoint place_all (what justification : string) (orders : list (Order F)) s : ExecState B F * option error :=
  match orders with
  | [] => (s, None)
  | order :: rest =>
      let '(s, e) := submitAndRecord (o_Asset order) order justification s in
      match e with
      | Some e => (s, Some ("RebalanceTo: " +:+ what +:+ " " +:+ Ticker (o_Asset order) +:+ ": " +:+ e)%string)
      | None => place_all what justification rest s
      end
  end.

(** Target minus current dollars of the members, in range order. *)
Definition account_diffs a (members : gmap Asset F) (value : F) : list (Asset * F) :=
  (λ m : Asset * F, (m.1, m.2 * value - PositionValue a m.1)) <$> range members.

Definition market_order ast (side : Side) (qty amount : F) : Order F := base_order ast side qty amount Market Day_ "".

(** The sells of one allocation: positions outside the target by quantity,
    overweight members by dollars; and the covers of shorts outside it. *)
Definition target_sells a (members : gmap Asset F) : list (Order F) * list (Order F) :=
  let '(sells, covers) := liquidations members (range (holdings (ledger a))) in
  let overweight := keep (λ d, d.2 <? 0) (account_diffs a members (account_Value a)) in
  (((λ p : Asset * F, market_order p.1 Sell p.2 0) <$> sells)
     ++ ((λ d : Asset * F, market_order d.1 Sell 0 (- d.2)) <$> overweight),
   (λ p : Asset * F, market_order p.1 Buy p.2 0) <$> covers).
(** The buys, sized by the value after the sells. *)
Definition target_buys a (members : gmap Asset F) : list (Order F) :=
  (λ d : Asset * F, market_order d.1 Buy 0 d.2) <$> keep (λ d, d.2 >? 0) (account_diffs a members (account_Value a)).

Definition account_rebalance_one (alloc : Allocation F) s : ExecState B F * option error :=
  let members := strip_cash (al_Members alloc) in
  let j := al_Justification alloc in
  let '(sells, covers) := target_sells (es_account s) members in
  let '(s, e) := place_all "sell" j sells s in
  match e with
  | Some e => (s, Some e)
  | None =>
      let '(s, e) := place_all "cover" j covers s in
      match e with
      | Some e => (s, Some e)
      | None => place_all "buy" j (target_buys (es_account s) members) s
      end
  end.
Fixpoint account_RebalanceTo (allocs : list (Allocation F)) s : ExecState B F * option error :=
  match allocs with
  | [] => (s, None)
  | alloc :: rest =>
      let '(s, e) := account_rebalance_one alloc s in
      match e with
      | Some e => (s, Some e)
      | None => account_RebalanceTo rest s
      end
  end.

(** ** Clones *)
Definition clone_ledger (L : Ledger F) : Ledger F :=
  mkLedger (cash L) (holdings L) (transactions L) (taxLots L) (shortLots L) (recentLossSales L) (recentBuys L)
    (washSales L) (lotSelection L) (excursions L) (tradeDetails L) (seenTransactions L).
Definition Clone a : Account F :=
  mkAccount (clone_ledger (ledger a)) (prices a) (substitutions a) (margin a)
    (mkHistory (frame_Copy <$> perfData (history a)) (positionMV (history a)) (positionQty (history a))
       (benchmark (history a)) (riskFreeValue (history a)))
    (mkBook (pendingOrders (book a)) (pendingGroups (book a)) (deferredExits (book a)))
    (annotations a) (batches a).
End Direct.
