(* ===== verification/SimBroker.v ===== *)
(** * SimBroker: the simulated broker ([engine/simulated_broker.go])

    The broker of a backtest: orders fill when submitted, at the price the fill
    pipeline gives, after the margin and leverage checks; the two exit legs of
    a bracket wait for the bar that triggers them; partially filled orders are
    retried on the next bar; and housekeeping reports dividends, splits, borrow
    fees and delistings.  The engine behind the price provider is a function,
    and the fill channel is a buffer with a capacity. *)
From Stdlib Require Import ZArith Lia.
From stdpp Require Import base list gmap strings pretty.
From S2P Require Import Prelude Num GoTime Asset Period Frame Broker Lots Ledger Account Batch Exec.

(** What fetching prices can fail with: [ErrNoMinuteBar], or anything else. *)
Inductive PriceError : Type := NoMinuteBar (e : error) | FetchError (e : error).
Definition PriceProvider (F : Type) : Type := list Asset → DataFrame F + PriceError.

(** ** The fill channel *)
Record Chan (A : Type) : Type := mkChan { ch_buf : list A; ch_cap : nat }.
Arguments mkChan {A}.
Arguments ch_buf {A}.
Arguments ch_cap {A}.

Section Chan.
Context {A : Type}.
Implicit Types (c : Chan A).

(** A non-blocking send, and a non-blocking receive. *)
Definition try_send (x : A) c : option (Chan A) :=
  if (length (ch_buf c) <? ch_cap c)%nat then Some (mkChan (ch_buf c ++ [x]) (ch_cap c)) else None.
Definition try_recv c : option (A * Chan A) :=
  match ch_buf c with
  | [] => None
  | x :: rest => Some (x, mkChan rest (ch_cap c))
  end.

(** Moves every queued element to the other channel.  A send to a full channel
    would block forever: [None]. *)
Fixpoint move_all (fuel : nat) c (grown : Chan A) : option (Chan A) :=
  match try_recv c with
  | None => Some grown
  | Some (x, c') =>
      match fuel with
      | O => None
      | S fuel => match try_send x grown with
                  | Some grown => move_all fuel c' grown
                  | None => None
                  end
      end
  end.

(** [deliverFill]: [None] stands for the deadlock of a blocking send. *)
Definition deliver (x : A) c : option (Chan A) :=
  match try_send x c with
  | Some c => Some c
  | None =>
      let grown := mkChan [] (2 * ch_cap c + 1) in
      match move_all (length (ch_buf c)) c grown with
      | Some grown => try_send x grown
      | None => None
      end
  end.
End Chan.

Definition fillChannelSize : nat := 1024.

Record partialRemainder (F : Type) : Type := mkRemainder { pr_order : Order F; pr_bars : Z }.
Arguments mkRemainder {F}.
Arguments pr_order {F}.
Arguments pr_bars {F}.

Record SimulatedBroker (F : Type) : Type := mkSim {
  sb_prices : option (PriceProvider F);
  sb_date : Time;
  sb_fills : Chan (Fill F);
  sb_pending : gmap string (Order F);
  sb_groups : gmap string (list string);
  sb_hasPortfolio : bool;
  sb_initialMarginRate : F;
  sb_maxLeverage : F;
  sb_borrowRate : F;
  sb_lastPrices : gmap Asset F;
  sb_pipeline : Pipeline F;
  sb_remainders : gmap string (partialRemainder F);
}.
Arguments mkSim {F}.
Arguments sb_prices {F}.
Arguments sb_date {F}.
Arguments sb_fills {F}.
Arguments sb_pending {F}.
Arguments sb_groups {F}.
Arguments sb_hasPortfolio {F}.
Arguments sb_initialMarginRate {F}.
Arguments sb_maxLeverage {F}.
Arguments sb_borrowRate {F}.
Arguments sb_lastPrices {F}.
Arguments sb_pipeline {F}.
Arguments sb_remainders {F}.

Section Sim.
Context {F : Type} `{Num F} {tz : TZDB} {go : GoMapOrder}.
Local Open Scope num_scope.
Implicit Types (s : SimulatedBroker F) (order : Order F) (p : PortfolioView F).

Definition NewSimulatedBroker : SimulatedBroker F :=
  mkSim None zero_time (mkChan [] fillChannelSize) ∅ ∅ false 0 0 0 ∅
    (NewPipeline FillAtClose []) ∅.

Definition sim_prices (x : option (PriceProvider F)) (d : Time) s : SimulatedBroker F :=
  mkSim x d (sb_fills s) (sb_pending s) (sb_groups s) (sb_hasPortfolio s) (sb_initialMarginRate s)
    (sb_maxLeverage s) (sb_borrowRate s) (sb_lastPrices s) (sb_pipeline s) (sb_remainders s).
Definition sim_fills (x : Chan (Fill F)) s : SimulatedBroker F :=
  mkSim (sb_prices s) (sb_date s) x (sb_pending s) (sb_groups s) (sb_hasPortfolio s)
    (sb_initialMarginRate s) (sb_maxLeverage s) (sb_borrowRate s) (sb_lastPrices s) (sb_pipeline s)
    (sb_remainders s).
Definition sim_pending (x : gmap string (Order F)) (g : gmap string (list string)) s : SimulatedBroker F :=
  mkSim (sb_prices s) (sb_date s) (sb_fills s) x g (sb_hasPortfolio s) (sb_initialMarginRate s)
    (sb_maxLeverage s) (sb_borrowRate s) (sb_lastPrices s) (sb_pipeline s) (sb_remainders s).
Definition sim_remainders (x : gmap string (partialRemainder F)) s : SimulatedBroker F :=
  mkSim (sb_prices s) (sb_date s) (sb_fills s) (sb_pending s) (sb_groups s) (sb_hasPortfolio s)
    (sb_initialMarginRate s) (sb_maxLeverage s) (sb_borrowRate s) (sb_lastPrices s) (sb_pipeline s) x.
Definition sim_lastPrices (x : gmap Asset F) s : SimulatedBroker F :=
  mkSim (sb_prices s) (sb_date s) (sb_fills s) (sb_pending s) (sb_groups s) (sb_hasPortfolio s)
    (sb_initialMarginRate s) (sb_maxLeverage s) (sb_borrowRate s) x (sb_pipeline s) (sb_remainders s).
Definition sim_settings (hasPortfolio : bool) (rate lev borrow : F) (pp : Pipeline F) s : SimulatedBroker F :=
  mkSim (sb_prices s) (sb_date s) (sb_fills s) (sb_pending s) (sb_groups s) hasPortfolio rate
    lev borrow (sb_lastPrices s) pp (sb_remainders s).

Definition SetPriceProvider (pp : PriceProvider F) (d : Time) s : SimulatedBroker F :=
  sim_prices (Some pp) d s.
Definition SetPortfolio s : SimulatedBroker F :=
  sim_settings true (sb_initialMarginRate s) (sb_maxLeverage s) (sb_borrowRate s) (sb_pipeline s) s.
Definition SetInitialMarginRate (rate : F) s : SimulatedBroker F :=
  sim_settings (sb_hasPortfolio s) rate (sb_maxLeverage s) (sb_borrowRate s) (sb_pipeline s) s.
Definition SetBorrowRate (rate : F) s : SimulatedBroker F :=
  sim_settings (sb_hasPortfolio s) (sb_initialMarginRate s) (sb_maxLeverage s) rate (sb_pipeline s) s.
Definition SimSetMaxLeverage (ratio : F) s : SimulatedBroker F :=
  sim_settings (sb_hasPortfolio s) (sb_initialMarginRate s) ratio (sb_borrowRate s) (sb_pipeline s) s.
Definition SetFillPipeline (pp : Pipeline F) s : SimulatedBroker F :=
  sim_settings (sb_hasPortfolio s) (sb_initialMarginRate s) (sb_maxLeverage s) (sb_borrowRate s) pp s.

(** A delivery that would deadlock leaves the broker as it is; no delivery
    does. *)
Definition deliverFill (fill : Fill F) s : SimulatedBroker F :=
  match deliver fill (sb_fills s) with
  | Some c => sim_fills c s
  | None => s
  end.

Definition failOrder order (reason : error) s : SimulatedBroker F :=
  deliverFill (mkFill (o_ID order) 0 0 (sb_date s) (Some reason)) s.

(** ** Submit *)
Definition fmax (x y : F) : F :=
  if is_nan x then x else if is_nan y then y else if y <? x then x else y.

Definition signed_delta order (qty : F) : F :=
  match o_Side order with Sell => - qty | Buy => qty end.

(** The position before and after the fill, and the market values it gives. *)
Record MarginCheck : Type := mkCheck {
  mc_postQty : F;
  mc_newShortValue : F;
  mc_preGross : F;
  mc_postGross : F;
}.

Definition margin_check p order (r : FillResult F) : MarginCheck :=
  let currentPos := v_Position p (o_Asset order) in
  let postQty := currentPos + signed_delta order (fr_Quantity r) in
  let preLong := fmax currentPos 0 in
  let preShort := fmax (- currentPos) 0 in
  let postLong := fmax postQty 0 in
  let postShort := fmax (- postQty) 0 in
  let newShortValue := v_ShortMarketValue p + (postShort - preShort) * fr_Price r in
  let preLongValue := v_LongMarketValue p in
  let preGross := preLongValue + v_ShortMarketValue p in
  let newLongValue := preLongValue + (postLong - preLong) * fr_Price r in
  mkCheck postQty newShortValue preGross (newLongValue + newShortValue).

Definition short_breach s p order (c : MarginCheck) : bool :=
  bool_decide (o_Side order = Sell) && (mc_postQty c <? 0) && (mc_newShortValue c >? 0) &&
  (let rate := if sb_initialMarginRate s =? 0 then lit 1 2 else sb_initialMarginRate s in
   v_Equity p / mc_newShortValue c <? rate).

Definition leverage_breach s p (c : MarginCheck) : bool :=
  (sb_maxLeverage s >? 0) && (mc_postGross c >? mc_preGross c) &&
  ((v_Equity p <=? 0) || (mc_postGross c / v_Equity p >? sb_maxLeverage s)).

Definition reject_reason s p order (r : FillResult F) : option error :=
  if sb_hasPortfolio s then
    let c := margin_check p order r in
    if short_breach s p order c then
      Some ("order rejected: insufficient margin for " +:+ Ticker (o_Asset order))%string
    else if leverage_breach s p c then
      Some ("order rejected: gross leverage cap for " +:+ Ticker (o_Asset order))%string
    else None
  else None.

Definition queue_exit order s : SimulatedBroker F :=
  let groups := if decide (o_GroupID order = EmptyString) then sb_groups s
                else <[o_GroupID order := lookup_d [] (sb_groups s) (o_GroupID order) ++ [o_ID order]]>
                       (sb_groups s) in
  sim_pending (<[o_ID order := order]> (sb_pending s)) groups s.

Definition queue_remainder order (qty : F) (r : FillResult F) s : SimulatedBroker F :=
  if fr_Partial r then
    let remainderQty := qty - fr_Quantity r in
    if remainderQty >? 0 then
      sim_remainders (<[o_ID order := mkRemainder (set_Amount 0 (set_Qty remainderQty order)) 1]>
                        (sb_remainders s)) s
    else s
  else s.

(** The quantity to fill: the model's, or the shares a dollar amount buys. *)
Definition fill_quantity order (base : FillResult F) : F :=
  if (fr_Quantity base =? 0) && (o_Amount order >? 0)
  then ffloor (o_Amount order / fr_Price base) else fr_Quantity base.

Definition fill_now p order (df : DataFrame F) s : SimulatedBroker F :=
  let ticker := Ticker (o_Asset order) in
  match FillBase (sb_pipeline s) order df with
  | Err e => failOrder order ("fill model error for " +:+ ticker +:+ ": " +:+ e)%string s
  | Ok base =>
      let qty := fill_quantity order base in
      if qty =? 0 then
        failOrder order ("order amount for " +:+ ticker +:+ " is too small to fill a whole share")%string s
      else
        match Adjust (sb_pipeline s) order df (mkFillResult (fr_Price base) (fr_Partial base) qty) with
        | Err e => failOrder order ("fill adjuster error for " +:+ ticker +:+ ": " +:+ e)%string s
        | Ok r =>
            match reject_reason s p order r with
            | Some reason => failOrder order reason s
            | None =>
                queue_remainder order qty r
                  (deliverFill (mkFill (o_ID order) (fr_Price r) (fr_Quantity r) (sb_date s) None) s)
            end
        end
  end.

Definition sim_Submit p order s : SimulatedBroker F * option error :=
  if is_exit_leg order then (queue_exit order s, None)
  else
    match sb_prices s with
    | None => (s, Some "simulated broker: no price provider set"%string)
    | Some fetch =>
        let ticker := Ticker (o_Asset order) in
        match fetch [o_Asset order] with
        | inr (NoMinuteBar e) =>
            (failOrder order ("no price available to fill " +:+ ticker +:+ ": " +:+ e)%string s, None)
        | inr (FetchError e) =>
            (s, Some ("simulated broker: fetching price for " +:+ ticker +:+ ": " +:+ e)%string)
        | inl df => (fill_now p order df s, None)
        end
    end.

Fixpoint sim_SubmitGroup p (orders : list (Order F)) s : SimulatedBroker F * option error :=
  match orders with
  | [] => (s, None)
  | o :: rest => let '(s, e) := sim_Submit p o s in
                 match e with Some e => (s, Some e) | None => sim_SubmitGroup p rest s end
  end.

Definition sim_Cancel (orderID : string) s : SimulatedBroker F * option error :=
  match sb_pending s !! orderID with
  | None => (s, Some ("simulated broker: order " +:+ orderID +:+ " not found")%string)
  | Some order =>
      let pending := delete orderID (sb_pending s) in
      if decide (o_GroupID order = EmptyString) then (sim_pending pending (sb_groups s) s, None)
      else
        let updated := keep (λ id, bool_decide (id ≠ orderID)) (lookup_d [] (sb_groups s) (o_GroupID order)) in
        let groups := match updated with
                      | [] => delete (o_GroupID order) (sb_groups s)
                      | _ => <[o_GroupID order := updated]> (sb_groups s)
                      end in
        (sim_pending pending groups s, None)
  end.

(** ** Exit legs against a bar *)
Definition usable (x : F) : bool := negb (is_nan x) && negb (x =? 0).

(** The extreme of the bar, or the close when it is unavailable. *)
Definition trigger_price (extreme close : F) : F :=
  if is_nan extreme || (extreme =? 0) then close else extreme.

(** A sell leg stops out at or below its stop price and takes profit at or
    above its limit price; a buy leg the other way round. *)
Definition stop_triggered order (high low close : F) : bool :=
  match o_Side order with
  | Sell => let t := trigger_price low close in usable t && (t <=? o_StopPrice order)
  | Buy => let t := trigger_price high close in usable t && (t >=? o_StopPrice order)
  end.
Definition tp_triggered order (high low close : F) : bool :=
  match o_Side order with
  | Sell => let t := trigger_price high close in usable t && (t >=? o_LimitPrice order)
  | Buy => let t := trigger_price low close in usable t && (t <=? o_LimitPrice order)
  end.

(** The last stop-loss and the last take-profit of a group still pending. *)
Definition group_legs s (ids : list string) : option (Order F) * option (Order F) :=
  fold_left (λ acc id,
    match sb_pending s !! id with
    | None => acc
    | Some o => match o_GroupRole o with
                | RoleStopLoss => (Some o, acc.2)
                | RoleTakeProfit => (acc.1, Some o)
                | _ => acc
                end
    end) ids (None, None).

Definition drop_leg (leg : option (Order F)) (m : gmap string (Order F)) : gmap string (Order F) :=
  match leg with Some o => delete (o_ID o) m | None => m end.

(** Which leg of a group the bar fills; the stop wins a tie. *)
Definition winner (df : DataFrame F) (legs : option (Order F) * option (Order F)) : option (Order F * F) :=
  let '(stop, tp) := legs in
  let target := match stop, tp with
                | Some o, _ | None, Some o => o_Asset o
                | None, None => zero_asset
                end in
  let high := Value df target MetricHigh in
  let low := Value df target MetricLow in
  let close := Value df target MetricClose in
  let tp_fill := match tp with
                 | Some t => if tp_triggered t high low close then Some (t, o_LimitPrice t) else None
                 | None => None
                 end in
  match stop with
  | Some o => if stop_triggered o high low close then Some (o, o_StopPrice o) else tp_fill
  | None => tp_fill
  end.

Definition evaluate_group (df : DataFrame F) s (group : string * list string) : SimulatedBroker F :=
  let '(groupID, ids) := group in
  let legs := group_legs s ids in
  match winner df legs with
  | None => s
  | Some (o, price) =>
      let s := deliverFill (mkFill (o_ID o) price (o_Qty o) (sb_date s) None) s in
      sim_pending (drop_leg legs.1 (drop_leg legs.2 (sb_pending s))) (delete groupID (sb_groups s)) s
  end.

(** Assets by CompositeFigi, the last visited of each. *)
Definition assets_by_figi (as_ : list Asset) : list Asset :=
  (range (fold_left (λ (m : gmap string Asset) a, <[CompositeFigi a := a]> m) as_ ∅)).*2.

(** *** Partial remainders *)
Definition expire_remainders (m : gmap string (partialRemainder F)) : gmap string (partialRemainder F) :=
  fold_left (λ m kv, if (2 <=? pr_bars kv.2)%Z then delete kv.1 m else m) (range m) m.

Definition retry_remainder (df : DataFrame F) s (kv : string * partialRemainder F) : SimulatedBroker F :=
  let '(orderID, pr) := kv in
  match pipeline_Fill (sb_pipeline s) (pr_order pr) df with
  | Err _ => s
  | Ok r =>
      let s := if fr_Quantity r >? 0
               then deliverFill (mkFill orderID (fr_Price r) (fr_Quantity r) (sb_date s) None) s else s in
      if negb (fr_Partial r) then sim_remainders (delete orderID (sb_remainders s)) s
      else
        let remainderQty := o_Qty (pr_order pr) - fr_Quantity r in
        if remainderQty >? 0 then
          sim_remainders (<[orderID := mkRemainder (set_Qty remainderQty (pr_order pr)) (pr_bars pr + 1)]>
                            (sb_remainders s)) s
        else sim_remainders (delete orderID (sb_remainders s)) s
  end.

Definition evaluatePartialRemainders s : SimulatedBroker F :=
  match sb_prices s with
  | None => s
  | Some fetch =>
      let s := sim_remainders (expire_remainders (sb_remainders s)) s in
      let prs := range (sb_remainders s) in
      match prs with
      | [] => s
      | _ =>
          match fetch (assets_by_figi ((λ kv : string * partialRemainder F, o_Asset (pr_order kv.2)) <$> prs)) with
          | inr _ => s
          | inl df => fold_left (retry_remainder df) prs s
          end
      end
  end.

Definition EvaluatePending s : SimulatedBroker F :=
  match sb_prices s with
  | None => s
  | Some fetch =>
      match range (sb_pending s) with
      | [] => evaluatePartialRemainders s
      | pend =>
          match fetch (assets_by_figi ((λ kv : string * Order F, o_Asset kv.2) <$> pend)) with
          | inr _ => s
          | inl df => evaluatePartialRemainders (fold_left (evaluate_group df) (range (sb_groups s)) s)
          end
      end
  end.

(** ** Housekeeping transactions *)
Definition pad0 (width : nat) (n : Z) : string :=
  let s := pretty (Z.to_N n) in
  (String.concat "" (replicate (width - String.length s) "0"%string) +:+ s)%string.
Definition format_date (t : Time) : string :=
  (pad0 4 (Year t) +:+ "-" +:+ pad0 2 (Month t) +:+ "-" +:+ pad0 2 (Day t))%string.

Definition sim_id (what : string) ast s : string :=
  ("sim-" +:+ what +:+ "-" +:+ CompositeFigi ast +:+ "-" +:+ format_date (sb_date s))%string.

Definition delist_txn s ast (qty lastPrice : F) : BrokerTxn F :=
  let amount := lastPrice * fabs qty in
  let amount := if qty <? 0 then - amount else amount in
  mkBrokerTxn (sim_id "delist" ast s) (sb_date s) ast SellTransaction qty lastPrice amount
    ("delisted: " +:+ Ticker ast +:+ " liquidated at last known price")%string.

Definition live_txns s (df : DataFrame F) ast (qty closePrice : F) : list (BrokerTxn F) :=
  let splitFactor := ValueAt df ast SplitFactor (sb_date s) in
  let hasSplit := negb (is_nan splitFactor) && negb (splitFactor =? 1) in
  let splits := if hasSplit then
      [mkBrokerTxn (sim_id "split" ast s) (sb_date s) ast SplitTransaction 0 splitFactor 0 ""%string]
    else [] in
  let divPerShare := ValueAt df ast Dividend (sb_date s) in
  let divs := if negb (is_nan divPerShare) && (divPerShare >? 0) then
      let divQty := if hasSplit then qty * splitFactor else qty in
      let j := if qty <? 0 then ("short dividend obligation: " +:+ Ticker ast +:+ " ex-date "
                                 +:+ format_date (sb_date s))%string else ""%string in
      [mkBrokerTxn (sim_id "div" ast s) (sb_date s) ast DividendTransaction divQty divPerShare
         (divPerShare * divQty) j]
    else [] in
  let fees := if (qty <? 0) && (sb_borrowRate s >? 0) && negb (is_nan closePrice) && negb (closePrice =? 0) then
      let dailyFee := fabs qty * closePrice * (sb_borrowRate s / of_Z 252) in
      [mkBrokerTxn (sim_id "fee" ast s) (sb_date s) ast FeeTransaction 0 0 (- dailyFee)
         ("borrow fee: " +:+ Ticker ast +:+ " annualized")%string]
    else [] in
  splits ++ divs ++ fees.

Definition asset_txns p (df : DataFrame F) (acc : SimulatedBroker F * list (BrokerTxn F)) ast :
    SimulatedBroker F * list (BrokerTxn F) :=
  let '(s, txns) := acc in
  let qty := v_Position p ast in
  if qty =? 0 then acc
  else
    let closePrice := ValueAt df ast MetricClose (sb_date s) in
    if is_nan closePrice || (closePrice =? 0) then
      match sb_lastPrices s !! ast with
      | Some lastPrice =>
          if lastPrice >? 0
          then (sim_lastPrices (delete ast (sb_lastPrices s)) s, txns ++ [delist_txn s ast qty lastPrice])
          else acc
      | None => acc
      end
    else (sim_lastPrices (<[ast := closePrice]> (sb_lastPrices s)) s,
          txns ++ live_txns s df ast qty closePrice).

Definition Transactions p s : SimulatedBroker F * result (list (BrokerTxn F)) :=
  match sb_prices s with
  | None => (s, Ok [])
  | Some fetch =>
      if negb (sb_hasPortfolio s) then (s, Ok [])
      else
        match (range (v_Holdings p)).*1 with
        | [] => (s, Ok [])
        | held =>
            match fetch held with
            | inr (NoMinuteBar e) | inr (FetchError e) =>
                (s, Err ("simulated broker: fetching housekeeping prices: " +:+ e)%string)
            | inl df => let '(s, txns) := fold_left (asset_txns p df) held (s, []) in (s, Ok txns)
            end
        end
  end.

#[export] Instance SimulatedBroker_Broker : Broker (SimulatedBroker F) F := {
  bk_Submit := sim_Submit;
  bk_SubmitGroup := Some (λ p orders _ s, sim_SubmitGroup p orders s);
  bk_Cancel := sim_Cancel;
  bk_queue := λ s, ch_buf (sb_fills s);
  bk_recv := λ s, (λ fc, (fc.1, sim_fills fc.2 s)) <$> try_recv (sb_fills s);
}.
End Sim.
