(* ===== verification/Runs.v ===== *)
(** * Runs: an account and the simulated broker on sample bars

    The accounts, bars and daily steps the concrete executions of the
    development share: an account holding SPY, a broker that sees one bar, the
    submission of a batch and the evaluation of the next bar. *)
From Stdlib Require Import ZArith.
From stdpp Require Import base list gmap strings.
From S2P Require Import Prelude Num GoTime Asset Period Frame Broker Lots Ledger Samples.
From S2P Require Import Account Batch Exec SimBroker.

Section Runs.
Local Existing Instance utc_db.
Local Existing Instance blank_fmt.

(** An account holding the given shares of SPY, marked at a close. *)
Definition holding {F} `{Num F} (cash_ : Z) (qty price : Z) : Account F :=
  set_prices (Some (bar 0 [SPY] [MetricClose] [price]))
    (set_ledger (Record_ (buy "b0" 0 SPY qty price) (WithCash (of_Z (cash_ + qty * price)) (day 0) empty_ledger))
       new_account).

(** A simulated broker for the account, seeing one bar. *)
Definition sim_at {F} `{Num F} (d : Z) (df : DataFrame F) (k : SimulatedBroker F) : SimulatedBroker F :=
  SetPriceProvider (λ _, inl df) (day d) k.
Definition sim0 {F} `{Num F} : SimulatedBroker F := SetPortfolio NewSimulatedBroker.

Definition ohlc {F} `{Num F} (d high low close : Z) : DataFrame F :=
  bar d [SPY] [MetricHigh; MetricLow; MetricClose; Volume] [high; low; close; 1000%Z].

(** The next day: pending orders meet the bar, then the account drains. *)
Definition next_day {F} `{Num F} (d : Z) (df : DataFrame F) (ak : Account F * SimulatedBroker F) :
    Account F * SimulatedBroker F :=
  let k := EvaluatePending (sim_at d df ak.2) in
  let s := drainFills (mkExec ak.1 k None 0) in
  (es_account s, es_broker s).

Definition execute {F} `{Num F} (d : Z) (df : DataFrame F) (b : Batch F) (ak : Account F * SimulatedBroker F) :
    Account F * SimulatedBroker F :=
  let '(a, k, _, _) := ExecuteBatch [] ak.1 (sim_at d df ak.2) b in (a, k).
End Runs.
