(* ===== verification/FrameProps.v ===== *)
(** * FrameProps: the column store finds what was stored

    Binary search finds the least index, so on a chronological frame the date
    lookups and the range selections are exact; appending a row keeps the frame
    well formed and reads back; the running maximum of a column. *)
From Stdlib Require Import ZArith Lia Sorted.
From stdpp Require Import base list gmap strings sorting.
From S2P Require Import Prelude Num GoTime Asset Period Frame Samples.
#[local] Set Warnings "-clear-no-such-hyp".

(** ** Binary search *)
Definition upward (n : nat) (p : nat → bool) : Prop :=
  ∀ i j, (i <= j)%nat → (j < n)%nat → p i = true → p j = true.

Lemma search_loop_least p fuel i j :
  (j - i <= fuel)%nat → (i <= j)%nat → upward j p → (∀ k, (k < i)%nat → p k = false) →
  let r := search_loop p fuel i j in
  (i <= r <= j)%nat ∧ (∀ k, (k < r)%nat → p k = false) ∧ ((r < j)%nat → p r = true).
Proof.
  revert i j. induction fuel as [|fuel IH]; intros i j Hf Hij Hup Hlow; cbn [search_loop].
  { cbn zeta. split; [lia|]. split; [done|lia]. }
  destruct (Nat.ltb_spec i j) as [Hlt|Hge]; [|cbn zeta; split; [lia|split; [done|lia]]].
  assert (Hh : (i <= Nat.div2 (i + j) < j)%nat).
  { rewrite Nat.div2_div. split; [apply Nat.div_le_lower_bound; lia|apply Nat.Div0.div_lt_upper_bound; lia]. }
  set (h := Nat.div2 (i + j)) in *. clearbody h. destruct (p h) eqn:Hp.
  - destruct (IH i h) as (Hr & Hl & Hh'); try lia; [|done|].
    { intros x y Hxy Hy. apply Hup; lia. }
    cbn zeta in *. split; [lia|]. split; [done|]. intros _.
    destruct (decide (search_loop p fuel i h < h)%nat); [auto|].
    by replace (search_loop p fuel i h) with h by lia.
  - destruct (IH (S h) j) as (Hr & Hl & Hh'); try lia; [done| |].
    { intros k Hk. destruct (p k) eqn:Hpk; [|done].
      rewrite (Hup k h) in Hp; [done|lia|lia|done]. }
    cbn zeta in *. split; [lia|]. split; [done|]. intros. apply Hh'. lia.
Qed.

Lemma sort_Search_least n p :
  upward n p →
  (sort_Search n p <= n)%nat ∧ (∀ k, (k < sort_Search n p)%nat → p k = false) ∧
  ((sort_Search n p < n)%nat → p (sort_Search n p) = true).
Proof.
  intros Hup. destruct (search_loop_least p n 0 n) as (Hr & Hl & Hh); [lia|lia|done|lia|].
  split; [unfold sort_Search; lia|]. by split.
Qed.

(** The least index of a sorted list whose entry passes an upward-closed test
    splits the list into the entries that fail and those that pass. *)
Definition search_list {A} (q : A → bool) (l : list A) : nat :=
  sort_Search (length l) (λ i, match l !! i with Some x => q x | None => true end).

Section SearchList.
Context {A : Type} (le : A → A → Prop) (q : A → bool).
Context (q_upward : ∀ x y, le x y → q x = true → q y = true).

Lemma sorted_lookup_lt (l : list A) i j x y :
  StronglySorted le l → (i < j)%nat → l !! i = Some x → l !! j = Some y → le x y.
Proof.
  intros Hs. revert i j. induction Hs as [|z l Hs IH Hz]; intros i j Hij Hx Hy; [done|].
  destruct j as [|j]; [lia|]. cbn in Hy. destruct i as [|i]; cbn in Hx.
  - injection Hx as <-. eapply Forall_lookup_1; [exact Hz|exact Hy].
  - apply (IH i j); [lia|done|done].
Qed.

Lemma search_list_spec (l : list A) :
  StronglySorted le l →
  (search_list q l <= length l)%nat ∧
  Forall (λ x, q x = false) (take (search_list q l) l) ∧
  Forall (λ x, q x = true) (drop (search_list q l) l).
Proof.
  intros Hs. unfold search_list. set (p := λ i, match l !! i with Some x => q x | None => true end).
  assert (Hup : upward (length l) p).
  { intros i j Hij Hj. unfold p. destruct (lookup_lt_is_Some_2 l j Hj) as [y Hy].
    destruct (lookup_lt_is_Some_2 l i) as [x Hx]; [lia|]. rewrite Hx, Hy.
    destruct (decide (i = j)) as [->|Hne]; [by simplify_eq|].
    apply q_upward. eapply (sorted_lookup_lt l i j); [done|lia|done|done]. }
  destruct (sort_Search_least _ _ Hup) as (Hle & Hlow & Hhigh).
  set (r := sort_Search (length l) p) in *. clearbody r. split; [done|]. split.
  - apply Forall_lookup. intros i x Hi. apply lookup_take_Some in Hi as [Hi Hlt].
    specialize (Hlow i Hlt). unfold p in Hlow. by rewrite Hi in Hlow.
  - apply Forall_lookup. intros i x Hi. rewrite lookup_drop in Hi.
    pose proof (lookup_lt_Some _ _ _ Hi) as Hlt.
    assert (Hr : p r = true) by (apply Hhigh; lia).
    assert (Hp : p (r + i)%nat = true) by (apply (Hup r); [lia|lia|done]).
    unfold p in Hp. by rewrite Hi in Hp.
Qed.
End SearchList.

(** Looking a key up in a list sorted by it. *)
Section FindKey.
Context {A : Type} (f : A → Z) (q e : A → bool) (k : Z).
Context (q_key : ∀ x, q x = (k <=? f x)%Z) (e_key : ∀ x, e x = (f x =? k)%Z).

Definition find_key (l : list A) : option nat :=
  match l !! search_list q l with
  | Some x => if e x then Some (search_list q l) else None
  | None => None
  end.

Lemma find_key_spec (l : list A) i :
  StronglySorted (λ x y, f x < f y)%Z l →
  find_key l = Some i ↔ ∃ x, l !! i = Some x ∧ f x = k.
Proof.
  intros Hs. unfold find_key.
  destruct (search_list_spec (λ x y, f x < f y)%Z q) with l as (_ & Hlow & Hhigh); [|done|].
  { intros x y Hxy. rewrite !q_key. lia. }
  set (r := search_list q l) in *. clearbody r.
  assert (Hkey : ∀ x y, l !! r = Some x → ∀ j, l !! j = Some y → f y = k → j = r ∧ y = x).
  { intros x y Hx j Hy Hk. destruct (decide (j = r)) as [->|Hne]; [by simplify_eq|]. exfalso.
    destruct (decide (j < r)%nat) as [Hlt|Hge].
    - rewrite Forall_lookup in Hlow. specialize (Hlow j y). rewrite lookup_take_lt in Hlow by done.
      specialize (Hlow Hy). rewrite q_key in Hlow. lia.
    - rewrite Forall_lookup in Hhigh. specialize (Hhigh 0%nat x). rewrite lookup_drop, Nat.add_0_r in Hhigh.
      specialize (Hhigh Hx). rewrite q_key in Hhigh.
      pose proof (sorted_lookup_lt _ l r j x y Hs ltac:(lia) Hx Hy) as Hlt. cbn in Hlt. lia. }
  split.
  - destruct (l !! r) as [x|] eqn:Hx; [|done]. destruct (e x) eqn:He; [|done]. intros [= <-].
    exists x. split; [done|]. rewrite e_key in He. lia.
  - intros (y & Hy & Hk). destruct (l !! r) as [x|] eqn:Hx.
    + destruct (Hkey x y eq_refl i Hy Hk) as [-> ->]. rewrite e_key. by rewrite (proj2 (Z.eqb_eq _ _) Hk).
    + exfalso. apply lookup_ge_None in Hx. pose proof (lookup_lt_Some _ _ _ Hy).
      rewrite take_ge in Hlow by lia. rewrite Forall_lookup in Hlow.
      specialize (Hlow i y Hy). rewrite q_key in Hlow. lia.
Qed.
End FindKey.

(** The entries between two thresholds of a sorted list are a slice of it. *)
Lemma keep_none {A} (P : A → bool) (l : list A) : Forall (λ x, P x = false) l → keep P l = [].
Proof. unfold keep. induction 1 as [|x l Hx _ IH]; cbn; [done|]. by rewrite Hx. Qed.

Lemma slice_keep {A} (P Q : A → bool) (l : list A) i j :
  Forall (λ x, P x = false) (take i l) → Forall (λ x, P x = true) (drop i l) →
  Forall (λ x, Q x = false) (take j l) → Forall (λ x, Q x = true) (drop j l) →
  keep (λ x, P x && negb (Q x)) l = if (j <=? i)%nat then [] else slice i j l.
Proof.
  intros HPt HPd HQt HQd.
  assert (Hd : ∀ n k, Forall (λ x, Q x = true) (drop n l) → (n <= k)%nat → Forall (λ x, Q x = true) (drop k l)).
  { intros n k Hn Hk. replace k with (n + (k - n))%nat by lia. rewrite <-drop_drop. by apply Forall_drop. }
  destruct (Nat.leb_spec j i) as [Hle|Hlt].
  - apply keep_none. rewrite <-(take_drop i l). apply Forall_app. split.
    + eapply Forall_impl; [exact HPt|]. intros x Hx. cbn in Hx. by rewrite Hx.
    + eapply Forall_impl; [exact (Hd j i HQd Hle)|]. intros x Hx. cbn in Hx. rewrite Hx. by rewrite andb_false_r.
  - rewrite <-(take_drop i l) at 1. rewrite keep_app, keep_none.
    2:{ eapply Forall_impl; [exact HPt|]. intros x Hx. cbn in Hx. by rewrite Hx. }
    cbn [app]. unfold slice. rewrite <-(take_drop (j - i) (drop i l)) at 1. rewrite keep_app, drop_drop.
    replace (i + (j - i))%nat with j by lia.
    rewrite (keep_none _ (drop j l)).
    2:{ eapply Forall_impl; [exact HQd|]. intros x Hx. cbn in Hx. rewrite Hx. by rewrite andb_false_r. }
    rewrite app_nil_r. apply keep_all. apply Forall_lookup. intros k x Hk.
    apply lookup_take_Some in Hk as [Hk Hkj]. rewrite (Forall_lookup_1 _ _ _ _ HPd Hk). cbn.
    rewrite lookup_drop in Hk. rewrite Forall_lookup in HQt. rewrite (HQt (i + k)%nat x); [done|].
    rewrite lookup_take_lt by lia. done.
Qed.

Lemma search_loop_ext p p' fuel i j :
  (∀ k, p k = p' k) → search_loop p fuel i j = search_loop p' fuel i j.
Proof.
  intros Hp. revert i j. induction fuel as [|fuel IH]; intros i j; cbn; [done|].
  rewrite Hp, !IH. done.
Qed.

Lemma search_list_fmap {A C} (f : A → C) (q : C → bool) (q' : A → bool) (l : list A) :
  (∀ x, q' x = q (f x)) → search_list q (f <$> l) = search_list q' l.
Proof.
  intros Hq. unfold search_list, sort_Search. rewrite length_fmap. apply search_loop_ext. intros k.
  rewrite list_lookup_fmap. destruct (l !! k) as [x|]; cbn; [by rewrite Hq|done].
Qed.

(** ** Well-formed frames *)
Section Frames.
Context {F : Type} `{Num F} `{TZDB}.
Implicit Types (df : DataFrame F) (a : Asset) (m : Metric) (t u : Time).

(** What rows are told apart by: the date, or the instant of intraday data. *)
Definition row_key df t : Z := if daily_or_coarser (df_freq df) then dateKey t else t_ns t.
Definition chronological df : Prop := StronglySorted (λ u v, row_key df u < row_key df v)%Z (df_times df).

(** The instants of the rows increase. *)
Definition sorted_times df : Prop := StronglySorted (λ u v, Before u v = true) (df_times df).

(** One column per asset and metric, of the length of the time axis. *)
Record frame_shape df : Prop := {
  fs_err : df_err df = None;
  fs_columns : length (df_columns df) = (length (df_assets df) * length (df_metrics df))%nat;
  fs_rows : Forall (λ col, length col = length (df_times df)) (df_columns df);
  fs_index : df_assetIndex df = index_assets 0 (df_assets df) ∅;
}.

Lemma timeIndex_spec df t i :
  chronological df → timeIndex df t = Some i ↔ ∃ u, df_times df !! i = Some u ∧ row_key df u = row_key df t.
Proof.
  unfold chronological, timeIndex, row_key. destruct (daily_or_coarser (df_freq df)); intros Hs.
  - change (timeIndexByDate df t) with
      (find_key (λ k, dateKey t <=? k)%Z (λ k, k =? dateKey t)%Z (dateKey <$> df_times df)).
    rewrite (find_key_spec (λ k, k) _ _ (dateKey t)); [|done|done|].
    + setoid_rewrite list_lookup_fmap. destruct (df_times df !! i) as [u|]; cbn; naive_solver.
    + clear -Hs. induction Hs as [|u l Hs IH Hu]; constructor; [done|]. by apply Forall_fmap.
  - change ((find_key (λ u, negb (Before u t)) (λ u, Equal u t) (df_times df)) = Some i ↔
      ∃ u, df_times df !! i = Some u ∧ t_ns u = t_ns t).
    apply (find_key_spec t_ns); [| |done].
    + intros u. unfold Before. destruct (Z.ltb_spec (t_ns u) (t_ns t)), (Z.leb_spec (t_ns t) (t_ns u)); lia.
    + done.
Qed.

Lemma index_assets_other n (l : list Asset) idx figi :
  figi ∉ CompositeFigi <$> l → index_assets n l idx !! figi = idx !! figi.
Proof.
  revert n idx. induction l as [|a l IH]; intros n idx Hn; [done|]. cbn.
  rewrite IH by set_solver. apply lookup_insert_ne. set_solver.
Qed.

Lemma index_assets_lookup n (l : list Asset) idx i a :
  NoDup (CompositeFigi <$> l) → l !! i = Some a →
  index_assets n l idx !! CompositeFigi a = Some (n + i)%nat.
Proof.
  revert n idx i. induction l as [|b l IH]; intros n idx i Hnd Hi; [done|].
  apply NoDup_cons in Hnd as [Hb Hnd]. destruct i as [|i]; cbn in *.
  - injection Hi as ->. rewrite index_assets_other by done. rewrite lookup_insert_eq. f_equal. lia.
  - rewrite (IH _ _ i) by done. f_equal. lia.
Qed.

Lemma metric_pos_lookup n (l : list Metric) i m :
  NoDup l → l !! i = Some m → metric_pos n l m = Some (n + i)%nat.
Proof.
  revert n i. induction l as [|x l IH]; intros n i Hnd Hi; [done|].
  apply NoDup_cons in Hnd as [Hx Hnd]. destruct i as [|i]; cbn in *.
  - injection Hi as ->. rewrite bool_decide_eq_true_2 by done. f_equal. lia.
  - rewrite bool_decide_eq_false_2; [rewrite (IH _ i) by done; f_equal; lia|].
    intros ->. by apply Hx, list_elem_of_lookup_2 with i.
Qed.

Lemma stored_column df a a' m ai mi col :
  frame_shape df → NoDup (CompositeFigi <$> df_assets df) → NoDup (df_metrics df) →
  df_assets df !! ai = Some a' → CompositeFigi a = CompositeFigi a' → df_metrics df !! mi = Some m →
  df_columns df !! colIdx df ai mi = Some col →
  df_assetIndex df !! CompositeFigi a = Some ai ∧ metricIndex df m = Some mi ∧ colSlice df ai mi = col.
Proof.
  intros Hs Ha Hm Hai Hfigi Hmi Hcol. rewrite (fs_index _ Hs), Hfigi.
  rewrite (index_assets_lookup 0 _ _ ai) by done. unfold metricIndex.
  rewrite (metric_pos_lookup 0 _ mi) by done. unfold colSlice. by rewrite Hcol.
Qed.

(** The rows a range selection keeps are the slice between two searches. *)
Definition from_row df t u : bool := (row_key df t <=? row_key df u)%Z.
Definition past_row df t u : bool := (row_key df t <? row_key df u)%Z.

Lemma Between_slice df start end_ :
  df_err df = None →
  let i := search_list (from_row df start) (df_times df) in
  let j := search_list (past_row df end_) (df_times df) in
  Between df start end_ = if (j <=? i)%nat then empty_frame else sliceByTimeIndices df i j.
Proof.
  intros He. cbn zeta. unfold Between. rewrite He. unfold from_row, past_row, row_key.
  destruct (daily_or_coarser (df_freq df)).
  - rewrite <-(search_list_fmap dateKey (λ k, dateKey start <=? k)%Z (λ u, dateKey start <=? dateKey u)%Z) by done.
    rewrite <-(search_list_fmap dateKey (λ k, dateKey end_ <? k)%Z (λ u, dateKey end_ <? dateKey u)%Z) by done.
    done.
  - assert (E : search_list (λ u, t_ns start <=? t_ns u)%Z (df_times df) =
                search_list (λ u, negb (Before u start)) (df_times df)).
    { symmetry. rewrite <-(list_fmap_id (df_times df)) at 1. apply search_list_fmap. intros u. unfold Before.
      by rewrite Z.leb_antisym. }
    rewrite E. done.
Qed.

Lemma length_slice_same {A C} i j (l : list A) (k : list C) : length l = length k → length (slice i j l) = length (slice i j k).
Proof. intros Hl. unfold slice. by rewrite !length_take, !length_drop, Hl. Qed.

Lemma Between_shape df start end_ : frame_shape df → frame_shape (Between df start end_).
Proof.
  intros Hs. rewrite (Between_slice df start end_ (fs_err _ Hs)). cbn zeta. case_match; [by split|].
  split; cbn; [done|by rewrite length_fmap; apply Hs| |done]. apply Forall_fmap. eapply Forall_impl; [apply (fs_rows _ Hs)|].
  intros col Hcol. cbn. by apply length_slice_same.
Qed.

Lemma between_searches df start end_ :
  chronological df →
  let i := search_list (from_row df start) (df_times df) in
  let j := search_list (past_row df end_) (df_times df) in
  (Forall (λ u, from_row df start u = false) (take i (df_times df)) ∧
   Forall (λ u, from_row df start u = true) (drop i (df_times df))) ∧
  (Forall (λ u, past_row df end_ u = false) (take j (df_times df)) ∧
   Forall (λ u, past_row df end_ u = true) (drop j (df_times df))).
Proof.
  intros Hc. split.
  - eapply (λ U S, proj2 (search_list_spec (λ u v, row_key df u < row_key df v)%Z _ U _ S)); [|exact Hc].
    unfold from_row. intros u v Hlt. rewrite !Z.leb_le. lia.
  - eapply (λ U S, proj2 (search_list_spec (λ u v, row_key df u < row_key df v)%Z _ U _ S)); [|exact Hc].
    unfold past_row. intros u v Hlt. rewrite !Z.ltb_lt. lia.
Qed.

(** Column by column, a slice of the rows. *)
Lemma zip_slice {A C} i j (l : list A) (k : list C) :
  slice i j (zip l k) = zip (slice i j l) (slice i j k).
Proof. unfold slice. by rewrite zip_with_drop, zip_with_take. Qed.

Lemma Forall_zip_fst {A C} (P : A → Prop) (l : list A) (k : list C) :
  Forall P l → Forall (λ x, P x.1) (zip l k).
Proof. intros Hl. revert k. induction Hl as [|x l Hx Hl IH]; intros [|y k]; cbn; auto. Qed.
End Frames.

(** *** The running maximum *)
Section CumMax.
Context {F : Type} `{NumOrd F}.

Lemma length_cum_max (peak : F) col : length (cum_max_from peak col) = length col.
Proof. revert peak. induction col as [|x col IH]; intros peak; cbn; [done|]. by rewrite IH. Qed.

Lemma cum_max_from_spec (peak : F) col i x :
  col !! i = Some x →
  ∃ p, cum_max_from peak col !! i = Some p ∧ p ∈ peak :: take (S i) col ∧
       (p = peak ∨ flt peak p = true) ∧ ∀ y, y ∈ peak :: take (S i) col → flt p y = false.
Proof.
  revert peak i. induction col as [|z col IH]; intros peak i Hi; [done|].
  cbn [cum_max_from]. set (peak' := if flt peak z then z else peak).
  assert (Hk : (peak' = z ∧ flt peak z = true) ∨ (peak' = peak ∧ flt peak z = false)).
  { unfold peak'. destruct (flt peak z); auto. }
  clearbody peak'. destruct i as [|i]; cbn in Hi.
  - injection Hi as ->. exists peak'. split; [done|]. rewrite firstn_cons, take_0.
    destruct Hk as [[-> E]|[-> E]]; (split; [set_solver|split; [auto|]]);
      intros y [->|[->|[]%not_elem_of_nil]%elem_of_cons]%elem_of_cons;
      auto using flt_irrefl, flt_asym.
  - destruct (IH peak' i Hi) as (p & Hlk & Hpin & Hpp & Hmax). exists p. split; [done|].
    rewrite firstn_cons. assert (Hpk : flt p peak' = false) by (apply Hmax; set_solver).
    split; [destruct Hk as [[-> _]|[-> _]]; set_solver|]. split.
    { destruct Hk as [[-> E]|[-> E]], Hpp as [->|Hpp]; eauto using flt_trans. }
    intros y Hy. destruct (flt p y) eqn:Epy; [|done]. rewrite <-Epy.
    apply elem_of_cons in Hy as [->|[->|Hy]%elem_of_cons]; [| |apply Hmax; set_solver].
    + destruct Hk as [[-> E]|[-> E]]; [|done]. by rewrite (flt_trans p peak z Epy E) in Hpk.
    + destruct Hk as [[-> E]|[-> E]]; [done|]. destruct Hpp as [->|Hpp]; [congruence|].
      by rewrite (flt_trans peak p z Hpp Epy) in E.
Qed.
End CumMax.

(** ** Properties *)
Section Properties.
Context {F : Type} `{Num F} `{TZDB}.

(** A stored value is found by its date.  In a well-formed frame whose rows
    have increasing dates (instants, for intraday data), [ValueAt] of an
    asset, metric and time returns the cell of the row with that date, matching
    the asset by its FIGI alone; when no row has the date the answer is NaN. *)
Theorem ValueAt_finds (df : DataFrame F) (a a' : Asset) (m : Metric) (t : Time) (ai mi : nat) (col : list F) :
  frame_shape df → chronological df →
  NoDup (CompositeFigi <$> df_assets df) → NoDup (df_metrics df) →
  df_assets df !! ai = Some a' → CompositeFigi a = CompositeFigi a' → df_metrics df !! mi = Some m →
  df_columns df !! (ai * length (df_metrics df) + mi)%nat = Some col →
  (∀ i u v, df_times df !! i = Some u → row_key df u = row_key df t → col !! i = Some v →
            ValueAt df a m t = v) ∧
  ((∀ u, u ∈ df_times df → row_key df u ≠ row_key df t) → ValueAt df a m t = fnan).
Proof.
  intros Hs Hc Hna Hnm Hai Hfigi Hmi Hcol.
  destruct (stored_column df a a' m ai mi col Hs Hna Hnm Hai Hfigi Hmi Hcol) as (E1 & E2 & E3).
  unfold ValueAt. rewrite (fs_err _ Hs), E1, E2. split.
  - intros i u v Hu Hk Hv. rewrite (proj2 (timeIndex_spec df t i Hc)) by eauto. by rewrite E3, Hv.
  - intros Hno. destruct (timeIndex df t) as [i|] eqn:Hi; [|done].
    apply (timeIndex_spec df t i Hc) in Hi as (u & Hu & Hk). destruct (Hno u); [|done].
    by apply list_elem_of_lookup_2 with i.
Qed.

(** The rows a range selection keeps, and the values of a stored column. *)
Lemma Between_rows (df : DataFrame F) (start end_ : Time) :
  frame_shape df → chronological df →
  df_times (Between df start end_) = keep (λ u, from_row df start u && negb (past_row df end_ u)) (df_times df) ∧
  ∀ k col, df_columns df !! k = Some col →
    default [] (df_columns (Between df start end_) !! k) =
      (keep (λ x : Time * F, from_row df start x.1 && negb (past_row df end_ x.1)) (zip (df_times df) col)).*2.
Proof.
  intros Hs Hc. rewrite (Between_slice df start end_ (fs_err _ Hs)).
  destruct (between_searches df start end_ Hc) as [[P1 P2] [Q1 Q2]].
  set (i := search_list (from_row df start) _) in *. set (j := search_list (past_row df end_) _) in *.
  split.
  - rewrite (slice_keep _ _ _ _ _ P1 P2 Q1 Q2). by destruct (_ <=? _)%nat.
  - intros k col Hk.
    assert (Hz : ∀ P n, Forall P (take n (df_times df)) → Forall (λ x : Time * F, P x.1) (take n (zip (df_times df) col)))
      by (intros P n HP; rewrite zip_with_take; by apply Forall_zip_fst).
    assert (Hd : ∀ P n, Forall P (drop n (df_times df)) → Forall (λ x : Time * F, P x.1) (drop n (zip (df_times df) col)))
      by (intros P n HP; rewrite zip_with_drop; by apply Forall_zip_fst).
    rewrite (slice_keep (λ x : Time * F, from_row df start x.1) (λ x : Time * F, past_row df end_ x.1) _ i j
      (Hz _ _ P1) (Hd _ _ P2) (Hz _ _ Q1) (Hd _ _ Q2)).
    destruct (j <=? i)%nat; [done|]. rewrite zip_slice. cbn [df_columns sliceByTimeIndices build].
    rewrite list_lookup_fmap, Hk. cbn.
    pose proof (Forall_lookup_1 _ _ _ _ (fs_rows _ Hs) Hk) as Hlen. cbn in Hlen.
    rewrite snd_zip; [done|]. unfold slice. rewrite !length_take, !length_drop. lia.
Qed.

(** A range selection keeps exactly the rows of the range.  [Between] of a
    chronological frame has the times whose date lies between the two dates,
    both included, in order, and each column has exactly the values of those
    rows; an empty range, or one that ends before it starts, gives no row. *)
Theorem Between_exact (df : DataFrame F) (start end_ : Time) :
  frame_shape df → chronological df →
  let inside u := ((row_key df start <=? row_key df u) && negb (row_key df end_ <? row_key df u))%Z in
  let r := Between df start end_ in
  df_err r = None ∧ df_times r = keep inside (df_times df) ∧
  ∀ k col, df_columns df !! k = Some col →
    default [] (df_columns r !! k) = (keep (λ x, inside x.1) (zip (df_times df) col)).*2.
Proof.
  intros Hs Hc. cbn zeta. split; [|exact (Between_rows df start end_ Hs Hc)].
  rewrite (Between_slice df start end_ (fs_err _ Hs)). cbn zeta. by case_match.
Qed.

(** Growing a frame.  [AppendRow] succeeds exactly when the row has a value
    for every column and its time is after the last one; then every column
    ends with its value of the row, the time axis with the time, and the frame
    keeps its shape and its increasing instants. *)
Theorem AppendRow_extends (df : DataFrame F) (t : Time) (values : list F) :
  frame_shape df → sorted_times df →
  match AppendRow df t values with
  | Ok r =>
      length values = length (df_columns df) ∧ Forall (λ u, Before u t = true) (df_times df) ∧
      frame_shape r ∧ sorted_times r ∧
      df_times r = df_times df ++ [t] ∧
      ∀ k col v, df_columns df !! k = Some col → values !! k = Some v → df_columns r !! k = Some (col ++ [v])
  | Err _ =>
      length values ≠ length (df_columns df) ∨ ∃ u, last (df_times df) = Some u ∧ Before u t = false
  end.
Proof.
  intros Hs Hc. unfold AppendRow, sorted_times in *. rewrite (fs_err _ Hs). pose proof (fs_columns _ Hs) as Hcols.
  rewrite <-Hcols. destruct (Nat.eqb_spec (length values) (length (df_columns df))) as [Hl|Hl];
    cbn [negb]; [|by left].
  destruct (negb (Len df =? 0)%nat && negb (After t (End df))) eqn:E.
  - right. unfold Len, End in E. destruct (last (df_times df)) as [u|] eqn:Hu.
    + exists u. split; [done|]. apply andb_true_iff in E as [_ E]. by apply negb_true_iff in E.
    + apply last_None in Hu. by rewrite Hu in E.
  - assert (Hall : Forall (λ u, Before u t = true) (df_times df)).
    { destruct (last (df_times df)) as [w|] eqn:Hw.
      - unfold Len, End in E. rewrite Hw in E. cbn [default] in E.
        apply last_Some in Hw as [l Hw]. rewrite Hw in E, Hc |- *. rewrite length_app in E. cbn in E.
        replace (length l + 1 =? 0)%nat with false in E by (symmetry; apply Nat.eqb_neq; lia). cbn in E.
        apply negb_false_iff in E. apply StronglySorted_app in Hc as (Hlw & _ & _).
        apply Forall_app. split; [|by constructor]. apply Forall_forall. intros u Hu.
        apply (Before_trans u w t); [|exact E]. apply Hlw; [done|]. by apply list_elem_of_singleton.
      - apply last_None in Hw. rewrite Hw. constructor. }
    split; [done|]. split; [done|]. split; [|split; [|split; [done|]]].
    + destruct Hs as [H1 H2 H3 H4]. split; cbn; [done| | |done].
      * rewrite length_zip_with, Hl. lia.
      * apply Forall_lookup. intros k c Hk. apply lookup_zip_with_Some in Hk as (col & v & -> & Hk & _).
        rewrite !length_app. by rewrite (Forall_lookup_1 _ _ _ _ H3 Hk).
    + cbn. apply StronglySorted_app_2; [|done|repeat constructor].
      intros u v Hu ->%list_elem_of_singleton. rewrite Forall_forall in Hall. by apply Hall.
    + cbn. intros k col v Hk Hv. apply lookup_zip_with_Some. eauto.
Qed.
(** The running maximum.  The value [CumMax] puts in a row is one of the
    values of its column up to that row, and no value up to that row exceeds
    it; in any arithmetic whose comparison is an order, binary64 included, and
    NaN compares as the language has it. *)
Theorem CumMax_is_running_max `{!NumOrd F} (df : DataFrame F) (k i : nat) (col : list F) (x : F) :
  df_err df = None → df_columns df !! k = Some col → col !! i = Some x →
  ∃ col' p, df_columns (CumMax df) !! k = Some col' ∧ length col' = length col ∧ col' !! i = Some p ∧
    p ∈ take (S i) col ∧ ∀ y, y ∈ take (S i) col → flt p y = false.
Proof.
  intros He Hk Hi. unfold CumMax, Apply. rewrite He. cbn. rewrite list_lookup_fmap, Hk. cbn.
  destruct col as [|x0 rest]; [done|]. unfold cum_max_col.
  exists (x0 :: cum_max_from x0 rest). destruct i as [|i]; cbn in Hi.
  - injection Hi as ->. exists x. split; [done|].
    split; [cbn; by rewrite length_cum_max|]. split; [done|]. cbn. split; [set_solver|].
    intros y ->%list_elem_of_singleton. apply flt_irrefl.
  - destruct (cum_max_from_spec x0 rest i x Hi) as (p & Hp & Hin & _ & Hmax).
    exists p. split; [done|]. split; [cbn; by rewrite length_cum_max|]. by split.
Qed.
End Properties.

(** ** Witnesses *)
Section Witnesses.
Local Existing Instance utc_db.

(** Three days of two assets and two metrics. *)
Definition sample_frame : DataFrame xq :=
  build [day 0; day 1; day 3] [SPY; TLT] [MetricClose; Volume] Daily
    [[q 10; q 30; q 20]; [q 1; q 2; q 3]; [q 7; q 8; q 9]; [q 4; q 5; q 6]].

Lemma sample_frame_shape : frame_shape sample_frame.
Proof. split; [reflexivity|reflexivity|repeat constructor|reflexivity]. Qed.

Lemma sample_frame_chronological : chronological sample_frame.
Proof. repeat constructor; vm_compute; reflexivity. Qed.

Lemma ValueAt_finds_witness :
  ValueAt sample_frame TLT MetricClose (mkTime (t_ns (day 1) + 5) "UTC") = q 8 ∧
  ValueAt sample_frame TLT MetricClose (day 2) = XNaN.
Proof.
  assert (Hnd : NoDup (CompositeFigi <$> df_assets sample_frame)) by (apply (bool_decide_unpack _); vm_compute; done).
  assert (Hnm : NoDup (df_metrics sample_frame)) by (apply (bool_decide_unpack _); vm_compute; done).
  split.
  - apply (ValueAt_finds sample_frame TLT TLT MetricClose _ 1 0 [q 7; q 8; q 9] sample_frame_shape
      sample_frame_chronological Hnd Hnm eq_refl eq_refl eq_refl eq_refl) with (i := 1%nat) (u := day 1);
      [reflexivity|vm_compute; reflexivity|reflexivity].
  - refine (proj2 (ValueAt_finds sample_frame TLT TLT MetricClose (day 2) 1 0 [q 7; q 8; q 9]
      sample_frame_shape sample_frame_chronological Hnd Hnm eq_refl eq_refl eq_refl eq_refl) _).
    assert (Hall : Forall (λ u, negb (row_key sample_frame u =? row_key sample_frame (day 2))%Z = true)
      [day 0; day 1; day 3]) by (repeat constructor; vm_compute; reflexivity).
    intros u Hu. pose proof (proj1 (Forall_forall _ _) Hall u Hu) as Hb.
    apply negb_true_iff, Z.eqb_neq in Hb. exact Hb.
Defined.

Lemma Between_exact_witness :
  let r := Between sample_frame (day 1) (day 2) in
  df_times r = [day 1] ∧ default [] (df_columns r !! 2%nat) = [q 8].
Proof.
  cbn zeta.
  destruct (Between_exact sample_frame (day 1) (day 2) sample_frame_shape sample_frame_chronological)
    as (_ & Ht & Hc).
  split; [rewrite Ht; vm_compute; reflexivity|].
  rewrite (Hc 2%nat [q 7; q 8; q 9] eq_refl). eval_eq.
Defined.

Lemma AppendRow_extends_witness :
  match AppendRow sample_frame (day 4) [q 1; q 2; q 3; q 4] with
  | Ok r => df_times r = [day 0; day 1; day 3; day 4] ∧ df_columns r !! 2%nat = Some [q 7; q 8; q 9; q 3]
  | Err _ => False
  end.
Proof.
  assert (Hs : sorted_times sample_frame) by (repeat constructor).
  pose proof (AppendRow_extends sample_frame (day 4) [q 1; q 2; q 3; q 4] sample_frame_shape Hs) as Ha.
  assert (E : is_Ok (AppendRow sample_frame (day 4) [q 1; q 2; q 3; q 4]) = true) by (vm_compute; reflexivity).
  destruct (AppendRow sample_frame (day 4) [q 1; q 2; q 3; q 4]) as [r|e]; [|discriminate E].
  destruct Ha as (_ & _ & _ & _ & Ht & Hc). split; [exact Ht|]. by apply (Hc 2%nat [q 7; q 8; q 9] (q 3)).
Defined.

Lemma CumMax_is_running_max_witness :
  ∃ col p, df_columns (CumMax sample_frame) !! 0%nat = Some col ∧ col !! 2%nat = Some p ∧
    p ∈ [q 10; q 30; q 20] ∧ flt p (q 30) = false.
Proof.
  destruct (CumMax_is_running_max sample_frame 0 2 [q 10; q 30; q 20] (q 20) eq_refl eq_refl eq_refl)
    as (col & p & Hcol & _ & Hp & Hin & Hmax).
  exists col, p. split; [exact Hcol|]. split; [exact Hp|]. split; [exact Hin|].
  apply Hmax. right. left.
Defined.

Lemma WTD_is_monday_witness :
  Weekday (day 3) = 4%Z ∧ Weekday (period_Before WTD (day 3)) = 1%Z.
Proof.
  split; [vm_compute; reflexivity|]. apply (WTD_is_monday (day 3) 0). reflexivity.
Defined.
End Witnesses.
