(* ===== verification/AccountProps.v ===== *)
(** * AccountProps: valuation, margin and the daily history

    In exact arithmetic the two valuations of an account agree and do not
    depend on the order the holdings are visited in; the margin deficiency is
    the least amount of shorts to cover; in any arithmetic every tracked
    position keeps one history row per day of the equity curve. *)
From Stdlib Require Import ZArith Qcanon Lia.
From stdpp Require Import base list gmap strings.
From S2P Require Import Prelude Num GoTime Asset Period Frame Broker Lots Ledger Samples.
From S2P Require Import Account Batch Exec SimBroker Runs.

(** ** Valuation *)
Section Valuation.
Context {tz : TZDB}.
Implicit Types (a : Account xq) (ast : Asset).

(** What a holding contributes: nothing when its close is missing. *)
Definition worth_at (df : DataFrame xq) (sel : xq → bool) (worth : xq → xq → xq) (h : Asset * xq) : Qc :=
  if sel h.2 then match close_of df h.1 with Fin p => val (worth h.2 (Fin p)) | _ => 0%Qc end else 0%Qc.

Definition priced (df : DataFrame xq) (h : Asset * xq) : Prop :=
  finite h.2 ∧ (finite (close_of df h.1) ∨ close_of df h.1 = XNaN).

Definition worth_ok (worth : xq → xq → xq) : Prop := ∀ x y, finite x → finite y → finite (worth x y).

Lemma add_priced_step df sel worth h (c : Qc) :
  worth_ok worth → priced df h →
  add_priced df sel worth (Fin c) h = Fin (c + worth_at df sel worth h).
Proof.
  intros Hw. destruct h as [ast qty]. intros [Hq Hp]. unfold add_priced, worth_at. cbn [fst snd] in *.
  destruct (sel qty); [|f_equal; qclra].
  destruct Hp as [[p ->]| ->]; cbn [is_nan Num_exact]; [|f_equal; qclra].
  by destruct (Hw qty (Fin p) Hq (finite_Fin p)) as [w ->].
Qed.

Lemma add_priced_fold df sel worth (hs : list (Asset * xq)) (c : Qc) :
  worth_ok worth → Forall (priced df) hs →
  fold_left (add_priced df sel worth) hs (Fin c) = Fin (c + qsum (worth_at df sel worth <$> hs)).
Proof.
  intros Hw Hhs. revert c. induction Hhs as [|h hs Hh _ IH]; intros c.
  { cbn. f_equal. qclra. }
  cbn [fold_left fmap list_fmap qsum]. rewrite add_priced_step, IH by done. f_equal. qclra.
Qed.

Lemma market_sum_exact (go : GoMapOrder) a df sel worth (c : Qc) :
  prices a = Some df → worth_ok worth →
  Forall (priced df) (map_to_list (holdings (ledger a))) →
  market_sum sel worth (Fin c) a =
    Fin (c + qsum (worth_at df sel worth <$> map_to_list (holdings (ledger a)))).
Proof.
  intros Hp Hw Hhs. unfold market_sum. rewrite Hp.
  assert (Hperm : range (holdings (ledger a)) ≡ₚ map_to_list (holdings (ledger a))) by apply range_perm.
  rewrite add_priced_fold; [|done|by rewrite Hperm]. do 2 f_equal.
  apply qsum_perm. by rewrite Hperm.
Qed.

Lemma mul_ok : worth_ok fmul.
Proof. intros x y. apply finite_mul. Qed.
Lemma abs_mul_ok : worth_ok (λ x y, fmul (fabs x) y).
Proof. intros x y [q ->] Hy. apply finite_mul; [by eexists|done]. Qed.

Lemma qsum_fmap_sub {A} (f g h : A → Qc) (l : list A) :
  (∀ x, x ∈ l → (f x = g x - h x)%Qc) → qsum (f <$> l) = (qsum (g <$> l) - qsum (h <$> l))%Qc.
Proof.
  induction l as [|x l IH]; intros Hf; cbn; [qclra|].
  rewrite (Hf x), IH by set_solver. qclra.
Qed.

(** A position is worth its long part less its short part. *)
Lemma long_less_short df h :
  priced df h →
  worth_at df (λ _, true) (λ qty v, fmul qty v) h =
    (worth_at df (λ qty, flt (of_Z 0) qty) (λ qty p, fmul qty p) h -
     worth_at df (λ qty, flt qty (of_Z 0)) (λ qty p, fmul (fabs qty) p) h)%Qc.
Proof.
  destruct h as [ast qty]. intros [[x Hx] Hp]. cbn in Hx, Hp. subst qty. unfold worth_at.
  cbn [fst snd flt Num_exact xlt of_Z]. rewrite qc_of_Z_0.
  destruct Hp as [[p ->]| ->]; [|repeat case_if; qclra]. cbn.
  destruct (qc_ltb 0 x) eqn:E1, (qc_ltb x 0) eqn:E2; autorewrite with qcb in *; try qclra; try ring.
  - replace x with 0%Qc by qclra. rewrite Qcmult_0_l. qclra.
Qed.

(** One value, however it is computed.  When every holding is finite and
    every close finite or missing, the account's value, its equity (cash plus
    long less short market value) and the plain total of cash and shares times
    closes are the same number, and none depends on the order Go's maps are
    visited in; exact arithmetic. *)
Theorem value_is_equity (go : GoMapOrder) (a : Account xq) (df : DataFrame xq) (c : Qc) :
  prices a = Some df → Cash a = Fin c → Forall (priced df) (map_to_list (holdings (ledger a))) →
  let total := Fin (c + qsum ((λ h : Asset * xq, match close_of df h.1 with
                                                 | Fin p => val h.2 * p | _ => 0 end)
                                <$> map_to_list (holdings (ledger a))))%Qc in
  account_Value a = total ∧ Equity a = total.
Proof.
  intros Hp Hc Hhs. cbn zeta. set (hs := map_to_list (holdings (ledger a))) in *.
  assert (Hw : worth_at df (λ _, true) (λ qty v, fmul qty v) <$> hs =
    (λ h : Asset * xq, match close_of df h.1 with Fin p => val h.2 * p | _ => 0 end)%Qc <$> hs).
  { clear -Hhs. induction Hhs as [|h l [[x Hx] _] _ IH]; [done|]. cbn [fmap list_fmap]. f_equal; [|exact IH].
    unfold worth_at. destruct (close_of df h.1); try done. by rewrite Hx. }
  rewrite <-Hw. split.
  - unfold account_Value. rewrite Hc. exact (market_sum_exact go a df _ _ c Hp mul_ok Hhs).
  - set (ql := qsum (worth_at df (λ qty, flt (of_Z 0) qty) (λ qty p, fmul qty p) <$> hs)).
    set (qs := qsum (worth_at df (λ qty, flt qty (of_Z 0)) (λ qty p, fmul (fabs qty) p) <$> hs)).
    assert (Hl : LongMarketValue a = Fin (0 + ql)%Qc) by exact (market_sum_exact go a df _ _ 0 Hp mul_ok Hhs).
    assert (Hs : ShortMarketValue a = Fin (0 + qs)%Qc)
      by exact (market_sum_exact go a df _ _ 0 Hp abs_mul_ok Hhs).
    assert (Hd : qsum (worth_at df (λ _, true) (λ qty v, fmul qty v) <$> hs) = (ql - qs)%Qc).
    { apply qsum_fmap_sub. intros h Hh. apply long_less_short. exact (proj1 (Forall_forall _ _) Hhs h Hh). }
    rewrite Hd. unfold Equity. rewrite Hc, Hl, Hs. clearbody ql qs. clear. cbn. f_equal. qclra.
Qed.
End Valuation.

(** ** Margin *)
Section Margin.
Context {tz : TZDB} {go : GoMapOrder}.

Implicit Types (e l s d rate lev : Qc).

Lemma shortDeficit_least e s d rate :
  (0 < rate)%Qc → (0 <= d)%Qc → (0 <= s)%Qc →
  ∃ x, shortDeficit (Fin e) (Fin s) (Fin rate) = Fin x ∧ (0 <= x)%Qc ∧
       ((0 <= e)%Qc → (x <= d ↔ rate * (s - d) <= e)%Qc).
Proof.
  intros Hr Hd Hs. unfold shortDeficit. cbn. rewrite qc_of_Z_0.
  rewrite (proj2 (qc_ltb_true 0 rate) Hr), andb_true_r.
  replace (qc_eqb rate 0) with false by (symmetry; apply qc_eqb_false; intros ->; qclra).
  assert (Hx : (rate * (e / rate) = e)%Qc) by (apply Qcmult_div_r; intros ->; qclra).
  set (x := (e / rate)%Qc) in *. clearbody x. cbn.
  destruct (qc_ltb 0 s) eqn:Es; autorewrite with qcb in Es.
  - destruct (qc_ltb 0 (s + - x)) eqn:En; autorewrite with qcb in En.
    + exists (s + - x)%Qc. split; [done|]. split; [qclra|]. intros _. split; intros Hle; qcnra.
    + exists 0%Qc. split; [done|]. split; [qclra|]. intros _. split; intros Hle; qcnra.
  - exists 0%Qc. split; [done|]. split; [qclra|]. intros He. split; intros Hle; [|done].
    replace s with 0%Qc by qclra. qcnra.
Qed.

Lemma leverageDeficit_least e g d lev :
  (0 < lev)%Qc → (0 <= d)%Qc → (0 < e)%Qc →
  ∃ x, leverageDeficit (Fin e) (Fin g) (Fin lev) = Fin x ∧ (0 <= x)%Qc ∧ (x <= d ↔ g - d <= lev * e)%Qc.
Proof.
  intros Hl Hd He. unfold leverageDeficit. cbn. rewrite qc_of_Z_0.
  rewrite (proj2 (qc_ltb_true 0 lev) Hl), (proj2 (qc_leb_false e 0) He). cbn.
  replace (qc_eqb e 0) with false by (symmetry; apply qc_eqb_false; intros ->; qclra).
  assert (Hx : (e * (g / e) = g)%Qc) by (apply Qcmult_div_r; intros ->; qclra).
  set (x := (g / e)%Qc) in *. clearbody x. cbn.
  destruct (qc_ltb 0 g) eqn:Eg; autorewrite with qcb in Eg.
  - destruct (qc_ltb lev x) eqn:En; autorewrite with qcb in En.
    + exists (g + - (lev * e))%Qc. split; [done|]. split; [|split; intros; qclra]. qcnra.
    + exists 0%Qc. split; [done|]. split; [qclra|]. split; intros Hle; [qcnra|qclra].
  - exists 0%Qc. split; [done|]. split; [qclra|]. split; intros Hle; [qcnra|qclra].
Qed.

(** C28. The margin deficiency is the least cure.  For an account with positive
    equity, covering [d] dollars of shorts at market (which leaves equity as it
    is and takes [d] from both the shorts and the gross exposure) meets both
    maintenance rules, the short-side ratio and the gross leverage, exactly
    when [d] is at least [MarginDeficiency]; exact arithmetic, and the rates
    are the configured ones or their positive defaults. *)
Theorem MarginDeficiency_is_least_cure (a : Account xq) (e l s d rate lev : Qc) :
  Equity a = Fin e → LongMarketValue a = Fin l → ShortMarketValue a = Fin s →
  maintenanceMarginRate a = Fin rate → GrossMaintenanceLeverage a = Fin lev →
  (0 < e)%Qc → (0 <= s)%Qc → (0 < rate)%Qc → (0 < lev)%Qc → (0 <= d)%Qc →
  ∃ x, MarginDeficiency a = Fin x ∧ (0 <= x)%Qc ∧
    (x <= d ↔ rate * (s - d) <= e ∧ l + s - d <= lev * e)%Qc.
Proof.
  intros He Hl Hs Hrate Hlev Hpe Hps Hpr Hpl Hpd. unfold MarginDeficiency.
  rewrite He, Hl, Hs, Hrate, Hlev. change (fadd (Fin l) (Fin s)) with (Fin (l + s)%Qc).
  destruct (shortDeficit_least e s d rate Hpr Hpd Hps) as (x & -> & Hx0 & Hx).
  destruct (leverageDeficit_least e (l + s) d lev Hpl Hpd Hpe) as (y & -> & Hy0 & Hy).
  cbn. specialize (Hx ltac:(qclra)).
  destruct (qc_ltb y x) eqn:E; autorewrite with qcb in E.
  - exists x. split; [done|]. split; [done|]. rewrite <-Hx, <-Hy. clear Hx Hy.
    split; [intros; split; qclra|by intros []].
  - exists y. split; [done|]. split; [done|]. rewrite <-Hx, <-Hy. clear Hx Hy.
    split; [intros; split; qclra|by intros []].
Qed.
End Margin.

(** ** History rows *)
Section Rows.
Context {F : Type} `{Num F} {tz : TZDB} {go : GoMapOrder}.
Implicit Types (h : History F) (a : Account F) (ast : Asset).

Definition rows_at h ast (n : nat) : Prop :=
  ∃ mvs qtys, positionMV h !! ast = Some mvs ∧ positionQty h !! ast = Some qtys ∧
    length mvs = n ∧ length qtys = n.
Definition no_row h ast : Prop := positionMV h !! ast = None ∧ positionQty h !! ast = None.
Definition row_of h ast : option (list F) * option (list F) := (positionMV h !! ast, positionQty h !! ast).

Definition days h : nat := match perfData h with Some f => Len f | None => O end.

(** Every tracked asset has one market value and one quantity per day of the
    equity curve. *)
Definition rows_aligned h : Prop := ∀ ast, rows_at h ast (days h) ∨ no_row h ast.

Lemma append_row_other ast ast' mv qty n h :
  ast ≠ ast' → row_of (appendPositionRow ast mv qty n h) ast' = row_of h ast'.
Proof. intros Hne. unfold row_of, appendPositionRow. cbn. by rewrite !lookup_insert_ne by done. Qed.

Lemma append_row_here ast mv qty n h :
  rows_at h ast n ∨ no_row h ast → rows_at (appendPositionRow ast mv qty (S n) h) ast (S n).
Proof.
  intros Hr. unfold rows_at, appendPositionRow. cbn. rewrite !lookup_insert_eq. do 2 eexists.
  split; [done|]. split; [done|]. rewrite !length_app, length_replicate. cbn.
  destruct Hr as [(mvs & qtys & H1 & H2 & L1 & L2)|[H1 H2]]; unfold lookup_d; rewrite H1, H2; cbn; lia.
Qed.

Lemma rows_at_same h h' ast n : row_of h' ast = row_of h ast → rows_at h ast n → rows_at h' ast n.
Proof. unfold row_of, rows_at. by intros [= -> ->]. Qed.
Lemma no_row_same h h' ast : row_of h' ast = row_of h ast → no_row h ast → no_row h' ast.
Proof. unfold row_of, no_row. by intros [= -> ->]. Qed.
Lemma row_or_none_same h h' ast n :
  row_of h' ast = row_of h ast → rows_at h ast n ∨ no_row h ast → rows_at h' ast n ∨ no_row h' ast.
Proof. intros Hs [?|?]; [left; by eapply rows_at_same|right; by eapply no_row_same]. Qed.

(** A pass that appends at most one row per asset. *)
Section Pass.
Context {X : Type} (key : X → Asset) (touch : X → bool) (step : History F → X → History F) (n : nat).
Context (step_touch : ∀ h x, touch x = true → ∃ mv qty, step h x = appendPositionRow (key x) mv qty (S n) h).
Context (step_skip : ∀ h x, touch x = false → step h x = h).

Lemma pass_other l h ast :
  (∀ x, x ∈ l → touch x = true → key x ≠ ast) → row_of (fold_left step l h) ast = row_of h ast.
Proof.
  revert h. induction l as [|x l IH]; intros h Hno; [done|]. cbn [fold_left].
  rewrite IH by set_solver. destruct (touch x) eqn:E; [|by rewrite step_skip].
  destruct (step_touch h x E) as (mv & qty & ->). apply append_row_other. apply Hno; [set_solver|done].
Qed.

Lemma pass_here l h x :
  NoDup (key <$> l) → x ∈ l → touch x = true → rows_at h (key x) n ∨ no_row h (key x) →
  rows_at (fold_left step l h) (key x) (S n).
Proof.
  revert h. induction l as [|y l IH]; intros h Hnd Hin Ht Hr; [by apply not_elem_of_nil in Hin|].
  apply NoDup_cons in Hnd as [Hy Hnd]. cbn [fold_left].
  destruct (decide (key x = key y)) as [Heq|Hne].
  - assert (x = y) as ->.
    { apply elem_of_cons in Hin as [->|Hin]; [done|]. destruct Hy. rewrite <-Heq.
      apply list_elem_of_fmap. by exists x. }
    destruct (step_touch h y Ht) as (mv & qty & ->).
    eapply rows_at_same; [|by apply append_row_here].
    apply pass_other. intros z Hz _ Hk. apply Hy. rewrite <-Hk. apply list_elem_of_fmap. by exists z.
  - assert (Hin' : x ∈ l) by (apply elem_of_cons in Hin as [->|?]; done). apply IH; [done|done|done|].
    destruct (touch y) eqn:E; [|by rewrite step_skip].
    destruct (step_touch h y E) as (mv & qty & ->).
    eapply row_or_none_same; [|exact Hr]. by apply append_row_other.
Qed.
End Pass.

Lemma mark_one_fst df h acc hold :
  ∃ total mv, mark_one df h acc hold = (total, acc.2 ++ [(hold.1, mv)]).
Proof.
  unfold mark_one. destruct acc as [total steps], hold as [ast qty]. cbn.
  destruct (is_nan _); [destruct (carried_mv _ _ _)|]; eauto.
Qed.

Lemma mark_holdings_assets df a : ((mark_holdings df a).2).*1 = (range (holdings (ledger a))).*1.
Proof.
  unfold mark_holdings. generalize (range (holdings (ledger a))) as l. intros l.
  change ((range (holdings (ledger a)))) with (range (holdings (ledger a))).
  assert (Hg : ∀ acc, ((fold_left (mark_one df (history a)) l acc).2).*1 = acc.2.*1 ++ l.*1).
  { induction l as [|x l IH]; intros acc; cbn [fold_left]; [by rewrite app_nil_r|].
    destruct (mark_one_fst df (history a) acc x) as (t & mv & ->). rewrite IH. cbn.
    rewrite fmap_app. cbn. by rewrite <-app_assoc. }
  by rewrite Hg.
Qed.

Lemma fold_append_perf {X} (step : History F → X → History F) l h :
  (∀ h x, perfData (step h x) = perfData h) → perfData (fold_left step l h) = perfData h.
Proof. intros Hs. revert h. induction l as [|x l IH]; intros h; [done|]. cbn [fold_left]. by rewrite IH. Qed.

Lemma append_perf_days df row h perf :
  append_perf df row h = Ok perf → Len perf = S (days h).
Proof.
  unfold append_perf, days. destruct (perfData h) as [f|].
  - unfold AppendRow. destruct (df_err f); [done|]. destruct (negb (length row =? _)%nat); [done|].
    destruct (_ && _); [done|]. intros [= <-]. unfold Len. cbn. rewrite length_app. cbn. lia.
  - unfold NewDataFrame. cbn [length Nat.mul Nat.eqb negb andb].
    destruct (negb (_ =? _)%nat); [done|]. destruct (existsb _ _); [done|]. by intros [= <-].
Qed.

(** Which tracked assets the second pass gives a row. *)
Definition closes (L : Ledger F) (kv : Asset * list F) : bool :=
  negb (bool_decide (kv.1 = cashSentinel)) && negb (bool_decide (is_Some (holdings L !! kv.1))).

Lemma close_row_touch L n h kv :
  closes L kv = true → ∃ mv qty, close_row L n h kv.1 = appendPositionRow kv.1 mv qty n h.
Proof.
  unfold closes, close_row. rewrite andb_true_iff, !negb_true_iff, !bool_decide_eq_false. intros [H1 H2].
  rewrite !decide_False by done. destruct (last _); [destruct (flt _ _)|]; eauto.
Qed.
Lemma close_row_skip L n h kv : closes L kv = false → close_row L n h kv.1 = h.
Proof.
  unfold closes, close_row. rewrite andb_false_iff, !negb_false_iff, !bool_decide_eq_true.
  intros [Hc|Hh]; [by rewrite decide_True|]. case_decide; [done|]. by rewrite decide_True.
Qed.

(** The three passes of a day: the holdings, the assets tracked before, cash. *)
Lemma passes_align (L : Ledger F) (qty : Asset → F) (c : F) (steps : list (Asset * F)) h0 n :
  holdings L !! cashSentinel = None → steps.*1 = (range (holdings L)).*1 →
  (∀ ast, rows_at h0 ast n ∨ no_row h0 ast) →
  let h1 := fold_left (λ h s, appendPositionRow s.1 s.2 (qty s.1) (S n) h) steps h0 in
  let h2 := fold_left (λ h kv, close_row L (S n) h kv.1) (range (positionMV h1)) h1 in
  let h3 := appendPositionRow cashSentinel c c (S n) h2 in
  (∀ ast, rows_at h3 ast (S n) ∨ no_row h3 ast) ∧ perfData h3 = perfData h0.
Proof.
  intros Hcash Hassets H0 h1 h2 h3. split.
  2:{ change (perfData h2 = perfData h0). unfold h2, h1. rewrite !fold_append_perf; [done|done|].
    intros h kv. unfold close_row. do 2 (case_decide; [done|]). destruct (last _); [|done].
    by destruct (flt _ _). }
  intros ast.
  pose proof (pass_other fst (λ _, true) (λ h s, appendPositionRow s.1 s.2 (qty s.1) (S n) h) n
    ltac:(eauto) ltac:(done)) as O1.
  pose proof (pass_here fst (λ _, true) (λ h s, appendPositionRow s.1 s.2 (qty s.1) (S n) h) n
    ltac:(eauto) ltac:(done)) as P1.
  pose proof (pass_other fst (closes L) (λ h kv, close_row L (S n) h kv.1) n
    (λ h kv Hk, close_row_touch _ (S n) h kv Hk) (λ h kv Hk, close_row_skip _ (S n) h kv Hk)) as O2.
  pose proof (pass_here fst (closes L) (λ h kv, close_row L (S n) h kv.1) n
    (λ h kv Hk, close_row_touch _ (S n) h kv Hk) (λ h kv Hk, close_row_skip _ (S n) h kv Hk)) as P2.
  assert (Hsteps : ∀ x, x ∈ steps → is_Some (holdings L !! x.1)).
  { intros x Hx. assert (Hi : x.1 ∈ steps.*1) by (apply list_elem_of_fmap; eauto). rewrite Hassets in Hi.
    apply list_elem_of_fmap in Hi as ([b q] & -> & Hi). apply elem_of_range in Hi. by eexists. }
  destruct (decide (ast = cashSentinel)) as [->|Hne].
  { left. apply append_row_here. eapply row_or_none_same; [|apply H0]. etrans; [apply O2|apply O1].
    - intros x _ Hc. unfold closes in Hc. by case_bool_decide.
    - intros x Hx _ Heq. destruct (Hsteps x Hx) as [? Hs]. rewrite Heq in Hs. congruence. }
  assert (Hlast : row_of h3 ast = row_of h2 ast) by (apply append_row_other; done).
  destruct (decide (is_Some (holdings L !! ast))) as [[q Hq]|Hnot].
  - left. eapply rows_at_same; [exact Hlast|]. eapply rows_at_same.
    { apply O2. intros x _ Hc Heq. unfold closes in Hc. rewrite Heq, Hq in Hc.
      rewrite (bool_decide_eq_true_2 (is_Some _)) in Hc by eauto. by rewrite andb_false_r in Hc. }
    assert (Hi : ast ∈ steps.*1).
    { rewrite Hassets. apply list_elem_of_fmap. exists (ast, q). split; [done|]. by apply elem_of_range. }
    apply list_elem_of_fmap in Hi as (x & -> & Hx). apply P1; [|done|done|apply H0].
    rewrite Hassets. apply NoDup_range_fst.
  - assert (Hh1 : row_of h1 ast = row_of h0 ast).
    { apply O1. intros x Hx _ Heq. apply Hnot. rewrite <-Heq. by apply Hsteps. }
    destruct (positionMV h1 !! ast) as [mvs|] eqn:Hmv.
    + left. eapply rows_at_same; [exact Hlast|]. apply (P2 _ h1 (ast, mvs)).
      * apply NoDup_range_fst.
      * by apply elem_of_range.
      * unfold closes. cbn. rewrite !bool_decide_eq_false_2 by done. done.
      * eapply row_or_none_same; [exact Hh1|apply H0].
    + assert (Hh2 : row_of h2 ast = row_of h1 ast).
      { apply O2. intros [b l] Hx%elem_of_range _ Heq. cbn in Heq. congruence. }
      eapply row_or_none_same; [exact Hlast|]. right. eapply no_row_same; [exact Hh2|].
      destruct (H0 ast) as [(? & ? & H1 & _)|Hn]; [|eapply no_row_same; [exact Hh1|exact Hn]].
      assert (E : positionMV h1 !! ast = positionMV h0 !! ast) by (by injection Hh1).
      congruence.
Qed.

(** The history stays aligned with the equity curve.  If every tracked
    asset has one market value and one quantity per day, then after
    [UpdatePrices] with any frame it still has (a new day has one row for every
    holding, for every asset tracked before, and for cash), as long as the cash
    sentinel is not itself a holding; in any arithmetic. *)
Theorem UpdatePrices_keeps_rows_aligned (df : DataFrame F) (a : Account F) :
  holdings (ledger a) !! cashSentinel = None → rows_aligned (history a) →
  rows_aligned (history (UpdatePrices df a)).
Proof.
  intros Hcash Ha. unfold UpdatePrices. destruct (Len df =? 0)%nat; [done|].
  pose proof (mark_holdings_assets df (set_prices (Some df) a)) as Hassets.
  destruct (mark_holdings _ _) as [total steps]. cbn [fst snd] in Hassets.
  destruct (append_perf _ _ _) as [perf|e] eqn:Hp; [|done]. cbn [history ledger set_history set_prices] in *.
  apply append_perf_days in Hp. rewrite Hp.
  destruct (passes_align (ledger a) (Position (set_prices (Some df) a)) (Cash (set_prices (Some df) a)) steps
    (set_perf perf (history a)) (days (history a)) Hcash Hassets Ha) as [Hrows Hperf].
  assert (Hd : ∀ h, perfData h = Some perf →
    (∀ ast, rows_at h ast (S (days (history a))) ∨ no_row h ast) → rows_aligned h).
  { intros h E Hr ast. unfold days at 1. rewrite E, Hp. apply Hr. }
  apply Hd; [exact Hperf|exact Hrows].
Qed.
End Rows.

(** ** Witnesses *)
Section Witnesses.
Local Existing Instance utc_db.
Local Existing Instance blank_fmt.

Definition long_account : Account xq := holding 1000 10 100.
Definition long_bar : DataFrame xq := bar 0 [SPY] [MetricClose] [100%Z].

Lemma value_is_equity_witness :
  account_Value long_account = Equity long_account ∧ Equity long_account = q 2000.
Proof.
  assert (Hh : map_to_list (holdings (ledger long_account)) = [(SPY, q 10)]) by eval_eq.
  assert (Hc : Cash long_account = Fin (qc_of_Z 1000)) by eval_eq.
  assert (Hs : close_of long_bar SPY = q 100) by eval_eq.
  assert (Hp : Forall (priced long_bar) (map_to_list (holdings (ledger long_account)))).
  { rewrite Hh. constructor; [|constructor]. split; [by eexists|]. left. cbn [fst]. rewrite Hs. by eexists. }
  destruct (value_is_equity canonical_order long_account long_bar _ eq_refl Hc Hp) as [Hv He].
  split; [etrans; [exact Hv|symmetry; exact He]|]. eval_eq.
Defined.

(** A hundred shares of TLT sold short at 100, with 2,000 dollars of equity. *)
Definition short_account : Account xq :=
  set_prices (Some (bar 0 [TLT] [MetricClose] [100%Z]))
    (set_ledger (Record_ (sell "s0" 0 TLT 100 100) (WithCash (q 2000) (day 0) empty_ledger)) new_account).

Lemma MarginDeficiency_is_least_cure_witness :
  ∃ x, MarginDeficiency short_account = Fin x ∧
    (x <= qc_of_Z 4000 ↔ qfrac 3 10 * (qc_of_Z 10000 - qc_of_Z 4000) <= qc_of_Z 2000 ∧
      0 + qc_of_Z 10000 - qc_of_Z 4000 <= qc_of_Z 4 * qc_of_Z 2000)%Qc.
Proof.
  assert (He : Equity short_account = q 2000) by eval_eq.
  assert (Hl : LongMarketValue short_account = Fin 0%Qc) by eval_eq.
  assert (Hs : ShortMarketValue short_account = q 10000) by eval_eq.
  assert (Hr : maintenanceMarginRate short_account = Fin (qfrac 3 10)) by eval_eq.
  assert (Hg : GrossMaintenanceLeverage short_account = q 4) by eval_eq.
  destruct (MarginDeficiency_is_least_cure short_account _ _ _ (qc_of_Z 4000) _ _ He Hl Hs Hr Hg)
    as (x & Hx & _ & Hiff);
    [reflexivity|discriminate|reflexivity|reflexivity|discriminate|].
  exists x. split; [exact Hx|exact Hiff].
Defined.

Lemma UpdatePrices_keeps_rows_aligned_witness :
  let a := UpdatePrices long_bar long_account in
  days (history a) = 1%nat ∧ rows_aligned (history a).
Proof.
  cbn zeta. split; [vm_compute; reflexivity|].
  apply UpdatePrices_keeps_rows_aligned; [vm_compute; reflexivity|].
  intros ast. right. split; reflexivity.
Defined.
End Witnesses.
