(* ===== verification/LedgerFacts.v ===== *)
(** * LedgerFacts: what [Record], [ApplySplit] and [SyncTransactions] keep

    The books of one asset are its position, its long and short lots and its
    wash-sale tracking.  Every phase of [Record] touches the books of the
    transaction's asset only; in exact arithmetic the position is always the
    long shares minus the short shares, and the two sides are never open at
    once. *)
From Stdlib Require Import ZArith Qcanon Field Lia.
From stdpp Require Import base list gmap strings pretty.
From S2P Require Import Prelude Num GoTime Asset Broker Lots Ledger.

(** ** Frames: what each phase leaves alone *)
Section Frames.
Context {F : Type} `{Num F} `{TZDB} `{FmtFloat F}.
Implicit Types (L : Ledger F) (ast b : Asset) (txn : Transaction F).

(** Cash, log, seen IDs and settings are the same. *)
Definition same_core L L' : Prop :=
  cash L' = cash L ∧ transactions L' = transactions L ∧
  seenTransactions L' = seenTransactions L ∧ lotSelection L' = lotSelection L.

(** The books of [b] are the same. *)
Definition same_books b L L' : Prop :=
  position L' b = position L b ∧ long_lots L' b = long_lots L b ∧
  short_lots L' b = short_lots L b ∧ loss_sales L' b = loss_sales L b ∧
  recent_buys L' b = recent_buys L b.

(** A phase working on [ast] alone. *)
Definition local_to ast L L' : Prop :=
  same_core L L' ∧ ∀ b, b ≠ ast → same_books b L L'.

#[global] Instance same_core_preorder : PreOrder same_core.
Proof. split; repeat intro; unfold same_core in *; intuition congruence. Qed.
#[global] Instance same_books_preorder b : PreOrder (same_books b).
Proof. split; repeat intro; unfold same_books in *; intuition congruence. Qed.
#[global] Instance local_to_preorder ast : PreOrder (local_to ast).
Proof.
  split; [intros L; split; reflexivity|].
  intros L1 L2 L3 [C12 B12] [C23 B23]. split; [by etrans|].
  intros b Hb. etrans; eauto.
Qed.
End Frames.

(** Unfolds the setters on a frame goal and computes map lookups. *)
Ltac books :=
  unfold local_to, same_core, same_books, position, long_lots, short_lots, loss_sales,
    recent_buys in *; cbn in *;
  repeat first
    [ rewrite lookup_d_insert_eq | rewrite lookup_d_delete_eq
    | rewrite lookup_d_insert_ne by congruence | rewrite lookup_d_delete_ne by congruence
    | rewrite lookup_d_alter_ne by congruence ];
  cbn [val fst snd] in *.
Ltac frame := intros; books; repeat split; intros; books; auto.

Section Phases.
Context {F : Type} `{Num F} `{TZDB} `{FmtFloat F}.
Implicit Types (L : Ledger F) (ast b : Asset) (txn : Transaction F).

Lemma store_pruned_ne {A} (m : gmap Asset (list A)) ast b (l : list A) :
  b ≠ ast → lookup_d [] (store_pruned m ast l) b = lookup_d [] m b.
Proof. intros. destruct l; cbn; books; done. Qed.

Lemma store_pruned_eq {A} (m : gmap Asset (list A)) ast (l : list A) :
  lookup_d [] (store_pruned m ast l) ast = l.
Proof. destruct l; cbn; books; done. Qed.

Lemma add_trades_local dir txn q method lots L :
  same_core L (add_trades dir txn q method lots L) ∧
  ∀ b, same_books b L (add_trades dir txn q method lots L).
Proof. unfold add_trades. destruct (excursions L !! _); [destruct dir|]; by frame. Qed.

Lemma open_excursion_local ast price L :
  same_core L (open_excursion ast price L) ∧
  ∀ b, same_books b L (open_excursion ast price L).
Proof. unfold open_excursion. destruct (excursions L !! _); by frame. Qed.

Lemma drop_excursion_local lots ast L :
  same_core L (drop_excursion_if_empty lots ast L) ∧
  ∀ b, same_books b L (drop_excursion_if_empty lots ast L).
Proof. unfold drop_excursion_if_empty. destruct lots; by frame. Qed.

Lemma cleanup_flat_local ast L : local_to ast L (cleanup_flat ast L).
Proof. unfold cleanup_flat. destruct (feq _ _); by frame. Qed.

Lemma checkWashSaleOnBuy_local ast d q id L :
  local_to ast L (checkWashSaleOnBuy ast d q id L).1.1.
Proof.
  unfold checkWashSaleOnBuy. destruct (loss_sales L ast); [frame|].
  cbn. split; [by frame|]. intros b Hb. frame. by apply store_pruned_ne.
Qed.

Lemma checkWashSaleOnSell_local ast d q loss c L :
  local_to ast L (checkWashSaleOnSell ast d q loss c L).1.
Proof.
  unfold checkWashSaleOnSell. destruct (recent_buys L ast); [frame|].
  cbn. split; [by frame|]. intros b Hb. frame. by apply store_pruned_ne.
Qed.
End Phases.

(** ** Record is local to its asset, in any arithmetic *)
Section RecordLocal.
Context {F : Type} `{Num F} `{TZDB} `{FmtFloat F}.
Implicit Types (L : Ledger F) (ast b : Asset) (txn : Transaction F).

Lemma local_of_same ast L L' :
  same_core L L' ∧ (∀ b, same_books b L L') → local_to ast L L'.
Proof. intros [Hc Hb]. split; auto. Qed.

Lemma optional_local ast (c : bool) L L' L'' :
  local_to ast L L' → (c = true → local_to ast L' L'') → local_to ast L (if c then L'' else L').
Proof. intros Ha Hb. destruct c; [|done]. etrans; [exact Ha|auto]. Qed.

Lemma cover_shorts_local txn q L : local_to (t_Asset txn) L (cover_shorts txn q L).
Proof.
  unfold cover_shorts. etrans; [apply local_of_same, add_trades_local|].
  etrans; [|apply local_of_same, drop_excursion_local].
  apply optional_local; [by frame|]. intros _. by frame.
Qed.

Lemma open_long_local txn q L : local_to (t_Asset txn) L (open_long txn q L).
Proof.
  unfold open_long. set (ast := t_Asset txn). set (L1 := with_taxLots _ L).
  pose proof (checkWashSaleOnBuy_local ast (t_Date txn) q
    (lot_id "lot-" (t_Date txn) (length (long_lots L ast))) L1) as Hw.
  destruct (checkWashSaleOnBuy _ _ _ _ _) as [[L2 rid] rq]. cbn in Hw.
  etrans; [|apply local_of_same, open_excursion_local].
  apply optional_local; [|intros _; by frame].
  etrans; [|exact Hw]. by frame.
Qed.

Lemma close_longs_local txn q L : local_to (t_Asset txn) L (close_longs txn q L).
Proof.
  unfold close_longs. set (ast := t_Asset txn).
  set (L1 := add_trades _ _ _ _ _ L). set (c := computeConsumedLotInfo _ _ _).
  set (L2 := with_taxLots (<[ast := _]> _) L1). set (loss := fsub _ _).
  transitivity L1; [apply local_of_same, add_trades_local|].
  pose proof (checkWashSaleOnSell_local ast (t_Date txn) q loss (latestBuyDate c) L2) as Hw.
  destruct (checkWashSaleOnSell _ _ _ _ _ _) as [L3 dq]. cbn in Hw.
  apply optional_local; [by frame|]. intros _.
  apply optional_local; [exact Hw|]. intros _. by frame.
Qed.

Lemma open_short_local txn q L : local_to (t_Asset txn) L (open_short txn q L).
Proof.
  unfold open_short. etrans; [|apply local_of_same, open_excursion_local]. by frame.
Qed.

Lemma record_buy_local txn L : local_to (t_Asset txn) L (record_buy txn L).
Proof.
  unfold record_buy. etrans; [|apply cleanup_flat_local].
  apply optional_local; [|intros _; apply open_long_local].
  apply optional_local; [by frame|intros _; apply cover_shorts_local].
Qed.

Lemma record_sell_local txn L : local_to (t_Asset txn) L (record_sell txn L).
Proof.
  unfold record_sell. etrans; [|apply cleanup_flat_local].
  apply optional_local; [|intros _; apply open_short_local].
  apply optional_local; [by frame|]. intros _.
  etrans; [apply close_longs_local|apply local_of_same, drop_excursion_local].
Qed.

(** The transaction as it enters the log. *)
Definition logged L txn : Transaction F :=
  if decide (t_Type txn = DividendTransaction)
  then set_Qualified (isDividendQualified L (t_Asset txn) (t_Date txn)) txn else txn.

Lemma logged_amount L txn : t_Amount (logged L txn) = t_Amount txn.
Proof. unfold logged. by destruct (decide _). Qed.

(** Record on a finite transaction: one log entry, one cash movement, the ID
    remembered. *)
Lemma Record_core txn L :
  isFiniteTransaction txn = true →
  let L' := Record_ txn L in
  cash L' = fadd (cash L) (t_Amount txn) ∧
  transactions L' = transactions L ++ [logged L txn] ∧
  seenTransactions L' = (if decide (t_ID txn = EmptyString) then seenTransactions L
                         else {[t_ID txn]} ∪ seenTransactions L) ∧
  lotSelection L' = lotSelection L.
Proof.
  intros Hfin. cbn zeta. unfold Record_. rewrite Hfin. cbn [negb]. fold (logged L txn).
  assert (Hlog : let L1 := log_transaction (logged L txn) L in
    cash L1 = fadd (cash L) (t_Amount txn) ∧
    transactions L1 = transactions L ++ [logged L txn] ∧
    seenTransactions L1 = (if decide (t_ID txn = EmptyString) then seenTransactions L
                           else {[t_ID txn]} ∪ seenTransactions L) ∧
    lotSelection L1 = lotSelection L).
  { cbn zeta. unfold log_transaction. rewrite logged_amount.
    replace (t_ID (logged L txn)) with (t_ID txn) by (unfold logged; by destruct (decide _)).
    by destruct (decide (t_ID txn = _)). }
  set (L1 := log_transaction _ L) in *. cbn zeta in Hlog.
  assert (Hstep : ∀ L2, same_core L1 L2 →
    cash L2 = fadd (cash L) (t_Amount txn) ∧
    transactions L2 = transactions L ++ [logged L txn] ∧
    seenTransactions L2 = (if decide (t_ID txn = EmptyString) then seenTransactions L
                           else {[t_ID txn]} ∪ seenTransactions L) ∧
    lotSelection L2 = lotSelection L).
  { intros L2 (-> & -> & -> & ->). exact Hlog. }
  destruct (t_Type (logged L txn)); try exact Hlog; apply Hstep.
  - apply record_buy_local.
  - apply record_sell_local.
Qed.

(** Other assets keep their position and lots; their wash-sale tracking can
    only lose expired entries. *)
Lemma Record_other_assets txn L b :
  b ≠ t_Asset txn →
  let L' := Record_ txn L in
  position L' b = position L b ∧ long_lots L' b = long_lots L b ∧
  short_lots L' b = short_lots L b.
Proof.
  intros Hb. cbn zeta. unfold Record_. destruct (negb _); [done|]. fold (logged L txn).
  assert (Ha : t_Asset (logged L txn) = t_Asset txn) by (unfold logged; by destruct (decide _)).
  assert (Hlog : same_books b L (log_transaction (logged L txn) L) ∨
    (position (log_transaction (logged L txn) L) b = position L b ∧
     long_lots (log_transaction (logged L txn) L) b = long_lots L b ∧
     short_lots (log_transaction (logged L txn) L) b = short_lots L b)).
  { right. unfold log_transaction. by destruct (decide _). }
  set (L1 := log_transaction _ L) in *.
  assert (Hstep : ∀ L2, local_to (t_Asset (logged L txn)) L1 L2 →
    position L2 b = position L b ∧ long_lots L2 b = long_lots L b ∧
    short_lots L2 b = short_lots L b).
  { rewrite Ha. intros L2 [_ Hloc]. destruct (Hloc b Hb) as (-> & -> & -> & _).
    by destruct Hlog as [(-> & -> & -> & _)|]. }
  destruct (t_Type (logged L txn)); try (apply Hstep; reflexivity); apply Hstep.
  - apply record_buy_local.
  - apply record_sell_local.
Qed.
End RecordLocal.

(** ** Exact books *)
Section Exact.
Context {tz : TZDB} {fx : FmtFloat xq}.
Implicit Types (L : Ledger xq) (ast b : Asset) (txn : Transaction xq).

Definition ok_sale (s : recentLossSale xq) : Prop :=
  finite (ls_qty s) ∧ finite (ls_lossPerShare s).
Definition ok_buy (b : recentBuy xq) : Prop := finite (rb_qty b).

(** The numbers of an asset's books are finite. *)
Record books_finite L ast : Prop := {
  bf_pos : finite (position L ast);
  bf_long : exact_lots (long_lots L ast);
  bf_short : exact_lots (short_lots L ast);
  bf_sales : Forall ok_sale (loss_sales L ast);
  bf_buys : Forall ok_buy (recent_buys L ast);
}.

(** The books of an asset balance: the position is the long shares minus the
    short shares, neither side is negative, and at most one is open. *)
Record books_ok L ast : Prop := {
  bo_finite : books_finite L ast;
  bo_balance : val (position L ast) = (shares (long_lots L ast) - shares (short_lots L ast))%Qc;
  bo_long : (0 <= shares (long_lots L ast))%Qc;
  bo_short : (0 <= shares (short_lots L ast))%Qc;
  bo_one_side : shares (long_lots L ast) = 0%Qc ∨ shares (short_lots L ast) = 0%Qc;
}.

Definition ledger_ok L : Prop := ∀ ast, books_ok L ast.

Lemma books_finite_same L L' b : same_books b L L' → books_finite L b → books_finite L' b.
Proof.
  intros (Hp & Hl & Hs & Hls & Hrb) [].
  split; rewrite ?Hp, ?Hl, ?Hs, ?Hls, ?Hrb; done.
Qed.

Lemma books_ok_same L L' b : same_books b L L' → books_ok L b → books_ok L' b.
Proof.
  intros Hsame [Hf Hbal Hl0 Hs0 Hone]. pose proof (books_finite_same _ _ _ Hsame Hf).
  destruct Hsame as (Hp & Hl & Hs & _).
  split; rewrite ?Hp, ?Hl, ?Hs; done.
Qed.

Lemma empty_ledger_ok : ledger_ok empty_ledger.
Proof.
  intros ast. split; [split| | | |]; books; rewrite ?lookup_d_empty;
    try constructor; try apply finite_of_Z; try done; qclra.
Qed.

(** *** The wash-sale loops move basis, never shares *)
Lemma wash_buy_step_exact ast d sale w :
  exact_lots (bw_lots w) → finite (bw_remaining w) → ok_sale sale → Forall ok_sale (bw_sales w) →
  let w' := wash_buy_step ast d sale w in
  exact_lots (bw_lots w') ∧ finite (bw_remaining w') ∧ Forall ok_sale (bw_sales w') ∧
  shares (bw_lots w') = shares (bw_lots w).
Proof.
  intros Hl [r Hr] [[q Hq] [p Hp]] Hs. cbn zeta. unfold wash_buy_step.
  destruct (outside_window _ _).
  { repeat split; cbn; rewrite ?Hr; eauto with exact.
    by apply Forall_app_2; [done|]; apply Forall_singleton; split; rewrite ?Hq, ?Hp; eauto with exact. }
  rewrite Hq, Hr, Hp.
  assert (Hm : ∃ m, cap (Fin q) (Fin r) = Fin m) by (apply finite_cap; eauto with exact).
  destruct Hm as [m Hm]. rewrite Hm.
  pose proof (splitLot_conserves (bw_lots w) (bw_lotID w) m Hl) as (He & Hsh & _).
  destruct (splitLot _ _ _) as [[lots hid] tid]. cbn in He, Hsh.
  destruct (flt (Fin m) (Fin r)); cbn -[shares];
    [destruct (adjust_basis_shares lots hid p He) as [He' Hsh']
    |destruct (adjust_basis_shares (bw_lots w) (bw_lotID w) p Hl) as [He' Hsh']];
    (split; [done|]; split; [eauto with exact|]; split; [|congruence]);
    (apply Forall_app_2; [done|]; apply Forall_singleton; split; cbn; rewrite ?Hp; eauto with exact).
Qed.

Lemma wash_buy_loop_exact ast d sales w :
  exact_lots (bw_lots w) → finite (bw_remaining w) → Forall ok_sale sales →
  Forall ok_sale (bw_sales w) →
  let w' := wash_buy_loop ast d sales w in
  exact_lots (bw_lots w') ∧ finite (bw_remaining w') ∧ Forall ok_sale (bw_sales w') ∧
  shares (bw_lots w') = shares (bw_lots w).
Proof.
  intros Hl Hr Hs. revert w Hl Hr. induction Hs as [|s sales Hok Hs IH]; intros w Hl Hr Hw;
    cbn zeta in *;
    [done|]. cbn [wash_buy_loop wash_sell_loop]. case_if.
  - destruct (wash_buy_step_exact ast d s w Hl Hr Hok Hw) as (Hl' & Hr' & Hw' & Hsh').
    destruct (IH _ Hl' Hr' Hw') as (? & ? & ? & Hsh). repeat split; try done. congruence.
  - cbn. repeat split; try done. apply Forall_app. split; [done|]. by constructor.
Qed.

Lemma wash_sell_step_exact ast d (p : Qc) c buy w :
  exact_lots (sw_lots w) → finite (sw_remaining w) → finite (sw_disallowed w) → ok_buy buy →
  Forall ok_buy (sw_buys w) →
  let w' := wash_sell_step ast d (Fin p) c buy w in
  exact_lots (sw_lots w') ∧ finite (sw_remaining w') ∧ finite (sw_disallowed w') ∧
  Forall ok_buy (sw_buys w') ∧ shares (sw_lots w') = shares (sw_lots w).
Proof.
  intros Hl [r Hr] [u Hu] [q Hq] Hs. cbn zeta. unfold wash_sell_step.
  destruct (_ || _ || _).
  { repeat split; cbn; rewrite ?Hr, ?Hu; eauto with exact.
    by apply Forall_app_2; [done|]; apply Forall_singleton; exists q. }
  rewrite Hq, Hr, Hu.
  assert (Hm : ∃ m, cap (Fin q) (Fin r) = Fin m) by (apply finite_cap; eauto with exact).
  destruct Hm as [m Hm]. rewrite Hm.
  pose proof (splitLot_conserves (sw_lots w) (rb_lotID buy) m Hl) as (He & Hsh & _).
  destruct (splitLot _ _ _) as [[lots hid] tid]. cbn in He, Hsh.
  destruct (flt (Fin m) (Fin q)); cbn -[shares];
    [destruct (adjust_basis_shares lots hid p He) as [He' Hsh']
    |destruct (adjust_basis_shares (sw_lots w) (rb_lotID buy) p Hl) as [He' Hsh']];
    (split; [done|]; do 2 (split; [eauto with exact|]); split; [|congruence]);
    (apply Forall_app_2; [done|]; apply Forall_singleton; unfold ok_buy; cbn; eauto with exact).
Qed.

Lemma wash_sell_loop_exact ast d (p : Qc) c buys w :
  exact_lots (sw_lots w) → finite (sw_remaining w) → finite (sw_disallowed w) →
  Forall ok_buy buys → Forall ok_buy (sw_buys w) →
  let w' := wash_sell_loop ast d (Fin p) c buys w in
  exact_lots (sw_lots w') ∧ finite (sw_disallowed w') ∧ Forall ok_buy (sw_buys w') ∧
  shares (sw_lots w') = shares (sw_lots w).
Proof.
  intros Hl Hr Hu Hs. revert w Hl Hr Hu.
  induction Hs as [|s buys Hok Hs IH]; intros w Hl Hr Hu Hw; cbn zeta in *;
    [done|]. cbn [wash_buy_loop wash_sell_loop]. case_if.
  - destruct (wash_sell_step_exact ast d p c s w Hl Hr Hu Hok Hw) as (Hl' & Hr' & Hu' & Hw' & Hsh').
    destruct (IH _ Hl' Hr' Hu' Hw') as (? & ? & ? & Hsh). repeat split; try done. congruence.
  - cbn. repeat split; try done. apply Forall_app. split; [done|]. by constructor.
Qed.

Lemma Forall_keep {A} (P : A → Prop) (f : A → bool) (l : list A) :
  Forall P l → Forall P (keep f l).
Proof. rewrite !Forall_forall. intros Hl x [_ Hx]%elem_of_keep. auto. Qed.

(** What a phase does to the books of its own asset: [dp], [dl] and [ds] are
    the changes of the position, the long shares and the short shares. *)
Definition phase ast (dp dl ds : Qc) L L' : Prop :=
  local_to ast L L' ∧ books_finite L' ast ∧
  val (position L' ast) = (val (position L ast) + dp)%Qc ∧
  shares (long_lots L' ast) = (shares (long_lots L ast) + dl)%Qc ∧
  shares (short_lots L' ast) = (shares (short_lots L ast) + ds)%Qc.

Lemma phase_refl ast L : books_finite L ast → phase ast 0 0 0 L L.
Proof. intros. split; [reflexivity|]. split; [done|]. qclra. Qed.

Lemma phase_trans ast dp dl ds dp' dl' ds' L1 L2 L3 :
  phase ast dp dl ds L1 L2 → phase ast dp' dl' ds' L2 L3 →
  phase ast (dp + dp') (dl + dl') (ds + ds') L1 L3.
Proof.
  intros (H12 & _ & Hp & Hl & Hs) (H23 & Hf & Hp' & Hl' & Hs').
  split; [by etrans|]. split; [done|]. rewrite Hp', Hl', Hs', Hp, Hl, Hs. qclra.
Qed.

Lemma phase_same ast L L' :
  same_core L L' → (∀ b, same_books b L L') → books_finite L ast → phase ast 0 0 0 L L'.
Proof.
  intros Hc Hb Hf. split; [by split|].
  split; [by eapply books_finite_same; [apply Hb|]|].
  destruct (Hb ast) as (-> & -> & -> & _). qclra.
Qed.

Lemma phase_weaken ast dp dl ds dp' dl' ds' L L' :
  dp = dp' → dl = dl' → ds = ds' → phase ast dp dl ds L L' → phase ast dp' dl' ds' L L'.
Proof. by intros -> -> ->. Qed.
End Exact.

Section RecordPhases.
Context {tz : TZDB} {fx : FmtFloat xq}.
Implicit Types (L : Ledger xq) (ast b : Asset) (txn : Transaction xq).

Lemma add_trades_phase dir txn q method lots L ast :
  books_finite L ast → phase ast 0 0 0 L (add_trades dir txn q method lots L).
Proof. apply phase_same; apply add_trades_local. Qed.

Lemma open_excursion_phase a price L ast :
  books_finite L ast → phase ast 0 0 0 L (open_excursion a price L).
Proof. apply phase_same; apply open_excursion_local. Qed.

Lemma drop_excursion_phase lots a L ast :
  books_finite L ast → phase ast 0 0 0 L (drop_excursion_if_empty lots a L).
Proof. apply phase_same; apply drop_excursion_local. Qed.

(** Adding a loss sale or a recent buy changes tracking only. *)
Lemma push_loss_sale_phase ast s L :
  ok_sale s → books_finite L ast →
  phase ast 0 0 0 L
    (with_recentLossSales (<[ast := loss_sales L ast ++ [s]]> (recentLossSales L)) L).
Proof.
  intros Hs [Hp Hl Hsh Hls Hrb]. split; [by frame|].
  split; [|books; qclra].
  split; books; try done. apply Forall_app_2; [done|]. by apply Forall_singleton.
Qed.

Lemma push_recent_buy_phase ast x L :
  ok_buy x → books_finite L ast →
  phase ast 0 0 0 L (with_recentBuys (<[ast := recent_buys L ast ++ [x]]> (recentBuys L)) L).
Proof.
  intros Hs [Hp Hl Hsh Hls Hrb]. split; [by frame|].
  split; [|books; qclra].
  split; books; try done. apply Forall_app_2; [done|]. by apply Forall_singleton.
Qed.

Lemma set_long_phase ast lots (dl : Qc) L :
  books_finite L ast → exact_lots lots → shares lots = (shares (long_lots L ast) + dl)%Qc →
  phase ast 0 dl 0 L (with_taxLots (<[ast := lots]> (taxLots L)) L).
Proof.
  intros [] He Hs. split; [by frame|]. split; [by split; books|].
  books. rewrite Hs. qclra.
Qed.

Lemma set_short_phase ast lots (ds : Qc) L :
  books_finite L ast → exact_lots lots → shares lots = (shares (short_lots L ast) + ds)%Qc →
  phase ast 0 0 ds L (with_shortLots (<[ast := lots]> (shortLots L)) L).
Proof.
  intros [] He Hs. split; [by frame|]. split; [by split; books|].
  books. rewrite Hs. qclra.
Qed.

Lemma set_position_phase ast (p dp : Qc) L :
  books_finite L ast → p = (val (position L ast) + dp)%Qc →
  phase ast dp 0 0 L (with_holdings (<[ast := Fin p]> (holdings L)) L).
Proof.
  intros [] ->. split; [by frame|]. split; [by split; books; eauto with exact|].
  books. qclra.
Qed.

Lemma checkWashSaleOnBuy_phase ast d (q : Qc) id L :
  books_finite L ast →
  let r := checkWashSaleOnBuy ast d (Fin q) id L in
  phase ast 0 0 0 L r.1.1 ∧ finite r.2.
Proof.
  intros Hf. cbn zeta. pose proof (checkWashSaleOnBuy_local ast d (Fin q) id L) as Hloc.
  revert Hloc. pose proof Hf as [Hp Hl Hs Hls Hrb]. unfold checkWashSaleOnBuy.
  destruct (loss_sales L ast) as [|s sales] eqn:Els; cbn -[wash_buy_loop];
    intros Hloc; [split; [by apply phase_refl|eauto with exact]|].
  destruct (wash_buy_loop_exact ast d (s :: sales)
    (mkBuyWash (long_lots L ast) id (Fin q) [] [])) as (He & Hr & Hok & Hsh);
    cbn; eauto with exact.
  set (w := wash_buy_loop _ _ _ _) in *. cbn in Hsh.
  split; [|done]. split; [done|].
  assert (Hlong : lookup_d [] (alter (λ _, bw_lots w) ast (taxLots L)) ast = bw_lots w ∨
    lookup_d [] (alter (λ _, bw_lots w) ast (taxLots L)) ast = long_lots L ast).
  { rewrite lookup_d_alter_eq. unfold long_lots, lookup_d. destruct (taxLots L !! ast); cbn; auto. }
  split.
  - split; books; try done.
    + by destruct Hlong as [-> | ->].
    + rewrite store_pruned_eq. by apply Forall_keep.
  - books. destruct Hlong as [-> | ->]; rewrite ?Hsh; qclra.
Qed.

Lemma checkWashSaleOnSell_phase ast d (q p : Qc) c L :
  books_finite L ast →
  let r := checkWashSaleOnSell ast d (Fin q) (Fin p) c L in
  phase ast 0 0 0 L r.1 ∧ finite r.2.
Proof.
  intros Hf. cbn zeta. pose proof (checkWashSaleOnSell_local ast d (Fin q) (Fin p) c L) as Hloc.
  revert Hloc. pose proof Hf as [Hp Hl Hs Hls Hrb]. unfold checkWashSaleOnSell.
  destruct (recent_buys L ast) as [|s buys] eqn:Els; cbn -[wash_sell_loop];
    intros Hloc; [split; [by apply phase_refl|eauto with exact]|].
  destruct (wash_sell_loop_exact ast d p c (s :: buys)
    (mkSellWash (long_lots L ast) (Fin q) (Fin (qc_of_Z 0)) [] [])) as (He & Hr & Hok & Hsh);
    cbn; eauto with exact.
  set (w := wash_sell_loop _ _ _ _ _ _) in *. cbn in Hsh.
  split; [|done]. split; [done|].
  assert (Hlong : lookup_d [] (alter (λ _, sw_lots w) ast (taxLots L)) ast = sw_lots w ∨
    lookup_d [] (alter (λ _, sw_lots w) ast (taxLots L)) ast = long_lots L ast).
  { rewrite lookup_d_alter_eq. unfold long_lots, lookup_d. destruct (taxLots L !! ast); cbn; auto. }
  split.
  - split; books; try done.
    + by destruct Hlong as [-> | ->].
    + rewrite store_pruned_eq. by apply Forall_keep.
  - books. destruct Hlong as [-> | ->]; rewrite ?Hsh; qclra.
Qed.
End RecordPhases.

(** ** The phases of [Record] *)
Section RecordExact.
Context {tz : TZDB} {fx : FmtFloat xq}.
Implicit Types (L : Ledger xq) (ast b : Asset) (txn : Transaction xq).

Lemma phase_finite ast dp dl ds L L' : phase ast dp dl ds L L' → books_finite L' ast.
Proof. by intros (_ & ? & _). Qed.

(** Chains a phase after those already done. *)
Ltac then_phase H := eapply phase_trans; [|apply H; try (eapply phase_finite; eassumption)].

Lemma cover_shorts_phase txn (p q : Qc) L :
  t_Price txn = Fin p → books_finite L (t_Asset txn) →
  (0 < q)%Qc → (q <= shares (short_lots L (t_Asset txn)))%Qc →
  phase (t_Asset txn) 0 0 (- q) L (cover_shorts txn (Fin q) L).
Proof.
  intros Hp Hf H0 Hq. unfold cover_shorts. set (ast := t_Asset txn) in *.
  set (method := effective_method L txn).
  pose proof (add_trades_phase TradeShort txn (Fin q) method (short_lots L ast) L ast Hf) as P1.
  set (L1 := add_trades _ _ _ _ _ _) in *.
  pose proof (phase_finite _ _ _ _ _ _ P1) as Hf1.
  assert (Hs1 : short_lots L1 ast = short_lots L ast).
  { by destruct (add_trades_local TradeShort txn (Fin q) method (short_lots L ast) L)
      as [_ Hb]; destruct (Hb ast) as (_ & _ & ? & _). }
  rewrite Hs1.
  destruct (consumed_average (short_lots L ast) q method) as [_ ->]; [apply Hf|done..|].
  rewrite Hp.
  destruct (consume_lots_conserves (short_lots L ast) q method) as (He & _ & Hsh & _);
    [apply Hf|qclra|].
  assert (P2 := set_short_phase ast _ (- q) L1 Hf1 He ltac:(rewrite Hs1, Hsh; qclra)).
  set (L2 := with_shortLots _ L1) in *.
  match goal with |- context [if ?c then ?x else L2] => set (L3 := if c then x else L2) end.
  assert (P3 : phase ast 0 0 0 L2 L3).
  { unfold L3. case_if; [|by apply phase_refl; eapply phase_finite].
    apply push_loss_sale_phase; [|by eapply phase_finite]. split; cbn; eauto with exact. }
  eapply phase_weaken; [| | |eapply phase_trans; [eapply phase_trans; [exact P1|exact P2]|
    eapply phase_trans; [exact P3|apply drop_excursion_phase; by eapply phase_finite]]]; qclra.
Qed.

Lemma open_long_phase txn (p q : Qc) L :
  t_Price txn = Fin p → books_finite L (t_Asset txn) →
  phase (t_Asset txn) 0 q 0 L (open_long txn (Fin q) L).
Proof.
  intros Hp Hf. unfold open_long. set (ast := t_Asset txn) in *.
  set (id := lot_id _ _ _). set (lots := long_lots L ast ++ _).
  assert (P1 : phase ast 0 q 0 L (with_taxLots (<[ast := lots]> (taxLots L)) L)).
  { apply set_long_phase; [done| |].
    - apply Forall_app_2; [apply Hf|]. apply Forall_singleton.
      by split; cbn; rewrite ?Hp; eauto with exact.
    - unfold lots. rewrite shares_app, shares_cons. unfold lot_shares. cbn.
      change (shares []) with 0%Qc. qclra. }
  set (L1 := with_taxLots _ L) in *.
  destruct (checkWashSaleOnBuy_phase ast (t_Date txn) q id L1) as [P2 Hr];
    [by eapply phase_finite|].
  destruct (checkWashSaleOnBuy _ _ _ _ _) as [[L2 rid] rq]. cbn [fst snd] in *.
  match goal with |- context [if ?c then ?x else L2] => set (L3 := if c then x else L2) end.
  assert (P3 : phase ast 0 0 0 L2 L3).
  { unfold L3. case_if; [|by apply phase_refl; eapply phase_finite].
    by apply push_recent_buy_phase; [|eapply phase_finite]. }
  eapply phase_weaken; [| | |eapply phase_trans; [eapply phase_trans; [exact P1|exact P2]|
    eapply phase_trans; [exact P3|apply open_excursion_phase; by eapply phase_finite]]]; qclra.
Qed.

Lemma close_longs_phase txn (p q : Qc) L :
  t_Price txn = Fin p → books_finite L (t_Asset txn) →
  (0 < q)%Qc → (q <= shares (long_lots L (t_Asset txn)))%Qc →
  phase (t_Asset txn) 0 (- q) 0 L (close_longs txn (Fin q) L).
Proof.
  intros Hp Hf H0 Hq. unfold close_longs. set (ast := t_Asset txn) in *.
  set (method := effective_method L txn).
  pose proof (add_trades_phase TradeLong txn (Fin q) method (long_lots L ast) L ast Hf) as P1.
  set (L1 := add_trades _ _ _ _ _ _) in *.
  pose proof (phase_finite _ _ _ _ _ _ P1) as Hf1.
  assert (Hs1 : long_lots L1 ast = long_lots L ast).
  { by destruct (add_trades_local TradeLong txn (Fin q) method (long_lots L ast) L)
      as [_ Hb]; destruct (Hb ast) as (_ & ? & _). }
  rewrite Hs1.
  destruct (consumed_average (long_lots L ast) q method) as [Havg _]; [apply Hf|done..|].
  rewrite Havg, Hp.
  destruct (consume_lots_conserves (long_lots L ast) q method) as (He & _ & Hsh & _);
    [apply Hf|qclra|].
  assert (P2 := set_long_phase ast _ (- q) L1 Hf1 He ltac:(rewrite Hs1, Hsh; qclra)).
  set (L2 := with_taxLots _ L1) in *.
  set (avg := (matched_basis _ / q)%Qc) in *.
  change (fsub (Fin avg) (Fin p)) with (Fin (avg + - p)%Qc).
  case_if.
  2:{ eapply phase_weaken; [| | |eapply phase_trans; [exact P1|exact P2]]; qclra. }
  set (c := latestBuyDate _).
  destruct (checkWashSaleOnSell_phase ast (t_Date txn) q (avg + - p)%Qc c L2) as [P3 Hr];
    [by eapply phase_finite|].
  destruct (checkWashSaleOnSell _ _ _ _ _ _) as [L3 dq]. cbn [fst snd] in *.
  match goal with |- context [if ?c then ?x else L3] => set (L4 := if c then x else L3) end.
  assert (P4 : phase ast 0 0 0 L3 L4).
  { unfold L4. case_if; [|by apply phase_refl; eapply phase_finite].
    apply push_loss_sale_phase; [|by eapply phase_finite].
    split; cbn [ls_qty ls_lossPerShare]; eauto with exact. }
  eapply phase_weaken; [| | |eapply phase_trans; [eapply phase_trans; [exact P1|exact P2]|
    eapply phase_trans; [exact P3|exact P4]]]; qclra.
Qed.

Lemma open_short_phase txn (p q : Qc) L :
  t_Price txn = Fin p → books_finite L (t_Asset txn) →
  phase (t_Asset txn) 0 0 q L (open_short txn (Fin q) L).
Proof.
  intros Hp Hf. unfold open_short. set (ast := t_Asset txn) in *.
  set (id := lot_id _ _ _). set (lots := short_lots L ast ++ _).
  assert (P1 : phase ast 0 0 q L (with_shortLots (<[ast := lots]> (shortLots L)) L)).
  { apply set_short_phase; [done| |].
    - apply Forall_app_2; [apply Hf|]. apply Forall_singleton.
      by split; cbn; rewrite ?Hp; eauto with exact.
    - unfold lots. rewrite shares_app, shares_cons. unfold lot_shares. cbn.
      change (shares []) with 0%Qc. qclra. }
  eapply phase_weaken; [| | |eapply phase_trans; [exact P1|
    apply open_excursion_phase; by eapply phase_finite]]; qclra.
Qed.

(** Clearing a flat asset keeps balanced books balanced. *)
Lemma cleanup_flat_ok ast L : books_ok L ast → books_ok (cleanup_flat ast L) ast.
Proof.
  intros Hok. unfold cleanup_flat. case_if; [|done].
  destruct Hok as [[Hp Hl Hs Hls Hrb] Hbal Hl0 Hs0 Hone].
  split; [split| | | |]; books; rewrite ?qc_of_Z_0, ?shares_nil; try done;
    try apply finite_Fin; try (by constructor); try qclra.
Qed.

(** Books after the two phases of a trade, from the changes they made. *)
Lemma books_after ast dp dl ds L L' :
  books_ok L ast → phase ast dp dl ds L L' → dp = (dl - ds)%Qc →
  (0 <= shares (long_lots L ast) + dl)%Qc → (0 <= shares (short_lots L ast) + ds)%Qc →
  ((shares (long_lots L ast) + dl)%Qc = 0%Qc ∨ (shares (short_lots L ast) + ds)%Qc = 0%Qc) →
  books_ok L' ast.
Proof.
  intros [Hf Hbal Hl0 Hs0 Hone] (_ & Hf' & Hp & Hl & Hs) -> Hl1 Hs1 Hone1.
  split; [done| | | |]; rewrite ?Hp, ?Hl, ?Hs; try done. rewrite Hbal. ring.
Qed.
End RecordExact.

(** ** Record keeps the books of every asset *)
Section RecordOk.
Context {tz : TZDB} {fx : FmtFloat xq}.
Implicit Types (L : Ledger xq) (ast b : Asset) (txn : Transaction xq).

Lemma cap_exact (q s : Qc) : cap (Fin q) (Fin s) = Fin (if qc_ltb s q then s else q).
Proof. unfold cap. cbn. by destruct (qc_ltb s q). Qed.

Lemma ledger_ok_local ast L L' :
  ledger_ok L → (∀ b, b ≠ ast → same_books b L L') → books_ok L' ast → ledger_ok L'.
Proof.
  intros Hok Hb Ha b. destruct (decide (b = ast)) as [->|Hne]; [done|].
  eapply books_ok_same; eauto.
Qed.

(** A trade is a position change, an optional closing phase, an optional
    opening phase and the clean-up. *)
Lemma trade_ok ast dp dl ds L L1 :
  ledger_ok L → phase ast dp dl ds L L1 → dp = (dl - ds)%Qc →
  (0 <= shares (long_lots L ast) + dl)%Qc → (0 <= shares (short_lots L ast) + ds)%Qc →
  ((shares (long_lots L ast) + dl)%Qc = 0%Qc ∨ (shares (short_lots L ast) + ds)%Qc = 0%Qc) →
  ledger_ok (cleanup_flat ast L1).
Proof.
  intros Hok Hph Hdp Hl Hs Hone.
  apply (ledger_ok_local ast L); [done| |].
  - destruct Hph as [[_ Hloc] _]. intros b Hb. etrans; [by apply Hloc|].
    by apply cleanup_flat_local.
  - apply cleanup_flat_ok. by eapply books_after.
Qed.

Lemma optional_phase ast (c : bool) (dl ds : Qc) L (f : Ledger xq) :
  books_finite L ast → (c = true → phase ast 0 dl ds L f) → (c = false → dl = 0%Qc ∧ ds = 0%Qc) →
  phase ast 0 dl ds L (if c then f else L).
Proof.
  intros Hf Ht He. destruct c; [by apply Ht|]. destruct He as [-> ->]; [done|].
  by apply phase_refl.
Qed.

Lemma record_buy_ok txn (p q : Qc) L :
  t_Price txn = Fin p → t_Qty txn = Fin q → (0 <= q)%Qc →
  ledger_ok L → ledger_ok (record_buy txn L).
Proof.
  intros Hp Hq H0 Hok. unfold record_buy. set (ast := t_Asset txn).
  destruct (Hok ast) as [Hf Hbal Hl0 Hs0 Hone].
  rewrite Hq. destruct (bf_pos _ _ Hf) as [pos Hpos]. rewrite Hpos.
  change (fadd (Fin pos) (Fin q)) with (Fin (pos + q)%Qc).
  pose proof (set_position_phase ast (pos + q) q L Hf ltac:(by rewrite Hpos)) as P1.
  set (L1 := with_holdings _ L) in *.
  pose proof (phase_finite _ _ _ _ _ _ P1) as Hf1.
  assert (Hs1 : short_lots L1 ast = short_lots L ast) by reflexivity.
  rewrite Hs1, lots_qty_exact by apply Hf. set (s := shares (short_lots L ast)) in *.
  rewrite cap_exact. set (c := if qc_ltb s q then s else q).
  assert (Hc : (0 <= c)%Qc ∧ (c <= s)%Qc ∧ (c <= q)%Qc).
  { unfold c. destruct (qc_ltb s q) eqn:E; qc_bools; qclra. }
  destruct Hc as (Hc0 & Hcs & Hcq).
  set (L2 := if flt 0%F (Fin c) then cover_shorts txn (Fin c) L1 else L1).
  assert (P2 : phase ast 0 0 (- c) L1 L2).
  { apply optional_phase; [done| |].
    - cbn. rewrite qc_of_Z_0, qc_ltb_true. intros. by eapply cover_shorts_phase;
        done.
    - cbn. rewrite qc_of_Z_0, qc_ltb_false. qclra. }
  pose proof (phase_finite _ _ _ _ _ _ P2) as Hf2.
  change (fsub (Fin q) (Fin c)) with (Fin (q + - c)%Qc).
  set (L3 := if flt 0%F (Fin (q + - c)) then open_long txn (Fin (q + - c)) L2 else L2).
  assert (P3 : phase ast 0 (q + - c) 0 L2 L3).
  { apply optional_phase; [done| |].
    - intros _. by eapply open_long_phase.
    - cbn. rewrite qc_of_Z_0, qc_ltb_false. qclra. }
  eapply trade_ok; [exact Hok|eapply phase_trans; [exact P1|eapply phase_trans; [exact P2|exact P3]]|..];
    fold s; try qclra.
  revert Hone. unfold c. destruct (qc_ltb s q) eqn:E; qc_bools; intros [Hz|Hz];
    first [right; qclra | left; qclra].
Qed.

Lemma record_sell_ok txn (p q : Qc) L :
  t_Price txn = Fin p → t_Qty txn = Fin q → (0 <= q)%Qc →
  ledger_ok L → ledger_ok (record_sell txn L).
Proof.
  intros Hp Hq H0 Hok. unfold record_sell. set (ast := t_Asset txn).
  destruct (Hok ast) as [Hf Hbal Hl0 Hs0 Hone].
  rewrite Hq. destruct (bf_pos _ _ Hf) as [pos Hpos]. rewrite Hpos.
  change (fsub (Fin pos) (Fin q)) with (Fin (pos + - q)%Qc).
  pose proof (set_position_phase ast (pos + - q) (- q) L Hf ltac:(by rewrite Hpos)) as P1.
  set (L1 := with_holdings _ L) in *.
  pose proof (phase_finite _ _ _ _ _ _ P1) as Hf1.
  assert (Hs1 : long_lots L1 ast = long_lots L ast) by reflexivity.
  rewrite Hs1, lots_qty_exact by apply Hf. set (s := shares (long_lots L ast)) in *.
  rewrite cap_exact. set (c := if qc_ltb s q then s else q).
  assert (Hc : (0 <= c)%Qc ∧ (c <= s)%Qc ∧ (c <= q)%Qc).
  { unfold c. destruct (qc_ltb s q) eqn:E; qc_bools; qclra. }
  destruct Hc as (Hc0 & Hcs & Hcq).
  match goal with |- context [if flt 0%F (Fin c) then ?x else L1] =>
    set (L2 := if flt 0%F (Fin c) then x else L1) end.
  assert (P2 : phase ast 0 (- c) 0 L1 L2).
  { apply optional_phase; [done| |].
    - cbn. rewrite qc_of_Z_0, qc_ltb_true. intros Hcp.
      eapply phase_weaken; [| | |eapply phase_trans;
        [eapply close_longs_phase; done|
         apply drop_excursion_phase]]; try qclra.
      eapply phase_finite, close_longs_phase; done.
    - cbn. rewrite qc_of_Z_0, qc_ltb_false. qclra. }
  pose proof (phase_finite _ _ _ _ _ _ P2) as Hf2.
  change (fsub (Fin q) (Fin c)) with (Fin (q + - c)%Qc).
  set (L3 := if flt 0%F (Fin (q + - c)) then open_short txn (Fin (q + - c)) L2 else L2).
  assert (P3 : phase ast 0 0 (q + - c) L2 L3).
  { apply optional_phase; [done| |].
    - intros _. by eapply open_short_phase.
    - cbn. rewrite qc_of_Z_0, qc_ltb_false. qclra. }
  eapply trade_ok; [exact Hok|eapply phase_trans; [exact P1|eapply phase_trans; [exact P2|exact P3]]|..];
    fold s; try qclra.
  revert Hone. unfold c. destruct (qc_ltb s q) eqn:E; qc_bools; intros [Hz|Hz];
    first [right; qclra | left; qclra].
Qed.

(** A sell of the whole (short) position: the transaction the simulated
    broker reports for a delisted asset. *)
Lemma record_sell_flat_ok txn (q : Qc) L :
  t_Qty txn = Fin q → (q < 0)%Qc → q = val (position L (t_Asset txn)) →
  ledger_ok L → ledger_ok (record_sell txn L).
Proof.
  intros Hq H0 Hpos Hok. unfold record_sell. set (ast := t_Asset txn) in *.
  destruct (Hok ast) as [Hf Hbal Hl0 Hs0 Hone].
  destruct (bf_pos _ _ Hf) as [pos Hpe]. rewrite Hpe in Hpos, Hbal. cbn in Hpos, Hbal. subst pos.
  rewrite Hq, Hpe. change (fsub (Fin q) (Fin q)) with (Fin (q + - q)%Qc).
  set (L1 := with_holdings _ L).
  assert (Hl1 : long_lots L1 ast = long_lots L ast) by reflexivity.
  rewrite Hl1, lots_qty_exact by apply Hf. rewrite cap_exact.
  destruct (qc_ltb (shares (long_lots L ast)) q) eqn:E; qc_bools; [exfalso; qclra|].
  change (fsub (Fin q) (Fin q)) with (Fin (q + - q)%Qc).
  assert (E0 : qc_ltb 0 q = false) by (apply qc_ltb_false; qclra).
  assert (E1 : qc_ltb 0 (q + - q) = false) by (apply qc_ltb_false; qclra).
  assert (E2 : qc_eqb (q + - q) 0 = true) by (apply qc_eqb_true; qclra).
  assert (Hp1 : position L1 ast = Fin (q + - q)) by (unfold L1; books; done).
  cbn -[cleanup_flat L1]. rewrite qc_of_Z_0, E0, E1. unfold cleanup_flat.
  rewrite Hp1. cbn -[L1]. rewrite qc_of_Z_0, E2.
  apply (ledger_ok_local ast L); [done|by frame|].
  destruct Hf. split; [split| | | |]; books; rewrite ?qc_of_Z_0, ?shares_nil; try done;
    try apply finite_Fin; try (by constructor); try qclra.
Qed.

(** *** Pruning the wash-sale tracking *)
Lemma prune_fold_lookup {A} (f : list A → list A) (kvs : list (Asset * list A))
    (m : gmap Asset (list A)) b :
  NoDup kvs.*1 →
  lookup_d [] (foldr (λ kv m', store_pruned m' kv.1 (f kv.2)) m kvs) b =
  match list_find (λ kv, kv.1 = b) kvs with
  | Some (_, kv) => f kv.2
  | None => lookup_d [] m b
  end.
Proof.
  induction kvs as [|[a l] kvs IH]; [done|]. cbn [fmap list_fmap fst]. rewrite NoDup_cons.
  intros [Ha Hkvs]. cbn [foldr list_find fst snd]. destruct (decide (a = b)) as [->|Hne].
  - by rewrite store_pruned_eq.
  - rewrite store_pruned_ne, IH by done. by destruct (list_find _ kvs) as [[]|].
Qed.

Lemma prune_map_lookup {A} (date : A → Time) cutoff (m : gmap Asset (list A)) b :
  lookup_d [] (prune_map date cutoff m) b =
  keep (λ x, not_before cutoff (date x)) (lookup_d [] m b).
Proof.
  unfold prune_map. rewrite prune_fold_lookup by apply NoDup_fst_map_to_list.
  destruct (list_find _ _) as [[i [k l]]|] eqn:E.
  - apply list_find_Some in E as (Hi & Hk & _). cbn in Hk. subst k.
    apply list_elem_of_lookup_2, elem_of_map_to_list in Hi.
    unfold lookup_d. by rewrite Hi.
  - apply list_find_None in E. unfold lookup_d. destruct (m !! b) as [l|] eqn:Hl; [|done].
    apply elem_of_map_to_list in Hl. rewrite Forall_forall in E. by destruct (E _ Hl).
Qed.

Lemma log_transaction_ok txn L : ledger_ok L → ledger_ok (log_transaction txn L).
Proof.
  intros Hok b. destruct (Hok b) as [[] ? ? ? ?]. unfold log_transaction.
  destruct (decide _); (split; [split| | | |]; books; rewrite ?prune_map_lookup;
    try done; by apply Forall_keep).
Qed.

(** The trades the ledger is asked to record: a non-negative quantity, or the
    liquidation of the whole position. *)
Definition trade_allowed L txn : Prop :=
  (t_Type txn = BuyTransaction ∨ t_Type txn = SellTransaction) →
  flt (t_Qty txn) (of_Z 0) = false ∨
  (t_Type txn = SellTransaction ∧ t_Qty txn = position L (t_Asset txn)).

Lemma isFinite_exact txn :
  isFiniteTransaction txn = true →
  finite (t_Qty txn) ∧ finite (t_Price txn) ∧ finite (t_Amount txn).
Proof.
  unfold isFiniteTransaction.
  destruct (t_Qty txn), (t_Price txn), (t_Amount txn); cbn; try done;
    intros _; eauto with exact.
Qed.

Lemma Record_ok txn L : trade_allowed L txn → ledger_ok L → ledger_ok (Record_ txn L).
Proof.
  intros Hallow Hok. unfold Record_. destruct (isFiniteTransaction txn) eqn:Hfin; [|done].
  cbn [negb]. destruct (isFinite_exact _ Hfin) as ([q Hq] & [p Hp] & _).
  destruct (decide (t_Type txn = DividendTransaction)) as [Hd|Hd].
  { change (t_Type (set_Qualified _ txn)) with (t_Type txn). rewrite Hd.
    by apply log_transaction_ok. }
  pose proof (log_transaction_ok txn L Hok) as Hlog.
  destruct (t_Type txn) eqn:Ht; try done.
  - destruct (Hallow (or_introl Ht)) as [Hn|[Hs _]]; [|congruence].
    rewrite Hq in Hn. cbn in Hn. apply qc_ltb_false in Hn. by eapply record_buy_ok.
  - destruct (Hallow (or_intror Ht)) as [Hn|[_ Hpos]].
    + rewrite Hq in Hn. cbn in Hn. apply qc_ltb_false in Hn. by eapply record_sell_ok.
    + destruct (qc_ltb q 0) eqn:E; qc_bools; [|by eapply record_sell_ok].
      eapply record_sell_flat_ok; [done|done| |done].
      assert (Hsame : position (log_transaction txn L) (t_Asset txn) = position L (t_Asset txn)).
      { unfold log_transaction. by destruct (decide _). }
      by rewrite Hsame, <-Hpos, Hq.
Qed.

(** *** Splits *)
Lemma split_adjust_shares (f : Qc) lots :
  f ≠ 0%Qc → exact_lots lots →
  exact_lots (split_adjust_lot (Fin f) <$> lots) ∧
  shares (split_adjust_lot (Fin f) <$> lots) = (shares lots * f)%Qc ∧
  basis (split_adjust_lot (Fin f) <$> lots) = basis lots.
Proof.
  intros Hne Hl. assert (Hf : qc_eqb f 0 = false) by by apply qc_eqb_false.
  induction Hl as [|lot lots [[q Hq] [p Hp]] Hl (IHe & IHs & IHb)]; cbn -[shares basis].
  { split; [constructor|]. rewrite shares_nil. split; [ring|done]. }
  rewrite !shares_cons, !basis_cons, IHs, IHb. unfold lot_shares, lot_basis. cbn.
  rewrite Hq, Hp. cbn. rewrite Hf. cbn. split; [|split; [ring|by field]].
  constructor; [|done]. split; cbn; rewrite ?Hq, ?Hp; cbn; rewrite ?Hf; eauto with exact.
Qed.

Lemma ApplySplit_ok ast d (f : Qc) L L' :
  (0 < f)%Qc → ApplySplit ast d (Fin f) L = Ok L' → ledger_ok L → ledger_ok L'.
Proof.
  intros Hf. unfold ApplySplit. case_if; [done|]. case_if; [by intros [= <-]|].
  intros [= <-] Hok. apply (ledger_ok_local ast L); [done|by frame|].
  destruct (Hok ast) as [[[p Hp] Hl Hs Hls Hrb] Hbal Hl0 Hs0 Hone].
  destruct (split_adjust_shares f (long_lots L ast)) as (Hle & Hlsh & _); [qclra|done|].
  destruct (split_adjust_shares f (short_lots L ast)) as (Hse & Hssh & _); [qclra|done|].
  rewrite Hp in Hbal. cbn in Hbal.
  assert (Hal : ∀ m : gmap Asset (list (TaxLot xq)),
    lookup_d [] (alter (fmap (split_adjust_lot (Fin f))) ast m) ast =
    split_adjust_lot (Fin f) <$> lookup_d [] m ast).
  { intros m. rewrite lookup_d_alter_eq. unfold lookup_d. by destruct (m !! ast). }
  split; [split| | | |]; books; rewrite ?Hal, ?Hp; cbn [val fmul Num_exact xmul]; try done.
  - eauto with exact.
  - rewrite Hlsh, Hssh, Hbal. ring.
  - rewrite Hlsh. by apply qc_mul_nonneg; [|qclra].
  - rewrite Hssh. by apply qc_mul_nonneg; [|qclra].
  - destruct Hone as [Hz|Hz]; [left; rewrite Hlsh|right; rewrite Hssh]; rewrite Hz; ring.
Qed.
End RecordOk.
