(* ===== verification/LedgerProps.v ===== *)
(** * LedgerProps: the ledger as a state machine, and its properties

    The ledger's life is a sequence of steps: a transaction recorded, a split
    applied, a broker transaction synchronised.  The invariants are proved by
    rule induction over that relation, in exact arithmetic; the frame and
    de-duplication properties hold in any arithmetic. *)
From Stdlib Require Import ZArith Qcanon Field Lia.
From stdpp Require Import base list gmap strings pretty relations.
From S2P Require Import Prelude Num GoTime Asset Broker Lots Ledger Samples LedgerFacts.

Section Steps.
Context {tz : TZDB} {fx : FmtFloat xq}.
Implicit Types (L : Ledger xq) (txn : Transaction xq) (bt : BrokerTxn xq).

(** A broker transaction the account can take: a split has a positive
    factor, anything else is an allowed trade. *)
Definition broker_allowed L bt : Prop :=
  match bt_Type bt with
  | SplitTransaction => ∃ f : Qc, bt_Price bt = Fin f ∧ (0 < f)%Qc
  | _ => trade_allowed L (txn_of_broker bt)
  end.

Inductive ledger_step : Ledger xq → Ledger xq → Prop :=
  | step_record L txn : trade_allowed L txn → ledger_step L (Record_ txn L)
  | step_split L L' ast d (f : Qc) :
      (0 < f)%Qc → ApplySplit ast d (Fin f) L = Ok L' → ledger_step L L'
  | step_sync L L' bt : broker_allowed L bt → sync_one bt L = Ok L' → ledger_step L L'.

(** The ledgers of an account opened with a finite deposit. *)
Definition opening (amount : Qc) (d : Time) (method : LotSelection) : Ledger xq :=
  WithDefaultLotSelection method (WithCash (Fin amount) d empty_ledger).

Definition reachable L : Prop :=
  ∃ amount d method, rtc ledger_step (opening amount d method) L.

Lemma mark_seen_ok id L : ledger_ok L → ledger_ok (mark_seen id L).
Proof. intros Hok b. eapply books_ok_same; [|apply Hok]. by frame. Qed.

Lemma sync_one_ok bt L L' :
  broker_allowed L bt → sync_one bt L = Ok L' → ledger_ok L → ledger_ok L'.
Proof.
  unfold broker_allowed, sync_one. intros Hallow. destruct (decide _); [by intros [= <-]|].
  destruct (decide (bt_Type bt = SplitTransaction)) as [Ht|Ht].
  - rewrite Ht in Hallow. destruct Hallow as (f & -> & Hf).
    destruct (ApplySplit _ _ _ _) as [L1|] eqn:E; [|done].
    intros [= <-] Hok. by apply mark_seen_ok, (ApplySplit_ok _ _ _ _ _ Hf E).
  - intros [= <-] Hok. apply Record_ok; [|done]. by destruct (bt_Type bt).
Qed.

Lemma ledger_step_ok L L' : ledger_step L L' → ledger_ok L → ledger_ok L'.
Proof.
  destruct 1 as [L txn Ha|L L' ast d f Hf E|L L' bt Ha E].
  - by apply Record_ok.
  - by apply (ApplySplit_ok _ _ _ _ _ Hf E).
  - by apply (sync_one_ok bt).
Qed.

Lemma opening_ok amount d method : ledger_ok (opening amount d method).
Proof. intros b. eapply books_ok_same; [|apply empty_ledger_ok]. by frame. Qed.

(** *** Concrete histories *)
Inductive event : Type :=
  | Trade (txn : Transaction xq)
  | StockSplit (ast : Asset) (d : Time) (f : Qc).

(** The ledger after a list of events; [None] when one is not allowed. *)
Fixpoint run (events : list event) L : option (Ledger xq) :=
  match events with
  | [] => Some L
  | Trade txn :: rest =>
      if flt (t_Qty txn) (of_Z 0) then None else run rest (Record_ txn L)
  | StockSplit ast d f :: rest =>
      if qc_ltb 0 f then
        match ApplySplit ast d (Fin f) L with Ok L => run rest L | Err _ => None end
      else None
  end.

Lemma run_steps events L L' : run events L = Some L' → rtc ledger_step L L'.
Proof.
  revert L. induction events as [|[txn|ast d f] events IH]; intros L; cbn [run];
    [by intros [= <-]|..].
  - destruct (flt _ _) eqn:E; [done|]. intros Hr. eapply rtc_l; [|by apply IH].
    apply step_record. intros _. by left.
  - destruct (qc_ltb 0 f) eqn:Hf; [|done]. destruct (ApplySplit _ _ _ _) as [L1|] eqn:E; [|done].
    intros Hr. eapply rtc_l; [|by apply IH]. eapply step_split; [|exact E].
    by apply qc_ltb_true.
Qed.

(** A history whose final ledger passes a test gives a reachable ledger that
    passes it. *)
Lemma run_reachable events amount d method (test : Ledger xq → bool) :
  match run events (opening amount d method) with Some L => test L | None => false end = true →
  ∃ L, reachable L ∧ test L = true.
Proof.
  destruct (run _ _) as [L|] eqn:E; [|done]. intros Ht. exists L. split; [|done].
  exists amount, d, method. by apply run_steps in E.
Qed.

(** *** Cash is the sum of the log *)
Definition log_total L : Qc := qsum ((λ t, val (t_Amount t)) <$> transactions L).
Definition cash_ok L : Prop := cash L = Fin (log_total L).

Lemma log_total_snoc L L' t :
  transactions L' = transactions L ++ [t] →
  log_total L' = (log_total L + val (t_Amount t))%Qc.
Proof. unfold log_total. intros ->. rewrite fmap_app, qsum_app. cbn. qclra. Qed.

Lemma Record_cash_ok txn L : cash_ok L → cash_ok (Record_ txn L).
Proof.
  unfold cash_ok. intros Hc. destruct (isFiniteTransaction txn) eqn:E.
  2:{ unfold Record_. rewrite E. done. }
  destruct (Record_core txn L E) as (-> & Ht & _).
  rewrite (log_total_snoc _ _ _ Ht), logged_amount, Hc.
  destruct (isFinite_exact _ E) as (_ & _ & [a ->]). done.
Qed.

Lemma ApplySplit_cash_ok ast d f L L' :
  ApplySplit ast d f L = Ok L' → cash_ok L → cash_ok L'.
Proof.
  unfold ApplySplit. case_if; [done|]. case_if; [by intros [= <-]|].
  intros [= <-]. unfold cash_ok. intros Hc.
  match goal with |- context [log_total (with_transactions (_ ++ [?t]) ?L1)] =>
    rewrite (log_total_snoc L (with_transactions (_ ++ [t]) L1) t) by done end.
  cbn. rewrite Hc, qc_of_Z_0. f_equal. qclra.
Qed.

Lemma ledger_step_cash_ok L L' : ledger_step L L' → cash_ok L → cash_ok L'.
Proof.
  destruct 1 as [L txn Ha|L L' ast d f Hf E|L L' bt Ha E].
  - apply Record_cash_ok.
  - by apply (ApplySplit_cash_ok _ _ _ _ _ E).
  - unfold sync_one in E. destruct (decide _); [by injection E as <-|].
    destruct (decide _); [|injection E as <-; apply Record_cash_ok].
    destruct (ApplySplit _ _ _ _) as [L1|] eqn:Es; [|done]. injection E as <-.
    apply (ApplySplit_cash_ok _ _ _ _ _ Es).
Qed.

Lemma opening_cash_ok amount d method : cash_ok (opening amount d method).
Proof. unfold cash_ok, log_total. cbn. f_equal. qclra. Qed.
End Steps.

(** ** De-duplication *)
Section Sync.
Context {F : Type} `{Num F} {tz : TZDB} {fx : FmtFloat F}.
Implicit Types (L : Ledger F) (bt : BrokerTxn F).

(** The IDs seen only grow. *)
Lemma Record_seen_mono txn L id :
  id ∈ seenTransactions L → id ∈ seenTransactions (Record_ txn L).
Proof.
  intros Hid. destruct (isFiniteTransaction txn) eqn:E.
  - destruct (Record_core txn L E) as (_ & _ & -> & _).
    destruct (decide _); [done|]. set_solver.
  - unfold Record_. by rewrite E.
Qed.

Lemma ApplySplit_seen ast d f L L' :
  ApplySplit ast d f L = Ok L' → seenTransactions L' = seenTransactions L.
Proof. unfold ApplySplit. case_if; [done|]. case_if; by intros [= <-]. Qed.

Lemma sync_one_seen_mono bt L L' id :
  sync_one bt L = Ok L' → id ∈ seenTransactions L → id ∈ seenTransactions L'.
Proof.
  unfold sync_one. destruct (decide _); [by intros [= <-]|].
  destruct (decide _); [|intros [= <-]; apply Record_seen_mono].
  destruct (ApplySplit _ _ _ _) as [L1|] eqn:E; [|done]. intros [= <-] Hid.
  cbn. rewrite (ApplySplit_seen _ _ _ _ _ E). set_solver.
Qed.

Lemma SyncTransactions_seen_mono bts L id :
  id ∈ seenTransactions L → id ∈ seenTransactions (SyncTransactions bts L).1.
Proof.
  revert L. induction bts as [|bt bts IH]; intros L Hid; [done|]. cbn.
  destruct (sync_one bt L) as [L1|] eqn:E; [|done]. cbn.
  apply IH. by eapply sync_one_seen_mono.
Qed.

(** A transaction that has been applied is a no-op in every later state. *)
Definition absorbed bt L : Prop :=
  bt_ID bt ∈ seenTransactions L ∨
  (bt_Type bt ≠ SplitTransaction ∧ isFiniteTransaction (txn_of_broker bt) = false).

Lemma absorbed_noop bt L : absorbed bt L → sync_one bt L = Ok L.
Proof.
  unfold sync_one. intros [Hs|[Ht Hf]]; destruct (decide (bt_ID bt ∈ _)); try done.
  destruct (decide (bt_Type bt = SplitTransaction)); [done|].
  unfold Record_. by rewrite Hf.
Qed.

Lemma absorbed_mono bt bt' L L' :
  sync_one bt' L = Ok L' → absorbed bt L → absorbed bt L'.
Proof.
  intros E [Hs|Hn]; [left; by eapply sync_one_seen_mono|by right].
Qed.

Lemma sync_one_absorbed bt L L' :
  bt_ID bt ≠ EmptyString → sync_one bt L = Ok L' → absorbed bt L'.
Proof.
  intros Hid. unfold sync_one. destruct (decide (bt_ID bt ∈ _)); [intros [= <-]; by left|].
  destruct (decide (bt_Type bt = SplitTransaction)).
  - destruct (ApplySplit _ _ _ _) as [L1|]; [|done]. intros [= <-]. left. cbn. set_solver.
  - intros [= <-]. destruct (isFiniteTransaction (txn_of_broker bt)) eqn:E; [|by right].
    left. destruct (Record_core _ L E) as (_ & _ & -> & _). cbn.
    destruct (decide (bt_ID bt = EmptyString)); [done|]. set_solver.
Qed.

Lemma sync_all_absorbed bts L :
  Forall (λ bt, absorbed bt L) bts → SyncTransactions bts L = (L, None).
Proof.
  induction 1 as [|bt bts Hbt _ IH]; cbn; [done|]. by rewrite absorbed_noop.
Qed.

Lemma sync_absorbs bts L L' :
  Forall (λ bt, bt_ID bt ≠ EmptyString) bts →
  SyncTransactions bts L = (L', None) → Forall (λ bt, absorbed bt L') bts.
Proof.
  intros Hids. revert L. induction Hids as [|bt bts Hid Hids IH]; intros L; cbn; [done|].
  destruct (sync_one bt L) as [L1|] eqn:E; [|done]. intros Hs.
  constructor; [|by eapply IH].
  pose proof (sync_one_absorbed _ _ _ Hid E) as Hab. clear E IH. revert L1 Hs Hab.
  induction bts as [|bt' bts IH]; intros L1; cbn; [by intros [= <-]|].
  destruct (sync_one bt' L1) as [L2|] eqn:E; [|done].
  intros Hs Hab. apply (IH ltac:(by inversion Hids) L2); [done|]. by eapply absorbed_mono.
Qed.
End Sync.

(** ** Properties *)
Section Properties.
Context {tz : TZDB} {fx : FmtFloat xq}.

(** C1. On every reachable ledger the books of every asset balance, in exact
    arithmetic: the position is the long tax lots minus the short tax lots,
    neither side is negative and at most one side is open.  Buys, sells that
    cross zero, wash-sale lot splitting, every lot-selection method, stock
    splits and broker synchronisation all preserve it. *)
Theorem ledger_balanced (L : Ledger xq) :
  reachable L → ∀ ast, books_ok L ast.
Proof.
  intros (amount & d & method & Hr). revert Hr. generalize (opening_ok amount d method).
  intros Hok Hr. induction Hr as [|L1 L2 L3 Hs _ IH]; [exact Hok|].
  apply IH. by apply (ledger_step_ok _ _ Hs).
Qed.

(** C2. On every reachable ledger the cash balance is the sum of the amounts
    in the transaction log, in exact arithmetic: no operation moves cash
    without logging it, and a split logs an amount of zero. *)
Theorem cash_is_log_total (L : Ledger xq) :
  reachable L → cash L = Fin (qsum ((λ t, val (t_Amount t)) <$> transactions L)).
Proof.
  intros (amount & d & method & Hr). revert Hr. generalize (opening_cash_ok amount d method).
  intros Hok Hr. induction Hr as [|L1 L2 L3 Hs _ IH]; [exact Hok|].
  apply IH. by apply (ledger_step_cash_ok _ _ Hs).
Qed.
End Properties.

Section AnyNumbers.
Context {F : Type} `{Num F} {tz : TZDB} {fx : FmtFloat F}.

(** Synchronising the same broker transactions twice is the same as
    synchronising them once, in binary64 as in exact arithmetic, when every
    transaction carries an ID: the second pass changes nothing and reports no
    error. *)
Theorem SyncTransactions_idempotent (bts : list (BrokerTxn F)) (L L' : Ledger F) :
  Forall (λ bt, bt_ID bt ≠ EmptyString) bts →
  SyncTransactions bts L = (L', None) →
  SyncTransactions bts L' = (L', None).
Proof. intros Hids Hs. apply sync_all_absorbed. by eapply sync_absorbs. Qed.

(** Recording a transaction with finite numbers appends exactly one log
    entry (the transaction, with the qualified flag of a dividend computed
    from the lots held before it), moves the cash balance by its amount,
    remembers a non-empty ID and leaves the positions and tax lots of every
    other asset alone; a transaction with a NaN or infinite field changes
    nothing.  It holds in any arithmetic. *)
Theorem Record_effect (txn : Transaction F) (L : Ledger F) :
  let L' := Record_ txn L in
  if isFiniteTransaction txn then
    cash L' = fadd (cash L) (t_Amount txn) ∧
    transactions L' = transactions L ++ [logged L txn] ∧
    (t_ID txn ≠ EmptyString → t_ID txn ∈ seenTransactions L') ∧
    lotSelection L' = lotSelection L ∧
    ∀ b, b ≠ t_Asset txn →
      position L' b = position L b ∧ long_lots L' b = long_lots L b ∧
      short_lots L' b = short_lots L b
  else L' = L.
Proof.
  cbn zeta. destruct (isFiniteTransaction txn) eqn:E.
  - destruct (Record_core txn L E) as (Hc & Ht & Hs & Hl). repeat split; try done.
    1: rewrite Hs; intros; destruct (decide _); [done|]; by apply elem_of_union_l, elem_of_singleton.
    all: by apply Record_other_assets.
  - unfold Record_. by rewrite E.
Qed.
End AnyNumbers.

(** ** Witnesses *)
Section Witnesses.
Local Existing Instance utc_db.
Local Existing Instance blank_fmt.

(** An account opened with 10,000, a buy of 100 at 20, a 2:1 split, a sell of
    250 that crosses into a short position. *)
Definition sample_ledger : result (Ledger xq) :=
  let L := Record_ (buy "b1" 1 SPY 100 20) (opening (qc_of_Z 10000) (day 0) LotLIFO) in
  Record_ (sell "s1" 3 SPY 250 12) <$> ApplySplit SPY (day 2) (q 2) L.

Lemma sample_reachable :
  match sample_ledger with Ok L => reachable L | Err _ => False end.
Proof.
  unfold sample_ledger.
  set (L0 := opening _ _ _). set (b := buy "b1" 1 SPY 100 20). set (L1 := Record_ b L0).
  assert (Ha : trade_allowed L0 b) by (intros _; left; vm_compute; reflexivity).
  assert (E : is_Ok (ApplySplit SPY (day 2) (q 2) L1) = true) by (vm_compute; reflexivity).
  destruct (ApplySplit SPY (day 2) (q 2) L1) as [L2|] eqn:E2; [|discriminate]. clear E.
  cbn [fmap result_fmap]. set (s := sell "s1" 3 SPY 250 12).
  assert (Hs : trade_allowed L2 s) by (intros _; left; vm_compute; reflexivity).
  assert (H2 : (0 < qc_of_Z 2)%Qc) by (vm_compute; reflexivity).
  exists (qc_of_Z 10000), (day 0), LotLIFO. fold L0.
  apply (rtc_l _ _ L1); [exact (step_record L0 b Ha)|].
  apply (rtc_l _ _ L2); [exact (step_split L1 L2 SPY (day 2) _ H2 E2)|].
  apply rtc_once. exact (step_record L2 s Hs).
Qed.

Lemma ledger_balanced_witness :
  match sample_ledger with
  | Ok L => books_ok L SPY ∧ position L SPY = q (-50)
  | Err _ => False
  end.
Proof.
  pose proof sample_reachable as Hr.
  assert (E : match sample_ledger with
          | Ok L => bool_decide (position L SPY = q (-50)) | Err _ => false end = true)
    by (vm_compute; reflexivity).
  destruct sample_ledger as [L|]; [|done]. apply bool_decide_eq_true_1 in E.
  split; [|exact E]. exact (ledger_balanced L Hr SPY).
Defined.

Lemma cash_is_log_total_witness :
  match sample_ledger with
  | Ok L => cash L = q 11000 ∧
      cash L = Fin (qsum ((λ t, val (t_Amount t)) <$> transactions L))
  | Err _ => False
  end.
Proof.
  pose proof sample_reachable as Hr.
  assert (E : match sample_ledger with
          | Ok L => bool_decide (cash L = q 11000) | Err _ => false end = true)
    by (vm_compute; reflexivity).
  destruct sample_ledger as [L|]; [|done]. apply bool_decide_eq_true_1 in E.
  split; [exact E|]. exact (cash_is_log_total L Hr).
Defined.

Definition sample_feed : list (BrokerTxn xq) :=
  [dividend "div-1" 5 SPY 37; split "spl-1" 6 SPY (q 2); dividend "div-2" 7 SPY 11].

Lemma SyncTransactions_idempotent_witness :
  let L := Record_ (buy "b1" 1 SPY 100 20) empty_ledger in
  (SyncTransactions sample_feed L).2 = None ∧
  SyncTransactions sample_feed (SyncTransactions sample_feed L).1 =
    ((SyncTransactions sample_feed L).1, None).
Proof.
  cbn zeta. set (L := Record_ _ _).
  assert (E : (SyncTransactions sample_feed L).2 = None) by (vm_compute; reflexivity).
  split; [exact E|]. clearbody L.
  apply (SyncTransactions_idempotent sample_feed L); [repeat constructor; discriminate|].
  rewrite <-E. apply surjective_pairing.
Defined.
End Witnesses.
