(* ===== verification/LotProps.v ===== *)
(** * LotProps: what the lot-selection methods guarantee

    Closing a position removes exactly the quantity asked for, at the average
    cost the wash-sale check and the trade details report, whatever the method;
    among all methods the highest-cost one removes the largest cost basis. *)
From Stdlib Require Import ZArith Qcanon Field Sorted Lia.
From stdpp Require Import base list gmap strings.
From S2P Require Import Prelude Num GoTime Asset Broker Lots Ledger Samples LedgerFacts.

(** ** Greedy selection *)

(** A way of taking shares from lots: a quantity per lot, within the lot. *)
Definition selection_of (sel : list (TaxLot xq * Qc)) : Prop :=
  Forall (λ s, 0 <= s.2 <= val (l_Qty s.1))%Qc sel.
Definition sel_shares (sel : list (TaxLot xq * Qc)) : Qc := qsum (sel.*2).
Definition sel_basis (sel : list (TaxLot xq * Qc)) : Qc :=
  qsum ((λ s, s.2 * val (l_Price s.1))%Qc <$> sel).

(** What the matching loop takes of every lot, zero included. *)
Fixpoint greedy (lots : list (TaxLot xq)) (r : Qc) : list (TaxLot xq * Qc) :=
  match lots with
  | [] => []
  | lot :: rest =>
      let q := val (l_Qty lot) in
      let m := if qc_ltb 0 r then (if qc_ltb r q then r else q) else 0%Qc in
      (lot, m) :: greedy rest (r - m)
  end.

Definition nonneg_lots (lots : list (TaxLot xq)) : Prop :=
  Forall (λ lot, 0 <= val (l_Qty lot))%Qc lots.

Lemma greedy_fst lots r : (greedy lots r).*1 = lots.
Proof. revert r. induction lots as [|lot lots IH]; intros r; cbn; [done|]. by rewrite IH. Qed.

Lemma greedy_done lots r : (r <= 0)%Qc → sel_basis (greedy lots r) = 0%Qc.
Proof.
  intros Hr. revert r Hr. induction lots as [|lot lots IH]; intros r Hr; [done|].
  unfold sel_basis. cbn [greedy fmap list_fmap qsum fst snd].
  replace (qc_ltb 0 r) with false by (symmetry; by apply qc_ltb_false).
  change (qsum _) with (sel_basis (greedy lots (r - 0))). rewrite IH; [ring|qclra].
Qed.

Lemma greedy_selection lots r : nonneg_lots lots → selection_of (greedy lots r).
Proof.
  intros Hl. revert r. induction Hl as [|lot lots H0 Hl IH]; intros r; [constructor|].
  cbn. constructor; [|apply IH]. cbn.
  destruct (qc_ltb 0 r) eqn:E; qc_bools; [|qclra].
  destruct (qc_ltb r _) eqn:E2; qc_bools; qclra.
Qed.

(** The greedy quantities are the matched pieces, but for zeros. *)
Lemma greedy_match lots r :
  exact_lots lots → matched_basis (match_lots lots (Fin r)) = sel_basis (greedy lots r).
Proof.
  intros Hl. revert r. induction Hl as [|lot lots [[q Hq] _] Hl IH]; intros r; [done|].
  rewrite (match_lots_exact _ _ q) by done.
  unfold sel_basis. cbn [greedy fmap list_fmap qsum fst snd]. rewrite Hq. cbn [val].
  change (qsum (_ <$> greedy lots ?x)) with (sel_basis (greedy lots x)).
  destruct (qc_ltb 0 r) eqn:E; qc_bools.
  - cbn zeta. unfold matched_basis. cbn [fmap list_fmap qsum fst snd val].
    change (qsum (_ <$> match_lots lots ?x)) with (matched_basis (match_lots lots x)).
    by rewrite IH.
  - rewrite greedy_done by qclra. unfold matched_basis. cbn. ring.
Qed.

Lemma greedy_shares lots r :
  nonneg_lots lots → (0 <= r)%Qc → (r <= shares lots)%Qc → sel_shares (greedy lots r) = r.
Proof.
  intros Hl. revert r. induction Hl as [|lot lots H0 Hl IH]; intros r.
  - unfold shares, sel_shares. cbn. qclra.
  - rewrite shares_cons. unfold lot_shares, sel_shares. cbn [greedy fmap list_fmap qsum snd].
    change (qsum (_.*2)) with (sel_shares (greedy lots
      (r - (if qc_ltb 0 r then (if qc_ltb r (val (l_Qty lot)) then r else val (l_Qty lot)) else 0)))).
    assert (Hs : (0 <= shares lots)%Qc).
    { apply qsum_nonneg. apply Forall_fmap. exact Hl. }
    destruct (qc_ltb 0 r) eqn:E; qc_bools; [destruct (qc_ltb r _) eqn:E2; qc_bools|];
      intros; rewrite IH; qclra.
Qed.

(** By decreasing price, with all prices at most [P]: no selection of [R >= r]
    shares beats the greedy choice of [r], the excess counted at [P]. *)
Definition price_desc : list (TaxLot xq) → Prop :=
  StronglySorted (λ a b, val (l_Price b) <= val (l_Price a))%Qc.

Lemma greedy_best sel (P r : Qc) :
  selection_of sel → price_desc (sel.*1) → Forall (λ s, val (l_Price s.1) <= P)%Qc sel →
  (0 <= r)%Qc → (r <= sel_shares sel)%Qc →
  (sel_basis sel <= sel_basis (greedy (sel.*1) r) + (sel_shares sel - r) * P)%Qc.
Proof.
  intros Hsel. revert P r. induction Hsel as [|[lot x] sel [Hx0 Hxq] Hsel IH]; intros P r Hs Hp Hr HR.
  - unfold sel_basis, sel_shares in *. cbn in *. assert (r = 0%Qc) as -> by qclra.
    replace ((0 - 0) * P)%Qc with 0%Qc by ring. qclra.
  - cbn [fmap list_fmap fst] in Hs. apply StronglySorted_inv in Hs as [Hs Hle].
    apply Forall_cons in Hp as [Hp _]. cbn [fst snd] in *.
    set (q := val (l_Qty lot)) in *. set (p := val (l_Price lot)) in *.
    unfold sel_shares, sel_basis in *. cbn [fmap list_fmap fst snd greedy qsum] in *.
    fold q p. set (m := if qc_ltb 0 r then _ else _).
    set (X := qsum sel.*2) in *.
    assert (Hnn : (0 <= X)%Qc).
    { apply qsum_nonneg, Forall_fmap. eapply Forall_impl; [exact Hsel|]. by intros ? []. }
    assert (Hm : (0 <= m)%Qc ∧ (m <= r)%Qc ∧ (r - m <= X)%Qc).
    { unfold m. destruct (qc_ltb 0 r) eqn:E; qc_bools; [destruct (qc_ltb r q) eqn:E2; qc_bools|]; qclra. }
    destruct Hm as (Hm0 & Hmr & HmX).
    assert (Hle' : Forall (λ s, val (l_Price s.1) <= p)%Qc sel).
    { rewrite Forall_fmap in Hle. exact Hle. }
    specialize (IH p (r - m)%Qc Hs Hle' ltac:(qclra) HmX).
    set (G := qsum (_ <$> greedy (sel.*1) (r - m))) in *.
    set (B := qsum (_ <$> sel)) in *. clearbody G B X m q p.
    assert (Hd : (0 <= x + X - r)%Qc) by qclra.
    assert (Hpp : (0 <= P - p)%Qc) by qclra.
    pose proof (qc_mul_nonneg _ _ Hd Hpp).
    replace (m * p + G + (x + X - r) * P)%Qc
      with (x * p + (G + (X - (r - m)) * p) + (x + X - r) * (P - p))%Qc by ring.
    qclra.
Qed.

(** *** The order of the highest-cost method *)
Lemma sortLotsByPriceDesc_desc lots :
  exact_lots lots → price_desc (sortLotsByPriceDesc lots).
Proof.
  intros Hl. unfold sortLotsByPriceDesc.
  assert (Hs : StronglySorted (in_order (λ i j, flt (l_Price j) (l_Price i)))
    (stable_sort (λ i j, flt (l_Price j) (l_Price i)) lots) ∨ True) by auto.
  clear Hs. induction Hl as [|lot lots [_ [p Hp]] Hl IH]; [constructor|]. cbn [stable_sort foldr].
  change (foldr _ [] lots) with (stable_sort (λ i j, flt (l_Price j) (l_Price i)) lots) in *.
  set (s := stable_sort _ lots) in *.
  assert (He : exact_lots s) by (eapply exact_lots_perm; [symmetry; apply stable_sort_perm|done]).
  clearbody s. induction IH as [|y l Hs IH Hy]; [repeat constructor|]. cbn.
  apply Forall_cons in He as [[_ [py Hpy]] He]. rewrite Hp, Hpy. cbn.
  destruct (qc_ltb p py) eqn:E; qc_bools; constructor; try done.
  - by apply IH.
  - rewrite insert_stable_perm. constructor; [|done]. rewrite Hp, Hpy. cbn. qclra.
  - by constructor.
  - constructor; [rewrite Hp, Hpy; cbn; qclra|].
    eapply Forall_impl; [exact Hy|]. cbn. intros z. rewrite Hp, Hpy. cbn. qclra.
Qed.

Lemma permuted_selection (sel : list (TaxLot xq * Qc)) (s : list (TaxLot xq)) :
  sel.*1 ≡ₚ s → ∃ sel', sel'.*1 = s ∧ sel' ≡ₚ sel.
Proof.
  intros Hp. symmetry in Hp. destruct (Permutation_map_inv _ _ Hp) as (sel' & -> & Hp').
  by exists sel'.
Qed.

(** ** Properties *)

(** C37. Closing [q] shares of a position, under every lot-selection method and
    in exact arithmetic: the lots left hold exactly [q] shares less; their cost
    basis drops by [q] times the average cost that [computeConsumedLotInfo]
    reports (and [avgShortEntryPrice], on the short side); and the trade
    details account for [q] shares with a total profit of
    [(price - average) * q]. *)
Theorem close_is_exact (lots : list (TaxLot xq)) (q p : Qc) (method : LotSelection)
    (txn : Transaction xq) (mfe mae : xq) :
  exact_lots lots → t_Price txn = Fin p → (0 < q)%Qc → (q <= shares lots)%Qc →
  let rest := consume_lots lots (Fin q) method in
  let trades := trade_entries TradeLong txn mfe mae
                  (match_lots (lotsInConsumptionOrder lots method) (Fin q)) in
  shares rest = (shares lots - q)%Qc ∧
  qsum ((λ t, val (td_Qty t)) <$> trades) = q ∧
  ∃ avg, avgCostBasis (computeConsumedLotInfo lots (Fin q) method) = Fin avg ∧
         avgShortEntryPrice lots (Fin q) method = Fin avg ∧
         basis rest = (basis lots - avg * q)%Qc ∧
         qsum ((λ t, val (td_PnL t)) <$> trades) = ((p - avg) * q)%Qc.
Proof.
  intros Hl Hp H0 Hq. cbn zeta.
  destruct (consume_lots_conserves lots q method Hl ltac:(qclra)) as (_ & Hm & Hs & Hb).
  destruct (consumed_average lots q method Hl H0 Hq) as [Ha1 Ha2]. cbn zeta in *.
  set (ms := match_lots _ _) in *.
  assert (Hms : Forall (λ m, finite m.2 ∧ finite (l_Price m.1)) ms).
  { apply consume_front_conserves. eapply exact_lots_perm;
      [symmetry; apply lotsInConsumptionOrder_perm|done]. }
  assert (Hpnl : qsum ((λ t, val (td_PnL t)) <$> trade_entries TradeLong txn mfe mae ms) =
    (p * matched_shares ms - matched_basis ms)%Qc ∧
    qsum ((λ t, val (td_Qty t)) <$> trade_entries TradeLong txn mfe mae ms) = matched_shares ms).
  { clearbody ms. clear -Hms Hp. unfold matched_shares, matched_basis, trade_entries.
    induction Hms as [|[lot m] ms [[x Hx] [y Hy]] _ [IH1 IH2]]; cbn in *; [split; [ring|done]|].
    rewrite IH1, IH2, Hp, Hx, Hy. cbn. split; ring. }
  destruct Hpnl as [-> ->]. rewrite Hm, Hs, Hb. split; [done|]. split; [done|].
  exists (matched_basis ms / q)%Qc. split; [done|]. split; [done|].
  assert (Hne : q ≠ 0%Qc) by qclra. split; by field.
Qed.

(** The highest-cost method realises the largest loss: on lots with
    non-negative quantities, the cost basis it removes for [q] shares is at
    least that of every other method (in exact arithmetic). *)
Theorem highest_cost_is_maximal (lots : list (TaxLot xq)) (q : Qc) (method : LotSelection) :
  exact_lots lots → nonneg_lots lots → (0 <= q)%Qc → (q <= shares lots)%Qc →
  (basis (consume_lots lots (Fin q) LotHighestCost) <= basis (consume_lots lots (Fin q) method))%Qc.
Proof.
  intros Hl Hnn H0 Hq.
  destruct (consume_lots_conserves lots q LotHighestCost Hl ltac:(qclra)) as (_ & _ & _ & ->).
  destruct (consume_lots_conserves lots q method Hl ltac:(qclra)) as (_ & _ & _ & ->).
  set (hs := lotsInConsumptionOrder lots LotHighestCost).
  pose proof (lotsInConsumptionOrder_perm lots LotHighestCost) as Hph. fold hs in Hph.
  pose proof (lotsInConsumptionOrder_perm lots method) as Hpm.
  set (ms := lotsInConsumptionOrder lots method) in *.
  assert (Ehs : exact_lots hs) by (by eapply exact_lots_perm; [symmetry|]).
  assert (Ems : exact_lots ms) by (by eapply exact_lots_perm; [symmetry|]).
  rewrite !greedy_match by done.
  assert (Nms : nonneg_lots ms) by (unfold nonneg_lots; by rewrite Hpm).
  destruct (permuted_selection (greedy ms q) hs) as (sel & Hfst & Hperm).
  { by rewrite greedy_fst, Hpm, Hph. }
  assert (Hsel : selection_of sel).
  { unfold selection_of. rewrite Hperm. by apply greedy_selection. }
  assert (Hsb : sel_basis sel = sel_basis (greedy ms q)).
  { apply qsum_perm. by rewrite Hperm. }
  assert (Hss : sel_shares sel = q).
  { rewrite <-(greedy_shares ms q); [|done..|by rewrite (shares_perm _ _ Hpm)].
    apply qsum_perm. by rewrite Hperm. }
  assert (Hbest : ∃ P, Forall (λ s, val (l_Price s.1) <= P)%Qc sel).
  { pose proof (sortLotsByPriceDesc_desc lots Hl) as Hd.
    change (price_desc hs) in Hd. rewrite <-Hfst in Hd.
    destruct sel as [|[lot x] sel]; [exists 0%Qc; constructor|].
    exists (val (l_Price lot)). cbn in Hd. apply StronglySorted_inv in Hd as [_ Hd].
    constructor; [cbn; qclra|]. by rewrite Forall_fmap in Hd. }
  destruct Hbest as [P HP].
  pose proof (greedy_best sel P q Hsel) as Hg. rewrite Hfst, Hss, Hsb in Hg.
  specialize (Hg (sortLotsByPriceDesc_desc lots Hl) HP H0 ltac:(qclra)).
  replace ((q - q) * P)%Qc with 0%Qc in Hg by ring. qclra.
Qed.

(** ** Witnesses *)
Definition three_lots : list (TaxLot xq) :=
  [lot "a" 0 10 20; lot "b" 1 10 35; lot "c" 2 10 5].

Lemma three_lots_exact : exact_lots three_lots.
Proof. repeat constructor; apply finite_Fin. Qed.

Lemma close_is_exact_witness :
  let rest := consume_lots three_lots (q 15) LotLIFO in
  shares rest = qc_of_Z 15 ∧
  avgCostBasis (computeConsumedLotInfo three_lots (q 15) LotLIFO) = q 15.
Proof.
  destruct (close_is_exact three_lots (qc_of_Z 15) (qc_of_Z 18) LotLIFO (sell "s" 9 SPY 15 18)
    (q 0) (q 0)) as (Hs & _ & avg & Ha & _ & _ & _).
  - exact three_lots_exact.
  - reflexivity.
  - vm_compute. reflexivity.
  - vm_compute. discriminate.
  - cbn zeta. split.
    + etransitivity; [exact Hs|]. eval_eq.
    + eval_eq.
Defined.

Lemma highest_cost_is_maximal_witness :
  (basis (consume_lots three_lots (q 15) LotHighestCost) <=
   basis (consume_lots three_lots (q 15) LotFIFO))%Qc.
Proof.
  apply (highest_cost_is_maximal three_lots (qc_of_Z 15) LotFIFO).
  - exact three_lots_exact.
  - repeat constructor; vm_compute; discriminate.
  - vm_compute. discriminate.
  - vm_compute. discriminate.
Defined.
