(* ===== verification/WashProps.v ===== *)
(** * WashProps: wash sales

    A buy within thirty days of a loss sale absorbs the disallowed loss into
    the basis of the replacement shares; a loss sale looks for recent buys.
    What the two checks move, and the histories on which the tracking of recent
    buys no longer matches the lots it names. *)
From Stdlib Require Import ZArith Qcanon Field Lia.
From stdpp Require Import base list gmap strings relations.
From S2P Require Import Prelude Num GoTime Asset Broker Lots Ledger Samples LedgerFacts LedgerProps.

(** ** The window, in nanoseconds *)
Definition in_window (buyDate sellDate : Time) : bool :=
  (0 <=? t_ns buyDate - t_ns sellDate)%Z && (t_ns buyDate - t_ns sellDate <=? 30 * ns_per_day)%Z.

Lemma qc_of_Z_add (a b : Z) : qc_of_Z (a + b) = (qc_of_Z a + qc_of_Z b)%Qc.
Proof. apply Qc_is_canon. by rewrite this_of_Z, this_add, !this_of_Z, QArith_base.inject_Z_plus. Qed.
Lemma qc_of_Z_mul (a b : Z) : qc_of_Z (a * b) = (qc_of_Z a * qc_of_Z b)%Qc.
Proof. apply Qc_is_canon. by rewrite this_of_Z, this_mul, !this_of_Z, QArith_base.inject_Z_mult. Qed.
Lemma qc_ltb_of_Z (a b : Z) : qc_ltb (qc_of_Z a) (qc_of_Z b) = (a <? b)%Z.
Proof.
  destruct (Z.ltb_spec a b) as [Hab|Hab].
  - apply qc_ltb_true. unfold Qclt. rewrite !this_of_Z. by rewrite <-QArith_base.Zlt_Qlt.
  - by apply qc_ltb_false, qc_of_Z_le.
Qed.

(** A duration in days. *)
Lemma days_exact d : ∃ t : Qc, fdiv (Hours (F := xq) d) (of_Z 24) = Fin t ∧ (t * qc_of_Z ns_per_day)%Qc = qc_of_Z d.
Proof.
  pose proof (Z.quot_rem' d ns_per_hour) as Hd. set (u := Z.quot d ns_per_hour) in *. set (v := Z.rem d ns_per_hour) in *.
  exists ((qc_of_Z u + qc_of_Z v / qc_of_Z ns_per_hour) / qc_of_Z 24)%Qc. split.
  { unfold Hours. fold u v. reflexivity. }
  rewrite Hd, qc_of_Z_add, qc_of_Z_mul. replace ns_per_day with (24 * ns_per_hour)%Z by reflexivity. rewrite qc_of_Z_mul.
  field. split; intros E; apply (f_equal (qc_ltb 0)) in E; vm_compute in E; discriminate.
Qed.

Lemma outside_window_days buyDate sellDate : outside_window (F := xq) buyDate sellDate = negb (in_window buyDate sellDate).
Proof.
  unfold outside_window, washSaleWindowDays. set (d := Sub buyDate sellDate).
  destruct (days_exact d) as (t & -> & Ht). assert (Hpos : (0 < qc_of_Z ns_per_day)%Qc) by (apply qc_ltb_true; vm_compute; reflexivity).
  assert (H30 : qc_ltb (qc_of_Z 30) t = (30 * ns_per_day <? d)%Z).
  { rewrite <-qc_ltb_of_Z, qc_of_Z_mul, <-Ht. destruct (qc_ltb (qc_of_Z 30) t) eqn:E; symmetry; qc_bools; [apply qc_ltb_true|apply qc_ltb_false]; qcnra. }
  assert (H0 : qc_ltb t (qc_of_Z 0) = (d <? 0)%Z).
  { rewrite <-(qc_ltb_of_Z d), <-Ht, qc_of_Z_0. destruct (qc_ltb t 0) eqn:E; symmetry; qc_bools; [apply qc_ltb_true|apply qc_ltb_false]; qcnra. }
  transitivity ((30 * ns_per_day <? d)%Z || (d <? 0)%Z); [by rewrite <-H30, <-H0|].
  unfold in_window, d, Sub. change (30 * ns_per_day)%Z with 2592000000000000%Z. change (2 ^ 63)%Z with 9223372036854775808%Z.
  destruct (Z.ltb_spec 2592000000000000 (Z.max (- (9223372036854775808)) (Z.min (9223372036854775808 - 1) (t_ns buyDate - t_ns sellDate)))),
    (Z.ltb_spec (Z.max (- (9223372036854775808)) (Z.min (9223372036854775808 - 1) (t_ns buyDate - t_ns sellDate))) 0),
    (Z.leb_spec 0 (t_ns buyDate - t_ns sellDate)), (Z.leb_spec (t_ns buyDate - t_ns sellDate) 2592000000000000); try done; lia.
Qed.

(** ** The chain of lot IDs a split produces *)
Definition chain (k : nat) (id : string) : string := Nat.iter k split_id id.

Lemma string_length_app (s t : string) :
  String.length (s +:+ t) = (String.length s + String.length t)%nat.
Proof. induction s as [|a s IH]; [done|]. cbn. by rewrite <-IH. Qed.

Lemma split_id_length id : String.length (split_id id) = (String.length id + 6)%nat.
Proof. unfold split_id. by rewrite string_length_app. Qed.

Lemma chain_length k id : String.length (chain k id) = (String.length id + 6 * k)%nat.
Proof.
  unfold chain. induction k as [|k IH]; cbn [Nat.iter nat_rect]; [cbn; lia|].
  rewrite split_id_length. unfold Nat.iter in IH. lia.
Qed.

Lemma chain_S k id : chain k (split_id id) = chain (S k) id.
Proof. unfold chain. by rewrite Nat.iter_succ_r. Qed.

Lemma chain_ne k id : id ≠ chain k (split_id id).
Proof.
  intros E. apply (f_equal String.length) in E.
  rewrite chain_length, split_id_length in E. lia.
Qed.

(** The lots before the new one carry none of the IDs of its chain. *)
Definition fresh_for (id : string) (lots : list (TaxLot xq)) : Prop :=
  Forall (λ x, ∀ k, l_ID x ≠ chain k id) lots.

Lemma split_lots_found (pre : list (TaxLot xq)) cur (h : xq) :
  Forall (λ x, l_ID x ≠ l_ID cur) pre →
  split_lots (pre ++ [cur]) (l_ID cur) h =
  Some (pre ++ [lot_set_qty h cur;
                mkLot (split_id (l_ID cur)) (l_Date cur) (fsub (l_Qty cur) h) (l_Price cur)]).
Proof.
  induction 1 as [|x pre Hx _ IH]; cbn -[fsub].
  - by destruct (decide _).
  - destruct (decide _); [done|]. by rewrite IH.
Qed.

Lemma adjust_basis_found (pre post : list (TaxLot xq)) cur id (adj : xq) :
  Forall (λ x, l_ID x ≠ id) pre → l_ID cur = id →
  adjust_basis (pre ++ cur :: post) id adj =
  pre ++ lot_set_price (fadd (l_Price cur) adj) cur :: post.
Proof.
  intros Hp Hc. induction Hp as [|x pre Hx _ IH]; cbn -[fadd].
  - by destruct (decide _).
  - destruct (decide _); [done|]. by rewrite IH.
Qed.

(** ** Buys *)
Section Buy.
Context (ast : Asset) (buyDate : Time).
Implicit Types (w : BuyWash (F := xq)) (sale : recentLossSale xq).

Definition pos_sale sale : Prop := ok_sale sale ∧ (0 < val (ls_qty sale))%Qc.
Definition ok_remaining_sale sale : Prop := ok_sale sale ∧ (0 <= val (ls_qty sale))%Qc.
Definition sales_qty (l : list (recentLossSale xq)) : Qc := qsum ((λ s, val (ls_qty s)) <$> l).
Definition disallowed (l : list (WashSaleRecord xq)) : Qc :=
  qsum ((λ r, val (w_DisallowedLoss r)) <$> l).

(** A record of this buy: the sale it replaces lies in the window. *)
Definition record_of_buy (r : WashSaleRecord xq) : Prop :=
  w_Asset r = ast ∧ w_RebuyDate r = buyDate ∧
  outside_window (F := xq) buyDate (w_SellDate r) = false.

(** The state of the loop: the lot being filled is the last one and still has
    the quantity left to match. *)
Record buy_inv (basis0 qty0 sales0 : Qc) w : Prop := {
  bi_lots : ∃ pre cur r, bw_lots w = pre ++ [cur] ∧ l_ID cur = bw_lotID w ∧
    bw_remaining w = Fin r ∧ (0 <= r)%Qc ∧ ((0 < r)%Qc → l_Qty cur = Fin r) ∧
    fresh_for (bw_lotID w) pre ∧
    (sales_qty (bw_sales w) + qty0 = sales0 + r)%Qc;
  bi_exact : exact_lots (bw_lots w);
  bi_basis : basis (bw_lots w) = (basis0 + disallowed (bw_records w))%Qc;
  bi_sales : Forall ok_remaining_sale (bw_sales w);
  bi_records : Forall record_of_buy (bw_records w);
}.

Lemma disallowed_snoc l r : disallowed (l ++ [r]) = (disallowed l + val (w_DisallowedLoss r))%Qc.
Proof. unfold disallowed. rewrite fmap_app, qsum_app. cbn. ring. Qed.
Lemma sales_qty_snoc l s : sales_qty (l ++ [s]) = (sales_qty l + val (ls_qty s))%Qc.
Proof. unfold sales_qty. rewrite fmap_app, qsum_app. cbn. ring. Qed.

Lemma fresh_ne id pre : fresh_for id pre → Forall (λ x, l_ID x ≠ id) pre.
Proof. intros Hf. eapply Forall_impl; [exact Hf|]. intros x Hx. exact (Hx O). Qed.

(** The matched quantity of one sale is its own or the rest of the buy. *)
Lemma wash_buy_step_inv b0 q0 s0 sale w :
  buy_inv b0 q0 s0 w → pos_sale sale → flt 0%F (bw_remaining w) = true →
  buy_inv b0 q0 (s0 + val (ls_qty sale)) (wash_buy_step ast buyDate sale w).
Proof.
  intros [(pre & cur & r & Hl & Hid & Hr & Hr0 & Hq & Hfr & Hs) He Hb Hsl Hrec] [[[q Hsq] [p Hp]] Hpos] Hgt.
  rewrite Hr in Hgt. cbn in Hgt. rewrite qc_of_Z_0 in Hgt. qc_bools. specialize (Hq Hgt).
  rewrite Hsq in Hpos |- *. cbn [val] in *. unfold wash_buy_step.
  destruct (outside_window buyDate (ls_date sale)) eqn:Hout.
  { split; cbn [bw_lots bw_lotID bw_remaining bw_sales bw_records]; try done.
    - exists pre, cur, r. repeat (split; [done|]). rewrite sales_qty_snoc, Hsq. cbn. qclra.
    - apply Forall_app_2; [done|]. apply Forall_singleton.
      split; [by split; rewrite ?Hsq, ?Hp; apply finite_Fin|]. rewrite Hsq. cbn. qclra. }
  rewrite Hsq, Hr, Hp, cap_exact. set (m := if qc_ltb r q then r else q).
  assert (Hm : (0 < m)%Qc ∧ (m <= r)%Qc ∧ (m <= q)%Qc).
  { unfold m. destruct (qc_ltb r q) eqn:E; qc_bools; qclra. }
  destruct Hm as (Hm0 & Hmr & Hmq). pose proof (fresh_ne _ _ Hfr) as Hne.
  rewrite Hl, <-Hid in *. apply Forall_app in He as [Hepre Hecur].
  apply Forall_singleton in Hecur as [_ [cp Hcp]]. rewrite basis_app, basis_cons in Hb.
  unfold lot_basis in Hb. rewrite Hq, Hcp in Hb. cbn [val] in Hb. change (basis []) with 0%Qc in Hb.
  assert (Hrec' : Forall record_of_buy
    (bw_records w ++ [mkWash ast (ls_date sale) buyDate (Fin (m * p)) (l_ID cur)])).
  { apply Forall_app_2; [done|]. by apply Forall_singleton. }
  assert (Hsl' : Forall ok_remaining_sale (bw_sales w ++ [ls_set_qty (fsub (Fin q) (Fin m)) sale])).
  { apply Forall_app_2; [done|]. apply Forall_singleton. split; [split|]; cbn;
      rewrite ?Hp; eauto with exact. qclra. }
  cbn [flt Num_exact xlt]. destruct (qc_ltb m r) eqn:Hmlt; qc_bools.
  - unfold splitLot. rewrite split_lots_found by done. cbn [fst snd].
    rewrite adjust_basis_found by done. rewrite Hcp, Hq. split; cbn [bw_lots bw_lotID bw_remaining bw_sales bw_records]; try done.
    + eexists (pre ++ [_]), _, (r - m)%Qc. rewrite <-(assoc_L (++)). cbn [app].
      split; [reflexivity|]. cbn [l_ID lot_set_price lot_set_qty l_Qty]. split; [done|].
      split; [done|]. split; [qclra|]. split; [done|]. split.
      * apply Forall_app_2; [|apply Forall_singleton; intros k; apply chain_ne].
        eapply Forall_impl; [exact Hfr|]. intros x Hx k. rewrite chain_S. apply Hx.
      * rewrite sales_qty_snoc. cbn. qclra.
    + apply Forall_app_2; [done|]. repeat constructor; cbn; rewrite ?Hcp, ?Hq; eauto with exact.
    + rewrite basis_app, !basis_cons, disallowed_snoc. unfold lot_basis. cbn. rewrite ?Hcp, ?Hq. cbn.
      change (basis []) with 0%Qc.
      replace (basis pre) with (b0 + disallowed (bw_records w) - (r * cp + 0))%Qc by qclra. ring.
  - assert (m = r) as -> by qclra. rewrite adjust_basis_found by done. rewrite Hcp.
    split; cbn [bw_lots bw_lotID bw_remaining bw_sales bw_records]; try done.
    + eexists pre, _, (r - r)%Qc. split; [reflexivity|]. split; [done|]. split; [done|].
      split; [qclra|]. split; [intros; qclra|]. split; [done|].
      rewrite sales_qty_snoc. cbn. qclra.
    + apply Forall_app_2; [done|]. repeat constructor; cbn; rewrite ?Hcp, ?Hq; eauto with exact.
    + rewrite basis_app, !basis_cons, disallowed_snoc. unfold lot_basis. cbn. rewrite ?Hcp, ?Hq. cbn.
      change (basis []) with 0%Qc.
      replace (basis pre) with (b0 + disallowed (bw_records w) - (r * cp + 0))%Qc by qclra. ring.
Qed.

Lemma wash_buy_loop_inv b0 q0 s0 sales w :
  Forall pos_sale sales → buy_inv b0 q0 s0 w →
  buy_inv b0 q0 (s0 + sales_qty sales) (wash_buy_loop ast buyDate sales w).
Proof.
  intros Hs. revert s0 w. induction Hs as [|s sales Hp Hs IH]; intros s0 w Hw.
  { replace (s0 + sales_qty [])%Qc with s0; [done|]. unfold sales_qty. cbn. ring. }
  replace (s0 + sales_qty (s :: sales))%Qc with (s0 + val (ls_qty s) + sales_qty sales)%Qc
    by (unfold sales_qty; cbn; ring).
  cbn [wash_buy_loop]. case_if; [apply IH; by apply wash_buy_step_inv|].
  destruct Hw as [(pre & cur & r & ? & ? & ? & ? & ? & ? & Hq) ? ? ? ?].
  split; cbn [bw_lots bw_lotID bw_remaining bw_sales bw_records]; try done.
  - exists pre, cur, r. repeat (split; [done|]).
    unfold sales_qty in *. rewrite fmap_app, qsum_app. cbn. qclra.
  - apply Forall_app_2; [done|]. constructor; [|eapply Forall_impl; [exact Hs|]];
      [destruct Hp; split; [done|qclra]|]. intros x []. split; [done|qclra].
Qed.
End Buy.

(** Dropping the exhausted sales keeps the quantity. *)
Lemma sales_qty_keep l :
  Forall ok_remaining_sale l → sales_qty (keep (λ s, flt 0%F (ls_qty s)) l) = sales_qty l.
Proof.
  induction 1 as [|s l [[[q Hq] _] H0] _ IH]; [done|].
  assert (Hlt : flt 0%F (ls_qty s) = qc_ltb 0 q) by (rewrite Hq; cbn; by rewrite qc_of_Z_0).
  unfold keep, sales_qty in *. cbn [List.filter]. rewrite Hlt.
  destruct (qc_ltb 0 q) eqn:E; cbn [fmap list_fmap qsum]; rewrite IH; [done|].
  qc_bools. rewrite Hq in *. cbn in *. qclra.
Qed.

(** ** What is matched

    The recent loss sales in the order they were recorded; each one in the
    window takes what it can of the shares that are left. *)
Fixpoint match_sales (buyDate : Time) (left_ : Qc) (sales : list (recentLossSale xq)) : list (recentLossSale xq * Qc) :=
  match sales with
  | [] => []
  | sale :: rest =>
      let n := val (ls_qty sale) in
      let m := if in_window buyDate (ls_date sale) then if qc_ltb left_ n then left_ else n else 0%Qc in
      (sale, m) :: match_sales buyDate (left_ - m) rest
  end.
Definition matched_qty (ms : list (recentLossSale xq * Qc)) : Qc := qsum ms.*2.
Definition hits (ms : list (recentLossSale xq * Qc)) : list (recentLossSale xq * Qc) := keep (λ m, qc_ltb 0 m.2) ms.
Definition left_over (m : recentLossSale xq * Qc) : recentLossSale xq := ls_set_qty (Fin (val (ls_qty m.1) - m.2)) m.1.

(** The new lot in pieces: one for each sale it replaces, at that much higher a
    price, and what is left of it. *)
Definition absorbed (new : TaxLot xq) (i : nat) (m : recentLossSale xq * Qc) : TaxLot xq :=
  mkLot (chain i (l_ID new)) (l_Date new) (Fin m.2) (fadd (l_Price new) (ls_lossPerShare m.1)).
Definition untouched (new : TaxLot xq) (k : nat) (left_ : Qc) : list (TaxLot xq) :=
  if qc_ltb 0 left_ then [mkLot (chain k (l_ID new)) (l_Date new) (Fin left_) (l_Price new)] else [].
Definition wash_record ast (buyDate : Time) (new : TaxLot xq) (i : nat) (m : recentLossSale xq * Qc) : WashSaleRecord xq :=
  mkWash ast (ls_date m.1) buyDate (Fin (m.2 * val (ls_lossPerShare m.1))) (chain i (l_ID new)).

Lemma matched_qty_app l1 l2 : matched_qty (l1 ++ l2) = (matched_qty l1 + matched_qty l2)%Qc.
Proof. unfold matched_qty. by rewrite fmap_app, qsum_app. Qed.

Lemma match_sales_none buyDate sales :
  Forall (λ s, (0 <= val (ls_qty s))%Qc) sales → match_sales buyDate 0 sales = (λ s, (s, 0%Qc)) <$> sales.
Proof.
  induction 1 as [|s sales Hs _ IH]; [done|]. cbn [match_sales fmap list_fmap].
  assert ((if in_window buyDate (ls_date s) then if qc_ltb 0 (val (ls_qty s)) then 0%Qc else val (ls_qty s) else 0%Qc) = 0%Qc) as ->.
  { destruct (in_window _ _), (qc_ltb 0 (val (ls_qty s))) eqn:E; try done. qc_bools. qclra. }
  replace (0 - 0)%Qc with 0%Qc by ring. by rewrite IH.
Qed.

(** All shares are matched, or all sales in the window are used up. *)
Lemma match_sales_bound buyDate left_ sales :
  (0 <= left_)%Qc → Forall (λ s, (0 <= val (ls_qty s))%Qc) sales →
  let total := qsum ((λ s, val (ls_qty s)) <$> keep (λ s, in_window buyDate (ls_date s)) sales) in
  matched_qty (match_sales buyDate left_ sales) = (if qc_ltb left_ total then left_ else total) ∧ (0 <= total)%Qc.
Proof.
  intros Hl Hs. revert left_ Hl. induction Hs as [|s sales Hq Hs IH]; intros left_ Hl; cbn zeta.
  { cbn. destruct (qc_ltb left_ 0) eqn:E; qc_bools; split; try done; qclra. }
  cbn [match_sales]. rewrite keep_cons. set (total := qsum ((λ s, val (ls_qty s)) <$> keep _ sales)) in *.
  set (m := if in_window _ _ then _ else _). change (matched_qty ((s, m) :: ?l)) with (m + matched_qty l)%Qc.
  assert (Hm : (m <= left_)%Qc).
  { unfold m. destruct (in_window _ _); [|done]. destruct (qc_ltb left_ (val (ls_qty s))) eqn:E; qc_bools; qclra. }
  destruct (IH (left_ - m)%Qc ltac:(qclra)) as [-> Ht]. unfold m in *. destruct (in_window buyDate (ls_date s)).
  - cbn [app fmap list_fmap qsum]. fold total. set (n := val (ls_qty s)) in *.
    split; [|qclra]. destruct (qc_ltb left_ n) eqn:E; qc_bools.
    + replace (left_ - left_)%Qc with 0%Qc by ring. destruct (qc_ltb 0 total) eqn:E1, (qc_ltb left_ (n + total)) eqn:E2; qc_bools; qclra.
    + destruct (qc_ltb (left_ - n) total) eqn:E1, (qc_ltb left_ (n + total)) eqn:E2; qc_bools; qclra.
  - replace (left_ - 0)%Qc with left_ by ring. cbn [app]. fold total. split; [|done]. destruct (qc_ltb left_ total); qclra.
Qed.

(** The state of the loop after it has visited the sales of [ms]. *)
Record buy_exact ast (buyDate : Time) (pre : list (TaxLot xq)) (new : TaxLot xq) (ms : list (recentLossSale xq * Qc))
    (left_ : Qc) (w : BuyWash (F := xq)) : Prop := mkBuyExact {
  be_lots : bw_lots w = pre ++ imap (absorbed new) (hits ms) ++ untouched new (length (hits ms)) left_;
  be_left : bw_remaining w = Fin left_ ∧ (0 <= left_)%Qc;
  be_id : (0 < left_)%Qc → bw_lotID w = chain (length (hits ms)) (l_ID new);
  be_sales : bw_sales w = left_over <$> ms;
  be_records : bw_records w = imap (wash_record ast buyDate new) (hits ms);
}.

Lemma hits_snoc ms m : hits (ms ++ [m]) = hits ms ++ (if qc_ltb 0 m.2 then [m] else []).
Proof. unfold hits. rewrite keep_app, keep_cons. by destruct (qc_ltb 0 m.2). Qed.

Lemma left_over_none sale : ok_sale sale → left_over (sale, 0%Qc) = sale.
Proof.
  intros [[q Hq] _]. unfold left_over, ls_set_qty. destruct sale as [d l n]. cbn in *. subst n. cbn. do 2 f_equal. ring.
Qed.

Lemma pieces_fresh (new : TaxLot xq) pre ms : fresh_for (l_ID new) pre →
  Forall (λ x, l_ID x ≠ chain (length (hits ms)) (l_ID new)) (pre ++ imap (absorbed new) (hits ms)).
Proof.
  intros Hf. apply Forall_app. split; [eapply Forall_impl; [exact Hf|]; intros x Hx; apply Hx|].
  apply Forall_lookup. intros i x Hi. rewrite list_lookup_imap in Hi. destruct (hits ms !! i) eqn:E; [|done].
  apply lookup_lt_Some in E. injection Hi as <-. cbn [l_ID absorbed]. intros Hc. apply (f_equal String.length) in Hc.
  rewrite !chain_length in Hc. lia.
Qed.

Lemma wash_buy_step_exact_state ast buyDate pre new ms left_ w sale :
  fresh_for (l_ID new) pre → buy_exact ast buyDate pre new ms left_ w → (0 < left_)%Qc → pos_sale sale →
  let n := val (ls_qty sale) in
  let m := if in_window buyDate (ls_date sale) then if qc_ltb left_ n then left_ else n else 0%Qc in
  buy_exact ast buyDate pre new (ms ++ [(sale, m)]) (left_ - m) (wash_buy_step ast buyDate sale w).
Proof.
  intros Hf [Hl [Hr _] Hid Hs Hrec] Hpos [Hok Hsq]. specialize (Hid Hpos). pose proof Hok as [[q Hq] [p Hp]]. cbn zeta.
  unfold wash_buy_step. rewrite outside_window_days, negb_if. destruct (in_window buyDate (ls_date sale)).
  2:{ replace (left_ - 0)%Qc with left_ by ring. assert (Hh : hits (ms ++ [(sale, 0%Qc)]) = hits ms) by (rewrite hits_snoc; apply app_nil_r).
      split; cbn [bw_lots bw_lotID bw_remaining bw_sales bw_records]; rewrite ?Hh; try done; [split; [done|by apply Qclt_le_weak]|].
      rewrite fmap_app, Hs. cbn [fmap list_fmap]. by rewrite (left_over_none sale Hok). }
  rewrite Hq, Hr, Hp, cap_exact. rewrite Hq in Hsq. cbn [val] in *. set (m := if qc_ltb left_ q then left_ else q).
  assert (Hm : (0 < m)%Qc ∧ (m <= left_)%Qc) by (unfold m; destruct (qc_ltb left_ q) eqn:E; qc_bools; qclra). destruct Hm as [Hm0 Hml].
  pose proof (pieces_fresh new pre ms Hf) as Hne.
  assert (Hhits : hits (ms ++ [(sale, m)]) = hits ms ++ [(sale, m)]) by (rewrite hits_snoc; cbn [snd]; by rewrite (proj2 (qc_ltb_true _ _) Hm0)).
  assert (Hsales : bw_sales w ++ [ls_set_qty (fsub (Fin q) (Fin m)) sale] = left_over <$> ms ++ [(sale, m)]).
  { assert (left_over (sale, m) = ls_set_qty (fsub (Fin q) (Fin m)) sale) as Hlo by (unfold left_over; cbn [fst snd]; by rewrite Hq).
    rewrite fmap_app, Hs. cbn [fmap list_fmap]. by rewrite Hlo. }
  assert (Hrecs : bw_records w ++ [mkWash ast (ls_date sale) buyDate (fmul (Fin m) (Fin p)) (bw_lotID w)]
    = imap (wash_record ast buyDate new) (hits ms ++ [(sale, m)])).
  { rewrite imap_app, Hrec, Hid. cbn [imap]. f_equal. unfold wash_record. cbn [fst snd]. by rewrite Hp, Nat.add_0_r. }
  assert (Hun : untouched new (length (hits ms)) left_ = [mkLot (bw_lotID w) (l_Date new) (Fin left_) (l_Price new)])
    by (unfold untouched; by rewrite (proj2 (qc_ltb_true _ _) Hpos), Hid).
  assert (Hid' : l_ID (mkLot (bw_lotID w) (l_Date new) (Fin left_) (l_Price new)) = bw_lotID w) by done.
  rewrite Hun in Hl. rewrite <-Hid in Hne. rewrite (assoc_L (++)) in Hl. cbn [flt Num_exact xlt].
  destruct (qc_ltb m left_) eqn:Hlt; qc_bools.
  - unfold splitLot. rewrite Hl. rewrite <-Hid' at 1. rewrite split_lots_found by done. cbn [l_ID l_Date l_Qty l_Price fst snd].
    rewrite adjust_basis_found by done.
    split; cbn [bw_lots bw_lotID bw_remaining bw_sales bw_records]; rewrite ?Hhits, ?length_app; cbn [length].
    + rewrite imap_app, <-!(assoc_L (++)). do 2 f_equal. cbn [imap app]. unfold untouched. rewrite (proj2 (qc_ltb_true _ _)) by qclra.
      unfold absorbed. cbn [fst snd]. by rewrite Hp, Hid, Nat.add_0_r, Nat.add_1_r.
    + split; [done|qclra].
    + intros _. rewrite Hid, Nat.add_1_r. reflexivity.
    + done.
    + done.
  - assert (Hml' : m = left_) by qclra. rewrite Hl, adjust_basis_found by done.
    split; cbn [bw_lots bw_lotID bw_remaining bw_sales bw_records]; rewrite ?Hhits, ?length_app; cbn [length].
    + rewrite imap_app, <-!(assoc_L (++)). do 2 f_equal. cbn [imap app]. unfold untouched. rewrite (proj2 (qc_ltb_false _ _)) by qclra.
      unfold absorbed. cbn [fst snd]. by rewrite Hp, Hid, Nat.add_0_r, Hml'.
    + split; [by rewrite Hml'|qclra].
    + intros. qclra.
    + done.
    + done.
Qed.

Lemma wash_buy_loop_exact_state ast buyDate pre new sales ms left_ w :
  fresh_for (l_ID new) pre → Forall pos_sale sales → buy_exact ast buyDate pre new ms left_ w →
  let ms' := match_sales buyDate left_ sales in
  buy_exact ast buyDate pre new (ms ++ ms') (left_ - matched_qty ms') (wash_buy_loop ast buyDate sales w).
Proof.
  intros Hf Hs. revert ms left_ w. induction Hs as [|s sales Hp Hs IH]; intros ms left_ w Hw; cbn zeta.
  { cbn [match_sales wash_buy_loop]. rewrite app_nil_r. by replace (left_ - matched_qty [])%Qc with left_ by (unfold matched_qty; cbn; ring). }
  pose proof Hw as [Hl [Hr H0] Hid Hsl Hrec]. cbn [wash_buy_loop]. rewrite Hr.
  destruct (Qc_dec left_ 0) as [[Hneg|Hpos]|Hz]; [qclra| |].
  - assert (flt (of_Z 0) (Fin left_) = true) as -> by (apply qc_ltb_true; by rewrite qc_of_Z_0).
    pose proof (wash_buy_step_exact_state ast buyDate pre new ms left_ w s Hf Hw Hpos Hp) as Hw'. cbn zeta in Hw'.
    apply IH in Hw'. cbn [match_sales]. set (m := if in_window _ _ then _ else _) in *. rewrite <-(assoc_L (++)) in Hw'. cbn [app] in Hw'.
    by replace (left_ - matched_qty ((s, m) :: match_sales buyDate (left_ - m) sales))%Qc
      with (left_ - m - matched_qty (match_sales buyDate (left_ - m) sales))%Qc by (unfold matched_qty; cbn; ring).
  - subst left_. assert (flt (of_Z 0) (Fin 0) = false) as -> by done.
    assert (Hall : Forall pos_sale (s :: sales)) by (by constructor).
    rewrite match_sales_none by (eapply Forall_impl; [exact Hall|]; intros x [_ Hx]; by apply Qclt_le_weak).
    set (rest := s :: sales) in *. clearbody rest.
    assert (Hh : hits (ms ++ ((λ s, (s, 0%Qc)) <$> rest)) = hits ms).
    { unfold hits. rewrite keep_app. assert (keep (λ m, qc_ltb 0 m.2) ((λ s, (s, 0%Qc)) <$> rest) = []) as ->; [|by rewrite app_nil_r].
      clear. induction rest as [|x l IH]; [done|]. cbn [fmap list_fmap]. rewrite keep_cons. exact IH. }
    assert (H0' : matched_qty ((λ s, (s, 0%Qc)) <$> rest) = 0%Qc).
    { clear. unfold matched_qty. induction rest as [|x l IH]; [done|]. cbn in *. rewrite IH. ring. }
    rewrite H0'. replace (0 - 0)%Qc with 0%Qc by ring.
    split; cbn [bw_lots bw_lotID bw_remaining bw_sales bw_records]; rewrite ?Hh; try done.
    rewrite fmap_app, Hsl. f_equal. clear -Hall. induction Hall as [|x l [Hx _] _ IH]; [done|]. cbn. by rewrite <-IH, left_over_none.
Qed.

(** C38. A buy absorbs disallowed losses into its own basis, in exact
    arithmetic.  When the lot just opened has an ID no other lot of the asset
    uses (nor one of the IDs a split derives from it), [checkWashSaleOnBuy]
    matches its shares with the recent loss sales of the thirty days before the
    buy, in order, as far as shares and sales go.  The new lot alone is split
    into a piece for each sale matched, at a price raised by the loss per share
    of that sale, and what is left at its own price; every other lot of the
    asset is as it was.  Each match is recorded once, with the loss it
    disallows and the lot that takes it; the sales keep what was not matched
    and are dropped when nothing is left.  So the shares stay the same and the
    cost basis rises by exactly the disallowed losses recorded. *)
Theorem checkWashSaleOnBuy_absorbs (ast : Asset) (buyDate : Time) (L : Ledger xq)
    (pre : list (TaxLot xq)) (new : TaxLot xq) (qty : Qc) :
  long_lots L ast = pre ++ [new] → l_Qty new = Fin qty → (0 < qty)%Qc →
  exact_lots (pre ++ [new]) → fresh_for (l_ID new) pre → Forall pos_sale (loss_sales L ast) →
  let '(L', lotID, remaining) := checkWashSaleOnBuy ast buyDate (Fin qty) (l_ID new) L in
  let ms := match_sales buyDate qty (loss_sales L ast) in
  let records := imap (wash_record ast buyDate new) (hits ms) in
  let total := qsum ((λ s, val (ls_qty s)) <$> keep (λ s, in_window buyDate (ls_date s)) (loss_sales L ast)) in
  let r := (qty - matched_qty ms)%Qc in
  matched_qty ms = (if qc_ltb qty total then qty else total) ∧
  remaining = Fin r ∧ (0 <= r)%Qc ∧ ((0 < r)%Qc → lotID = chain (length (hits ms)) (l_ID new)) ∧
  long_lots L' ast = pre ++ imap (absorbed new) (hits ms) ++ untouched new (length (hits ms)) r ∧
  washSales L' = washSales L ++ records ∧
  loss_sales L' ast = keep (λ s, flt 0%F (ls_qty s)) (left_over <$> ms) ∧
  shares (long_lots L' ast) = shares (long_lots L ast) ∧
  basis (long_lots L' ast) = (basis (long_lots L ast) + disallowed records)%Qc ∧
  (sales_qty (loss_sales L' ast) = sales_qty (loss_sales L ast) - (qty - r))%Qc ∧
  Forall (record_of_buy ast buyDate) records.
Proof.
  intros Hl Hq H0 He Hfr Hs.
  assert (Hnn : Forall (λ s, (0 <= val (ls_qty s))%Qc) (loss_sales L ast))
    by (eapply Forall_impl; [exact Hs|]; intros x [_ Hx]; by apply Qclt_le_weak).
  destruct (match_sales_bound buyDate qty (loss_sales L ast) ltac:(by apply Qclt_le_weak) Hnn) as [Htotal _].
  assert (Hun : untouched new 0 qty = [new]).
  { unfold untouched. rewrite (proj2 (qc_ltb_true _ _) H0), <-Hq. by destruct new. }
  unfold checkWashSaleOnBuy. destruct (loss_sales L ast) as [|s0 sales0] eqn:Els.
  { cbv zeta. split; [exact Htotal|]. cbn [match_sales hits keep List.filter imap length fmap list_fmap]. change (matched_qty []) with 0%Qc.
    replace (qty - 0)%Qc with qty by ring. rewrite Hun, Els, Hl, app_nil_r. change (disallowed []) with 0%Qc. change (sales_qty []) with 0%Qc.
    split; [done|]. split; [by apply Qclt_le_weak|]. do 5 (split; [done|]). split; [ring|]. split; [ring|]. constructor. }
  rewrite <-Els in *. clear Els s0 sales0.
  set (w0 := mkBuyWash (long_lots L ast) (l_ID new) (Fin qty) [] []).
  assert (Hi : buy_inv ast buyDate (basis (long_lots L ast)) qty 0 w0).
  { split; cbn; rewrite ?Hl; try done.
    - exists pre, new, qty. do 3 (split; [done|]). split; [qclra|]. do 2 (split; [done|]).
      unfold sales_qty. cbn. ring.
    - unfold disallowed. cbn. ring. }
  pose proof (wash_buy_loop_inv _ _ _ _ _ _ _ Hs Hi) as Hw.
  assert (Hsh : shares (bw_lots (wash_buy_loop ast buyDate (loss_sales L ast) w0)) =
                shares (long_lots L ast)).
  { apply (wash_buy_loop_exact ast buyDate (loss_sales L ast) w0); cbn; rewrite ?Hl; try done;
      [apply finite_Fin|eapply Forall_impl; [exact Hs|by intros ? []]]. }
  assert (Hx0 : buy_exact ast buyDate pre new [] qty w0).
  { split; cbn; [by rewrite Hl, Hun|split; [done|by apply Qclt_le_weak]|done..]. }
  pose proof (wash_buy_loop_exact_state ast buyDate pre new (loss_sales L ast) [] qty w0 Hfr Hs Hx0) as Hx. cbn zeta in Hx. cbn [app] in Hx.
  set (w := wash_buy_loop _ _ _ w0) in *. clearbody w. cbv zeta.
  set (ms := match_sales buyDate qty (loss_sales L ast)) in *. clearbody ms.
  destruct Hw as [(pre' & cur & r & _ & _ & Hr & Hr0 & _ & _ & Hq') _ Hb Hrs Hrec].
  destruct Hx as [Hxl [Hxr Hxr0] Hxi Hxs Hxw]. rewrite Hxr in Hr. injection Hr as <-.
  assert (Hin : is_Some (taxLots L !! ast)).
  { unfold long_lots, lookup_d in Hl. destruct (taxLots L !! ast); [done|]. by destruct pre. }
  books. rewrite lookup_d_alter_eq, store_pruned_eq, sales_qty_keep by done. rewrite <-Hxw, <-Hxs, <-Hxl.
  destruct Hin as [l ->]. cbn. repeat split; try done. qclra.
Qed.

(** ** Histories on which the tracking goes wrong *)
Section Findings.
Local Existing Instance utc_db.
Local Existing Instance blank_fmt.

Definition has_negative_lot (ast : Asset) (L : Ledger xq) : bool :=
  existsb (λ l, flt (l_Qty l) (of_Z 0)) (long_lots L ast).
Definition has_twin_lots (ast : Asset) (L : Ledger xq) : bool :=
  negb (bool_decide (NoDup (l_ID <$> long_lots L ast))).

(** Two buys, a 1:10 reverse split, a sale at a loss. *)
Definition reverse_split_history : list event :=
  [Trade (buy "b1" 0 SPY 300 20); Trade (buy "b2" 1 SPY 100 20);
   StockSplit SPY (day 2) (qfrac 1 10); Trade (sell "s1" 3 SPY 30 150)].

(** Recent buys are not rescaled by a stock split.  There is a history of
    ordinary trades with one reverse split after which an asset has a tax lot
    of negative quantity: the wash-sale check of the sale splits the second
    lot at the pre-split quantity of its buy. *)
Theorem reverse_split_negative_lot :
  ∃ L, reachable L ∧ has_negative_lot SPY L = true.
Proof. apply (run_reachable reverse_split_history (qc_of_Z 10000) (day 0) LotFIFO). vm_compute. reflexivity. Qed.

(** Two buys, a gain taken on the second lot, a loss taken on the first. *)
Definition mixed_method_history : list event :=
  [Trade (buy "b1" 0 SPY 100 30); Trade (buy "b2" 5 SPY 100 20);
   Trade (with_method LotLIFO (sell "s1" 6 SPY 90 22)); Trade (sell "s2" 7 SPY 50 25)].

(** A recent buy keeps its quantity when a profitable sale consumes part
    of its lot.  There is a history of four trades and no split after which an
    asset has a tax lot of negative quantity: the loss sale splits the lot of
    the second buy, of which ten shares are left, at fifty. *)
Theorem stale_recent_buy_negative_lot :
  ∃ L, reachable L ∧ has_negative_lot SPY L = true ∧ has_twin_lots SPY L = false.
Proof.
  destruct (run_reachable mixed_method_history (qc_of_Z 10000) (day 0) LotFIFO
    (λ L, has_negative_lot SPY L && negb (has_twin_lots SPY L))) as (L & Hr & Ht).
  { vm_compute. reflexivity. }
  apply andb_true_iff in Ht as [Ht1 Ht2]. apply negb_true_iff in Ht2. by exists L.
Qed.

(** Three buys and a sale carrying one timestamp. *)
Definition same_day_history : list event :=
  [Trade (buy "b1" 0 SPY 10 20); Trade (buy "b2" 0 SPY 10 20);
   Trade (sell "s1" 0 SPY 10 21); Trade (buy "b3" 0 SPY 10 20)].

(** Lot IDs are not unique.  The ID is made of the timestamp and the number
    of lots then held, so a sale between two buys of the same timestamp lets
    the later buy reuse the ID of a lot still held; basis adjustments and
    splits, which look lots up by ID, then hit the older one. *)
Theorem lot_ids_collide : ∃ L, reachable L ∧ has_twin_lots SPY L = true.
Proof. apply (run_reachable same_day_history (qc_of_Z 10000) (day 0) LotFIFO). vm_compute. reflexivity. Qed.

(** *** Witness *)
Definition wash_sample : Ledger xq :=
  with_recentLossSales {[SPY := [mkLossSale (day 0) (q 5) (q 30); mkLossSale (day 4) (q 2) (q 10)]]}
    (with_taxLots {[SPY := [lot "old" 1 50 18; lot "new" 9 100 15]]} empty_ledger).

Lemma checkWashSaleOnBuy_absorbs_witness :
  let '(L', _, remaining) := checkWashSaleOnBuy SPY (day 9) (q 100) "new" wash_sample in
  remaining = q 60 ∧ basis (long_lots L' SPY) = (basis (long_lots wash_sample SPY) + qc_of_Z 170)%Qc ∧
  length (washSales L') = 2%nat ∧ loss_sales L' SPY = [] ∧
  (λ l, (l_ID l, l_Qty l, l_Price l)) <$> long_lots L' SPY =
    [("old", q 50, q 18); ("new", q 30, q 20); (chain 1 "new", q 10, q 17); (chain 2 "new", q 60, q 15)]%string.
Proof.
  pose proof (checkWashSaleOnBuy_absorbs SPY (day 9) wash_sample [lot "old" 1 50 18]
    (lot "new" 9 100 15) (qc_of_Z 100)) as H.
  change (l_ID (lot "new" 9 100 15)) with "new"%string in H.
  change (Fin (qc_of_Z 100)) with (q 100) in H.
  destruct (checkWashSaleOnBuy _ _ _ _ _) as [[L' id] rem].
  destruct H as (_ & Hr & _ & _ & Hlots & Hw & Hls & _ & Hb & _).
  - reflexivity.
  - reflexivity.
  - vm_compute. reflexivity.
  - repeat constructor; apply finite_Fin.
  - apply Forall_singleton. intros [|k] E; [discriminate|].
    apply (f_equal String.length) in E. rewrite chain_length in E. cbn in E. lia.
  - repeat constructor; try apply finite_Fin; vm_compute; reflexivity.
  - rewrite Hr, Hb, Hw, Hls, Hlots. split_and!; [eval_eq|eval_eq|vm_compute; reflexivity|vm_compute; reflexivity|eval_eq].
Defined.
End Findings.
