(* ===== verification/Risk.v ===== *)
(** * Risk: the risk and tax middleware ([engine/middleware/])

    Each middleware inspects the batch against the account and changes its
    orders.  Annotation texts keep their static part.  The data source of the
    volatility scaler is a function, and [math.Log] and [math.Sqrt] are the
    operations of the classes [NumLog] and [NumSqrt]. *)
From Stdlib Require Import ZArith.
From stdpp Require Import base list gmap strings.
From S2P Require Import Prelude Num GoTime Asset Period Frame Broker Lots Ledger Gains.
From S2P Require Import Account Batch Exec.

Section Risk.
Context {F : Type} `{Num F} {tz : TZDB} {go : GoMapOrder}.
Local Open Scope num_scope.
Implicit Types (a : Account F) (b : Batch F) (p : PortfolioView F) (order : Order F).

(** ** Drawdown circuit breaker *)

(** [equity.Sub(peak).Div(peak)] on the equity column. *)
Definition drawdown_col (equity : list F) : list F :=
  zip_with (λ e peak, (e - peak) / peak) equity (cum_max_col equity).

(** [Account.Drawdown] over the whole history, as [MaxDrawdown]'s series. *)
Definition Drawdown a : list F :=
  match perfData (history a) with
  | None => []
  | Some perf =>
      drawdown_col (Column (Metrics (Window perf None) [PortfolioEquity]) portfolioAsset PortfolioEquity)
  end.

Definition liquidation_sells p : list (Order F) :=
  omap (λ h : Asset * F,
    if h.2 >? 0 then Some (base_order h.1 Sell h.2 0 Market Day_ ""%string) else None)
    (range (v_Holdings p)).

Definition DrawdownCircuitBreaker (threshold : F) : Middleware F := λ a b,
  match last (Drawdown a) with
  | None => (a, b, None)
  | Some dd =>
      if is_nan dd || (fabs dd <? threshold) then (a, b, None)
      else
        (a, batch_Annotate "risk:drawdown-circuit-breaker" "force-liquidating all positions"
              (set_Orders (liquidation_sells (view a)) b), None)
  end.

(** ** Maximum position size *)
Definition cap_position (limit totalValue : F) b (w : Asset * F) : Batch F :=
  let '(posAsset, weight) := w in
  let absWeight := fabs weight in
  if absWeight <=? limit then b
  else
    let excessDollars := (absWeight - limit) * totalValue in
    let side := if weight >? 0 then Sell else Buy in
    batch_Annotate "risk:max-position-size" (Ticker posAsset)
      (add_orders [base_order posAsset side 0 excessDollars Market Day_ ""%string] b).

Definition MaxPositionSize (limit : F) : Middleware F := λ a b,
  let p := view a in
  let weights := ProjectedWeights b p in
  let totalValue := ProjectedValue b p in
  (a, fold_left (cap_position limit totalValue) (range weights) b, None).

(** ** Maximum position count *)
Record positionEntry : Type := mkEntry { pe_asset : Asset; pe_value : F; pe_qty : F }.

Definition drop_position b (pos : positionEntry) : Batch F :=
  let '(side, qty) := if pe_qty pos <? 0 then (Buy, - pe_qty pos) else (Sell, pe_qty pos) in
  batch_Annotate "risk:max-position-count" (Ticker (pe_asset pos))
    (add_orders [base_order (pe_asset pos) side qty 0 Market Day_ ""%string] b).

(** [sort.Slice] is not stable: [sort] is any function that sorts by value. *)
Definition MaxPositionCount (sort : list positionEntry → list positionEntry) (limit : nat) : Middleware F :=
  λ a b,
    let p := view a in
    let weights := ProjectedWeights b p in
    if (size weights <=? limit)%nat then (a, b, None)
    else
      let totalValue := ProjectedValue b p in
      let holdings := ProjectedHoldings b p in
      let positions := (λ w : Asset * F,
        mkEntry w.1 (fabs (w.2 * totalValue)) (lookup_d 0 holdings w.1)) <$> range weights in
      (a, fold_left drop_position (take (length positions - limit) (sort positions)) b, None).

(** ** Exposure limits *)
Definition exposure_dollars p order : F :=
  let currentQty := v_Position p (o_Asset order) in
  if o_Amount order >? 0 then o_Amount order
  else if o_Qty order >? 0 then
    if currentQty !=? 0 then o_Qty order * fabs (v_PositionValue p (o_Asset order) / currentQty) else 0
  else 0.

Definition projectExposureChange p order (longMV shortMV : F) : F * F :=
  let currentQty := v_Position p (o_Asset order) in
  let value := v_PositionValue p (o_Asset order) in
  let dollarAmount := exposure_dollars p order in
  match o_Side order with
  | Buy =>
      if currentQty <? 0 then
        let shortPositionValue := fabs currentQty * fabs (value / currentQty) in
        if dollarAmount <=? shortPositionValue then (longMV, shortMV - dollarAmount)
        else (longMV + (dollarAmount - shortPositionValue), shortMV - shortPositionValue)
      else (longMV + dollarAmount, shortMV)
  | Sell =>
      if currentQty >? 0 then
        let longPositionValue := currentQty * (value / currentQty) in
        if dollarAmount <=? longPositionValue then (longMV - dollarAmount, shortMV)
        else (longMV - longPositionValue, shortMV + (dollarAmount - longPositionValue))
      else (longMV, shortMV + dollarAmount)
  end.

(** The loop of both limits; [exposure] is the constrained quantity. *)
Fixpoint filter_orders (exposure : F → F → F) (limit equity : F) (key : string) p
    (orders : list (Order F)) (longMV shortMV : F) b : list (Order F) * Batch F :=
  match orders with
  | [] => ([], b)
  | o :: rest =>
      let '(projLong, projShort) := projectExposureChange p o longMV shortMV in
      if exposure projLong projShort / equity >? limit then
        filter_orders exposure limit equity key p rest longMV shortMV
          (batch_Annotate key (Ticker (o_Asset o)) b)
      else
        let '(kept, b) := filter_orders exposure limit equity key p rest projLong projShort b in
        (o :: kept, b)
  end.

Definition exposure_limit (exposure : F → F → F) (key : string) (limit : F) : Middleware F := λ a b,
  let p := view a in
  if v_Equity p <=? 0 then (a, b, None)
  else
    let '(kept, b) := filter_orders exposure limit (v_Equity p) key p (b_Orders b)
                        (v_LongMarketValue p) (v_ShortMarketValue p) b in
    (a, set_Orders kept b, None).

Definition GrossExposureLimit (maxGross : F) : Middleware F :=
  exposure_limit (λ l s, l + s) "risk:gross-exposure-limit" maxGross.
Definition NetExposureLimit (maxNet : F) : Middleware F :=
  exposure_limit (λ l s, fabs (l - s)) "risk:net-exposure-limit" maxNet.

(** ** Volatility scaler *)
Context `{NumSqrt F} `{NumLog F}.

Fixpoint log_returns (prev : F) (prices : list F) : option (list F) :=
  match prices with
  | [] => Some []
  | x :: rest =>
      if (prev <=? 0) || (x <=? 0) then None
      else cons (flog (x / prev)) <$> log_returns x rest
  end.

Definition computeAnnualizedVol (frame : DataFrame F) (ast : Asset) (lookback : nat) : F :=
  let prices := Column frame ast MetricClose in
  let prices := drop (length prices - (lookback + 1)) prices in
  match prices with
  | [] | [_] => fnan
  | x :: rest =>
      match log_returns x rest with
      | None => fnan
      | Some returns =>
          let n := of_Z (Z.of_nat (length returns)) in
          let mean := fsum returns / n in
          let variance := fsum ((λ r, (r - mean) * (r - mean)) <$> returns) /
                          of_Z (Z.of_nat (length returns) - 1) in
          fsqrt variance * fsqrt (of_Z 252)
      end
  end.

(** Asset, volatility and absolute weight, for the assets with a volatility. *)
Definition vol_entries (frame : DataFrame F) (lookback : nat) (weights : list (Asset * F)) :
    list (Asset * F * F) :=
  omap (λ w : Asset * F,
    let vol := computeAnnualizedVol frame w.1 lookback in
    if is_nan vol || (vol <=? 0) then None else Some (w.1, vol, fabs w.2)) weights.

Definition scale_entry (groupWeight invVolSum totalValue : F) (e : Asset * F * F) : option (Order F) :=
  let '(ast, vol, weight) := e in
  let targetWeight := (1 / vol) / invVolSum * groupWeight in
  if targetWeight >=? weight then None
  else Some (base_order ast Sell 0 ((weight - targetWeight) * totalValue) Market Day_ ""%string).

Definition VolatilityScaler (fetch : list Asset → Period → result (DataFrame F)) (lookback : nat) :
    Middleware F := λ a b,
  let p := view a in
  let weights := range (ProjectedWeights b p) in
  match weights with
  | [] => (a, b, None)
  | _ =>
      let totalValue := ProjectedValue b p in
      if totalValue =? 0 then (a, b, None)
      else
        let period := Days (Z.quot (Z.of_nat lookback * 7) 5 + 5) in
        match fetch weights.*1 period with
        | Err e => (a, b, Some ("volatility scaler: fetch prices: " +:+ e)%string)
        | Ok frame =>
            let entries := vol_entries frame lookback weights in
            let groupWeight := fsum ((λ e : Asset * F * F, e.2) <$> entries) in
            let invVolSum := fsum ((λ e : Asset * F * F, 1 / e.1.2) <$> entries) in
            let sells := omap (scale_entry groupWeight invVolSum totalValue) entries in
            let b := add_orders sells b in
            (a, match sells with [] => b | _ => batch_Annotate "risk:volatility-scaler" "" b end, None)
        end
  end.

(** ** Tax-loss harvesting ([engine/middleware/tax/tax_loss_harvester.go]) *)
Record HarvesterConfig : Type := mkHarvester {
  LossThreshold : F;
  GainOffsetOnly : bool;
  Substitutes : gmap Asset Asset;
}.

Definition currentPrice p (ast : Asset) : F :=
  let qty := v_Position p ast in
  if qty >? 0 then v_PositionValue p ast / qty
  else
    match v_Prices p with
    | None => 0
    | Some df => let v := Value df ast MetricClose in if is_nan v then 0 else v
    end.

(** [batch.Orders[lastIdx].Amount = sellDollars] on the buy just added. *)
Definition buy_dollars (ast : Asset) (dollars : F) (j : string) b : Batch F :=
  add_orders [base_order ast Buy 0 dollars Market Day_ j] b.

Definition sell_highest_cost (ast : Asset) (qty : F) (j : string) b : Batch F :=
  batch_Order ast Sell qty [WithLotSelection 2; WithJustification j] b.

Definition swap_back p b (sub : Substitution) : Batch F :=
  if negb (Before (s_Until sub) (b_Timestamp b)) then b
  else
    let subQty := v_Position p (s_Substitute sub) in
    if subQty <=? 0 then b
    else
      let subPrice := currentPrice p (s_Substitute sub) in
      if subPrice <=? 0 then b
      else
        let j := ("tax-loss harvest swap-back: sell " +:+ Ticker (s_Substitute sub) +:+ ", buy "
                  +:+ Ticker (s_Original sub) +:+ " (wash sale window expired)")%string in
        buy_dollars (s_Original sub) (subQty * subPrice) j
          (sell_highest_cost (s_Substitute sub) subQty j b).

(** Cost basis and quantity of the lots, accumulated left to right. *)
Definition lot_totals (lots : list (TaxLot F)) : F * F :=
  fold_left (λ acc l, (acc.1 + l_Price l * l_Qty l, acc.2 + l_Qty l)) lots (0, 0).

Definition harvest_one (cfg : HarvesterConfig) (acc : Account F * Batch F) (held : Asset) :
    Account F * Batch F :=
  let '(a, b) := acc in
  match UnrealizedLots (ledger a) held with
  | [] => acc
  | lots =>
      let price := currentPrice (view a) held in
      if price <=? 0 then acc
      else
        let '(totalCostBasis, totalQty) := lot_totals lots in
        let unrealizedPnL := totalQty * price - totalCostBasis in
        if unrealizedPnL >=? 0 then acc
        else
          let lossPct := (- unrealizedPnL) / totalCostBasis in
          if lossPct <? LossThreshold cfg then acc
          else
            match WashSaleWindow (ledger a) held, Substitutes cfg !! held with
            | _ :: _, None => acc
            | _, None => (a, sell_highest_cost held totalQty ("tax-loss harvest: " +:+ Ticker held)%string b)
            | _, Some substitute =>
                let b := sell_highest_cost held totalQty ("tax-loss harvest: " +:+ Ticker held)%string b in
                let b := buy_dollars substitute (totalQty * price)
                           ("tax-loss harvest substitute: buy " +:+ Ticker substitute +:+ " to replace "
                            +:+ Ticker held)%string b in
                let expiry := AddDate (b_Timestamp b) 0 0 washSaleWindowDays in
                (RegisterSubstitution held substitute expiry a, b)
            end
  end.

Definition TaxLossHarvester (cfg : HarvesterConfig) : Middleware F := λ a b,
  let '(ltcg, stcg) := RealizedGainsYTD (ledger a) in
  if GainOffsetOnly cfg && (ltcg + stcg <=? 0) then (a, b, None)
  else
    let b := fold_left (swap_back (view a)) (range (ActiveSubstitutions a)).*2 b in
    let held := omap (λ h : Asset * F, if h.2 >? 0 then Some h.1 else None) (range (Holdings a)) in
    let '(a, b) := fold_left (harvest_one cfg) held (a, b) in
    (a, b, None).
End Risk.
