(* ===== verification/MarginCall.v ===== *)
(** * MarginCall: margin calls, margin configuration and reconciliation
    ([engine/margin_call.go], [engine/margin_config.go],
    [engine/reconciler.go])

    The engine's reactions to an account state.  The strategy's handlers are
    functions from the account and the batch; the broker is the interface of
    [Exec]. *)
From Stdlib Require Import ZArith.
From stdpp Require Import base list gmap strings.
From S2P Require Import Prelude Num GoTime Asset Period Frame Broker Lots Ledger.
From S2P Require Import Account Batch Exec.

Section MarginCall.
Context {F : Type} `{Num F} {tz : TZDB} {fx : FmtFloat F} {go : GoMapOrder}.
Context {B : Type} `{!Broker B F}.
Local Open Scope num_scope.
Implicit Types (a : Account F) (k : B) (b : Batch F).

(** A strategy callback: it may fill the batch, or fail. *)
Definition Handler : Type := Account F → Batch F → result (Batch F).

Definition unwind_order (unwindFraction : F) (h : Asset * F) : option (Order F) :=
  let '(ast, qty) := h in
  if qty =? 0 then None
  else
    let closeQty := fceil (fabs qty * unwindFraction) in
    let closeQty := if closeQty >? fabs qty then fabs qty else closeQty in
    let side := if qty <? 0 then Buy else Sell in
    Some (base_order ast side closeQty 0 Market Day_ "margin call auto-liquidation"%string).

(** The orders of the automatic liquidation. *)
Definition unwind_orders a : list (Order F) :=
  let deficiency := MarginDeficiency a in
  let gross := LongMarketValue a + ShortMarketValue a in
  let unwindFraction := deficiency / gross in
  let unwindFraction := if unwindFraction >? 1 then 1 else unwindFraction in
  omap (unwind_order unwindFraction) (range (Holdings a)).

Definition autoLiquidate (mws : list (Middleware F)) (date : Time) a k : Account F * B * option error :=
  if MarginDeficiency a =? 0 then (a, k, None)
  else
    let gross := LongMarketValue a + ShortMarketValue a in
    if gross <=? 0 then (a, k, None)
    else
      match unwind_orders a with
      | [] => (a, k, None)
      | orders =>
          let b := add_orders orders (set_SkipMiddleware true (NewBatch date)) in
          let '(a, k, _, e) := ExecuteBatch mws a k b in
          (a, k, (λ e, ("engine: auto-liquidate: " +:+ e)%string) <$> e)
      end.

Definition checkAndHandleMarginCall (handler : option Handler) (mws : list (Middleware F)) (date : Time)
    a k : Account F * B * option error :=
  if MarginDeficiency a =? 0 then (a, k, None)
  else
    match handler with
    | None => autoLiquidate mws date a k
    | Some OnMarginCall =>
        match OnMarginCall a (set_SkipMiddleware true (NewBatch date)) with
        | Err e => (a, k, Some ("engine: margin call handler: " +:+ e)%string)
        | Ok b =>
            let '(a, k, _, e) := ExecuteBatch mws a k b in
            match e with
            | Some e => (a, k, Some ("engine: execute margin call batch: " +:+ e)%string)
            | None => if MarginDeficiency a =? 0 then (a, k, None) else autoLiquidate mws date a k
            end
        end
    end.

(** ** Margin configuration: the later source wins *)
Definition set_if_positive (x : F) (set : F → Account F → Account F) a : Account F :=
  if x >? 0 then set x a else a.

Definition applyMarginConfig (descMax descMaint : F) (model : option (RegT F)) (engMax engMaint : F) a :
    Account F :=
  let a := if (descMax >? 0) && negb (HasMaxLeverage a) then SetMaxLeverage descMax a else a in
  let a := if (descMaint >? 0) && negb (HasGrossMaintenanceLeverage a)
           then SetGrossMaintenanceLeverage descMaint a else a in
  let a := match model with
           | None => a
           | Some m =>
               let a := if Initial m >? 0 then SetMaxLeverage (1 / Initial m) a else a in
               if Maintenance m >? 0 then SetGrossMaintenanceLeverage (1 / Maintenance m) a else a
           end in
  let a := set_if_positive engMax SetMaxLeverage a in
  set_if_positive engMaint SetGrossMaintenanceLeverage a.

(** ** Reconciliation: at most sixteen passes *)
Definition maxReconcilePasses : nat := 16.

(** [prefetch] stands for [prefetchBrokerPrices], which can only fail. *)
Fixpoint reconcile_loop (passes : nat) (reconcile : Handler) (prefetch : list (Order F) → option error)
    (mws : list (Middleware F)) a k b : Account F * B * Batch F * option error :=
  match passes with
  | O => (a, k, b, Some "reconcile: batch did not settle after 16 passes"%string)
  | S passes =>
      match reconcile a b with
      | Err e => (a, k, b, Some ("reconcile: " +:+ e)%string)
      | Ok b' =>
          if (length (b_Orders b') =? length (b_Orders b))%nat then (a, k, b', None)
          else
            match prefetch (drop (length (b_Orders b)) (b_Orders b')) with
            | Some e => (a, k, b', Some ("reconcile prefetch broker prices: " +:+ e)%string)
            | None =>
                let '(a, k, b', e) := ExecuteBatch mws a k b' in
                match e with
                | Some e => (a, k, b', Some ("reconcile execute batch: " +:+ e)%string)
                | None => reconcile_loop passes reconcile prefetch mws a k b'
                end
            end
      end
  end.

Definition reconcileBatch (reconcile : option Handler) (prefetch : list (Order F) → option error)
    (mws : list (Middleware F)) a k b : Account F * B * Batch F * option error :=
  match reconcile with
  | None => (a, k, b, None)
  | Some r => reconcile_loop maxReconcilePasses r prefetch mws a k b
  end.
End MarginCall.
