(* ===== verification/Calendar.v ===== *)
(** * Calendar: months of the Gregorian calendar as ranges of day numbers

    Days are counted from 1970-01-01 and months from year 0.  Every day lies
    between the first day of its month and the first day of the next, and the
    civil date of a month's first day reads back. *)
From Stdlib Require Import ZArith Lia.
From stdpp Require Import base tactics numbers.
From S2P Require Import Prelude Num GoTime.
Local Open Scope Z_scope.

(** The number of the month a civil date lies in, and a month's first day. *)
Definition month_no (c : Civil) : Z := c_year c * 12 + (c_month c - 1).
Definition month_first (mi : Z) : Z := days_from_civil (mi / 12) (mi mod 12 + 1) 1.
Definition month_of (n : Z) : Z := month_no (civil_from_days n).

Section Months.
Local Ltac Zify.zify_post_hook ::= Z.to_euclidean_division_equations.

Lemma month_no_civil y m : 1 <= m <= 12 → (y * 12 + (m - 1)) / 12 = y ∧ (y * 12 + (m - 1)) mod 12 + 1 = m.
Proof. lia. Qed.

Lemma month_no_next mi : mi / 12 + (mi mod 12 + 1) / 12 = (mi + 1) / 12 ∧ (mi mod 12 + 1) mod 12 = (mi + 1) mod 12.
Proof. lia. Qed.

(** Days before March 1 of the year [yoe] of an era of 400 years, and before
    the month [mp] of a year that starts in March. *)
Definition year_start (yoe : Z) : Z := yoe * 365 + yoe / 4 - yoe / 100.
Definition month_start (mp : Z) : Z := (153 * mp + 2) / 5.

Lemma year_of_era_next (doe : Z) :
  0 <= doe < 146097 → year_of_era doe < 399 → doe < year_start (year_of_era doe + 1).
Proof.
  intros Hdoe. unfold year_of_era, year_start. cbn zeta.
  assert (Hb : doe / 36524 = 0 ∨ doe / 36524 = 1 ∨ doe / 36524 = 2 ∨
    doe / 36524 = 3 ∨ doe / 36524 = 4) by lia.
  assert (Hc : doe / 146096 = 0 ∨ doe / 146096 = 1) by lia.
  destruct Hb as [Hb|[Hb|[Hb|[Hb|Hb]]]], Hc as [Hc|Hc]; rewrite Hb, Hc;
    set (yoe := (doe - doe / 1460 + _ - _) / 365); intros Hy;
    assert ((yoe + 1) / 100 = 0 ∨ (yoe + 1) / 100 = 1 ∨ (yoe + 1) / 100 = 2 ∨ (yoe + 1) / 100 = 3) by lia;
    lia.
Qed.

Lemma month_first_mp y mp :
  0 <= mp < 12 →
  month_first (y * 12 + mp + 2) = y / 400 * 146097 + (year_start (y mod 400) + month_start mp) - 719468.
Proof.
  intros Hmp. unfold month_first, days_from_civil, year_start, month_start.
  destruct (Z.lt_ge_cases mp 10) as [Hlt|Hge].
  - replace ((y * 12 + mp + 2) / 12) with y by lia. replace ((y * 12 + mp + 2) mod 12 + 1) with (mp + 3) by lia.
    destruct (Z.leb_spec (mp + 3) 2); [lia|]. replace ((mp + 3 + 9) mod 12) with mp by lia. lia.
  - replace ((y * 12 + mp + 2) / 12) with (y + 1) by lia.
    replace ((y * 12 + mp + 2) mod 12 + 1) with (mp - 9) by lia.
    destruct (Z.leb_spec (mp - 9) 2); [|lia]. replace ((mp - 9 + 9) mod 12) with mp by lia.
    replace (y + 1 - 1) with y by lia. lia.
Qed.

Lemma month_split mi : ∃ y mp, 0 <= mp < 12 ∧ mi = y * 12 + mp + 2.
Proof. exists ((mi - 2) / 12), ((mi - 2) mod 12). lia. Qed.

(** What follows the month [mp] of the year [y]. *)
Lemma month_first_mp_next y mp :
  0 <= mp < 12 →
  month_first (y * 12 + mp + 2 + 1) =
  if mp =? 11 then
    if y mod 400 =? 399 then (y / 400 + 1) * 146097 - 719468
    else y / 400 * 146097 + year_start (y mod 400 + 1) - 719468
  else y / 400 * 146097 + (year_start (y mod 400) + month_start (mp + 1)) - 719468.
Proof.
  intros Hmp. destruct (Z.eqb_spec mp 11) as [->|Hne].
  - replace (y * 12 + 11 + 2 + 1) with ((y + 1) * 12 + 0 + 2) by lia. rewrite month_first_mp by lia.
    change (month_start 0) with 0. destruct (Z.eqb_spec (y mod 400) 399).
    + replace ((y + 1) mod 400) with 0 by lia. replace ((y + 1) / 400) with (y / 400 + 1) by lia.
      change (year_start 0) with 0. lia.
    + replace ((y + 1) mod 400) with (y mod 400 + 1) by lia. replace ((y + 1) / 400) with (y / 400) by lia. lia.
  - replace (y * 12 + mp + 2 + 1) with (y * 12 + (mp + 1) + 2) by lia. rewrite month_first_mp by lia. lia.
Qed.

Lemma month_first_next mi : month_first mi + 28 <= month_first (mi + 1).
Proof.
  destruct (month_split mi) as (y & mp & Hmp & ->). rewrite month_first_mp, month_first_mp_next by done.
  destruct (Z.eqb_spec mp 11) as [->|Hne]; [|unfold month_start; lia].
  change (month_start 11) with 337. pose proof (Z.mod_pos_bound y 400). set (yoe := y mod 400) in *. clearbody yoe.
  destruct (Z.eqb_spec yoe 399) as [->|]; [change (year_start 399) with 145731; lia|unfold year_start].
  assert ((yoe + 1) / 100 <= yoe / 100 + 1) by lia. assert (yoe / 4 <= (yoe + 1) / 4) by lia. lia.
Qed.

(** A day lies between the first day of its month and that of the next. *)
Lemma month_range n : month_first (month_of n) <= n < month_first (month_of n + 1).
Proof.
  unfold month_of, month_no, civil_from_days. cbn zeta. cbn [c_year c_month].
  set (z' := n + 719468). set (doe := z' mod 146097). assert (Hdoe : 0 <= doe < 146097) by (apply Z.mod_pos_bound; lia).
  pose proof (year_of_era_range doe Hdoe) as Hr. pose proof (year_of_era_next doe Hdoe) as Hnext. cbn zeta in Hr.
  set (yoe := year_of_era doe) in *. clearbody yoe.
  change (365 * yoe + yoe / 4 - yoe / 100) with (365 * yoe + yoe / 4 - yoe / 100) in *.
  set (doy := doe - (365 * yoe + yoe / 4 - yoe / 100)) in *.
  assert (Hz : n = z' / 146097 * 146097 + (year_start yoe + doy) - 719468) by (unfold year_start, doy, doe, z'; lia).
  assert (Hmp : 0 <= (5 * doy + 2) / 153 < 12) by lia. set (mp := (5 * doy + 2) / 153) in *.
  assert (Hd : month_start mp <= doy < month_start (mp + 1)) by (unfold month_start, mp; lia). clearbody mp.
  set (era := z' / 146097) in *. clearbody era.
  assert (Hmi : (yoe + era * 400 + (if (if mp <? 10 then mp + 3 else mp - 9) <=? 2 then 1 else 0)) * 12 +
    ((if mp <? 10 then mp + 3 else mp - 9) - 1) = (yoe + era * 400) * 12 + mp + 2).
  { destruct (Z.ltb_spec mp 10); [destruct (Z.leb_spec (mp + 3) 2)|destruct (Z.leb_spec (mp - 9) 2)]; lia. }
  rewrite Hmi, month_first_mp, month_first_mp_next by done.
  replace ((yoe + era * 400) / 400) with era by lia. replace ((yoe + era * 400) mod 400) with yoe by lia.
  assert (Hdy : doy = doe - year_start yoe) by (unfold year_start, doy; lia). clearbody doy.
  split; [lia|]. destruct (Z.eqb_spec mp 11) as [->|]; [|lia].
  destruct (Z.eqb_spec yoe 399) as [->|]; [|specialize (Hnext ltac:(lia)); lia].
  change (year_start 399) with 145731 in *. lia.
Qed.
End Months.

Lemma month_first_le mi mj : mi <= mj → month_first mi <= month_first mj.
Proof.
  intros Hle. replace mj with (mi + Z.of_nat (Z.to_nat (mj - mi))) by lia.
  induction (Z.to_nat (mj - mi)) as [|k IH]; [rewrite Z.add_0_r; lia|].
  pose proof (month_first_next (mi + Z.of_nat k)). replace (mi + Z.of_nat (S k)) with (mi + Z.of_nat k + 1) by lia. lia.
Qed.

Lemma month_of_unique n mi : month_first mi <= n < month_first (mi + 1) → month_of n = mi.
Proof.
  intros Hn. pose proof (month_range n) as Hr. destruct (Z.lt_trichotomy (month_of n) mi) as [Hlt|[He|Hlt]]; [|done|].
  - pose proof (month_first_le (month_of n + 1) mi ltac:(lia)). lia.
  - pose proof (month_first_le (mi + 1) (month_of n) ltac:(lia)). lia.
Qed.

Lemma month_of_mono n k : n <= k → month_of n <= month_of k.
Proof.
  intros Hle. destruct (Z.lt_ge_cases (month_of k) (month_of n)) as [Hlt|]; [|done].
  pose proof (month_range n). pose proof (month_range k). pose proof (month_first_le (month_of k + 1) (month_of n) ltac:(lia)). lia.
Qed.

Lemma month_of_first mi : month_of (month_first mi) = mi.
Proof. apply month_of_unique. pose proof (month_first_next mi). lia. Qed.

(** The civil date of a month's first day. *)
Lemma civil_of_first z y m :
  1 <= m <= 12 → days_from_civil y m 1 = z → month_of z = y * 12 + (m - 1) → civil_from_days z = mkCivil y m 1.
Proof.
  intros Hm Hz Hmi. destruct (days_civil_roundtrip z) as [Hrt Hm']. unfold month_of, month_no in Hmi.
  destruct (civil_from_days z) as [y' m' d]. cbn [c_year c_month c_day] in *.
  assert (y' = y) as -> by lia. assert (m' = m) as -> by lia. f_equal.
  pose proof (days_from_civil_day y m 1 (d - 1)) as Hd. replace (1 + (d - 1)) with d in Hd by lia. lia.
Qed.

Lemma civil_month_first mi : civil_from_days (month_first mi) = mkCivil (mi / 12) (mi mod 12 + 1) 1.
Proof.
  apply civil_of_first; [pose proof (Z.mod_pos_bound mi 12); lia|done|]. rewrite month_of_first.
  pose proof (Z.div_mod mi 12). lia.
Qed.
