(* ===== verification/Schedule.v ===== *)
(** * Schedule: the market calendar and trading schedules
    ([tradecron/helpers.go], [tradecron/market_status.go],
    [tradecron/tradecron.go])

    A schedule is a cron expression with market modifiers.  The cron library is
    the class [Cron]; the time zone of the exchange is the location
    "America/New_York" of the time zone database.  The holiday table that
    [SetMarketHolidays] installs is an argument; before it is installed the
    source panics.  The day loops take fuel and give [None] when it runs out.

    The last part holds the clock times of [DailyAtTime]. *)
From Stdlib Require Import ZArith Lia Ascii.
From stdpp Require Import base list gmap strings pretty.
From S2P Require Import Prelude Num GoTime Period SimBroker.
Local Open Scope Z_scope.

(** [github.com/robfig/cron/v3]: a parsed schedule and its next activation. *)
Class Cron : Type := {
  CronSchedule : Type;
  cron_parse : string → result CronSchedule;
  cron_Next : CronSchedule → Time → Time;
}.

Definition ErrConflictingModifiers : error := "malformed schedule; conflicting modifiers combined".
Definition ErrFieldOutOfBounds : error := "time field out of range".
Definition ErrMalformedTimeSpec : error := "time spec malformed".
Definition ErrUnknownModifier : error := "unknown modifier specified".

(** ** Strings of the Go library *)

(** [strings.Split(s, " ")] *)
Fixpoint Split (s : string) : list string :=
  match s with
  | EmptyString => [EmptyString]
  | String c rest =>
      match Split rest with
      | w :: ws => if Ascii.eqb c " " then EmptyString :: w :: ws else String c w :: ws
      | [] => []
      end
  end.

(** [strings.Join(ss, " ")] *)
Fixpoint Join (ss : list string) : string :=
  match ss with
  | [] => EmptyString
  | [s] => s
  | s :: rest => s +:+ " " +:+ Join rest
  end.

Definition is_space (c : ascii) : bool :=
  let n := Z.of_nat (nat_of_ascii c) in (n =? 32) || ((9 <=? n) && (n <=? 13)).
Fixpoint trim_left (s : string) : string :=
  match s with
  | String c rest => if is_space c then trim_left rest else s
  | EmptyString => EmptyString
  end.
Fixpoint trim_right (s : string) : string :=
  match s with
  | EmptyString => EmptyString
  | String c rest =>
      match trim_right rest with
      | EmptyString => if is_space c then EmptyString else String c EmptyString
      | r => String c r
      end
  end.
(** [strings.TrimSpace] of an ASCII string *)
Definition TrimSpace (s : string) : string := trim_right (trim_left s).

Fixpoint digits (acc : Z) (s : string) : option Z :=
  match s with
  | EmptyString => Some acc
  | String c rest =>
      let d := Z.of_nat (nat_of_ascii c) - 48 in
      if (0 <=? d) && (d <=? 9) then digits (acc * 10 + d) rest else None
  end.
Definition unsigned (s : string) : option Z := match s with EmptyString => None | _ => digits 0 s end.
(** [strconv.Atoi]: an optional sign, digits, and a value an int64 holds. *)
Definition Atoi (s : string) : option Z :=
  match match s with
        | String "+" rest => unsigned rest
        | String "-" rest => Z.opp <$> unsigned rest
        | _ => unsigned s
        end with
  | Some v => if (- 2 ^ 63 <=? v) && (v <? 2 ^ 63) then Some v else None
  | None => None
  end.

(** ** [helpers.go] *)
Definition is_special (token : string) : bool :=
  match token with String "@" _ => true | _ => false end.

Definition expandBriefFormat (spec : string) : string :=
  let tokens := Split spec in
  let expectedLength := (5 + length (keep is_special tokens))%nat in
  Join (tokens ++ replicate (expectedLength - length tokens) "*"%string).

Definition quarterStartMonth (mo : Z) : Z := (mo - 1) ÷ 3 * 3 + 1.
Definition quarterEndMonth (mo : Z) : Z := quarterStartMonth mo + 2.

Definition number_or_star (token : string) : result Z :=
  if bool_decide (token = "*"%string) then Ok 0
  else match Atoi token with Some v => Ok v | None => Err ErrMalformedTimeSpec end.

(** The clock time an offset in the tokens gives from [hours]:[minutes]; int64
    arithmetic, with the quotient and remainder of the language. *)
Definition time_relative_to (mins hrs hours minutes : Z) : result (Z * Z) :=
  let mins := wrap64 (mins + minutes) in
  let '(hrs, mins) :=
    if (59 <? mins) || (mins <? -59) then (wrap64 (hrs + mins ÷ 60), Z.rem mins 60) else (hrs, mins) in
  let hrs := wrap64 (hrs + hours) in
  let '(hrs, mins) := if mins <? 0 then (wrap64 (hrs - 1), 60 + mins) else (hrs, mins) in
  if hrs <? 0 then Err ErrFieldOutOfBounds
  else if 23 <? hrs then Err ErrFieldOutOfBounds
  else Ok (hrs, mins).

Definition parseTimeRelativeTo (tokens : list string) (hours minutes : Z) : result string :=
  match tokens with
  | t0 :: t1 :: t2 :: t3 :: t4 :: _ =>
      mins ← number_or_star t0;
      hrs ← number_or_star t1;
      '(hrs, mins) ← time_relative_to mins hrs hours minutes;
      Ok (pretty mins +:+ " " +:+ pretty hrs +:+ " " +:+ t2 +:+ " " +:+ t3 +:+ " " +:+ t4)
  | _ => Err ErrMalformedTimeSpec
  end.

(** ** Market hours and holidays ([market_status.go]) *)
Definition nyc : string := "America/New_York".

Record MarketHours : Type := mkHours { mh_Open : Z; mh_Close : Z }.
Definition RegularHours : MarketHours := mkHours 930 1600.
Definition ExtendedHours : MarketHours := mkHours 700 2000.
Definition AllHours : MarketHours := mkHours 0 2359.
Definition coversFullDay (mh : MarketHours) : bool := (mh_Open mh <=? 0) && (2359 <=? mh_Close mh).

Record MarketHoliday : Type := mkHoliday { hol_Date : Time; hol_EarlyClose : bool; hol_CloseTime : Z }.

(** Closing times by the Unix second of the day's midnight; 0 is a full
    holiday. *)
Definition Holidays : Type := gmap Z Z.

Section Market.
Context `{TZDB}.
Implicit Types (t : Time) (holidays : Holidays).

(** Midnight, in the exchange's zone, of the date [t] reads in its own. *)
Definition midnight t : Time := Date (Year t) (Month t) (Day t) 0 0 0 0 nyc.
(** A clock time of that date. *)
Definition clock_of t (h mi s ns : Z) (loc : string) : Time := Date (Year t) (Month t) (Day t) h mi s ns loc.

Definition SetMarketHolidays (items : list MarketHoliday) : Holidays :=
  fold_left (λ hs h, <[Unix (midnight (hol_Date h)) := if hol_EarlyClose h then hol_CloseTime h else 0]> hs)
    items ∅.

Definition EarlyClose holidays t : Z := lookup_d 0 holidays (Unix (midnight (InLoc t nyc))).

Definition IsMarketHoliday holidays t : bool :=
  match holidays !! Unix (midnight (InLoc t nyc)) with
  | Some close => close =? 0
  | None => false
  end.

Definition IsMarketDay holidays t : bool :=
  let t := InLoc t nyc in
  if (Weekday t =? 6) || (Weekday t =? 0) then false else negb (IsMarketHoliday holidays t).

Definition IsMarketOpen holidays (mh : MarketHours) t : bool :=
  let t := InLoc t nyc in
  if negb (IsMarketDay holidays t) then false
  else
    let closeTime :=
      if coversFullDay mh then mh_Close mh
      else if EarlyClose holidays t =? 0 then mh_Close mh else EarlyClose holidays t in
    let timeOfDay := Hour t * 100 + Minute t in
    negb ((timeOfDay <? mh_Open mh) || (closeTime <? timeOfDay)).

(** The loops over days: the first market day from [t], in steps of one day
    forward or backward. *)
Fixpoint market_day_from (fuel : nat) holidays (step : Z) t : option Time :=
  match fuel with
  | O => None
  | S fuel =>
      if IsMarketDay holidays t then Some t
      else market_day_from fuel holidays step (AddDate t 0 0 step)
  end.

Definition first_of_month t : Time := Date (Year t) (Month t) 1 0 0 0 0 nyc.

Definition NextFirstTradingDayOfMonth (fuel : nat) holidays t : option Time :=
  market_day_from fuel holidays 1 (AddDate (first_of_month t) 0 1 0).

Definition NextFirstTradingDayOfWeek (fuel : nat) holidays t : option Time :=
  let daysToWeekBegin := Z.rem (8 - Weekday t) 7 in
  midnight <$> market_day_from fuel holidays 1 (AddDate t 0 0 daysToWeekBegin).

(** [fuel] bounds the months tried, and the days tried in each. *)
Fixpoint last_trading_day_loop (fuel days : nat) holidays t : option Time :=
  match fuel with
  | O => None
  | S fuel =>
      let firstOfMonth := first_of_month t in
      match market_day_from days holidays (-1) (AddDate firstOfMonth 0 1 (-1)) with
      | None => None
      | Some lastOfMonth =>
          if Before lastOfMonth (midnight t) then last_trading_day_loop fuel days holidays (AddDate firstOfMonth 0 1 0)
          else Some lastOfMonth
      end
  end.
Definition NextLastTradingDayOfMonth (fuel : nat) holidays t : option Time :=
  last_trading_day_loop fuel fuel holidays t.

Definition NextLastTradingDayOfWeek (fuel : nat) holidays t : option Time :=
  midnight <$> market_day_from fuel holidays (-1) (AddDate t 0 0 (5 - Weekday t)).

(** [previousTradingDay] of [engine/stale_data.go] *)
Definition previousTradingDay (fuel : nat) holidays t : option Time :=
  market_day_from fuel holidays (-1) (AddDate t 0 0 (-1)).

Definition nextQuarterFirstMonth t : Time :=
  let start := quarterStartMonth (Month t) + 3 in
  if 12 <? start then Date (Year t + 1) (start - 12) 1 0 0 0 0 (t_loc t)
  else Date (Year t) start 1 0 0 0 0 (t_loc t).
End Market.

(** ** Schedules ([tradecron.go]) *)
Inductive TimeFlag : Type := NoTimeFlag | AtOpen | AtClose.
Inductive DateFlag : Type :=
  NoDateFlag | AtWeekBegin | AtWeekEnd | AtMonthBegin | AtMonthEnd | AtQuarterBegin | AtQuarterEnd.

Section TradeCron.
Context `{TZDB} `{Cron}.
Implicit Types (t : Time) (holidays : Holidays).

Record TradeCron : Type := mkTradeCron {
  tc_Schedule : CronSchedule;
  tc_ScheduleString : string;
  tc_TimeSpec : string;
  tc_TimeFlag : TimeFlag;
  tc_DateFlag : DateFlag;
  tc_hours : MarketHours;
}.

(** What the loop over the special tokens carries. *)
Record Modifiers : Type := mkModifiers { md_spec : string; md_time : TimeFlag; md_date : DateFlag }.

Definition set_time_flag (timeTokens : list string) (flag : TimeFlag) (hhmm : Z) (m : Modifiers) : result Modifiers :=
  match md_time m with
  | NoTimeFlag =>
      spec ← parseTimeRelativeTo timeTokens (hhmm ÷ 100) (Z.rem hhmm 100);
      Ok (mkModifiers spec flag (md_date m))
  | _ => Err ErrConflictingModifiers
  end.

Definition set_date_flag (flag : DateFlag) (m : Modifiers) : result Modifiers :=
  match md_date m with
  | NoDateFlag => Ok (mkModifiers (md_spec m) (md_time m) flag)
  | _ => Err ErrConflictingModifiers
  end.

Definition apply_token (timeTokens : list string) (hours : MarketHours) (m : Modifiers) (token : string) :
    result Modifiers :=
  if bool_decide (token = "@open"%string) then set_time_flag timeTokens AtOpen (mh_Open hours) m
  else if bool_decide (token = "@close"%string) then set_time_flag timeTokens AtClose (mh_Close hours) m
  else if bool_decide (token = "@weekbegin"%string) then set_date_flag AtWeekBegin m
  else if bool_decide (token = "@weekend"%string) then set_date_flag AtWeekEnd m
  else if bool_decide (token = "@monthbegin"%string) then set_date_flag AtMonthBegin m
  else if bool_decide (token = "@monthend"%string) then set_date_flag AtMonthEnd m
  else if bool_decide (token = "@quarterbegin"%string) then set_date_flag AtQuarterBegin m
  else if bool_decide (token = "@quarterend"%string) then set_date_flag AtQuarterEnd m
  else Err ErrUnknownModifier.

Definition apply_modifiers (timeTokens : list string) (hours : MarketHours) (tokens : list string) : result Modifiers :=
  fold_left (λ m token, m ≫= λ m, apply_token timeTokens hours m token) tokens
    (Ok (mkModifiers "" NoTimeFlag NoDateFlag)).

(** A date modifier alone fires at the close of an end day and at the open of
    a begin day. *)
Definition default_time (timeTokens : list string) (hours : MarketHours) (m : Modifiers) : result Modifiers :=
  match md_time m, md_date m with
  | NoTimeFlag, (AtMonthEnd | AtWeekEnd | AtQuarterEnd) => set_time_flag timeTokens AtClose (mh_Close hours) m
  | NoTimeFlag, (AtMonthBegin | AtWeekBegin | AtQuarterBegin) => set_time_flag timeTokens AtOpen (mh_Open hours) m
  | _, _ => Ok m
  end.

Definition New (cronSpec : string) (hours : MarketHours) : result TradeCron :=
  let trimmed := TrimSpace cronSpec in
  let scheduleStr := if bool_decide (trimmed = "@daily"%string) then "@open * * *"%string else trimmed in
  let tokens := Split (expandBriefFormat scheduleStr) in
  let timeTokens := keep (λ token, negb (is_special token)) tokens in
  m ← apply_modifiers timeTokens hours (keep is_special tokens);
  m ← default_time timeTokens hours m;
  let timeSpec := if bool_decide (md_spec m = ""%string) then Join timeTokens else md_spec m in
  schedule ← cron_parse timeSpec;
  Ok (mkTradeCron schedule cronSpec timeSpec (md_time m) (md_date m) hours).

Section Next.
Context (fuel : nat) (holidays : Holidays) (tc : TradeCron).

(** The day [day] at the clock time of the schedule's next activation. *)
Definition scheduled_on (day nextDate : Time) : Time :=
  clock_of day (Hour nextDate) (Minute nextDate) (Second nextDate) (Nanosecond nextDate) (t_loc nextDate).

(** The close of an early-close day. *)
Definition early_close_on (day : Time) : Time :=
  clock_of day (EarlyClose holidays day ÷ 100) (Z.rem (EarlyClose holidays day) 100) 0 0 nyc.

Definition at_close : bool := match tc_TimeFlag tc with AtClose => true | _ => false end.

(** When an end-of-period schedule fires on [day]. *)
Definition firing_on (day nextDate : Time) : Time :=
  if at_close && negb (EarlyClose holidays day =? 0) then early_close_on day else scheduled_on day nextDate.

(** The instant whose next first trading day of a month is that of the month
    [t] is in. *)
Definition before_month (y mo : Z) : Time := AddDate (Date y mo 1 23 59 59 999999999 nyc) 0 0 (-1).

Definition week_begin (forDate nextDate : Time) : option Time :=
  checkDate ← NextFirstTradingDayOfWeek fuel holidays forDate;
  if After nextDate (scheduled_on checkDate nextDate) then NextFirstTradingDayOfWeek fuel holidays nextDate
  else Some checkDate.

Definition week_end (forDate nextDate : Time) : option Time :=
  checkDate ← NextLastTradingDayOfWeek fuel holidays forDate;
  if negb (Before forDate (firing_on checkDate nextDate)) then
    let daysToMonday := Z.rem (8 - Weekday checkDate) 7 in
    let daysToMonday := if daysToMonday =? 0 then 7 else daysToMonday in
    NextLastTradingDayOfWeek fuel holidays (AddDate checkDate 0 0 daysToMonday)
  else Some checkDate.

Definition month_begin (forDate nextDate : Time) : option Time :=
  this ← NextFirstTradingDayOfMonth fuel holidays (before_month (Year forDate) (Month forDate));
  if After this (midnight forDate) || Equal this (midnight forDate) then
    if After nextDate (scheduled_on this nextDate) then NextFirstTradingDayOfMonth fuel holidays forDate
    else Some this
  else
    checkDate ← NextFirstTradingDayOfMonth fuel holidays forDate;
    if After nextDate (scheduled_on checkDate nextDate) then NextFirstTradingDayOfMonth fuel holidays nextDate
    else Some checkDate.

Definition month_end (forDate nextDate : Time) : option Time :=
  checkDate ← NextLastTradingDayOfMonth fuel holidays forDate;
  if negb (Before forDate (firing_on checkDate nextDate)) then
    NextLastTradingDayOfMonth fuel holidays (Date (Year checkDate) (Month checkDate + 1) 1 0 0 0 0 nyc)
  else Some checkDate.

(** The first trading day of the quarter whose first month starts at [q]. *)
Definition quarter_first (q : Time) : option Time :=
  NextFirstTradingDayOfMonth fuel holidays (before_month (Year q) (Month q)).

Definition quarter_begin (forDate nextDate : Time) : option Time :=
  this ← NextFirstTradingDayOfMonth fuel holidays
           (before_month (Year forDate) (quarterStartMonth (Month forDate)));
  if After this (midnight forDate) || Equal this (midnight forDate) then
    if After nextDate (scheduled_on this nextDate) then quarter_first (nextQuarterFirstMonth forDate)
    else Some this
  else
    checkDate ← quarter_first (nextQuarterFirstMonth forDate);
    if After nextDate (scheduled_on checkDate nextDate) then quarter_first (nextQuarterFirstMonth nextDate)
    else Some checkDate.

Definition quarter_end (forDate nextDate : Time) : option Time :=
  checkDate ← NextLastTradingDayOfMonth fuel holidays
                (Date (Year forDate) (quarterEndMonth (Month forDate)) 1 0 0 0 0 nyc);
  if negb (Before forDate (firing_on checkDate nextDate)) then
    let nextQ := nextQuarterFirstMonth forDate in
    NextLastTradingDayOfMonth fuel holidays (Date (Year nextQ) (quarterEndMonth (Month nextQ)) 1 0 0 0 0 nyc)
  else Some checkDate.

(** The date the search for an open market starts from. *)
Definition search_start (forDate : Time) : option Time :=
  let nextDate := cron_Next (tc_Schedule tc) forDate in
  let at_or_after (checkDate : Time) := if Before checkDate forDate then forDate else checkDate in
  at_or_after <$>
    match tc_DateFlag tc with
    | AtWeekBegin => week_begin forDate nextDate
    | AtWeekEnd => week_end forDate nextDate
    | AtMonthBegin => month_begin forDate nextDate
    | AtMonthEnd => month_end forDate nextDate
    | AtQuarterBegin => quarter_begin forDate nextDate
    | AtQuarterEnd => quarter_end forDate nextDate
    | NoDateFlag => Some forDate
    end.

(** What the loop makes of one activation: the activation itself when the
    market is open, the actual close when it is cut short and ahead. *)
Definition settle (forDate activation : Time) : option Time :=
  if IsMarketOpen holidays (tc_hours tc) activation then Some activation
  else if at_close && IsMarketDay holidays activation && negb (EarlyClose holidays activation =? 0) then
    let snapped := early_close_on activation in
    if After snapped forDate then Some snapped else None
  else None.

(** [None]: the iteration limit, at which the source panics. *)
Fixpoint open_loop (iters : nat) (forDate checkDate : Time) : option Time :=
  match iters with
  | O => None
  | S iters =>
      let activation := cron_Next (tc_Schedule tc) checkDate in
      match settle forDate activation with
      | Some r => Some r
      | None => open_loop iters forDate activation
      end
  end.

(** The loop panics in its iteration number 5001, counting from 0. *)
Definition max_iterations : nat := Z.to_nat 5001.

Definition Next (forDate : Time) : option Time :=
  let forDate := InLoc forDate nyc in
  checkDate ← search_start forDate;
  open_loop max_iterations forDate checkDate.

Definition IsTradeDay (forDate : Time) : option bool :=
  let startOfDay := midnight (InLoc forDate nyc) in
  let previousDay := clock_of (AddDate startOfDay 0 0 (-1)) 23 59 59 999999999 nyc in
  (λ next, Equal (midnight next) startOfDay) <$> Next previousDay.
End Next.
End TradeCron.

(** * Times of day as text ([data/period.go])

    [DailyAtTime] takes a comma-separated list of "HH:MM"; what it accepts is in
    range, and the text of any minute of the day reads back. *)
Local Open Scope Z_scope.

(** [strings.Split(s, sep)] for a separator of one character. *)
Fixpoint split_at (sep : ascii) (s : string) : list string :=
  match s with
  | EmptyString => [""%string]
  | String c rest =>
      if Ascii.eqb c sep then ""%string :: split_at sep rest
      else match split_at sep rest with [] => [String c ""] | part :: parts => String c part :: parts end
  end.
(** [strings.Cut(s, sep)]: before and after the first separator. *)
Fixpoint Cut (sep : ascii) (s : string) : option (string * string) :=
  match s with
  | EmptyString => None
  | String c rest =>
      if Ascii.eqb c sep then Some (""%string, rest)
      else (λ ab, (String c ab.1, ab.2)) <$> Cut sep rest
  end.

Definition parse_part (part : string) : result TimeOfDay :=
  let trimmed := TrimSpace part in
  let failed (what : string) := Err ("time-of-day " +:+ trimmed +:+ ": " +:+ what)%string in
  match Cut ":"%char trimmed with
  | None => failed "expected HH:MM"%string
  | Some (hh, mm) =>
      match Atoi hh with
      | None => failed "hour"%string
      | Some hour =>
          match Atoi mm with
          | None => failed "minute"%string
          | Some minute =>
              if (hour <? 0) || (23 <? hour) then failed "hour out of range [0,23]"%string
              else if (minute <? 0) || (59 <? minute) then failed "minute out of range [0,59]"%string
              else Ok (mkTimeOfDay hour minute)
          end
      end
  end.
Fixpoint parse_parts (parts : list string) : result (list TimeOfDay) :=
  match parts with
  | [] => Ok []
  | part :: parts => t ← parse_part part; out ← parse_parts parts; Ok (t :: out)
  end.
Definition parseTimesOfDay (spec : string) : result (list TimeOfDay) := parse_parts (split_at ","%char spec).
(** It panics on an error. *)
Definition DailyAtTime (timeOfDay : string) (count : Z) : result Period :=
  match parseTimesOfDay timeOfDay with
  | Err e => Err ("data.DailyAtTime: " +:+ e)%string
  | Ok times => Ok (mkPeriod count UnitDailyAtTime times)
  end.

(** ** What it accepts *)
Definition clock_time (t : TimeOfDay) : Prop := 0 <= tod_Hour t <= 23 ∧ 0 <= tod_Minute t <= 59.
Lemma parse_part_in_range part t : parse_part part = Ok t → clock_time t.
Proof.
  unfold parse_part. destruct (Cut _ _) as [[hh mm]|]; [|done]. destruct (Atoi hh) as [h|]; [|done]. destruct (Atoi mm) as [m|]; [|done].
  destruct (Z.ltb_spec h 0); [done|]. destruct (Z.ltb_spec 23 h); [done|]. cbn [orb].
  destruct (Z.ltb_spec m 0); [done|]. destruct (Z.ltb_spec 59 m); [done|]. intros [= <-]. split; cbn; lia.
Qed.
Lemma parse_parts_in_range parts out : parse_parts parts = Ok out → Forall clock_time out ∧ length out = length parts.
Proof.
  revert out. induction parts as [|part parts IH]; intros out; cbn [parse_parts]; [by intros [= <-]|].
  intros (t & Ht & Hrest)%result_bind_Ok. apply result_bind_Ok in Hrest as (rest & Hr & [= <-]).
  apply IH in Hr as [Hf Hl]. split; [constructor; [by eapply parse_part_in_range|done]|cbn; by rewrite Hl].
Qed.
Lemma parseTimesOfDay_in_range spec out :
  parseTimesOfDay spec = Ok out → Forall clock_time out ∧ length out = length (split_at ","%char spec) ∧
    Forall (λ t, 0 <= MinutesSinceMidnight t < 1440) out.
Proof.
  intros Hp. apply parse_parts_in_range in Hp as [Hf Hl]. split; [done|]. split; [done|].
  eapply Forall_impl; [exact Hf|]. unfold clock_time, MinutesSinceMidnight. intros t. lia.
Qed.

(** Every minute of the day reads back from its text. *)
Definition clock_text (t : TimeOfDay) : string := (pad0 2 (tod_Hour t) +:+ ":" +:+ pad0 2 (tod_Minute t))%string.
Definition reads_back (n : nat) : bool :=
  let t := mkTimeOfDay (Z.of_nat n / 60) (Z.of_nat n mod 60) in
  match parseTimesOfDay (clock_text t) with
  | Ok [t'] => (tod_Hour t' =? tod_Hour t) && (tod_Minute t' =? tod_Minute t)
  | _ => false
  end.
Lemma all_read_back : forallb reads_back (seq 0 1440) = true.
Proof. vm_compute. reflexivity. Qed.
Lemma clock_text_round_trip t : clock_time t → parseTimesOfDay (clock_text t) = Ok [t].
Proof.
  destruct t as [h m]. intros [Hh Hm]. cbn in Hh, Hm. pose proof all_read_back as Hall. rewrite forallb_forall in Hall.
  specialize (Hall (Z.to_nat (h * 60 + m))). unfold reads_back in Hall.
  rewrite Z2Nat.id in Hall by lia.
  replace ((h * 60 + m) / 60) with h in Hall by (apply Z.div_unique with m; lia).
  replace ((h * 60 + m) mod 60) with m in Hall by (apply Z.mod_unique with h; lia).
  assert (Hin : In (Z.to_nat (h * 60 + m)) (seq 0 1440)) by (apply in_seq; lia). specialize (Hall Hin).
  destruct (parseTimesOfDay _) as [[|[h' m'] [|? ?]]|]; try done. cbn in Hall.
  apply andb_true_iff in Hall as [->%Z.eqb_eq ->%Z.eqb_eq]. done.
Qed.
