(* ===== verification/Provider.v ===== *)
(** * Provider: the interface of data providers ([data/data_provider.go],
    [data/data_request.go]) and the providers over a frame and over the
    database ([data/test_provider.go], [data/pvdata_provider.go])

    A Go interface value is a record of the methods the engine calls; the
    optional interfaces a provider is asserted against are optional fields.
    [PVDataProvider] reads its rows from the class [PVDatabase], one method per
    query of the source. *)
From Stdlib Require Import ZArith.
From stdpp Require Import base list gmap strings.
From S2P Require Import Prelude Num GoTime Asset Period Frame Metrics FrameOps Schedule.
Local Open Scope Z_scope.

Record DataRequest : Type := mkRequest {
  rq_Assets : list Asset;
  rq_Metrics : list Metric;
  rq_Start : Time;
  rq_End : Time;
  rq_Frequency : Frequency;
}.

Record DataProvider (F : Type) : Type := mkProvider {
  (* DataProvider *)
  Provides : list Metric;
  (* BatchProvider *)
  dp_Fetch : option (DataRequest → result (DataFrame F));
  (* IntradayProvider *)
  dp_IntradayFetch : option (list Asset → list Metric → Time → Time → list TimeOfDay → result (DataFrame F));
  (* FundamentalsByDateKeyProvider: assets, metrics, date key, dimension, last event date *)
  dp_FetchFundamentals : option (list Asset → list Metric → Time → string → Time → result (DataFrame F));
}.
Arguments mkProvider {F}.
Arguments Provides {F}.
Arguments dp_Fetch {F}.
Arguments dp_IntradayFetch {F}.
Arguments dp_FetchFundamentals {F}.

(** ** [TestProvider] *)
Section TestProvider.
Context {F : Type} `{Num F} `{TZDB}.

Definition TestProvider_Fetch (frame : DataFrame F) (req : DataRequest) : result (DataFrame F) :=
  Ok (Between (Metrics (Assets frame (rq_Assets req)) (rq_Metrics req)) (rq_Start req) (rq_End req)).

Definition NewTestProvider (metrics : list Metric) (frame : DataFrame F) : DataProvider F :=
  mkProvider metrics (Some (TestProvider_Fetch frame)) None None.
End TestProvider.

(** ** [PVDataProvider] *)

(** One scanned row: the asset, the event date, and a value per requested
    column, [None] for SQL's NULL.  A column of the metrics view is an integer
    or a float. *)
Record Row (V : Type) : Type := mkRow { r_figi : string; r_date : Time; r_vals : list (option V) }.
Arguments mkRow {V}.
Arguments r_figi {V}.
Arguments r_date {V}.
Arguments r_vals {V}.

(** The date columns of a fundamentals row. *)
Record FundRow (F : Type) : Type := mkFundRow {
  fr_row : Row F;
  fr_dateKey : option Time;
  fr_reportPeriod : option Time;
}.
Arguments mkFundRow {F}.
Arguments fr_row {F}.
Arguments fr_dateKey {F}.
Arguments fr_reportPeriod {F}.

(** [fmt.Errorf("...: %w", err)] *)
Definition wrapped {A} (prefix : string) (r : result A) : result A :=
  match r with Ok a => Ok a | Err e => Err (prefix +:+ ": " +:+ e)%string end.

(** The queries: which figis or series, from which instant to which. *)
Class PVDatabase (F : Type) : Type := {
  acquire : option error;
  query_eod : list string → Time → Time → result (list (Row F));
  query_metrics : list string → list string → Time → Time → result (list (Row (Z + F)));
  query_fundamentals : list string → list string → Time → Time → string → result (list (FundRow F));
  query_economic : list string → Time → Time → result (list (string * Time * F));
  query_fundamentals_by_key :
    list string → list string → Time → string → Time → result (list (FundRow F));
}.

Section PVData.
Context {F : Type} `{Num F} {tz : TZDB} {go : GoMapOrder} {srt : GoSort} `{!PVDatabase F}.

(** [eodTimestamp]: 16:00 in New York on the date of a database date. *)
Definition eodTimestamp (timestamp : Time) : Time :=
  Date (Year timestamp) (Month timestamp) (Day timestamp) 16 0 0 0 nyc.

(** The values by column and second, and the seconds seen. *)
Definition ColData : Type := gmap (string * Metric) (gmap Z F).
Record Accum : Type := mkAccum { ac_col : ColData; ac_times : gmap Z Time }.

(** [ensureCol(figi, metric)[sec] = v] *)
Definition put_cell (figi : string) (sec : Z) (acc : Accum) (mv : Metric * F) : Accum :=
  mkAccum (<[(figi, mv.1) := <[sec := mv.2]> (lookup_d ∅ (ac_col acc) (figi, mv.1))]> (ac_col acc)) (ac_times acc).
Definition note_time (t : Time) (acc : Accum) : Accum :=
  mkAccum (ac_col acc) (<[Unix t := t]> (ac_times acc)).

(** A scanned row enters the accumulator: the values that are not NULL. *)
Definition add_row (metrics : list Metric) (acc : Accum) (r : Row F) : Accum :=
  let t := eodTimestamp (r_date r) in
  fold_left (put_cell (r_figi r) (Unix t))
    (omap (λ mv : Metric * option F, pair mv.1 <$> mv.2) (zip metrics (r_vals r))) (note_time t acc).

Definition metricSet (ms : list Metric) : gmap Metric bool := fold_left (λ s m, <[m := true]> s) ms ∅.

(** The columns of [fetchEod], in the order of its SELECT. *)
Definition eod_columns : list Metric :=
  [Catalog.MetricOpen; MetricHigh; MetricLow; MetricClose; AdjClose; Volume; Dividend; SplitFactor].

(** Values of columns that are not wanted are dropped. *)
Definition wanted_row (metrics : list Metric) (want : list Metric) (r : Row F) : Row F :=
  mkRow (r_figi r) (r_date r)
    (zip_with (λ m v, if lookup_d false (metricSet want) m then v else None) metrics (r_vals r)).

Definition fetchEod (figis : list string) (start end_ : Time) (metrics : list Metric) (acc : Accum) : result Accum :=
  rows ← wrapped "pvdata: query eod" (query_eod figis start end_);
  Ok (fold_left (add_row eod_columns) (wanted_row eod_columns metrics <$> rows) acc).

(** The SQL columns of the metrics view, or the metric that has none. *)
Fixpoint bind_columns (metrics : list Metric) : result (list (string * bool)) :=
  match metrics with
  | [] => Ok []
  | m :: rest =>
      match metricsColumn !! m with
      | None => Err ("pvdata: no SQL column for metrics-view metric " +:+ m)%string
      | Some col => cons col <$> bind_columns rest
      end
  end.

(** [rows.Scan]: an integer column is scanned as an integer and converted. *)
Fixpoint scan_vals (cols : list (string * bool)) (vals : list (option (Z + F))) : option (list (option F)) :=
  match cols, vals with
  | [], [] => Some []
  | (_, intCol) :: cols, v :: vals =>
      match v, intCol with
      | None, _ => cons None <$> scan_vals cols vals
      | Some (inl z), true => cons (Some (of_Z z)) <$> scan_vals cols vals
      | Some (inr x), false => cons (Some x) <$> scan_vals cols vals
      | _, _ => None
      end
  | _, _ => None
  end.

Fixpoint add_metric_rows (cols : list (string * bool)) (metrics : list Metric) (rows : list (Row (Z + F)))
    (acc : Accum) : result Accum :=
  match rows with
  | [] => Ok acc
  | r :: rest =>
      match scan_vals cols (r_vals r) with
      | None => Err "pvdata: scan metrics row"%string
      | Some vals => add_metric_rows cols metrics rest (add_row metrics acc (mkRow (r_figi r) (r_date r) vals))
      end
  end.

Definition fetchMetrics (figis : list string) (start end_ : Time) (metrics : list Metric) (acc : Accum) :
    result Accum :=
  match metrics with
  | [] => Ok acc
  | _ =>
      cols ← bind_columns metrics;
      rows ← wrapped "pvdata: query metrics" (query_metrics cols.*1 figis start end_);
      add_metric_rows cols metrics rows acc
  end.

(** *** Fundamentals *)
Definition is_metadata (m : Metric) : bool :=
  bool_decide (m = Catalog.FundamentalsDateKey) || bool_decide (m = Catalog.FundamentalsReportPeriod).

(** The SQL columns and the metrics they fill, in the request's order. *)
Definition fundamental_columns (metrics : list Metric) : list (Metric * string) :=
  omap (λ m, if is_metadata m then None else pair m <$> metricColumn !! m) metrics.

Definition date_cell (want : bool) (m : Metric) (d : option Time) : list (Metric * F) :=
  if want then match d with Some t => [(m, of_Z (Unix t))] | None => [] end else [].

Definition add_fund_row (metricOrder : list Metric) (wantDateKey wantReportPeriod : bool)
    (acc : Accum) (r : FundRow F) : Accum :=
  let sec := Unix (eodTimestamp (r_date (fr_row r))) in
  fold_left (put_cell (r_figi (fr_row r)) sec)
    (date_cell wantDateKey Catalog.FundamentalsDateKey (fr_dateKey r) ++
     date_cell wantReportPeriod Catalog.FundamentalsReportPeriod (fr_reportPeriod r))
    (add_row metricOrder acc (fr_row r)).

(** The columns every fundamentals query selects first. *)
Definition key_prefix : list string := ["composite_figi"; "event_date"; "date_key"; "report_period"]%string.

Definition fetchFundamentals (dimension : string) (figis : list string) (start end_ : Time)
    (metrics : list Metric) (acc : Accum) : result Accum :=
  let cols := fundamental_columns metrics in
  let wantDateKey := bool_decide (Catalog.FundamentalsDateKey ∈ metrics) in
  let wantReportPeriod := bool_decide (Catalog.FundamentalsReportPeriod ∈ metrics) in
  if (length cols =? 0)%nat && negb wantDateKey && negb wantReportPeriod then Ok acc
  else
    rows ← wrapped "pvdata: query fundamentals"
             (query_fundamentals (key_prefix ++ cols.*2) figis start end_ dimension);
    Ok (fold_left (add_fund_row cols.*1 wantDateKey wantReportPeriod) rows acc).

(** *** Economic indicators *)
Definition add_indicator (figiBySeries : gmap string string) (acc : Accum) (r : string * Time * F) : Accum :=
  let '(seriesName, eventDate, value) := r in
  match figiBySeries !! seriesName with
  | None => acc
  | Some figi =>
      let t := eodTimestamp eventDate in
      put_cell figi (Unix t) (note_time t acc) (MetricClose, value)
  end.

Definition fetchEconomicIndicators (fredAssets : list Asset) (start end_ : Time) (acc : Accum) : result Accum :=
  let series := (λ a, FREDSeries (Ticker a)) <$> fredAssets in
  let figiBySeries := fold_left (λ m a, <[FREDSeries (Ticker a) := CompositeFigi a]> m) fredAssets ∅ in
  rows ← wrapped "pvdata: query economic_indicators" (query_economic series start end_);
  Ok (fold_left (add_indicator figiBySeries) rows acc).

(** *** [Fetch] *)
Definition view_metrics (view : string) (metrics : list Metric) : list Metric :=
  keep (λ m, bool_decide (metricView !! m = Some view)) metrics.

Definition is_fred (a : Asset) : bool := bool_decide (AssetType a = AssetTypeFRED).

(** [if metrics, ok := viewMetrics[view]; ok { fetch }] *)
Definition when_requested (view : string) (metrics : list Metric)
    (fetch : list Metric → Accum → result Accum) (acc : Accum) : result Accum :=
  match view_metrics view metrics with
  | [] => Ok acc
  | ms => fetch ms acc
  end.

Definition collect (dimension : string) (req : DataRequest) : result Accum :=
  let figis := CompositeFigi <$> keep (λ a, negb (is_fred a)) (rq_Assets req) in
  let fredAssets := keep is_fred (rq_Assets req) in
  let acc := mkAccum ∅ ∅ in
  acc ← (match figis with
         | [] => Ok acc
         | _ =>
             acc ← when_requested "eod" (rq_Metrics req) (fetchEod figis (rq_Start req) (rq_End req)) acc;
             acc ← when_requested "metrics" (rq_Metrics req) (fetchMetrics figis (rq_Start req) (rq_End req)) acc;
             when_requested "fundamentals" (rq_Metrics req)
               (fetchFundamentals dimension figis (rq_Start req) (rq_End req)) acc
         end);
  match fredAssets with
  | [] => Ok acc
  | _ => if bool_decide (MetricClose ∈ view_metrics "eod" (rq_Metrics req))
         then fetchEconomicIndicators fredAssets (rq_Start req) (rq_End req) acc else Ok acc
  end.

(** Later duplicates win, as in a map filled in a loop. *)
Definition index_of {A} `{Countable A} (l : list A) : gmap A nat :=
  fold_left (λ idx ix, <[ix.2 := ix.1]> idx) (zip (seq 0 (length l)) l) ∅.

(** One column of the accumulator is written into the slab, which is kept as
    the list of its columns. *)
Definition write_column (timeIdx : gmap Z nat) (aIdx mIdx : gmap string nat) (numMetrics : nat)
    (cols : list (list F)) (kv : (string * Metric) * gmap Z F) : list (list F) :=
  let '((figi, m), vals) := kv in
  match aIdx !! figi, mIdx !! m with
  | Some ai, Some mi =>
      alter (λ col, fold_left (λ col sv, <[lookup_d 0%nat timeIdx sv.1 := sv.2]> col) (range vals) col)
        (ai * numMetrics + mi)%nat cols
  | _, _ => cols
  end.

Definition assemble_columns (req : DataRequest) (times : list Time) (colData : ColData) : list (list F) :=
  let timeIdx := index_of (Unix <$> times) in
  let numMetrics := length (rq_Metrics req) in
  fold_left
    (write_column timeIdx (index_of (CompositeFigi <$> rq_Assets req)) (index_of (rq_Metrics req)) numMetrics)
    (range colData)
    (replicate (length (rq_Assets req) * numMetrics) (replicate (length times) fnan)).

Definition PVDataProvider_Fetch (dimension : string) (req : DataRequest) : result (DataFrame F) :=
  match acquire with
  | Some e => Err ("pvdata: acquire connection: " +:+ e)%string
  | None =>
      acc ← collect dimension req;
      let times := sort_slice Before (range (ac_times acc)).*2 in
      match times with
      | [] => NewDataFrame [] [] [] (rq_Frequency req) []
      | _ => NewDataFrame times (rq_Assets req) (rq_Metrics req) (rq_Frequency req)
               (assemble_columns req times (ac_col acc))
      end
  end.

(** *** [FetchFundamentalsByDateKey] *)

(** The SQL columns, or the metric that has none. *)
Fixpoint key_columns (metrics : list Metric) : result (list (Metric * string)) :=
  match metrics with
  | [] => Ok []
  | m :: rest =>
      if is_metadata m then key_columns rest
      else match metricColumn !! m with
           | None => Err ("pvdata: no SQL column for fundamental metric " +:+ m)%string
           | Some col => cons (m, col) <$> key_columns rest
           end
  end.

Definition key_row (metricOrder : list Metric) (wantDateKey wantReportPeriod : bool)
    (perFigi : gmap string (gmap Metric F)) (r : FundRow F) : gmap string (gmap Metric F) :=
  let figi := r_figi (fr_row r) in
  let cells := omap (λ mv : Metric * option F, pair mv.1 <$> mv.2) (zip metricOrder (r_vals (fr_row r))) ++
               date_cell wantDateKey Catalog.FundamentalsDateKey (fr_dateKey r) ++
               date_cell wantReportPeriod Catalog.FundamentalsReportPeriod (fr_reportPeriod r) in
  <[figi := fold_left (λ bucket mv, <[mv.1 := mv.2]> bucket) cells (lookup_d ∅ perFigi figi)]> perFigi.

Definition PVDataProvider_FetchFundamentals (assets : list Asset) (metrics : list Metric) (dateKey_ : Time)
    (dimension : string) (maxEventDate : Time) : result (DataFrame F) :=
  let figis := CompositeFigi <$> assets in
  cols ← key_columns metrics;
  match acquire with
  | Some e => Err ("pvdata: acquire conn for FetchFundamentalsByDateKey: " +:+ e)%string
  | None =>
      rows ← wrapped "pvdata: query fundamentals by date_key"
               (query_fundamentals_by_key (key_prefix ++ cols.*2) figis dateKey_ dimension maxEventDate);
      let perFigi := fold_left (key_row cols.*1 (bool_decide (Catalog.FundamentalsDateKey ∈ metrics))
                                  (bool_decide (Catalog.FundamentalsReportPeriod ∈ metrics))) rows ∅ in
      NewDataFrame [dateKey_] assets metrics Daily
        (a ← assets; m ← metrics; [[lookup_d fnan (lookup_d ∅ perFigi (CompositeFigi a)) m]])
  end.
End PVData.
