(* ===== verification/Resampling.v ===== *)
(** * Resampling: synthetic price histories ([data/resampler.go],
    [data/resampling_provider.go])

    A resampler draws days of a return history; the provider turns its closes
    into returns, has them resampled, and rebuilds prices from them.  The
    generator of [math/rand/v2] is the class [GoRand], a state with its draws;
    [GoRandLaws] is what its documentation promises of them.

    The second half proves that resamplers draw days of the history and that
    synthetic prices rebuild it. *)
From Stdlib Require Import ZArith Lia Qcanon Field.
From stdpp Require Import base list gmap strings.
From S2P Require Import Prelude Num GoTime Asset Period Frame Metrics FrameOps Samples FrameProps Provider.
(** [rand.New(rand.NewPCG(seed, seed ^ 0xdeadbeef))], [IntN] and [Perm]. *)
Class GoRand (R : Type) : Type := {
  rng_seed : Z → Z → R;
  IntN : nat → R → nat * R;
  Perm : nat → R → list nat * R;
}.
Class GoRandLaws (R : Type) `{GoRand R} : Prop := {
  IntN_lt : ∀ n (r : R), (0 < n)%nat → ((IntN n r).1 < n)%nat;
  Perm_permutes : ∀ n (r : R), (Perm n r).1 ≡ₚ seq 0 n;
}.

Section Resampling.
Context {F : Type} `{Num F} `{TZDB} {R : Type} `{GoRand R}.
Local Open Scope num_scope.
Implicit Types (returns : list (list F)) (rng : R) (prices : list F).

(** A [Resampler]: the returns, a row per asset, the length and the generator. *)
Definition Resampler : Type := list (list F) → nat → R → list (list F).

Definition hist_len returns : nat := match returns with [] => 0 | row :: _ => length row end.
(** [len(returns) == 0 || len(returns[0]) == 0] returns the input. *)
Definition with_history returns (k : nat → list (list F)) : list (list F) :=
  match hist_len returns with O => returns | n => k n end.

(** Blocks are appended to the rows until the length is reached; each appends
    at least one day. *)
Fixpoint fill_blocks (fuel blockSize histLen targetLen filled : nat) returns rng (rows : list (list F)) : list (list F) :=
  match fuel with
  | O => rows
  | S fuel =>
      if (filled <? targetLen)%nat then
        let '(startIdx, rng) := IntN histLen rng in
        let blockEnd := Nat.min (startIdx + blockSize)%nat histLen in
        let copyLen := (blockEnd - startIdx)%nat in
        let copyLen := if (targetLen <? filled + copyLen)%nat then (targetLen - filled)%nat else copyLen in
        fill_blocks fuel blockSize histLen targetLen (filled + copyLen)%nat returns rng
          (zip_with (λ row source, row ++ slice startIdx (startIdx + copyLen)%nat source) rows returns)
      else rows
  end.
Definition BlockBootstrap (BlockSize : Z) : Resampler := λ returns targetLen rng,
  with_history returns (λ histLen,
    let blockSize := if (BlockSize <=? 0)%Z then 20%nat else Z.to_nat BlockSize in
    fill_blocks targetLen blockSize histLen targetLen 0 returns rng (replicate (length returns) [])).

(** The indices of [targetLen] independent draws. *)
Fixpoint drawn_indices (targetLen histLen : nat) rng : list nat :=
  match targetLen with
  | O => []
  | S n => let '(i, rng) := IntN histLen rng in i :: drawn_indices n histLen rng
  end.
(** The rows at the indices: every asset gets the same days. *)
Definition days_at returns (indices : list nat) : list (list F) :=
  (λ row, (λ i, default 0 (row !! i)) <$> indices) <$> returns.
Definition ReturnBootstrap : Resampler := λ returns targetLen rng,
  with_history returns (λ histLen, days_at returns (drawn_indices targetLen histLen rng)).

Definition Permutation_ : Resampler := λ returns targetLen rng,
  with_history returns (λ histLen, days_at returns (take targetLen (Perm histLen rng).1)).

(** ** The provider *)
Record ResamplingProvider : Type := mkResampling {
  historicalData : DataFrame F;
  resampler : Resampler;
  seed : Z;
  rp_metrics : list Metric;
}.

Fixpoint daily_returns prices : list F :=
  match prices with
  | prev :: (curr :: _) as rest => (if prev =? 0 then 0 else (curr - prev) / prev) :: daily_returns rest
  | _ => []
  end.
(** The prices after [price]; [count] of them, as many as the history has days. *)
Fixpoint synthetic_from (price : F) (resampled : list F) : list F :=
  match resampled with
  | [] => []
  | r :: rest => let price := price * (1 + r) in price :: synthetic_from price rest
  end.
Definition synthetic_prices (firstPrice : F) (count : nat) (resampled : list F) : list F :=
  firstPrice :: synthetic_from firstPrice (take count resampled).

Definition metric_series (metric : Metric) prices : list F :=
  if decide (metric = MetricHigh) then (λ p, p * lit 1005 1000) <$> prices
  else if decide (metric = MetricLow) then (λ p, p * lit 995 1000) <$> prices
  else if decide (metric = Dividend) then replicate (length prices) 0
  else if decide (metric = SplitFactor) then replicate (length prices) 1
  else prices.

Definition xor64 (x y : Z) : Z := Z.lxor x y.
Definition provider_frame (what : string) (req : DataRequest) (narrow : DataFrame F) (cols : list (list F)) : result (DataFrame F) :=
  match NewDataFrame (df_times narrow) (df_assets narrow) (rq_Metrics req) (rq_Frequency req) cols with
  | Ok df => Ok df
  | Err e => Err ("ResamplingProvider: building " +:+ what +:+ ": " +:+ e)%string
  end.

(** The synthetic price series, one per asset of the narrowed history. *)
Definition synthetic_series (rp : ResamplingProvider) (narrow : DataFrame F) : list (list F) :=
  let closes := (λ a, Column narrow a MetricClose) <$> df_assets narrow in
  let returnLen := (length (df_times narrow) - 1)%nat in
  let rng := rng_seed (seed rp) (xor64 (seed rp) 3735928559) in
  let resampled := resampler rp (daily_returns <$> closes) returnLen rng in
  zip_with (λ col rets, synthetic_prices (default 0 (head col)) returnLen rets) closes resampled.

Definition ResamplingProvider_Fetch (rp : ResamplingProvider) (req : DataRequest) : result (DataFrame F) :=
  let narrow := Between (Metrics (Assets (historicalData rp) (rq_Assets req)) [MetricClose]) (rq_Start req) (rq_End req) in
  match df_err narrow with
  | Some e => Err ("ResamplingProvider: narrowing historical data: " +:+ e)%string
  | None =>
      if (length (df_times narrow) =? 0)%nat || (length (df_assets narrow) =? 0)%nat then
        provider_frame "empty result" req narrow (replicate (length (df_assets narrow) * length (rq_Metrics req))%nat [])
      else
        provider_frame "result DataFrame" req narrow
          (flat_map (λ prices, (λ m, metric_series m prices) <$> rq_Metrics req) (synthetic_series rp narrow))
  end.

Definition NewResamplingProvider (historical : DataFrame F) (rs : Resampler) (s : Z) (metrics : list Metric) : DataProvider F :=
  let rp := mkResampling historical rs s metrics in
  mkProvider metrics (Some (ResamplingProvider_Fetch rp)) None None.
End Resampling.
Arguments ResamplingProvider F R : clear implicits.

(** * Resampled histories

    A resampler draws whole days: every asset gets the same day at every step,
    and as many days as were asked for.  Rebuilding prices from the returns of
    a history gives the history back. *)
Section Draws.
Context {F : Type} `{Num F} {R : Type} `{GoRandLaws R}.
Implicit Types (returns : list (list F)) (rng : R) (indices : list nat).

(** A history: rows of one positive length. *)
Definition rectangular (n : nat) returns : Prop := (0 < n)%nat ∧ returns ≠ [] ∧ Forall (λ row, length row = n) returns.

Lemma hist_len_rectangular n returns : rectangular n returns → hist_len returns = n.
Proof. intros (Hn & Hne & Hall). destruct returns as [|row returns]; [done|]. by inversion Hall. Qed.
Lemma with_history_rectangular n returns k : rectangular n returns → with_history returns k = k n.
Proof.
  intros Hr. unfold with_history. rewrite (hist_len_rectangular n) by done. destruct Hr as (Hn & _). by destruct n; [lia|].
Qed.

Lemma slice_indices (row : list F) i c :
  (i + c ≤ length row)%nat → slice i (i + c) row = (λ j, default (of_Z 0) (row !! j)) <$> seq i c.
Proof.
  intros Hl. unfold slice. replace (i + c - i)%nat with c by lia. apply list_eq. intros k.
  rewrite list_lookup_fmap. destruct (decide (k < c)%nat) as [Hk|Hk].
  - rewrite lookup_take_lt by done. rewrite lookup_drop, lookup_seq_lt by done. cbn.
    destruct (lookup_lt_is_Some_2 row (i + k)) as [x ->]; [lia|done].
  - rewrite lookup_take_ge by lia. rewrite lookup_seq_ge by lia. done.
Qed.

Lemma append_days n returns indices i c :
  rectangular n returns → (i + c ≤ n)%nat →
  zip_with (λ row source, row ++ slice i (i + c) source) (days_at returns indices) returns
  = days_at returns (indices ++ seq i c).
Proof.
  intros (_ & _ & Hall) Hic. unfold days_at. induction Hall as [|row returns Hrow Hall IH]; [done|].
  cbn [fmap list_fmap zip_with]. cbn [fmap list_fmap] in IH. rewrite IH. f_equal.
  rewrite slice_indices by lia. by rewrite <-fmap_app.
Qed.

Lemma fill_blocks_draws n fuel blockSize targetLen indices returns rng :
  rectangular n returns → (0 < blockSize)%nat → (length indices ≤ targetLen)%nat → (targetLen ≤ length indices + fuel)%nat →
  Forall (λ i, (i < n)%nat) indices →
  ∃ drawn, fill_blocks fuel blockSize n targetLen (length indices) returns rng (days_at returns indices) = days_at returns drawn ∧
    length drawn = targetLen ∧ Forall (λ i, (i < n)%nat) drawn.
Proof.
  intros Hr Hb. revert indices rng. induction fuel as [|fuel IH]; intros indices rng Hle Hfuel Hin; cbn [fill_blocks].
  - exists indices. split; [done|]. split; [lia|done].
  - destruct (Nat.ltb_spec (length indices) targetLen) as [Hlt|]; [|exists indices; split; [done|split; [lia|done]]].
    pose proof (IntN_lt n rng) as Hstart. destruct (IntN n rng) as [start rng']. cbn [fst] in Hstart.
    specialize (Hstart (proj1 Hr)).
    set (copyLen := if (targetLen <? _)%nat then _ else _).
    assert (Hcopy : (1 ≤ copyLen)%nat ∧ (start + copyLen ≤ n)%nat ∧ (length indices + copyLen ≤ targetLen)%nat).
    { unfold copyLen. destruct (Nat.ltb_spec targetLen (length indices + (Nat.min (start + blockSize) n - start))); lia. }
    clearbody copyLen. rewrite (append_days n) by (done || lia).
    replace (length indices + copyLen)%nat with (length (indices ++ seq start copyLen)) by (rewrite length_app, length_seq; done).
    apply IH.
    + rewrite length_app, length_seq. lia.
    + rewrite length_app, length_seq. lia.
    + apply Forall_app. split; [done|]. apply Forall_forall. intros j Hj%elem_of_seq. lia.
Qed.

Lemma drawn_indices_spec n k rng :
  (0 < n)%nat → length (drawn_indices k n rng) = k ∧ Forall (λ i, (i < n)%nat) (drawn_indices k n rng).
Proof.
  intros Hn. revert rng. induction k as [|k IH]; intros rng; cbn [drawn_indices]; [done|].
  pose proof (IntN_lt n rng Hn) as Hi. destruct (IntN n rng) as [i rng']. destruct (IH rng') as [Hl Hall].
  cbn in *. split; [by rewrite Hl|by constructor].
Qed.

(** A resampler draws whole days.  On a history with a row of the same
    positive length for every asset, and for every generator that keeps its
    promises, the block bootstrap, the bootstrap and the permutation each return
    every row at one common list of indices of the history, so every asset gets
    the same days in the same order: exactly as many as asked for, or, for the
    permutation, at most the history, none of them twice. *)
Theorem Resample_draws_days (n targetLen : nat) (blockSize : Z) returns rng :
  rectangular n returns →
  (∃ drawn, BlockBootstrap blockSize returns targetLen rng = days_at returns drawn ∧
     length drawn = targetLen ∧ Forall (λ i, (i < n)%nat) drawn) ∧
  (∃ drawn, ReturnBootstrap returns targetLen rng = days_at returns drawn ∧
     length drawn = targetLen ∧ Forall (λ i, (i < n)%nat) drawn) ∧
  ∃ drawn, Permutation_ returns targetLen rng = days_at returns drawn ∧
     length drawn = Nat.min targetLen n ∧ Forall (λ i, (i < n)%nat) drawn ∧ NoDup drawn.
Proof.
  intros Hr. unfold BlockBootstrap, ReturnBootstrap, Permutation_. rewrite !(with_history_rectangular n) by done.
  split; [|split].
  - replace (replicate (length returns) []) with (days_at returns []).
    + apply (fill_blocks_draws n targetLen _ targetLen [] returns rng); [done|destruct (Z.leb_spec blockSize 0); lia|cbn; lia|cbn; lia|done].
    + clear Hr. unfold days_at. induction returns as [|row returns IH]; [done|]. cbn. f_equal. exact IH.
  - eexists. split; [done|]. apply drawn_indices_spec, Hr.
  - pose proof (Perm_permutes n rng) as Hp. eexists. split; [done|]. split.
    + rewrite length_take, Hp, length_seq. lia.
    + split.
      * apply Forall_take. rewrite Hp. apply Forall_forall. intros i Hi%elem_of_seq. lia.
      * eapply sublist_NoDup; [|apply sublist_take]. rewrite Hp. apply NoDup_seq.
Qed.
End Draws.

(** ** Prices from returns *)
Section Rebuild.
Local Open Scope Qc_scope.
Context `{TZDB} {R : Type} `{GoRand R}.

Lemma rebuild_prices (p : Qc) (ps : list Qc) :
  p ≠ 0 → Forall (λ x, x ≠ 0) ps →
  synthetic_from (Fin p) (daily_returns (Fin <$> p :: ps)) = Fin <$> ps.
Proof.
  intros Hp Hps. revert p Hp. induction Hps as [|p' ps Hp' Hps IH]; intros p Hp; [done|].
  cbn [fmap list_fmap daily_returns synthetic_from].
  change (feq (Fin p) (of_Z 0)) with (qc_eqb p 0). pose proof Hp as Hpe. apply qc_eqb_false in Hpe as ->.
  assert (Hv : fmul (Fin p) (fadd (of_Z 1) (fdiv (fsub (Fin p') (Fin p)) (Fin p))) = Fin p').
  { change (fsub (Fin p') (Fin p)) with (Fin (p' - p)). cbn [fdiv Num_exact xdiv].
    pose proof Hp as Hpe. apply qc_eqb_false in Hpe as ->. cbn [of_Z fadd fmul Num_exact xadd xmul].
    rewrite qc_of_Z_1. f_equal. field. done. }
  rewrite Hv. f_equal. exact (IH p' Hp').
Qed.
Lemma length_daily_returns (p : xq) (ps : list xq) : length (daily_returns (p :: ps)) = length ps.
Proof. revert p. induction ps as [|p' ps IH]; intros p; [done|]. cbn. f_equal. apply IH. Qed.

(** Resampling that changes nothing gives the history back: over a window
    whose closes are numbers other than zero, the prices rebuilt from their daily
    returns, starting from the first close, are the closes of every asset. *)
Theorem synthetic_prices_round_trip (rp : ResamplingProvider xq R) (narrow : DataFrame xq) (closes : list (list Qc)) :
  resampler rp = (λ returns _ _, returns) →
  (λ a, Column narrow a MetricClose) <$> df_assets narrow = (λ col, Fin <$> col) <$> closes →
  Forall (λ col, length col = length (df_times narrow) ∧ col ≠ [] ∧ Forall (λ x, x ≠ 0) col) closes →
  synthetic_series rp narrow = (λ a, Column narrow a MetricClose) <$> df_assets narrow.
Proof.
  intros Hid Hcols Hall. unfold synthetic_series. rewrite Hcols, Hid. clear Hcols.
  induction Hall as [|col closes (Hlen & Hne & Hnz) Hall IH]; [done|]. cbn [fmap list_fmap zip_with].
  cbn [fmap list_fmap] in IH. rewrite IH. f_equal. destruct col as [|p ps]; [done|]. apply Forall_cons in Hnz as [Hp Hps].
  unfold synthetic_prices. cbn [fmap list_fmap head default]. change (list_fmap Qc xq Fin (p :: ps)) with (Fin <$> p :: ps).
  rewrite take_ge.
  - cbn [from_option id]. f_equal. by apply rebuild_prices.
  - cbn [fmap list_fmap]. rewrite length_daily_returns. cbn in Hlen. rewrite <-Hlen. cbn. rewrite length_map. lia.
Qed.
End Rebuild.

(** ** Witnesses *)
Section Witnesses.
Local Existing Instance utc_db.

(** A linear congruential generator. *)
Local Instance lcg : GoRand Z := {|
  rng_seed := λ s t, (s + t)%Z;
  IntN := λ n r, (Z.to_nat (r mod Z.of_nat n), (r * 1103515245 + 12345) mod 2147483648)%Z;
  Perm := λ n r, (reverse (seq 0 n), r + 1)%Z;
|}.
Local Instance lcg_laws : GoRandLaws Z.
Proof.
  split.
  - intros n r Hn. cbn. pose proof (Z.mod_pos_bound r (Z.of_nat n)). lia.
  - intros n r. cbn. apply reverse_Permutation.
Qed.

Definition two_assets : list (list xq) := [q <$> [1; 2; 3]%Z; q <$> [4; 5; 6]%Z].
Lemma two_assets_rectangular : rectangular 3 two_assets.
Proof. split; [lia|]. split; [done|]. repeat constructor. Qed.
Example block_bootstrap_runs : length <$> BlockBootstrap 2 two_assets 5 41%Z = [5; 5]%nat.
Proof. vm_compute. reflexivity. Qed.

Lemma Resample_draws_days_witness :
  ∃ drawn, BlockBootstrap 2 two_assets 5 41%Z = days_at two_assets drawn ∧ length drawn = 5%nat ∧ Forall (λ i, (i < 3)%nat) drawn.
Proof. exact (proj1 (Resample_draws_days 3 5 2 two_assets 41%Z two_assets_rectangular)). Defined.

Definition close_history : DataFrame xq := build [day 0; day 1; day 2] [SPY] [MetricClose] Daily [q <$> [100; 110; 99]%Z].
Definition unchanged_resampling : ResamplingProvider xq Z :=
  mkResampling close_history (λ returns _ _, returns) 7 [MetricClose].
Lemma synthetic_prices_round_trip_witness :
  synthetic_series unchanged_resampling close_history = [q <$> [100; 110; 99]%Z].
Proof.
  exact (synthetic_prices_round_trip unchanged_resampling close_history [qc_of_Z <$> [100; 110; 99]%Z] eq_refl eq_refl
    ltac:(repeat constructor; done)).
Defined.
End Witnesses.
