(* ===== verification/DataCache.v ===== *)
(** * DataCache: the engine's column cache ([engine/data_cache.go])

    One entry per asset, metric and calendar year: the time axis the provider
    answered with and the column of values on it.  The byte count is an
    [int64].  No operation reads [maxBytes].

    The second half proves the books of the cache exact. *)
From Stdlib Require Import ZArith Lia.
From stdpp Require Import base list gmap strings fin_maps.
From S2P Require Import Prelude Num GoTime Asset Period Frame Schedule.
Local Open Scope Z_scope.

Definition defaultMaxBytes : Z := 512 * 1024 * 1024.

(** Asset, metric, and the Unix second of January 1 00:00 in New York. *)
Record colCacheKey : Type := mkKey { ck_figi : string; ck_metric : Metric; chunkStart : Z }.

#[export] Instance colCacheKey_eq_dec : EqDecision colCacheKey.
Proof. solve_decision. Defined.
#[export] Instance colCacheKey_countable : Countable colCacheKey.
Proof.
  refine (inj_countable' (λ k, (ck_figi k, ck_metric k, chunkStart k)) (λ '(a, b, c), mkKey a b c) _).
  by intros [].
Defined.

Record colCacheEntry (F : Type) : Type := mkEntry { ce_times : list Time; ce_values : list F }.
Arguments mkEntry {F}.
Arguments ce_times {F}.
Arguments ce_values {F}.

Record dataCache (F : Type) : Type := mkCache {
  entries : gmap colCacheKey (colCacheEntry F);
  curBytes : Z;
  maxBytes : Z;
}.
Arguments mkCache {F}.
Arguments entries {F}.
Arguments curBytes {F}.
Arguments maxBytes {F}.

Section Cache.
Context {F : Type} `{TZDB}.
Implicit Types (c : dataCache F) (key : colCacheKey) (entry : colCacheEntry F).

Definition newDataCache (max : Z) : dataCache F := mkCache ∅ 0 (if max <=? 0 then defaultMaxBytes else max).

Definition cache_get c key : option (colCacheEntry F) := entries c !! key.

Definition estimateEntryBytes entry : Z :=
  Z.of_nat (length (ce_values entry)) * 8 + Z.of_nat (length (ce_times entry)) * 24.

Definition cache_put key entry c : dataCache F :=
  let cur := match entries c !! key with
             | Some old => wrap64 (curBytes c - estimateEntryBytes old)
             | None => curBytes c
             end in
  mkCache (<[key := entry]> (entries c)) (wrap64 (cur + estimateEntryBytes entry)) (maxBytes c).

(** January 1 00:00 in New York of a year. *)
Definition year_chunk (y : Z) : Z := Unix (Date y 1 1 0 0 0 0 nyc).

Definition evict_one (threshold : Z) c (ke : colCacheKey * colCacheEntry F) : dataCache F :=
  if chunkStart ke.1 <? threshold
  then mkCache (delete ke.1 (entries c)) (wrap64 (curBytes c - estimateEntryBytes ke.2)) (maxBytes c)
  else c.

Definition evictBefore `{GoMapOrder} (t : Time) c : dataCache F :=
  let threshold := year_chunk (Year (InLoc t nyc) - 1) in
  fold_left (evict_one threshold) (range (entries c)) c.

(** The capacity given to [make] is negative, and [make] panics, when the end
    lies two calendar years or more before the start. *)
Definition chunkYears (start end_ : Time) : option (list Z) :=
  let startYear := Year (InLoc start nyc) in
  let endYear := Year (InLoc end_ nyc) in
  if endYear - startYear + 1 <? 0 then None
  else Some ((λ i, year_chunk (startYear + Z.of_nat i)) <$> seq 0 (Z.to_nat (endYear - startYear + 1))).
End Cache.

(** * The column cache's books

    The byte count of the cache is the sum of its entries' estimates, in 64
    bits, whatever is put and evicted; eviction keeps exactly the chunks of the
    current year and the year before. *)
Local Open Scope Z_scope.

Section Books.
Context {F : Type} `{TZDB} `{GoMapOrder}.
Implicit Types (c : dataCache F) (key : colCacheKey) (entry : colCacheEntry F) (t : Time).

Definition total_bytes (m : gmap colCacheKey (colCacheEntry F)) : Z :=
  map_fold (λ _ entry sum, sum + estimateEntryBytes entry) 0 m.

(** The count is exact, modulo the width of [int64]. *)
Definition counted c : Prop := curBytes c = wrap64 (total_bytes (entries c)).

Lemma wrap64_mod a b : a mod 2 ^ 64 = b mod 2 ^ 64 → wrap64 a = wrap64 b.
Proof. intros E. unfold wrap64. f_equal. rewrite <-(Z.add_mod_idemp_l a), <-(Z.add_mod_idemp_l b), E; lia. Qed.

Lemma wrap64_add a b : wrap64 (wrap64 a + b) = wrap64 (a + b).
Proof.
  apply wrap64_mod. unfold wrap64. replace ((a + 2 ^ 63) mod 2 ^ 64 - 2 ^ 63 + b) with ((a + 2 ^ 63) mod 2 ^ 64 + (b - 2 ^ 63)) by lia.
  rewrite Z.add_mod_idemp_l by lia. f_equal. lia.
Qed.

Lemma total_insert (m : gmap colCacheKey (colCacheEntry F)) key entry :
  m !! key = None → total_bytes (<[key := entry]> m) = total_bytes m + estimateEntryBytes entry.
Proof. intros Hk. unfold total_bytes. rewrite map_fold_insert_L; [lia| |done]. intros. lia. Qed.

Lemma total_delete (m : gmap colCacheKey (colCacheEntry F)) key entry :
  m !! key = Some entry → total_bytes m = total_bytes (delete key m) + estimateEntryBytes entry.
Proof.
  intros Hk. rewrite <-(insert_delete_id m key entry) at 1 by done. apply total_insert, lookup_delete_eq.
Qed.

Lemma cache_put_counted key entry c : counted c → counted (cache_put key entry c).
Proof.
  unfold counted. intros Hc. cbn [cache_put curBytes entries]. rewrite <-insert_delete_eq, total_insert by apply lookup_delete_eq.
  destruct (entries c !! key) as [old|] eqn:E.
  - rewrite wrap64_add, Hc. rewrite (total_delete _ _ _ E). rewrite <-Z.add_opp_r, <-Z.add_assoc, wrap64_add. f_equal. lia.
  - rewrite Hc, wrap64_add, delete_id by done. done.
Qed.

Lemma evict_one_counted threshold key entry c :
  entries c !! key = Some entry → counted c → counted (evict_one threshold c (key, entry)).
Proof.
  unfold counted, evict_one. cbn [fst snd]. intros Hk Hc. destruct (_ <? _); [|done]. cbn [curBytes entries].
  rewrite Hc, (total_delete _ _ _ Hk), <-Z.add_opp_r, wrap64_add. f_equal. lia.
Qed.

(** What the loop of [evictBefore] leaves, and that its count stays exact. *)
Lemma evict_loop threshold (l : list (colCacheKey * colCacheEntry F)) c :
  NoDup l.*1 → (∀ key entry, (key, entry) ∈ l → entries c !! key = Some entry) → counted c →
  let c' := fold_left (evict_one threshold) l c in
  counted c' ∧
  ∀ key, entries c' !! key = if decide (key ∈ l.*1 ∧ chunkStart key < threshold) then None else entries c !! key.
Proof.
  cbn zeta. revert c. induction l as [|[key entry] l IH]; intros c Hnd Hin Hc.
  { split; [done|]. intros key. rewrite decide_False; [done|]. intros [Hk _]. by apply not_elem_of_nil in Hk. }
  cbn [fold_left fmap list_fmap fst] in *. apply NoDup_cons in Hnd as [Hk Hnd].
  assert (Hother : ∀ k, k ≠ key → entries (evict_one threshold c (key, entry)) !! k = entries c !! k).
  { intros k Hne. unfold evict_one. cbn. destruct (_ <? _); [|done]. cbn. by apply lookup_delete_ne. }
  assert (Hself : entries (evict_one threshold c (key, entry)) !! key = if decide (chunkStart key < threshold) then None else entries c !! key).
  { unfold evict_one. cbn. destruct (Z.ltb_spec (chunkStart key) threshold); case_decide; try lia; [|done]. cbn. apply lookup_delete_eq. }
  destruct (IH (evict_one threshold c (key, entry))) as [Hc' Hlook]; [done| | |].
  - intros k x Hx. rewrite Hother; [apply Hin; by right|]. intros ->. apply Hk, list_elem_of_fmap. by exists (key, x).
  - apply evict_one_counted; [apply Hin; left|done].
  - split; [done|]. intros k. rewrite Hlook. destruct (decide (k = key)) as [->|Hne].
    + rewrite (decide_False (P := key ∈ l.*1 ∧ _)) by tauto. rewrite Hself.
      apply decide_ext. rewrite elem_of_cons. tauto.
    + rewrite Hother by done. apply decide_ext. rewrite elem_of_cons. tauto.
Qed.

(** The count is exact from the start and stays exact when an entry is put,
    new or over another, and when chunks are evicted; and eviction at an
    instant leaves exactly the entries whose chunk starts no earlier than
    January 1 of the year before it. *)
Theorem cache_bytes_exact :
  (∀ max, counted (newDataCache max)) ∧
  (∀ key entry c, counted c → counted (cache_put key entry c)) ∧
  (∀ t c, counted c → counted (evictBefore t c) ∧
     ∀ key, entries (evictBefore t c) !! key =
       if decide (chunkStart key < year_chunk (Year (InLoc t nyc) - 1)) then None else entries c !! key).
Proof.
  split; [|split].
  - intros max. unfold counted. cbn. reflexivity.
  - intros. by apply cache_put_counted.
  - intros t c Hc. unfold evictBefore. set (threshold := year_chunk _).
    destruct (evict_loop threshold (range (entries c)) c) as [Hc' Hlook]; [apply NoDup_range_fst|by intros k x Hx%elem_of_range|done|].
    split; [done|]. intros key. rewrite Hlook. destruct (decide (chunkStart key < threshold)) as [Hlt|Hge].
    + case_decide as Hd; [done|]. destruct (entries c !! key) as [x|] eqn:E; [|done]. exfalso. apply Hd. split; [|done].
      apply list_elem_of_fmap. exists (key, x). split; [done|]. by apply elem_of_range.
    + rewrite decide_False by tauto. done.
Qed.
End Books.
