(* ===== verification/Fetch.v ===== *)
(** * Fetch: the engine's data access ([engine/engine.go],
    [engine/intraday_fetch.go], [engine/intraday_fill_cache.go])

    Requests for daily data go through the column cache in chunks of a calendar
    year: misses are collected, fetched in bulk from the providers that serve
    the metrics, decomposed into the cache, and the frame is assembled from the
    cached columns.  A request for one instant takes a shorter path.  During an
    intra-day firing prices come from minute bars.

    The state is the part of [Engine] these methods read or write.  Methods
    that write it return it; a method that panics returns nothing. *)
From Stdlib Require Import ZArith.
From stdpp Require Import base list gmap strings.
From S2P Require Import Prelude Num GoTime Asset Period Frame Metrics FrameOps Schedule Provider DataCache.
Local Open Scope Z_scope.

(** The order in which concurrent fetches answer. *)
Class GoSched : Type := {
  arrival : ∀ {A : Type}, list A → list A;
  arrival_perm : ∀ {A : Type} (l : list A), arrival l ≡ₚ l;
}.

Definition launch_order : GoSched := {| arrival := λ A l, l; arrival_perm := λ A l, reflexivity _ |}.

Record intradayFillCache (F : Type) : Type := mkFillCache {
  fc_firingTime : Time;
  fc_assets : list Asset;
  fc_covered : gmap string bool;
  fc_window : DataFrame F;
}.
Arguments mkFillCache {F}.
Arguments fc_firingTime {F}.
Arguments fc_assets {F}.
Arguments fc_covered {F}.
Arguments fc_window {F}.

(** The risk-free series and the index of its dates. *)
Record RiskFree (F : Type) : Type := mkRiskFree {
  rf_times : list Time;
  rf_values : list F;
  rf_index : gmap Time nat;
}.
Arguments mkRiskFree {F}.
Arguments rf_times {F}.
Arguments rf_values {F}.
Arguments rf_index {F}.

Record Engine (F : Type) : Type := mkEngine {
  providers : list (DataProvider F);
  (* provider number by metric *)
  metricProvider : gmap Metric nat;
  cache : option (dataCache F);
  cacheMaxBytes : Z;
  intradayFill : option (intradayFillCache F);
  currentDate : Time;
  currentTime : Time;
  predicting : bool;
  riskFreeResolved : bool;
  riskFree : RiskFree F;
  fundamentalDimension : string;
}.
Arguments mkEngine {F}.
Arguments providers {F}.
Arguments metricProvider {F}.
Arguments cache {F}.
Arguments cacheMaxBytes {F}.
Arguments intradayFill {F}.
Arguments currentDate {F}.
Arguments currentTime {F}.
Arguments predicting {F}.
Arguments riskFreeResolved {F}.
Arguments riskFree {F}.
Arguments fundamentalDimension {F}.

Section Fetch.
Context {F : Type} `{Num F} {tz : TZDB} {go : GoMapOrder} {srt : GoSort} {sched : GoSched}.
Implicit Types (e : Engine F) (c : dataCache F) (a : Asset) (m : Metric) (t : Time).

Definition set_cache (c : option (dataCache F)) e : Engine F :=
  mkEngine (providers e) (metricProvider e) c (cacheMaxBytes e) (intradayFill e) (currentDate e) (currentTime e)
    (predicting e) (riskFreeResolved e) (riskFree e) (fundamentalDimension e).
Definition set_metricProvider (x : gmap Metric nat) e : Engine F :=
  mkEngine (providers e) x (cache e) (cacheMaxBytes e) (intradayFill e) (currentDate e) (currentTime e)
    (predicting e) (riskFreeResolved e) (riskFree e) (fundamentalDimension e).
Definition set_intradayFill (x : option (intradayFillCache F)) e : Engine F :=
  mkEngine (providers e) (metricProvider e) (cache e) (cacheMaxBytes e) x (currentDate e) (currentTime e)
    (predicting e) (riskFreeResolved e) (riskFree e) (fundamentalDimension e).
Definition set_clock (date time : Time) e : Engine F :=
  mkEngine (providers e) (metricProvider e) (cache e) (cacheMaxBytes e) (intradayFill e) date time
    (predicting e) (riskFreeResolved e) (riskFree e) (fundamentalDimension e).
Definition set_predicting (x : bool) e : Engine F :=
  mkEngine (providers e) (metricProvider e) (cache e) (cacheMaxBytes e) (intradayFill e) (currentDate e) (currentTime e)
    x (riskFreeResolved e) (riskFree e) (fundamentalDimension e).
Definition set_riskFree (resolved : bool) (x : RiskFree F) e : Engine F :=
  mkEngine (providers e) (metricProvider e) (cache e) (cacheMaxBytes e) (intradayFill e) (currentDate e) (currentTime e)
    (predicting e) resolved x (fundamentalDimension e).

(** [Now] *)
Definition Now e : Time := if IsZero (currentTime e) then currentDate e else currentTime e.

(** ** Routing: the last provider that serves a metric *)
Fixpoint route_providers (i : nat) (ps : list (DataProvider F)) (routes : gmap Metric nat) :
    result (gmap Metric nat) :=
  match ps with
  | [] => Ok routes
  | p :: rest =>
      match dp_Fetch p with
      | None => Err "engine: provider does not implement BatchProvider"
      | Some _ => route_providers (S i) rest (fold_left (λ routes m, <[m := i]> routes) (Provides p) routes)
      end
  end.
Definition buildProviderRouting e : result (Engine F) :=
  (λ routes, set_metricProvider routes e) <$> route_providers 0 (providers e) ∅.

Definition provider_fetch e (p : nat) (req : DataRequest) : result (DataFrame F) :=
  match providers e !! p ≫= dp_Fetch with
  | Some fetch => fetch req
  | None => Err "nil provider"
  end.

(** ** Misses by chunk *)
Record chunkMiss : Type := mkMiss { cm_assets : gmap string Asset; cm_metrics : gmap Metric bool }.

Definition note_miss c (year : Z) a (misses : gmap Z chunkMiss) m : gmap Z chunkMiss :=
  match cache_get c (mkKey (CompositeFigi a) m year) with
  | Some _ => misses
  | None =>
      let cm := lookup_d (mkMiss ∅ ∅) misses year in
      <[year := mkMiss (<[CompositeFigi a := a]> (cm_assets cm)) (<[m := true]> (cm_metrics cm))]> misses
  end.

Definition find_misses c (years : list Z) (assets : list Asset) (metrics : list Metric) : gmap Z chunkMiss :=
  fold_left (λ misses year,
    fold_left (λ misses a, fold_left (note_miss c year a) metrics misses) assets misses) years ∅.

(** ** One chunk *)

(** The metrics of a miss by provider. *)
Fixpoint group_metrics (routes : gmap Metric nat) (metrics : list Metric) (groups : gmap nat (list Metric)) :
    result (gmap nat (list Metric)) :=
  match metrics with
  | [] => Ok groups
  | m :: rest =>
      match routes !! m with
      | None => Err ("engine: no provider registered for metric " +:+ m)%string
      | Some p => group_metrics routes rest (<[p := lookup_d [] groups p ++ [m]]> groups)
      end
  end.

Definition chunk_request (year : Z) (assets : list Asset) (metrics : list Metric) : DataRequest :=
  let chunkStart := mkTime (year * ns_per_sec) nyc in
  let chunkEnd := AddDur (Date (Year chunkStart + 1) 1 1 0 0 0 0 nyc) (-1) in
  mkRequest assets metrics chunkStart chunkEnd Daily.

(** The answers of the providers, in the order they arrive. *)
Definition fetch_groups e (year : Z) (assets : list Asset) (groups : gmap nat (list Metric)) :
    list (list Metric * result (DataFrame F)) :=
  let answers := (λ pm : nat * list Metric,
    (pm.2, provider_fetch e pm.1 (chunk_request year assets pm.2))) <$> range groups in
  if (length answers =? 1)%nat then answers else arrival answers.

(** The cache and the metrics put into it, per asset and metric. *)
Definition store_column (year : Z) a (col : Metric → option (colCacheEntry F))
    (st : dataCache F * gmap Metric bool) m : dataCache F * gmap Metric bool :=
  match col m with
  | None => st
  | Some entry => (cache_put (mkKey (CompositeFigi a) m year) entry st.1, <[m := true]> st.2)
  end.
Definition store_columns (year : Z) (assets : list Asset) (metrics : list Metric)
    (col : Asset → Metric → option (colCacheEntry F)) (st : dataCache F * gmap Metric bool) :
    dataCache F * gmap Metric bool :=
  fold_left (λ st a, fold_left (store_column year a (col a)) metrics st) assets st.

Definition empty_entry : colCacheEntry F := mkEntry [] [].

(** A column of the frame; [Column] returns nil for a pair it does not hold. *)
Definition frame_entry (df : DataFrame F) a m : option (colCacheEntry F) :=
  match df_err df, df_assetIndex df !! CompositeFigi a, metricIndex df m with
  | None, Some _, Some _ => Some (mkEntry (df_times df) (Column df a m))
  | _, _, _ => None
  end.

Definition store_answer (year : Z) (missAssets : list Asset) (metrics : list Metric) (df : DataFrame F)
    (st : dataCache F * gmap Metric bool) : dataCache F * gmap Metric bool :=
  match df_times df with
  | [] => store_columns year missAssets metrics (λ _ _, Some empty_entry) st
  | _ => store_columns year (df_assets df) (df_metrics df) (frame_entry df) st
  end.

Fixpoint store_answers (year : Z) (missAssets : list Asset)
    (answers : list (list Metric * result (DataFrame F))) (st : dataCache F * gmap Metric bool) :
    dataCache F * gmap Metric bool * option error :=
  match answers with
  | [] => (st, None)
  | (metrics, Err err) :: _ => (st, Some ("engine: provider fetch: " +:+ err)%string)
  | (metrics, Ok df) :: rest => store_answers year missAssets rest (store_answer year missAssets metrics df st)
  end.

(** Metrics that no answer placed get an empty entry. *)
Definition put_sentinel (year : Z) (cached : gmap Metric bool) a c m : dataCache F :=
  if lookup_d false cached m then c
  else match cache_get c (mkKey (CompositeFigi a) m year) with
       | Some _ => c
       | None => cache_put (mkKey (CompositeFigi a) m year) empty_entry c
       end.
Definition put_sentinels (year : Z) (cached : gmap Metric bool) (assets : list Asset) (metrics : list Metric) c :
    dataCache F :=
  fold_left (λ c a, fold_left (put_sentinel year cached a) metrics c) assets c.

Definition fetch_chunk e c (ym : Z * chunkMiss) : dataCache F * option error :=
  let '(year, miss) := ym in
  let missAssets := (range (cm_assets miss)).*2 in
  let missMetrics := (range (cm_metrics miss)).*1 in
  match group_metrics (metricProvider e) missMetrics ∅ with
  | Err err => (c, Some err)
  | Ok groups =>
      let '(c, cached, err) := store_answers year missAssets (fetch_groups e year missAssets groups) (c, ∅) in
      match err with
      | Some err => (c, Some err)
      | None => (put_sentinels year cached missAssets missMetrics c, None)
      end
  end.

Fixpoint fetch_chunks e (misses : list (Z * chunkMiss)) c : dataCache F * option error :=
  match misses with
  | [] => (c, None)
  | ym :: rest =>
      match fetch_chunk e c ym with
      | (c, Some err) => (c, Some err)
      | (c, None) => fetch_chunks e rest c
      end
  end.

(** ** Assembly from cached columns *)
Definition cached_entries c (years : list Z) (assets : list Asset) (metrics : list Metric) :
    list (colCacheEntry F) :=
  year ← years; a ← assets; m ← metrics;
  match cache_get c (mkKey (CompositeFigi a) m year) with Some entry => [entry] | None => [] end.

(** The union of the time axes; the extra instant of a point in time. *)
Definition union_times c (years : list Z) (assets : list Asset) (metrics : list Metric) (extra : option Time) :
    gmap Z Time :=
  let set := fold_left (λ set (t : Time), <[Unix t := t]> set)
               (mjoin (ce_times <$> cached_entries c years assets metrics)) ∅ in
  match extra with Some t => <[Unix t := t]> set | None => set end.

(** One column of the slab: NaN, overwritten by the entries of each year. *)
Definition scatter_entry (timeIdx : gmap Z nat) (col : list F) (entry : colCacheEntry F) : list F :=
  fold_left (λ col (tv : Time * F), match timeIdx !! Unix tv.1 with
                                    | Some i => <[i := tv.2]> col
                                    | None => col
                                    end) (zip (ce_times entry) (ce_values entry)) col.
Definition scatter_column c (years : list Z) (timeIdx : gmap Z nat) (numTimes : nat) a m : list F :=
  fold_left (scatter_entry timeIdx) (cached_entries c years [a] [m]) (replicate numTimes fnan).

Fixpoint fill_from (prev : F) (col : list F) : list F :=
  match col with
  | [] => []
  | x :: rest => let x := if is_nan x && negb (is_nan prev) then prev else x in x :: fill_from x rest
  end.
Definition forward_fill (col : list F) : list F :=
  match col with [] => [] | x :: rest => x :: fill_from x rest end.

Definition slab_column c (years : list Z) (times : list Time) a m : list F :=
  let col := scatter_column c years (index_of (Unix <$> times)) (length times) a m in
  if IsFundamental m then forward_fill col else col.

Definition assemble_slab c (years : list Z) (assets : list Asset) (metrics : list Metric)
    (rangeStart rangeEnd : Time) : result (DataFrame F) :=
  let extra := if existsb IsFundamental metrics && Equal rangeStart rangeEnd then Some rangeEnd else None in
  let timeSet := union_times c years assets metrics extra in
  if (size timeSet =? 0)%nat then NewDataFrame [] [] [] Daily []
  else
    let unionTimes := sort_slice Before (range timeSet).*2 in
    match NewDataFrame unionTimes assets metrics Daily
            (a ← assets; m ← metrics; [slab_column c years unionTimes a m]) with
    | Err err => Err ("engine: assemble cached data: " +:+ err)%string
    | Ok assembled => Ok (Between assembled rangeStart rangeEnd)
    end.

(** *** A point in time *)

(** The latest value that is not NaN at an index up to the given one. *)
Fixpoint walk_back (values : list F) (n : nat) : option F :=
  match n with
  | O => None
  | S i => match values !! i with
           | Some v => if is_nan v then walk_back values i else Some v
           | None => walk_back values i
           end
  end.

Definition entry_value (fundamental : bool) (targetKey : Z) (entry : colCacheEntry F) : option F :=
  let keys := dateKey <$> ce_times entry in
  if fundamental then
    walk_back (ce_values entry)
      (sort_Search (length keys) (λ i, match keys !! i with Some k => targetKey <? k | None => true end))
  else
    let lo := sort_Search (length keys) (λ i, match keys !! i with Some k => targetKey <=? k | None => true end) in
    match keys !! lo with
    | Some k => if k =? targetKey then ce_values entry !! lo else None
    | None => None
    end.

(** The cell of one asset and metric, if some entry of the chunk has one. *)
Definition point_cell c (years : list Z) (target : Time) a m : option F :=
  fold_left (λ cell year,
    match cache_get c (mkKey (CompositeFigi a) m year) with
    | Some entry =>
        match entry_value (IsFundamental m) (dateKey target) entry with
        | Some v => Some v
        | None => cell
        end
    | None => cell
    end) years None.

Definition assemblePointInTime c (assets : list Asset) (metrics : list Metric) (target : Time)
    (hasFundamental : bool) : option (result (DataFrame F)) :=
  years ← chunkYears target target;
  let cells := a ← assets; m ← metrics; [point_cell c years target a m] in
  let anyMatch := existsb (λ cell : option F, match cell with Some _ => true | None => false end) cells in
  Some (if negb anyMatch && negb hasFundamental then NewDataFrame [] assets metrics Daily []
        else NewDataFrame [target] assets metrics Daily ((λ cell, [default fnan cell]) <$> cells)).

(** ** [fetchRange] *)
Definition fetchRange e c (assets : list Asset) (metrics : list Metric) (rangeStart rangeEnd : Time) :
    option (dataCache F * result (DataFrame F)) :=
  years ← chunkYears rangeStart rangeEnd;
  let '(c, err) := fetch_chunks e (range (find_misses c years assets metrics)) c in
  match err with
  | Some err => Some (c, Err err)
  | None =>
      if Equal rangeStart rangeEnd then
        r ← assemblePointInTime c assets metrics rangeEnd (existsb IsFundamental metrics);
        Some (c, match r with
                 | Ok df => Ok df
                 | Err err => Err ("engine: assemble point-in-time: " +:+ err)%string
                 end)
      else Some (c, assemble_slab c years assets metrics rangeStart rangeEnd)
  end.

(** [if e.cache == nil { e.cache = newDataCache(e.cacheMaxBytes) }] *)
Definition ensure_cache e : dataCache F := default (newDataCache (cacheMaxBytes e)) (cache e).

(** ** The firing *)
Definition findIntradayProvider e :
    option (list Asset → list Metric → Time → Time → list TimeOfDay → result (DataFrame F)) :=
  head (omap dp_IntradayFetch (providers e)).

Definition isIntradayFiring e : bool :=
  if IsZero (currentTime e) then false
  else if Equal (currentTime e) (currentDate e) then false
  else match findIntradayProvider e with
       | None => false
       | Some _ =>
           let local := InLoc (currentTime e) nyc in
           let minutes := Hour local * 60 + Minute local in
           (9 * 60 + 30 <? minutes) && (minutes <? 16 * 60)
       end.

Definition capDailyRangeEnd e (ts : Time) : Time :=
  if negb (isIntradayFiring e) then ts
  else
    let local := InLoc ts nyc in
    let cur := InLoc (currentDate e) nyc in
    if (Year local =? Year cur) && (YearDay local =? YearDay cur) then AddDate ts 0 0 (-1) else ts.

(** ** Forward fill to a predicted date *)
Definition nextTimestamp (current : Time) (freq : Frequency) : Time :=
  match freq with
  | Daily => AddDate current 0 0 1
  | Weekly => AddDate current 0 0 7
  | Monthly => AddDate current 0 1 0
  | Quarterly => AddDate current 0 3 0
  | Yearly => AddDate current 1 0 0
  | Tick => AddDate current 0 0 1
  end.

(** [None] when the fuel runs out. *)
Fixpoint fill_rows (fuel : nat) (df : DataFrame F) (cursor : Time) (freq : Frequency) (row : list F)
    (target : Time) : option (result (DataFrame F)) :=
  match fuel with
  | O => None
  | S fuel =>
      let cursor := nextTimestamp cursor freq in
      if After cursor target then Some (Ok df)
      else match AppendRow df cursor row with
           | Err err => Some (Err ("forward-fill append: " +:+ err)%string)
           | Ok df => fill_rows fuel df cursor freq row target
           end
  end.

Definition last_row (df : DataFrame F) : list F := a ← df_assets df; m ← df_metrics df; [Value df a m].

Definition ForwardFillTo (fuel : nat) (df : DataFrame F) (target : Time) : option (result (DataFrame F)) :=
  if (Len df =? 0)%nat then Some (Ok df)
  else if negb (Before (End df) target) then Some (Ok df)
  else match df_freq df with
       | Tick => Some (Err "cannot forward-fill tick-frequency data: no regular interval")
       | freq => fill_rows fuel df (End df) freq (last_row df) target
       end.

(** ** Risk-free rates *)
Definition risk_free_at (rf : RiskFree F) t : F :=
  let key := Date (Year t) (Month t) (Day t) 0 0 0 0 "UTC" in
  match rf_index rf !! key with
  | Some i => default fnan (rf_values rf !! i)
  | None =>
      let n := sort_Search (length (rf_times rf))
                 (λ j, match rf_times rf !! j with Some d => After d key | None => true end) in
      match n with
      | O => fnan
      | S i => default fnan (rf_values rf !! i)
      end
  end.

Definition sliceRiskFree (rf : RiskFree F) (timestamps : list Time) : option (list F) :=
  if (length (rf_times rf) =? 0)%nat || (length timestamps =? 0)%nat then None
  else Some (risk_free_at rf <$> timestamps).

Definition attach_risk_free (what : string) e (df : DataFrame F) : result (DataFrame F) :=
  if riskFreeResolved e && negb (length (rf_times (riskFree e)) =? 0)%nat && negb (Len df =? 0)%nat then
    match sliceRiskFree (riskFree e) (df_times df) with
    | None => Ok df
    | Some rates => wrapped ("engine: set risk-free rates on " +:+ what +:+ " frame")%string (SetRiskFreeRates df rates)
    end
  else Ok df.

(** A prediction extends the frame to its date. *)
Definition predict_fill (fuel : nat) (what : string) e (target : Time) (df : DataFrame F) :
    option (result (DataFrame F)) :=
  if predicting e && negb (Len df =? 0)%nat && Before (End df) target then
    wrapped ("engine: forward-fill in " +:+ what)%string <$> ForwardFillTo fuel df target
  else Some (Ok df).

(** ** [Fetch] and [FetchAt] *)
Definition fetchIntraday e (assets : list Asset) (lookback : Period) (metrics : list Metric) : result (DataFrame F) :=
  match findIntradayProvider e with
  | None => Err "engine: intraday lookback requested but no registered provider implements IntradayProvider"
  | Some fetch =>
      let end_ := Now e in
      wrapped "engine: intraday fetch" (fetch assets metrics (period_Before lookback end_) end_ (tods lookback))
  end.

(** What [Fetch] and [FetchAt] do with the frame of [fetchRange]. *)
Definition finish (fuel : nat) (method frame : string) e (target : Time) (r : result (DataFrame F)) :
    option (result (DataFrame F)) :=
  match r with
  | Err err => Some (Err err)
  | Ok df =>
      filled ← predict_fill fuel method e target df;
      Some (match filled with Err err => Err err | Ok df => attach_risk_free frame e df end)
  end.

Definition engine_Fetch (fuel : nat) e (assets : list Asset) (lookback : Period) (metrics : list Metric) :
    option (Engine F * result (DataFrame F)) :=
  let e := set_cache (Some (ensure_cache e)) e in
  if IsIntraday lookback then Some (e, fetchIntraday e assets lookback metrics)
  else
    let rangeStart := period_Before lookback (currentDate e) in
    let rangeEnd := capDailyRangeEnd e (currentDate e) in
    '(c, r) ← fetchRange e (ensure_cache e) assets metrics rangeStart rangeEnd;
    let e := set_cache (Some c) e in
    r ← finish fuel "Fetch" "assembled" e (currentDate e) r;
    Some (e, r).

Definition engine_FetchAt (fuel : nat) e (assets : list Asset) (timestamp : Time) (metrics : list Metric) :
    option (Engine F * result (DataFrame F)) :=
  if negb (predicting e) && negb (IsZero (currentDate e)) && After timestamp (currentDate e) then
    Some (e, Err "FetchAt: requested future date")
  else
    let e := set_cache (Some (ensure_cache e)) e in
    let timestamp := capDailyRangeEnd e timestamp in
    '(c, r) ← fetchRange e (ensure_cache e) assets metrics timestamp timestamp;
    let e := set_cache (Some c) e in
    r ← finish fuel "FetchAt" "result" e timestamp r;
    Some (e, r).

Definition FetchFundamentalsByDateKey e (assets : list Asset) (metrics : list Metric) (dateKey_ : Time)
    (asOfDate : option Time) : result (DataFrame F) :=
  match head (keep (λ m, negb (IsFundamental m)) metrics) with
  | Some m => Err ("FetchFundamentalsByDateKey: metric " +:+ m +:+ " is not a fundamental metric")%string
  | None =>
      let check := match asOfDate with
                   | None => Ok (currentDate e)
                   | Some d =>
                       if IsZero d then Err "FetchFundamentalsByDateKey: as-of date must be non-zero"
                       else if After d (currentDate e)
                       then Err "FetchFundamentalsByDateKey: as-of date is after CurrentDate (would leak future data)"
                       else Ok d
                   end in
      maxEventDate ← check;
      let dimension := if bool_decide (fundamentalDimension e = EmptyString) then "ARQ"%string
                       else fundamentalDimension e in
      match head (omap dp_FetchFundamentals (providers e)) with
      | None => Err "FetchFundamentalsByDateKey: no provider supports FundamentalsByDateKeyProvider"
      | Some fetch =>
          wrapped "FetchFundamentalsByDateKey" (fetch assets metrics dateKey_ dimension maxEventDate)
      end
  end.

(** ** Minute bars: the fill window of a firing and the marks *)
Definition covers (fc : intradayFillCache F) (assets : list Asset) : bool :=
  forallb (λ a, lookup_d false (fc_covered fc) (CompositeFigi a)) assets.

Definition union_step (acc : gset string * list Asset) a : gset string * list Asset :=
  if decide (CompositeFigi a ∈ acc.1) then acc else ({[CompositeFigi a]} ∪ acc.1, acc.2 ++ [a]).
Definition unionAssets (base extra : list Asset) : list Asset :=
  (fold_left union_step (base ++ extra) (∅, [])).2.

Definition intradayFillWindow e
    (fetch : list Asset → list Metric → Time → Time → list TimeOfDay → result (DataFrame F))
    (assets : list Asset) (metrics : list Metric) (start end_ : Time) : Engine F * result (DataFrame F) :=
  let fetch_and_store assets :=
    match fetch assets metrics start end_ [] with
    | Err err => (e, Err ("engine: fetch intraday fill window: " +:+ err)%string)
    | Ok window =>
        let covered := fold_left (λ s a, <[CompositeFigi a := true]> s) assets ∅ in
        (set_intradayFill (Some (mkFillCache (currentTime e) assets covered window)) e, Ok window)
    end in
  match intradayFill e with
  | Some fc =>
      if Equal (fc_firingTime fc) (currentTime e) then
        if covers fc assets then (e, Ok (fc_window fc)) else fetch_and_store (unionAssets (fc_assets fc) assets)
      else fetch_and_store assets
  | None => fetch_and_store assets
  end.

Inductive PriceFailure : Type := ErrNoMinuteBar | OtherFailure (err : error).

Definition minute : Z := 60 * ns_per_sec.
Definition bar_metrics : list Metric := [MetricClose; MetricHigh; MetricLow; Volume].

(** The first bar at which any of the assets traded. *)
Definition earliest_bar (sliced : DataFrame F) (assets : list Asset) : option (DataFrame F) :=
  head (omap (λ ts, if existsb (λ a, negb (is_nan (ValueAt sliced a MetricClose ts))) assets
                    then Some (At sliced ts) else None) (df_times sliced)).

Definition nextMinuteBar e (assets : list Asset) : Engine F * (DataFrame F + PriceFailure) :=
  match findIntradayProvider e with
  | None => (e, inr (OtherFailure
      "engine: intra-day firing requires an IntradayProvider for order fills; none registered"))
  | Some fetch =>
      match intradayFillWindow e fetch assets bar_metrics
              (AddDur (currentTime e) minute) (AddDur (currentTime e) (6 * minute)) with
      | (e, Err err) => (e, inr (OtherFailure err))
      | (e, Ok window) =>
          match earliest_bar (Assets window assets) assets with
          | Some df => (e, inl df)
          | None => (e, inr ErrNoMinuteBar)
          end
      end
  end.

(** [Prices] *)
Definition engine_Prices (fuel : nat) e (assets : list Asset) : option (Engine F * (DataFrame F + PriceFailure)) :=
  if isIntradayFiring e then Some (nextMinuteBar e assets)
  else
    '(e, r) ← engine_FetchAt fuel e assets (currentDate e)
                [MetricClose; MetricHigh; MetricLow; Volume; Dividend; SplitFactor];
    Some (e, match r with Ok df => inl df | Err err => inr (OtherFailure err) end).

Definition markBarLookback : Z := 6 * minute.

(** The last timestamp of the window at which the asset has a close. *)
Definition mark_time (window : DataFrame F) a : option Time :=
  last (keep (λ ts, negb (is_nan (ValueAt window a MetricClose ts))) (df_times window)).

Definition mark_cells (window : DataFrame F) (prior : option (DataFrame F)) a : option (list (list F)) :=
  match mark_time window a, prior with
  | Some ts, _ => Some ((λ m, [ValueAt window a m ts]) <$> bar_metrics)
  | None, None => None
  | None, Some p => if is_nan (Value p a MetricClose) then None
                    else Some ((λ m, [Value p a m]) <$> bar_metrics)
  end.

Fixpoint mark_columns e (window : DataFrame F) (prior : option (DataFrame F)) (assets : list Asset) :
    result (list (list F)) :=
  match assets with
  | [] => Ok []
  | a :: rest =>
      match mark_cells window prior a with
      | None => Err ("engine: no minute bar and no prior mark for " +:+ Ticker a)%string
      | Some cells => app cells <$> mark_columns e window prior rest
      end
  end.

Definition markBar e (assets : list Asset) (prior : option (DataFrame F)) : result (DataFrame F) :=
  match findIntradayProvider e with
  | None => Err "engine: intra-day firing requires an IntradayProvider for live marks; none registered"
  | Some fetch =>
      window ← wrapped "engine: fetch mark bar"
                 (fetch assets bar_metrics (AddDur (currentTime e) (- markBarLookback)) (currentTime e) []);
      cols ← mark_columns e window prior assets;
      wrapped "engine: build mark bar frame" (NewDataFrame [currentTime e] assets bar_metrics Tick cols)
  end.
End Fetch.
