(* ===== verification/Engine.v ===== *)
(** * Engine: the parts of a daily step ([engine/backtest.go],
    [engine/engine.go], [engine/margin_call.go], [engine/child_allocations.go],
    [engine/metrics.go], [engine/strategy.go])

    Housekeeping of an account, the marks of a day and of an intra-day firing,
    one firing of a strategy, and the metric rows of a strategy date.  A
    strategy is a record of its callbacks; what the strategies remember is one
    value that [Compute] is given and returns.

    A broker holds the engine as its price provider: [price_provider] is the
    engine's [Prices] at the engine's current state.  What a broker's price
    request leaves in the engine's caches is not carried on. *)
From Stdlib Require Import ZArith.
From stdpp Require Import base list gmap strings pretty.
From S2P Require Import Prelude Num GoTime Asset Period Frame Metrics FrameOps Schedule Provider DataCache Fetch.
From S2P Require Import Broker Lots Ledger Account Batch Exec SimBroker MarginCall.

(** A step of the engine: nothing when it panics, an error, or a value. *)
Definition Run (A : Type) : Type := option (result A).
Definition run_bind {A B} (m : Run A) (k : A → Run B) : Run B :=
  match m with
  | None => None
  | Some (Err e) => Some (Err e)
  | Some (Ok a) => k a
  end.
Definition run_ok {A} (a : A) : Run A := Some (Ok a).
Definition run_in {A} (label : string) (m : Run A) : Run A := wrapped label <$> m.

Declare Scope run_scope.
Delimit Scope run_scope with run.
Notation "x ←! m ; k" := (run_bind m (λ x, k)) (at level 20, m at level 100, k at level 200, right associativity) : run_scope.
Notation "' x ←! m ; k" := (run_bind m (λ x, k)) (at level 20, x pattern, m at level 100, k at level 200, right associativity) : run_scope.

Section Engine.
Context {F : Type} `{Num F} `{NumPow F} {tz : TZDB} {fx : FmtFloat F} {go : GoMapOrder} {srt : GoSort} {sched : GoSched}.
Context {S : Type}.
(* the fuel of forward filling in a prediction *)
Context (fuel : nat).
Local Open Scope num_scope.
Local Open Scope run_scope.
Implicit Types (e : Engine F) (a : Account F) (k : SimulatedBroker F) (b : Batch F) (date : Time).

(** The engine as the price provider of a broker. *)
Definition price_provider e : PriceProvider F := λ assets,
  match engine_Prices fuel e assets with
  | Some (_, inl df) => inl df
  | Some (_, inr ErrNoMinuteBar) => inr (NoMinuteBar "no minute bar")
  | Some (_, inr (OtherFailure err)) => inr (FetchError err)
  | None => inr (FetchError "forward-fill")
  end.

Definition run_FetchAt e (assets : list Asset) (t : Time) (metrics : list Metric) : Run (Engine F * DataFrame F) :=
  match engine_FetchAt fuel e assets t metrics with
  | None => None
  | Some (e, Err err) => Some (Err err)
  | Some (e, Ok df) => run_ok (e, df)
  end.

Definition held_assets a : list Asset := (range (Holdings a)).*1.
Definition with_benchmark (benchmark : Asset) (assets : list Asset) : list Asset :=
  if decide (benchmark = zero_asset) then assets else assets ++ [benchmark].

(** ** Warming the cache *)
Definition prefetchBrokerPrices e (orders : list (Order F)) : Run (Engine F) :=
  match orders with
  | [] => run_ok e
  | _ =>
      match engine_Prices fuel e (assets_by_figi (o_Asset <$> orders)) with
      | None => None
      | Some (e, inl _) | Some (e, inr ErrNoMinuteBar) => run_ok e
      | Some (_, inr (OtherFailure err)) => Some (Err ("prefetch broker prices: " +:+ err)%string)
      end
  end.

Definition prefetchHousekeepingPrices e a date (benchmark : Asset) : Run (Engine F) :=
  match with_benchmark benchmark (held_assets a) with
  | [] => run_ok e
  | assets =>
      '(e, _) ←! run_in "prefetch housekeeping prices"
        (run_FetchAt e assets date [MetricClose; AdjClose; MetricHigh; MetricLow; Volume; Dividend; SplitFactor]);
      run_ok e
  end.

(** ** Housekeeping: the fills of the step before, then the broker's own
    transactions *)
Definition DrainFills a k : Account F * SimulatedBroker F :=
  let s := drainFills (mkExec a k None 0) in (es_account s, es_broker s).

Definition housekeepAccount a k : result (Account F * SimulatedBroker F) :=
  let '(a, k) := DrainFills a k in
  match Transactions (view a) k with
  | (k, Err err) => Err ("engine: broker transactions: " +:+ err)%string
  | (k, Ok txns) =>
      match SyncTransactions txns (ledger a) with
      | (L, Some err) => Err ("engine: sync transactions: " +:+ err)%string
      | (L, None) => Ok (set_ledger L a, k)
      end
  end.

(** ** Marks *)
Definition setMarginPrices e a date : Run (Engine F * Account F) :=
  match held_assets a with
  | [] => run_ok (e, a)
  | assets =>
      '(e, df) ←! run_in "engine: margin price fetch" (run_FetchAt e assets date [MetricClose]);
      run_ok (e, SetPrices df a)
  end.

Definition markIntradayPrices e a : result (Account F) :=
  if negb (isIntradayFiring e) then Ok a
  else match held_assets a with
       | [] => Ok a
       | assets => (λ df, SetPrices df a) <$> wrapped "engine: mark intraday prices" (markBar e assets (prices a))
       end.

Definition YieldToCumulative (annualYieldPct prevCumulative : F) : F :=
  if prevCumulative =? 0 then of_Z 100
  else if annualYieldPct <=? 0 then prevCumulative
  else
    let dailyReturn := fpow (1 + annualYieldPct / of_Z 100) (1 / of_Z 252) - 1 in
    prevCumulative * (1 + dailyReturn).

Definition SetRiskFreeValue (v : F) a : Account F :=
  let h := history a in
  set_history (mkHistory (perfData h) (positionMV h) (positionQty h) (benchmark h) v) a.

(** The cumulative risk-free value after a day; a failed fetch leaves it. *)
Definition advance_risk_free e (rfAsset : Asset) (riskFree : F) date : option (Engine F * F) :=
  match engine_FetchAt fuel e [rfAsset] date [MetricClose] with
  | None => None
  | Some (e, Err _) => Some (e, riskFree)
  | Some (e, Ok df) =>
      let yield_ := Value df rfAsset MetricClose in
      Some (e, if negb (is_nan yield_) && (yield_ >? 0) then YieldToCumulative yield_ riskFree
               else if riskFree =? 0 then of_Z 100 else riskFree)
  end.

(** A day's frame is marked, cash only when there is nothing to price. *)
Definition mark_day (df : DataFrame F) a : Account F := UpdateExcursions df (UpdatePrices df a).

Definition updateAccountPrices e (rfAsset : Asset) (riskFree : F) a date (benchmark : Asset) :
    Run (Engine F * F * Account F) :=
  let priceAssets := with_benchmark benchmark (held_assets a) in
  match (if negb (bool_decide (benchmark = zero_asset)) && riskFreeResolved e
         then advance_risk_free e rfAsset riskFree date else Some (e, riskFree)) with
  | None => None
  | Some (e, riskFree) =>
      let a := SetRiskFreeValue riskFree a in
      match priceAssets with
      | [] =>
          df ←! run_in "engine: cash-only DataFrame" (Some (NewDataFrame [date] [] [] Daily []));
          run_ok (e, riskFree, mark_day df a)
      | _ =>
          '(e, df) ←! run_in "engine: price fetch"
            (run_FetchAt e priceAssets date [MetricClose; AdjClose; MetricHigh; MetricLow]);
          run_ok (e, riskFree, mark_day df a)
      end
  end.
End Engine.
