(* ===== verification/Backtest.v ===== *)
(** * Backtest: the engine's run over a range of days ([engine/backtest.go],
    [engine/child.go], [engine/child_allocations.go], [engine/metrics.go],
    [engine/engine.go])

    The dates and firings of a run, one step of the loop, the loop, the
    prediction that follows it and the run itself.  The run starts from an
    engine, an account and children that are already configured.

    A strategy is a record of its callbacks, a schedule the function [Next] of
    its [TradeCron]; what the strategies remember is one value that [Compute]
    is given and returns.  The broker is the simulated broker. *)
From Stdlib Require Import ZArith.
From stdpp Require Import base list gmap strings pretty.
From S2P Require Import Prelude Num GoTime Asset Period Frame Metrics FrameOps Schedule Provider DataCache Fetch.
From S2P Require Import Broker Lots Ledger Account Batch Exec SimBroker MarginCall Engine.

(** [None] when [Next] panics. *)
Definition NextFn : Type := Time → option Time.

(** ** Dates *)
Section Dates.
Context {tz : TZDB}.
Implicit Types (next : NextFn).
Local Open Scope Z_scope.

(** The firings from [cur] to [end_]; nothing when the fuel runs out. *)
Fixpoint enumerate_from (fuel : nat) next (end_ cur : Time) : option (list Time) :=
  match fuel with
  | O => None
  | S fuel =>
      if After cur end_ then Some []
      else
        following ← next (AddDur cur 1);
        rest ← enumerate_from fuel next end_ following;
        Some (cur :: rest)
  end.
Definition enumerate (fuel : nat) next (start end_ : Time) : option (list Time) :=
  cur ← next (AddDur start (-1));
  enumerate_from fuel next end_ cur.

(** The key of a day, [Format("2006-01-02")]. *)
Definition cal_key (t : Time) : string := format_date t.
Definition group_by_date (firings : list Time) : gmap string (list Time) :=
  fold_left (λ m t, <[cal_key t := lookup_d [] m (cal_key t) ++ [t]]> m) firings ∅.

Record backtestStep : Type := mkStep {
  date : Time;
  parentFirings : list Time;
  childFirings : gmap string (list Time);
}.

(** The children that fire on a day. *)
Definition child_fires (childFiringsByDate : gmap string (gmap string (list Time))) (names : list string)
    (calKey : string) : gmap string (list Time) :=
  fold_left (λ m name,
    match lookup_d [] (lookup_d ∅ childFiringsByDate name) calKey with
    | [] => m
    | firings => <[name := firings]> m
    end) names ∅.

Definition steps_of (dates parent : list Time) (children : list (string * list Time)) : list backtestStep :=
  let parentFiringsByDate := group_by_date parent in
  let childFiringsByDate := fold_left (λ m nf, <[nf.1 := group_by_date nf.2]> m) children ∅ in
  (λ d, mkStep d (lookup_d [] parentFiringsByDate (cal_key d))
          (child_fires childFiringsByDate children.*1 (cal_key d))) <$> dates.

(** The end of the last day, in New York. *)
Definition end_of_day (end_ : Time) : Time :=
  let endLocal := InLoc end_ nyc in
  Date (Year endLocal) (Month endLocal) (Day endLocal) 23 59 59 999999999 nyc.
End Dates.

(** ** Metric rows of a strategy date *)
Section MetricRows.
Context {F Stats : Type}.

Record PerformanceMetric : Type := mkMetric {
  pm_Name : string;
  pm_Compute : Stats → option Period → result F;
  pm_BenchmarkTargetable : bool;
}.
Record MetricRow : Type := mkMetricRow { mr_Date : Time; mr_Name : string; mr_Window : string; mr_Value : F }.

Definition standardWindows : list Period :=
  [Years 10; Years 5; Years 3; Years 1; mkPeriod 0 UnitYTD []; mkPeriod 0 UnitMTD []; mkPeriod 0 UnitWTD []].

Definition windowLabel (p : Period) : string :=
  match Unit p with
  | UnitYear => pretty (N p) +:+ "yr"
  | UnitMonth => pretty (N p) +:+ "mo"
  | UnitDay => pretty (N p) +:+ "d"
  | UnitYTD => "ytd"
  | UnitMTD => "mtd"
  | UnitWTD => "wtd"
  | _ => "unknown"
  end%string.

(** One metric over one window; a failing metric has no row. *)
Definition emit (date : Time) (source : Stats) (namePrefix : string) (m : PerformanceMetric)
    (window : option Period * string) : list MetricRow :=
  match pm_Compute m source window.1 with
  | Err _ => []
  | Ok val => [mkMetricRow date (namePrefix +:+ pm_Name m) window.2 val]
  end.

Definition metric_windows : list (option Period * string) :=
  (None, "since_inception"%string) :: ((λ w, (Some w, windowLabel w)) <$> standardWindows).

(** The rows that are appended. *)
Definition computeMetrics (benchmarkStats : Stats → result Stats) (stats : Stats) (date : Time)
    (metrics : list PerformanceMetric) : list MetricRow :=
  (m ← metrics; w ← metric_windows; emit date stats "" m w) ++
  match benchmarkStats stats with
  | Err _ => []
  | Ok benchStats => m ← keep pm_BenchmarkTargetable metrics; w ← metric_windows; emit date benchStats "Benchmark" m w
  end.
End MetricRows.
Arguments PerformanceMetric : clear implicits.
Arguments MetricRow : clear implicits.

Section Backtest.
Context {F : Type} `{Num F} `{NumPow F} {tz : TZDB} {fx : FmtFloat F} {go : GoMapOrder} {srt : GoSort} {sched : GoSched}.
(* what the strategies remember *)
Context {S : Type}.
Context (fuel : nat).
Local Open Scope num_scope.
Local Open Scope run_scope.
Implicit Types (e : Engine F) (a : Account F) (k : SimulatedBroker F) (b : Batch F).

(** What [Compute] can read of the children: name, declared weight, account. *)
Definition ChildView : Type := string * F * Account F.

(** What [Compute] leaves. *)
Record Computed : Type := mkComputed {
  co_mem : S; co_engine : Engine F; co_account : Account F; co_batch : Batch F; co_err : option error;
}.

Record Strategy : Type := mkStrategy {
  st_Name : string;
  st_Compute : S → Engine F → list ChildView → Account F → Batch F → Computed;
  st_OnMarginCall : option (Engine F → Handler (F := F));
  st_Reconcile : option (Engine F → Handler (F := F));
}.

Record childEntry : Type := mkChild {
  ch_strategy : Strategy;
  ch_name : string;
  ch_weight : F;
  (* a child need not have a schedule *)
  ch_schedule : option NextFn;
  ch_account : Account F;
  ch_broker : SimulatedBroker F;
}.
Definition set_child a k (c : childEntry) : childEntry :=
  mkChild (ch_strategy c) (ch_name c) (ch_weight c) (ch_schedule c) a k.

Definition child_views (children : list childEntry) : list ChildView :=
  (λ c, (ch_name c, ch_weight c, ch_account c)) <$> children.

(** ** Child allocations *)
Definition child_weights (children : list ChildView) (overrides : option (gmap string F)) : gmap string F :=
  let declared := fold_left (λ m (c : ChildView), <[c.1.1 := c.1.2]> m) children ∅ in
  match overrides with
  | None => declared
  | Some o => fold_left (λ m (nw : string * F), <[nw.1 := nw.2]> m) (range o) declared
  end.

Definition add_member (ast : Asset) (w : F) (members : gmap Asset F) : gmap Asset F :=
  <[ast := lookup_d 0 members ast + w]> members.

(** One child's holdings, scaled by its weight. *)
Definition expand_child (weights : gmap string F) (members : gmap Asset F) (c : ChildView) : gmap Asset F :=
  let '(name, _, a) := c in
  let childWeight := lookup_d 0 weights name in
  if childWeight =? 0 then members
  else
    let childValue := account_Value a in
    if childValue =? 0 then add_member CashAsset childWeight members
    else
      let cashFraction := Cash a / childValue in
      let members := if cashFraction >? 0 then add_member CashAsset (childWeight * cashFraction) members else members in
      fold_left (λ members held, add_member held (childWeight * (PositionValue a held / childValue)) members)
        (range (Holdings a)).*1 members.

Definition ChildAllocations e (children : list ChildView) (overrides : option (gmap string F)) :
    result (Allocation F) :=
  match children with
  | [] => Ok (mkAlloc zero_time ∅ "")
  | _ =>
      let weights := child_weights children overrides in
      let totalWeight := fold_left (λ sum (nw : string * F), sum + nw.2) (range weights) 0 in
      if totalWeight >? 1 + lit 1 1000000000 then Err "engine: child weights sum to more than 1.0"
      else Ok (mkAlloc (currentDate e) (fold_left (expand_child weights) children ∅) "")
  end.
Definition ChildPortfolios (children : list ChildView) : gmap string (Account F) :=
  fold_left (λ m (c : ChildView), <[c.1.1 := c.2]> m) children ∅.

(** ** One firing of a strategy *)

(** The broker prices at the engine's state of the moment. *)
Definition see e date k : SimulatedBroker F := SetPriceProvider (price_provider fuel e) date k.

Definition CancelOpen a k : Account F * SimulatedBroker F :=
  let s := CancelOpenOrders (mkExec a k None 0) in (es_account s, es_broker s).

(** [prefetchBrokerPrices] as the reconciliation calls it. *)
Definition prefetch_error e (orders : list (Order F)) : option error :=
  match prefetchBrokerPrices fuel e orders with
  | Some (Err err) => Some err
  | _ => None
  end.

(** The state a firing works on. *)
Record Firing : Type := mkFiring {
  fi_mem : S; fi_engine : Engine F; fi_account : Account F; fi_broker : SimulatedBroker F;
}.

(** From the mark to the reconciliation.  [pending] tells a child, whose
    pending orders are evaluated at its firings. *)
Definition fire (who whose : string) (st : Strategy) (mws : list (Middleware F)) (pending : bool)
    (children : list ChildView) (date fireTime : Time) (f : Firing) : Run Firing :=
  let e := set_clock (currentDate (fi_engine f)) fireTime (fi_engine f) in
  let k := see e date (fi_broker f) in
  a ←! run_in ("engine: " +:+ who +:+ "mark intraday prices") (Some (markIntradayPrices e (fi_account f)));
  let k := if pending then EvaluatePending k else k in
  let '(a, k) := CancelOpen a k in
  let c := st_Compute st (fi_mem f) e children a (NewBatch fireTime) in
  match co_err c with
  | Some err => Some (Err ("engine: " +:+ whose +:+ "compute: " +:+ err)%string)
  | None =>
      e ←! run_in ("engine: " +:+ who +:+ "prefetch broker prices")
             (prefetchBrokerPrices fuel (co_engine c) (b_Orders (co_batch c)));
      let '(a, k, b, err) := ExecuteBatch mws (co_account c) (see e date k) (co_batch c) in
      match err with
      | Some err => Some (Err ("engine: " +:+ who +:+ "execute batch: " +:+ err)%string)
      | None =>
          let '(a, k, _, err) := reconcileBatch ((λ r, r e) <$> st_Reconcile st) (prefetch_error e) mws a k b in
          match err with
          | Some err => Some (Err ("engine: " +:+ who +:+ "reconcile batch: " +:+ err)%string)
          | None => run_ok (mkFiring (co_mem c) e a k)
          end
      end
  end.

(** The firings of one strategy on one day, in order. *)
Fixpoint fire_all (who whose : string) (st : Strategy) (mws : list (Middleware F)) (pending : bool)
    (children : Account F → SimulatedBroker F → list ChildView) (date : Time) (firings : list Time) (f : Firing) :
    Run Firing :=
  match firings with
  | [] => run_ok f
  | t :: rest =>
      f ←! fire who whose st mws pending (children (fi_account f) (fi_broker f)) date t f;
      fire_all who whose st mws pending children date rest f
  end.
(** ** The state of a run *)
Record World : Type := mkWorld {
  w_mem : S;
  w_engine : Engine F;
  w_account : Account F;
  w_broker : SimulatedBroker F;
  w_children : list childEntry;
  w_riskFree : F;
  w_rows : list (MetricRow F);
  w_measurements : nat;
}.

Record Config : Type := mkConfig {
  strategy : Strategy;
  schedule : NextFn;
  dailySchedule : NextFn;
  benchmarkAsset : Asset;
  riskFreeAssetDGS : Asset;
  middleware : list (Middleware F);
  registeredMetrics : list (PerformanceMetric F (Account F));
  benchmarkStats : Account F → result (Account F);
}.
Implicit Types (w : World) (cfg : Config) (c : childEntry).

Definition put_engine e w : World :=
  mkWorld (w_mem w) e (w_account w) (w_broker w) (w_children w) (w_riskFree w) (w_rows w) (w_measurements w).
Definition put_books e a k w : World :=
  mkWorld (w_mem w) e a k (w_children w) (w_riskFree w) (w_rows w) (w_measurements w).
Definition put_marks e a (riskFree : F) w : World :=
  mkWorld (w_mem w) e a (w_broker w) (w_children w) riskFree (w_rows w) (w_measurements w).
Definition put_parent (f : Firing) w : World :=
  mkWorld (fi_mem f) (fi_engine f) (fi_account f) (fi_broker f) (w_children w) (w_riskFree w) (w_rows w) (w_measurements w).
Definition put_child (i : nat) c (f : Firing) w : World :=
  mkWorld (fi_mem f) (fi_engine f) (w_account w) (w_broker w)
    (<[i := set_child (fi_account f) (fi_broker f) c]> (w_children w)) (w_riskFree w) (w_rows w) (w_measurements w).
Definition put_rows (rows : list (MetricRow F)) w : World :=
  mkWorld (w_mem w) (w_engine w) (w_account w) (w_broker w) (w_children w) (w_riskFree w)
    (w_rows w ++ rows) (w_measurements w + length rows).

(** [e.currentTime = t] *)
Definition at_time (t : Time) w : World := put_engine (set_clock (currentDate (w_engine w)) t (w_engine w)) w.

(** The children as [Compute] reads them while child [i] has these books. *)
Definition views_with (i : nat) c (children : list childEntry) a k : list ChildView :=
  child_views (<[i := set_child a k c]> children).

(** ** One step *)

(** Steps 11 to 14: pending orders, housekeeping, margin. *)
Definition open_day cfg (d : Time) w : Run World :=
  let e := set_clock d d (w_engine w) in
  let k := EvaluatePending (see e d (w_broker w)) in
  e ←! run_in "engine: prefetch housekeeping prices" (prefetchHousekeepingPrices fuel e (w_account w) d (benchmarkAsset cfg));
  '(a, k) ←! Some (housekeepAccount (w_account w) (see e d k));
  '(e, a) ←! setMarginPrices fuel e a d;
  match checkAndHandleMarginCall ((λ h, h e) <$> st_OnMarginCall (strategy cfg)) (middleware cfg) d a (see e d k) with
  | (_, _, Some err) => Some (Err ("engine: margin call: " +:+ err)%string)
  | (a, k, None) => run_ok (put_books e a k w)
  end.

(** The child a name stands for: the last of that name. *)
Definition child_index (children : list childEntry) (name : string) : option nat :=
  index_of (ch_name <$> children) !! name.

Definition run_child (d : Time) w (nf : string * list Time) : Run World :=
  let '(name, firings) := nf in
  match child_index (w_children w) name with
  | None => run_ok w
  | Some i =>
      match w_children w !! i with
      | None => run_ok w
      | Some c =>
          let who := ("child " +:+ name +:+ " ")%string in
          f ←! fire_all who who (ch_strategy c) [] true (views_with i c (w_children w)) d firings
                 (mkFiring (w_mem w) (w_engine w) (ch_account c) (ch_broker c));
          run_ok (at_time d (put_child i c f w))
      end
  end.

Fixpoint run_children (d : Time) (fires : list (string * list Time)) w : Run World :=
  match fires with
  | [] => run_ok w
  | nf :: rest => w ←! run_child d w nf; run_children d rest w
  end.

Definition run_parent cfg (step : backtestStep) w : Run World :=
  match parentFirings step with
  | [] => run_ok w
  | firings =>
      let st := strategy cfg in
      f ←! fire_all "" ("strategy " +:+ st_Name st +:+ " ")%string st (middleware cfg) false
             (λ _ _, child_views (w_children w)) (date step) firings
             (mkFiring (w_mem w) (w_engine w) (w_account w) (w_broker w));
      run_ok (at_time (date step) (put_parent f w))
  end.

(** The end-of-day mark of the parent. *)
Definition mark_parent cfg (d : Time) w : Run World :=
  '(e, rf, a) ←! updateAccountPrices fuel (w_engine w) (riskFreeAssetDGS cfg) (w_riskFree w) (w_account w) d (benchmarkAsset cfg);
  run_ok (put_marks e a rf w).

(** The housekeeping and the mark of child [i]. *)
Definition close_child cfg (d : Time) w (i : nat) : Run World :=
  match w_children w !! i with
  | None => run_ok w
  | Some c =>
      let who := ("engine: child " +:+ ch_name c +:+ " ")%string in
      let k := see (w_engine w) d (ch_broker c) in
      e ←! run_in (who +:+ "prefetch housekeeping") (prefetchHousekeepingPrices fuel (w_engine w) (ch_account c) d zero_asset);
      '(a, k) ←! run_in (who +:+ "housekeeping") (Some (housekeepAccount (ch_account c) (see e d k)));
      '(e, rf, a) ←! run_in (who +:+ "price update")
         (updateAccountPrices fuel e (riskFreeAssetDGS cfg) (w_riskFree w) a d zero_asset);
      run_ok (put_child i c (mkFiring (w_mem w) e a k) (put_marks e (w_account w) rf w))
  end.

Fixpoint close_children cfg (d : Time) (idxs : list nat) w : Run World :=
  match idxs with
  | [] => run_ok w
  | i :: rest => w ←! close_child cfg d w i; close_children cfg d rest w
  end.

(** Metric rows on strategy dates, and the eviction of old cache entries. *)
Definition close_day cfg (step : backtestStep) w : World :=
  let w := match parentFirings step with
           | [] => w
           | _ => put_rows (computeMetrics (benchmarkStats cfg) (w_account w) (date step) (registeredMetrics cfg)) w
           end in
  let e := w_engine w in
  put_engine (set_cache (evictBefore (date step) <$> cache e) e) w.

Definition run_step cfg w (step : backtestStep) : Run World :=
  let d := date step in
  w ←! open_day cfg d w;
  w ←! run_children d (range (childFirings step)) w;
  w ←! run_parent cfg step w;
  w ←! mark_parent cfg d w;
  w ←! close_children cfg d (seq 0 (length (w_children w))) w;
  run_ok (close_day cfg step w).

Fixpoint run_steps cfg (steps : list backtestStep) w : Run World :=
  match steps with
  | [] => run_ok w
  | step :: rest => w ←! run_step cfg w step; run_steps cfg rest w
  end.

(** ** Prediction *)
Record PredictedHolding : Type := mkHolding { ph_Asset : Asset; ph_Quantity : F; ph_MarketValue : F }.
Record Prediction : Type := mkPrediction {
  pr_Date : Time;
  pr_Transactions : list (Transaction F);
  pr_Holdings : list PredictedHolding;
  pr_Annotations : list Annotation;
}.

(** The accounts a prediction works on are objects with their brokers, and the
    engine's variables refer to them: a prediction that forgot to clone would
    write to the objects of the run. *)
Record childRef : Type := mkRef {
  rf_strategy : Strategy; rf_name : string; rf_weight : F; rf_schedule : option NextFn; rf_object : nat;
}.
Definition refer (c : childEntry) (i : nat) : childRef := mkRef (ch_strategy c) (ch_name c) (ch_weight c) (ch_schedule c) i.
Definition deref (objs : list (Account F * SimulatedBroker F)) (r : childRef) : option childEntry :=
  (λ ak : Account F * SimulatedBroker F, mkChild (rf_strategy r) (rf_name r) (rf_weight r) (rf_schedule r) ak.1 ak.2) <$> objs !! rf_object r.

Record Scene : Type := mkScene {
  sn_mem : S; sn_engine : Engine F; sn_account : nat; sn_children : list childRef; sn_objects : list (Account F * SimulatedBroker F);
}.
Implicit Types (sn : Scene) (objs : list (Account F * SimulatedBroker F)) (r : childRef).
Definition sn_put_engine e sn : Scene := mkScene (sn_mem sn) e (sn_account sn) (sn_children sn) (sn_objects sn).
Definition sn_put_children (rs : list childRef) sn : Scene :=
  mkScene (sn_mem sn) (sn_engine sn) (sn_account sn) rs (sn_objects sn).

(** The objects of a run: the account's first, then the children's. *)
Definition scene_of w : Scene :=
  mkScene (w_mem w) (w_engine w) 0 (imap (λ i c, refer c (Datatypes.S i)) (w_children w))
    ((w_account w, w_broker w) :: ((λ c, (ch_account c, ch_broker c)) <$> w_children w)).
Definition world_of sn w : option World :=
  ak ← sn_objects sn !! sn_account sn;
  children ← mapM (deref (sn_objects sn)) (sn_children sn);
  Some (mkWorld (sn_mem sn) (sn_engine sn) ak.1 ak.2 children (w_riskFree w) (w_rows w) (w_measurements w)).

(** [Clone] and [SetBroker] with a shadow broker: a new object. *)
Definition clone_object (i : nat) sn : option (Scene * nat) :=
  ak ← sn_objects sn !! i;
  Some (mkScene (sn_mem sn) (sn_engine sn) (sn_account sn) (sn_children sn) (sn_objects sn ++ [(Clone ak.1, NewSimulatedBroker)]),
        length (sn_objects sn)).
Fixpoint clone_children (rs : list childRef) sn : option (Scene * list childRef) :=
  match rs with
  | [] => Some (sn, [])
  | r :: rest =>
      '(sn, i) ← clone_object (rf_object r) sn;
      '(sn, clones) ← clone_children rest sn;
      Some (sn, mkRef (rf_strategy r) (rf_name r) (rf_weight r) (rf_schedule r) i :: clones)
  end.

(** [Compute] and [ExecuteBatch] on the object [i]. *)
Definition predict_on (whose execute : string) (st : Strategy) (mws : list (Middleware F)) (d : Time) (i : nat) sn : Run Scene :=
  match sn_objects sn !! i, mapM (deref (sn_objects sn)) (sn_children sn) with
  | Some (a, k), Some children =>
      let k := see (sn_engine sn) d k in
      let c := st_Compute st (sn_mem sn) (sn_engine sn) (child_views children) a (NewBatch d) in
      match co_err c with
      | Some err => Some (Err ("engine: PredictedPortfolio " +:+ whose +:+ "compute: " +:+ err)%string)
      | None =>
          match ExecuteBatch mws (co_account c) (see (co_engine c) d k) (co_batch c) with
          | (_, _, _, Some err) => Some (Err ("engine: PredictedPortfolio " +:+ whose +:+ execute +:+ ": " +:+ err)%string)
          | (a, k, _, None) =>
              run_ok (mkScene (co_mem c) (co_engine c) (sn_account sn) (sn_children sn) (<[i := (a, k)]> (sn_objects sn)))
          end
      end
  | _, _ => None
  end.

(** A child scheduled on the predicted date computes on its clone. *)
Definition predict_child (d : Time) sn r : Run Scene :=
  match rf_schedule r with
  | None => run_ok sn
  | Some next =>
      match next (AddDur d (-1)) with
      | None => None
      | Some nextChildDate =>
          if negb (bool_decide (cal_key nextChildDate = cal_key d)) then run_ok sn
          else predict_on ("child " +:+ rf_name r +:+ " ")%string "execute" (rf_strategy r) [] d (rf_object r) sn
      end
  end.

Fixpoint predict_children (d : Time) (rs : list childRef) sn : Run Scene :=
  match rs with
  | [] => run_ok sn
  | r :: rest => sn ←! predict_child d sn r; predict_children d rest sn
  end.

(** Clones for the account and the children, the engine at the predicted
    firing; at the end, as deferred, clock and children are put back. *)
Definition PredictedPortfolio cfg w : Run (World * Account F) :=
  match schedule cfg (currentDate (w_engine w)) with
  | None => None
  | Some d =>
      match clone_object (sn_account (scene_of w)) (scene_of w) with
      | None => None
      | Some (sn, clone) =>
          let savedChildren := sn_children sn in
          match clone_children savedChildren sn with
          | None => None
          | Some (sn, clones) =>
              let sn := sn_put_children clones sn in
              let savedDate := currentDate (sn_engine sn) in
              let savedTime := currentTime (sn_engine sn) in
              let sn := sn_put_engine (set_predicting true (set_clock d d (sn_engine sn))) sn in
              sn ←! predict_children d clones sn;
              sn ←! predict_on "" "execute batch" (strategy cfg) (middleware cfg) d clone sn;
              let sn := sn_put_children savedChildren
                          (sn_put_engine (set_predicting false (set_clock savedDate savedTime (sn_engine sn))) sn) in
              match world_of sn w, sn_objects sn !! clone with
              | Some w, Some ak => run_ok (w, ak.1)
              | _, _ => None
              end
          end
      end
  end.

(** By ticker, then FIGI. *)
Definition holding_less (x y : PredictedHolding) : bool :=
  if bool_decide (Ticker (ph_Asset x) = Ticker (ph_Asset y))
  then string_less (CompositeFigi (ph_Asset x)) (CompositeFigi (ph_Asset y))
  else string_less (Ticker (ph_Asset x)) (Ticker (ph_Asset y)).

Definition recordPrediction cfg w : Run (World * Prediction) :=
  match schedule cfg (currentDate (w_engine w)) with
  | None => None
  | Some predictedDate =>
      let baseTxnCount := length (transactions (ledger (w_account w))) in
      let baseAnnCount := length (annotations (w_account w)) in
      '(w, predicted) ←! PredictedPortfolio cfg w;
      let holdings := (λ h : Asset * F, mkHolding h.1 h.2 (PositionValue predicted h.1)) <$> range (Holdings predicted) in
      run_ok (w, mkPrediction predictedDate
        (drop baseTxnCount (transactions (ledger predicted)))
        (sort_slice holding_less holdings)
        (drop baseAnnCount (annotations predicted)))
  end.

(** ** Phases 2 to 4 of [Backtest] *)

(** The children that have a schedule. *)
Definition scheduled (children : list childEntry) : list (string * NextFn) :=
  omap (λ c, pair (ch_name c) <$> ch_schedule c) children.
Definition plan (n : nat) cfg (children : list childEntry) (start end_ : Time) : option (list backtestStep) :=
  parent ← enumerate n (schedule cfg) start end_;
  children ← mapM (λ cs : string * NextFn, pair cs.1 <$> enumerate n cs.2 start end_) (scheduled children);
  dates ← enumerate n (dailySchedule cfg) start end_;
  Some (steps_of dates parent children).

Definition Backtest (n : nat) cfg (start end_ : Time) w : Run (World * option Prediction) :=
  match plan n cfg (w_children w) start end_ with
  | None => None
  | Some steps =>
      w ←! run_steps cfg steps w;
      match steps with
      | [] => run_ok (w, None)
      | _ =>
          '(w, p) ←! run_in "engine: predicting next trade date" (recordPrediction cfg w);
          run_ok (w, Some p)
      end
  end.
End Backtest.
Arguments Computed : clear implicits.
Arguments Strategy : clear implicits.
Arguments childEntry : clear implicits.
Arguments Firing : clear implicits.
Arguments World : clear implicits.
Arguments Config : clear implicits.
Arguments Scene : clear implicits.
Arguments childRef : clear implicits.
