(* ===== verification/Setup.v ===== *)
(** * Setup: what a backtest does before its first step
    ([engine/warmup.go], [engine/stale_data.go], [engine/engine.go],
    [engine/backtest.go], [engine/child.go], [portfolio/snapshot.go])

    The children found on a strategy, the check that every asset has enough
    history before the first day, the last day for which prices can be
    expected, the account a run starts from, and the risk-free series.

    Reflection over a strategy struct is a list of what its exported fields
    hold; the parent's and the children's descriptions are their answers. *)
From Stdlib Require Import ZArith.
From stdpp Require Import base list gmap strings pretty.
From S2P Require Import Prelude Num GoTime Asset Period Frame Metrics FrameOps Schedule Provider DataCache Fetch.
From S2P Require Import Broker Lots Ledger Account Batch Exec SimBroker MarginCall Engine Backtest.
Local Open Scope Z_scope.

(** What an exported field of a strategy struct holds. *)
Inductive StrategyField : Type :=
  | AssetField (a : Asset)
  | StaticUniverseField (members : list Asset)
  | OtherField.

(** A strategy as the set-up sees it; [sd_Warmup] is absent when it does not
    describe itself. *)
Record StrategyDef : Type := mkStrategyDef { sd_Fields : list StrategyField; sd_Warmup : option Z }.

Inductive DateRangeMode : Type := DateRangeModeStrict | DateRangeModePermissive.

(** ** The assets a strategy names *)
Definition appendUniqueAsset (assets : list Asset) (candidate : Asset) : list Asset :=
  if bool_decide (candidate = zero_asset) || bool_decide (CompositeFigi candidate = ""%string) then assets
  else if existsb (λ existing, bool_decide (CompositeFigi existing = CompositeFigi candidate)) assets then assets
  else assets ++ [candidate].
Definition field_assets (f : StrategyField) : list Asset :=
  match f with
  | AssetField a => [a]
  | StaticUniverseField members => members
  | OtherField => []
  end.
(** The identifiers [seen] are those of the assets collected so far. *)
Definition collectStrategyAssets (s : StrategyDef) (benchmark : Asset) : list Asset :=
  fold_left appendUniqueAsset ((sd_Fields s ≫= field_assets) ++ [benchmark]) [].
(** The parent's, then the children's that are new. *)
Definition all_strategy_assets (parent : StrategyDef) (children : list StrategyDef) (benchmark : Asset) : list Asset :=
  fold_left (λ assets child, fold_left appendUniqueAsset (collectStrategyAssets child zero_asset) assets)
    children (collectStrategyAssets parent benchmark).

(** The parent's warm-up, or a child's greater one. *)
Definition needed_warmup (parent : StrategyDef) (children : list StrategyDef) : Z :=
  fold_left (λ warmup child,
    match sd_Warmup child with Some w => if warmup <? w then w else warmup | None => warmup end)
    children (default 0 (sd_Warmup parent)).

Section Setup.
Context {F : Type} `{Num F} `{NumPow F} {tz : TZDB} {fx : FmtFloat F} {go : GoMapOrder} {srt : GoSort} {sched : GoSched}.
(* the fuel of the walks over calendar days *)
Context (fuel : nat).
Local Open Scope run_scope.
Implicit Types (e : Engine F) (a : Account F) (assets : list Asset) (daily : NextFn) (t from : Time).

(** ** Trading days before a date *)

(** One attempt for each multiple of the days; the walk goes forward, because a
    schedule only knows [Next]. *)
Fixpoint walk_attempts daily from (days : Z) (multiples : list Z) : Run Time :=
  match multiples with
  | [] => Some (Err ("walkBackTradingDays: could not find " +:+ pretty days +:+ " trading days before "
                     +:+ format_date from +:+ " after 3 attempts")%string)
  | k :: rest =>
      match enumerate fuel daily (AddDate from 0 0 (- (days * k))) from with
      | None => None
      | Some tradingDays =>
          let n := Z.of_nat (length tradingDays) in
          if days + 1 <=? n then run_ok (default zero_time (tradingDays !! Z.to_nat (n - 1 - days)))
          else walk_attempts daily from days rest
      end
  end.
Definition walkBackTradingDays daily from (days : Z) : Run Time :=
  if days <? 0 then
    Some (Err ("walkBackTradingDays: days must be non-negative, got " +:+ pretty days)%string)
  else if days =? 0 then run_ok from
  else walk_attempts daily from days [2; 4; 8].

(** ** The warm-up check *)
Definition count_numbers (col : list F) : Z := Z.of_nat (length (keep (λ x, negb (is_nan x)) col)).

Definition fetch_closes e assets (from to : Time) : option (Engine F * result (DataFrame F)) :=
  match fetchRange e (ensure_cache e) assets [MetricClose] from to with
  | None => None
  | Some (c, r) => Some (set_cache (Some c) e, r)
  end.
Definition checkWarmupData e (warmup : Z) assets (warmupStart tradeStart : Time) : Run (Engine F * list Asset) :=
  match fetch_closes e assets warmupStart tradeStart with
  | None => None
  | Some (_, Err err) => Some (Err err)
  | Some (e, Ok df) => run_ok (e, keep (λ x, count_numbers (Column df x MetricClose) <? warmup) assets)
  end.

Definition join_with (sep : string) (parts : list string) : string :=
  match parts with
  | [] => ""
  | p :: rest => fold_left (λ s q, s +:+ sep +:+ q) rest p
  end%string.
Definition shortfall (df : DataFrame F) (warmup : Z) (x : Asset) : option string :=
  let shortBy := warmup - count_numbers (Column df x MetricClose) in
  if 0 <? shortBy then Some (Ticker x +:+ " (short by " +:+ pretty shortBy +:+ " days)")%string else None.
Definition formatWarmupShortfall e (warmup : Z) assets (warmupStart tradeStart : Time) : option string :=
  match fetch_closes e assets warmupStart tradeStart with
  | None => None
  | Some (_, Err err) => Some ("assets with insufficient warmup data (fetch error: " +:+ err +:+ ")")%string
  | Some (_, Ok df) => Some ("insufficient warmup data: " +:+ join_with ", " (omap (shortfall df warmup) assets))%string
  end.

(** The scan of the permissive mode, over the assets that were short at the
    candidate before. *)
Fixpoint permissive_scan (n : nat) e daily (warmup : Z) (end_ candidate : Time) insufficient : Run (Engine F * Time) :=
  match n with
  | O => None
  | S n =>
      if After candidate end_ then
        Some (Err ("engine: no valid start date with sufficient warmup data before " +:+ format_date end_)%string)
      else
        warmupStart ←! run_in ("engine: computing warmup start for candidate " +:+ format_date candidate)
                         (walkBackTradingDays daily candidate warmup);
        '(e, insufficient) ←! run_in ("engine: checking warmup data at " +:+ format_date candidate)
                                (checkWarmupData e warmup insufficient warmupStart candidate);
        match insufficient with
        | [] => run_ok (e, candidate)
        | _ =>
            match daily (AddDur candidate 1) with
            | None => None
            | Some next => permissive_scan n e daily warmup end_ next insufficient
            end
        end
  end.

Definition validateWarmup e (parent : StrategyDef) (children : list StrategyDef) (benchmark : Asset)
    (schedule daily : NextFn) (mode : DateRangeMode) (start end_ : Time) : Run (Engine F * Time) :=
  let warmup := needed_warmup parent children in
  if warmup =? 0 then run_ok (e, start)
  else if warmup <? 0 then Some (Err ("engine: negative warmup value " +:+ pretty warmup)%string)
  else
    match schedule (AddDur start (-1)) with
    | None => None
    | Some firstTradeDate =>
        match all_strategy_assets parent children benchmark with
        | [] => run_ok (e, start)
        | assets =>
            warmupStart ←! run_in "engine: computing warmup start" (walkBackTradingDays daily firstTradeDate warmup);
            '(e, insufficient) ←! run_in "engine: checking warmup data"
                                    (checkWarmupData e warmup assets warmupStart firstTradeDate);
            match insufficient, mode with
            | [], _ => run_ok (e, start)
            | _, DateRangeModeStrict =>
                match formatWarmupShortfall e warmup insufficient warmupStart firstTradeDate with
                | None => None
                | Some s => Some (Err ("engine: " +:+ s)%string)
                end
            | _, DateRangeModePermissive =>
                match daily (AddDur firstTradeDate 1) with
                | None => None
                | Some candidate => permissive_scan fuel e daily warmup end_ candidate insufficient
                end
            end
        end
    end.

(** ** The last day whose prices can be expected *)
Definition marketCloseHour : Z := 16.

(** The first row of the day decides. *)
Definition priced_on (df : DataFrame F) assets (date : Time) : bool :=
  match list_find (λ ts, dateKey ts = dateKey date) (df_times df) with
  | None => false
  | Some (tIdx, _) =>
      forallb (λ x, match Column df x MetricClose !! tIdx with Some v => negb (is_nan v) | None => false end) assets
  end.
Definition allStrategyAssetsPriced e assets (date : Time) : option (Engine F * bool) :=
  match assets with
  | [] => Some (e, true)
  | _ =>
      match fetch_closes e assets date date with
      | None => None
      | Some (e, Err _) => Some (e, false)
      | Some (e, Ok df) => Some (e, negb (Len df =? 0)%nat && priced_on df assets date)
      end
  end.

(** [expectedLast]: today once it has closed and its prices are there,
    otherwise the trading day before. *)
Definition expected_last e holidays assets (now : Time) : option (Engine F * Time) :=
  let nowLocal := InLoc now nyc in
  let today := Date (Year nowLocal) (Month nowLocal) (Day nowLocal) 0 0 0 0 nyc in
  let closeToday := Date (Year today) (Month today) (Day today) marketCloseHour 0 0 0 nyc in
  if IsMarketDay holidays today && negb (Before nowLocal closeToday) then
    '(e, priced) ← allStrategyAssetsPriced e assets today;
    if priced : bool then Some (e, today)
    else (λ d, (e, d)) <$> previousTradingDay fuel holidays today
  else (λ d, (e, d)) <$> previousTradingDay fuel holidays today.
Definition adjustEndForExpectedEOD e holidays assets (end_ now : Time) : option (Engine F * Time) :=
  '(e, expectedLast) ← expected_last e holidays assets now;
  let expectedEnd := Date (Year expectedLast) (Month expectedLast) (Day expectedLast) 23 59 59 999999999 nyc in
  Some (e, if After end_ expectedEnd then expectedEnd else end_).

(** ** The account a run starts from *)

(** What a portfolio snapshot exposes; the metadata and the metric rows are
    kept with the run. *)
Record PortfolioSnapshot : Type := mkSnapshot {
  sn_Cash : F;
  sn_Holdings : gmap Asset F;
  sn_Transactions : list (Transaction F);
  sn_PerfData : option (DataFrame F);
  sn_TaxLots : gmap Asset (list (TaxLot F));
  sn_TradeDetails : list (TradeDetail F);
  sn_Excursions : gmap Asset (ExcursionRecord F);
  sn_ShortLots : gmap Asset (list (TaxLot F));
  sn_Batches : list (Z * Time);
}.
(** An account as a snapshot, through the methods of the interface. *)
Definition account_snapshot a : PortfolioSnapshot :=
  mkSnapshot (Cash a) (Holdings a) (transactions (ledger a)) (perfData (history a)) (taxLots (ledger a))
    (tradeDetails (ledger a)) (excursions (ledger a)) (shortLots (ledger a)) (batches a).

(** [for k, v := range src { dst[k] = v }], and appending slice by slice. *)
Definition copy_map {V} (src dst : gmap Asset V) : gmap Asset V := fold_left (λ m kv, <[kv.1 := kv.2]> m) (range src) dst.
Definition append_map {V} (src dst : gmap Asset (list V)) : gmap Asset (list V) :=
  fold_left (λ m kv, <[kv.1 := lookup_d [] m kv.1 ++ kv.2]> m) (range src) dst.

Definition WithPortfolioSnapshot (snap : PortfolioSnapshot) a : Account F :=
  let L := ledger a in
  let h := history a in
  let L := mkLedger (sn_Cash snap) (copy_map (sn_Holdings snap) (holdings L)) (transactions L ++ sn_Transactions snap)
    (append_map (sn_TaxLots snap) (taxLots L)) (append_map (sn_ShortLots snap) (shortLots L))
    (recentLossSales L) (recentBuys L) (washSales L) (lotSelection L)
    (copy_map (sn_Excursions snap) (excursions L)) (tradeDetails L ++ sn_TradeDetails snap) (seenTransactions L) in
  let perf := match sn_PerfData snap with Some df => Some (frame_Copy df) | None => perfData h end in
  set_batches (batches a ++ sn_Batches snap)
    (set_history (mkHistory perf (positionMV h) (positionQty h) (benchmark h) (riskFreeValue h)) (set_ledger L a)).

(** The broker a run gets when none is configured. *)
Definition default_broker (fillBaseModel : option (BaseModel F)) (fillAdjusters : list (Adjuster F)) : SimulatedBroker F :=
  match fillBaseModel with
  | None => NewSimulatedBroker
  | Some base => SetFillPipeline (NewPipeline base fillAdjusters) NewSimulatedBroker
  end.
Definition createAccount (account : option (Account F)) (snapshot : option PortfolioSnapshot) (initialDeposit : F)
    (start : Time) : result (Account F) :=
  match account, snapshot with
  | Some a, _ => Ok a
  | None, Some snap => Ok (WithPortfolioSnapshot snap new_account)
  | None, None =>
      if fle initialDeposit (of_Z 0) then
        Err "engine: initial deposit must be positive when no account or snapshot is provided; pass engine.WithInitialDeposit(amount) or engine.WithAccount(acct)"%string
      else Ok (set_ledger (WithCash initialDeposit start (ledger new_account)) new_account)
  end.
(** The margin settings the simulated broker takes from the account. *)
Definition wire_broker a (k : SimulatedBroker F) : SimulatedBroker F :=
  SimSetMaxLeverage (MaxLeverage a) (SetBorrowRate (BorrowRate a) (SetPortfolio k)).
(** A child starts with 100 and a broker of its own. *)
Definition child_account (start : Time) : Account F :=
  set_ledger (WithCash (of_Z 100) start (ledger new_account)) new_account.

(** ** The benchmark *)
Definition registered (registry : gmap string Asset) (ticker : string) : Asset :=
  match registry !! ticker with
  | Some x => if decide (x = zero_asset) then mk_asset "" ticker else x
  | None => mk_asset "" ticker
  end.
Definition resolve_benchmark (registry : gmap string Asset) (configured : Asset) (described override : string) : Asset :=
  let b := if bool_decide (configured = zero_asset) && negb (bool_decide (described = ""%string))
           then registered registry described else configured in
  if decide (override = ""%string) then b else registered registry override.

Definition validDimensions : list string := ["ARQ"; "ARY"; "ART"; "MRQ"; "MRY"; "MRT"]%string.
Definition checkDimension (dim : string) : result unit :=
  if bool_decide (dim = ""%string) || bool_decide (dim ∈ validDimensions) then Ok tt
  else Err ("engine: invalid fundamental dimension " +:+ dim)%string.

(** ** The risk-free series *)
Definition index_riskFree (times : list Time) : gmap Time nat :=
  fold_left (λ m it, <[Date (Year it.2) (Month it.2) (Day it.2) 0 0 0 0 "UTC" := it.1]> m)
    (zip (seq 0 (length times)) times) ∅.
(** An error and an empty answer leave the series as it was. *)
Definition prefetch_riskFree e (dgs : Asset) (start end_ : Time) : option (Engine F) :=
  let e := set_riskFree true (riskFree e) e in
  match fetch_closes e [dgs] (AddDate start (-2) 0 0) end_ with
  | None => None
  | Some (e, Err _) => Some e
  | Some (e, Ok df) =>
      Some (if (Len df =? 0)%nat then e
            else set_riskFree true (mkRiskFree (df_times df) (Column df dgs MetricClose) (index_riskFree (df_times df))) e)
  end.

(** ** From the configuration to the first step *)
Definition SetBenchmark (b : Asset) a : Account F :=
  let h := history a in
  set_history (mkHistory (perfData h) (positionMV h) (positionQty h) b (riskFreeValue h)) a.

(** What the options and the strategy's description configure. *)
Record Setup : Type := mkSetup {
  su_parent : StrategyDef;
  su_children : list StrategyDef;
  su_schedule : NextFn;
  su_daily : NextFn;
  su_benchmark : Asset;
  su_mode : DateRangeMode;
  su_holidays : Holidays;
  su_account : option (Account F);
  su_snapshot : option PortfolioSnapshot;
  su_deposit : F;
  su_described : F * F;
  su_margin : option (RegT F) * F * F;
  su_broker : SimulatedBroker F;
  su_dgs : option Asset;
}.

(** Steps 5b to 8: a fresh cache, the dates, the account, the margin settings,
    the risk-free series and the broker. *)
Definition initialize e (su : Setup) (start end_ now : Time) :
    Run (Engine F * Account F * SimulatedBroker F * Time * Time) :=
  let e := set_cache (Some (newDataCache (cacheMaxBytes e))) e in
  '(e, start) ←! validateWarmup e (su_parent su) (su_children su) (su_benchmark su) (su_schedule su) (su_daily su)
                   (su_mode su) start end_;
  match adjustEndForExpectedEOD e (su_holidays su)
          (all_strategy_assets (su_parent su) (su_children su) (su_benchmark su)) end_ now with
  | None => None
  | Some (e, end_) =>
      match createAccount (su_account su) (su_snapshot su) (su_deposit su) start with
      | Err err => Some (Err err)
      | Ok a =>
          let a := if decide (su_benchmark su = zero_asset) then a else SetBenchmark (su_benchmark su) a in
          let '(model, engMax, engMaint) := su_margin su in
          let a := applyMarginConfig (su_described su).1 (su_described su).2 model engMax engMaint a in
          match (match su_dgs su with None => Some e | Some dgs => prefetch_riskFree e dgs start end_ end) with
          | None => None
          | Some e => run_ok (e, a, wire_broker a (su_broker su), start, end_)
          end
      end
  end.
End Setup.
Arguments PortfolioSnapshot : clear implicits.

(** ** Children on a strategy struct *)

(** A field that holds a strategy: its name, its weight tag as parsed, the
    identity of what it points to, the error its preset and parameter tags run
    into, and the fields of that strategy.  A pointer back is a field with an
    identity seen before. *)
Inductive ChildField (F : Type) : Type :=
  mkChildField (name : string) (weight : option (result F)) (pointer : Z) (params : option error)
    (nested : list (ChildField F)).
Arguments mkChildField {F}.

Section Children.
Context {F : Type} `{Num F}.
Local Open Scope num_scope.

Definition Discovery : Type := gset Z * list (string * F).
(** A field without a weight tag is no child; a child's own children follow it. *)
Fixpoint discover_field (f : ChildField F) (st : Discovery) : result Discovery :=
  match f with
  | mkChildField name None _ _ _ => Ok st
  | mkChildField name (Some (Err err)) _ _ _ =>
      Err ("discoverChildren: field " +:+ name +:+ ": parsing weight: " +:+ err)%string
  | mkChildField name (Some (Ok weight)) pointer params nested =>
      let '(visited, found) := st in
      if decide (pointer ∈ visited) then Err ("discoverChildren: cycle detected on field " +:+ name)%string
      else
        match params with
        | Some err => Err ("discoverChildren: field " +:+ name +:+ ": " +:+ err)%string
        | None =>
            (fix discover_fields (fs : list (ChildField F)) (st : Discovery) : result Discovery :=
               match fs with
               | [] => Ok st
               | f :: rest =>
                   match discover_field f st with
                   | Err err => Err err
                   | Ok st => discover_fields rest st
                   end
               end) nested ({[pointer]} ∪ visited, found ++ [(name, weight)])
        end
  end.
Definition discover_fields : list (ChildField F) → Discovery → result Discovery :=
  fix go fs st :=
    match fs with
    | [] => Ok st
    | f :: rest => match discover_field f st with Err err => Err err | Ok st => go rest st end
    end.
(** The weights of all children, nested ones included, may add up to one. *)
Definition discoverChildren (fields : list (ChildField F)) : result (list (string * F)) :=
  match discover_fields fields (∅, []) with
  | Err err => Err err
  | Ok (_, found) =>
      let totalWeight := fold_left (λ sum (c : string * F), sum + c.2) found 0 in
      if totalWeight >? 1 then Err "discoverChildren: total child weight exceeds 1.0"%string else Ok found
  end.
End Children.
