(* ===== verification/Live.v ===== *)
(** * Live: the loop of live trading ([engine/live.go])

    When the loop wakes next, and what one step does.  The clock, the broker's
    own transactions and what may have changed while the loop waited for prices
    are the record [LiveEnv]; an error is logged and the loop goes on.  Live
    trading knows no children. *)
From Stdlib Require Import ZArith.
From stdpp Require Import base list gmap strings.
From S2P Require Import Prelude Num GoTime Asset Period Frame Metrics FrameOps Schedule Provider DataCache Fetch.
From S2P Require Import Broker Lots Ledger Account Batch Exec SimBroker MarginCall Engine Backtest.

(** The next firing: its instant, whether the strategy runs and whether the day
    is closed.  One firing serves both schedules when they agree. *)
Record Wake : Type := mkWake { wk_at : Time; wk_isStrategy : bool; wk_isDaily : bool }.
Definition next_wake (schedule daily : NextFn) (now : Time) : option Wake :=
  nextStrategy ← schedule now;
  nextDaily ← daily now;
  let isStrategy := negb (After nextStrategy nextDaily) in
  let nextTime := if isStrategy then nextStrategy else nextDaily in
  Some (mkWake nextTime isStrategy (negb (After nextDaily nextTime))).

Section Live.
Context {F : Type} `{Num F} `{NumPow F} {tz : TZDB} {fx : FmtFloat F} {go : GoMapOrder} {srt : GoSort} {sched : GoSched}.
Context {B : Type} `{!Broker B F}.
(* what the strategy remembers *)
Context {S : Type}.
Context (fuel : nat).
Local Open Scope num_scope.
Implicit Types (e : Engine F) (a : Account F) (k : B).

Record LiveEnv : Type := mkEnv {
  (* [broker.Transactions] since an instant *)
  env_Transactions : Time → B → B * result (list (BrokerTxn F));
  (* [SetPriceProvider], for a simulated broker *)
  env_attach : Engine F → Time → B → B;
  (* the engine after an hour's wait; nothing when the context is cancelled *)
  env_wait : nat → Engine F → option (Engine F);
}.

Record LiveConfig : Type := mkLive {
  lv_strategy : Strategy F S;
  lv_schedule : NextFn;
  lv_daily : NextFn;
  lv_benchmark : Asset;
  lv_dgs : Asset;
  lv_middleware : list (Middleware F);
}.

Record LiveState : Type := mkLiveState {
  ls_mem : S;
  ls_engine : Engine F;
  ls_account : Account F;
  ls_broker : B;
  ls_lastSync : Time;
  ls_riskFree : F;
}.
Implicit Types (st : LiveState) (cfg : LiveConfig) (env : LiveEnv).
Definition put_desk e a k st : LiveState := mkLiveState (ls_mem st) e a k (ls_lastSync st) (ls_riskFree st).

(** ** Settling with the broker *)

(** Fills first, then what the broker reports; a report that cannot be read is
    asked for again from the same instant. *)
Definition settle_broker env (woke : Time) st : LiveState :=
  let s := drainFills (mkExec (ls_account st) (ls_broker st) None 0) in
  let a := es_account s in
  match env_Transactions env (ls_lastSync st) (es_broker s) with
  | (k, Err _) => mkLiveState (ls_mem st) (ls_engine st) a k (ls_lastSync st) (ls_riskFree st)
  | (k, Ok txns) =>
      mkLiveState (ls_mem st) (ls_engine st) (set_ledger (SyncTransactions txns (ledger a)).1 a) k woke (ls_riskFree st)
  end.

(** The margin check, when the prices for it can be had. *)
Definition check_margin cfg (woke : Time) st : option LiveState :=
  let e := ls_engine st in
  let handle e a :=
    let '(a, k, _) := checkAndHandleMarginCall ((λ h, h e) <$> st_OnMarginCall (lv_strategy cfg)) (lv_middleware cfg) woke a (ls_broker st) in
    Some (put_desk e a k st) in
  match held_assets (ls_account st) with
  | [] => handle e (ls_account st)
  | assets =>
      match engine_FetchAt fuel e assets woke [MetricClose] with
      | None => None
      | Some (e, Err _) => Some (put_desk e (ls_account st) (ls_broker st) st)
      | Some (e, Ok df) => handle e (SetPrices df (ls_account st))
      end
  end.

(** ** The strategy *)

(** Whether the step goes on: an error of the strategy or of its batch ends it. *)
Definition run_strategy cfg env (woke : Time) st : LiveState * bool :=
  let k := env_attach env (ls_engine st) woke (ls_broker st) in
  let s := CancelOpenOrders (mkExec (ls_account st) k None 0) in
  let '(a, k) := (es_account s, es_broker s) in
  let c := st_Compute (lv_strategy cfg) (ls_mem st) (ls_engine st) [] a (NewBatch woke) in
  let after a k := mkLiveState (co_mem c) (co_engine c) a k (ls_lastSync st) (ls_riskFree st) in
  match co_err c with
  | Some _ => (after (co_account c) k, false)
  | None =>
      let '(a, k, _, err) := ExecuteBatch (lv_middleware cfg) (co_account c) k (co_batch c) in
      (after a k, match err with Some _ => false | None => true end)
  end.

(** ** The daily close *)

(** The cumulative risk-free value moves, and the yield joins the series. *)
Definition live_risk_free e (dgs : Asset) (woke : Time) (cumulative : F) : option (Engine F * F) :=
  if negb (riskFreeResolved e) then Some (e, cumulative)
  else
    match engine_FetchAt fuel e [dgs] woke [MetricClose] with
    | None => None
    | Some (e, Err _) => Some (e, cumulative)
    | Some (e, Ok df) =>
        let yield_ := Value df dgs MetricClose in
        let cumulative :=
          if negb (is_nan yield_) && (yield_ >? 0) then YieldToCumulative yield_ cumulative
          else if cumulative =? 0 then of_Z 100 else cumulative in
        let rf := riskFree e in
        let e := if is_nan yield_ then e
                 else set_riskFree true
                        (mkRiskFree (rf_times rf ++ [woke]) (rf_values rf ++ [yield_])
                           (<[Date (Year woke) (Month woke) (Day woke) 0 0 0 0 "UTC" := length (rf_values rf)]> (rf_index rf))) e in
        Some (e, cumulative)
    end.

(** Eighteen attempts, an hour apart; the last one is followed by a wait too. *)
Fixpoint fetch_prices (attempts attempt : nat) env e (assets : list Asset) (woke : Time) : option (Engine F * result (DataFrame F)) :=
  match attempts with
  | O => Some (e, Err "price fetch failed after retries"%string)
  | Datatypes.S attempts =>
      match engine_FetchAt fuel e assets woke [MetricClose; AdjClose] with
      | None => None
      | Some (e, Ok df) => Some (e, Ok df)
      | Some (e, Err _) =>
          match env_wait env attempt e with
          | None => None
          | Some e => fetch_prices attempts (Datatypes.S attempt) env e assets woke
          end
      end
  end.
Definition priceAttempts : nat := 18.

Definition close_live cfg env (woke : Time) st : option LiveState :=
  match live_risk_free (ls_engine st) (lv_dgs cfg) woke (ls_riskFree st) with
  | None => None
  | Some (e, cumulative) =>
      let a := SetRiskFreeValue cumulative (ls_account st) in
      let done_ e a := mkLiveState (ls_mem st) e a (ls_broker st) (ls_lastSync st) cumulative in
      match with_benchmark (lv_benchmark cfg) (held_assets a) with
      | [] =>
          Some (done_ e (match NewDataFrame [woke] [] [] Daily [] with Ok df => UpdatePrices df a | Err _ => a end))
      | assets =>
          match fetch_prices priceAttempts 0 env e assets woke with
          | None => None
          | Some (e, Err _) => Some (done_ e a)
          | Some (e, Ok df) => Some (done_ e (UpdatePrices df a))
          end
      end
  end.

(** ** One step, from the wake-up on *)
Definition live_step cfg env (woke : Time) (wake : Wake) st : option LiveState :=
  let st := settle_broker env woke (put_desk (set_clock woke woke (ls_engine st)) (ls_account st) (ls_broker st) st) in
  match check_margin cfg woke st with
  | None => None
  | Some st =>
      let '(st, goes_on) := if wk_isStrategy wake then run_strategy cfg env woke st else (st, true) in
      if goes_on && wk_isDaily wake then close_live cfg env woke st else Some st
  end.

(** The loop over the instants at which it looks at the clock and is woken; the
    portfolio is offered after every step. *)
Fixpoint live_loop cfg env (clock : list (Time * Time)) st : option LiveState :=
  match clock with
  | [] => Some st
  | (now, woke) :: clock =>
      match next_wake (lv_schedule cfg) (lv_daily cfg) now with
      | None => None
      | Some wake =>
          match live_step cfg env woke wake st with
          | None => None
          | Some st => live_loop cfg env clock st
          end
      end
  end.
End Live.
Arguments LiveEnv : clear implicits.
Arguments LiveConfig : clear implicits.
Arguments LiveState : clear implicits.
