(* ===== verification/Stats.v ===== *)
(** * Stats: what a performance metric reads
    ([portfolio/metric_query.go], [windowed_stats.go], [benchmark_view.go],
    [metric_helpers.go], [account.go])

    [PortfolioStats] is the interface between an account and its metrics, a
    record of operations; [account_stats], [windowedStats] and the benchmark
    view implement it.  A data frame that may be nil is an [option].  The
    helpers shared by the metrics follow.  The statistics of gonum are the
    operations of the class [GoStat]; [GoStatLaws] is their documented
    behaviour. *)
From Stdlib Require Import ZArith.
From stdpp Require Import base list gmap strings.
From S2P Require Import Prelude Num GoTime Asset Period Frame Metrics FrameOps Resample Broker Lots Ledger Gains Account.

(** [gonum.org/v1/gonum/stat], unweighted. *)
Class GoStat (F : Type) : Type := {
  stat_StdDev : list F → F;
  stat_Variance : list F → F;
  stat_Covariance : list F → list F → F;
  stat_Quantile_Empirical : F → list F → F;
}.

#[export] Instance PeriodUnit_eq_dec : EqDecision PeriodUnit.
Proof. solve_decision. Defined.

(** The integer of the unit, as [%d] prints it. *)
Definition unit_key (u : PeriodUnit) : Z + Z :=
  match u with
  | UnitDay => inl 0 | UnitMonth => inl 1 | UnitYear => inl 2 | UnitYTD => inl 3 | UnitMTD => inl 4
  | UnitWTD => inl 5 | UnitMinuteBar => inl 6 | UnitDailyAtTime => inl 7 | UnitOther n => inr n
  end%Z.
Definition unit_of_key (k : Z + Z) : PeriodUnit :=
  match k with
  | inl 0 => UnitDay | inl 1 => UnitMonth | inl 2 => UnitYear | inl 3 => UnitYTD | inl 4 => UnitMTD
  | inl 5 => UnitWTD | inl 6 => UnitMinuteBar | inl _ => UnitDailyAtTime | inr n => UnitOther n
  end%Z.
#[export] Instance PeriodUnit_countable : Countable PeriodUnit.
Proof. by refine (inj_countable' unit_key unit_of_key _); intros []. Defined.

(** ** The interface *)
Record DrawdownDetail (F : Type) : Type := mkDrawdown {
  dd_Start : Time;
  dd_Trough : Time;
  dd_Recovery : Time;
  dd_Depth : F;
  dd_Days : Z;
}.
Arguments mkDrawdown {F}.
Arguments dd_Start {F}.
Arguments dd_Trough {F}.
Arguments dd_Recovery {F}.
Arguments dd_Depth {F}.
Arguments dd_Days {F}.

(** [windowBoundsHint] is the optional method of [windowBoundsHinter]. *)
Record PortfolioStats (F : Type) : Type := mkStats {
  Returns : option Period → option (DataFrame F);
  ExcessReturns : option Period → option (DataFrame F);
  Drawdown : option Period → option (DataFrame F);
  BenchmarkReturns : option Period → option (DataFrame F);
  EquitySeries : option Period → option (DataFrame F);
  TransactionsView : list (Transaction F);
  TradeDetailsView : list (TradeDetail F);
  PricesView : option (DataFrame F);
  TaxLotsView : gmap Asset (list (TaxLot F));
  ShortLotsView : gmap Asset (list (TaxLot F));
  PerfDataView : option (DataFrame F);
  AnnualReturns : Metric → result (list Z * list F);
  DrawdownDetails : Z → result (list (DrawdownDetail F));
  MonthlyReturns : Metric → result (list Z * list (list F));
  windowBoundsHint : option (Time * Time);
}.
Arguments mkStats {F}.
Arguments Returns {F}.
Arguments ExcessReturns {F}.
Arguments Drawdown {F}.
Arguments BenchmarkReturns {F}.
Arguments EquitySeries {F}.
Arguments TransactionsView {F}.
Arguments TradeDetailsView {F}.
Arguments PricesView {F}.
Arguments TaxLotsView {F}.
Arguments ShortLotsView {F}.
Arguments PerfDataView {F}.
Arguments AnnualReturns {F}.
Arguments DrawdownDetails {F}.
Arguments MonthlyReturns {F}.
Arguments windowBoundsHint {F}.

Definition ErrNoRiskFreeRate : error := "risk-free rate not configured"%string.
Definition ErrNoBenchmark : error := "benchmark not configured"%string.
Definition ErrBenchmarkNotSupported : error := "metric does not support benchmark targeting"%string.
Definition ErrInsufficientData : error := "insufficient data for metric window"%string.

Section Stats.
Context {F : Type} `{Num F} `{Gonum F} `{NumSqrt F} {tz : TZDB} {go : GoMapOrder} {srt : GoSort}.
Local Open Scope num_scope.
Implicit Types (a : Account F) (df : DataFrame F) (col : list F) (times : list Time) (window : option Period).

(** ** The frames an account derives from its daily history *)
Definition perf_of a : option (DataFrame F) := perfData (history a).

Definition returns_frame window df : DataFrame F := Pct (Metrics (Window df window) [PortfolioEquity]) 1.
Definition excess_frame window df : DataFrame F :=
  let perfDF := Pct (Metrics (Window df window) [PortfolioEquity; PortfolioRiskFree]) 1 in
  frame_Sub (Metrics perfDF [PortfolioEquity]) perfDF [PortfolioRiskFree].
(** Equity over its running peak, less one. *)
Definition drawdown_of (equity : DataFrame F) : DataFrame F :=
  let peak := CumMax equity in
  frame_Div (frame_Sub equity peak []) peak [].
Definition drawdown_frame window df : DataFrame F := drawdown_of (Metrics (Window df window) [PortfolioEquity]).
Definition bench_frame window df : DataFrame F := Pct (Metrics (Window df window) [PortfolioBenchmark]) 1.

(** ** The cache of derived frames *)
Definition dfCacheKey : Type := Metric * option (PeriodUnit * Z).
Definition dfCache : Type := gmap dfCacheKey (DataFrame F).
Definition windowKey window : option (PeriodUnit * Z) := (λ p, (Unit p, N p)) <$> window.
Definition cachedDF (c : dfCache) (m : Metric) window : option (DataFrame F) := c !! (m, windowKey window).
Definition putDF (c : dfCache) (m : Metric) window df : dfCache := <[(m, windowKey window) := df]> c.

(** What [UpdatePrices] does to the cache: it drops it once the row is
    recorded, and returns before that when there is no row to record or the
    append fails. *)
Definition mark_cache df a (c : dfCache) : dfCache :=
  if (Len df =? 0)%nat then c
  else
    let a := set_prices (Some df) a in
    let total := (mark_holdings df a).1 in
    let h := history a in
    match append_perf df [total; benchmark_value df h; riskFreeValue h] h with
    | Err _ => c
    | Ok _ => ∅
    end.

(** The common shape of [Returns], [ExcessReturns], [Drawdown] and
    [BenchmarkReturns]: the cached frame when there is one, otherwise the
    computed frame, which is stored. *)
Definition derived (m : Metric) (compute : option Period → DataFrame F → DataFrame F)
    (perf : option (DataFrame F)) (c : dfCache) window : option (DataFrame F) * dfCache :=
  match perf with
  | None => (None, c)
  | Some df =>
      match cachedDF c m window with
      | Some cached => (Some cached, c)
      | None => let out := compute window df in (Some out, putDF c m window out)
      end
  end.
Definition account_Returns a (c : dfCache) window := derived Catalog.PortfolioReturns returns_frame (perf_of a) c window.
Definition account_ExcessReturns a (c : dfCache) window := derived Catalog.PortfolioExcessReturns excess_frame (perf_of a) c window.
Definition account_Drawdown a (c : dfCache) window := derived Catalog.PortfolioDrawdown drawdown_frame (perf_of a) c window.
Definition account_BenchmarkReturns a (c : dfCache) window := derived Catalog.PortfolioBenchReturns bench_frame (perf_of a) c window.
Definition account_EquitySeries a window : option (DataFrame F) := (λ df, Window df window) <$> perf_of a.

(** ** Calendar returns *)
Definition value_at col (i : nat) : F := default 0 (col !! i).

(** [returns[idx]]: against the year before, or against the first value of
    the history in its first year. *)
Definition annual_return (first : F) (values : list F) (idx : nat) : F :=
  let baseline := match idx with O => first | S prev => value_at values prev end in
  if baseline !=? 0 then (value_at values idx - baseline) / baseline else 0.

Definition account_AnnualReturns a (metric : Metric) : result (list Z * list F) :=
  match perf_of a with
  | None => Ok ([], [])
  | Some df =>
      match (if (Len df =? 0)%nat then [] else Column df portfolioAsset metric) with
      | [] => Ok ([], [])
      | firstValue :: _ =>
          let yearly := Downsample_Last (Metrics df [metric]) Yearly in
          match df_err yearly with
          | Some e => Err e
          | None =>
              let times := df_times yearly in
              let values := Column yearly portfolioAsset metric in
              if (length times =? 0)%nat || (length values =? 0)%nat then Ok ([], [])
              else Ok (Year <$> times, annual_return firstValue values <$> seq 0 (length times))
          end
      end
  end.

Definition blank_year : list F := replicate 12 fnan.
Definition monthly_return (values : list F) (idx : nat) : F :=
  match idx with
  | O => fnan
  | S p =>
      let prev := value_at values p in
      let curr := value_at values idx in
      if prev !=? 0 then (curr - prev) / prev else fnan
  end.
(** One month of the grid: its year's row, made blank when it is new. *)
Definition put_month (values : list F) (rows : gmap Z (list F)) (it : nat * Time) : gmap Z (list F) :=
  let year := Year it.2 in
  let row := default blank_year (rows !! year) in
  <[year := <[Z.to_nat (Month it.2 - 1) := monthly_return values it.1]> row]> rows.

Definition account_MonthlyReturns a (metric : Metric) : result (list Z * list (list F)) :=
  match perf_of a with
  | None => Ok ([], [])
  | Some df =>
      if (Len df =? 0)%nat then Ok ([], [])
      else
        let monthly := Downsample_Last (Metrics df [metric]) Monthly in
        match df_err monthly with
        | Some e => Err e
        | None =>
            let times := df_times monthly in
            let values := Column monthly portfolioAsset metric in
            if (length times =? 0)%nat || (length values =? 0)%nat then Ok ([], [])
            else
              let yearRows := fold_left (put_month values) (zip (seq 0 (length times)) times) ∅ in
              let years := sort_slice Z.ltb (range yearRows).*1 in
              Ok (years, (λ y, lookup_d [] yearRows y) <$> years)
        end
  end.

(** ** Drawdown periods *)
Record DrawdownScan : Type := mkScan {
  sc_peak : F; sc_peakIdx : nat; sc_troughVal : F; sc_troughIdx : nat; sc_in : bool; sc_found : list (DrawdownDetail F);
}.

Definition drawdown_step times (s : DrawdownScan) (it : nat * F) : DrawdownScan :=
  let '(idx, eq) := it in
  if eq >=? sc_peak s then
    mkScan eq idx eq idx false
      (if sc_in s then
         sc_found s ++ [mkDrawdown (time_at times (sc_peakIdx s)) (time_at times (sc_troughIdx s)) (time_at times idx)
           ((sc_troughVal s - sc_peak s) / sc_peak s) (Z.of_nat idx - Z.of_nat (sc_peakIdx s))]
       else sc_found s)
  else if eq <? sc_troughVal s then mkScan (sc_peak s) (sc_peakIdx s) eq idx true (sc_found s)
  else mkScan (sc_peak s) (sc_peakIdx s) (sc_troughVal s) (sc_troughIdx s) true (sc_found s).

(** The drawdowns in the order they are found, an open one last. *)
Definition drawdown_periods times (equity : list F) : list (DrawdownDetail F) :=
  match equity with
  | [] => []
  | first :: rest =>
      let s := fold_left (drawdown_step times) (zip (seq 1 (length rest)) rest) (mkScan first 0 first 0 false []) in
      if sc_in s then
        sc_found s ++ [mkDrawdown (time_at times (sc_peakIdx s)) (time_at times (sc_troughIdx s)) zero_time
          ((sc_troughVal s - sc_peak s) / sc_peak s) (Z.of_nat (length equity) - 1 - Z.of_nat (sc_peakIdx s))]
      else sc_found s
  end.

Definition account_DrawdownDetails a (topN : Z) : result (list (DrawdownDetail F)) :=
  match perf_of a with
  | None => Ok []
  | Some df =>
      let times := df_times df in
      let equity := Column df portfolioAsset PortfolioEquity in
      if (Len df =? 0)%nat || (length equity =? 0)%nat then Ok []
      else
        let drawdowns := sort_slice (λ d d' : DrawdownDetail F, dd_Depth d <? dd_Depth d') (drawdown_periods times equity) in
        Ok (if (0 <? topN)%Z && (topN <? Z.of_nat (length drawdowns))%Z then take (Z.to_nat topN) drawdowns else drawdowns)
  end.

(** ** The implementations *)

(** An account whose frames are computed afresh; the cache is not visible
    ([cache_is_invisible]). *)
Definition account_stats a : PortfolioStats F :=
  mkStats (λ w, (account_Returns a ∅ w).1) (λ w, (account_ExcessReturns a ∅ w).1) (λ w, (account_Drawdown a ∅ w).1)
    (λ w, (account_BenchmarkReturns a ∅ w).1) (account_EquitySeries a)
    (transactions (ledger a)) (tradeDetails (ledger a)) (prices a) (taxLots (ledger a)) (shortLots (ledger a))
    (perf_of a) (account_AnnualReturns a) (account_DrawdownDetails a) (account_MonthlyReturns a) None.

(** [windowedStats]: every frame restricted to the range, the drawdown
    recomputed from the restricted equity. *)
Definition windowedStats (inner : PortfolioStats F) (start end_ : Time) : PortfolioStats F :=
  let restrict (f : option (DataFrame F)) := (λ df, Between df start end_) <$> f in
  let equitySeries w := restrict (EquitySeries inner w) in
  mkStats (λ w, restrict (Returns inner w)) (λ w, restrict (ExcessReturns inner w))
    (λ w, (λ equityDF, drawdown_of (Metrics equityDF [PortfolioEquity])) <$> equitySeries w)
    (λ w, restrict (BenchmarkReturns inner w)) equitySeries
    (TransactionsView inner) (TradeDetailsView inner) (restrict (PricesView inner))
    (TaxLotsView inner) (ShortLotsView inner) (restrict (PerfDataView inner))
    (AnnualReturns inner) (DrawdownDetails inner) (MonthlyReturns inner) (Some (start, end_)).

Definition is_flow (txn : Transaction F) : bool :=
  match t_Type txn with DepositTransaction | WithdrawalTransaction => true | _ => false end.

Definition set_perf_and_log (perf : DataFrame F) (txns : list (Transaction F)) a : Account F :=
  set_history (set_perf perf (history a)) (set_ledger (with_transactions txns (ledger a)) a).

(** The account whose equity curve is the benchmark, scaled to start at the
    account's equity, without the external flows. *)
Definition benchmarkView a : result (Account F) :=
  match perf_of a with
  | None => Err ErrNoBenchmark
  | Some perfDF =>
      match Column perfDF portfolioAsset PortfolioBenchmark, Column perfDF portfolioAsset PortfolioEquity with
      | (bm0 :: _) as bmCol, eq0 :: _ =>
          if (bm0 =? 0) || (eq0 =? 0) then Err ErrNoBenchmark
          else
            let scale := eq0 / bm0 in
            match Insert (frame_Copy perfDF) portfolioAsset PortfolioEquity ((λ v, v * scale) <$> bmCol) with
            | Err e => Err e
            | Ok newPerfData =>
                Ok (set_perf_and_log newPerfData (keep (λ t, negb (is_flow t)) (transactions (ledger a))) a)
            end
      | _, _ => Err ErrNoBenchmark
      end
  end.
Definition BenchmarkStats a : result (PortfolioStats F) := account_stats <$> benchmarkView a.

(** ** Helpers of the metrics *)
Definition windowBounds (stats : PortfolioStats F) window : Time * Time :=
  match windowBoundsHint stats with
  | Some b => b
  | None =>
      match window with
      | None => (zero_time, zero_time)
      | Some p =>
          match EquitySeries stats None with
          | None => (zero_time, zero_time)
          | Some df =>
              match last (df_times df) with
              | None => (zero_time, zero_time)
              | Some end_ => (period_Before p end_, end_)
              end
          end
      end
  end.

Definition removeNaN col : list F := keep (λ v, negb (is_nan v)) col.
(** The rows on which both columns have a value. *)
Definition alignedRemoveNaN (colA colB : list F) : list F * list F :=
  let rows := keep (λ p : F * F, negb (is_nan p.1) && negb (is_nan p.2)) (zip colA colB) in
  (rows.*1, rows.*2).

(** Days between two instants, [Sub(...).Hours() / 24]. *)
Definition days_between (later earlier : Time) : F := Hours (Sub later earlier) / of_Z 24.
Definition first_time times : Time := default zero_time (head times).
Definition last_time times : Time := default zero_time (last times).
Definition span_days times : F := days_between (last_time times) (first_time times).
Definition span_years times : F := span_days times / lit 36525 100.
Definition flength {A} (l : list A) : F := of_Z (Z.of_nat (length l)).

Definition annualizationFactor times : F :=
  if (length times <? 2)%nat then 1
  else if span_days times <=? 0 then 1
  else of_Z (Z.of_nat (length times) - 1) / span_years times.

(** ** Flow-adjusted returns *)
Definition add_flow (start end_ : Time) (flows : gmap Time F) (tx : Transaction F) : gmap Time F :=
  if Before (t_Date tx) start || After (t_Date tx) end_ then flows
  else if is_flow tx then <[t_Date tx := lookup_d 0 flows (t_Date tx) + t_Amount tx]> flows
  else flows.
Definition buildFlowMap (txns : list (Transaction F)) (start end_ : Time) : gmap Time F :=
  fold_left (add_flow start end_) txns ∅.

(** The returns of the points after the first, [subPeriodStart] the point before. *)
Fixpoint sub_returns (flows : gmap Time F) (subPeriodStart : F) (points : list (F * Time)) : list F :=
  match points with
  | [] => []
  | (equity, t) :: rest =>
      let preFlowEquity := equity - lookup_d 0 flows t in
      (if subPeriodStart !=? 0 then preFlowEquity / subPeriodStart - 1 else 0) :: sub_returns flows equity rest
  end.
Definition subPeriodReturns (equityCurve : list F) times (flows : gmap Time F) : list F :=
  match zip equityCurve times with
  | [] => []
  | (first, _) :: rest => sub_returns flows first rest
  end.

Definition compound (returns : list F) : F := fold_left (λ growth ri, growth * (1 + ri)) returns 1.
Definition flowAdjustedGrowth (stats : PortfolioStats F) (equity : list F) times : F :=
  compound (subPeriodReturns equity times (buildFlowMap (TransactionsView stats) (first_time times) (last_time times))).

(** ** Round trips *)
Record roundTrip : Type := mkTrip { pnl : F; holdDays : F; mfe : F; mae : F }.
Definition trip_of (td : TradeDetail F) : roundTrip := mkTrip (td_PnL td) (td_HoldDays td) (td_MFE td) (td_MAE td).
Definition roundTrips (details : list (TradeDetail F)) (txns : list (Transaction F)) : list roundTrip * F :=
  (trip_of <$> details,
   fold_left (λ total txn, match t_Type txn with SellTransaction => total + t_Price txn * t_Qty txn | _ => total end) txns 0).
End Stats.
Arguments roundTrip : clear implicits.
Arguments DrawdownScan : clear implicits.
