(* ===== verification/ReturnMetrics.v ===== *)
(** * ReturnMetrics: metrics of the return series ([portfolio], one file per metric)

    Volatility, risk-adjusted ratios, benchmark-relative metrics, streaks,
    tails and the shape of the return distribution.  Each [Compute] is a
    function of the interface [PortfolioStats] and the window; a metric that
    lacks its input answers 0 or one of the errors of the source. *)
From Stdlib Require Import ZArith.
From stdpp Require Import base list gmap strings.
From S2P Require Import Prelude Num GoTime Asset Period Frame FrameOps Resample Broker Ledger Account Stats.

Section ReturnMetrics.
Context {F : Type} `{Num F} `{Gonum F} `{GoStat F} `{NumSqrt F} `{NumLog F} `{NumPow F} `{NumErfc F}.
Context {tz : TZDB} {srt : GoSort}.
Local Open Scope num_scope.
Implicit Types (stats : PortfolioStats F) (window : option Period) (col erCol : list F) (df : DataFrame F).

Definition equity_of df : list F := Column df portfolioAsset PortfolioEquity.

(** [df := stats.Returns(...); if df == nil { return 0, nil }] and the column
    without its NaN values. *)
Definition on_returns stats window (k : DataFrame F → list F → result F) : result F :=
  match Returns stats window with
  | None => Ok 0
  | Some df => k df (removeNaN (equity_of df))
  end.

(** The guard of the metrics that need a risk-free rate, then the excess
    returns without NaN. *)
Definition on_excess stats window (k : DataFrame F → list F → result F) : result F :=
  match PerfDataView stats with
  | None => Ok 0
  | Some pd =>
      match Column pd portfolioAsset PortfolioRiskFree with
      | [] => Err ErrNoRiskFreeRate
      | rf0 :: _ =>
          if rf0 =? 0 then Err ErrNoRiskFreeRate
          else
            match ExcessReturns stats window with
            | None => Ok 0
            | Some df => k df (removeNaN (equity_of df))
            end
      end
  end.

(** The guard of the metrics that need a benchmark. *)
Definition need_benchmark {A} stats (absent : A) (k : DataFrame F → result A) : result A :=
  match PerfDataView stats with
  | None => Ok absent
  | Some pd =>
      match Column pd portfolioAsset PortfolioBenchmark with
      | [] => Err ErrNoBenchmark
      | bm0 :: _ => if bm0 =? 0 then Err ErrNoBenchmark else k pd
      end
  end.
(** The returns of the portfolio and the benchmark, row by row. *)
Definition on_pairs stats window (k : DataFrame F → list F → list F → result F) : result F :=
  need_benchmark stats 0 (λ _,
    match Returns stats window, BenchmarkReturns stats window with
    | Some rdf, Some bdf =>
        let '(pCol, bCol) := alignedRemoveNaN (equity_of rdf) (Column bdf portfolioAsset PortfolioBenchmark) in
        k rdf pCol bCol
    | _, _ => Ok 0
    end).

Definition annualized df : F := fsqrt (annualizationFactor (df_times df)).

(** ** Risk-adjusted ratios *)
Definition sharpe_Compute stats window : result F :=
  on_excess stats window (λ df erCol,
    if (length erCol <? 2)%nat then Ok 0
    else
      let stdDev := stat_StdDev erCol in
      if (stdDev =? 0) || is_nan stdDev then Ok 0
      else Ok (stat_Mean erCol / stdDev * annualized df)).

(** [sqrt(mean(min(r, 0)^2))] over every observation. *)
Definition downside_dev erCol : F :=
  fsqrt (fold_left (λ sumSq v, if v <? 0 then sumSq + v * v else sumSq) erCol 0 / flength erCol).

Definition sortino_Compute stats window : result F :=
  on_excess stats window (λ df erCol,
    if (length erCol =? 0)%nat then Ok 0
    else
      let downsideDev := downside_dev erCol in
      if downsideDev =? 0 then Ok 0
      else Ok (stat_Mean erCol / downsideDev * annualized df)).

Definition downsideDeviation_Compute stats window : result F :=
  on_excess stats window (λ df erCol,
    let neg := keep (λ v, v <? 0) erCol in
    if (length neg =? 0)%nat then Ok 0 else Ok (stat_StdDev neg * annualized df)).

(** The covariance sum of the returns with themselves, [lag] apart. *)
Definition lag_sum col (m : F) (lag : nat) : F :=
  fold_left (λ (covSum : F) (p : F * F), covSum + (p.1 - m) * (p.2 - m)) (zip (drop lag col) col) 0.
Definition autocorrelationPenalty col : F :=
  let count := length col in
  if (count <? 4)%nat then 1
  else
    let meanReturn := stat_Mean col in
    let maxLag := Nat.min (count / 4) 6 in
    let varSum := fold_left (λ varSum v, varSum + (v - meanReturn) * (v - meanReturn)) col 0 in
    if varSum =? 0 then 1
    else
      let acSum := fold_left (λ acSum lag, acSum + lag_sum col meanReturn lag / varSum) (seq 1 maxLag) 0 in
      let inner := 1 + of_Z 2 * acSum in
      if inner <=? 0 then 1 else fsqrt inner.

Definition smartSharpe_Compute stats window : result F :=
  on_excess stats window (λ df erCol,
    if (length erCol <? 2)%nat then Ok 0
    else
      let stdDev := stat_StdDev erCol in
      if (stdDev =? 0) || is_nan stdDev then Ok 0
      else
        let rawSharpe := stat_Mean erCol / stdDev * annualized df in
        let penalty := autocorrelationPenalty erCol in
        if penalty =? 0 then Ok 0 else Ok (rawSharpe / penalty)).

Definition smartSortino_Compute stats window : result F :=
  on_excess stats window (λ df erCol,
    if (length erCol =? 0)%nat then Ok 0
    else
      let downsideDev := downside_dev erCol in
      if downsideDev =? 0 then Ok 0
      else
        let rawSortino := stat_Mean erCol / downsideDev * annualized df in
        let penalty := autocorrelationPenalty erCol in
        if penalty =? 0 then Ok 0 else Ok (rawSortino / penalty)).

Definition normalCDF (x : F) : F := lit 1 2 * ferfc (- x / fsqrt2).

Definition probabilisticSharpe_Compute stats window : result F :=
  on_excess stats window (λ _ erCol,
    if (length erCol <? 4)%nat then Ok 0
    else
      let stdDev := stat_StdDev erCol in
      if stdDev =? 0 then Ok 0
      else
        let sharpeRatio := stat_Mean erCol / stdDev in
        let m := stat_Mean erCol in
        let sum3 := fold_left (λ sum3 v, sum3 + (v - m) * (v - m) * (v - m)) erCol 0 in
        let sum4 := fold_left (λ sum4 v, sum4 + (v - m) * (v - m) * ((v - m) * (v - m))) erCol 0 in
        let numPeriods := flength erCol in
        let skew := (sum3 / numPeriods) / (stdDev * stdDev * stdDev) in
        let kurt := (sum4 / numPeriods) / (stdDev * stdDev * stdDev * stdDev) - of_Z 3 in
        let sr2 := sharpeRatio * sharpeRatio in
        let inner := (1 - skew * sharpeRatio + ((kurt + of_Z 2) / of_Z 4) * sr2) / (numPeriods - 1) in
        if inner <=? 0 then Ok 0
        else
          let stdErr := fsqrt inner in
          if stdErr =? 0 then Ok 0 else Ok (normalCDF (sharpeRatio / stdErr))).

(** ** Benchmark-relative metrics *)
Definition beta_Compute stats window : result F :=
  on_pairs stats window (λ _ pCol bCol,
    if (length pCol <? 2)%nat then Ok 0
    else
      let benchVariance := stat_Variance bCol in
      if (benchVariance =? 0) || is_nan benchVariance then Ok 0
      else
        let cov := stat_Covariance pCol bCol in
        if is_nan cov then Ok 0 else Ok (cov / benchVariance)).

Definition alpha_Compute stats window : result F :=
  match Returns stats window, BenchmarkReturns stats window, PerfDataView stats with
  | Some rdf, Some bdf, Some pd =>
      match Column pd portfolioAsset PortfolioRiskFree with
      | [] => Err ErrNoRiskFreeRate
      | rf0 :: _ =>
          if rf0 =? 0 then Err ErrNoRiskFreeRate
          else
            let '(pCol, bCol) := alignedRemoveNaN (equity_of rdf) (Column bdf portfolioAsset PortfolioBenchmark) in
            let rfPctDF := Pct (Metrics (Window pd window) [PortfolioRiskFree]) 1 in
            let rCol := removeNaN (Column rfPctDF portfolioAsset PortfolioRiskFree) in
            let minLen := Nat.min (length pCol) (length rCol) in
            if (minLen <? 2)%nat then Ok 0
            else
              let meanExcessPortfolio := stat_Mean (zip_with fsub (take minLen pCol) (take minLen rCol)) in
              let meanExcessBenchmark := stat_Mean (zip_with fsub (take minLen bCol) (take minLen rCol)) in
              betaVal ← beta_Compute stats window;
              Ok ((meanExcessPortfolio - betaVal * meanExcessBenchmark) * annualizationFactor (df_times rdf))
      end
  | _, _, _ => Ok 0
  end.

Definition trackingError_Compute stats window : result F :=
  on_pairs stats window (λ rdf pCol bCol,
    if (length pCol <? 2)%nat then Ok 0
    else
      let stdDev := stat_StdDev (zip_with fsub pCol bCol) in
      if is_nan stdDev then Ok 0 else Ok (stdDev * annualized rdf)).

Definition informationRatio_Compute stats window : result F :=
  on_pairs stats window (λ rdf pCol bCol,
    if (length pCol <? 2)%nat then Ok 0
    else
      let arCol := zip_with fsub pCol bCol in
      let trackingErr := stat_StdDev arCol in
      if (trackingErr =? 0) || is_nan trackingErr then Ok 0
      else Ok (stat_Mean arCol / trackingErr * annualized rdf)).

Definition rSquared_Compute stats window : result F :=
  on_pairs stats window (λ _ pCol bCol,
    if (length pCol <? 2)%nat then Ok 0
    else
      let portfolioStdDev := stat_StdDev pCol in
      let benchStdDev := stat_StdDev bCol in
      if (portfolioStdDev =? 0) || (benchStdDev =? 0) || is_nan portfolioStdDev || is_nan benchStdDev then Ok 0
      else
        let corr := stat_Covariance pCol bCol / (portfolioStdDev * benchStdDev) in
        Ok (corr * corr)).

Definition geometricMean (returns : list F) : F :=
  if (length returns =? 0)%nat then 0
  else fpow (fold_left (λ product val, product * (1 + val)) returns 1) (1 / flength returns) - 1.

(** The rows whose benchmark return passes [side]. *)
Definition capture_ratio (side : F → bool) stats window : result F :=
  on_pairs stats window (λ _ pCol bCol,
    let rows := keep (λ p : F * F, side p.2) (zip pCol bCol) in
    if (length rows =? 0)%nat then Ok 0
    else
      let geoP := geometricMean rows.*1 in
      let geoB := geometricMean rows.*2 in
      if geoB =? 0 then Ok 0 else Ok (geoP / geoB)).
Definition upsideCaptureRatio_Compute := capture_ratio (λ b, b >? 0).
Definition downsideCaptureRatio_Compute := capture_ratio (λ b, b <? 0).

(** ** Volatility *)
Definition stdDev_Compute stats window : result F :=
  on_returns stats window (λ df col,
    if (length col <? 2)%nat then Ok 0
    else
      let stdDev := stat_StdDev col in
      if is_nan stdDev then Ok 0 else Ok (stdDev * annualized df)).

(** Welford's running mean and sum of squared deviations. *)
Record Welford : Type := mkWelford { wf_count : nat; wf_mean : F; wf_m2 : F }.
Definition welford_step (w : Welford) (ret : F) : Welford :=
  let count := S (wf_count w) in
  let delta := ret - wf_mean w in
  let mean := wf_mean w + delta / of_Z (Z.of_nat count) in
  mkWelford count mean (wf_m2 w + delta * (ret - mean)).

(** The expanding-window points: the rest of the column, [w] what the values
    before gave, [seen] the times before. *)
Fixpoint std_series (seen : list Time) (rows : list (F * Time)) (w : Welford) : list (Time * F) :=
  match rows with
  | [] => []
  | (ret, t) :: rest =>
      let seen := seen ++ [t] in
      if is_nan ret then std_series seen rest w
      else
        let w := welford_step w ret in
        if (wf_count w <? 2)%nat then std_series seen rest w
        else
          (t, fsqrt (wf_m2 w / of_Z (Z.of_nat (wf_count w) - 1)) * fsqrt (annualizationFactor seen))
          :: std_series seen rest w
  end.

Definition one_series (times : list Time) (freq : Frequency) (values : list F) : result (option (DataFrame F)) :=
  Some <$> NewDataFrame times [portfolioAsset] [PortfolioEquity] freq [values].

Definition stdDev_ComputeSeries stats window : result (option (DataFrame F)) :=
  match Returns stats window with
  | None => Ok None
  | Some df =>
      let col := equity_of df in
      let times := df_times df in
      if (length col =? 0)%nat || negb (length times =? length col)%nat then Ok None
      else
        let points := std_series [] (zip col times) (mkWelford 0 0 0) in
        if (length points =? 0)%nat then Ok None else one_series points.*1 (df_freq df) points.*2
  end.

(** ** Shape and tails of the distribution *)
Definition skewness_Compute stats window : result F :=
  on_returns stats window (λ _ col,
    if (length col <? 3)%nat then Ok 0
    else
      let stdDev := stat_StdDev col in
      if stdDev =? 0 then Ok 0
      else
        let m := stat_Mean col in
        let sum := fold_left (λ sum v, sum + (v - m) * (v - m) * (v - m)) col 0 in
        Ok (sum / flength col / (stdDev * stdDev * stdDev))).

Definition excessKurtosis_Compute stats window : result F :=
  on_returns stats window (λ _ col,
    if (length col <? 4)%nat then Ok 0
    else
      let stdDev := stat_StdDev col in
      if stdDev =? 0 then Ok 0
      else
        let m := stat_Mean col in
        let sum := fold_left (λ sum v, sum + (v - m) * (v - m) * (v - m) * (v - m)) col 0 in
        Ok (sum / flength col / (stdDev * stdDev * stdDev * stdDev) - of_Z 3)).

Definition sort_Float64s col : list F := sort_slice float_less col.
(** [int(x)] of a value between 0 and [n]: how many of 1 .. n it reaches. *)
Definition int_upto (n : nat) (x : F) : nat := length (keep (λ i, of_Z (Z.of_nat i) <=? x) (seq 1 n)).

Definition valueAtRisk_Compute stats window : result F :=
  on_returns stats window (λ _ col,
    if (length col =? 0)%nat then Ok 0
    else
      let sorted := sort_Float64s col in
      Ok (value_at sorted (int_upto (length col) (ffloor (lit 5 100 * flength sorted))))).

Definition cvarMetric_Compute stats window : result F :=
  on_returns stats window (λ _ col,
    if (length col =? 0)%nat then Ok 0
    else
      let sorted := sort_Float64s col in
      let cutoff := int_upto (length col) (lit 5 100 * flength sorted) in
      let cutoff := if (cutoff =? 0)%nat then 1%nat else cutoff in
      Ok (fsum (take cutoff sorted) / of_Z (Z.of_nat cutoff))).

Definition tailRatio_Compute stats window : result F :=
  on_returns stats window (λ _ col,
    if (length col =? 0)%nat then Ok 0
    else
      let sorted := sort_Float64s col in
      let n := length col in
      let fifthPercentile := value_at sorted (int_upto n (ffloor (lit 5 100 * flength sorted))) in
      let p95 := value_at sorted (int_upto n (ffloor (lit 95 100 * flength sorted))) in
      if fifthPercentile =? 0 then Ok 0 else Ok (p95 / fabs fifthPercentile)).

(** ** Gains against losses *)
Definition omegaRatio_Compute stats window : result F :=
  on_returns stats window (λ _ col,
    let gains := fold_left (λ gains v, if v >? 0 then gains + v else gains) col 0 in
    let losses := fold_left (λ losses v, if v >? 0 then losses else losses + fabs v) col 0 in
    if (length col =? 0)%nat then Ok 0 else if losses =? 0 then Ok 0 else Ok (gains / losses)).

Definition gainToPain_Compute stats window : result F :=
  on_returns stats window (λ _ col,
    let totalReturn := fsum col in
    let negativeSum := fold_left (λ s v, if v <? 0 then s + fabs v else s) col 0 in
    if (length col =? 0)%nat then Ok 0 else if negativeSum =? 0 then Ok 0 else Ok (totalReturn / negativeSum)).

Definition gainLossRatio_Compute stats window : result F :=
  on_returns stats window (λ _ col,
    let positive := keep (λ v, v >? 0) col in
    let negative := keep (λ v, v <? 0) col in
    if (length col =? 0)%nat then Ok 0
    else if (length positive =? 0)%nat || (length negative =? 0)%nat then Ok fnan
    else Ok (stat_Mean positive / fabs (stat_Mean negative))).

Definition kellyCriterion_Compute stats window : result F :=
  on_returns stats window (λ _ col,
    let wins := keep (λ v, v >? 0) col in
    let losses := keep (λ v, v <? 0) col in
    if (length col =? 0)%nat then Ok 0
    else if (length wins =? 0)%nat || (length losses =? 0)%nat then Ok 0
    else
      let avgWin := fsum wins / flength wins in
      let avgLoss := fsum (fabs <$> losses) / flength losses in
      let w := flength wins / flength col in
      Ok (w - (1 - w) / (avgWin / avgLoss))).

(** The share of the returns that pass a test. *)
Definition share_of (p : F → bool) stats window : result F :=
  on_returns stats window (λ _ col,
    if (length col =? 0)%nat then Ok 0 else Ok (flength (keep p col) / flength col)).
Definition exposure_Compute := share_of (λ v, v !=? 0).
Definition nPositivePeriods_Compute := share_of (λ v, v >? 0).

(** ** Streaks *)
Definition streak_step (p : F → bool) (s : nat * nat) (v : F) : nat * nat :=
  if p v then (Nat.max s.1 (S s.2), S s.2) else (s.1, 0%nat).
(** The longest run of values that pass the test. *)
Definition maxStreak (p : F → bool) col : nat := (fold_left (streak_step p) col (0%nat, 0%nat)).1.
Definition streak_of (p : F → bool) stats window : result F :=
  on_returns stats window (λ _ col,
    if (length col =? 0)%nat then Ok 0 else Ok (of_Z (Z.of_nat (maxStreak p col)))).
Definition consecutiveWins_Compute := streak_of (λ v, v >? 0).
Definition consecutiveLosses_Compute := streak_of (λ v, v <? 0).

(** ** The slope of the log of the growth of 1000, over its standard error *)
Fixpoint log_vami (cumProd : F) col : list F :=
  match col with
  | [] => []
  | ri :: rest => let cumProd := cumProd * (1 + ri) in flog cumProd :: log_vami cumProd rest
  end.

Definition kRatio_Compute stats window : result F :=
  on_returns stats window (λ _ col,
    let count := length col in
    if (count <? 3)%nat then Ok 0
    else
      let logVAMI := log_vami (of_Z 1000) col in
      let numPeriods := flength col in
      let meanX := (numPeriods - 1) / of_Z 2 in
      let meanY := stat_Mean logVAMI in
      let points : list (nat * F) := zip (seq 0 count) logVAMI in
      let x (idx : nat) := of_Z (Z.of_nat idx) in
      let sumXXdev := fold_left (λ s (p : nat * F), s + (x p.1 - meanX) * (x p.1 - meanX)) points 0 in
      let sumXYdev := fold_left (λ s (p : nat * F), s + (x p.1 - meanX) * (p.2 - meanY)) points 0 in
      if sumXXdev =? 0 then Ok 0
      else
        let slope := sumXYdev / sumXXdev in
        let intercept := meanY - slope * meanX in
        let resid (p : nat * F) := p.2 - (slope * x p.1 + intercept) in
        let sumResidSq := fold_left (λ s (p : nat * F), s + resid p * resid p) points 0 in
        let stderr := fsqrt (sumResidSq / (numPeriods - of_Z 2)) / fsqrt sumXXdev in
        if stderr =? 0 then Ok 0 else Ok (slope / (stderr * numPeriods))).
End ReturnMetrics.
Arguments Welford : clear implicits.
