(* ===== verification/GrowthMetrics.v ===== *)
(** * GrowthMetrics: metrics of the equity curve ([portfolio], one file per metric)

    Time- and money-weighted return, drawdowns and the ratios built on them,
    the Ulcer index and the sustainable withdrawal rates. *)
From Stdlib Require Import ZArith.
From stdpp Require Import base list gmap strings.
From S2P Require Import Prelude Num GoTime Asset Period Frame FrameOps Resample Broker Ledger Account Stats ReturnMetrics.

Section GrowthMetrics.
Context {F : Type} `{Num F} `{Gonum F} `{GoStat F} `{NumSqrt F} `{NumPow F}.
Context {tz : TZDB} {srt : GoSort}.
Local Open Scope num_scope.
Implicit Types (stats : PortfolioStats F) (window : option Period) (col equity : list F) (times : list Time).

(** The equity column and its axis, or what the metric answers without a
    frame. *)
Definition on_equity {A} stats window (absent : result A) (k : DataFrame F → list F → list Time → result A) : result A :=
  match EquitySeries stats window with
  | None => absent
  | Some df => k df (equity_of df) (df_times df)
  end.

(** ** Time-weighted return *)
Definition twrr_Compute stats window : result F :=
  on_equity stats window (Err ErrInsufficientData) (λ _ equity times,
    if (length equity <? 2)%nat then Err ErrInsufficientData
    else
      let flows := buildFlowMap (TransactionsView stats) (first_time times) (last_time times) in
      Ok (compound (subPeriodReturns equity times flows) - 1)).

(** The running product less one after each return. *)
Fixpoint cumulative (product : F) (returns : list F) : list F :=
  match returns with
  | [] => []
  | ri :: rest => let product := product * (1 + ri) in (product - 1) :: cumulative product rest
  end.

Definition twrr_ComputeSeries stats window : result (option (DataFrame F)) :=
  on_equity stats window (Ok None) (λ df equity times,
    if (length equity <? 2)%nat then Ok None
    else
      let flows := buildFlowMap (TransactionsView stats) (first_time times) (last_time times) in
      one_series (drop 1 times) (df_freq df) (cumulative 1 (subPeriodReturns equity times flows))).

Definition annualize (growth years : F) : F := fpow growth (1 / years) - 1.

Definition cagrMetric_Compute stats window : result F :=
  on_equity stats window (Err ErrInsufficientData) (λ _ eqCol eqTimes,
    if (length eqCol <? 2)%nat || (length eqTimes <? 2)%nat then Err ErrInsufficientData
    else
      let years := span_years eqTimes in
      if (years <=? 0) || (value_at eqCol 0 <=? 0) || (value_at eqCol (length eqCol - 1) <=? 0) then Err ErrInsufficientData
      else
        let growth := flowAdjustedGrowth stats eqCol eqTimes in
        if growth <=? 0 then Err ErrInsufficientData else Ok (annualize growth years)).

(** ** Money-weighted return *)
Record cashFlow : Type := mkFlow { cf_date : Time; cf_amount : F }.

(** The starting equity as an outflow, the external flows after it, the final
    equity as an inflow. *)
Definition investor_flows (txns : list (Transaction F)) equity times : list cashFlow :=
  let startDate := first_time times in
  let endDate := last_time times in
  mkFlow startDate (- value_at equity 0)
  :: ((λ txn, mkFlow (t_Date txn) (- t_Amount txn)) <$>
        keep (λ txn, is_flow txn && After (t_Date txn) startDate && negb (After (t_Date txn) endDate)) txns)
  ++ [mkFlow endDate (value_at equity (length equity - 1))].

Definition flow_years (reference : Time) (cf : cashFlow) : F := days_between (cf_date cf) reference / of_Z 365.
Definition npv (reference : Time) (flows : list cashFlow) (rate : F) : F :=
  fold_left (λ sum cf, sum + cf_amount cf / fpow (1 + rate) (flow_years reference cf)) flows 0.
Definition npvDeriv (reference : Time) (flows : list cashFlow) (rate : F) : F :=
  fold_left (λ sum cf,
    let exp := flow_years reference cf in
    sum + - cf_amount cf * exp / fpow (1 + rate) (exp + 1)) flows 0.

(** Newton-Raphson: at most [iters] steps. *)
Fixpoint newton (reference : Time) (flows : list cashFlow) (iters : nat) (guessRate : F) : F :=
  match iters with
  | O => guessRate
  | S iters =>
      let npvValue := npv reference flows guessRate in
      let fp := npvDeriv reference flows guessRate in
      if fabs fp <? lit 1 1000000000000000 then guessRate
      else
        let rNew := guessRate - npvValue / fp in
        if fabs (rNew - guessRate) <? lit 1 1000000000000 then rNew else newton reference flows iters rNew
  end.

Definition mwrr_Compute stats window : result F :=
  on_equity stats window (Err ErrInsufficientData) (λ _ equity times,
    if (length equity <? 2)%nat then Err ErrInsufficientData
    else
      let flows := investor_flows (TransactionsView stats) equity times in
      let guessRate := newton (first_time times) flows 100 (lit 1 10) in
      if is_nan guessRate || is_inf guessRate then Ok 0 else Ok guessRate).

(** ** Against the benchmark *)
Definition activeReturn_Compute stats window : result F :=
  match EquitySeries stats window with
  | None => Ok 0
  | Some df =>
      need_benchmark stats 0 (λ pd,
        let eqCol := equity_of df in
        let benchCol := Column (Window pd window) portfolioAsset PortfolioBenchmark in
        if (length eqCol <? 2)%nat || (length benchCol <? 2)%nat then Ok 0
        else
          let portReturn := flowAdjustedGrowth stats eqCol (df_times df) - 1 in
          let benchReturn := value_at benchCol (length benchCol - 1) / value_at benchCol 0 - 1 in
          Ok (portReturn - benchReturn))
  end.

Definition activeReturn_ComputeSeries stats window : result (option (DataFrame F)) :=
  need_benchmark stats None (λ _,
    match Returns stats window, BenchmarkReturns stats window with
    | Some rdf, Some bdf =>
        let '(portR, benchR) := alignedRemoveNaN (equity_of rdf) (Column bdf portfolioAsset PortfolioBenchmark) in
        let count := length portR in
        if (count =? 0)%nat then Ok None
        else
          let series := zip_with fsub (cumulative 1 portR) (cumulative 1 benchR) in
          let times := df_times rdf in
          one_series (drop (length times - count) times) (df_freq rdf) series
    | _, _ => Ok None
    end).

Definition treynor_Compute stats window : result F :=
  match EquitySeries stats window, PerfDataView stats with
  | Some df, Some pd =>
      match Column pd portfolioAsset PortfolioRiskFree with
      | [] => Err ErrNoRiskFreeRate
      | rf0 :: _ =>
          if rf0 =? 0 then Err ErrNoRiskFreeRate
          else
            let eqCol := equity_of df in
            let rfWinCol := Column (Window pd window) portfolioAsset PortfolioRiskFree in
            let calendarDays := span_days (df_times df) in
            if (length eqCol <? 2)%nat || (length rfWinCol <? 2)%nat then Ok 0
            else if calendarDays <? of_Z 30 then Ok 0
            else
              let years := calendarDays / lit 36525 100 in
              let growth := flowAdjustedGrowth stats eqCol (df_times df) in
              if growth <=? 0 then Ok 0
              else
                let cagrPortfolio := annualize growth years in
                let cagrRiskFree := annualize (value_at rfWinCol (length rfWinCol - 1) / value_at rfWinCol 0) years in
                betaValue ← beta_Compute stats window;
                if betaValue =? 0 then Ok 0 else Ok ((cagrPortfolio - cagrRiskFree) / betaValue)
      end
  | _, _ => Ok 0
  end.

(** ** Drawdowns *)
Definition min_below (start : F) col : F := fold_left (λ minDD v, if v <? minDD then v else minDD) col start.
Definition drawdown_column stats window : option (list F) := equity_of <$> Drawdown stats window.

Definition maxDrawdown_Compute stats window : result F :=
  match drawdown_column stats window with
  | None | Some [] => Ok 0
  | Some ddCol => Ok (min_below 0 ddCol)
  end.
Definition maxDrawdown_ComputeSeries stats window : result (option (DataFrame F)) :=
  match Drawdown stats window with
  | None => Ok None
  | Some df =>
      let ddCol := equity_of df in
      if (length ddCol =? 0)%nat then Ok None else one_series (df_times df) (df_freq df) ddCol
  end.

Definition avgDrawdown_Compute stats window : result F :=
  match drawdown_column stats window with
  | None | Some [] => Ok 0
  | Some ddCol => Ok (stat_Mean ddCol)
  end.

(** The lengths of the runs below zero. *)
Definition drawdown_run (s : list nat * nat) (v : F) : list nat * nat :=
  if v <? 0 then (s.1, S s.2) else if (0 <? s.2)%nat then (s.1 ++ [s.2], 0%nat) else s.
Definition drawdown_durations col : list nat :=
  let s := fold_left drawdown_run col ([], 0%nat) in
  if (0 <? s.2)%nat then s.1 ++ [s.2] else s.1.
Definition avgDrawdownDays_Compute stats window : result F :=
  match drawdown_column stats window with
  | None => Ok 0
  | Some ddCol =>
      let durations := drawdown_durations ddCol in
      if (length ddCol <? 2)%nat then Ok 0
      else if (length durations =? 0)%nat then Ok 0
      else Ok (of_Z (Z.of_nat (sum_list durations)) / flength durations)
  end.

Definition calmar_Compute stats window : result F :=
  on_equity stats window (Ok 0) (λ _ eqCol eqTimes,
    if (length eqCol <? 2)%nat || (length eqTimes <? 2)%nat then Ok 0
    else
      let years := span_years eqTimes in
      if years <=? 0 then Ok 0
      else
        let growth := flowAdjustedGrowth stats eqCol eqTimes in
        if growth <=? 0 then Ok 0
        else
          match drawdown_column stats window with
          | None => Ok 0
          | Some ddCol =>
              let minDD := min_below 0 ddCol in
              if minDD =? 0 then Ok 0 else Ok (annualize growth years / fabs minDD)
          end).

(** Growth less one and the deepest drawdown, of the ratios that use both. *)
Definition on_growth_and_drawdown stats window (k : F → F → result F) : result F :=
  on_equity stats window (Ok 0) (λ _ eqCol eqTimes,
    if (length eqCol <? 2)%nat then Ok 0
    else
      match drawdown_column stats window with
      | None => Ok 0
      | Some ddCol => k (flowAdjustedGrowth stats eqCol eqTimes - 1) (min_below 0 ddCol)
      end).
Definition kellerRatio_Compute stats window : result F :=
  on_growth_and_drawdown stats window (λ totalReturn minDD,
    let maxDD := fabs minDD in
    if (totalReturn >=? 0) && (maxDD <=? lit 1 2) then Ok (totalReturn * (1 - maxDD / (1 - maxDD))) else Ok 0).
Definition recoveryFactor_Compute stats window : result F :=
  on_growth_and_drawdown stats window (λ totalReturn minDD,
    if minDD =? 0 then Ok 0 else Ok (totalReturn / fabs minDD)).

(** ** Ulcer index *)
Definition ulcerLookback : nat := 14.

(** The drawdown of one bar, in percent, from the peak of its lookback. *)
Definition bar_drawdown (eqCol : list F) (ii : nat) : F :=
  let start := (ii - (ulcerLookback - 1))%nat in
  let peak := fold_left (λ peak val, if val >? peak then val else peak)
    (slice start (ii + 1) eqCol) (value_at eqCol start) in
  (value_at eqCol ii - peak) / peak * of_Z 100.
(** The root mean square of the last [ulcerLookback] drawdowns, 0 before. *)
Definition bar_ulcer (dd : list F) (ii : nat) : F :=
  if (ii <? ulcerLookback - 1)%nat then 0
  else
    let sumSq := fold_left (λ sumSq d, sumSq + d * d) (slice (ii - (ulcerLookback - 1)) (ii + 1) dd) 0 in
    fsqrt (sumSq / of_Z (Z.of_nat ulcerLookback)).
Definition rollingUlcerSeries (eqCol : list F) : list F :=
  let bars := seq 0 (length eqCol) in
  let dd := bar_drawdown eqCol <$> bars in
  bar_ulcer dd <$> bars.

Definition on_ulcer {A} stats window (absent : A) (k : DataFrame F → list F → result A) : result A :=
  on_equity stats window (Ok absent) (λ df eqCol _,
    if (length eqCol <? ulcerLookback)%nat then Ok absent else k df (rollingUlcerSeries eqCol)).
Definition ulcerIndex_Compute stats window : result F :=
  on_ulcer stats window 0 (λ _ series, Ok (value_at series (length series - 1))).
Definition ulcerIndex_ComputeSeries stats window : result (option (DataFrame F)) :=
  on_ulcer stats window None (λ df series, one_series (df_times df) (df_freq df) series).
Definition active_ulcers (series : list F) : list F := drop (ulcerLookback - 1) series.
Definition avgUlcerIndex_Compute stats window : result F :=
  on_ulcer stats window 0 (λ _ series, Ok (fsum (active_ulcers series) / flength (active_ulcers series))).
Definition p90UlcerIndex_Compute stats window : result F :=
  on_ulcer stats window 0 (λ _ series, Ok (stat_Quantile_Empirical (lit 9 10) (sort_Float64s (active_ulcers series)))).
Definition medianUlcerIndex_Compute stats window : result F :=
  on_ulcer stats window 0 (λ _ series, Ok (stat_Quantile_Empirical (lit 1 2) (sort_Float64s (active_ulcers series)))).

(** ** Withdrawal rates *)
Definition inflation : F := lit 103 100.

Record Drawing : Type := mkDrawing { dw_balance : F; dw_boundary : Z; dw_years : nat }.
Definition year_boundary (startDate : Time) (years : nat) : Z := Unix (AddDate startDate (Z.of_nat years) 0 0).

(** One day: its return, and at a year boundary the withdrawal; [None] when
    the balance is spent. *)
Definition draw_day (startBalance rate : F) (dynamic : bool) (startDate : Time) (prev : F) (equity : F) (t : Time)
    (w : Drawing) : option Drawing :=
  let balance := if prev >? 0 then dw_balance w * (1 + (equity - prev) / prev) else dw_balance w in
  if (dw_boundary w <=? Unix t)%Z then
    let yearsElapsed := S (dw_years w) in
    let inflationFactor := fpow inflation (of_Z (Z.of_nat yearsElapsed)) in
    let withdrawal := rate * startBalance * inflationFactor in
    let withdrawal :=
      if dynamic && (balance * rate <? withdrawal) then balance * rate else withdrawal in
    let balance := balance - withdrawal in
    if balance <=? 0 then None
    else Some (mkDrawing balance (year_boundary startDate (S yearsElapsed)) yearsElapsed)
  else Some (mkDrawing balance (dw_boundary w) (dw_years w)).

Fixpoint draw_days (startBalance rate : F) (dynamic : bool) (startDate : Time) (prev : F) (days : list (F * Time))
    (w : Drawing) : option Drawing :=
  match days with
  | [] => Some w
  | (eq, t) :: rest =>
      match draw_day startBalance rate dynamic startDate prev eq t w with
      | None => None
      | Some w => draw_days startBalance rate dynamic startDate eq rest w
      end
  end.

Definition withdrawalSustainable equity times (rate : F) (dynamic : bool) (criterion : F → F → F → bool) : bool :=
  if (length equity <? 2)%nat || (length times <? 2)%nat then false
  else
    match zip equity times with
    | [] => false
    | (startBalance, startDate) :: days =>
        match draw_days startBalance rate dynamic startDate startBalance days
                (mkDrawing startBalance (year_boundary startDate 1) 0) with
        | None => false
        | Some w => criterion startBalance (dw_balance w) (fpow inflation (span_years times))
        end
    end.

(** The rates are tried from 0.1% up, in tenths of a percent, to the first
    that fails. *)
Definition rate_of (rateBps : nat) : F := of_Z (Z.of_nat rateBps) / of_Z 1000.
Fixpoint best_rate (ok : F → bool) (best : F) (rates : list nat) : F :=
  match rates with
  | [] => best
  | r :: rest => if ok (rate_of r) then best_rate ok (rate_of r) rest else best
  end.

Definition withdrawal_rate (dynamic : bool) (criterion : F → F → F → bool) stats window : result F :=
  on_equity stats window (Ok 0) (λ _ equity times,
    if (length equity <? 2)%nat || (length times <? 2)%nat then Ok 0
    else if span_days times <? of_Z 365 then Ok 0
    else Ok (best_rate (λ rate, withdrawalSustainable equity times rate dynamic criterion) 0 (seq 1 200))).
Definition safeWithdrawalRate_Compute := withdrawal_rate false (λ _ _ _, true).
Definition dynamicWithdrawalRate_Compute := withdrawal_rate true (λ _ _ _, true).
Definition perpetualWithdrawalRate_Compute :=
  withdrawal_rate false (λ startBalance endBalance inflationFactor, endBalance >=? startBalance * inflationFactor).
End GrowthMetrics.
Arguments cashFlow : clear implicits.
Arguments Drawing : clear implicits.
