(* ===== verification/TradeTaxMetrics.v ===== *)
(** * TradeTaxMetrics: metrics of the trades and of the tax ledger
    ([portfolio], one file per metric; [after_tax_equity.go], [tax_rates.go])

    Trade metrics read the completed round trips, tax metrics the replay of
    the transaction log ([Gains]) and the open lots; the after-tax returns
    subtract the cumulative tax from the equity curve. *)
From Stdlib Require Import ZArith.
From stdpp Require Import base list gmap strings.
From S2P Require Import Prelude Num GoTime Asset Period Frame FrameOps Resample Broker Lots Ledger Gains Account Stats ReturnMetrics GrowthMetrics.

Section TradeMetrics.
Context {F : Type} `{Num F} `{Gonum F} `{GoStat F} `{NumSqrt F} `{NumPow F}.
Context {tz : TZDB} {go : GoMapOrder} {srt : GoSort}.
Local Open Scope num_scope.
Implicit Types (stats : PortfolioStats F) (window : option Period) (trades : list (TradeDetail F)).

Definition trips_of stats : list (roundTrip F) := (roundTrips (TradeDetailsView stats) (TransactionsView stats)).1.

(** ** Wins and losses *)
Definition finite_pnl (rt : roundTrip F) : bool := negb (is_nan (pnl rt) || is_inf (pnl rt)).
Definition win (rt : roundTrip F) : bool := pnl rt >? 0.
Definition total_pnl (l : list (roundTrip F)) : F := fsum (pnl <$> l).

Definition win_share (trips : list (roundTrip F)) : F :=
  if (length trips =? 0)%nat then 0 else flength (keep win trips) / flength trips.
Definition winRate_Compute stats window : result F := Ok (win_share (trips_of stats)).

Definition in_direction (dir : TradeDirection) trades : list (TradeDetail F) :=
  keep (λ td, match td_Direction td, dir with TradeLong, TradeLong | TradeShort, TradeShort => true | _, _ => false end) trades.
Definition longWinRate_Compute stats window : result F :=
  Ok (win_share (trip_of <$> in_direction TradeLong (TradeDetailsView stats))).
Definition shortWinRate_Compute stats window : result F :=
  Ok (win_share (trip_of <$> in_direction TradeShort (TradeDetailsView stats))).

Definition averageWin_Compute stats window : result F :=
  let wins := keep win (keep finite_pnl (trips_of stats)) in
  if (length wins =? 0)%nat then Ok 0 else Ok (total_pnl wins / flength wins).
Definition averageLoss_Compute stats window : result F :=
  let losses := keep (λ rt, pnl rt <=? 0) (keep finite_pnl (trips_of stats)) in
  if (length losses =? 0)%nat then Ok 0 else Ok (total_pnl losses / flength losses).

(** Gross profit over gross loss; NaN without losses. *)
Definition profit_factor (trips : list (roundTrip F)) : F :=
  let sumWin := total_pnl (keep win trips) in
  let sumLoss := total_pnl (keep (λ rt, negb (win rt)) trips) in
  if sumLoss =? 0 then fnan else sumWin / fabs sumLoss.
Definition profitFactor_Compute stats window : result F := Ok (profit_factor (keep finite_pnl (trips_of stats))).
Definition longProfitFactor_Compute stats window : result F :=
  Ok (profit_factor (trip_of <$> in_direction TradeLong (TradeDetailsView stats))).
Definition shortProfitFactor_Compute stats window : result F :=
  Ok (profit_factor (trip_of <$> in_direction TradeShort (TradeDetailsView stats))).

Definition tradeGainLossRatio_Compute stats window : result F :=
  let wins := keep win (trips_of stats) in
  let losses := keep (λ rt, pnl rt <? 0) (trips_of stats) in
  if (length wins =? 0)%nat || (length losses =? 0)%nat then Ok fnan
  else Ok (total_pnl wins / flength wins / fabs (total_pnl losses / flength losses)).

Definition averageHoldingPeriod_Compute stats window : result F :=
  let trips := trips_of stats in
  if (length trips =? 0)%nat then Ok 0 else Ok (fsum (holdDays <$> trips) / flength trips).

Definition turnover_Compute stats window : result F :=
  let totalSellValue := (roundTrips (TradeDetailsView stats) (TransactionsView stats)).2 in
  match PerfDataView stats with
  | None => Ok 0
  | Some perfData =>
      let equityCol := equity_of perfData in
      if (length equityCol <? 2)%nat || (totalSellValue =? 0) then Ok 0
      else
        let meanValue := fsum equityCol / flength equityCol in
        if meanValue <=? 0 then Ok 0
        else
          let periodDays := span_days (df_times perfData) in
          if periodDays <=? 0 then Ok 0 else Ok (totalSellValue / meanValue * (lit 36525 100 / periodDays))
  end.

(** ** Excursions *)
Definition mean_of (f : TradeDetail F → F) trades : F := fsum (f <$> trades) / flength trades.
Definition average_excursion (f : TradeDetail F → F) stats window : result F :=
  let trades := TradeDetailsView stats in
  if (length trades =? 0)%nat then Ok 0 else Ok (mean_of f trades).
Definition averageMFE_Compute := average_excursion td_MFE.
Definition averageMAE_Compute := average_excursion td_MAE.

Definition median (values : list F) : F :=
  let sorted := sort_Float64s values in
  let count := length sorted in
  if (count mod 2 =? 0)%nat then (value_at sorted (count / 2 - 1) + value_at sorted (count / 2)) / of_Z 2
  else value_at sorted (count / 2).
Definition median_excursion (f : TradeDetail F → F) stats window : result F :=
  let trades := TradeDetailsView stats in
  if (length trades =? 0)%nat then Ok 0 else Ok (median (f <$> trades)).
Definition medianMFE_Compute := median_excursion td_MFE.
Definition medianMAE_Compute := median_excursion td_MAE.

Definition edgeRatio_Compute stats window : result F :=
  let trades := TradeDetailsView stats in
  if (length trades =? 0)%nat then Ok fnan
  else if mean_of td_MAE trades =? 0 then Ok fnan
  else Ok (mean_of td_MFE trades / fabs (mean_of td_MAE trades)).

Definition return_pct (td : TradeDetail F) : F :=
  match td_Direction td with
  | TradeShort => (td_EntryPrice td - td_ExitPrice td) / td_EntryPrice td
  | TradeLong => (td_ExitPrice td - td_EntryPrice td) / td_EntryPrice td
  end.
Definition tradeCaptureRatio_Compute stats window : result F :=
  let trades := TradeDetailsView stats in
  if (length trades =? 0)%nat then Ok fnan
  else if mean_of td_MFE trades =? 0 then Ok fnan
  else Ok (mean_of return_pct trades / mean_of td_MFE trades).

(** ** Realized gains and income *)
Record taxRates : Type := mkRates { LTCG_rate : F; STCG_rate : F }.
Definition defaultTaxRates : taxRates := mkRates (lit 15 100) (lit 25 100).

(** The gains and dividends of the window: long-term, short-term, qualified,
    other. *)
Definition window_gains stats window : F * F * F * F :=
  let bounds := windowBounds stats window in
  realizedGainsInRange (TransactionsView stats) bounds.1 bounds.2.
Definition ltcgMetric_Compute stats window : result F := let '(ltcg, _, _, _) := window_gains stats window in Ok ltcg.
Definition stcgMetric_Compute stats window : result F := let '(_, stcg, _, _) := window_gains stats window in Ok stcg.

Definition dividend_income (qualified : bool) stats window : F :=
  let bounds := windowBounds stats window in
  fold_left (λ total tx,
    match t_Type tx with
    | DividendTransaction =>
        if Bool.eqb (t_Qualified tx) qualified && inRange bounds.1 bounds.2 (t_Date tx) then total + t_Amount tx else total
    | _ => total
    end) (TransactionsView stats) 0.
Definition qualifiedDividends_Compute stats window : result F := Ok (dividend_income true stats window).
Definition nonQualifiedIncome_Compute stats window : result F := Ok (dividend_income false stats window).

(** ** Tax against gain *)
Definition trading_tax (rates : taxRates) (stcg ltcg : F) : F :=
  let tax := if stcg >? 0 then 0 + STCG_rate rates * stcg else 0 in
  if ltcg >? 0 then tax + LTCG_rate rates * ltcg else tax.

(** The change of the equity curve, when it is a gain. *)
Definition on_gain stats window (k : F → result F) : result F :=
  on_equity stats window (Ok 0) (λ _ ec _,
    if (length ec <? 2)%nat then Ok 0
    else
      let totalGain := value_at ec (length ec - 1) - value_at ec 0 in
      if totalGain <=? 0 then Ok 0 else k totalGain).
Definition taxDrag_Compute stats window : result F :=
  on_gain stats window (λ preTaxReturn,
    let '(ltcg, stcg, _, _) := window_gains stats window in
    Ok (trading_tax defaultTaxRates stcg ltcg / preTaxReturn)).
Definition taxCostRatio_Compute stats window : result F :=
  on_gain stats window (λ totalGain,
    let '(ltcg, stcg, qualDiv, nonQualDiv) := window_gains stats window in
    let estimatedTax := trading_tax (mkRates (lit 15 100) (lit 25 100)) stcg ltcg in
    let estimatedTax := estimatedTax + lit 15 100 * qualDiv in
    Ok ((estimatedTax + lit 25 100 * nonQualDiv) / totalGain)).

(** ** Unrealized gains *)
Definition lot_gain (holds : F → bool) (now : Time) (gain : TaxLot F → F) (total : F) (lot : TaxLot F) : F :=
  if holds (days_between now (l_Date lot)) then total + gain lot else total.

(** [None] when a held asset has no price. *)
Fixpoint long_gains (holds : F → bool) (now : Time) (prices : DataFrame F) (total : F)
    (positions : list (Asset * list (TaxLot F))) : option F :=
  match positions with
  | [] => Some total
  | (ast, lots) :: rest =>
      let currentPrice := Value prices ast MetricClose in
      if is_nan currentPrice then None
      else
        long_gains holds now prices
          (fold_left (lot_gain holds now (λ lot, (currentPrice - l_Price lot) * l_Qty lot)) lots total) rest
  end.
Definition short_gains (holds : F → bool) (now : Time) (prices : DataFrame F) (total : F)
    (entry : Asset * list (TaxLot F)) : F :=
  let currentPrice := Value prices entry.1 MetricClose in
  if is_nan currentPrice then total
  else fold_left (lot_gain holds now (λ lot, (l_Price lot - currentPrice) * l_Qty lot)) entry.2 total.

Definition unrealized (holds : F → bool) stats window : result F :=
  match PricesView stats, PerfDataView stats with
  | Some prices, Some perfData =>
      match last (df_times perfData) with
      | None => Ok 0
      | Some now =>
          match long_gains holds now prices 0 (range (TaxLotsView stats)) with
          | None => Ok fnan
          | Some total => Ok (fold_left (short_gains holds now prices) (range (ShortLotsView stats)) total)
          end
      end
  | _, _ => Ok 0
  end.
Definition unrealizedLTCG_Compute := unrealized (λ holdingDays, holdingDays >? of_Z 365).
Definition unrealizedSTCG_Compute := unrealized (λ holdingDays, holdingDays <=? of_Z 365).

(** ** After-tax returns *)
Definition tax_events (rates : taxRates) (gains : list (gainEvent F)) : list (Time * F) :=
  keep (λ e : Time * F, e.2 >? 0) ((λ g, (ge_date g, trading_tax rates (ge_stcg g) (ge_ltcg g))) <$> gains).

(** The taxes due at or before a date, taken from the front of the events. *)
Fixpoint pay_taxes (ts : Time) (cumTax : F) (events : list (Time * F)) : F * list (Time * F) :=
  match events with
  | [] => (cumTax, [])
  | e :: rest => if After e.1 ts then (cumTax, events) else pay_taxes ts (cumTax + e.2) rest
  end.
Fixpoint after_taxes (cumTax : F) (events : list (Time * F)) (points : list (F * Time)) : list F :=
  match points with
  | [] => []
  | (equity, ts) :: rest =>
      let '(cumTax, events) := pay_taxes ts cumTax events in
      (equity - cumTax) :: after_taxes cumTax events rest
  end.
(** [None] is the source's nil. *)
Definition afterTaxEquity (equity : list F) (times : list Time) (txns : list (Transaction F)) (start end_ : Time)
    (rates : taxRates) : option (list F) :=
  if (length equity =? 0)%nat || negb (length times =? length equity)%nat then None
  else Some (after_taxes 0 (tax_events rates (rp_events (replayGainEvents txns start end_))) (zip equity times)).

(** The growth of the after-tax curve, and the curve. *)
Definition on_after_tax stats window (k : list F → F → list Time → result F) : result F :=
  on_equity stats window (Err ErrInsufficientData) (λ _ equity times,
    if (length equity <? 2)%nat then Err ErrInsufficientData
    else
      let bounds := windowBounds stats window in
      let txns := TransactionsView stats in
      match afterTaxEquity equity times txns bounds.1 bounds.2 defaultTaxRates with
      | None => Err ErrInsufficientData
      | Some adjusted =>
          let flows := buildFlowMap txns (first_time times) (last_time times) in
          k adjusted (compound (subPeriodReturns adjusted times flows)) times
      end).
Definition afterTaxTWRR_Compute stats window : result F :=
  on_after_tax stats window (λ _ growth _, Ok (growth - 1)).
Definition afterTaxCAGR_Compute stats window : result F :=
  on_after_tax stats window (λ adjusted growth times,
    if value_at adjusted 0 <=? 0 then Err ErrInsufficientData
    else
      let years := span_years times in
      if years <=? 0 then Err ErrInsufficientData
      else if growth <=? 0 then Err ErrInsufficientData
      else Ok (annualize growth years)).

(** The benchmark held over the window, its gain taxed once at the end: the
    initial and the final value. *)
Definition on_taxed_benchmark stats window (k : list Time → F → F → result F) : result F :=
  match PerfDataView stats with
  | None => Err ErrNoBenchmark
  | Some _ =>
      need_benchmark stats 0 (λ pd,
        let bdf := Window pd window in
        let bench := Column bdf portfolioAsset PortfolioBenchmark in
        if (length bench <? 2)%nat then Err ErrInsufficientData
        else
          let startVal := value_at bench 0 in
          let endVal := value_at bench (length bench - 1) in
          if startVal <=? 0 then Err ErrInsufficientData
          else
            let gain := endVal - startVal in
            k (df_times bdf) startVal (if gain >? 0 then endVal - LTCG_rate defaultTaxRates * gain else endVal))
  end.
Definition benchmarkAfterTaxTWRR_Compute stats window : result F :=
  on_taxed_benchmark stats window (λ _ startVal endVal, Ok (endVal / startVal - 1)).
Definition benchmarkAfterTaxCAGR_Compute stats window : result F :=
  on_taxed_benchmark stats window (λ times startVal endVal,
    if (length times <? 2)%nat then Err ErrInsufficientData
    else if endVal <=? 0 then Err ErrInsufficientData
    else
      let years := span_years times in
      if years <=? 0 then Err ErrInsufficientData else Ok (annualize (endVal / startVal) years)).
End TradeMetrics.
