(* ===== verification/MetricQuery.v ===== *)
(** * MetricQuery: naming, querying and registering the performance metrics
    ([portfolio/metric_query.go], [metric_registration.go],
    [viewed_portfolio.go], the aggregators of [account.go])

    [PerformanceMetric] is the interface of a metric as a record; the module
    [Metric] holds the exported values.  A query resolves the statistics it
    computes on: the account, its benchmark view, either restricted to a date
    range.  [row_metric] is a metric as the backtest loop uses it. *)
From Stdlib Require Import ZArith.
From stdpp Require Import base list gmap strings.
From S2P Require Import Prelude Num GoTime Asset Period Frame FrameOps Resample Broker Lots Ledger Gains Account Backtest Stats ReturnMetrics GrowthMetrics TradeTaxMetrics.

(** [pf_HigherIsBetter] is [None] for a metric that is not [Rankable]. *)
Record PerformanceMetric (F : Type) : Type := mkPerformance {
  pf_Name : string;
  pf_Compute : PortfolioStats F → option Period → result F;
  pf_ComputeSeries : PortfolioStats F → option Period → result (option (DataFrame F));
  pf_BenchmarkTargetable : bool;
  pf_HigherIsBetter : option bool;
}.
Arguments mkPerformance {F}.
Arguments pf_Name {F}.
Arguments pf_Compute {F}.
Arguments pf_ComputeSeries {F}.
Arguments pf_BenchmarkTargetable {F}.
Arguments pf_HigherIsBetter {F}.

(** The [ComputeSeries] of a metric that has no series. *)
Definition no_series {F} (stats : PortfolioStats F) (window : option Period) : result (option (DataFrame F)) := Ok None.

Module Metric.
Section Metric.
Context {F : Type} `{Num F} `{Gonum F} `{GoStat F} `{NumSqrt F} `{NumLog F} `{NumPow F} `{NumErfc F}.
Context {tz : TZDB} {go : GoMapOrder} {srt : GoSort}.

Definition ActiveReturn : PerformanceMetric F := mkPerformance "ActiveReturn" activeReturn_Compute activeReturn_ComputeSeries false None.
Definition AfterTaxCAGR : PerformanceMetric F := mkPerformance "AfterTaxCAGR" afterTaxCAGR_Compute no_series false (Some true).
Definition AfterTaxTWRR : PerformanceMetric F := mkPerformance "AfterTaxTWRR" afterTaxTWRR_Compute no_series false None.
Definition Alpha : PerformanceMetric F := mkPerformance "Alpha" alpha_Compute no_series false None.
Definition AverageHoldingPeriod : PerformanceMetric F := mkPerformance "AverageHoldingPeriod" averageHoldingPeriod_Compute no_series false None.
Definition AverageLoss : PerformanceMetric F := mkPerformance "AverageLoss" averageLoss_Compute no_series false None.
Definition AverageMAE : PerformanceMetric F := mkPerformance "AverageMAE" averageMAE_Compute no_series false None.
Definition AverageMFE : PerformanceMetric F := mkPerformance "AverageMFE" averageMFE_Compute no_series false None.
Definition AverageWin : PerformanceMetric F := mkPerformance "AverageWin" averageWin_Compute no_series false None.
Definition AvgDrawdown : PerformanceMetric F := mkPerformance "AvgDrawdown" avgDrawdown_Compute no_series false None.
Definition AvgDrawdownDays : PerformanceMetric F := mkPerformance "AvgDrawdownDays" avgDrawdownDays_Compute no_series false None.
Definition BenchmarkAfterTaxCAGR : PerformanceMetric F := mkPerformance "BenchmarkAfterTaxCAGR" benchmarkAfterTaxCAGR_Compute no_series false (Some true).
Definition BenchmarkAfterTaxTWRR : PerformanceMetric F := mkPerformance "BenchmarkAfterTaxTWRR" benchmarkAfterTaxTWRR_Compute no_series false None.
Definition Beta : PerformanceMetric F := mkPerformance "Beta" beta_Compute no_series false None.
Definition CAGR : PerformanceMetric F := mkPerformance "CAGR" cagrMetric_Compute no_series true (Some true).
Definition Calmar : PerformanceMetric F := mkPerformance "Calmar" calmar_Compute no_series true (Some true).
Definition ConsecutiveLosses : PerformanceMetric F := mkPerformance "ConsecutiveLosses" consecutiveLosses_Compute no_series false None.
Definition ConsecutiveWins : PerformanceMetric F := mkPerformance "ConsecutiveWins" consecutiveWins_Compute no_series false None.
Definition CVaR : PerformanceMetric F := mkPerformance "CVaR" cvarMetric_Compute no_series false None.
Definition DownsideCaptureRatio : PerformanceMetric F := mkPerformance "DownsideCaptureRatio" downsideCaptureRatio_Compute no_series false None.
Definition DownsideDeviation : PerformanceMetric F := mkPerformance "DownsideDeviation" downsideDeviation_Compute no_series true None.
Definition DynamicWithdrawalRate : PerformanceMetric F := mkPerformance "DynamicWithdrawalRate" dynamicWithdrawalRate_Compute no_series false None.
Definition EdgeRatio : PerformanceMetric F := mkPerformance "EdgeRatio" edgeRatio_Compute no_series false None.
Definition ExcessKurtosis : PerformanceMetric F := mkPerformance "ExcessKurtosis" excessKurtosis_Compute no_series true None.
Definition Exposure : PerformanceMetric F := mkPerformance "Exposure" exposure_Compute no_series false None.
Definition GainLossRatio : PerformanceMetric F := mkPerformance "GainLossRatio" gainLossRatio_Compute no_series false None.
Definition GainToPainRatio : PerformanceMetric F := mkPerformance "GainToPainRatio" gainToPain_Compute no_series false None.
Definition InformationRatio : PerformanceMetric F := mkPerformance "InformationRatio" informationRatio_Compute no_series false None.
Definition KRatio : PerformanceMetric F := mkPerformance "KRatio" kRatio_Compute no_series false None.
Definition KellerRatio : PerformanceMetric F := mkPerformance "KellerRatio" kellerRatio_Compute no_series false None.
Definition KellyCriterion : PerformanceMetric F := mkPerformance "KellyCriterion" kellyCriterion_Compute no_series false None.
Definition LongProfitFactor : PerformanceMetric F := mkPerformance "LongProfitFactor" longProfitFactor_Compute no_series false None.
Definition LongWinRate : PerformanceMetric F := mkPerformance "LongWinRate" longWinRate_Compute no_series false None.
Definition LTCGMetric : PerformanceMetric F := mkPerformance "LTCG" ltcgMetric_Compute no_series false None.
Definition MaxDrawdown : PerformanceMetric F := mkPerformance "MaxDrawdown" maxDrawdown_Compute maxDrawdown_ComputeSeries true (Some true).
Definition MedianMAE : PerformanceMetric F := mkPerformance "MedianMAE" medianMAE_Compute no_series false None.
Definition MedianMFE : PerformanceMetric F := mkPerformance "MedianMFE" medianMFE_Compute no_series false None.
Definition MWRR : PerformanceMetric F := mkPerformance "MWRR" mwrr_Compute no_series true None.
Definition NPositivePeriods : PerformanceMetric F := mkPerformance "NPositivePeriods" nPositivePeriods_Compute no_series false None.
Definition NonQualifiedIncomeMetric : PerformanceMetric F := mkPerformance "NonQualifiedIncome" nonQualifiedIncome_Compute no_series false None.
Definition OmegaRatio : PerformanceMetric F := mkPerformance "OmegaRatio" omegaRatio_Compute no_series false None.
Definition PerpetualWithdrawalRate : PerformanceMetric F := mkPerformance "PerpetualWithdrawalRate" perpetualWithdrawalRate_Compute no_series false None.
Definition ProbabilisticSharpe : PerformanceMetric F := mkPerformance "ProbabilisticSharpe" probabilisticSharpe_Compute no_series false None.
Definition ProfitFactor : PerformanceMetric F := mkPerformance "ProfitFactor" profitFactor_Compute no_series false None.
Definition QualifiedDividendsMetric : PerformanceMetric F := mkPerformance "QualifiedDividends" qualifiedDividends_Compute no_series false None.
Definition RSquared : PerformanceMetric F := mkPerformance "RSquared" rSquared_Compute no_series false None.
Definition RecoveryFactor : PerformanceMetric F := mkPerformance "RecoveryFactor" recoveryFactor_Compute no_series false None.
Definition SafeWithdrawalRate : PerformanceMetric F := mkPerformance "SafeWithdrawalRate" safeWithdrawalRate_Compute no_series false None.
Definition Sharpe : PerformanceMetric F := mkPerformance "Sharpe" sharpe_Compute no_series true (Some true).
Definition ShortProfitFactor : PerformanceMetric F := mkPerformance "ShortProfitFactor" shortProfitFactor_Compute no_series false None.
Definition ShortWinRate : PerformanceMetric F := mkPerformance "ShortWinRate" shortWinRate_Compute no_series false None.
Definition Skewness : PerformanceMetric F := mkPerformance "Skewness" skewness_Compute no_series true None.
Definition SmartSharpe : PerformanceMetric F := mkPerformance "SmartSharpe" smartSharpe_Compute no_series false None.
Definition SmartSortino : PerformanceMetric F := mkPerformance "SmartSortino" smartSortino_Compute no_series false None.
Definition Sortino : PerformanceMetric F := mkPerformance "Sortino" sortino_Compute no_series true (Some true).
Definition STCGMetric : PerformanceMetric F := mkPerformance "STCG" stcgMetric_Compute no_series false None.
Definition StdDev : PerformanceMetric F := mkPerformance "StdDev" stdDev_Compute stdDev_ComputeSeries true None.
Definition TailRatio : PerformanceMetric F := mkPerformance "TailRatio" tailRatio_Compute no_series false None.
Definition TaxCostRatioMetric : PerformanceMetric F := mkPerformance "TaxCostRatio" taxCostRatio_Compute no_series false None.
Definition TaxDragMetric : PerformanceMetric F := mkPerformance "TaxDrag" taxDrag_Compute no_series false None.
Definition TrackingError : PerformanceMetric F := mkPerformance "TrackingError" trackingError_Compute no_series false None.
Definition TradeCaptureRatio : PerformanceMetric F := mkPerformance "TradeCaptureRatio" tradeCaptureRatio_Compute no_series false None.
Definition TradeGainLossRatio : PerformanceMetric F := mkPerformance "TradeGainLossRatio" tradeGainLossRatio_Compute no_series false None.
Definition Treynor : PerformanceMetric F := mkPerformance "Treynor" treynor_Compute no_series false None.
Definition Turnover : PerformanceMetric F := mkPerformance "Turnover" turnover_Compute no_series false None.
Definition TWRR : PerformanceMetric F := mkPerformance "TWRR" twrr_Compute twrr_ComputeSeries true None.
Definition UlcerIndex : PerformanceMetric F := mkPerformance "UlcerIndex" ulcerIndex_Compute ulcerIndex_ComputeSeries true None.
Definition AvgUlcerIndex : PerformanceMetric F := mkPerformance "AvgUlcerIndex" avgUlcerIndex_Compute no_series true None.
Definition P90UlcerIndex : PerformanceMetric F := mkPerformance "P90UlcerIndex" p90UlcerIndex_Compute no_series true None.
Definition MedianUlcerIndex : PerformanceMetric F := mkPerformance "MedianUlcerIndex" medianUlcerIndex_Compute no_series true None.
Definition UnrealizedLTCGMetric : PerformanceMetric F := mkPerformance "UnrealizedLTCG" unrealizedLTCG_Compute no_series false None.
Definition UnrealizedSTCGMetric : PerformanceMetric F := mkPerformance "UnrealizedSTCG" unrealizedSTCG_Compute no_series false None.
Definition UpsideCaptureRatio : PerformanceMetric F := mkPerformance "UpsideCaptureRatio" upsideCaptureRatio_Compute no_series false None.
Definition ValueAtRisk : PerformanceMetric F := mkPerformance "ValueAtRisk" valueAtRisk_Compute no_series true None.
Definition WinRate : PerformanceMetric F := mkPerformance "WinRate" winRate_Compute no_series false None.
End Metric.
End Metric.

Section Query.
Context {F : Type} `{Num F} `{Gonum F} `{GoStat F} `{NumSqrt F} `{NumLog F} `{NumPow F} `{NumErfc F}.
Context {tz : TZDB} {go : GoMapOrder} {srt : GoSort}.
Local Open Scope num_scope.
Implicit Types (a : Account F) (m metric : PerformanceMetric F).

(** ** Queries *)
Record PerformanceMetricQuery : Type := mkQuery {
  q_account : Account F;
  q_metric : PerformanceMetric F;
  q_window : option Period;
  q_benchmark : bool;
  q_abs : option (Time * Time);
}.
Implicit Types (query : PerformanceMetricQuery).

Definition account_PerformanceMetric a m : PerformanceMetricQuery := mkQuery a m None false None.
Definition query_Window query (period : Period) : PerformanceMetricQuery :=
  mkQuery (q_account query) (q_metric query) (Some period) (q_benchmark query) (q_abs query).
Definition query_Benchmark query : PerformanceMetricQuery :=
  mkQuery (q_account query) (q_metric query) (q_window query) true (q_abs query).
Definition AbsoluteWindow query (start end_ : Time) : PerformanceMetricQuery :=
  mkQuery (q_account query) (q_metric query) (q_window query) (q_benchmark query) (Some (start, end_)).

Definition resolveStats query : result (PortfolioStats F) :=
  stats ←
    (if negb (q_benchmark query) then Ok (account_stats (q_account query))
     else if negb (pf_BenchmarkTargetable (q_metric query)) then Err ErrBenchmarkNotSupported
     else BenchmarkStats (q_account query));
  Ok (match q_abs query with
      | Some (start, end_) => windowedStats stats start end_
      | None => stats
      end).
Definition query_Value query : result F :=
  stats ← resolveStats query; pf_Compute (q_metric query) stats (q_window query).
Definition query_Series query : result (option (DataFrame F)) :=
  stats ← resolveStats query; pf_ComputeSeries (q_metric query) stats (q_window query).

(** ** Views *)
Record viewedPortfolio : Type := mkView { vp_acct : Account F; vp_start : Time; vp_end : Time }.
Definition account_View a (start end_ : Time) : viewedPortfolio := mkView a start end_.
Definition view_View (vp : viewedPortfolio) (start end_ : Time) : viewedPortfolio := account_View (vp_acct vp) start end_.
Definition view_PerformanceMetric (vp : viewedPortfolio) m : PerformanceMetricQuery :=
  AbsoluteWindow (account_PerformanceMetric (vp_acct vp) m) (vp_start vp) (vp_end vp).
Definition view_Prices (vp : viewedPortfolio) : option (DataFrame F) :=
  (λ df, Between df (vp_start vp) (vp_end vp)) <$> prices (vp_acct vp).
Definition view_PerfData (vp : viewedPortfolio) : option (DataFrame F) :=
  (λ df, Between df (vp_start vp) (vp_end vp)) <$> perf_of (vp_acct vp).
(** The view as statistics: those of [windowedStats], which it does not
    identify as a holder of window bounds. *)
Definition view_stats (vp : viewedPortfolio) : PortfolioStats F :=
  let s := windowedStats (account_stats (vp_acct vp)) (vp_start vp) (vp_end vp) in
  mkStats (Returns s) (ExcessReturns s) (Drawdown s) (BenchmarkReturns s) (EquitySeries s) (TransactionsView s)
    (TradeDetailsView s) (PricesView s) (TaxLotsView s) (ShortLotsView s) (PerfDataView s) (AnnualReturns s)
    (DrawdownDetails s) (MonthlyReturns s) None.

(** ** Registration *)
Definition WithMetric metric (registered : list (PerformanceMetric F)) : list (PerformanceMetric F) :=
  if existsb (λ existing, bool_decide (pf_Name existing = pf_Name metric)) registered then registered
  else registered ++ [metric].
Definition register_all (metrics : list (PerformanceMetric F)) (registered : list (PerformanceMetric F)) :
    list (PerformanceMetric F) :=
  fold_left (λ l m, WithMetric m l) metrics registered.

Definition WithSummaryMetrics := register_all
  [Metric.TWRR; Metric.MWRR; Metric.Sharpe; Metric.Sortino; Metric.Calmar; Metric.KellerRatio; Metric.MaxDrawdown; Metric.StdDev].
Definition WithRiskMetrics := register_all
  [Metric.Beta; Metric.Alpha; Metric.TrackingError; Metric.DownsideDeviation;
   Metric.InformationRatio; Metric.Treynor; Metric.UlcerIndex; Metric.ExcessKurtosis;
   Metric.Skewness; Metric.RSquared; Metric.ValueAtRisk; Metric.UpsideCaptureRatio; Metric.DownsideCaptureRatio].
Definition WithTradeMetrics := register_all
  [Metric.WinRate; Metric.AverageWin; Metric.AverageLoss; Metric.ProfitFactor;
   Metric.AverageHoldingPeriod; Metric.Turnover; Metric.NPositivePeriods; Metric.TradeGainLossRatio;
   Metric.AverageMFE; Metric.AverageMAE; Metric.MedianMFE; Metric.MedianMAE; Metric.EdgeRatio; Metric.TradeCaptureRatio;
   Metric.LongWinRate; Metric.ShortWinRate; Metric.LongProfitFactor; Metric.ShortProfitFactor].
Definition WithWithdrawalMetrics := register_all
  [Metric.SafeWithdrawalRate; Metric.PerpetualWithdrawalRate; Metric.DynamicWithdrawalRate].
Definition WithTaxMetrics := register_all
  [Metric.LTCGMetric; Metric.STCGMetric; Metric.UnrealizedLTCGMetric; Metric.UnrealizedSTCGMetric;
   Metric.QualifiedDividendsMetric; Metric.NonQualifiedIncomeMetric; Metric.TaxCostRatioMetric; Metric.TaxDragMetric;
   Metric.AfterTaxTWRR; Metric.AfterTaxCAGR; Metric.BenchmarkAfterTaxTWRR; Metric.BenchmarkAfterTaxCAGR].
Definition WithAllMetrics (registered : list (PerformanceMetric F)) : list (PerformanceMetric F) :=
  register_all
    [Metric.CAGR; Metric.ActiveReturn; Metric.SmartSharpe; Metric.SmartSortino;
     Metric.ProbabilisticSharpe; Metric.KRatio; Metric.KellyCriterion;
     Metric.OmegaRatio; Metric.GainToPainRatio; Metric.CVaR; Metric.TailRatio; Metric.RecoveryFactor;
     Metric.Exposure; Metric.ConsecutiveWins; Metric.ConsecutiveLosses;
     Metric.AvgDrawdown; Metric.AvgDrawdownDays; Metric.GainLossRatio;
     Metric.AvgUlcerIndex; Metric.P90UlcerIndex; Metric.MedianUlcerIndex]
    (WithTaxMetrics (WithWithdrawalMetrics (WithTradeMetrics (WithRiskMetrics (WithSummaryMetrics registered))))).

(** A metric over an account, as [computeMetrics] of the backtest calls it. *)
Definition row_metric m : Backtest.PerformanceMetric F (Account F) :=
  mkMetric (pf_Name m) (λ a window, pf_Compute m (account_stats a) window) (pf_BenchmarkTargetable m).

(** ** The aggregates *)

(** [metricQuerier]: an account over its history, a view over its range. *)
Definition metricQuerier : Type := PerformanceMetric F → PerformanceMetricQuery.
(** The field of an aggregate: a failed metric leaves its zero. *)
Definition field (src : metricQuerier) m : F := match query_Value (src m) with Ok v => v | Err _ => 0 end.
(** What [errors.Join] joins. *)
Definition failures (src : metricQuerier) (metrics : list (PerformanceMetric F)) : list error :=
  omap (λ m, match query_Value (src m) with Ok _ => None | Err e => Some e end) metrics.

Record Summary : Type := mkSummary {
  su_TWRR : F;
  su_MWRR : F;
  su_Sharpe : F;
  su_Sortino : F;
  su_Calmar : F;
  su_MaxDrawdown : F;
  su_StdDev : F;
}.
Definition summaryFrom (src : metricQuerier) : Summary * list error :=
  (mkSummary
     (field src Metric.TWRR) (field src Metric.MWRR) (field src Metric.Sharpe) (field src Metric.Sortino)
     (field src Metric.Calmar) (field src Metric.MaxDrawdown) (field src Metric.StdDev),
   failures src
     [Metric.TWRR; Metric.MWRR; Metric.Sharpe; Metric.Sortino;
      Metric.Calmar; Metric.MaxDrawdown; Metric.StdDev]).
Definition account_Summary a : Summary * list error := summaryFrom (account_PerformanceMetric a).
Definition view_Summary (vp : viewedPortfolio) : Summary * list error := summaryFrom (view_PerformanceMetric vp).

Record RiskMetrics : Type := mkRisk {
  rm_Beta : F;
  rm_Alpha : F;
  rm_TrackingError : F;
  rm_DownsideDeviation : F;
  rm_InformationRatio : F;
  rm_Treynor : F;
  rm_UlcerIndex : F;
  rm_ExcessKurtosis : F;
  rm_Skewness : F;
  rm_RSquared : F;
  rm_ValueAtRisk : F;
  rm_UpsideCaptureRatio : F;
  rm_DownsideCaptureRatio : F;
}.
Definition riskMetricsFrom (src : metricQuerier) : RiskMetrics * list error :=
  (mkRisk
     (field src Metric.Beta) (field src Metric.Alpha) (field src Metric.TrackingError) (field src Metric.DownsideDeviation)
     (field src Metric.InformationRatio) (field src Metric.Treynor) (field src Metric.UlcerIndex) (field src Metric.ExcessKurtosis)
     (field src Metric.Skewness) (field src Metric.RSquared) (field src Metric.ValueAtRisk) (field src Metric.UpsideCaptureRatio)
     (field src Metric.DownsideCaptureRatio),
   failures src
     [Metric.Beta; Metric.Alpha; Metric.TrackingError; Metric.DownsideDeviation;
      Metric.InformationRatio; Metric.Treynor; Metric.UlcerIndex; Metric.ExcessKurtosis;
      Metric.Skewness; Metric.RSquared; Metric.ValueAtRisk; Metric.UpsideCaptureRatio;
      Metric.DownsideCaptureRatio]).

Record TaxMetrics : Type := mkTax {
  tm_LTCG : F;
  tm_STCG : F;
  tm_UnrealizedLTCG : F;
  tm_UnrealizedSTCG : F;
  tm_QualifiedDividends : F;
  tm_NonQualifiedIncome : F;
  tm_TaxCostRatio : F;
  tm_TaxDrag : F;
}.
Definition taxMetricsFrom (src : metricQuerier) : TaxMetrics * list error :=
  (mkTax
     (field src Metric.LTCGMetric) (field src Metric.STCGMetric) (field src Metric.UnrealizedLTCGMetric) (field src Metric.UnrealizedSTCGMetric)
     (field src Metric.QualifiedDividendsMetric) (field src Metric.NonQualifiedIncomeMetric) (field src Metric.TaxCostRatioMetric) (field src Metric.TaxDragMetric),
   failures src
     [Metric.LTCGMetric; Metric.STCGMetric; Metric.UnrealizedLTCGMetric; Metric.UnrealizedSTCGMetric;
      Metric.QualifiedDividendsMetric; Metric.NonQualifiedIncomeMetric; Metric.TaxCostRatioMetric; Metric.TaxDragMetric]).

Record TradeMetrics : Type := mkTradeMetrics {
  tr_WinRate : F;
  tr_AverageWin : F;
  tr_AverageLoss : F;
  tr_ProfitFactor : F;
  tr_AverageHoldingPeriod : F;
  tr_Turnover : F;
  tr_NPositivePeriods : F;
  tr_GainLossRatio : F;
  tr_AverageMFE : F;
  tr_AverageMAE : F;
  tr_MedianMFE : F;
  tr_MedianMAE : F;
  tr_EdgeRatio : F;
  tr_TradeCaptureRatio : F;
  tr_LongWinRate : F;
  tr_ShortWinRate : F;
  tr_LongProfitFactor : F;
  tr_ShortProfitFactor : F;
}.
Definition tradeMetricsFrom (src : metricQuerier) : TradeMetrics * list error :=
  (mkTradeMetrics
     (field src Metric.WinRate) (field src Metric.AverageWin) (field src Metric.AverageLoss) (field src Metric.ProfitFactor)
     (field src Metric.AverageHoldingPeriod) (field src Metric.Turnover) (field src Metric.NPositivePeriods) (field src Metric.TradeGainLossRatio)
     (field src Metric.AverageMFE) (field src Metric.AverageMAE) (field src Metric.MedianMFE) (field src Metric.MedianMAE)
     (field src Metric.EdgeRatio) (field src Metric.TradeCaptureRatio) (field src Metric.LongWinRate) (field src Metric.ShortWinRate)
     (field src Metric.LongProfitFactor) (field src Metric.ShortProfitFactor),
   failures src
     [Metric.WinRate; Metric.AverageWin; Metric.AverageLoss; Metric.ProfitFactor;
      Metric.AverageHoldingPeriod; Metric.Turnover; Metric.NPositivePeriods; Metric.TradeGainLossRatio;
      Metric.AverageMFE; Metric.AverageMAE; Metric.MedianMFE; Metric.MedianMAE;
      Metric.EdgeRatio; Metric.TradeCaptureRatio; Metric.LongWinRate; Metric.ShortWinRate;
      Metric.LongProfitFactor; Metric.ShortProfitFactor]).

Record WithdrawalMetrics : Type := mkWithdrawal {
  wd_SafeWithdrawalRate : F;
  wd_PerpetualWithdrawalRate : F;
  wd_DynamicWithdrawalRate : F;
}.
Definition withdrawalMetricsFrom (src : metricQuerier) : WithdrawalMetrics * list error :=
  (mkWithdrawal
     (field src Metric.SafeWithdrawalRate) (field src Metric.PerpetualWithdrawalRate) (field src Metric.DynamicWithdrawalRate),
   failures src
     [Metric.SafeWithdrawalRate; Metric.PerpetualWithdrawalRate; Metric.DynamicWithdrawalRate]).

(** ** Scores of a window ([study/metric.go]) *)
Definition WindowedScore a (start end_ : Time) metric : F :=
  match query_Value (view_PerformanceMetric (account_View a start end_) metric) with Ok val => val | Err _ => fnan end.
End Query.
