(* ===== verification/Index.v ===== *)
(** * Index: membership of an index over time ([data/index_state.go])

    Snapshots of the membership and a change log are popped by two cursors as
    the date advances; a date before the last one rewinds and replays.  The
    slices the Go code changes in place are values here: the provider copies
    them before the next call can overwrite them.

    The second half proves Advance a replay of the log. *)
From Stdlib Require Import ZArith Lia Sorted.
From stdpp Require Import base list strings.
From S2P Require Import Prelude Num GoTime Asset Samples.
Record IndexConstituent (F : Type) : Type := mkConstituent { ic_Asset : Asset; ic_Weight : F }.
Arguments mkConstituent {F}.
Arguments ic_Asset {F}.
Arguments ic_Weight {F}.

Record indexSnapshot (F : Type) : Type := mkSnapshot {
  is_date : Time;
  is_members : list (IndexConstituent F);
}.
Arguments mkSnapshot {F}.
Arguments is_date {F}.
Arguments is_members {F}.

Record indexChange (F : Type) : Type := mkChange {
  ich_date : Time;
  ich_asset : Asset;
  ich_action : string;
  ich_weight : F;
}.
Arguments mkChange {F}.
Arguments ich_date {F}.
Arguments ich_asset {F}.
Arguments ich_action {F}.
Arguments ich_weight {F}.

Record indexState (F : Type) : Type := mkIndexState {
  st_snapshots : list (indexSnapshot F);
  st_changelog : list (indexChange F);
  st_snapIdx : nat;
  st_logIdx : nat;
  st_constituents : list (IndexConstituent F);
  st_assets : list Asset;
  st_lastDate : Time;
}.
Arguments mkIndexState {F}.
Arguments st_snapshots {F}.
Arguments st_changelog {F}.
Arguments st_snapIdx {F}.
Arguments st_logIdx {F}.
Arguments st_constituents {F}.
Arguments st_assets {F}.
Arguments st_lastDate {F}.

Section Index.
Context {F : Type}.
Implicit Types (st : indexState F) (snap : indexSnapshot F) (ch : indexChange F) (d : Time).

Definition set_cursors (snapIdx logIdx : nat) st : indexState F :=
  mkIndexState (st_snapshots st) (st_changelog st) snapIdx logIdx (st_constituents st) (st_assets st)
    (st_lastDate st).
Definition set_members (cs : list (IndexConstituent F)) (assets : list Asset) st : indexState F :=
  mkIndexState (st_snapshots st) (st_changelog st) (st_snapIdx st) (st_logIdx st) cs assets
    (st_lastDate st).
Definition set_lastDate d st : indexState F :=
  mkIndexState (st_snapshots st) (st_changelog st) (st_snapIdx st) (st_logIdx st) (st_constituents st)
    (st_assets st) d.

(** [s[i] = s[len(s)-1]; s = s[:len(s)-1]] *)
Definition swap_remove {A} (i : nat) (l : list A) : list A :=
  match last l with
  | Some x => take (length l - 1) (<[i := x]> l)
  | None => l
  end.

(** The position of the first constituent with the FIGI. *)
Fixpoint find_figi (figi : string) (cs : list (IndexConstituent F)) : option nat :=
  match cs with
  | [] => None
  | c :: rest => if decide (CompositeFigi (ic_Asset c) = figi) then Some O else S <$> find_figi figi rest
  end.

(** The log cursor past every entry at or before the date. *)
Fixpoint skip_log (entries : list (indexChange F)) d (idx : nat) : nat :=
  match entries with
  | [] => idx
  | ch :: rest => if After (ich_date ch) d then idx else skip_log rest d (S idx)
  end.

Definition take_snapshot snap st : indexState F :=
  let st := set_cursors (S (st_snapIdx st)) (st_logIdx st) st in
  let st := set_members (is_members snap) (ic_Asset <$> is_members snap) st in
  set_cursors (st_snapIdx st)
    (skip_log (drop (st_logIdx st) (st_changelog st)) (is_date snap) (st_logIdx st)) st.

Fixpoint pop_snapshots (snaps : list (indexSnapshot F)) d st : indexState F :=
  match snaps with
  | [] => st
  | snap :: rest => if After (is_date snap) d then st else pop_snapshots rest d (take_snapshot snap st)
  end.

Definition change_members ch (cs : list (IndexConstituent F)) (assets : list Asset) :
    list (IndexConstituent F) * list Asset :=
  if decide (ich_action ch = "add"%string) then
    (cs ++ [mkConstituent (ich_asset ch) (ich_weight ch)], assets ++ [ich_asset ch])
  else if decide (ich_action ch = "remove"%string) then
    match find_figi (CompositeFigi (ich_asset ch)) cs with
    | Some ii => (swap_remove ii cs, swap_remove ii assets)
    | None => (cs, assets)
    end
  else (cs, assets).

Definition apply_change ch st : indexState F :=
  let st := set_cursors (st_snapIdx st) (S (st_logIdx st)) st in
  let '(cs, assets) := change_members ch (st_constituents st) (st_assets st) in
  set_members cs assets st.

Fixpoint apply_log (entries : list (indexChange F)) d st : indexState F :=
  match entries with
  | [] => st
  | ch :: rest => if After (ich_date ch) d then st else apply_log rest d (apply_change ch st)
  end.

(** [advance] *)
Definition index_advance d st : indexState F :=
  let st := pop_snapshots (drop (st_snapIdx st) (st_snapshots st)) d st in
  apply_log (drop (st_logIdx st) (st_changelog st)) d st.

Definition NewIndexState (snapshots : list (indexSnapshot F)) (changelog : list (indexChange F)) :
    indexState F :=
  mkIndexState snapshots changelog 0 0 [] [] zero_time.

Definition index_reset st : indexState F := set_members [] [] (set_cursors 0 0 st).

Definition Advance d st : indexState F * list Asset * list (IndexConstituent F) :=
  let st := if Before d (st_lastDate st) then index_reset st else st in
  let st := index_advance d (set_lastDate d st) in
  (st, st_assets st, st_constituents st).
End Index.

(** * Membership does not depend on how the date got there

    The reference membership of a date replays the last snapshot at or before
    it and the later changes; [Advance] gives it whatever dates were asked for
    before. *)
(** ** Sorted logs *)
Section SortedLog.
Context {A : Type} (date : A → Z).

Definition by_date : list A → Prop := StronglySorted (λ x y, (date x <= date y)%Z).
Definition upto (d : Z) (l : list A) : list A := keep (λ x, date x <=? d)%Z l.
Definition from_to (lo d : Z) (l : list A) : list A := keep (λ x, (lo <? date x) && (date x <=? d))%Z l.

Lemma by_date_tail x l : by_date (x :: l) → by_date l ∧ Forall (λ y, (date x <= date y)%Z) l.
Proof. intros Hs. by apply StronglySorted_inv in Hs. Qed.

(** What follows the entries up to [lo] are the entries past it. *)
Lemma drop_upto lo l : by_date l → drop (length (upto lo l)) l = keep (λ x, lo <? date x)%Z l.
Proof.
  unfold upto. induction l as [|x l IH]; intros Hs; [done|]. apply by_date_tail in Hs as [Hs Hx].
  rewrite !keep_cons. destruct (Z.leb_spec (date x) lo), (Z.ltb_spec lo (date x)); try lia; [by apply IH|].
  rewrite keep_false.
  - cbn. f_equal. symmetry. apply keep_all. eapply Forall_impl; [exact Hx|]. cbn. intros y ?. apply Z.ltb_lt. lia.
  - eapply Forall_impl; [exact Hx|]. cbn. intros y ?. apply Z.leb_gt. lia.
Qed.

Lemma upto_split lo d l : (lo <= d)%Z → by_date l → upto d l = upto lo l ++ from_to lo d l.
Proof.
  intros Hd. unfold upto, from_to. induction l as [|x l IH]; intros Hs; [done|].
  apply by_date_tail in Hs as [Hs Hx]. rewrite !keep_cons, IH by done.
  destruct (Z.leb_spec (date x) d), (Z.leb_spec (date x) lo), (Z.ltb_spec lo (date x)); try lia; try done.
  cbn. rewrite (keep_false (λ y, date y <=? lo)%Z); [done|].
  eapply Forall_impl; [exact Hx|]. cbn. intros y ?. apply Z.leb_gt. lia.
Qed.

Lemma from_to_split lo mid d l :
  (lo <= mid <= d)%Z → by_date l → from_to lo d l = from_to lo mid l ++ from_to mid d l.
Proof.
  intros Hd Hs. pose proof (upto_split lo d l ltac:(lia) Hs) as H1.
  rewrite (upto_split mid d), (upto_split lo mid), <-app_assoc in H1 by (lia || done).
  by apply app_inv_head in H1.
Qed.

(** A loop that pops entries until one is past [d] handles [from_to lo d]. *)
Lemma popped lo d l :
  by_date l → ∃ rest, keep (λ x, lo <? date x)%Z l = from_to lo d l ++ rest ∧ Forall (λ x, (d < date x)%Z) rest.
Proof.
  unfold from_to. induction l as [|x l IH]; intros Hs; [by exists []|].
  apply by_date_tail in Hs as [Hs Hx]. destruct (IH Hs) as (rest & He & Hr). rewrite !keep_cons.
  destruct (Z.ltb_spec lo (date x)); cbn; [|by exists rest].
  destruct (Z.leb_spec (date x) d); [exists rest; rewrite He; done|].
  assert (keep (λ y, (lo <? date y) && (date y <=? d))%Z l = []) as ->.
  { apply keep_false. eapply Forall_impl; [exact Hx|]. cbn. intros y ?.
    replace (date y <=? d)%Z with false by lia. by rewrite andb_false_r. }
  exists (x :: keep (λ y, lo <? date y)%Z l). split; [done|]. constructor; [done|].
  apply Forall_forall. intros y [_ Hy]%elem_of_keep. rewrite Forall_forall in Hx. specialize (Hx y Hy). lia.
Qed.
End SortedLog.

(** ** The reference *)
Section Reference.
Context {F : Type}.
Implicit Types (st : indexState F) (snap : indexSnapshot F) (ch : indexChange F) (d lo : Z).

Definition sdate snap : Z := t_ns (is_date snap).
Definition cdate ch : Z := t_ns (ich_date ch).

Definition change_constituents (cs : list (IndexConstituent F)) ch : list (IndexConstituent F) :=
  (change_members ch cs []).1.
Definition replay (entries : list (indexChange F)) (cs : list (IndexConstituent F)) : list (IndexConstituent F) :=
  fold_left change_constituents entries cs.

Definition members_at (snaps : list (indexSnapshot F)) (log : list (indexChange F)) d :
    list (IndexConstituent F) :=
  match last (upto sdate d snaps) with
  | Some snap => replay (from_to cdate (sdate snap) d log) (is_members snap)
  | None => replay (upto cdate d log) []
  end.

(** Both cursors are past exactly the entries up to [lo]. *)
Record synced lo st : Prop := {
  sy_snap : st_snapIdx st = length (upto sdate lo (st_snapshots st));
  sy_log : st_logIdx st = length (upto cdate lo (st_changelog st));
  sy_members : st_constituents st = members_at (st_snapshots st) (st_changelog st) lo;
  sy_assets : st_assets st = ic_Asset <$> st_constituents st;
}.

Definition same_logs st st' : Prop :=
  st_snapshots st' = st_snapshots st ∧ st_changelog st' = st_changelog st.

Lemma swap_remove_fmap {A B} (f : A → B) i (l : list A) : f <$> swap_remove i l = swap_remove i (f <$> l).
Proof.
  unfold swap_remove. rewrite fmap_last. destruct (last l) as [x|]; cbn; [|done].
  by rewrite fmap_take, list_fmap_insert, length_fmap.
Qed.

Lemma change_members_assets ch cs :
  change_members ch cs (ic_Asset <$> cs) = (change_constituents cs ch, ic_Asset <$> change_constituents cs ch).
Proof.
  unfold change_constituents, change_members. repeat case_decide; cbn.
  - by rewrite fmap_app.
  - destruct (find_figi _ _); cbn; [by rewrite swap_remove_fmap|done].
  - done.
Qed.

(** *** The loops of [advance] *)
Lemma skip_log_app entries rest (t : Time) idx :
  Forall (λ ch, cdate ch <= t_ns t)%Z entries → Forall (λ ch, t_ns t < cdate ch)%Z rest →
  skip_log (entries ++ rest) t idx = (idx + length entries)%nat.
Proof.
  intros He Hr. revert idx. induction He as [|ch entries Hch _ IH]; intros idx; cbn.
  - destruct Hr as [|ch rest Hch _]; cbn; [lia|]. unfold After, cdate in *.
    rewrite (proj2 (Z.ltb_lt _ _)) by done. lia.
  - unfold After, cdate in *. rewrite (proj2 (Z.ltb_ge _ _)) by done. rewrite IH. lia.
Qed.

Lemma pop_app snaps rest (t : Time) st :
  Forall (λ s, sdate s <= t_ns t)%Z snaps → Forall (λ s, t_ns t < sdate s)%Z rest →
  pop_snapshots (snaps ++ rest) t st = fold_left (λ st s, take_snapshot s st) snaps st.
Proof.
  intros Hs Hr. revert st. induction Hs as [|s snaps Hle _ IH]; intros st; cbn.
  - destruct Hr as [|s rest Hlt _]; cbn; [done|]. unfold After, sdate in *. by rewrite (proj2 (Z.ltb_lt _ _)).
  - unfold After, sdate in *. rewrite (proj2 (Z.ltb_ge _ _)) by done. apply IH.
Qed.

Lemma apply_app entries rest (t : Time) st :
  Forall (λ ch, cdate ch <= t_ns t)%Z entries → Forall (λ ch, t_ns t < cdate ch)%Z rest →
  st_assets st = ic_Asset <$> st_constituents st →
  let st' := apply_log (entries ++ rest) t st in
  st_constituents st' = replay entries (st_constituents st) ∧
  st_assets st' = ic_Asset <$> st_constituents st' ∧
  st_logIdx st' = (st_logIdx st + length entries)%nat ∧ st_snapIdx st' = st_snapIdx st ∧ same_logs st st'.
Proof.
  intros He Hr. cbn zeta. revert st. induction He as [|ch entries Hle _ IH]; intros st Ha; cbn [app apply_log].
  - assert (apply_log rest t st = st) as ->.
    { destruct Hr as [|ch rest Hlt _]; cbn; [done|]. unfold After, cdate in *. by rewrite (proj2 (Z.ltb_lt _ _)). }
    cbn. split; [done|]. split; [done|]. split; [lia|]. by split.
  - unfold After. unfold cdate in Hle. rewrite (proj2 (Z.ltb_ge _ _)) by done.
    assert (Hstep : apply_change ch st =
      set_members (change_constituents (st_constituents st) ch)
        (ic_Asset <$> change_constituents (st_constituents st) ch)
        (set_cursors (st_snapIdx st) (S (st_logIdx st)) st)).
    { unfold apply_change. cbn. by rewrite Ha, change_members_assets. }
    rewrite Hstep. destruct (IH (set_members (change_constituents (st_constituents st) ch)
        (ic_Asset <$> change_constituents (st_constituents st) ch)
        (set_cursors (st_snapIdx st) (S (st_logIdx st)) st)) eq_refl) as (Hc & Has & Hl & Hs & H1 & H2).
    cbn [st_constituents st_logIdx st_snapIdx st_snapshots st_changelog set_members set_cursors] in *.
    split; [done|]. split; [done|]. split; [cbn; lia|]. by split.
Qed.

(** The log cursor after a run of snapshots. *)
Lemma take_snapshots snaps st lo :
  by_date cdate (st_changelog st) → by_date sdate snaps → Forall (λ s, lo <= sdate s)%Z snaps →
  st_logIdx st = length (upto cdate lo (st_changelog st)) →
  let st' := fold_left (λ st s, take_snapshot s st) snaps st in
  let hi := match last snaps with Some s => sdate s | None => lo end in
  st_logIdx st' = length (upto cdate hi (st_changelog st)) ∧
  st_snapIdx st' = (st_snapIdx st + length snaps)%nat ∧ same_logs st st' ∧
  match last snaps with
  | Some s => st_constituents st' = is_members s ∧ st_assets st' = ic_Asset <$> is_members s
  | None => st' = st
  end.
Proof.
  cbn zeta. intros Hlog Hs Hlo. revert st lo Hlog Hlo.
  induction snaps as [|s snaps IH]; intros st lo Hlog Hlo Hidx; cbn [fold_left].
  { cbn. split; [done|]. split; [lia|]. by split. }
  apply by_date_tail in Hs as [Hs Hhd]. apply Forall_cons in Hlo as [Hls _].
  assert (Hskip : st_logIdx (take_snapshot s st) = length (upto cdate (sdate s) (st_changelog st))).
  { cbn. rewrite Hidx, drop_upto by done.
    destruct (popped cdate lo (sdate s) _ Hlog) as (rest & -> & Hrest).
    rewrite skip_log_app, (upto_split cdate lo (sdate s)), length_app; [done|done|done| |done].
    apply Forall_forall. intros ch [Hch _]%elem_of_keep. apply andb_true_iff in Hch as [_ Hch].
    by apply Z.leb_le. }
  destruct (IH Hs (take_snapshot s st) (sdate s) Hlog Hhd Hskip) as (Hl & Hn & [H1 H2] & Hm).
  change (st_changelog (take_snapshot s st)) with (st_changelog st) in Hl.
  rewrite last_cons. destruct (last snaps) as [s'|] eqn:Hlast.
  - split; [done|]. split; [cbn in *; lia|]. split; [by split|done].
  - apply last_None in Hlast as ->. cbn in *. split; [done|]. split; [lia|]. by repeat split.
Qed.

Lemma members_at_advance snaps log lo d :
  (lo <= d)%Z → by_date sdate snaps → by_date cdate log → from_to sdate lo d snaps = [] →
  members_at snaps log d = replay (from_to cdate lo d log) (members_at snaps log lo).
Proof.
  intros Hd Hs Hl Hn. unfold members_at. rewrite (upto_split sdate lo d snaps), Hn, app_nil_r by done.
  destruct (last (upto sdate lo snaps)) as [s|] eqn:Hlast.
  - assert (Hle : (sdate s <= lo)%Z).
    { apply last_Some_elem_of in Hlast. apply elem_of_keep in Hlast as [Hle _]. by apply Z.leb_le. }
    rewrite (from_to_split cdate (sdate s) lo d) by (lia || done). unfold replay. by rewrite fold_left_app.
  - rewrite (upto_split cdate lo d log) by done. unfold replay. by rewrite fold_left_app.
Qed.

Lemma from_to_bounds {A} (date : A → Z) lo d l :
  Forall (λ x, (lo <= date x)%Z) (from_to date lo d l) ∧ Forall (λ x, (date x <= d)%Z) (from_to date lo d l).
Proof.
  split; apply Forall_forall; intros x [Hx _]%elem_of_keep; apply andb_true_iff in Hx as [Hlo Hhi];
    [apply Z.ltb_lt in Hlo; lia|by apply Z.leb_le].
Qed.

Lemma by_date_keep {A} (date : A → Z) (P : A → bool) l : by_date date l → by_date date (keep P l).
Proof.
  induction l as [|x l IH]; intros Hs; [done|]. apply by_date_tail in Hs as [Hs Hx]. rewrite keep_cons.
  destruct (P x); [|by apply IH]. constructor; [by apply IH|].
  apply Forall_forall. intros y [_ Hy]%elem_of_keep. by eapply Forall_forall in Hx.
Qed.

Lemma index_advance_synced lo (t : Time) st :
  by_date sdate (st_snapshots st) → by_date cdate (st_changelog st) → (lo <= t_ns t)%Z →
  synced lo st → synced (t_ns t) (index_advance t st) ∧ same_logs st (index_advance t st).
Proof.
  intros Hss Hls Hle [Hsn Hlg Hm Ha]. unfold index_advance.
  rewrite Hsn, drop_upto by done. destruct (popped sdate lo (t_ns t) _ Hss) as (srest & -> & Hsrest).
  destruct (from_to_bounds sdate lo (t_ns t) (st_snapshots st)) as [Hslo Hshi].
  rewrite pop_app by done. set (new := from_to sdate lo (t_ns t) (st_snapshots st)) in *.
  assert (Hnew : by_date sdate new) by by apply by_date_keep.
  destruct (take_snapshots new st lo Hls Hnew Hslo Hlg) as (Hl1 & Hn1 & [Hlog1 Hlog2] & Hlast).
  set (st1 := fold_left (λ st s, take_snapshot s st) new st) in *.
  set (hi := match last new with Some s => sdate s | None => lo end) in *.
  assert (Hhi : (hi <= t_ns t)%Z).
  { unfold hi. destruct (last new) as [s|] eqn:E; [|done]. apply last_Some_elem_of in E.
    by eapply Forall_forall in Hshi. }
  rewrite Hl1, Hlog2, drop_upto by done. destruct (popped cdate hi (t_ns t) _ Hls) as (crest & -> & Hcrest).
  destruct (from_to_bounds cdate hi (t_ns t) (st_changelog st)) as [_ Hchi].
  assert (Ha1 : st_assets st1 = ic_Asset <$> st_constituents st1).
  { destruct (last new); [by destruct Hlast as [-> ->]|by rewrite Hlast]. }
  destruct (apply_app _ _ t st1 Hchi Hcrest Ha1) as (Hc & Has & Hl & Hs & [H1 H2]).
  set (st2 := apply_log _ t st1) in *. rewrite Hlog1 in H1. rewrite Hlog2 in H2.
  assert (Hcount : upto sdate (t_ns t) (st_snapshots st) = upto sdate lo (st_snapshots st) ++ new)
    by by apply upto_split.
  split; [|by split]. split.
  - rewrite Hs, Hn1, H1, Hcount, length_app. lia.
  - rewrite Hl, Hl1, H2, <-length_app, <-upto_split by done. done.
  - rewrite Hc, H1, H2. destruct (last new) as [s|] eqn:E.
    + destruct Hlast as [-> _]. unfold members_at. rewrite Hcount.
      by rewrite last_app, E.
    + rewrite Hlast, Hm. symmetry. apply members_at_advance; try done. by apply last_None.
  - done.
Qed.

Definition fresh st : Prop := st_snapIdx st = 0%nat ∧ st_logIdx st = 0%nat ∧ st_constituents st = [] ∧ st_assets st = [].

Lemma below_all {A} (date : A → Z) (l : list A) d :
  ∃ lo, (lo <= d)%Z ∧ Forall (λ x, (lo < date x)%Z) l.
Proof.
  exists (foldr (λ x m, Z.min (date x - 1) m) d l). split.
  - induction l; cbn; lia.
  - induction l as [|x l IH]; cbn; constructor; [lia|]. eapply Forall_impl; [exact IH|]. cbn. lia.
Qed.

Lemma upto_none {A} (date : A → Z) lo (l : list A) : Forall (λ x, (lo < date x)%Z) l → upto date lo l = [].
Proof. intros Hl. apply keep_false. eapply Forall_impl; [exact Hl|]. cbn. intros. lia. Qed.

(** A fresh state is synced before every date. *)
Lemma fresh_synced st d : fresh st → ∃ lo, (lo <= d)%Z ∧ synced lo st.
Proof.
  intros (Hs & Hl & Hc & Ha).
  destruct (below_all cdate (st_changelog st) d) as (lo1 & Hd1 & H1).
  destruct (below_all sdate (st_snapshots st) lo1) as (lo & Hd2 & H2). exists lo. split; [lia|].
  assert (H1' : Forall (λ ch, lo < cdate ch)%Z (st_changelog st)).
  { eapply Forall_impl; [exact H1|]. cbn. intros. lia. }
  split; unfold members_at; rewrite ?(upto_none sdate lo), ?(upto_none cdate lo) by done; cbn.
  - done.
  - done.
  - done.
  - by rewrite Ha, Hc.
Qed.

Definition settled snaps log st : Prop :=
  st_snapshots st = snaps ∧ st_changelog st = log ∧ (fresh st ∨ synced (t_ns (st_lastDate st)) st).

Lemma index_advance_date (t : Time) st : st_lastDate (index_advance t st) = st_lastDate st.
Proof.
  unfold index_advance. set (l1 := drop _ _).
  assert (Hp : ∀ l st, st_lastDate (pop_snapshots l t st) = st_lastDate st).
  { intros l. induction l as [|s l IH]; intros st'; cbn; [done|]. destruct (After _ _); [done|by rewrite IH]. }
  assert (Ha : ∀ l st, st_lastDate (apply_log l t st) = st_lastDate st).
  { intros l. induction l as [|c l IH]; intros st'; cbn; [done|]. destruct (After _ _); [done|].
    rewrite IH. unfold apply_change. by destruct (change_members _ _ _). }
  by rewrite Ha, Hp.
Qed.

Lemma Advance_settled snaps log (t : Time) st :
  by_date sdate snaps → by_date cdate log → settled snaps log st →
  let st' := (Advance t st).1.1 in
  settled snaps log st' ∧ st_constituents st' = members_at snaps log (t_ns t) ∧
  st_assets st' = ic_Asset <$> members_at snaps log (t_ns t).
Proof.
  intros Hs Hl (H1 & H2 & Hsync). cbn zeta. unfold Advance. cbn [fst].
  set (st1 := if Before t (st_lastDate st) then index_reset st else st).
  assert (Hlo : ∃ lo, (lo <= t_ns t)%Z ∧ synced lo (set_lastDate t st1) ∧ same_logs st (set_lastDate t st1)).
  { assert (Hf : fresh (set_lastDate t st1) → ∃ lo, (lo <= t_ns t)%Z ∧ synced lo (set_lastDate t st1))
      by apply fresh_synced.
    unfold st1, Before in *. destruct (Z.ltb_spec (t_ns t) (t_ns (st_lastDate st))).
    - destruct Hf as (lo & ? & ?); [done|]. exists lo. split; [done|split; [done|by split]].
    - destruct Hsync as [Hfr|Hsy]; [destruct Hf as (lo & ? & ?); [done|]; exists lo; split; [done|split; [done|by split]]|].
      exists (t_ns (st_lastDate st)). destruct Hsy. split; [done|split; by split]. }
  destruct Hlo as (lo & Hle & Hsy & [Hl1 Hl2]).
  destruct (index_advance_synced lo t (set_lastDate t st1)) as [Hsy' [Hl3 Hl4]];
    [by rewrite Hl1, H1|by rewrite Hl2, H2|done|done|].
  assert (Hd : st_lastDate (index_advance t (set_lastDate t st1)) = t) by (rewrite index_advance_date; done).
  set (st' := index_advance t (set_lastDate t st1)) in *.
  assert (E1 : st_snapshots st' = snaps) by by rewrite Hl3, Hl1.
  assert (E2 : st_changelog st' = log) by by rewrite Hl4, Hl2.
  split; [split; [done|split; [done|right; by rewrite Hd]]|].
  destruct Hsy' as [_ _ Hm Ha]. rewrite Ha, Hm, E1, E2. done.
Qed.

(** C40. The membership [Advance] reports depends on the date alone.  For
    snapshots and a change log sorted by date, whatever dates the state was
    advanced to before, forwards or backwards, advancing it to a date yields
    the members of the last snapshot at or before the date with the later
    changes up to the date replayed, and the asset list is the assets of those
    members in the same order. *)
Theorem Advance_is_replay (snaps : list (indexSnapshot F)) (log : list (indexChange F))
    (dates : list Time) (t : Time) :
  StronglySorted (λ s s', (sdate s <= sdate s')%Z) snaps →
  StronglySorted (λ ch ch', (cdate ch <= cdate ch')%Z) log →
  let st := fold_left (λ st u, (Advance u st).1.1) dates (NewIndexState snaps log) in
  (Advance t st).2 = members_at snaps log (t_ns t) ∧
  (Advance t st).1.2 = ic_Asset <$> members_at snaps log (t_ns t).
Proof.
  intros Hs Hl. cbn zeta.
  assert (Hset : settled snaps log (fold_left (λ st u, (Advance u st).1.1) dates (NewIndexState snaps log))).
  { assert (H0 : settled snaps log (NewIndexState snaps log)) by (split; [done|split; [done|by left]]).
    revert H0. generalize (NewIndexState snaps log). induction dates as [|u dates IH]; intros st Hst; [done|].
    cbn [fold_left]. apply IH. by apply Advance_settled. }
  by destruct (Advance_settled snaps log t _ Hs Hl Hset) as (_ & ? & ?).
Qed.
End Reference.

(** ** Witness *)
Section Witness.
Definition joined (a : Asset) : IndexConstituent xq := mkConstituent a (q 1).
Definition base_snapshot : indexSnapshot xq := mkSnapshot (day 0) [joined SPY].
Definition changes : list (indexChange xq) :=
  [mkChange (day 2) TLT "add" (q 1); mkChange (day 4) SPY "remove" (q 0)].

Lemma Advance_is_replay_witness :
  let st := fold_left (λ st d, (Advance d st).1.1) [day 5; day 1] (NewIndexState [base_snapshot] changes) in
  (Advance (day 3) st).1.2 = [SPY; TLT].
Proof.
  cbn zeta. destruct (Advance_is_replay [base_snapshot] changes [day 5; day 1] (day 3)) as [_ ->].
  - repeat constructor.
  - repeat constructor; vm_compute; discriminate.
  - reflexivity.
Defined.
End Witness.
