(* ===== verification/Universe.v ===== *)
(** * Universe: the investable space of a strategy
    ([universe/static.go], [universe/rated.go], [universe/splice.go],
    [universe/index.go], [data/rating_filter.go])

    A universe answers which assets are its members at a time and fetches
    their data.  The data source it is wired to is the interface of
    [data/data_source.go], the record [DataSource]; the rating and the index
    provider are arguments, the latter with its own state.  The rated universe
    keeps its cache, so asking for its members returns the universe as well. *)
From Stdlib Require Import ZArith String.
From stdpp Require Import base list gmap strings.
From S2P Require Import Prelude Num GoTime Asset Period Frame FrameOps Resample Index.

(** ** Rating filters *)
Record RatingFilter : Type := mkFilter { rf_Values : list Z }.
Definition Matches (f : RatingFilter) (rating : Z) : bool := existsb (λ v, v =? rating)%Z (rf_Values f).
Definition RatingEq (v : Z) : RatingFilter := mkFilter [v].
Definition RatingIn (vs : list Z) : RatingFilter := mkFilter vs.
Definition RatingLTE (v : Z) : RatingFilter :=
  if (v <=? 0)%Z then mkFilter []
  else mkFilter ((λ i, Z.of_nat i + 1)%Z <$> seq 0 (Z.to_nat v)).

Section Universe.
Context {F : Type} `{Num F} `{TZDB} `{GoSort}.
Implicit Types (t now : Time) (a : Asset).

Record DataSource : Type := mkSource {
  Fetch : list Asset → Period → list Metric → result (DataFrame F);
  FetchAt : list Asset → Time → list Metric → result (DataFrame F);
  source_CurrentDate : Time;
}.

Definition universe_CurrentDate (ds : option DataSource) : Time :=
  match ds with Some ds => source_CurrentDate ds | None => zero_time end.

Definition no_source (constructor : string) : error :=
  ("universe has no data source; was it created via engine." +:+ constructor +:+ "()?")%string.

(** ** Static universes *)
Record StaticUniverse : Type := mkStatic { su_members : list Asset; su_ds : option DataSource }.
Definition static_Assets (u : StaticUniverse) t : list Asset := su_members u.
Definition static_Window (u : StaticUniverse) (lookback : Period) (metrics : list Metric) : result (DataFrame F) :=
  match su_ds u with
  | None => Err (no_source "Universe")
  | Some ds => Fetch ds (su_members u) lookback metrics
  end.
Definition static_At (u : StaticUniverse) (metrics : list Metric) : result (DataFrame F) :=
  match su_ds u with
  | None => Err (no_source "Universe")
  | Some ds => FetchAt ds (su_members u) (source_CurrentDate ds) metrics
  end.
Definition NewStatic (tickers : list string) : StaticUniverse := mkStatic (mk_asset "" <$> tickers) None.
Definition NewStaticWithSource (assets : list Asset) (ds : DataSource) : StaticUniverse := mkStatic assets (Some ds).

(** ** Rated universes *)
Record ratedUniverse : Type := mkRated {
  ru_analyst : string;
  ru_filter : RatingFilter;
  ru_ds : option DataSource;
  ru_cache : gmap Z (list Asset);
}.

Definition NewRated (analyst : string) (filter : RatingFilter) : ratedUniverse := mkRated analyst filter None ∅.
Definition rated_SetDataSource (u : ratedUniverse) (ds : DataSource) : ratedUniverse :=
  mkRated (ru_analyst u) (ru_filter u) (Some ds) (ru_cache u).

Definition by_ticker a b : bool := String.ltb (Ticker a) (Ticker b).

Section Rated.
Context (RatedAssets : string → RatingFilter → Time → result (list Asset)).

Definition rated_Assets (u : ratedUniverse) (asOfDate : Time) : list Asset * ratedUniverse :=
  match ru_cache u !! Unix asOfDate with
  | Some members => (members, u)
  | None =>
      match RatedAssets (ru_analyst u) (ru_filter u) asOfDate with
      | Ok (a :: rest) =>
          let members := sort_slice by_ticker (a :: rest) in
          (members, mkRated (ru_analyst u) (ru_filter u) (ru_ds u) (<[Unix asOfDate := members]> (ru_cache u)))
      | _ => ([], u)
      end
  end.

Definition rated_Window (u : ratedUniverse) (lookback : Period) (metrics : list Metric) :
    result (DataFrame F) * ratedUniverse :=
  match ru_ds u with
  | None => (Err (no_source "RatedUniverse"), u)
  | Some ds =>
      let '(members, u) := rated_Assets u (source_CurrentDate ds) in
      (Fetch ds members lookback metrics, u)
  end.
Definition rated_At (u : ratedUniverse) (metrics : list Metric) : result (DataFrame F) * ratedUniverse :=
  match ru_ds u with
  | None => (Err (no_source "RatedUniverse"), u)
  | Some ds =>
      let '(members, u) := rated_Assets u (source_CurrentDate ds) in
      (FetchAt ds members (source_CurrentDate ds) metrics, u)
  end.
End Rated.

(** ** Index universes *)
Record indexUniverse : Type := mkIndexUniverse { iu_indexName : string; iu_ds : option DataSource }.
Definition NewIndex (indexName : string) : indexUniverse := mkIndexUniverse indexName None.
Definition index_SetDataSource (u : indexUniverse) (ds : DataSource) : indexUniverse :=
  mkIndexUniverse (iu_indexName u) (Some ds).
Definition SP500 : indexUniverse := NewIndex "SPX".
Definition Nasdaq100 : indexUniverse := NewIndex "NDX".
Definition USTradable : indexUniverse := NewIndex "us-tradable".

Section Indexed.
Context {S : Type} (IndexMembers : S → string → Time → result (list Asset * list (IndexConstituent F)) * S).

Definition index_Assets (u : indexUniverse) (asOfDate : Time) (s : S) : list Asset * S :=
  match IndexMembers s (iu_indexName u) asOfDate with
  | (Ok (assets, _), s) => (assets, s)
  | (Err _, s) => ([], s)
  end.
Definition Constituents (u : indexUniverse) (asOfDate : Time) (s : S) : list (IndexConstituent F) * S :=
  match IndexMembers s (iu_indexName u) asOfDate with
  | (Ok (_, constituents), s) => (constituents, s)
  | (Err _, s) => ([], s)
  end.
Definition index_Window (u : indexUniverse) (lookback : Period) (metrics : list Metric) (s : S) :
    result (DataFrame F) * S :=
  match iu_ds u with
  | None => (Err (no_source "IndexUniverse"), s)
  | Some ds =>
      let '(members, s) := index_Assets u (source_CurrentDate ds) s in
      (Fetch ds members lookback metrics, s)
  end.
Definition index_At (u : indexUniverse) (metrics : list Metric) (s : S) : result (DataFrame F) * S :=
  match iu_ds u with
  | None => (Err (no_source "IndexUniverse"), s)
  | Some ds =>
      let '(members, s) := index_Assets u (source_CurrentDate ds) s in
      (FetchAt ds members (source_CurrentDate ds) metrics, s)
  end.
End Indexed.

(** ** Splices *)
Record SplicePeriod : Type := mkSplicePeriod { sp_Ticker : string; sp_Before : Time }.
Record spliceSegment : Type := mkSegment { sg_asset : Asset; sg_start : Time; sg_end : Time }.

(** The segments are never empty: the last one is the primary. *)
Record SpliceUniverse : Type := mkSplice {
  sp_fallbacks : list spliceSegment;
  sp_primary : spliceSegment;
  sp_ds : option DataSource;
}.
Definition sp_segments (u : SpliceUniverse) : list spliceSegment := sp_fallbacks u ++ [sp_primary u].

(** The segments of the sorted fallbacks, and the cutoff reached. *)
Fixpoint fallback_segments (prevCutoff : Time) (sorted : list SplicePeriod) : list spliceSegment * Time :=
  match sorted with
  | [] => ([], prevCutoff)
  | fb :: rest =>
      let '(segs, cutoff) := fallback_segments (sp_Before fb) rest in
      (mkSegment (mk_asset "" (sp_Ticker fb)) prevCutoff (sp_Before fb) :: segs, cutoff)
  end.

Definition NewSplice (primary : string) (fallbacks : list SplicePeriod) : SpliceUniverse :=
  let sorted := sort_slice (λ x y, Before (sp_Before x) (sp_Before y)) fallbacks in
  let '(segs, cutoff) := fallback_segments zero_time sorted in
  mkSplice segs (mkSegment (mk_asset "" primary) cutoff zero_time) None.

Definition splice_SetDataSource (u : SpliceUniverse) (ds : DataSource) : SpliceUniverse :=
  mkSplice (sp_fallbacks u) (sp_primary u) (Some ds).

Definition resolve_segment (lookup : string → Asset) (s : spliceSegment) : spliceSegment :=
  mkSegment (lookup (Ticker (sg_asset s))) (sg_start s) (sg_end s).
Definition Resolve (lookup : string → Asset) (u : SpliceUniverse) : SpliceUniverse :=
  mkSplice (resolve_segment lookup <$> sp_fallbacks u) (resolve_segment lookup (sp_primary u)) (sp_ds u).

(** A zero bound is no bound. *)
Definition in_segment (asOf : Time) (s : spliceSegment) : bool :=
  if negb (IsZero (sg_start s)) && Before asOf (sg_start s) then false
  else if negb (IsZero (sg_end s)) && negb (Before asOf (sg_end s)) then false
  else true.

Definition segmentFor (u : SpliceUniverse) (asOf : Time) : spliceSegment :=
  default (sp_primary u) (head (keep (in_segment asOf) (sp_segments u))).

Definition splice_Assets (u : SpliceUniverse) (asOf : Time) : list Asset := [sg_asset (segmentFor u asOf)].

Definition relabelSingle (df : DataFrame F) (source target : Asset) : result (DataFrame F) :=
  match df_assets df with
  | [a] =>
      if bool_decide (CompositeFigi a = CompositeFigi source)
      then NewDataFrame (df_times df) [target] (df_metrics df) (df_freq df)
             ((λ m, Column df source m) <$> df_metrics df)
      else Err ("expected single-asset frame for " +:+ Ticker source)%string
  | _ => Err ("expected single-asset frame for " +:+ Ticker source)%string
  end.

(** The part of the window a segment covers. *)
Definition segment_bounds (windowStart now : Time) (s : spliceSegment) : Time * Time :=
  let segStart := if IsZero (sg_start s) || Before (sg_start s) windowStart then windowStart else sg_start s in
  let segEnd := if IsZero (sg_end s) || Before now (sg_end s) then now else sg_end s in
  (segStart, segEnd).

(** The rows of one segment under the active asset's name; [None] when it has
    none in the window. *)
Definition splice_piece (ds : DataSource) (lookback : Period) (metrics : list Metric) (windowStart now : Time)
    (active : Asset) (s : spliceSegment) : result (option (DataFrame F)) :=
  let '(segStart, segEnd) := segment_bounds windowStart now s in
  if negb (Before segStart segEnd) then Ok None
  else
    match Fetch ds [sg_asset s] lookback metrics with
    | Err e => Err ("splice fetch " +:+ Ticker (sg_asset s) +:+ ": " +:+ e)%string
    | Ok raw =>
        let sliced := Between raw segStart (AddDur segEnd (-1)) in
        if (Len sliced =? 0)%nat then Ok None
        else
          match relabelSingle sliced (sg_asset s) active with
          | Err e => Err ("splice relabel " +:+ Ticker (sg_asset s) +:+ " -> " +:+ Ticker active +:+ ": " +:+ e)%string
          | Ok r => Ok (Some r)
          end
    end.

Fixpoint splice_pieces (piece : spliceSegment → result (option (DataFrame F))) (segs : list spliceSegment) :
    result (list (DataFrame F)) :=
  match segs with
  | [] => Ok []
  | s :: rest =>
      p ← piece s;
      ps ← splice_pieces piece rest;
      Ok (match p with Some r => r :: ps | None => ps end)
  end.

Context (format_date : Time → string).

Definition splice_Window (u : SpliceUniverse) (lookback : Period) (metrics : list Metric) : result (DataFrame F) :=
  match sp_ds u with
  | None => Err (no_source "SpliceUniverse")
  | Some ds =>
      let now := source_CurrentDate ds in
      let windowStart := period_Before lookback now in
      let active := sg_asset (segmentFor u now) in
      pieces ← splice_pieces (splice_piece ds lookback metrics windowStart now active) (sp_segments u);
      match pieces with
      | [] => Ok (WithErr ("splice " +:+ Ticker active +:+ ": no data in window [" +:+
                           format_date windowStart +:+ ", " +:+ format_date now +:+ "]")%string)
      | _ => MergeTimes pieces
      end
  end.

Definition splice_At (u : SpliceUniverse) (metrics : list Metric) : result (DataFrame F) :=
  match sp_ds u with
  | None => Err (no_source "SpliceUniverse")
  | Some ds =>
      let now := source_CurrentDate ds in
      FetchAt ds [sg_asset (segmentFor u now)] now metrics
  end.
End Universe.
Arguments DataSource : clear implicits.
Arguments StaticUniverse : clear implicits.
Arguments ratedUniverse : clear implicits.
Arguments indexUniverse : clear implicits.
Arguments SpliceUniverse : clear implicits.
