(* ===== verification/Signal.v ===== *)
(** * Signal: technical signals ([signal/*.go], [universe/universe.go])

    A signal fetches a window of bars from a universe and answers one row with
    a value per asset.  The universe is the interface the strategies use, a
    record of operations; the frame it returns has a column for every asset and
    every metric asked for (the frames of [Fetch] do), and reading a column that
    is missing, which panics in the source, reads zeros here.  A negative number
    of bars given to a rolling window, which panics as well, reads as zero.  An
    error is wrapped in the signal's name and becomes the error of the frame. *)
From Stdlib Require Import ZArith.
From stdpp Require Import base list gmap strings pretty.
From S2P Require Import Prelude Num GoTime Asset Period Frame Metrics FrameOps Resample SimBroker Universe.
Local Open Scope Z_scope.

Definition index_panic : error := "runtime error: index out of range"%string.

(** A duration in days, rounded up: [int(math.Ceil(d.Hours() / 24))], taken in
    integers. *)
Definition ceil_days (d : Z) : Z := - ((- d) / ns_per_day).

(** Enough calendar days to contain the bars. *)
Definition barsToCalendarDays (bars : Z) : Z := Z.quot (bars * 7) 5 + Z.quot bars 20 + 10.

Section Signal.
Context {F : Type} `{Num F} `{Gonum F} `{NumSqrt F} `{NumLog F} `{TZDB} `{GoSort}.
Implicit Types (df : DataFrame F) (m : Metric) (col vals highs lows closes volumes : list F) (a : Asset) (period : Period).

(** The interface [universe.Universe]. *)
Record Universe : Type := mkUniverse {
  u_Assets : Time → list Asset;
  u_Window : Period → list Metric → result (DataFrame F);
  u_At : list Metric → result (DataFrame F);
  u_CurrentDate : Time;
}.
Implicit Types (u : Universe).

Definition static_universe (s : StaticUniverse F) : Universe :=
  mkUniverse (static_Assets s) (static_Window s) (static_At s) (universe_CurrentDate (su_ds s)).

(** ** Windows of bars *)
Definition last_time_of df : Time := default zero_time (last (df_times df)).

(** At most the last [barCount] rows. *)
Definition tailBars df (barCount : Z) : DataFrame F :=
  if (barCount <=? 0) || (Z.of_nat (Len df) <=? barCount) then df
  else Between df (time_at (df_times df) (Len df - Z.to_nat barCount)) (last_time_of df).

Definition midnight_of (t : Time) : Time := Date (Year t) (Month t) (Day t) 0 0 0 0 (t_loc t).

(** The first row of the caller's period in a frame with history before it. *)
Definition period_row df (start : Time) : nat :=
  sort_Search (length (df_times df)) (λ i, negb (Before (time_at (df_times df) i) (midnight_of start))).

Definition fetch_period period (ref : Time) (extraBars : Z) : Period :=
  match Unit period with
  | UnitDay => Days (barsToCalendarDays (N period + extraBars))
  | UnitMinuteBar | UnitDailyAtTime => mkPeriod (N period + extraBars) (Unit period) (tods period)
  | _ => Days (ceil_days (Sub ref (period_Before period ref)) + barsToCalendarDays extraBars)
  end.

(** The trimmed frame and the number of its bars in the caller's period. *)
Definition extendedWindow u period (extraBars : Z) (metrics : list Metric) : result (DataFrame F * Z) :=
  let ref := u_CurrentDate u in
  df ← u_Window u (fetch_period period ref extraBars) metrics;
  match Unit period with
  | UnitDay =>
      let df := tailBars df (N period + extraBars) in
      Ok (df, Z.min (N period) (Z.of_nat (Len df)))
  | UnitMinuteBar | UnitDailyAtTime => Ok (df, Z.min (N period) (Z.of_nat (Len df)))
  | _ =>
      let count := Z.of_nat (length (df_times df)) in
      let idx := Z.of_nat (period_row df (period_Before period ref)) in
      let trimIdx := Z.max 0 (idx - extraBars) in
      if trimIdx =? 0 then Ok (df, count - idx)
      else if count <=? trimIdx then Err index_panic
      else Ok (Between df (time_at (df_times df) (Z.to_nat trimIdx)) (last_time_of df), count - idx)
  end.

Definition frame_key (daily : bool) (t : Time) : Z := if daily then dateKey t else t_ns t.

(** The rows of two frames that have a partner in the other. *)
Definition alignFrames (dfA dfB : DataFrame F) : result (DataFrame F * DataFrame F) :=
  let daily := daily_or_coarser (df_freq dfA) && daily_or_coarser (df_freq dfB) in
  let keysA := frame_key daily <$> df_times dfA in
  let keysB := frame_key daily <$> df_times dfB in
  if bool_decide (keysA = keysB) then Ok (dfA, dfB)
  else
    let alignedA := Filter dfA (λ t _, bool_decide (frame_key daily t ∈ keysB)) in
    let alignedB := Filter dfB (λ t _, bool_decide (frame_key daily t ∈ keysA)) in
    if (Len alignedA =? 0)%nat || (Len alignedB =? 0)%nat then
      Err "no overlapping timestamps between the two data sets"
    else if negb (Len alignedA =? Len alignedB)%nat then
      Err ("cannot align data sets: duplicate timestamps (" +:+ pretty (Len alignedA) +:+ " vs "
           +:+ pretty (Len alignedB) +:+ " overlapping rows)")%string
    else Ok (alignedA, alignedB).

(** ** Statistics of a column *)
Local Open Scope num_scope.
Definition fcount {A} (l : list A) : F := of_Z (Z.of_nat (length l)).
Definition mean_value vals : F := fsum vals / fcount vals.
Definition sum_squares (mean : F) vals : F :=
  fold_left (λ sumSq v, sumSq + (v - mean) * (v - mean)) vals 0.
Definition populationStd vals : F :=
  match vals with [] => fnan | _ => fsqrt (sum_squares (mean_value vals) vals / fcount vals) end.

Definition zScore vals : result F :=
  if (length vals <? 2)%nat then
    Err ("zScore: need at least 2 values, got " +:+ pretty (length vals))%string
  else
    let mean := mean_value vals in
    let stddev := fsqrt (sum_squares mean vals / fcount vals) in
    if stddev =? 0 then Err "zScore: standard deviation is zero (constant series)"%string
    else Ok ((default 0 (last vals) - mean) / stddev).

(** Least squares of [yy] on [xx]: slope and intercept. *)
Definition linRegress (xx yy : list F) : result (F * F) :=
  if (length xx <? 2)%nat then
    Err ("linRegress: need at least 2 points, got " +:+ pretty (length xx))%string
  else if negb (length yy =? length xx)%nat then
    Err ("linRegress: x and y lengths differ (" +:+ pretty (length xx) +:+ " vs " +:+ pretty (length yy) +:+ ")")%string
  else
    let sumX := fsum xx in
    let sumY := fsum yy in
    let sumXY := fsum (zip_with fmul xx yy) in
    let sumX2 := fsum (zip_with fmul xx xx) in
    let nf := fcount xx in
    let denom := nf * sumX2 - sumX * sumX in
    if denom =? 0 then Err "linRegress: all x values are identical"%string
    else
      let slope := (nf * sumXY - sumX * sumY) / denom in
      Ok (slope, (sumY - slope * sumX) / nf).

(** ** The shape of a signal *)
Definition signal_error (name : string) (e : error) : DataFrame F := WithErr (name +:+ ": " +:+ e)%string.
Definition or_error (name : string) (r : result (DataFrame F)) : DataFrame F :=
  match r with Ok df => df | Err e => signal_error name e end.

(** The frame of a window, once it has enough rows. *)
Definition with_rows (name : string) (least : nat) (r : result (DataFrame F)) (k : DataFrame F → DataFrame F) : DataFrame F :=
  match r with
  | Err e => signal_error name e
  | Ok df =>
      if (Len df <? least)%nat then
        signal_error name ("need at least " +:+ pretty least +:+ " data points, got " +:+ pretty (Len df))%string
      else k df
  end.
Definition with_extended (name : string) (least : nat) (r : result (DataFrame F * Z)) (k : DataFrame F → Z → DataFrame F) : DataFrame F :=
  match r with
  | Err e => signal_error name e
  | Ok (df, baseBars) =>
      if (Len df <? least)%nat then
        signal_error name ("need at least " +:+ pretty least +:+ " data points, got " +:+ pretty (Len df))%string
      else k df baseBars
  end.

(** One row at the last time, a value per asset. *)
Definition signal_row df m (value : Asset → F) : result (DataFrame F) :=
  NewDataFrame [last_time_of df] (df_assets df) [m] (df_freq df) ((λ a, [value a]) <$> df_assets df).
(** The same when the value of an asset may fail; the error names the ticker. *)
Definition signal_row_fallible (name : string) df m (value : Asset → result F) : DataFrame F :=
  match mapM (λ a, match value a with
                   | Ok x => Ok x
                   | Err e => Err (name +:+ " [" +:+ Ticker a +:+ "]: " +:+ e)%string
                   end) (df_assets df) with
  | Err e => WithErr e
  | Ok values => or_error name (NewDataFrame [last_time_of df] (df_assets df) [m] (df_freq df) ((λ x, [x]) <$> values))
  end.

(** The metric of an optional argument. *)
Definition price_metric (metrics : list Metric) : Metric := default MetricClose (head metrics).
End Signal.
Arguments Universe : clear implicits.
