(* ===== verification/Indicators.v ===== *)
(** * Indicators: the signals themselves ([signal/*.go], one file per signal)

    Trend and momentum, oscillators, bands, volume, mean reversion of one
    series and of pairs, and the Hurst exponents.  [math.Log] is the class
    [NumLog]; the infinities a scan for the extremes starts from are arguments
    of the class [GoInf]. *)
From Stdlib Require Import ZArith.
From stdpp Require Import base list gmap strings pretty.
From S2P Require Import Prelude Num GoTime Asset Period Frame Metrics FrameOps Resample SimBroker Universe Signal.

(** [math.Inf(1)] *)
Class GoInf (F : Type) : Type := { inf : F }.
#[export] Instance GoInf_exact : GoInf xq := {| inf := PInf |}.
#[export] Instance GoInf_float64 : GoInf PrimFloat.float := {| inf := PrimFloat.infinity |}.

Section Indicators.
Context {F : Type} `{Num F} `{Gonum F} `{NumSqrt F} `{NumLog F} `{GoInf F} `{TZDB} `{GoSort}.
Local Open Scope num_scope.
Implicit Types (df : DataFrame F) (m : Metric) (col vals highs lows closes volumes : list F) (a : Asset) (period : Period) (u : Universe F).

(** ** Trend and momentum *)
Definition MomentumSignal : Metric := "Momentum"%string.
Definition Momentum u period (metrics : list Metric) : DataFrame F :=
  let metric := price_metric metrics in
  with_rows "Momentum" 2 (u_Window u period [metric]) (λ df,
    RenameMetric (Last (Pct df (Len df - 1))) metric MomentumSignal).

Definition VolatilitySignal : Metric := "Volatility"%string.
Definition Volatility u period (metrics : list Metric) : DataFrame F :=
  let metric := price_metric metrics in
  with_rows "Volatility" 3 (u_Window u period [metric]) (λ df,
    let returns := Drop (Pct df 1) fnan in
    RenameMetric (Last (Rolling_Std returns (Len returns))) metric VolatilitySignal).

Definition CrossoverFastSignal : Metric := "CrossoverFast"%string.
Definition CrossoverSlowSignal : Metric := "CrossoverSlow"%string.
Definition CrossoverSignal : Metric := "Crossover"%string.
(** [min(n, df.Len())] rows. *)
Definition clamped (n : Z) df : nat := Z.to_nat (Z.min n (Z.of_nat (Len df))).
Definition Crossover u (fastPeriod slowPeriod : Period) (metrics : list Metric) : DataFrame F :=
  let metric := price_metric metrics in
  with_rows "Crossover" 2 (u_Window u slowPeriod [metric]) (λ df,
    let fastSMA := RenameMetric (Last (Rolling_Mean df (clamped (N fastPeriod) df))) metric CrossoverFastSignal in
    let slowSMA := RenameMetric (Last (Rolling_Mean df (clamped (N slowPeriod) df))) metric CrossoverSlowSignal in
    let cross a := if Value fastSMA a CrossoverFastSignal >? Value slowSMA a CrossoverSlowSignal then 1 else - (1) in
    or_error "Crossover"
      (crossoverDF ← NewDataFrame (df_times fastSMA) (df_assets fastSMA) [CrossoverSignal] (df_freq fastSMA)
         ((λ a, [cross a]) <$> df_assets fastSMA);
       MergeColumns [fastSMA; slowSMA; crossoverDF])).

Definition MACDLineSignal : Metric := "MACDLine"%string.
Definition MACDSignalLineSignal : Metric := "MACDSignalLine"%string.
Definition MACDHistogramSignal : Metric := "MACDHistogram"%string.
Definition MACD u (fast slow signalPeriod : Period) (metrics : list Metric) : DataFrame F :=
  let metric := price_metric metrics in
  if (N fast <? 1)%Z || (N slow <? 1)%Z || (N signalPeriod <? 1)%Z then
    WithErr "MACD: fast, slow, and signal periods must each cover at least 1 bar"%string
  else
    with_extended "MACD" 2 (extendedWindow u slow (N signalPeriod - 1) [metric]) (λ df _,
      let fastEMA := Rolling_EMA df (clamped (N fast) df) in
      let slowEMA := Rolling_EMA df (clamped (N slow) df) in
      let macdLine := Drop (frame_Sub fastEMA slowEMA []) fnan in
      let signalLine := Rolling_EMA macdLine (clamped (N signalPeriod) macdLine) in
      let histogram := frame_Sub macdLine signalLine [] in
      or_error "MACD"
        (MergeColumns [RenameMetric (Last macdLine) metric MACDLineSignal;
                       RenameMetric (Last signalLine) metric MACDSignalLineSignal;
                       RenameMetric (Last histogram) metric MACDHistogramSignal])).

(** Wilder's smoothing: the mean of the first [n] values, then a weighted step
    per further value. *)
Definition wilder_step (n : nat) (avg v : F) : F :=
  (avg * of_Z (Z.of_nat n - 1) + v) / of_Z (Z.of_nat n).
Definition wilder (n : nat) vals : F :=
  fold_left (wilder_step n) (drop n vals) (fsum (take n vals) / of_Z (Z.of_nat n)).

Definition RSISignal : Metric := "RSI"%string.
Definition gain_of (change : F) : F := if change >? 0 then change else 0.
Definition loss_of (change : F) : F := if change >? 0 then 0 else - change.
Definition rsi_value (avgGain avgLoss : F) : F :=
  if avgLoss =? 0 then of_Z 100
  else let rs := avgGain / avgLoss in of_Z 100 - of_Z 100 / (1 + rs).
(** The last row gets the index, every other row NaN; the first change is
    skipped. *)
Definition rsi_col (rsiPeriod : nat) (changes : list F) : list F :=
  match changes with
  | [] => []
  | _ :: rest =>
      replicate (length rest) fnan
      ++ [rsi_value (wilder rsiPeriod (gain_of <$> rest)) (wilder rsiPeriod (loss_of <$> rest))]
  end.
Definition bar_period_error (name : string) (n : Z) : DataFrame F :=
  signal_error name ("period must cover at least 1 bar, got " +:+ pretty n)%string.
Definition RSI u period (metrics : list Metric) : DataFrame F :=
  let metric := price_metric metrics in
  with_extended "RSI" 3 (extendedWindow u period (2 * N period + 1) [metric]) (λ df baseBars,
    let rsiPeriod := Z.min baseBars (Z.of_nat (Len df) - 1) in
    if (rsiPeriod <? 1)%Z then bar_period_error "RSI" rsiPeriod
    else RenameMetric (Last (Apply (Diff df) (rsi_col (Z.to_nat rsiPeriod)))) metric RSISignal).

(** ** Ranges and bands *)
Definition ATRSignal : Metric := "ATR"%string.
(** The true range of every bar after the first; [math.Max] propagates NaN. *)
Definition true_range (high low prevClose : F) : F :=
  fmax (high - low) (fmax (fabs (high - prevClose)) (fabs (low - prevClose))).
Fixpoint true_ranges highs lows closes : list F :=
  match highs, lows, closes with
  | _ :: (h :: _) as highs', _ :: (l :: _) as lows', c :: closes' =>
      true_range h l c :: true_ranges highs' lows' closes'
  | _, _, _ => []
  end.
Definition average_true_range df (atrPeriod : nat) a : F :=
  wilder atrPeriod (true_ranges (Column df a MetricHigh) (Column df a MetricLow) (Column df a MetricClose)).
Definition ATR u period : DataFrame F :=
  with_extended "ATR" 2 (extendedWindow u period (2 * N period + 1) [MetricHigh; MetricLow; MetricClose]) (λ df baseBars,
    let atrPeriod := Z.min baseBars (Z.of_nat (Len df) - 1) in
    if (atrPeriod <? 1)%Z then bar_period_error "ATR" atrPeriod
    else or_error "ATR" (signal_row df ATRSignal (average_true_range df (Z.to_nat atrPeriod)))).

Definition KeltnerUpperSignal : Metric := "KeltnerUpper"%string.
Definition KeltnerMiddleSignal : Metric := "KeltnerMiddle"%string.
Definition KeltnerLowerSignal : Metric := "KeltnerLower"%string.
Definition KeltnerChannels u period (atrMultiplier : F) (metrics : list Metric) : DataFrame F :=
  let metric := price_metric metrics in
  let fetchMetrics := [MetricHigh; MetricLow; MetricClose]
    ++ (if bool_decide (metric = MetricClose) then [] else [metric]) in
  with_extended "KeltnerChannels" 2 (extendedWindow u period (2 * N period + 1) fetchMetrics) (λ df baseBars,
    let atrPeriod := Z.min baseBars (Z.of_nat (Len df) - 1) in
    if (atrPeriod <? 1)%Z then bar_period_error "KeltnerChannels" atrPeriod
    else
      let centerLine := RenameMetric (Last (Rolling_EMA (Metrics df [metric]) (clamped baseBars df))) metric KeltnerMiddleSignal in
      or_error "KeltnerChannels"
        (atrDF ← signal_row df KeltnerMiddleSignal (average_true_range df (Z.to_nat atrPeriod));
         let band := MulScalar atrDF atrMultiplier in
         MergeColumns [centerLine;
           RenameMetric (frame_Add centerLine band []) KeltnerMiddleSignal KeltnerUpperSignal;
           RenameMetric (frame_Sub centerLine band []) KeltnerMiddleSignal KeltnerLowerSignal])).

Definition BollingerUpperSignal : Metric := "BollingerUpper"%string.
Definition BollingerMiddleSignal : Metric := "BollingerMiddle"%string.
Definition BollingerLowerSignal : Metric := "BollingerLower"%string.
Definition BollingerBands u period (numStdDev : F) (metrics : list Metric) : DataFrame F :=
  let metric := price_metric metrics in
  with_rows "BollingerBands" 2 (u_Window u period [metric]) (λ df,
    let middle := RenameMetric (Last (Rolling_Mean df (Len df))) metric BollingerMiddleSignal in
    let stdDev := RenameMetric (Reduce df populationStd) metric BollingerMiddleSignal in
    let band := MulScalar stdDev numStdDev in
    or_error "BollingerBands"
      (MergeColumns [middle;
         RenameMetric (frame_Add middle band []) BollingerMiddleSignal BollingerUpperSignal;
         RenameMetric (frame_Sub middle band []) BollingerMiddleSignal BollingerLowerSignal])).

Definition DonchianUpperSignal : Metric := "DonchianUpper"%string.
Definition DonchianMiddleSignal : Metric := "DonchianMiddle"%string.
Definition DonchianLowerSignal : Metric := "DonchianLower"%string.
Definition DonchianChannels u period : DataFrame F :=
  with_rows "DonchianChannels" 1 (u_Window u period [MetricHigh; MetricLow]) (λ df,
    let upper := Metrics (RenameMetric (Last (Rolling_Max df (Len df))) MetricHigh DonchianUpperSignal) [DonchianUpperSignal] in
    let lower := Metrics (RenameMetric (Last (Rolling_Min df (Len df))) MetricLow DonchianLowerSignal) [DonchianLowerSignal] in
    let middle := RenameMetric
      (DivScalar (frame_Add upper (RenameMetric lower DonchianLowerSignal DonchianUpperSignal) []) (of_Z 2))
      DonchianUpperSignal DonchianMiddleSignal in
    or_error "DonchianChannels" (MergeColumns [upper; middle; lower])).

(** ** Oscillators *)

(** The highest high and the lowest low; the scan skips NaN. *)
Definition highest highs : F := fold_left (λ best v, if v >? best then v else best) highs (- inf).
Definition lowest lows : F := fold_left (λ best v, if v <? best then v else best) lows inf.

Definition WilliamsRSignal : Metric := "WilliamsR"%string.
Definition williams_value highs lows closes : F :=
  let highestHigh := highest highs in
  let rangeHL := highestHigh - lowest lows in
  if rangeHL =? 0 then fnan
  else (highestHigh - default 0 (last closes)) / rangeHL * - of_Z 100.
Definition WilliamsR u period : DataFrame F :=
  with_rows "WilliamsR" 2 (u_Window u period [MetricHigh; MetricLow; MetricClose]) (λ df,
    or_error "WilliamsR" (signal_row df WilliamsRSignal (λ a,
      williams_value (Column df a MetricHigh) (Column df a MetricLow) (Column df a MetricClose)))).

Definition StochasticKSignal : Metric := "StochasticK"%string.
Definition StochasticDSignal : Metric := "StochasticD"%string.
Definition StochasticSlowKSignal : Metric := "StochasticSlowK"%string.
Definition StochasticSlowDSignal : Metric := "StochasticSlowD"%string.
Definition stochasticDPeriod : nat := 3.

(** One %K: the close of the last bar of the window in its range. *)
Definition stochastic_value highs lows (close : F) : F :=
  let lowestLow := lowest lows in
  let rangeHL := highest highs - lowestLow in
  if rangeHL =? 0 then fnan else (close - lowestLow) / rangeHL * of_Z 100.
Definition stochasticKSeries highs lows closes (windowSize : nat) : list F :=
  (λ ii, stochastic_value (slice ii (ii + windowSize) highs) (slice ii (ii + windowSize) lows)
           (default 0 (closes !! (ii + windowSize - 1)%nat)))
    <$> seq 0 (length highs + 1 - windowSize).

(** The mean of a run of values, NaN when one of them is. *)
Definition smoothed vals : F :=
  if existsb is_nan vals then fnan else fsum vals / fcount vals.
Definition last_n {A} (n : nat) (l : list A) : list A := drop (length l - n) l.

(** The two lines of an oscillator. *)
Definition two_lines (name : string) df (kSignal dSignal : Metric) (lines : Asset → F * F) : DataFrame F :=
  or_error name
    (kDF ← signal_row df kSignal (λ a, (lines a).1);
     dDF ← signal_row df dSignal (λ a, (lines a).2);
     MergeColumns [kDF; dDF]).

Definition fast_lines df (kWindow : nat) a : F * F :=
  let kValues := stochasticKSeries (Column df a MetricHigh) (Column df a MetricLow) (Column df a MetricClose) kWindow in
  (default 0 (last kValues), smoothed (last_n stochasticDPeriod kValues)).
Definition StochasticFast u period : DataFrame F :=
  with_extended "StochasticFast" (stochasticDPeriod + 1)
    (extendedWindow u period (Z.of_nat stochasticDPeriod - 1) [MetricHigh; MetricLow; MetricClose]) (λ df kWindow,
    let kWindow := Z.min kWindow (Z.of_nat (Len df) - Z.of_nat stochasticDPeriod + 1) in
    if (kWindow <? 1)%Z then bar_period_error "StochasticFast" kWindow
    else two_lines "StochasticFast" df StochasticKSignal StochasticDSignal (fast_lines df (Z.to_nat kWindow))).

Definition slow_lines df (kWindow smoothing : nat) a : F * F :=
  let rawK := stochasticKSeries (Column df a MetricHigh) (Column df a MetricLow) (Column df a MetricClose) kWindow in
  let slowKValues := (λ jj, smoothed (slice jj (jj + smoothing) rawK)) <$> seq 0 (length rawK + 1 - smoothing) in
  (default 0 (last slowKValues), smoothed (last_n stochasticDPeriod slowKValues)).
Definition StochasticSlow u period (smoothing : Period) : DataFrame F :=
  let warmupBars := (N smoothing + Z.of_nat stochasticDPeriod - 2)%Z in
  with_extended "StochasticSlow" (Z.to_nat (warmupBars + 2))
    (extendedWindow u period warmupBars [MetricHigh; MetricLow; MetricClose]) (λ df kWindow,
    let kWindow := Z.min kWindow (Z.of_nat (Len df) - warmupBars) in
    if (kWindow <? 1)%Z then bar_period_error "StochasticSlow" kWindow
    else two_lines "StochasticSlow" df StochasticSlowKSignal StochasticSlowDSignal
           (slow_lines df (Z.to_nat kWindow) (Z.to_nat (N smoothing)))).

Definition typical_prices highs lows closes : list F :=
  zip_with (λ hl c, (hl + c) / of_Z 3) (zip_with fadd highs lows) closes.

Definition CCISignal : Metric := "CCI"%string.
Definition cciConstant : F := lit 15 1000.
Definition cci_value (tp : list F) : F :=
  let sma := mean_value tp in
  let meanDev := fsum ((λ p, fabs (p - sma)) <$> tp) / fcount tp in
  if meanDev =? 0 then fnan else (default 0 (last tp) - sma) / (cciConstant * meanDev).
Definition CCI u period : DataFrame F :=
  with_rows "CCI" 2 (u_Window u period [MetricHigh; MetricLow; MetricClose]) (λ df,
    or_error "CCI" (signal_row df CCISignal (λ a,
      cci_value (typical_prices (Column df a MetricHigh) (Column df a MetricLow) (Column df a MetricClose))))).

(** ** Volume *)

(** The sums over the bars whose price rose and over those whose price fell. *)
Fixpoint directed_flow (add sub : F → F → F) (total : F) (prev : F) (bars : list (F * F)) : F :=
  match bars with
  | [] => total
  | (price, amount) :: rest =>
      directed_flow add sub
        (if price >? prev then add total amount else if price <? prev then sub total amount else total) price rest
  end.

Definition MFISignal : Metric := "MFI"%string.
Definition mfi_value (tp volumes : list F) : F :=
  match zip tp (zip_with fmul tp volumes) with
  | [] => fnan
  | (first, _) :: bars =>
      let posFlow := directed_flow fadd (λ total _, total) 0 first bars in
      let negFlow := directed_flow (λ total _, total) fadd 0 first bars in
      if (posFlow =? 0) && (negFlow =? 0) then fnan
      else if negFlow =? 0 then of_Z 100
      else if posFlow =? 0 then 0
      else of_Z 100 - of_Z 100 / (1 + posFlow / negFlow)
  end.
Definition MFI u period : DataFrame F :=
  with_extended "MFI" 2 (extendedWindow u period 1 [MetricHigh; MetricLow; MetricClose; Volume]) (λ df _,
    or_error "MFI" (signal_row df MFISignal (λ a,
      mfi_value (typical_prices (Column df a MetricHigh) (Column df a MetricLow) (Column df a MetricClose))
        (Column df a Volume)))).

Definition OBVSignal : Metric := "OBV"%string.
Definition obv_value closes volumes : F :=
  match zip closes volumes with
  | [] => 0
  | (first, _) :: bars => directed_flow fadd fsub 0 first bars
  end.
Definition OBV u period : DataFrame F :=
  with_rows "OBV" 2 (u_Window u period [MetricClose; Volume]) (λ df,
    or_error "OBV" (signal_row df OBVSignal (λ a, obv_value (Column df a MetricClose) (Column df a Volume)))).

Definition AccumulationDistributionSignal : Metric := "AccumulationDistribution"%string.
(** The close's place in the bar's range, from -1 to 1, times the volume. *)
Definition money_flow_volume (high low close volume : F) : F :=
  let hl := high - low in
  if hl =? 0 then 0 else ((close - low) - (high - close)) / hl * volume.
Definition moneyFlowVolumeSeries highs lows closes volumes : list F :=
  zip_with (λ hl cv : F * F, money_flow_volume hl.1 hl.2 cv.1 cv.2) (zip highs lows) (zip closes volumes).
Definition flow_volumes df a : list F :=
  moneyFlowVolumeSeries (Column df a MetricHigh) (Column df a MetricLow) (Column df a MetricClose) (Column df a Volume).
Definition AccumulationDistribution u period : DataFrame F :=
  with_rows "AccumulationDistribution" 2 (u_Window u period [MetricHigh; MetricLow; MetricClose; Volume]) (λ df,
    or_error "AccumulationDistribution" (signal_row df AccumulationDistributionSignal (λ a, fsum (flow_volumes df a)))).

Definition CMFSignal : Metric := "CMF"%string.
Definition cmf_value (mfvs volumes : list F) : F :=
  let sumVolume := fsum volumes in
  if sumVolume !=? 0 then fsum mfvs / sumVolume else fnan.
Definition CMF u period : DataFrame F :=
  with_rows "CMF" 2 (u_Window u period [MetricHigh; MetricLow; MetricClose; Volume]) (λ df,
    or_error "CMF" (signal_row df CMFSignal (λ a, cmf_value (flow_volumes df a) (Column df a Volume)))).

Definition VWMASignal : Metric := "VWMA"%string.
Definition vwma_value closes volumes : F :=
  let sumV := fsum volumes in
  if sumV =? 0 then fnan else fsum (zip_with fmul closes volumes) / sumV.
Definition VWMA u period : DataFrame F :=
  with_rows "VWMA" 1 (u_Window u period [MetricClose; Volume]) (λ df,
    or_error "VWMA" (signal_row df VWMASignal (λ a, vwma_value (Column df a MetricClose) (Column df a Volume)))).

(** ** Value and mean reversion *)
Definition EarningsYieldSignal : Metric := "EarningsYield"%string.
Definition ColCount df : nat := length (df_assets df) * length (df_metrics df).
Definition earnings_yield (eps price : F) : F := if price =? 0 then fnan else eps / price.
Definition EarningsYield u : DataFrame F :=
  match u_At u [Catalog.EarningsPerShare; Catalog.Price] with
  | Err e => signal_error "EarningsYield" e
  | Ok df =>
      if (ColCount (Metrics df [Catalog.EarningsPerShare]) =? 0)%nat then WithErr "EarningsYield: missing EarningsPerShare metric"%string
      else if (ColCount (Metrics df [Catalog.Price]) =? 0)%nat then WithErr "EarningsYield: missing Price metric"%string
      else if (Len df =? 0)%nat && negb (length (df_assets df) =? 0)%nat then WithErr index_panic
      else
        let now := time_at (df_times df) 0 in
        or_error "EarningsYield"
          (NewDataFrame (df_times df) (df_assets df) [EarningsYieldSignal] Daily
             ((λ a, [earnings_yield (ValueAt df a Catalog.EarningsPerShare now) (ValueAt df a Catalog.Price now)]) <$> df_assets df))
  end.

Definition ZScoreSignal : Metric := "ZScore"%string.
Definition ZScore u period (metrics : list Metric) : DataFrame F :=
  let metric := price_metric metrics in
  with_rows "ZScore" 2 (u_Window u period [metric]) (λ df,
    signal_row_fallible "ZScore" df ZScoreSignal (λ a, zScore (Column df a metric))).

(** The changes from bar to bar; a zero price is an error, named by its index. *)
Fixpoint simple_returns (zero_price : nat → error) (i : nat) (prices : list F) : result (list F) :=
  match prices with
  | p :: (p' :: _) as rest =>
      if p =? 0 then Err (zero_price i)
      else
        returns ← simple_returns zero_price (S i) rest;
        Ok ((p' - p) / p :: returns)
  | _ => Ok []
  end.

(** ** Pairs *)

(** A value per pair of a primary and a reference asset, a metric per
    reference. *)
Definition pairs_frame (name : string) (primaryDF refDF : DataFrame F) (values : result (list (list F))) : DataFrame F :=
  match values with
  | Err e => WithErr e
  | Ok values =>
      or_error name
        (NewDataFrame [last_time_of primaryDF] (df_assets primaryDF)
           ((λ ra, name +:+ "_" +:+ Ticker ra)%string <$> df_assets refDF) (df_freq primaryDF)
           ((λ x, [x]) <$> concat values))
  end.
Definition pair_error (name : string) (pa ra : Asset) (r : result F) : result F :=
  match r with
  | Ok x => Ok x
  | Err e => Err (name +:+ " [" +:+ Ticker pa +:+ " vs " +:+ Ticker ra +:+ "]: " +:+ e)%string
  end.

(** The two windows, aligned, once they have enough rows. *)
Definition with_pair (name : string) (least : nat) u (reference : Universe F) period
    (k : DataFrame F → DataFrame F → DataFrame F) : DataFrame F :=
  match u_Window u period [MetricClose] with
  | Err e => signal_error name ("primary fetch: " +:+ e)%string
  | Ok primaryDF =>
      match u_Window reference period [MetricClose] with
      | Err e => signal_error name ("reference fetch: " +:+ e)%string
      | Ok refDF =>
          match alignFrames primaryDF refDF with
          | Err e => signal_error name e
          | Ok (primaryDF, refDF) =>
              if (Len primaryDF <? least)%nat then
                signal_error name ("need at least " +:+ pretty least +:+ " data points, got " +:+ pretty (Len primaryDF))%string
              else k primaryDF refDF
          end
      end
  end.

(** The column of the last reference with the ticker: the prices are cached by
    ticker. *)
Definition cached_prices (refDF : DataFrame F) (ticker : string) : list F :=
  match last (keep (λ ra, bool_decide (Ticker ra = ticker)) (df_assets refDF)) with
  | Some ra => Column refDF ra MetricClose
  | None => []
  end.

Fixpoint price_ratios (name ticker : string) (i : nat) (primary reference : list F) : result (list F) :=
  match primary, reference with
  | p :: primary, r :: reference =>
      if r =? 0 then Err (name +:+ ": zero reference price for " +:+ ticker +:+ " at index " +:+ pretty i)%string
      else
        ratios ← price_ratios name ticker (S i) primary reference;
        Ok (p / r :: ratios)
  | _, _ => Ok []
  end.
Definition pairs_ratio_value (primaryDF refDF : DataFrame F) (pa ra : Asset) : result F :=
  ratios ← price_ratios "PairsRatio" (Ticker ra) 0 (Column primaryDF pa MetricClose) (cached_prices refDF (Ticker ra));
  pair_error "PairsRatio" pa ra (zScore ratios).
Definition PairsRatio u period (reference : Universe F) : DataFrame F :=
  with_pair "PairsRatio" 2 u reference period (λ primaryDF refDF,
    pairs_frame "PairsRatio" primaryDF refDF
      (mapM (λ pa, mapM (pairs_ratio_value primaryDF refDF pa) (df_assets refDF)) (df_assets primaryDF))).

Definition zero_reference (ticker : string) (i : nat) : error :=
  ("PairsResidual: zero price for reference " +:+ ticker +:+ " at index " +:+ pretty i)%string.
Definition zero_primary (ticker : string) (i : nat) : error :=
  ("PairsResidual: zero price for " +:+ ticker +:+ " at index " +:+ pretty i)%string.
Definition residuals (slope intercept : F) (yy xx : list F) : list F :=
  zip_with (λ y x, y - (intercept + slope * x)) yy xx.
Definition pairs_residual_value (primaryRets : list F) (refDF : DataFrame F) (pa ra : Asset) : result F :=
  rr ← simple_returns (zero_reference (Ticker ra)) 0 (cached_prices refDF (Ticker ra));
  pair_error "PairsResidual" pa ra
    ('(slope, intercept) ← linRegress rr primaryRets;
     zScore (residuals slope intercept primaryRets rr)).
(** The returns of every reference are computed before those of a primary. *)
Definition PairsResidual u period (reference : Universe F) : DataFrame F :=
  with_pair "PairsResidual" 3 u reference period (λ primaryDF refDF,
    pairs_frame "PairsResidual" primaryDF refDF
      (_ ← mapM (λ ra, simple_returns (zero_reference (Ticker ra)) 0 (Column refDF ra MetricClose)) (df_assets refDF);
       mapM (λ pa,
         primaryRets ← simple_returns (zero_primary (Ticker pa)) 0 (Column primaryDF pa MetricClose);
         mapM (pairs_residual_value primaryRets refDF pa) (df_assets refDF)) (df_assets primaryDF))).

(** ** Hurst exponents *)

(** Powers of two from 4 up to half the length; the fuel is the length, which
    the doubling reaches first. *)
Fixpoint window_sizes (fuel ss limit : nat) : list nat :=
  match fuel with
  | O => []
  | S fuel => if (ss <=? limit)%nat then ss :: window_sizes fuel (2 * ss) limit else []
  end.
Definition sizes_of vals : list nat := window_sizes (length vals) 4 (length vals / 2).

(** The segments of one size, a remainder left out. *)
Definition segments (ss : nat) vals : list (list F) :=
  (λ seg, slice (seg * ss) (seg * ss + ss) vals) <$> seq 0 (length vals / ss).

Fixpoint running_sum (total : F) vals : list F :=
  match vals with [] => [] | v :: rest => let total := total + v in total :: running_sum total rest end.
(** The cumulative deviations from the mean: the first is not added to zero. *)
Definition cumulative_deviations (mean : F) vals : list F :=
  match vals with [] => [] | v :: rest => (v - mean) :: running_sum (v - mean) ((λ x, x - mean) <$> rest) end.

Definition rescaled_range (segment : list F) : F :=
  let segMean := mean_value segment in
  match cumulative_deviations segMean segment with
  | [] => 0
  | first :: rest =>
      let maxDev := fold_left (λ best d, if d >? best then d else best) rest first in
      let minDev := fold_left (λ best d, if d <? best then d else best) rest first in
      let stddev := fsqrt (sum_squares segMean segment / fcount segment) in
      if stddev >? 0 then (maxDev - minDev) / stddev else 0
  end.
(** The slope of the logarithms over the sizes. *)
Definition log_slope (what : string) (points : list (nat * F)) : result F :=
  match linRegress ((λ p : nat * F, flog (of_Z (Z.of_nat p.1))) <$> points) ((λ p : nat * F, flog p.2) <$> points) with
  | Ok (slope, _) => Ok slope
  | Err e => Err (what +:+ " regression: " +:+ e)%string
  end.
Definition zero_price_at (i : nat) : error := ("zero price at index " +:+ pretty i)%string.
(** The returns of a price series with at least two prices. *)
Definition on_price_returns (prices : list F) (k : list F → result F) : result F :=
  if (length prices <? 2)%nat then Err ("need at least 2 prices, got " +:+ pretty (length prices))%string
  else returns ← simple_returns zero_price_at 0 prices; k returns.

(** A segment without deviation adds nothing. *)
Definition mean_rescaled_range (returns : list F) (ss : nat) : F :=
  let segs := segments ss returns in
  fold_left (λ rsSum segment, rsSum + rescaled_range segment) segs 0 / fcount segs.
Definition hurstRS (prices : list F) : result F :=
  on_price_returns prices (λ returns,
    let sizes := sizes_of returns in
    if (length sizes <? 2)%nat then Err "insufficient data for R/S analysis: need at least 20 data points"%string
    else log_slope "R/S" ((λ ss, (ss, mean_rescaled_range returns ss)) <$> sizes)).

Definition step_numbers (ss : nat) : list F := (λ j, of_Z (Z.of_nat j)) <$> seq 0 ss.
Definition fluctuation (ss : nat) (segment : list F) : result F :=
  match linRegress (step_numbers ss) segment with
  | Err e => Err ("DFA trend fit: " +:+ e)%string
  | Ok (slope, intercept) =>
      Ok (fsqrt (fold_left (λ rmsSum d, rmsSum + d * d) (residuals slope intercept segment (step_numbers ss)) 0
                 / of_Z (Z.of_nat ss)))
  end.
Definition mean_fluctuation (profile : list F) (ss : nat) : result (nat * F) :=
  fluctuations ← mapM (fluctuation ss) (segments ss profile);
  Ok (ss, fsum fluctuations / fcount fluctuations).
Definition hurstDFA (prices : list F) : result F :=
  on_price_returns prices (λ returns,
    let profile := cumulative_deviations (mean_value returns) returns in
    let sizes := sizes_of profile in
    if (length sizes <? 2)%nat then Err "insufficient data for DFA: need at least 20 data points"%string
    else points ← mapM (mean_fluctuation profile) sizes; log_slope "DFA" points).

Definition HurstRSSignal : Metric := "HurstRS"%string.
Definition HurstRS u period : DataFrame F :=
  with_rows "HurstRS" 2 (u_Window u period [MetricClose]) (λ df,
    signal_row_fallible "HurstRS" df HurstRSSignal (λ a, hurstRS (Column df a MetricClose))).
Definition HurstDFASignal : Metric := "HurstDFA"%string.
Definition HurstDFA u period : DataFrame F :=
  with_rows "HurstDFA" 2 (u_Window u period [MetricClose]) (λ df,
    signal_row_fallible "HurstDFA" df HurstDFASignal (λ a, hurstDFA (Column df a MetricClose))).
End Indicators.
