(* ===== verification/FactorRegression.v ===== *)
(** * FactorRegression: what factors explain of the returns
    ([portfolio/factor_regression.go])

    Ordinary least squares of the excess returns on factor returns, and the
    forward selection that adds the factor with the lowest information
    criterion as long as it improves.  The QR solver and the matrix product of
    gonum are the class [GonumMat].  The factor frame has the factor asset as
    its one asset, as the documentation asks. *)
From Stdlib Require Import ZArith String.
From stdpp Require Import base list gmap strings.
From S2P Require Import Prelude Num GoTime Asset Period Frame Metrics FrameOps Resample Ledger Account Stats Universe Signal Indicators.

(** [mat.QR]'s [SolveVecTo] and [VecDense.MulVec] on a matrix given by rows. *)
Class GonumMat (F : Type) : Type := {
  qr_SolveVec : list (list F) → list F → result (list F);
  mat_MulVec : list (list F) → list F → list F;
}.

Definition ErrTooFewObservations : error := "fewer than 12 overlapping observations"%string.
Definition ErrNoFactors : error := "factor DataFrame contains no metrics"%string.

Section FactorRegression.
Context {F : Type} `{Num F} `{Gonum F} `{GonumMat F} `{NumSqrt F} `{NumLog F} `{GoInf F} {tz : TZDB} {go : GoMapOrder} `{GoSort}.
Local Open Scope num_scope.
Implicit Types (a : Account F) (factors : DataFrame F) (response : list F) (m : Metric).

Record FactorRegression : Type := mkRegression { Alpha : F; RSquared : F; AIC : F; Betas : gmap Metric F }.
Record StepwiseResult : Type := mkStepwise { Best : FactorRegression; Steps : list FactorRegression }.

(** The intercept column and the factors, row by row. *)
Definition design_matrix factors (nn : nat) : list (list F) :=
  (λ ii, 1 :: ((λ m, value_at (Column factors Factor m) ii) <$> df_metrics factors)) <$> seq 0 nn.

Definition betas_of (metrics : list Metric) (coefficients : list F) : gmap Metric F :=
  fold_left (λ betas p, <[p.1 := p.2]> betas) (zip metrics coefficients) ∅.

Definition residual_squares response (predicted : list F) : F :=
  fold_left (λ (ssRes : F) (p : F * F), let residual := p.1 - p.2 in ssRes + residual * residual) (zip response predicted) 0.

Definition olsRegress response factors : result FactorRegression :=
  let metrics := df_metrics factors in
  let nn := Nat.min (length response) (Len factors) in
  if (length metrics =? 0)%nat then Err ErrNoFactors
  else if (nn <? 12)%nat then Err ErrTooFewObservations
  else
    let kk := length metrics in
    let response := take nn response in
    let xMat := design_matrix factors nn in
    match qr_SolveVec xMat response with
    | Err e => Err ("OLS solve failed: " +:+ e)%string
    | Ok betaVec =>
        let yMean := fsum response / of_Z (Z.of_nat nn) in
        let ssTot := sum_squares yMean response in
        let ssRes := residual_squares response (mat_MulVec xMat betaVec) in
        let rSquared := if ssTot >? 0 then 1 - ssRes / ssTot else 0 in
        let aic := of_Z (Z.of_nat nn) * flog (ssRes / of_Z (Z.of_nat nn)) + of_Z 2 * of_Z (Z.of_nat (kk + 1)) in
        Ok (mkRegression (value_at betaVec 0) rSquared aic (betas_of metrics (drop 1 betaVec)))
    end.

(** ** Alignment *)

(** The last row with exactly that time. *)
Definition factor_row (times : list Time) (t : Time) : option nat :=
  last (keep (λ i, bool_decide (times !! i = Some t)) (seq 0 (length times))).

Record alignedFactors : Type := mkAligned {
  af_response : list F;
  af_rows : list (list F);
  af_times : list Time;
}.
(** The values of a factor on the aligned rows. *)
Definition factorCols (metrics : list Metric) (al : alignedFactors) m : list F :=
  match list_find (λ x, x = m) metrics with
  | Some (j, _) => (λ row, value_at row j) <$> af_rows al
  | None => []
  end.

(** The days on which the excess return and every factor have a value. *)
Definition aligned_rows factors (rows : list (F * Time)) : list (F * list F) :=
  omap (λ r : F * Time,
    fi ← factor_row (df_times factors) r.2;
    let values := (λ m, value_at (Column factors Factor m) fi) <$> df_metrics factors in
    if is_nan r.1 || existsb is_nan values then None else Some (r.1, values)) rows.

Definition alignWithFactors a factors : result alignedFactors :=
  match (account_ExcessReturns a ∅ None).1 with
  | None => Err "no excess returns available: portfolio may lack price history or risk-free data"%string
  | Some excessDF =>
      match df_metrics excessDF with
      | [] => Err index_panic
      | metric :: _ =>
          let rows := aligned_rows factors (zip (Column excessDF portfolioAsset metric) (df_times excessDF)) in
          Ok (mkAligned rows.*1 rows.*2
            ((λ i, Date (2000 + Z.of_nat i) 1 1 0 0 0 0 "UTC") <$> seq 0 (length rows)))
      end
  end.

(** The regression on some of the factors. *)
Definition regress_on (what : string) (all : list Metric) (al : alignedFactors) (trial : list Metric) :
    result (result FactorRegression) :=
  match NewDataFrame (af_times al) [Factor] trial Daily (factorCols all al <$> trial) with
  | Err e => Err ("building " +:+ what +:+ " DataFrame: " +:+ e)%string
  | Ok df => Ok (olsRegress (af_response al) df)
  end.

Definition FactorAnalysis a factors : result FactorRegression :=
  aligned ← alignWithFactors a factors;
  r ← regress_on "aligned factor" (df_metrics factors) aligned (df_metrics factors);
  r.

(** ** Forward selection *)
Record Candidate : Type := mkCandidate { cd_metric : Metric; cd_result : FactorRegression; cd_idx : nat }.
Definition candidate_aic (best : option Candidate) : F := match best with Some c => AIC (cd_result c) | None => inf end.

(** The remaining factor whose addition has the lowest criterion, the first of
    equals; a regression that fails is passed over. *)
Fixpoint best_candidate (regress : list Metric → result (result FactorRegression)) (selected : list Metric)
    (idx : nat) (remaining : list Metric) (best : option Candidate) : result (option Candidate) :=
  match remaining with
  | [] => Ok best
  | m :: rest =>
      result ← regress (selected ++ [m]);
      let best := match result with
                  | Err _ => best
                  | Ok r => if AIC r <? candidate_aic best then Some (mkCandidate m r idx) else best
                  end in
      best_candidate regress selected (S idx) rest best
  end.

(** Each round takes a factor away from the remaining ones; the fuel is their
    number. *)
Fixpoint stepwise (fuel : nat) (regress : list Metric → result (result FactorRegression)) (selected remaining : list Metric)
    (bestAIC : F) (steps : list FactorRegression) : result (list FactorRegression) :=
  match fuel with
  | O => Ok steps
  | S fuel =>
      if (length remaining =? 0)%nat then Ok steps
      else
        best ← best_candidate regress selected 0 remaining None;
        if candidate_aic best >=? bestAIC then Ok steps
        else
          match best with
          | None => Ok steps
          | Some c =>
              stepwise fuel regress (selected ++ [cd_metric c]) (delete (cd_idx c) remaining)
                (AIC (cd_result c)) (steps ++ [cd_result c])
          end
  end.

Definition StepwiseFactorAnalysis a factors : result StepwiseResult :=
  let allMetrics := df_metrics factors in
  if (length allMetrics =? 0)%nat then Err ErrNoFactors
  else
    aligned ← alignWithFactors a factors;
    steps ← stepwise (length allMetrics) (regress_on "trial" allMetrics aligned) []
              (sort_slice string_less allMetrics) inf [];
    match last steps with
    | None => Err "no factor improved the model"%string
    | Some best => Ok (mkStepwise best steps)
    end.
End FactorRegression.
Arguments FactorRegression : clear implicits.
Arguments StepwiseResult : clear implicits.
Arguments Candidate : clear implicits.
