(* ===== verification/Weighting.v ===== *)
(** * Weighting: choosing assets and turning the choice into allocations
    ([portfolio/top_bottom_n.go], [max_above_zero.go], [selected.go],
    [weighting_helpers.go], [equal_weight.go], [weighted_by_signal.go],
    [market_cap_weighted.go], [inverse_volatility.go], [risk_parity_fast.go],
    [risk_parity.go], [allocation.go])

    A selector marks assets in the [Selected] column of a frame; a weighting
    function reads that column and returns one allocation per row.  A selector
    changes its frame in place: [Select] returns the frame it leaves behind.
    The data source attached to a frame is an argument of the functions that
    fetch missing columns.  The context and the logging are left out: an
    insertion that fails is logged by the source and changes nothing. *)
From Stdlib Require Import ZArith.
From stdpp Require Import base list gmap strings.
From S2P Require Import Prelude Num GoTime Asset Period Frame FrameOps Resample Batch Index Universe.

Definition Selected : Metric := "selected"%string.
Definition MarketCap : Metric := "MarketCap"%string.

Definition riskParityMaxIter : nat := 1000.

Definition ErrMissingSelected (funcName : string) : error :=
  (funcName +:+ ": DataFrame missing selected column")%string.
Definition ErrNoDataSource (funcName dataDesc : string) : error :=
  (funcName +:+ ": DataFrame has no DataSource; cannot fetch " +:+ dataDesc)%string.

(** [fmt.Errorf("name: %w", err)] *)
Definition wrap_error {A} (name : string) (r : result A) : result A :=
  match r with Ok x => Ok x | Err e => Err (name +:+ ": " +:+ e)%string end.

Section Weighting.
Context {F : Type} `{Num F} `{TZDB}.
Local Open Scope num_scope.
Implicit Types (df : DataFrame F) (a : Asset) (m : Metric) (t : Time).

Abbreviation PortfolioPlan := (list (Allocation F)).

(** ** Selectors *)

(** The [Selected] columns under construction, by CompositeFigi. *)
Abbreviation selection := (gmap string (list F)).

Definition zero_selection (assets : list Asset) (n : nat) : selection :=
  fold_left (λ sel a, <[CompositeFigi a := replicate n 0]> sel) assets ∅.

(** [selCols[figi][timeIdx] = 1.0] *)
Definition mark (i : nat) (figi : string) (sel : selection) : selection :=
  alter (λ col, <[i := 1]> col) figi sel.

(** [df.Insert] whose error is only logged. *)
Definition try_Insert df a m (values : list F) : DataFrame F :=
  match Insert df a m values with Ok r => r | Err _ => df end.

Definition write_selected (sel : selection) (assets : list Asset) df : DataFrame F :=
  fold_left (λ df a, try_Insert df a Selected (default [] (sel !! CompositeFigi a))) assets df.

(** *** [topBottomN] *)
Record topBottomN : Type := mkTopBottomN { tb_count : Z; tb_metric : Metric; tb_ascending : bool }.

Record assetValue : Type := mkAssetValue { av_asset : Asset; av_value : F }.

Context `{GoSort}.

Definition rank_before (ascending : bool) (x y : assetValue) : bool :=
  if ascending then av_value x <? av_value y else av_value x >? av_value y.

(** The assets with a value at the row, best first. *)
Definition ranked (tb : topBottomN) df t : list assetValue :=
  sort_slice (rank_before (tb_ascending tb))
    (omap (λ a, let v := ValueAt df a (tb_metric tb) t in
                if is_nan v then None else Some (mkAssetValue a v)) (df_assets df)).

(** The marks of one row: [limit] is the count, at most the assets ranked. *)
Definition mark_top (tb : topBottomN) df (sel : selection) (it : nat * Time) : selection :=
  let r := ranked tb df it.2 in
  let limit := if (tb_count tb >? Z.of_nat (length r))%Z then length r else Z.to_nat (tb_count tb) in
  fold_left (λ sel x, mark it.1 (CompositeFigi (av_asset x)) sel) (take limit r) sel.

Definition topBottomN_Select (tb : topBottomN) df : DataFrame F :=
  let times := df_times df in
  let assets := df_assets df in
  let sel := fold_left (mark_top tb df) (zip (seq 0 (length times)) times)
               (zero_selection assets (length times)) in
  write_selected sel assets df.

(** [None]: the panic on a count below 1. *)
Definition TopN (count : Z) m : option topBottomN :=
  if (count <? 1)%Z then None else Some (mkTopBottomN count m false).
Definition BottomN (count : Z) m : option topBottomN :=
  if (count <? 1)%Z then None else Some (mkTopBottomN count m true).

(** *** [maxAboveZero] *)
Record maxAboveZero : Type := mkMaxAboveZero { mz_metric : Metric; mz_fallback : option (DataFrame F) }.
Definition MaxAboveZero m (fallback : option (DataFrame F)) : maxAboveZero := mkMaxAboveZero m fallback.

(** The value to beat starts at zero and the winner at the empty FIGI. *)
Definition best_above_zero (mz : maxAboveZero) df t : F * string :=
  fold_left (λ best a,
    let v := ValueAt df a (mz_metric mz) t in
    if v >? best.1 then (v, CompositeFigi a) else best) (df_assets df) (0, ""%string).

(** State of the row loop: the selection of the frame's assets, the selection
    of the fallback's, and whether the fallback is needed. *)
Definition max_row (mz : maxAboveZero) df (fbAssets : list Asset)
    (st : selection * selection * bool) (it : nat * Time) : selection * selection * bool :=
  let '(sel, fb, needs) := st in
  let bestFigi := (best_above_zero mz df it.2).2 in
  if negb (bool_decide (bestFigi = ""%string)) then (mark it.1 bestFigi sel, fb, needs)
  else match mz_fallback mz with
       | None => st
       | Some _ => (sel, fold_left (λ fb a, mark it.1 (CompositeFigi a) fb) fbAssets fb, true)
       end.

(** The fallback's columns, inserted asset by asset and metric by metric. *)
Definition insert_fallback (fallback : DataFrame F) df : DataFrame F :=
  fold_left (λ df a,
    fold_left (λ df m, try_Insert df a m (Column fallback a m)) (df_metrics fallback) df)
    (df_assets fallback) df.

(** An asset of both frames is selected when either selection has it. *)
Definition merge_selection (fb : selection) (sel : selection) a : selection :=
  alter (λ col, zip_with (λ x v, if v >? x then v else x) col (default [] (fb !! CompositeFigi a)))
    (CompositeFigi a) sel.

Definition maxAboveZero_Select (mz : maxAboveZero) df : DataFrame F :=
  let times := df_times df in
  let assets := df_assets df in
  let n := length times in
  let fbAssets := match mz_fallback mz with Some fb => df_assets fb | None => [] end in
  let '(sel, fb, needs) :=
    fold_left (max_row mz df fbAssets) (zip (seq 0 n) times)
      (zero_selection assets n, zero_selection fbAssets n, false) in
  let df := match mz_fallback mz with
            | Some fallback => if needs : bool then insert_fallback fallback df else df
            | None => df
            end in
  let sel := fold_left (merge_selection fb) fbAssets sel in
  let df := write_selected sel assets df in
  write_selected fb (keep (λ a, match sel !! CompositeFigi a with Some _ => false | None => true end) fbAssets) df.

(** ** Helpers *)
Definition HasSelectedColumn df : bool := bool_decide (Selected ∈ df_metrics df).

Definition CollectSelected df t : list Asset :=
  keep (λ a, let sel := ValueAt df a Selected t in (sel >? 0) && negb (is_nan sel)) (df_assets df).

Definition equalWeightMembers (chosen : list Asset) : gmap Asset F :=
  fold_left (λ members a, <[a := 1 / of_Z (Z.of_nat (length chosen))]> members) chosen ∅.

Definition defaultLookback (lookback : Period) : Period :=
  if (N lookback =? 0)%Z && match Unit lookback with UnitDay => true | _ => false end && (length (tods lookback) =? 0)%nat
  then Days 60 else lookback.

(** The weights [values[i] / sum] that are positive. *)
Definition weigh (chosen : list Asset) (values : list F) (sum : F) : gmap Asset F :=
  fold_left (λ members av,
    let w := av.2 / sum in if w >? 0 then <[av.1 := w]> members else members)
    (zip chosen values) ∅.

(** A signal counts when it is a positive number. *)
Definition positive_or_zero (v : F) : F := if is_nan v || (v <=? 0) then 0 else v.

(** The sum runs over the positive values only. *)
Definition positive_sum (vs : list F) : F :=
  fold_left (λ sum v, if is_nan v || (v <=? 0) then sum else sum + v) vs 0.

(** One allocation per row. *)
Definition plan_rows df (members : Time → gmap Asset F) : PortfolioPlan :=
  (λ t, mkAlloc t (members t) "") <$> df_times df.

(** ** Equal weight *)
Definition EqualWeight df : result PortfolioPlan :=
  if HasSelectedColumn df then
    Ok (plan_rows df (λ t, equalWeightMembers (keep (λ a, ValueAt df a Selected t >? 0) (df_assets df))))
  else Err (ErrMissingSelected "EqualWeight").

(** ** Weights proportional to a signal *)

(** [sel <= 0 || IsNaN(sel)] skips the asset. *)
Definition signal_chosen df t : list Asset :=
  keep (λ a, let sel := ValueAt df a Selected t in negb ((sel <=? 0) || is_nan sel)) (df_assets df).

Definition weigh_values (chosen : list Asset) (vs : list F) : gmap Asset F :=
  let sum := positive_sum vs in
  if (sum =? 0) && negb (length chosen =? 0)%nat then equalWeightMembers chosen
  else weigh chosen (positive_or_zero <$> vs) sum.

Definition WeightedBySignal df m : result PortfolioPlan :=
  if HasSelectedColumn df then
    Ok (plan_rows df (λ t,
      let chosen := signal_chosen df t in
      weigh_values chosen ((λ a, ValueAt df a m t) <$> chosen)))
  else Err (ErrMissingSelected "WeightedBySignal").

(** ** Market capitalisation *)
Definition ensureMarketCap (source : option (DataSource F)) df (assets : list Asset) : result (DataFrame F) :=
  if bool_decide (MarketCap ∈ df_metrics df) then Ok df
  else match source with
       | None => Err (ErrNoDataSource "MarketCapWeighted" "MarketCap")
       | Some ds => FetchAt ds assets (source_CurrentDate ds) [MarketCap]
       end.

Definition MarketCapWeighted (source : option (DataSource F)) df : result PortfolioPlan :=
  if HasSelectedColumn df then
    match wrap_error "MarketCapWeighted" (ensureMarketCap source df (df_assets df)) with
    | Err e => Err e
    | Ok mcapDF =>
        Ok (plan_rows df (λ t,
          let chosen := CollectSelected df t in
          weigh_values chosen ((λ a, ValueAt mcapDF a MarketCap t) <$> chosen)))
    end
  else Err (ErrMissingSelected "MarketCapWeighted").

Definition ensureMetric (source : option (DataSource F)) df (assets : list Asset) (lookback : Period) m :
    result (DataFrame F) :=
  if bool_decide (m ∈ df_metrics df) then Ok df
  else match source with
       | None => Err (ErrNoDataSource "ensureMetric" m)
       | Some ds => Fetch ds assets lookback [m]
       end.

(** The part the three risk-based weightings share: at most one asset gets
    equal weight, more are weighted on their trailing returns. *)
Definition trailing_plan (name : string) (source : option (DataSource F)) df (lookback : Period)
    (weights : DataFrame F → list Asset → gmap Asset F) : result PortfolioPlan :=
  if HasSelectedColumn df then
    let lookback := defaultLookback lookback in
    match wrap_error name (ensureMetric source df (df_assets df) lookback AdjClose) with
    | Err e => Err e
    | Ok priceDF =>
        Ok (plan_rows df (λ t,
          let chosen := CollectSelected df t in
          if (length chosen <=? 1)%nat then equalWeightMembers chosen
          else weights (Pct (Between priceDF (period_Before lookback t) t) 1) chosen))
    end
  else Err (ErrMissingSelected name).

Context `{NumSqrt F}.

(** The sample deviation of the values that are numbers. *)
Definition nanSafeStd df a m : F :=
  let values := keep (λ v, negb (is_nan v)) ((λ t, ValueAt df a m t) <$> df_times df) in
  if (length values <? 2)%nat then 0
  else
    let mean := fsum values / of_Z (Z.of_nat (length values)) in
    let sumSq := fsum ((λ v, (v - mean) * (v - mean)) <$> values) in
    fsqrt (sumSq / of_Z (Z.of_nat (length values) - 1)).

(** ** Inverse volatility *)
Definition inverse_volatility_weights (returns : DataFrame F) (chosen : list Asset) : gmap Asset F :=
  let vols := (λ a, nanSafeStd returns a AdjClose) <$> chosen in
  let invVols := (λ vol, if vol <=? 0 then 0 else 1 / vol) <$> vols in
  let sumInvVol := fold_left (λ sum vol, if vol <=? 0 then sum else sum + 1 / vol) vols 0 in
  if sumInvVol =? 0 then equalWeightMembers chosen else weigh chosen invVols sumInvVol.

Definition InverseVolatility (source : option (DataSource F)) df (lookback : Period) : result PortfolioPlan :=
  trailing_plan "InverseVolatility" source df lookback inverse_volatility_weights.

(** ** Covariance *)
Definition sampleCovariance (seriesA seriesB : list F) : F :=
  let numObs := length seriesA in
  if (numObs <? 2)%nat then 0
  else
    let n := of_Z (Z.of_nat numObs) in
    let meanA := fsum seriesA / n in
    let meanB := fsum (take numObs seriesB) / n in
    fsum (zip_with (λ x y, (x - meanA) * (y - meanB)) seriesA seriesB) / of_Z (Z.of_nat numObs - 1).

(** The flat matrix, row by row; [None] with fewer than two rows of returns. *)
Definition computeCovMatrix (returns : DataFrame F) (chosen : list Asset) : option (list F) :=
  if (length (df_times returns) <? 2)%nat then None
  else
    let series := (λ a, (λ t, let v := ValueAt returns a AdjClose t in if is_nan v then 0 else v)
                          <$> df_times returns) <$> chosen in
    Some (flat_map (λ si, (λ sj, sampleCovariance si sj) <$> series) series).

(** [sum_j M[i*size+j] * v[j]] *)
Definition mat_row (matrix vec : list F) (size i : nat) : F :=
  fsum ((λ j, nth (i * size + j)%nat matrix fnan * nth j vec fnan) <$> seq 0 size).
Definition matVecMul (matrix vec : list F) (size : nat) : list F :=
  (λ i, mat_row matrix vec size i) <$> seq 0 size.
Definition quadForm (matrix vec : list F) (size : nat) : F :=
  fold_left (λ r i, fold_left (λ r j,
    r + nth i vec fnan * nth (i * size + j)%nat matrix fnan * nth j vec fnan) (seq 0 size) r)
    (seq 0 size) 0.

(** ** Risk parity in one pass *)
Definition riskParityFastWeights (returns : DataFrame F) (chosen : list Asset) : option (gmap Asset F) :=
  let vols := (λ a, let vol := nanSafeStd returns a AdjClose in if vol <=? 0 then 0 else vol) <$> chosen in
  if forallb (λ a, nanSafeStd returns a AdjClose <=? 0) chosen then None
  else
    let weights := (λ vol, if vol >? 0 then 1 / vol else 0) <$> vols in
    match computeCovMatrix returns chosen with
    | None => None
    | Some covMatrix =>
        let marginalRisk := matVecMul covMatrix weights (length chosen) in
        let weights := zip_with (λ w r, if r >? 0 then w / r else 0) weights marginalRisk in
        let sumWeights := fsum weights in
        if sumWeights =? 0 then None else Some (weigh chosen weights sumWeights)
    end.

Definition RiskParityFast (source : option (DataSource F)) df (lookback : Period) : result PortfolioPlan :=
  trailing_plan "RiskParityFast" source df lookback (λ returns chosen,
    default (equalWeightMembers chosen) (riskParityFastWeights returns chosen)).

(** ** Risk parity by iteration *)
Definition riskParityTolerance : F := lit 1 10000000000.

(** [math.Pow(ratio, riskParityStepSize)]: the step is 0.5, which [math.Pow]
    computes as [math.Sqrt]. *)
Definition pow_step (ratio : F) : F := fsqrt ratio.

(** The largest distance of a risk contribution from the target. *)
Definition max_error (targetRC : F) (riskContrib : list F) : F :=
  fold_left (λ maxErr rc, let errVal := fabs (rc - targetRC) in
                          if errVal >? maxErr then errVal else maxErr) riskContrib 0.

(** The weight after the gradient step, before normalisation. *)
Definition step_weight (targetRC w rc : F) : F :=
  let nw := if rc >? 0 then w * pow_step (targetRC / rc) else w in
  if nw <? 0 then 0 else nw.

Inductive parity_step : Type :=
  | Degenerate
  | Converged
  | Improved (weights best : list F) (bestError : F).

Definition parity_iterate (covMatrix : list F) (n : nat) (weights best : list F) (bestError : F) : parity_step :=
  let targetRC := 1 / of_Z (Z.of_nat n) in
  let portVar := quadForm covMatrix weights n in
  if portVar <=? 0 then Degenerate
  else
    let marginal := matVecMul covMatrix weights n in
    let riskContrib := zip_with (λ w r, w * r / portVar) weights marginal in
    let maxErr := max_error targetRC riskContrib in
    let '(best, bestError) := if maxErr <? bestError then (weights, maxErr) else (best, bestError) in
    if maxErr <? riskParityTolerance then Converged
    else
      let newWeights := zip_with (step_weight targetRC) weights riskContrib in
      let sumNew := fsum newWeights in
      if sumNew <=? 0 then Degenerate
      else Improved ((λ w, w / sumNew) <$> newWeights) best bestError.

(** The loop: a weight vector unless the matrix degenerates, and whether it
    converged. *)
Fixpoint parity_loop (iters : nat) (covMatrix : list F) (n : nat) (weights best : list F) (bestError : F) :
    option (list F) * bool :=
  match iters with
  | O => (Some best, false)
  | S iters =>
      match parity_iterate covMatrix n weights best bestError with
      | Degenerate => (None, false)
      | Converged => (Some weights, true)
      | Improved weights best bestError => parity_loop iters covMatrix n weights best bestError
      end
  end.

Definition solveRiskParity (covMatrix : list F) (numAssets : nat) : option (list F) * bool :=
  let weights := replicate numAssets (1 / of_Z (Z.of_nat numAssets)) in
  parity_loop riskParityMaxIter covMatrix numAssets weights weights pos_inf.

(** The positive weights of the solution. *)
Definition positive_members (chosen : list Asset) (weights : list F) : gmap Asset F :=
  fold_left (λ members aw, if aw.2 >? 0 then <[aw.1 := aw.2]> members else members) (zip chosen weights) ∅.

Definition risk_parity_weights (returns : DataFrame F) (chosen : list Asset) : gmap Asset F :=
  match computeCovMatrix returns chosen with
  | None => equalWeightMembers chosen
  | Some covMatrix =>
      match (solveRiskParity covMatrix (length chosen)).1 with
      | None => equalWeightMembers chosen
      | Some weights =>
          let members := positive_members chosen weights in
          if (size members =? 0)%nat then equalWeightMembers chosen else members
      end
  end.

Definition RiskParity (source : option (DataSource F)) df (lookback : Period) : result PortfolioPlan :=
  trailing_plan "RiskParity" source df lookback risk_parity_weights.
End Weighting.
