(* ===== verification/Study.v ===== *)
(** * Study: train/test splits and parameter sweeps ([study/split.go],
    [study/sweep.go], [study/metric.go], [study/search.go])

    A study cuts a date range into train and test windows and runs a backtest
    per parameter combination.  Instants are nanoseconds; durations are int64
    and wrap; the two search loops that are not structural take fuel. *)
From Stdlib Require Import ZArith Lia.
From stdpp Require Import base list gmap strings pretty.
From S2P Require Import Prelude Num GoTime.
Local Open Scope Z_scope.

(** ** Splits *)
Record DateRange : Type := mkRange { Start : Time; End_ : Time }.

Record Split : Type := mkSplit {
  sp_Name : string;
  sp_FullRange : DateRange;
  sp_Train : DateRange;
  sp_Test : DateRange;
  sp_Exclude : list DateRange;
}.

Record Scenario : Type := mkScenario {
  sc_Name : string;
  sc_Description : string;
  sc_Start : Time;
  sc_End : Time;
}.

Definition overlaps (aa bb : DateRange) : bool :=
  Before (Start aa) (End_ bb) && Before (Start bb) (End_ aa).

(** One exclusion: the segments so far and the cursor. *)
Definition subtract_step (window : DateRange) (acc : list DateRange * Time) (ex : DateRange) :
    list DateRange * Time :=
  let '(result, cursor) := acc in
  let exStart := if Before (Start ex) (Start window) then Start window else Start ex in
  let exEnd := if After (End_ ex) (End_ window) then End_ window else End_ ex in
  let result := if Before cursor exStart then result ++ [mkRange cursor exStart] else result in
  (result, if After exEnd cursor then exEnd else cursor).

Definition SubtractRanges `{GoSort} (window : DateRange) (exclude : list DateRange) : list DateRange :=
  match exclude with
  | [] => [window]
  | _ =>
      let sorted := sort_slice (λ a b, Before (Start a) (Start b)) exclude in
      let '(result, cursor) := fold_left (subtract_step window) sorted ([], Start window) in
      if Before cursor (End_ window) then result ++ [mkRange cursor (End_ window)] else result
  end.

Definition TrainTest (start cutoff end_ : Time) : result (list Split) :=
  if negb (Before start end_) then Err "train/test split: start must be before end"
  else if Before cutoff start || After cutoff end_ then Err "train/test split: cutoff is outside"
  else Ok [mkSplit "train/test" (mkRange start end_) (mkRange start cutoff) (mkRange cutoff end_) []].

Definition fold_name (ii folds : Z) : string := ("fold " +:+ pretty (ii + 1) +:+ "/" +:+ pretty folds)%string.

Definition one_fold (start end_ : Time) (foldDur folds ii : Z) : Split :=
  let foldStart := AddDur start (wrap64 (ii * foldDur)) in
  let foldEnd := if ii =? folds - 1 then end_ else AddDur start (wrap64 ((ii + 1) * foldDur)) in
  let testRange := mkRange foldStart foldEnd in
  mkSplit (fold_name ii folds) (mkRange start end_) (mkRange start end_) testRange [testRange].

Definition KFold (start end_ : Time) (folds : Z) : result (list Split) :=
  if folds <? 2 then Err ("k-fold: folds must be at least 2, got " +:+ pretty folds)%string
  else
    let foldDur := Z.quot (Sub end_ start) folds in
    Ok (one_fold start end_ foldDur folds <$> (Z.of_nat <$> seq 0 (Z.to_nat folds))).

Definition walk_split (start : Time) (minTrain testLen step : Z) (idx : nat) : Split :=
  let trainEnd := AddDur start (wrap64 (minTrain + wrap64 (Z.of_nat idx * step))) in
  let testEnd := AddDur trainEnd testLen in
  mkSplit ("walk-forward " +:+ pretty (idx + 1)%nat)%string (mkRange start testEnd)
    (mkRange start trainEnd) (mkRange trainEnd testEnd) [].

(** The loop of [WalkForward] from index [idx]; [None] when it is still
    running after [fuel] rounds. *)
Fixpoint walk_loop (fuel : nat) (start end_ : Time) (minTrain testLen step : Z) (idx : nat) :
    option (list Split) :=
  match fuel with
  | O => None
  | S fuel =>
      let sp := walk_split start minTrain testLen step idx in
      if After (End_ (sp_Test sp)) end_ then Some []
      else cons sp <$> walk_loop fuel start end_ minTrain testLen step (S idx)
  end.

Definition WalkForward (fuel : nat) (start end_ : Time) (minTrain testLen step : Z) :
    result (option (list Split)) :=
  if (minTrain <=? 0) || (testLen <=? 0) || (step <=? 0) then
    Err "walk-forward: minTrain, testLen, and step must all be positive"
  else if wrap64 (minTrain + testLen) >? Sub end_ start then
    Err "walk-forward: minTrain + testLen exceeds total range"
  else Ok (walk_loop fuel start end_ minTrain testLen step 0).

(** *** Combinations of scenarios *)

(** The largest index below [i] that is not at its final value. *)
Fixpoint movable (indices : list nat) (nn i : nat) : option nat :=
  match i with
  | O => None
  | S i' =>
      if decide (indices !! i' = Some (nn - length indices + i')%nat) then movable indices nn i' else Some i'
  end.

(** [for jj := ii+1; jj < kk; jj++ { indices[jj] = indices[jj-1] + 1 }] *)
Definition reset_after (ii : nat) (indices : list nat) : list nat :=
  fold_left (λ ind jj, <[jj := S (default 0%nat (ind !! (jj - 1)%nat))]> ind)
    (seq (S ii) (length indices - S ii)) indices.

Definition nextCombination (indices : list nat) (nn : nat) : option (list nat) :=
  match movable indices nn (length indices) with
  | None => None
  | Some ii => Some (reset_after ii (alter S ii indices))
  end.

Definition earliest (t u : Time) : Time := if Before u t then u else t.
Definition latest (t u : Time) : Time := if After u t then u else t.
Definition sc_range (sc : Scenario) : DateRange := mkRange (sc_Start sc) (sc_End sc).

(** From the earliest start to the latest end. *)
Definition span (first : Scenario) (rest : list Scenario) : DateRange :=
  mkRange (fold_left (λ t sc, earliest t (sc_Start sc)) rest (sc_Start first))
          (fold_left (λ t sc, latest t (sc_End sc)) rest (sc_End first)).

Definition span_of (scs : list Scenario) : DateRange :=
  match scs with [] => mkRange zero_time zero_time | sc :: rest => span sc rest end.

Definition leave_out_split (scenarios : list Scenario) (fullRange : DateRange) (indices : list nat) : Split :=
  let heldOut := omap (λ i, scenarios !! i) indices in
  let heldRanges := sc_range <$> heldOut in
  let others := keep (λ p : nat * Scenario, negb (bool_decide (p.1 ∈ indices)))
                  (zip (seq 0 (length scenarios)) scenarios) in
  let exclude := keep (λ r, existsb (overlaps r) heldRanges) ((λ p : nat * Scenario, sc_range p.2) <$> others) in
  mkSplit ("leave-out: " +:+ String.concat ", " (sc_Name <$> heldOut))%string
    fullRange fullRange (span_of heldOut) (heldRanges ++ exclude).

(** The index lists visited; [None] when fuel runs out. *)
Fixpoint combination_loop (fuel : nat) (indices : list nat) (nn : nat) : option (list (list nat)) :=
  match fuel with
  | O => None
  | S fuel =>
      match nextCombination indices nn with
      | None => Some [indices]
      | Some indices' => cons indices <$> combination_loop fuel indices' nn
      end
  end.

Definition ScenarioLeaveNOut (fuel : nat) (scenarios : list Scenario) (holdOut : Z) :
    result (option (list Split)) :=
  if holdOut <? 1 then
    Err ("scenario leave-n-out: holdOut must be at least 1, got " +:+ pretty holdOut)%string
  else if holdOut >? Z.of_nat (length scenarios) then
    Err ("scenario leave-n-out: holdOut (" +:+ pretty holdOut +:+ ") exceeds number of scenarios ("
         +:+ pretty (length scenarios) +:+ ")")%string
  else
    let fullRange := span_of scenarios in
    Ok (option_map (map (leave_out_split scenarios fullRange))
          (combination_loop fuel (seq 0 (Z.to_nat holdOut)) (length scenarios))).

(** ** Scores over the remaining windows *)
Section Score.
Context {F : Type} `{Num F} `{GoSort}.
Local Open Scope num_scope.
Context (WindowedScore : DateRange → F).

(** [Duration.Seconds] *)
Definition Seconds (d : Z) : F :=
  of_Z (Z.quot d ns_per_sec) + of_Z (Z.rem d ns_per_sec) / of_Z ns_per_sec.

Definition score_step (acc : F * F) (seg : DateRange) : F * F :=
  let '(weightedSum, totalWeight) := acc in
  let score := WindowedScore seg in
  if is_nan score then acc
  else
    let weight := Seconds (Sub (End_ seg) (Start seg)) in
    (weightedSum + score * weight, totalWeight + weight).

Definition WindowedScoreExcluding (window : DateRange) (exclude : list DateRange) : F :=
  match exclude with
  | [] => WindowedScore window
  | _ =>
      match SubtractRanges window exclude with
      | [] => fnan
      | [seg] => WindowedScore seg
      | segments =>
          let '(weightedSum, totalWeight) := fold_left score_step segments (0, 0) in
          if totalWeight =? 0 then fnan else weightedSum / totalWeight
      end
  end.
End Score.

(** ** Parameter sweeps *)
Record ParamSweep : Type := mkSweep {
  ps_field : string;
  ps_values : list string;
  ps_isPreset : bool;
  ps_min : string;
  ps_max : string;
}.

(** The operations [SweepRange] uses of its type parameter; [T(ii)] converts
    the loop counter. *)
Class Numeric (T F : Type) : Type := {
  n_add : T → T → T;
  n_mul : T → T → T;
  n_of_int : Z → T;
  n_le : T → T → bool;
  n_gt : T → T → bool;
  n_float64 : T → F;
  n_format : T → string;
}.

(** A signed integer type of [w] bits. *)
Definition wrap_signed (w z : Z) : Z := (z + 2 ^ (w - 1)) mod 2 ^ w - 2 ^ (w - 1).
Definition signed_int {F} `{Num F} (w : Z) : Numeric Z F := {|
  n_add := λ a b, wrap_signed w (a + b);
  n_mul := λ a b, wrap_signed w (a * b);
  n_of_int := wrap_signed w;
  n_le := Z.leb;
  n_gt := Z.gtb;
  n_float64 := of_Z;
  n_format := pretty;
|}.

Section Sweeps.
Context {T F : Type} `{Num F} `{Numeric T F}.
Local Open Scope num_scope.

(** The loop from counter [ii]; [None] when it is still running. *)
Fixpoint sweep_loop (fuel : nat) (min max step : T) (ii : Z) : option (list string) :=
  match fuel with
  | O => None
  | S fuel =>
      let val := n_add min (n_mul (n_of_int ii) step) in
      if n_gt val max then
        Some (if n_float64 val - n_float64 max <? n_float64 step * lit 1 1000000000
              then [n_format max] else [])
      else cons (n_format val) <$> sweep_loop fuel min max step (ii + 1)
  end.

Definition SweepRange (fuel : nat) (field : string) (min max step : T) : option ParamSweep :=
  let sweep values := mkSweep field values false (n_format min) (n_format max) in
  if n_le step (n_of_int 0) then Some (sweep (if n_le min max then [n_format min] else []))
  else sweep <$> sweep_loop fuel min max step 0.
End Sweeps.

(** [Duration.String] is a parameter. *)
Fixpoint duration_loop (fmt : Z → string) (fuel : nat) (val max step : Z) : option (list string) :=
  match fuel with
  | O => None
  | S fuel =>
      if val <=? max then cons (fmt val) <$> duration_loop fmt fuel (wrap64 (val + step)) max step
      else Some []
  end.

Definition SweepDuration (fmt : Z → string) (fuel : nat) (field : string) (min max step : Z) :
    option ParamSweep :=
  let sweep values := mkSweep field values false (fmt min) (fmt max) in
  if step <=? 0 then Some (sweep (if min <=? max then [fmt min] else []))
  else sweep <$> duration_loop fmt fuel min max step.

Definition SweepValues (field : string) (values : list string) : ParamSweep :=
  mkSweep field values false "" "".
Definition SweepPresets (presets : list string) : ParamSweep := mkSweep "" presets true "" "".

(** *** The run matrix *)
Record RunConfig (F : Type) : Type := mkRun {
  rc_Name : string;
  rc_Start : Time;
  rc_End : Time;
  rc_Deposit : F;
  rc_Preset : string;
  rc_Params : gmap string string;
  rc_Metadata : gmap string string;
}.
Arguments mkRun {F}.
Arguments rc_Name {F}.
Arguments rc_Start {F}.
Arguments rc_End {F}.
Arguments rc_Deposit {F}.
Arguments rc_Preset {F}.
Arguments rc_Params {F}.
Arguments rc_Metadata {F}.

Section Matrix.
Context {F : Type}.
Implicit Types (cfg : RunConfig F) (sweep : ParamSweep).

Definition appendName (existing suffix : string) : string :=
  if decide (existing = EmptyString) then suffix else (existing +:+ " / " +:+ suffix)%string.

Definition apply_value sweep (val : string) cfg : RunConfig F :=
  if ps_isPreset sweep then
    mkRun (appendName (rc_Name cfg) val) (rc_Start cfg) (rc_End cfg) (rc_Deposit cfg) val
      (rc_Params cfg) (rc_Metadata cfg)
  else
    mkRun (appendName (rc_Name cfg) (ps_field sweep +:+ "=" +:+ val)%string) (rc_Start cfg) (rc_End cfg)
      (rc_Deposit cfg) (rc_Preset cfg) (<[ps_field sweep := val]> (rc_Params cfg)) (rc_Metadata cfg).

Definition expand (configs : list (RunConfig F)) sweep : list (RunConfig F) :=
  configs ≫= λ cfg, (λ val, apply_value sweep val cfg) <$> ps_values sweep.

Definition CrossProduct (base : list (RunConfig F)) (sweeps : list ParamSweep) : list (RunConfig F) :=
  match sweeps with
  | [] => base
  | _ => fold_left expand sweeps base
  end.

(** [gridSearch.Next]: everything on the first call, nothing afterwards. *)
Record gridSearch : Type := mkGrid { gs_sweeps : list ParamSweep; gs_called : bool }.
Definition NewGrid (sweeps : list ParamSweep) : gridSearch := mkGrid sweeps false.
Definition gridSearch_Next (empty : RunConfig F) (gs : gridSearch) : gridSearch * list (RunConfig F) * bool :=
  if gs_called gs then (gs, [], true)
  else (mkGrid (gs_sweeps gs) true, CrossProduct [empty] (gs_sweeps gs), true).
End Matrix.
