(* ===== verification/Search.v ===== *)
(** * Search: parameter search ([study/gp.go], [study/search.go],
    [study/bayesian.go], [study/runner.go])

    The Gaussian process that models the scores, the strategies that propose
    parameter combinations, and the loop that runs, scores and asks again.  The
    transcendental functions, the conversions of [strconv] and [fmt] and the
    generator are classes; a run of the engine is an argument, and so is the
    score of a portfolio over a window.  A run-time panic is an error. *)
From Stdlib Require Import ZArith.
From stdpp Require Import base list gmap strings pretty.
From S2P Require Import Prelude Num GoTime SimBroker Indicators Resampling Study.

(** [math.Exp], [math.Erf], [math.Pi] and [math.Sqrt2] *)
Class NumNormal (F : Type) : Type := { fexp : F → F; ferf : F → F; fpi : F; fsqrt_2 : F }.
(** [strconv.ParseFloat(s, 64)], nothing on an error, and [%g]. *)
Class GoFloatText (F : Type) : Type := { ParseFloat : string → option F; Sprintf_g : F → string }.
(** [rand.Float64] *)
Class GoRandFloat (R F : Type) : Type := { Float64 : R → F * R }.
Definition index_panic : error := "runtime error: index out of range".

(** ** The Gaussian process *)
Section GaussianProcess.
Context {F : Type} `{Num F} `{NumSqrt F} `{NumNormal F} `{GoFloatText F}.
Local Open Scope num_scope.
Implicit Types (x y b row : list F) (m lower : list (list F)).

(** [v[i]] and [m[i][j]], where they exist. *)
Definition entry (v : list F) (i : nat) : F := default 0 (v !! i).
Definition row_of m (i : nat) : list F := default [] (m !! i).
Definition sum_of (indices : list nat) (f : nat → F) : F := fold_left (λ sum k, sum + f k) indices 0.

(** One row of the factor, from the left; the entries to the right stay zero. *)
Fixpoint cholesky_row lower arow (ii : nat) (todo : list nat) row : result (list F) :=
  match todo with
  | [] => Ok row
  | jj :: todo =>
      if (jj =? ii)%nat then
        let val := entry arow ii - sum_of (seq 0 jj) (λ kk, entry row kk * entry row kk) in
        if val <=? 0 then
          Err ("matrix is not positive definite at index " +:+ pretty ii +:+ " (value=" +:+ Sprintf_g val +:+ ")")%string
        else cholesky_row lower arow ii todo (row ++ [fsqrt val])
      else
        let other := row_of lower jj in
        let sum := sum_of (seq 0 jj) (λ kk, entry row kk * entry other kk) in
        cholesky_row lower arow ii todo (row ++ [(entry arow jj - sum) / entry other jj])
  end.
Definition cholesky_rows m (nn : nat) (indices : list nat) lower : result (list (list F)) :=
  fold_left (λ acc ii,
    match acc with
    | Err e => Err e
    | Ok lower =>
        match cholesky_row lower (row_of m ii) ii (seq 0 (S ii)) [] with
        | Err e => Err e
        | Ok row => Ok (lower ++ [row ++ replicate (nn - S ii) 0])
        end
    end) indices (Ok lower).
Definition choleskyDecompose m : result (list (list F)) := cholesky_rows m (length m) (seq 0 (length m)) [].

Definition forwardSolve lower b : list F :=
  fold_left (λ xx ii,
    xx ++ [(entry b ii - sum_of (seq 0 ii) (λ jj, entry (row_of lower ii) jj * entry xx jj)) / entry (row_of lower ii) ii])
    (seq 0 (length b)) [].
(** From the last unknown back; [xx] holds those from [ii+1] on. *)
Definition backSolve lower y : list F :=
  fold_right (λ ii xx,
    (entry y ii - sum_of (seq (S ii) (length y - S ii)) (λ jj, entry (row_of lower jj) ii * entry xx (jj - S ii)))
      / entry (row_of lower ii) ii :: xx)
    [] (seq 0 (length y)).
Definition choleskySolve lower b : list F := backSolve lower (forwardSolve lower b).

Record gaussianProcess : Type := mkGP {
  gp_xTrain : list (list F);
  gp_variance : F;
  gp_length : F;
  gp_jitter : F;
  gp_choleskyL : list (list F);
  gp_alpha : list F;
}.
Implicit Types (gp : gaussianProcess).
Definition newGaussianProcess (variance length jitter : F) : gaussianProcess := mkGP [] variance length jitter [] [].

(** The points have the same number of coordinates. *)
Definition kernel gp (xa xb : list F) : F :=
  let sqDist := sum_of (seq 0 (length xa)) (λ ii, (entry xa ii - entry xb ii) * (entry xa ii - entry xb ii)) in
  gp_variance gp * fexp (- sqDist / (of_Z 2 * gp_length gp * gp_length gp)).
Definition covariance gp (xTrain : list (list F)) : list (list F) :=
  imap (λ ii xi, imap (λ jj xj, if (ii =? jj)%nat then kernel gp xi xj + gp_jitter gp else kernel gp xi xj) xTrain) xTrain.

Definition Fit gp (xTrain : list (list F)) (yTrain : list F) : result gaussianProcess :=
  if (length xTrain =? 0)%nat then Err "gaussian process fit: no training data provided"%string
  else if negb (length xTrain =? length yTrain)%nat then
    Err ("gaussian process fit: xTrain length " +:+ pretty (length xTrain) +:+ " != yTrain length " +:+ pretty (length yTrain))%string
  else
    match choleskyDecompose (covariance gp xTrain) with
    | Err e => Err ("gaussian process fit: cholesky decomposition failed: " +:+ e)%string
    | Ok lower =>
        Ok (mkGP xTrain (gp_variance gp) (gp_length gp) (gp_jitter gp) lower (choleskySolve lower yTrain))
    end.

(** The posterior mean and standard deviation. *)
Definition Predict gp (xTest : list F) : F * F :=
  let kStar := kernel gp xTest <$> gp_xTrain gp in
  let nn := length (gp_xTrain gp) in
  let mean := sum_of (seq 0 nn) (λ ii, entry kStar ii * entry (gp_alpha gp) ii) in
  let vv := forwardSolve (gp_choleskyL gp) kStar in
  let varSum := sum_of (seq 0 nn) (λ ii, entry vv ii * entry vv ii) in
  let variance := kernel gp xTest xTest + gp_jitter gp - varSum in
  (mean, fsqrt (if variance <? 0 then 0 else variance)).

Definition standardNormalPDF (zz : F) : F := fexp (- lit 1 2 * zz * zz) / fsqrt (of_Z 2 * fpi).
Definition standardNormalCDF (zz : F) : F := lit 1 2 * (1 + ferf (zz / fsqrt_2)).
Definition expectedImprovement (mu sigma bestScore : F) : F :=
  if sigma <? lit 1 1000000000000 then (if mu >? bestScore then mu - bestScore else 0)
  else
    let zz := (mu - bestScore) / sigma in
    (mu - bestScore) * standardNormalCDF zz + sigma * standardNormalPDF zz.
End GaussianProcess.
Arguments gaussianProcess : clear implicits.

(** ** Runs and scores *)

(** [P] is a finished portfolio. *)
Record RunResult (F P : Type) : Type := mkResult { rr_Config : RunConfig F; rr_Portfolio : option P; rr_Err : option error }.
Arguments mkResult {F P}.
Arguments rr_Config {F P}.
Arguments rr_Portfolio {F P}.
Arguments rr_Err {F P}.
Record CombinationScore (F P : Type) : Type := mkScore {
  cs_Params : gmap string string;
  cs_Preset : string;
  cs_Score : F;
  cs_Runs : list (RunResult F P);
}.
Arguments mkScore {F P}.
Arguments cs_Params {F P}.
Arguments cs_Preset {F P}.
Arguments cs_Score {F P}.
Arguments cs_Runs {F P}.

Section Strategies.
Context {F P : Type} `{Num F} `{NumSqrt F} `{NumNormal F} `{GoFloatText F} `{GoInf F} {R : Type} `{GoRand R} `{GoRandFloat R F}.
Local Open Scope num_scope.
Implicit Types (cfg : RunConfig F) (sweep : ParamSweep) (rng : R).

Definition zero_run : RunConfig F := mkRun "" zero_time zero_time 0 "" ∅ ∅.
Definition with_preset (preset : string) cfg : RunConfig F :=
  mkRun (rc_Name cfg) (rc_Start cfg) (rc_End cfg) (rc_Deposit cfg) preset (rc_Params cfg) (rc_Metadata cfg).
Definition with_param (field val : string) cfg : RunConfig F :=
  mkRun (rc_Name cfg) (rc_Start cfg) (rc_End cfg) (rc_Deposit cfg) (rc_Preset cfg) (<[field := val]> (rc_Params cfg)) (rc_Metadata cfg).
Definition has_range sweep : bool := negb (bool_decide (ps_min sweep = ""%string)) && negb (bool_decide (ps_max sweep = ""%string)).

(** *** Random search *)

(** [vals[rng.IntN(len(vals))]], which panics when there is no value. *)
Definition choose (vals : list string) rng : result (string * R) :=
  match vals with
  | [] => Err "invalid argument to IntN"%string
  | _ => let '(i, rng) := IntN (length vals) rng in Ok (default ""%string (vals !! i), rng)
  end.
Definition bounds_of sweep : F * F :=
  let minVal := default 0 (ParseFloat (ps_min sweep)) in
  (minVal, default minVal (ParseFloat (ps_max sweep))).
Definition sample_sweep sweep (st : RunConfig F * R) : result (RunConfig F * R) :=
  let '(cfg, rng) := st in
  if ps_isPreset sweep then
    '(val, rng) ← choose (ps_values sweep) rng; Ok (with_preset val cfg, rng)
  else if has_range sweep then
    let '(minVal, maxVal) := bounds_of sweep in
    let '(u, rng) := Float64 rng in
    Ok (with_param (ps_field sweep) (Sprintf_g (minVal + u * (maxVal - minVal))) cfg, rng)
  else '(val, rng) ← choose (ps_values sweep) rng; Ok (with_param (ps_field sweep) val cfg, rng).
Fixpoint sample_sweeps (sweeps : list ParamSweep) (st : RunConfig F * R) : result (RunConfig F * R) :=
  match sweeps with [] => Ok st | sweep :: sweeps => st ← sample_sweep sweep st; sample_sweeps sweeps st end.
Fixpoint sample_configs (count : nat) (sweeps : list ParamSweep) rng : result (list (RunConfig F) * R) :=
  match count with
  | O => Ok ([], rng)
  | S count =>
      '(cfg, rng) ← sample_sweeps sweeps (zero_run, rng);
      '(configs, rng) ← sample_configs count sweeps rng;
      Ok (cfg :: configs, rng)
  end.
(** [make([]RunConfig, 0, count)] panics on a negative capacity. *)
Definition sample_batch (count : Z) (sweeps : list ParamSweep) rng : result (list (RunConfig F) * R) :=
  if (count <? 0)%Z then Err "makeslice: cap out of range"%string else sample_configs (Z.to_nat count) sweeps rng.

Record randomSearch : Type := mkRandom { rs_sweeps : list ParamSweep; rs_samples : Z; rs_rng : R; rs_called : bool }.
Definition NewRandom (sweeps : list ParamSweep) (samples seed : Z) : randomSearch :=
  mkRandom sweeps samples (rng_seed (seed mod 2 ^ 64) 0) false.
Definition randomSearch_Next (rs : randomSearch) : result (randomSearch * list (RunConfig F) * bool) :=
  if rs_called rs then Ok (rs, [], true)
  else
    '(configs, rng) ← sample_batch (rs_samples rs) (rs_sweeps rs) (rs_rng rs);
    Ok (mkRandom (rs_sweeps rs) (rs_samples rs) rng true, configs, true).

(** *** Bayesian search *)
Record bayesianStrategy : Type := mkBayesian {
  bs_sweeps : list ParamSweep;
  batchSize : Z;
  maxIterations : Z;
  initialSamples : Z;
  guidedCount : Z;
  bs_rng : R;
}.
Implicit Types (bs : bayesianStrategy).
Definition defaultBatchSize : Z := 10.
Definition defaultMaxIterations : Z := 20.
Definition defaultCandidateCount : nat := 1000.
Definition put_rng rng bs : bayesianStrategy :=
  mkBayesian (bs_sweeps bs) (batchSize bs) (maxIterations bs) (initialSamples bs) (guidedCount bs) rng.
Definition WithBatchSize (size : Z) bs : bayesianStrategy :=
  mkBayesian (bs_sweeps bs) size (maxIterations bs) (initialSamples bs) (guidedCount bs) (bs_rng bs).
Definition WithMaxIterations (max : Z) bs : bayesianStrategy :=
  mkBayesian (bs_sweeps bs) (batchSize bs) max (initialSamples bs) (guidedCount bs) (bs_rng bs).
Definition WithInitialSamples (count : Z) bs : bayesianStrategy :=
  mkBayesian (bs_sweeps bs) (batchSize bs) (maxIterations bs) count (guidedCount bs) (bs_rng bs).
Definition NewBayesian (sweeps : list ParamSweep) (seed : Z) (opts : list (bayesianStrategy → bayesianStrategy)) : bayesianStrategy :=
  let bs := fold_left (λ bs opt, opt bs) opts
              (mkBayesian sweeps defaultBatchSize defaultMaxIterations 0 0 (rng_seed (seed mod 2 ^ 64) 0)) in
  if (initialSamples bs =? 0)%Z then WithInitialSamples (batchSize bs) bs else bs.

Definition generateRandomBatch (count : Z) bs : result (list (RunConfig F) * bayesianStrategy) :=
  '(configs, rng) ← sample_batch count (bs_sweeps bs) (bs_rng bs); Ok (configs, put_rng rng bs).
Definition generateInitialSamples bs : result (list (RunConfig F) * bayesianStrategy) := generateRandomBatch (initialSamples bs) bs.

(** Numbers and categories as points of the unit interval. *)
Definition go_min (x y : F) : F := if is_nan x then x else if is_nan y then y else if x <? y then x else y.
Definition encodeNumeric (val : string) sweep : F :=
  match ParseFloat val, ParseFloat (ps_min sweep), ParseFloat (ps_max sweep) with
  | Some parsed, Some minVal, Some maxVal =>
      if maxVal =? minVal then lit 1 2 else fmax 0 (go_min 1 ((parsed - minVal) / (maxVal - minVal)))
  | _, _, _ => lit 1 2
  end.
Definition encodeCategorical (val : string) (values : list string) : F :=
  match list_find (λ vv, vv = val) values with
  | Some (ii, _) => if (length values =? 1)%nat then lit 1 2 else of_Z (Z.of_nat ii) / of_Z (Z.of_nat (length values) - 1)
  | None => lit 1 2
  end.
Definition encode bs (sc : CombinationScore F P) : list F :=
  (λ sweep,
    if ps_isPreset sweep then encodeCategorical (cs_Preset sc) (ps_values sweep)
    else
      let val := lookup_d ""%string (cs_Params sc) (ps_field sweep) in
      if has_range sweep then encodeNumeric val sweep else encodeCategorical val (ps_values sweep)) <$> bs_sweeps bs.

(** [int(math.Round(x))], clamped to the indices: how many of [1..n] lie at
    most half above [x]. *)
Definition round_clamped (n : nat) (x : F) : nat :=
  length (keep (λ k, of_Z (Z.of_nat k) - lit 1 2 <=? x) (seq 1 n)).
Definition decodeCategorical (normalized : F) (values : list string) : string :=
  match values with
  | [] => ""
  | [v] => v
  | _ =>
      let last := (length values - 1)%nat in
      default "" (values !! round_clamped last (normalized * of_Z (Z.of_nat last)))
  end%string.
Definition decode_sweep cfg (sx : ParamSweep * F) : RunConfig F :=
  let '(sweep, x) := sx in
  if ps_isPreset sweep then with_preset (decodeCategorical x (ps_values sweep)) cfg
  else if has_range sweep then
    let '(minVal, maxVal) := bounds_of sweep in
    with_param (ps_field sweep) (Sprintf_g (minVal + x * (maxVal - minVal))) cfg
  else with_param (ps_field sweep) (decodeCategorical x (ps_values sweep)) cfg.
(** A point has a coordinate per sweep. *)
Definition decode bs (point : list F) : RunConfig F := fold_left decode_sweep (zip (bs_sweeps bs) point) zero_run.

(** *** The best candidates *)

(** The first position of the least value. *)
Definition min_position (vals : list F) : nat :=
  fold_left (λ minPos jj, if entry vals jj <? entry vals minPos then jj else minPos) (seq 1 (length vals - 1)) 0%nat.
Definition keep_top (st : list nat * list F) (iv : nat * F) : list nat * list F :=
  let '(topIdx, topVal) := st in
  let minPos := min_position topVal in
  if iv.2 >? entry topVal minPos then (<[minPos := iv.1]> topIdx, <[minPos := iv.2]> topVal) else st.
Definition topKIndices (values : list F) (kk : Z) : result (list nat) :=
  if (Z.of_nat (length values) <=? kk)%Z then Ok (seq 0 (length values))
  else if (kk <? 0)%Z then Err "makeslice: len out of range"%string
  else if (kk =? 0)%Z then Err index_panic
  else
    let k := Z.to_nat kk in
    Ok (fold_left keep_top (drop k (imap pair values)) (seq 0 k, take k values)).1.

Fixpoint draw_point (dims : nat) rng : list F * R :=
  match dims with
  | O => ([], rng)
  | S dims =>
      let '(x, rng) := Float64 rng in
      let '(xs, rng) := draw_point dims rng in
      (x :: xs, rng)
  end.
Fixpoint draw_points (count dims : nat) rng : list (list F) * R :=
  match count with
  | O => ([], rng)
  | S count =>
      let '(x, rng) := draw_point dims rng in
      let '(xs, rng) := draw_points count dims rng in
      (x :: xs, rng)
  end.

(** An error of the fit is a value; a panic is an error of the outer result. *)
Definition valid_scores (scores : list (CombinationScore F P)) : list (CombinationScore F P) :=
  keep (λ sc, negb (is_nan (cs_Score sc))) scores.
Definition best_score (scores : list (CombinationScore F P)) : F :=
  fold_left (λ best sc, if cs_Score sc >? best then cs_Score sc else best) (valid_scores scores) (- inf).
Definition generateGuidedSamples bs (scores : list (CombinationScore F P)) : result (result (list (RunConfig F)) * bayesianStrategy) :=
  let valid := valid_scores scores in
  match valid with
  | [] => Ok (Err "bayesian guided samples: no valid (non-NaN) scores to fit GP"%string, bs)
  | _ =>
      match Fit (newGaussianProcess 1 (lit 3 10) (lit 1 1000000)) (map (encode bs) valid) (map cs_Score valid) with
      | Err e => Ok (Err ("bayesian guided samples: " +:+ e)%string, bs)
      | Ok gp =>
          let '(candidates, rng) := draw_points defaultCandidateCount (length (bs_sweeps bs)) (bs_rng bs) in
          let eiValues := map (λ c, let '(mu, sigma) := Predict gp c in expectedImprovement mu sigma (best_score scores)) candidates in
          selected ← topKIndices eiValues (batchSize bs);
          Ok (Ok (map (λ idx, decode bs (default [] (candidates !! idx))) selected), put_rng rng bs)
      end
  end.

Definition bayesian_Next bs (scores : list (CombinationScore F P)) : result (bayesianStrategy * list (RunConfig F) * bool) :=
  match scores with
  | [] => '(configs, bs) ← generateInitialSamples bs; Ok (bs, configs, false)
  | _ =>
      if (maxIterations bs <=? guidedCount bs)%Z then Ok (bs, [], true)
      else
        let bs := mkBayesian (bs_sweeps bs) (batchSize bs) (maxIterations bs) (initialSamples bs) (guidedCount bs + 1) (bs_rng bs) in
        '(guided, bs) ← generateGuidedSamples bs scores;
        match guided with
        | Err _ => '(configs, bs) ← generateRandomBatch (batchSize bs) bs; Ok (bs, configs, false)
        | Ok configs => Ok (bs, configs, (maxIterations bs <=? guidedCount bs)%Z)
        end
  end.
End Strategies.

(** What a search strategy answers, given all scores so far. *)
Class SearchStrategy (X F P : Type) : Type := {
  Search_Next : X → list (CombinationScore F P) → result (X * list (RunConfig F) * bool);
}.
#[export] Instance gridSearch_strategy {F P} `{Num F} : SearchStrategy gridSearch F P :=
  {| Search_Next gs _ := Ok (gridSearch_Next zero_run gs) |}.
#[export] Instance randomSearch_strategy {F P R} `{Num F} `{GoFloatText F} `{GoRand R} `{GoRandFloat R F} :
  SearchStrategy (@randomSearch R) F P := {| Search_Next rs _ := randomSearch_Next rs |}.
#[export] Instance bayesian_strategy {F P R} `{Num F} `{NumSqrt F} `{NumNormal F} `{GoFloatText F} `{GoInf F} `{GoRand R} `{GoRandFloat R F} :
  SearchStrategy (@bayesianStrategy R) F P := {| Search_Next := bayesian_Next |}.

(** ** The search loop *)
Section Runner.
Context {F P X : Type} `{Num F} `{!SearchStrategy X F P}.
Local Open Scope num_scope.
Implicit Types (cfg combo base : RunConfig F).
(* the preset and the parameters applied to a new engine, and its backtest *)
Context (run : RunConfig F → result P).
(* the context's error when a run of a batch is about to start *)
Context (cancelled : nat → nat → option error).
Context (score_over : P → DateRange → F).
Context (splits : list Split).

(** The parameters of a combination on a base run. *)
Definition mergeComboWithBase combo base : RunConfig F :=
  mkRun (if bool_decide (rc_Name combo = ""%string) then rc_Name base else appendName (rc_Name base) (rc_Name combo))
    (rc_Start base) (rc_End base) (rc_Deposit base)
    (if bool_decide (rc_Preset combo = ""%string) then rc_Preset base else rc_Preset combo)
    (rc_Params combo ∪ rc_Params base) (rc_Metadata base).
Definition with_metadata (kvs : list (string * string)) cfg : RunConfig F :=
  mkRun (rc_Name cfg) (rc_Start cfg) (rc_End cfg) (rc_Deposit cfg) (rc_Preset cfg) (rc_Params cfg)
    (fold_left (λ m kv, <[kv.1 := kv.2]> m) kvs (rc_Metadata cfg)).
Definition with_range (r : DateRange) cfg : RunConfig F :=
  mkRun (rc_Name cfg) (Start r) (End_ r) (rc_Deposit cfg) (rc_Preset cfg) (rc_Params cfg) (rc_Metadata cfg).

(** Which combination a run belongs to, and which split; none is [-1]. *)
Record configOrigin : Type := mkOrigin { og_combinationID : nat; og_split : option nat; og_combo : RunConfig F }.
Implicit Types (origin : configOrigin).

Definition expand_combo (bases : list (RunConfig F)) (comboID : nat) combo : list (RunConfig F * configOrigin) :=
  match splits with
  | [] =>
      (λ base, (with_metadata [("_combination_id", pretty comboID)] (mergeComboWithBase combo base),
                mkOrigin comboID None combo)) <$> bases
  | _ =>
      imap pair splits ≫= λ isp : nat * Split, let '(splitIdx, sp) := isp in
        (λ base, (with_metadata [("_combination_id", pretty comboID); ("_split_index", pretty splitIdx); ("_split_name", sp_Name sp)]
                    (with_range (sp_FullRange sp) (mergeComboWithBase combo base)),
                  mkOrigin comboID (Some splitIdx) combo)) <$> bases
  end%string.
Definition expand_batch (bases : list (RunConfig F)) (firstID : nat) (combos : list (RunConfig F)) : list (RunConfig F * configOrigin) :=
  imap (λ i combo, expand_combo bases (firstID + i) combo) combos ≫= id.

Definition runSingle cfg : RunResult F P :=
  match run cfg with
  | Ok p => mkResult cfg (Some p) None
  | Err e => mkResult cfg None (Some e)
  end.
(** The runs are concurrent and each writes its own slot. *)
Definition runBatch (batchIdx : nat) (configs : list (RunConfig F)) : list (RunResult F P) :=
  imap (λ idx cfg, match cancelled batchIdx idx with
                   | Some e => mkResult cfg None (Some e)
                   | None => runSingle cfg
                   end) configs.

(** The score of one run: the test window of its split, or the whole run. *)
Definition run_score (res : RunResult F P) (splitIdx : option nat) : option F :=
  match rr_Err res, rr_Portfolio res with
  | None, Some p =>
      let score := match splitIdx ≫= (splits !!.) with
                   | Some sp => score_over p (sp_Test sp)
                   | None => score_over p (mkRange (rc_Start (rr_Config res)) (rc_End (rr_Config res)))
                   end in
      if is_nan score then None else Some score
  | _, _ => None
  end.
Definition mean_score (valid : list F) : F :=
  match valid with [] => fnan | _ => fsum valid / of_Z (Z.of_nat (length valid)) end.

Record comboGroup : Type := mkGroup { cg_combo : RunConfig F; cg_runs : list (RunResult F P * configOrigin) }.
Definition group_result (groups : gmap nat comboGroup) (ro : RunResult F P * configOrigin) : gmap nat comboGroup :=
  let id := og_combinationID ro.2 in
  let grp := default (mkGroup (og_combo ro.2) []) (groups !! id) in
  <[id := mkGroup (cg_combo grp) (cg_runs grp ++ [ro])]> groups.
Definition score_group combo (grp : option comboGroup) : CombinationScore F P :=
  match grp with
  | None => mkScore (rc_Params combo) (rc_Preset combo) fnan []
  | Some grp =>
      mkScore (rc_Params (cg_combo grp)) (rc_Preset (cg_combo grp))
        (mean_score (omap (λ ro, run_score ro.1 (og_split ro.2)) (cg_runs grp))) (cg_runs grp).*1
  end.
Definition scoreBatch (combos : list (RunConfig F)) (results : list (RunResult F P)) (origins : list configOrigin)
    (firstComboID : nat) : list (CombinationScore F P) :=
  let groups := fold_left group_result (zip results origins) ∅ in
  imap (λ i combo, score_group combo (groups !! (firstComboID + i)%nat)) combos.

Record SearchState : Type := mkSearch {
  se_strategy : X;
  se_results : list (RunResult F P);
  se_scores : list (CombinationScore F P);
  se_nextID : nat;
  se_batch : nat;
}.
Implicit Types (st : SearchState).

(** One round; the flag tells that the strategy is done. *)
Definition search_round (bases : list (RunConfig F)) st : result (SearchState * bool) :=
  '(x, combos, done_) ← Search_Next (se_strategy st) (se_scores st);
  match combos, done_ with
  | [], true => Ok (mkSearch x (se_results st) (se_scores st) (se_nextID st) (se_batch st), true)
  | _, _ =>
      let batch := expand_batch bases (se_nextID st) combos in
      let results := runBatch (se_batch st) batch.*1 in
      Ok (mkSearch x (se_results st ++ results)
            (se_scores st ++ scoreBatch combos results batch.*2 (se_nextID st))
            (se_nextID st + length combos) (S (se_batch st)), done_)
  end.
(** Nothing when the search is still running. *)
Fixpoint search_loop (fuel : nat) (bases : list (RunConfig F)) st : option (result SearchState) :=
  match fuel with
  | O => None
  | S fuel =>
      match search_round bases st with
      | Err e => Some (Err e)
      | Ok (st, true) => Some (Ok st)
      | Ok (st, false) => search_loop fuel bases st
      end
  end.
(** The results go to the study's analysis. *)
Definition runSearch (fuel : nat) (bases : list (RunConfig F)) (strategy : X) : option (result SearchState) :=
  search_loop fuel bases (mkSearch strategy [] [] 0 0).
End Runner.
Arguments configOrigin : clear implicits.
Arguments SearchState : clear implicits.

(** Without a search: every configuration of the study with every value of the
    sweeps, as one batch. *)
Definition runSweeps {F P} (run : RunConfig F → result P) (cancelled : nat → nat → option error)
    (configs : list (RunConfig F)) (sweeps : list ParamSweep) : list (RunResult F P) :=
  runBatch run cancelled 0 (CrossProduct configs sweeps).
