(* ===== verification/StudyReports.v ===== *)
(** * StudyReports: what the studies configure and report
    ([study/scenario.go], [study/montecarlo], [study/stress], [study/optimize])

    The Monte Carlo simulation, the stress test over historical scenarios and
    the parameter optimisation: the runs each asks for and the analysis of the
    results.  Formatted numbers are a class; the JSON and the terminal tables
    of the reports are left out. *)
From Stdlib Require Import ZArith Ascii.
From stdpp Require Import base list gmap strings pretty.
From S2P Require Import Prelude Num GoTime Asset Period Frame Metrics FrameOps Resample Schedule Provider Ledger Account.
From S2P Require Import SimBroker Backtest Stats ReturnMetrics GrowthMetrics MetricQuery Indicators Resampling Setup Study Search.

(** [%.<n>f] and [%.6g] *)
Class GoFixed (F : Type) : Type := { Sprintf_f : nat → F → string; Sprintf_6g : F → string }.
Definition newline : string := String (Ascii.ascii_of_nat 10) EmptyString.

(** ** Scenarios *)
Section Scenarios.
Context {tz : TZDB}.
Definition utc_day (y m d : Z) : Time := Date y m d 0 0 0 0 "UTC".
Definition AllScenarios : list Scenario :=
  [mkScenario "1973-74 Oil Embargo Bear Market" "Prolonged bear market driven by the OPEC oil embargo and stagflation"
     (utc_day 1973 1 1) (utc_day 1974 10 31);
   mkScenario "Volcker Tightening" "Federal Reserve raised rates to 20% to break double-digit inflation"
     (utc_day 1980 1 1) (utc_day 1982 8 31);
   mkScenario "1987 Black Monday" "Single-day market crash of 22%, the largest one-day percentage decline in history"
     (utc_day 1987 10 1) (utc_day 1987 12 31);
   mkScenario "1994 Bond Massacre" "Unexpected Federal Reserve rate hikes caused the worst bond market losses in decades"
     (utc_day 1994 2 1) (utc_day 1994 11 30);
   mkScenario "1998 LTCM / Russian Crisis" "Russian debt default and Long-Term Capital Management collapse triggered a global liquidity crisis"
     (utc_day 1998 8 1) (utc_day 1998 10 31);
   mkScenario "Dot-com Bubble" "Speculative mania in technology stocks; strategies not chasing momentum appeared to underperform"
     (utc_day 1998 1 1) (utc_day 2000 3 31);
   mkScenario "Dot-com Bust" "Collapse of the dot-com bubble"
     (utc_day 2000 3 1) (utc_day 2002 10 31);
   mkScenario "9/11" "Markets closed for four trading days then reopened to sharp declines"
     (utc_day 2001 9 1) (utc_day 2001 10 31);
   mkScenario "2008 Financial Crisis" "Global financial crisis triggered by subprime mortgage collapse"
     (utc_day 2008 9 1) (utc_day 2009 3 31);
   mkScenario "2010 Flash Crash" "Dow dropped nearly 1,000 points intraday before recovering within minutes"
     (utc_day 2010 5 1) (utc_day 2010 6 30);
   mkScenario "Euro Debt Crisis" "Sovereign debt contagion across Greece, Ireland, Portugal, Spain, and Italy"
     (utc_day 2010 4 1) (utc_day 2011 10 31);
   mkScenario "2011 Debt Ceiling Crisis" "US debt ceiling standoff and S&P downgrade"
     (utc_day 2011 7 1) (utc_day 2011 10 31);
   mkScenario "2015-2017 Low-Volatility Grind" "Extended low-volatility period with no clear trends"
     (utc_day 2015 1 1) (utc_day 2017 12 31);
   mkScenario "2018 Q4 Selloff" "Sharp equity decline driven by Fed tightening fears and trade war escalation"
     (utc_day 2018 10 1) (utc_day 2018 12 31);
   mkScenario "COVID Crash" "Rapid market decline due to COVID-19 pandemic"
     (utc_day 2020 2 1) (utc_day 2020 3 31);
   mkScenario "2022 Rate Hiking Cycle" "Federal Reserve aggressive rate hikes to combat inflation"
     (utc_day 2022 1 1) (utc_day 2022 10 31);
   mkScenario "2023 Regional Banking Crisis" "Collapse of Silicon Valley Bank and Signature Bank triggered fears of systemic contagion"
     (utc_day 2023 3 1) (utc_day 2023 5 31)]%string.

(** A map by name keeps the last of equal names; the first missing name is the
    error. *)
Definition scenario_named (name : string) : option Scenario :=
  last (keep (λ sc, bool_decide (sc_Name sc = name)) AllScenarios).
Fixpoint ScenariosByName (names : list string) : result (list Scenario) :=
  match names with
  | [] => Ok []
  | name :: names =>
      match scenario_named name with
      | None => Err ("scenario not found: " +:+ name)%string
      | Some sc => selected ← ScenariosByName names; Ok (sc :: selected)
      end
  end.
End Scenarios.

(** ** A portfolio as a report sees it *)
Record ReportablePortfolio (F : Type) : Type := mkReportable {
  rep_PerfData : option (DataFrame F);
  rep_Summary : Summary (F := F) * list error;
  rep_Value : F;
}.
Arguments mkReportable {F}.
Arguments rep_PerfData {F}.
Arguments rep_Summary {F}.
Arguments rep_Value {F}.
Definition nil_panic : error := "runtime error: invalid memory address or nil pointer dereference"%string.

Section Reports.
Context {F : Type} `{Num F} `{NumSqrt F} `{GoInf F} `{GoFixed F} {tz : TZDB} {go : GoMapOrder} {srt : GoSort}.
Local Open Scope num_scope.
Implicit Types (p : ReportablePortfolio F) (sorted values curve : list F) (curves : list (list F)) (summaries : list (Summary (F := F))).
Implicit Types (results : list (RunResult F (ReportablePortfolio F))).

Definition equity_column (df : DataFrame F) : list F := Column df portfolioAsset PortfolioEquity.

(** *** Percentiles *)

(** [int(math.Floor(rank))], as far as the length. *)
Definition whole_upto (n : nat) (x : F) : nat := length (keep (λ k, of_Z (Z.of_nat k) <=? x) (seq 1 n)).
(** Linear interpolation between adjacent ranks. *)
Definition percentile sorted (pct : F) : F :=
  let n := length sorted in
  let final := entry sorted (n - 1) in
  if (n =? 0)%nat then fnan
  else if (n =? 1)%nat then entry sorted 0
  else if pct <=? 0 then entry sorted 0
  else if pct >=? 1 then final
  else
    let rank := pct * of_Z (Z.of_nat (n + 1)) in
    let whole := whole_upto n (ffloor rank) in
    let fraction := rank - ffloor rank in
    if (whole =? 0)%nat then entry sorted 0
    else if (n <=? whole)%nat then final
    else entry sorted (whole - 1) + fraction * (entry sorted whole - entry sorted (whole - 1)).
Definition percentileRank sorted (value : F) : F :=
  match sorted with
  | [] => fnan
  | _ => of_Z (Z.of_nat (length (keep (λ val, val <? value) sorted))) / of_Z (Z.of_nat (length sorted))
  end.
Definition computeMean values : F :=
  match values with [] => fnan | _ => fsum values / of_Z (Z.of_nat (length values)) end.
Definition computeStdDev values (mean : F) : F :=
  match values with
  | [] => fnan
  | _ => fsqrt (fsum ((λ val, (val - mean) * (val - mean)) <$> values) / of_Z (Z.of_nat (length values)))
  end.

(** *** Monte Carlo *)
Record MonteCarloStudy (R : Type) : Type := mkMonteCarlo {
  mc_Simulations : Z;
  mc_Resampler : Resampler (F := F) (R := R);
  mc_Seed : Z;
  mc_RuinThreshold : F;
  mc_historicalData : DataFrame F;
  mc_metrics : list Metric;
  mc_HistoricalResult : option (ReportablePortfolio F);
  mc_Start : Time;
  mc_End : Time;
  mc_Deposit : F;
}.
Section Paths.
Context {R : Type} `{GoRand R}.
Definition NewMonteCarlo (historical : DataFrame F) (metrics : list Metric) : MonteCarloStudy R :=
  mkMonteCarlo R 1000 (BlockBootstrap 20) 42 (- lit 3 10) historical metrics None zero_time zero_time 0.
Definition path_config (mcs : MonteCarloStudy R) (pathIdx : nat) : RunConfig F :=
  let seed := ((mc_Seed R mcs + Z.of_nat pathIdx) mod 2 ^ 64)%Z in
  mkRun ("Path " +:+ pretty (pathIdx + 1)%nat)%string (mc_Start R mcs) (mc_End R mcs) (mc_Deposit R mcs) "" ∅
    (<["simulation_seed" := pretty seed]> {["study" := "monte-carlo"]})%string.
Definition mc_Configurations (mcs : MonteCarloStudy R) : result (list (RunConfig F)) :=
  if (mc_Simulations R mcs <? 0)%Z then Err "runtime error: makeslice: len out of range"%string
  else Ok (path_config mcs <$> seq 0 (Z.to_nat (mc_Simulations R mcs))).
(** [strconv.ParseUint(s, 10, 64)]; a missing or malformed seed gives no option. *)
Definition ParseUint (s : string) : option Z :=
  match unsigned s with Some v => if (v <? 2 ^ 64)%Z then Some v else None | None => None end.
Definition mc_EngineOptions (mcs : MonteCarloStudy R) (cfg : RunConfig F) : option (DataProvider F) :=
  match rc_Metadata cfg !! "simulation_seed"%string with
  | None => None
  | Some s => (λ seed, NewResamplingProvider (mc_historicalData R mcs) (mc_Resampler R mcs) seed (mc_metrics R mcs)) <$> ParseUint s
  end.
End Paths.

Record fanChartData : Type := mkFan {
  fc_Times : list Time;
  fc_P5 : list F;
  fc_P25 : list F;
  fc_P50 : list F;
  fc_P75 : list F;
  fc_P95 : list F;
  fc_Actual : option (list Time * list F);
}.
Definition terminalStat : Type := string * F.
Record confidenceRow : Type := mkConfidence { cr_Metric : string; cr_P5 : F; cr_P25 : F; cr_P50 : F; cr_P75 : F; cr_P95 : F }.
Record ruinData : Type := mkRuin { rd_Probability : F; rd_Threshold : F; rd_MedianDrawdown : F }.
Record historicalRankData : Type := mkRank { hr_Terminal : F; hr_TWRR : F; hr_MaxDrawdown : F; hr_Sharpe : F }.
Record monteCarloReport : Type := mkMCReport {
  mr_FanChart : fanChartData;
  mr_TerminalWealth : list terminalStat;
  mr_ConfidenceIntervals : list confidenceRow;
  mr_Ruin : ruinData;
  mr_HistoricalRank : option historicalRankData;
  mr_Summary : string;
}.

(** The equities of one step, sorted. *)
Definition values_at curves (step : nat) : list F := sort_Float64s (omap (λ curve, curve !! step) curves).
Definition band curves (steps : nat) (pct : F) : list F := (λ step, percentile (values_at curves step) pct) <$> seq 0 steps.
Definition actual_series (historical : option (ReportablePortfolio F)) : option (list Time * list F) :=
  match historical ≫= rep_PerfData with
  | Some df => match equity_column df with [] => None | vals => Some (df_times df, vals) end
  | None => None
  end.
Definition computeFanChart (times : list Time) curves (historical : option (ReportablePortfolio F)) : fanChartData :=
  let b := band curves (length times) in
  mkFan times (b (lit 5 100)) (b (lit 25 100)) (b (lit 50 100)) (b (lit 75 100)) (b (lit 95 100)) (actual_series historical).

Definition terminal_values curves : list F := omap last curves.
Definition computeTerminalWealth curves (historical : option (ReportablePortfolio F)) : list terminalStat :=
  let terminal := terminal_values curves in
  let sorted := sort_Float64s terminal in
  let mean := computeMean terminal in
  [("P1", percentile sorted (lit 1 100)); ("P5", percentile sorted (lit 5 100)); ("P10", percentile sorted (lit 10 100));
   ("P25", percentile sorted (lit 25 100)); ("P50", percentile sorted (lit 50 100)); ("P75", percentile sorted (lit 75 100));
   ("P90", percentile sorted (lit 90 100)); ("P95", percentile sorted (lit 95 100)); ("P99", percentile sorted (lit 99 100));
   ("Mean", mean); ("Std Dev", computeStdDev terminal mean)]%string ++
  match historical with
  | None => []
  | Some p => [(("Historical (P" +:+ Sprintf_f 0 (percentileRank sorted (rep_Value p) * of_Z 100) +:+ ")")%string, rep_Value p)]
  end.

Definition confidence_row (name : string) values : confidenceRow :=
  let sorted := sort_Float64s values in
  mkConfidence name (percentile sorted (lit 5 100)) (percentile sorted (lit 25 100)) (percentile sorted (lit 50 100))
    (percentile sorted (lit 75 100)) (percentile sorted (lit 95 100)).
Definition computeConfidenceIntervals summaries : list confidenceRow :=
  [confidence_row "TWRR" (map su_TWRR summaries);
   confidence_row "Max Drawdown" (map su_MaxDrawdown summaries);
   confidence_row "Sharpe" (map su_Sharpe summaries)].

Definition ruined summaries (threshold : F) : nat := length (keep (λ s, su_MaxDrawdown s <? threshold) summaries).
Definition ruin_share summaries (threshold : F) : F :=
  of_Z (Z.of_nat (ruined summaries threshold)) / of_Z (Z.of_nat (length summaries)).
Definition computeRuin summaries (threshold : F) : ruinData :=
  match summaries with
  | [] => mkRuin 0 threshold 0
  | _ => mkRuin (ruin_share summaries threshold) threshold (percentile (sort_Float64s (map su_MaxDrawdown summaries)) (lit 50 100))
  end.

Definition joined_errors (errs : list error) : error := join_with newline errs.
Definition computeHistoricalRank curves summaries p : result historicalRankData :=
  match (rep_Summary p).2 with
  | (_ :: _) as errs => Err ("computing historical summary: " +:+ joined_errors errs)%string
  | [] =>
      let s := (rep_Summary p).1 in
      let rank f v := percentileRank (sort_Float64s (map f summaries)) v in
      Ok (mkRank (percentileRank (sort_Float64s (terminal_values curves)) (rep_Value p))
            (rank su_TWRR (su_TWRR s)) (rank su_MaxDrawdown (su_MaxDrawdown s)) (rank su_Sharpe (su_Sharpe s)))
  end.

Definition computeMCSummary (totalRuns successfulRuns : nat) summaries (threshold : F) : string :=
  match summaries with
  | [] => "No successful simulation paths to analyze."
  | _ =>
      "Monte Carlo simulation completed: " +:+ pretty successfulRuns +:+ " of " +:+ pretty totalRuns +:+ " paths succeeded." +:+ newline +:+
      (if (0 <? totalRuns - successfulRuns)%nat then
         pretty (totalRuns - successfulRuns)%nat +:+ " path(s) failed and are excluded from the analysis." +:+ newline else "") +:+
      "Median TWRR across paths: " +:+ Sprintf_f 2 (percentile (sort_Float64s (map su_TWRR summaries)) (lit 50 100) * of_Z 100) +:+ "%." +:+ newline +:+
      "Probability of ruin (drawdown beyond " +:+ Sprintf_f 0 (threshold * of_Z 100) +:+ "%): " +:+
      Sprintf_f 1 (ruin_share summaries threshold * of_Z 100) +:+ "%." +:+ newline
  end%string.

Definition successful results : list (ReportablePortfolio F) :=
  omap (λ r, match rr_Err r with None => rr_Portfolio r | Some _ => None end) results.
(** The summary of a path; a missing risk-free rate or benchmark leaves it
    partial. *)
Definition tolerated (errs : list error) : bool :=
  existsb (λ e, bool_decide (e = ErrNoRiskFreeRate) || bool_decide (e = ErrNoBenchmark)) errs.
Definition path_summary (idx : nat) p : result (list F * Summary (F := F)) :=
  match rep_PerfData p with
  | None => Err nil_panic
  | Some df =>
      let '(s, errs) := rep_Summary p in
      match errs with
      | [] => Ok (equity_column df, s)
      | _ => if tolerated errs then Ok (equity_column df, s)
             else Err ("computing summary for path " +:+ pretty idx +:+ ": " +:+ joined_errors errs)%string
      end
  end.
Fixpoint path_summaries (idx : nat) (ps : list (ReportablePortfolio F)) : result (list (list F) * list (Summary (F := F))) :=
  match ps with
  | [] => Ok ([], [])
  | p :: ps =>
      '(curve, s) ← path_summary idx p;
      '(curves, summaries) ← path_summaries (S idx) ps;
      Ok (curve :: curves, s :: summaries)
  end.
Definition no_paths : monteCarloReport :=
  mkMCReport (mkFan [] [] [] [] [] [] None) [] [] (mkRuin 0 0 0) None "No successful simulation paths to analyze.".
Definition montecarlo_analyzeResults results (historical : option (ReportablePortfolio F)) (threshold : F) : result monteCarloReport :=
  match successful results with
  | [] => Ok no_paths
  | (p0 :: _) as ps =>
      '(curves, summaries) ← path_summaries 0 ps;
      let times := match rep_PerfData p0 with Some df => df_times df | None => [] end in
      rank ← (match historical with
              | None => Ok None
              | Some p =>
                  match computeHistoricalRank curves summaries p with
                  | Err e => Err ("computing historical rank: " +:+ e)%string
                  | Ok r => Ok (Some r)
                  end
              end);
      Ok (mkMCReport (computeFanChart times curves historical) (computeTerminalWealth curves historical)
            (computeConfidenceIntervals summaries) (computeRuin summaries threshold) rank
            (computeMCSummary (length results) (length ps) summaries threshold))
  end.

(** *** The stress test *)
Record scenarioMetrics : Type := mkScenarioMetrics {
  sm_scenarioName : string;
  sm_maxDrawdown : F;
  sm_totalReturn : F;
  sm_worstDayReturn : F;
  sm_hasData : bool;
}.
Record runAnalysis : Type := mkAnalysis { ra_runName : string; ra_errMsg : string; ra_scenarios : list scenarioMetrics }.

(** [math.MaxFloat64] *)
Context (maxFloat : F).

Definition drawdown_step (st : F * F) (value : F) : F * F :=
  let '(peak, maxDD) := st in
  let peak := if value >? peak then value else peak in
  if peak >? 0 then
    let drawdown := (value - peak) / peak in
    (peak, if drawdown <? maxDD then drawdown else maxDD)
  else (peak, maxDD).
Definition computeMaxDrawdown values : F :=
  match values with [] => fnan | first :: _ => (fold_left drawdown_step values (first, 0)).2 end.
Definition computeTotalReturn values : F :=
  if (length values <? 2)%nat then fnan
  else if entry values 0 =? 0 then fnan
  else entry values (length values - 1) / entry values 0 - 1.
Fixpoint worst_day (worst : F) values : F :=
  match values with
  | prev :: (value :: _) as rest =>
      worst_day (if prev =? 0 then worst
                 else let dailyReturn := (value - prev) / prev in if dailyReturn <? worst then dailyReturn else worst) rest
  | _ => worst
  end.
Definition computeWorstDayReturn values : F :=
  if (length values <? 2)%nat then fnan
  else let worst := worst_day maxFloat values in if worst =? maxFloat then fnan else worst.

Definition no_data (name : string) : scenarioMetrics := mkScenarioMetrics name 0 0 0 false.
Definition computeScenarioMetrics (scenario : Scenario) (perfData : option (DataFrame F)) : scenarioMetrics :=
  match perfData with
  | None => no_data (sc_Name scenario)
  | Some df =>
      let sliced := Between df (sc_Start scenario) (sc_End scenario) in
      let values := equity_column sliced in
      if (Len sliced <? 2)%nat || (length values <? 2)%nat then no_data (sc_Name scenario)
      else mkScenarioMetrics (sc_Name scenario) (computeMaxDrawdown values) (computeTotalReturn values) (computeWorstDayReturn values) true
  end.
Definition analyzeRun (scenarios : list Scenario) (r : RunResult F (ReportablePortfolio F)) : runAnalysis :=
  match rr_Err r with
  | Some e => mkAnalysis (rc_Name (rr_Config r)) e ((λ sc, no_data (sc_Name sc)) <$> scenarios)
  | None => mkAnalysis (rc_Name (rr_Config r)) "" ((λ sc, computeScenarioMetrics sc (rr_Portfolio r ≫= rep_PerfData)) <$> scenarios)
  end.

Record scenarioRanking : Type := mkRanking {
  sk_RunName : string;
  sk_ScenarioName : string;
  sk_ErrorMsg : string;
  sk_MaxDrawdown : F;
  sk_TotalReturn : F;
  sk_WorstDay : F;
}.
(** NaN goes to the end. *)
Definition nan_last (better : F → F → bool) (left right : F) : bool :=
  if is_nan left then false else if is_nan right then true else better left right.
Definition ranking_of (an : runAnalysis) (sm : scenarioMetrics) : scenarioRanking :=
  mkRanking (ra_runName an) (sm_scenarioName sm) (ra_errMsg an) (sm_maxDrawdown sm) (sm_totalReturn sm) (sm_worstDayReturn sm).
Definition covered_rows (an : runAnalysis) : list scenarioRanking :=
  map (ranking_of an) (keep (λ sm, sm_hasData sm || negb (bool_decide (ra_errMsg an = ""%string))) (ra_scenarios an)).
Definition buildRankings (analyses : list runAnalysis) : list scenarioRanking :=
  sort_slice (λ l r, nan_last flt (sk_MaxDrawdown l) (sk_MaxDrawdown r)) (analyses ≫= covered_rows).

Record runMetricSet : Type := mkMetricSet {
  ms_RunName : string;
  ms_ErrorMsg : string;
  ms_HasData : bool;
  ms_MaxDrawdown : F;
  ms_TotalReturn : F;
  ms_WorstDay : F;
}.
Record scenarioDetail : Type := mkDetail { sd_Name : string; sd_DateRange : string; sd_RunMetrics : list runMetricSet }.
Definition metric_set (an : runAnalysis) (sm : scenarioMetrics) : runMetricSet :=
  mkMetricSet (ra_runName an) (ra_errMsg an) (sm_hasData sm) (sm_maxDrawdown sm) (sm_totalReturn sm) (sm_worstDayReturn sm).
Definition buildScenarioDetails (scenarios : list Scenario) (analyses : list runAnalysis) : list scenarioDetail :=
  imap (λ i scenario,
    mkDetail (sc_Name scenario) (format_date (sc_Start scenario) +:+ " to " +:+ format_date (sc_End scenario))%string
      (omap (λ an, metric_set an <$> ra_scenarios an !! i) analyses)) scenarios.
Definition buildSummary (scenarios : list Scenario) (analyses : list runAnalysis) : string :=
  (let failedRuns := length (keep (λ an, negb (bool_decide (ra_errMsg an = ""))) analyses) in
   "Stress test completed: " +:+ pretty (length scenarios) +:+ " scenario(s) evaluated" +:+
   (if (0 <? length analyses)%nat then " across " +:+ pretty (length analyses) +:+ " run(s)" else "") +:+ "." +:+ newline +:+
   (if (0 <? failedRuns)%nat then pretty failedRuns +:+ " run(s) failed and are excluded from metric calculations." +:+ newline else "") +:+
   "Scenarios covered: " +:+ join_with ", " (sc_Name <$> scenarios) +:+ "." +:+ newline)%string.
Definition stress_analyzeResults (scenarios : list Scenario) results : list scenarioRanking * list scenarioDetail * string :=
  let analyses := analyzeRun scenarios <$> results in
  (buildRankings analyses, buildScenarioDetails scenarios analyses, buildSummary scenarios analyses).

Definition NewStressTest (scenarios : list Scenario) : list Scenario :=
  match scenarios with [] => AllScenarios | _ => scenarios end.
Definition full_range_run (study : string) (params : gmap string string) (first : DateRange) (rest : list DateRange) : RunConfig F :=
  mkRun "Full Range" (fold_left (λ e r, earliest (Start r) e) rest (Start first)) (fold_left (λ l r, latest (End_ r) l) rest (End_ first))
    0 "" params {["study" := study]}%string.
Definition stress_Configurations (scenarios : list Scenario) : result (list (RunConfig F)) :=
  match sc_range <$> scenarios with
  | [] => Err index_panic
  | first :: rest => Ok [full_range_run "stress-test" ∅ first rest]
  end.

(** *** The optimisation *)
Record comboResult : Type := mkCombo {
  cb_comboID : string;
  cb_preset : string;
  cb_params : gmap string string;
  cb_oosScores : list F;
  cb_isScores : list F;
  cb_equity : list Time * list F;
}.
(* the objective over a window of a portfolio, and whether higher is better *)
Context (objective_name : string) (score : ReportablePortfolio F → DateRange → F) (higherIsBetter : bool).

Definition meanIgnoringNaN values : F := mean_score (keep (λ x, negb (is_nan x)) values).
Definition stddevIgnoringNaN values : F :=
  let mn := meanIgnoringNaN values in
  let valid := keep (λ x, negb (is_nan x)) values in
  if is_nan mn then fnan
  else if (length valid <? 2)%nat then fnan
  else fsqrt (fsum ((λ x, (x - mn) * (x - mn)) <$> valid) / of_Z (Z.of_nat (length valid))).

(** [fmt.Sscanf(s, "%d")]: an optional sign and the digits that follow. *)
Fixpoint digit_prefix (s : string) : string :=
  match s with
  | String c rest =>
      let d := (Z.of_nat (Ascii.nat_of_ascii c) - 48)%Z in
      if (0 <=? d)%Z && (d <=? 9)%Z then String c (digit_prefix rest) else EmptyString
  | EmptyString => EmptyString
  end.
Definition Sscanf_d (s : string) : option Z :=
  match trim_left s with
  | String "+"%char rest => Atoi (digit_prefix rest)
  | String "-"%char rest => Atoi ("-" +:+ digit_prefix rest)%string
  | s => Atoi (digit_prefix s)
  end.

Definition fresh_combo (splits : nat) (comboID : string) (cfg : RunConfig F) : comboResult :=
  mkCombo comboID (rc_Preset cfg) (rc_Params cfg) (replicate splits fnan) (replicate splits fnan) ([], []).
Definition score_split (sp : Split) (i : nat) p (cr : comboResult) : comboResult :=
  let '(times, vals) := cb_equity cr in
  mkCombo (cb_comboID cr) (cb_preset cr) (cb_params cr)
    (<[i := score p (sp_Test sp)]> (cb_oosScores cr))
    (<[i := WindowedScoreExcluding (score p) (sp_Train sp) (sp_Exclude sp)]> (cb_isScores cr))
    (match rep_PerfData p with
     | Some df =>
         let window := Between df (Start (sp_Test sp)) (End_ (sp_Test sp)) in
         (times ++ df_times window, vals ++ equity_column window)
     | None => (times, vals)
     end).
Definition group_run (splits : list Split) (combos : gmap string comboResult) (r : RunResult F (ReportablePortfolio F)) : gmap string comboResult :=
  let cfg := rr_Config r in
  let comboID := lookup_d ""%string (rc_Metadata cfg) "_combination_id"%string in
  if bool_decide (comboID = ""%string) then combos
  else
    let cr := default (fresh_combo (length splits) comboID cfg) (combos !! comboID) in
    let combos := <[comboID := cr]> combos in
    match Sscanf_d (lookup_d ""%string (rc_Metadata cfg) "_split_index"%string) with
    | None => combos
    | Some i =>
        if (i <? 0)%Z then combos
        else
          match splits !! Z.to_nat i, rr_Err r, rr_Portfolio r with
          | Some sp, None, Some p => <[comboID := score_split sp (Z.to_nat i) p cr]> combos
          | _, _, _ => combos
          end
    end.
Definition groupByCombination (splits : list Split) results : list comboResult :=
  (range (fold_left (group_run splits) results ∅)).*2.

Definition oos_mean (cr : comboResult) : F := meanIgnoringNaN (cb_oosScores cr).
Definition combo_less (l r : comboResult) : bool :=
  nan_last (λ x y, if higherIsBetter then x >? y else x <? y) (oos_mean l) (oos_mean r).
Definition rankCombos (combos : list comboResult) : list comboResult := sort_slice combo_less combos.
Definition paramsLabel (cr : comboResult) : string :=
  let keys := sort_slice (λ a b, string_less a b) (range (cb_params cr)).*1 in
  let parts := (if bool_decide (cb_preset cr = "") then [] else ["preset=" +:+ cb_preset cr]) ++
               ((λ key, key +:+ "=" +:+ lookup_d "" (cb_params cr) key) <$> keys) in
  match parts with [] => cb_comboID cr | _ => join_with ", " parts end%string.

Record rankingRow : Type := mkRow { rk_Rank : nat; rk_Parameters : string; rk_MeanOOS : F; rk_MeanIS : F; rk_OOSStdDev : F }.
Record overfittingRow : Type := mkOverfit { ov_Parameters : string; ov_MeanIS : F; ov_MeanOOS : F; ov_Degradation : F }.
Definition computeRankings (combos : list comboResult) : list rankingRow :=
  imap (λ idx cr, mkRow (idx + 1) (paramsLabel cr) (oos_mean cr) (meanIgnoringNaN (cb_isScores cr)) (stddevIgnoringNaN (cb_oosScores cr))) combos.
Definition computeOverfitting (combos : list comboResult) : list overfittingRow :=
  (λ cr,
    let meanOOS := oos_mean cr in
    let meanIS := meanIgnoringNaN (cb_isScores cr) in
    mkOverfit (paramsLabel cr) meanIS meanOOS
      (if negb (is_nan meanIS) && negb (is_nan meanOOS) && (meanIS !=? 0) then (meanIS - meanOOS) / fabs meanIS else fnan)) <$> combos.
Definition computeBestComboDetail (best : comboResult) (splits : list Split) : string * list (string * F * F) :=
  (paramsLabel best,
   imap (λ i sp, (sp_Name sp, default fnan (cb_isScores best !! i), default fnan (cb_oosScores best !! i))) splits).
Definition computeEquityCurves (combos : list comboResult) (topN : nat) : list (string * (list Time * list F)) :=
  (λ cr, (paramsLabel cr, cb_equity cr)) <$> take topN combos.

Definition degenerateRankingWarning (combos : list comboResult) : string :=
  let scores : list F := keep (λ s, negb (is_nan s)) (map oos_mean combos) in
  let minScore := fold_left (λ m s, if s <? m then s else m) scores inf in
  let maxScore := fold_left (λ m s, if s >? m then s else m) scores (- inf) in
  (if (length combos <? 2)%nat then ""
   else match scores with
     | [] =>
         "every combination produced an undefined " +:+ objective_name +:+ " score; the ranking reflects insertion order, not the objective metric. Check that the strategy actually trades over the test windows and that any required inputs (e.g. risk-free rate) are configured."
     | _ =>
         if (maxScore - minScore <=? lit 1 1000000000000)%F then
           "every combination produced the same " +:+ objective_name +:+ " score (" +:+ Sprintf_6g minScore +:+ "); the ranking reflects insertion order, not the objective metric. This typically means the parameter sweep does not change strategy behavior, or the strategy produces identical equity curves across all sampled values."
         else ""
     end)%string.

Record optimizerReport : Type := mkOptReport {
  or_ObjectiveName : string;
  or_Warning : string;
  or_Rankings : list rankingRow;
  or_BestDetail : option (string * list (string * F * F));
  or_Overfitting : list overfittingRow;
  or_EquityCurves : list (string * (list Time * list F));
}.
Definition optimize_analyzeResults (splits : list Split) (topN : nat) results : optimizerReport :=
  let combos := rankCombos (groupByCombination splits results) in
  mkOptReport objective_name (degenerateRankingWarning combos) (computeRankings combos)
    ((λ best, computeBestComboDetail best splits) <$> head combos) (computeOverfitting combos) (computeEquityCurves combos topN).
Definition optimize_Configurations (splits : list Split) (baseParams : gmap string string) : result (list (RunConfig F)) :=
  match sp_FullRange <$> splits with
  | [] => Err "optimizer: no splits configured"%string
  | first :: rest => Ok [full_range_run "parameter-optimization" baseParams first rest]
  end.
End Reports.
