(* ===== verification/StudyProps.v ===== *)
(** * StudyProps: splits cover what they should, sweeps enumerate

    Subtracting ranges leaves exactly the instants outside them; the folds of a
    k-fold split partition the range; walk-forward terminates with every window
    inside the range; leave-n-out visits every combination once; sweeps and
    their cross product list every value and every combination. *)
From Stdlib Require Import ZArith QArith Qcanon Lia Sorted.
From stdpp Require Import base list gmap strings pretty.
From S2P Require Import Prelude Num GoTime Samples Study.
Local Open Scope Z_scope.

(** ** Ranges as sets of instants *)
Definition inside (r : DateRange) (t : Z) : Prop := t_ns (Start r) <= t < t_ns (End_ r).
Definition covered (rs : list DateRange) (t : Z) : Prop := Exists (λ r, inside r t) rs.

Lemma covered_nil t : covered [] t ↔ False.
Proof. apply Exists_nil. Qed.
Lemma covered_app rs1 rs2 t : covered (rs1 ++ rs2) t ↔ covered rs1 t ∨ covered rs2 t.
Proof. apply Exists_app. Qed.
Lemma covered_one r t : covered [r] t ↔ inside r t.
Proof. unfold covered. rewrite Exists_cons, Exists_nil. tauto. Qed.
Lemma covered_perm rs1 rs2 t : rs1 ≡ₚ rs2 → covered rs1 t ↔ covered rs2 t.
Proof. intros Hp. unfold covered. by rewrite Hp. Qed.
Create Rewrite HintDb cover.
#[export] Hint Rewrite covered_nil covered_app covered_one : cover.

Lemma covered_dec rs t : covered rs t ∨ ¬ covered rs t.
Proof.
  unfold covered. destruct (decide (Exists (λ r, t_ns (Start r) <= t < t_ns (End_ r)) rs)); tauto.
Qed.

(** An exclusion [SubtractRanges] handles: not inverted, and starting no later
    than the window ends. *)
Definition proper_in (window ex : DateRange) : Prop :=
  t_ns (Start ex) <= t_ns (End_ ex) ∧ t_ns (Start ex) <= t_ns (End_ window).

Record subtract_inv (window : DateRange) (seen : list DateRange) (result : list DateRange)
    (cursor : Time) : Prop := {
  si_low : t_ns (Start window) <= t_ns cursor;
  si_high : t_ns cursor <= Z.max (t_ns (Start window)) (t_ns (End_ window));
  si_result : ∀ t, covered result t ↔ t_ns (Start window) <= t < t_ns cursor ∧ ¬ covered seen t;
  si_rest : ∀ t, t_ns cursor <= t < t_ns (End_ window) → ¬ covered seen t;
  si_order : ∀ t, covered result t → Exists (λ d, t < t_ns (Start d)) seen;
}.

Lemma subtract_step_inv window seen result cursor ex :
  proper_in window ex → Forall (λ d, t_ns (Start d) <= t_ns (Start ex)) seen →
  subtract_inv window seen result cursor →
  let '(result', cursor') := subtract_step window (result, cursor) ex in
  subtract_inv window (seen ++ [ex]) result' cursor'.
Proof.
  intros [Hex Hin] Hsorted [Hlow Hhigh Hres Hrest Hord]. unfold subtract_step, Before, After.
  set (exStart := if t_ns (Start ex) <? t_ns (Start window) then Start window else Start ex).
  set (exEnd := if t_ns (End_ window) <? t_ns (End_ ex) then End_ window else End_ ex).
  assert (Hs : t_ns exStart = Z.max (t_ns (Start window)) (t_ns (Start ex))).
  { unfold exStart. destruct (Z.ltb_spec (t_ns (Start ex)) (t_ns (Start window))); lia. }
  assert (He : t_ns exEnd = Z.min (t_ns (End_ window)) (t_ns (End_ ex))).
  { unfold exEnd. destruct (Z.ltb_spec (t_ns (End_ window)) (t_ns (End_ ex))); lia. }
  clearbody exStart exEnd.
  set (cursor' := if t_ns cursor <? t_ns exEnd then exEnd else cursor).
  assert (Hc : t_ns cursor' = Z.max (t_ns cursor) (t_ns exEnd)).
  { unfold cursor'. destruct (Z.ltb_spec (t_ns cursor) (t_ns exEnd)); lia. }
  clearbody cursor'.
  assert (Hseen : ∀ t, covered result t → t < t_ns (Start ex)).
  { intros t Ht. apply Hord in Ht. rewrite Exists_exists in Ht. destruct Ht as (d & Hd & Hlt).
    rewrite Forall_forall in Hsorted. specialize (Hsorted d Hd). lia. }
  destruct (Z.ltb_spec (t_ns cursor) (t_ns exStart)).
  - split; try lia.
    + intros t. autorewrite with cover. rewrite Hres. unfold inside. cbn [Start End_].
      specialize (Hrest t). specialize (Hseen t). rewrite Hres in Hseen.
      destruct (covered_dec seen t) as [Hsn|Hsn].
      * assert (¬ (t_ns cursor <= t < t_ns (End_ window))) by tauto.
        split; [intros [[? ?]|?]; [tauto|exfalso; lia]|tauto].
      * destruct (decide (t_ns (Start window) <= t < t_ns cursor)) as [Ht|Ht]; split.
        -- intros _. assert (t < t_ns (Start ex)) by tauto. split; [lia|]. intros [?|?]; [tauto|lia].
        -- tauto.
        -- intros [?|?]; [tauto|]. split; [lia|]. intros [?|?]; [tauto|lia].
        -- intros [? Hn]. right. assert (¬ (t_ns (Start ex) <= t < t_ns (End_ ex))) by tauto. lia.
    + intros t Ht. autorewrite with cover. unfold inside. specialize (Hrest t). intros [?|?]; [|lia].
      apply Hrest; [lia|done].
    + intros t. autorewrite with cover. rewrite Exists_app, Exists_cons. unfold inside. cbn [Start End_].
      intros [Hr|Hr]; [by left; apply Hord|]. right. left. lia.
  - split; try lia.
    + intros t. autorewrite with cover. rewrite Hres. unfold inside.
      specialize (Hrest t). specialize (Hseen t). rewrite Hres in Hseen.
      destruct (covered_dec seen t) as [Hsn|Hsn]; [tauto|].
      destruct (decide (t_ns (Start window) <= t < t_ns cursor)) as [Ht|Ht]; split.
      * intros _. assert (t < t_ns (Start ex)) by tauto. split; [lia|]. intros [?|?]; [tauto|lia].
      * tauto.
      * tauto.
      * intros [? Hn]. assert (¬ (t_ns (Start ex) <= t < t_ns (End_ ex))) by tauto. lia.
    + intros t Ht. autorewrite with cover. unfold inside. specialize (Hrest t). intros [?|?]; [|lia].
      apply Hrest; [lia|done].
    + intros t Hr. rewrite Exists_app. left. by apply Hord.
Qed.

Lemma subtract_fold_inv window exs seen result cursor :
  Forall (proper_in window) exs →
  StronglySorted (λ a b, t_ns (Start a) <= t_ns (Start b)) exs →
  Forall (λ d, Forall (λ ex, t_ns (Start d) <= t_ns (Start ex)) exs) seen →
  subtract_inv window seen result cursor →
  let '(result', cursor') := fold_left (subtract_step window) exs (result, cursor) in
  subtract_inv window (seen ++ exs) result' cursor'.
Proof.
  revert seen result cursor. induction exs as [|ex exs IH]; intros seen result cursor Hp Hs Hle Hinv; cbn [fold_left].
  { by rewrite app_nil_r. }
  apply Forall_cons in Hp as [Hex Hp]. apply StronglySorted_inv in Hs as [Hs Hfirst].
  assert (Hhd : Forall (λ d, t_ns (Start d) <= t_ns (Start ex)) seen).
  { eapply Forall_impl; [exact Hle|]. cbn. intros d Hd. by apply Forall_cons in Hd as [? _]. }
  pose proof (subtract_step_inv window seen result cursor ex Hex Hhd Hinv) as Hstep.
  destruct (subtract_step window (result, cursor) ex) as [result1 cursor1].
  specialize (IH (seen ++ [ex]) result1 cursor1 Hp Hs). rewrite <-app_assoc in IH. apply IH; [|done].
  apply Forall_app. split; [|by repeat constructor].
  eapply Forall_impl; [exact Hle|]. cbn. intros d Hd. by apply Forall_cons in Hd as [_ ?].
Qed.

(** ** Folds *)
Lemma lookup_folds {A} (f : Z → A) (n : Z) (i : nat) (x : A) :
  (f <$> (Z.of_nat <$> seq 0 (Z.to_nat n))) !! i = Some x ↔ Z.of_nat i < n ∧ x = f (Z.of_nat i).
Proof.
  rewrite !list_lookup_fmap. destruct (decide (i < Z.to_nat n)%nat) as [Hi|Hi].
  - rewrite lookup_seq_lt by done. cbn. split; [intros [= <-]; split; [lia|done]|]. by intros [_ ->].
  - rewrite lookup_seq_ge by lia. cbn. split; [done|lia].
Qed.

(** The window fold [ii] tests, when no duration overflows. *)
Lemma one_fold_test start end_ folds ii :
  2 <= folds → 0 <= ii < folds → t_ns start <= t_ns end_ → t_ns end_ - t_ns start < 2 ^ 63 →
  let d := (t_ns end_ - t_ns start) / folds in
  let test := sp_Test (one_fold start end_ (Z.quot (Sub end_ start) folds) folds ii) in
  t_ns (Start test) = t_ns start + ii * d ∧
  t_ns (End_ test) = (if ii =? folds - 1 then t_ns end_ else t_ns start + (ii + 1) * d).
Proof.
  intros Hf Hi Hle Hmax. cbn zeta. unfold one_fold, Sub. cbn [sp_Test Start End_].
  rewrite Z.min_r, Z.max_r by lia. rewrite Z.quot_div_nonneg by lia.
  set (d := (t_ns end_ - t_ns start) / folds).
  assert (Hd : 0 <= d) by (apply Z.div_pos; lia).
  assert (Hd' : folds * d <= t_ns end_ - t_ns start) by (apply Z.mul_div_le; lia).
  split.
  - cbn. rewrite wrap64_small; [done|]. nia.
  - destruct (Z.eqb_spec ii (folds - 1)); [done|]. cbn. rewrite wrap64_small; [done|]. nia.
Qed.

(** ** Walk-forward *)
Section Walk.
Context (start end_ : Time) (minTrain testLen step : Z).
Context (Hmt : 0 < minTrain) (Htl : 0 < testLen) (Hst : 0 < step).
Context (Hmax : t_ns end_ - t_ns start + step < 2 ^ 63).
Context (Hfit : minTrain + testLen <= t_ns end_ - t_ns start).

(** The index of the last split. *)
Definition last_walk : Z := (t_ns end_ - t_ns start - minTrain - testLen) / step.

Lemma last_walk_spec (i : Z) : 0 <= i →
  (minTrain + i * step + testLen <= t_ns end_ - t_ns start ↔ i <= last_walk).
Proof.
  intros Hi. unfold last_walk. set (D := t_ns end_ - t_ns start - minTrain - testLen).
  pose proof (Z.div_mod D step). pose proof (Z.mod_pos_bound D step Hst).
  set (k := D / step) in *. set (r := D mod step) in *. clearbody k r. subst D. split; nia.
Qed.

Lemma walk_split_windows (i : nat) :
  Z.of_nat i <= last_walk + 1 →
  let sp := walk_split start minTrain testLen step i in
  t_ns (End_ (sp_Train sp)) = t_ns start + minTrain + Z.of_nat i * step ∧
  t_ns (End_ (sp_Test sp)) = t_ns start + minTrain + Z.of_nat i * step + testLen.
Proof.
  intros Hi. cbn.
  assert (Hb : minTrain + (Z.of_nat i - 1) * step + testLen <= t_ns end_ - t_ns start ∨ i = 0%nat).
  { destruct i; [by right|]. left. apply last_walk_spec; lia. }
  assert (Hi1 : Z.of_nat i * step < 2 ^ 63) by (destruct Hb as [?| ->]; nia).
  assert (Hi2 : minTrain + Z.of_nat i * step < 2 ^ 63) by (destruct Hb as [?| ->]; nia).
  rewrite (wrap64_small (Z.of_nat i * step)) by nia. rewrite wrap64_small by nia. lia.
Qed.

Lemma walk_loop_all (fuel i : nat) :
  Z.of_nat i <= last_walk + 1 → (Z.to_nat (last_walk + 2 - Z.of_nat i) <= fuel)%nat →
  walk_loop fuel start end_ minTrain testLen step i =
    Some (walk_split start minTrain testLen step <$> seq i (Z.to_nat (last_walk + 1 - Z.of_nat i))).
Proof.
  revert i. induction fuel as [|fuel IH]; intros i Hi Hf; [lia|]. cbn [walk_loop].
  destruct (walk_split_windows i Hi) as [_ He]. unfold After. rewrite He.
  pose proof (last_walk_spec (Z.of_nat i) ltac:(lia)) as Hl.
  destruct (Z.ltb_spec (t_ns end_) (t_ns start + minTrain + Z.of_nat i * step + testLen)).
  - replace (Z.to_nat (last_walk + 1 - Z.of_nat i)) with 0%nat by lia. done.
  - rewrite IH by lia.
    replace (Z.to_nat (last_walk + 1 - Z.of_nat i)) with (S (Z.to_nat (last_walk + 1 - Z.of_nat (S i)))) by lia.
    done.
Qed.
End Walk.

(** ** Combinations *)

(** The sublists of length [k], in lexicographic order. *)
Fixpoint choose {A} (k : nat) (l : list A) : list (list A) :=
  match k, l with
  | O, _ => [[]]
  | S _, [] => []
  | S k', x :: l' => (cons x <$> choose k' l') ++ choose k l'
  end.

Lemma elem_of_choose {A} (k : nat) (l c : list A) :
  c ∈ choose k l ↔ c `sublist_of` l ∧ length c = k.
Proof.
  revert k c. induction l as [|x l IH]; intros [|k] c; cbn.
  - rewrite list_elem_of_singleton. split; [intros ->; split; [constructor|done]|].
    by intros [_ ?%nil_length_inv].
  - split; [set_solver|]. intros [Hs Hl]. apply sublist_nil_r in Hs. by subst.
  - rewrite list_elem_of_singleton. split; [intros ->; split; [apply sublist_nil_l|done]|].
    by intros [_ ?%nil_length_inv].
  - rewrite elem_of_app, list_elem_of_fmap, (IH (S k)). split.
    + intros [(c' & -> & [Hs Hl]%IH)|[Hs Hl]]; cbn; (split; [by constructor|lia]).
    + intros [Hs Hl]. apply sublist_cons_r in Hs as [Hs|(c' & -> & Hs)]; [by right|].
      left. exists c'. rewrite IH. cbn in Hl. split; [done|]. split; [done|lia].
Qed.

(** The first combination of the remaining indices, and when there is none. *)
Lemma choose_seq_nil (k lo m : nat) : (m < k)%nat → choose k (seq lo m) = [].
Proof.
  revert k lo. induction m as [|m IH]; intros [|k] lo Hk; try lia; [done|]. cbn.
  rewrite !IH by lia. done.
Qed.

(** *** What [nextCombination] does to a list *)
Lemma movable_cons x l nn i :
  (S (length l) <= nn)%nat →
  movable (x :: l) nn (S i) =
    match movable l nn i with
    | Some j => Some (S j)
    | None => if decide (x = nn - S (length l))%nat then None else Some 0%nat
    end.
Proof.
  intros Hn. induction i as [|i IH].
  - cbn. replace (nn - S (length l) + 0)%nat with (nn - S (length l))%nat by lia.
    destruct (decide (x = nn - S (length l))%nat) as [->|Hx]; [by rewrite decide_True|].
    rewrite decide_False; [done|congruence].
  - change (movable (x :: l) nn (S (S i))) with
      (if decide (l !! i = Some (nn - S (length l) + S i)%nat) then movable (x :: l) nn (S i) else Some (S i)).
    rewrite IH. cbn [movable].
    replace (nn - S (length l) + S i)%nat with (nn - length l + i)%nat by lia.
    by destruct (decide (l !! i = _)).
Qed.

Definition reset_one (ind : list nat) (jj : nat) : list nat :=
  <[jj := S (default 0%nat (ind !! (jj - 1)%nat))]> ind.

Lemma reset_fold_cons x ind s n :
  (1 <= s)%nat → fold_left reset_one (seq (S s) n) (x :: ind) = x :: fold_left reset_one (seq s n) ind.
Proof.
  revert s ind. induction n as [|n IH]; intros s ind Hs; [done|]. cbn [seq fold_left].
  assert (Hone : reset_one (x :: ind) (S s) = x :: reset_one ind s).
  { unfold reset_one. destruct s as [|s]; [lia|]. cbn. by rewrite !Nat.sub_0_r. }
  rewrite Hone. apply IH. lia.
Qed.

Lemma reset_after_S ii x l : reset_after (S ii) (x :: l) = x :: reset_after ii l.
Proof. unfold reset_after. cbn [length Nat.sub]. apply (reset_fold_cons x l (S ii)). lia. Qed.

Lemma reset_after_0 x l : reset_after 0 (x :: l) = seq x (S (length l)).
Proof.
  revert x. induction l as [|y l IH]; intros x; [done|].
  unfold reset_after. cbn [length Nat.sub seq fold_left]. fold reset_one.
  change (reset_one (x :: y :: l) 1) with (x :: S x :: l).
  rewrite (reset_fold_cons x (S x :: l) 1) by lia.
  specialize (IH (S x)). unfold reset_after in IH. cbn [length Nat.sub] in IH. fold reset_one in IH.
  rewrite Nat.sub_0_r in IH. by rewrite IH.
Qed.

Lemma nextCombination_cons x l nn :
  (S (length l) <= nn)%nat →
  nextCombination (x :: l) nn =
    match nextCombination l nn with
    | Some l' => Some (x :: l')
    | None => if decide (x = nn - S (length l))%nat then None else Some (seq (S x) (S (length l)))
    end.
Proof.
  intros Hn. unfold nextCombination. cbn [length]. rewrite movable_cons by done.
  destruct (movable l nn (length l)) as [j|].
  - change (alter S (S j) (x :: l)) with (x :: alter S j l). by rewrite reset_after_S.
  - destruct (decide _); [done|]. f_equal. apply (reset_after_0 (S x) l).
Qed.

(** Each list is the combination after the one before it. *)
Fixpoint linked (nn : nat) (ls : list (list nat)) : Prop :=
  match ls with
  | [] => False
  | [c] => nextCombination c nn = None
  | c :: (c' :: _) as rest => nextCombination c nn = Some c' ∧ linked nn rest
  end.

Lemma combination_loop_linked nn fuel c ls :
  linked nn (c :: ls) → (length ls < fuel)%nat → combination_loop fuel c nn = Some (c :: ls).
Proof.
  revert c ls. induction fuel as [|fuel IH]; intros c ls Hl Hf; [lia|]. cbn [combination_loop].
  destruct ls as [|c' ls]; cbn [linked] in Hl; [by rewrite Hl|]. destruct Hl as [-> Hl].
  cbn in Hf. by rewrite (IH c' ls Hl) by lia.
Qed.

Lemma linked_prefix nn lo k L rest :
  (S k <= nn)%nat → Forall (λ c : list nat, length c = k) L → linked nn L →
  match rest with
  | [] => lo = (nn - S k)%nat
  | c :: _ => lo ≠ (nn - S k)%nat ∧ linked nn rest ∧ c = seq (S lo) (S k)
  end →
  linked nn ((cons lo <$> L) ++ rest).
Proof.
  intros Hk HL Hl Hrest. induction L as [|c L IH]; [done|].
  apply Forall_cons in HL as [Hc HL]. destruct L as [|c' L].
  - cbn in Hl |- *. destruct rest as [|r rest]; rewrite nextCombination_cons, Hl, Hc by lia.
    + by rewrite decide_True.
    + destruct Hrest as (Hne & Hlr & ->). by rewrite decide_False.
  - destruct Hl as [Hn Hl]. split; [|by apply IH].
    by rewrite nextCombination_cons, Hn by lia.
Qed.

Lemma choose_linked (nn k lo m : nat) :
  (k <= m)%nat → (lo + m = nn)%nat →
  ∃ ls, choose k (seq lo m) = seq lo k :: ls ∧ linked nn (seq lo k :: ls).
Proof.
  revert k lo. induction m as [|m IH]; intros [|k] lo Hk Hn; try lia; try by exists [].
  cbn [seq choose]. destruct (IH k (S lo)) as (ls & Hc & Hl); [lia|lia|].
  assert (Hlen : Forall (λ c : list nat, length c = k) (choose k (seq (S lo) m))).
  { apply Forall_forall. by intros c [_ Hc']%elem_of_choose. }
  exists ((cons lo <$> ls) ++ choose (S k) (seq (S lo) m)).
  split; [by rewrite Hc|]. change (seq lo (S k)) with (lo :: seq (S lo) k).
  change ((lo :: seq (S lo) k) :: (cons lo <$> ls) ++ choose (S k) (seq (S lo) m))
    with ((cons lo <$> (seq (S lo) k :: ls)) ++ choose (S k) (seq (S lo) m)).
  rewrite Hc in Hlen. apply (linked_prefix nn lo k); [lia|done|done|].
  destruct (decide (S k <= m)%nat) as [Hle|Hgt].
  - destruct (IH (S k) (S lo)) as (ls' & Hc' & Hl'); [lia|lia|]. rewrite Hc'. split; [lia|done].
  - rewrite choose_seq_nil by lia. lia.
Qed.

(** ** Properties of splits *)
Section Splits.
Context `{GoSort}.

(** Subtracting ranges is exact.  For exclusions that are not inverted and
    start no later than the window ends, in any order and overlapping or not,
    the remaining segments cover an instant exactly when the window does and no
    exclusion does. *)
Theorem SubtractRanges_exact (window : DateRange) (exclude : list DateRange) :
  Forall (λ ex, t_ns (Start ex) <= t_ns (End_ ex) ∧ t_ns (Start ex) <= t_ns (End_ window)) exclude →
  ∀ t, covered (SubtractRanges window exclude) t ↔ inside window t ∧ ¬ covered exclude t.
Proof.
  intros Hp t. destruct exclude as [|e0 rest] eqn:He; cbn [SubtractRanges].
  { autorewrite with cover. tauto. }
  rewrite <-He in *. clear e0 rest He. set (less := λ a b : DateRange, Before (Start a) (Start b)).
  pose proof (sort_slice_perm less exclude) as Hperm.
  assert (Hsorted : StronglySorted (λ a b, t_ns (Start a) <= t_ns (Start b)) (sort_slice less exclude)).
  { eapply StronglySorted_mono; [|apply (sort_slice_sorted less)]; unfold in_order, less, Before; intros; lia. }
  assert (Hp' : Forall (proper_in window) (sort_slice less exclude)) by by rewrite Hperm.
  pose proof (subtract_fold_inv window _ [] [] (Start window) Hp' Hsorted) as Hinv. cbn [app] in Hinv.
  destruct (fold_left (subtract_step window) (sort_slice less exclude) ([], Start window)) as [result cursor].
  destruct Hinv as [Hlow Hhigh Hres Hrest _].
  { constructor. }
  { split; try done; try lia.
    - intros u. autorewrite with cover. lia.
    - intros u _. autorewrite with cover. tauto.
    - intros u. by autorewrite with cover. }
  assert (Hcov : covered exclude t ↔ covered (sort_slice less exclude) t) by by apply covered_perm.
  rewrite Hcov. specialize (Hres t). specialize (Hrest t). unfold Before.
  destruct (Z.ltb_spec (t_ns cursor) (t_ns (End_ window))); autorewrite with cover; rewrite Hres; unfold inside; cbn [Start End_].
  all: destruct (decide (t_ns (Start window) <= t < t_ns cursor)) as [Ht|Ht]; split.
  - intros [[_ ?]|?]; (split; [lia|]); [done|]. apply Hrest; lia.
  - tauto.
  - intros [?|?]; [tauto|]. split; [lia|]. apply Hrest; lia.
  - intros [? _]. right. lia.
  - intros [_ ?]. split; [lia|done].
  - tauto.
  - tauto.
  - lia.
Qed.

(** The folds of a k-fold split partition the range.  For at least two
    folds over a range of less than 2^63 nanoseconds the code returns one split
    per fold; every instant of the range is tested by exactly one of them; and
    what remains of a split's training window after its exclusions is the range
    without its test window. *)
Theorem KFold_partitions (start end_ : Time) (folds : Z) :
  2 <= folds → t_ns start <= t_ns end_ → t_ns end_ - t_ns start < 2 ^ 63 →
  ∃ splits, KFold start end_ folds = Ok splits ∧ length splits = Z.to_nat folds ∧
    (∀ t, inside (mkRange start end_) t →
       ∃ i sp, splits !! i = Some sp ∧ inside (sp_Test sp) t ∧
         ∀ j sp', splits !! j = Some sp' → inside (sp_Test sp') t → j = i) ∧
    (∀ sp t, sp ∈ splits → covered (SubtractRanges (sp_Train sp) (sp_Exclude sp)) t ↔
       inside (mkRange start end_) t ∧ ¬ inside (sp_Test sp) t).
Proof.
  intros Hf Hle Hmax. unfold KFold. destruct (Z.ltb_spec folds 2); [lia|].
  eexists. split; [done|]. split; [by rewrite !length_fmap, length_seq|].
  set (d := (t_ns end_ - t_ns start) / folds).
  assert (Hd : 0 <= d) by (apply Z.div_pos; lia).
  assert (Hd' : folds * d <= t_ns end_ - t_ns start) by (apply Z.mul_div_le; lia).
  split.
  - intros t [Ht Ht']. cbn in Ht, Ht'.
    set (q := if decide (d = 0) then folds - 1 else Z.min (folds - 1) ((t - t_ns start) / d)).
    assert (Hq : 0 <= q < folds).
    { unfold q. case_decide; [lia|]. pose proof (Z.div_pos (t - t_ns start) d). lia. }
    assert (Hiff : ∀ j, 0 <= j < folds →
      inside (sp_Test (one_fold start end_ (Z.quot (Sub end_ start) folds) folds j)) t ↔ j = q).
    { intros j Hj. destruct (one_fold_test start end_ folds j) as [Hs He]; try lia. fold d in Hs, He.
      unfold inside. rewrite Hs, He. unfold q. case_decide as Hz.
      + rewrite Hz in *. destruct (Z.eqb_spec j (folds - 1)); lia.
      + pose proof (Z.div_pos (t - t_ns start) d). pose proof (Z.div_mod (t - t_ns start) d Hz).
        pose proof (Z.mod_pos_bound (t - t_ns start) d).
        set (k := (t - t_ns start) / d) in *. set (r := (t - t_ns start) mod d) in *. clearbody k r.
        destruct (Z.eqb_spec j (folds - 1)); split; try lia; nia. }
    exists (Z.to_nat q). eexists. rewrite lookup_folds, Z2Nat.id by lia. split; [split; [lia|done]|].
    rewrite Hiff by lia. split; [done|]. intros j sp [Hj ->]%lookup_folds. rewrite Hiff by lia. lia.
  - intros sp t Hsp. apply list_elem_of_lookup in Hsp as [i [Hi ->]%lookup_folds].
    destruct (one_fold_test start end_ folds (Z.of_nat i)) as [Hs He]; try lia. fold d in Hs, He.
    rewrite SubtractRanges_exact.
    + cbn [sp_Train sp_Exclude one_fold]. by autorewrite with cover.
    + apply Forall_singleton. cbn [sp_Train sp_Exclude one_fold] in *. cbn [sp_Test one_fold] in Hs, He.
      rewrite Hs, He. cbn. destruct (Z.eqb_spec (Z.of_nat i) (folds - 1)); nia.
Qed.

(** Walk-forward terminates with every window inside the range.  For
    positive lengths that fit the range, and a range and step whose sum is less
    than 2^63 nanoseconds, the loop ends with one split for each position of
    the test window: split [i] trains from the start for [minTrain] plus [i]
    steps, tests the [testLen] that follow, ends within the range, and one more
    step would not. *)
Theorem WalkForward_windows (start end_ : Time) (minTrain testLen step : Z) (fuel : nat) :
  0 < minTrain → 0 < testLen → 0 < step → minTrain + testLen <= t_ns end_ - t_ns start →
  t_ns end_ - t_ns start + step < 2 ^ 63 → t_ns end_ - t_ns start < Z.of_nat fuel →
  ∃ splits, WalkForward fuel start end_ minTrain testLen step = Ok (Some splits) ∧ splits ≠ [] ∧
    t_ns end_ < t_ns start + minTrain + Z.of_nat (length splits) * step + testLen ∧
    ∀ i sp, splits !! i = Some sp →
      Start (sp_Train sp) = start ∧ Start (sp_Test sp) = End_ (sp_Train sp) ∧
      t_ns (End_ (sp_Train sp)) = t_ns start + minTrain + Z.of_nat i * step ∧
      t_ns (End_ (sp_Test sp)) = t_ns (End_ (sp_Train sp)) + testLen ∧
      t_ns (End_ (sp_Test sp)) <= t_ns end_.
Proof.
  intros Hmt Htl Hst Hfit Hmax Hfuel. unfold WalkForward.
  rewrite !(proj2 (Z.leb_gt _ _)) by done. cbn [orb].
  rewrite wrap64_small by lia. unfold Sub. rewrite Z.min_r, Z.max_r by lia.
  replace (minTrain + testLen >? t_ns end_ - t_ns start) with false by lia.
  pose proof (last_walk_spec start end_ minTrain testLen step Hst) as Hlast.
  set (n := last_walk start end_ minTrain testLen step) in *.
  assert (Hn : 0 <= n) by (apply Hlast; lia). pose proof (proj2 (Hlast n Hn) ltac:(lia)) as Hn1.
  assert (Hn2 : ¬ minTrain + (n + 1) * step + testLen <= t_ns end_ - t_ns start) by (rewrite Hlast by lia; lia).
  rewrite (walk_loop_all start end_ minTrain testLen step Hmt Htl Hst Hmax Hfit fuel 0) by (fold n; nia).
  fold n. eexists. split; [done|]. rewrite Z.sub_0_r, length_fmap, length_seq.
  split; [|split; [lia|]].
  - replace (Z.to_nat (n + 1)) with (S (Z.to_nat n)) by lia. done.
  - intros i sp. rewrite list_lookup_fmap.
    destruct (decide (i < Z.to_nat (n + 1))%nat); [|by rewrite lookup_seq_ge by lia].
    rewrite lookup_seq_lt by lia. intros [= <-]. cbn [Nat.add].
    destruct (walk_split_windows start end_ minTrain testLen step Hmt Htl Hst Hmax Hfit i) as [Htr Hte];
      [fold n; lia|].
    rewrite Htr, Hte. pose proof (proj2 (Hlast (Z.of_nat i) ltac:(lia)) ltac:(lia)).
    repeat split; lia.
Qed.

(** Leave-n-out visits every choice of scenarios once.  With at least as
    many rounds as there are choices, the loop over [nextCombination] ends, and
    the splits are those of the [holdOut]-element sublists of the scenario
    indices in lexicographic order: the reference enumeration [choose]. *)
Theorem ScenarioLeaveNOut_enumerates (scenarios : list Scenario) (holdOut : Z) (fuel : nat) :
  1 <= holdOut <= Z.of_nat (length scenarios) →
  (length (choose (Z.to_nat holdOut) (seq 0 (length scenarios))) <= fuel)%nat →
  ScenarioLeaveNOut fuel scenarios holdOut =
    Ok (Some (leave_out_split scenarios (span_of scenarios) <$>
                choose (Z.to_nat holdOut) (seq 0 (length scenarios)))) ∧
  ∀ c, c ∈ choose (Z.to_nat holdOut) (seq 0 (length scenarios)) ↔
       c `sublist_of` seq 0 (length scenarios) ∧ length c = Z.to_nat holdOut.
Proof.
  intros Hh Hf. split; [|intros c; apply elem_of_choose].
  unfold ScenarioLeaveNOut. destruct (Z.ltb_spec holdOut 1); [lia|].
  replace (holdOut >? Z.of_nat (length scenarios)) with false by lia.
  destruct (choose_linked (length scenarios) (Z.to_nat holdOut) 0 (length scenarios)) as (ls & Hc & Hl); [lia|lia|].
  rewrite Hc in *. cbn in Hf. by rewrite (combination_loop_linked _ _ _ ls Hl) by lia.
Qed.
End Splits.

(** ** Sweeps *)
Section WrapSigned.
Context (w : Z) (Hw : 0 < w).

Lemma wrap_signed_range z : - 2 ^ (w - 1) <= wrap_signed w z < 2 ^ (w - 1).
Proof.
  unfold wrap_signed. assert (2 ^ w = 2 * 2 ^ (w - 1)) by (rewrite <-Z.pow_succ_r by lia; f_equal; lia).
  pose proof (Z.mod_pos_bound (z + 2 ^ (w - 1)) (2 ^ w)). lia.
Qed.

Lemma wrap_signed_cong a b : a mod 2 ^ w = b mod 2 ^ w → wrap_signed w a = wrap_signed w b.
Proof.
  intros Hab. unfold wrap_signed. by rewrite Zplus_mod, Hab, <-Zplus_mod.
Qed.

Lemma wrap_signed_mod z : wrap_signed w z mod 2 ^ w = z mod 2 ^ w.
Proof.
  unfold wrap_signed. rewrite Zminus_mod_idemp_l. f_equal. lia.
Qed.

Lemma wrap_signed_small z : - 2 ^ (w - 1) <= z < 2 ^ (w - 1) → wrap_signed w z = z.
Proof.
  intros Hz. unfold wrap_signed. assert (2 ^ w = 2 * 2 ^ (w - 1)) by (rewrite <-Z.pow_succ_r by lia; f_equal; lia).
  rewrite Z.mod_small; lia.
Qed.

(** The wrapped grid point is the wrap of the grid point. *)
Lemma wrap_signed_grid min step ii :
  wrap_signed w (min + wrap_signed w (wrap_signed w ii * step)) = wrap_signed w (min + ii * step).
Proof.
  apply wrap_signed_cong. rewrite Zplus_mod, wrap_signed_mod, <-Zplus_mod.
  rewrite Zplus_mod, Zmult_mod, wrap_signed_mod, <-Zmult_mod, <-Zplus_mod. done.
Qed.
End WrapSigned.

(** Every choice of one element per list, the first list varying slowest. *)
Fixpoint choices {A} (ls : list (list A)) : list (list A) :=
  match ls with
  | [] => [[]]
  | l :: ls => l ≫= λ x, cons x <$> choices ls
  end.

Lemma list_bind_assoc' {A B C} (f : A → list B) (g : B → list C) (l : list A) :
  (l ≫= f) ≫= g = l ≫= λ x, f x ≫= g.
Proof. induction l as [|x l IH]; [done|]. cbn. by rewrite bind_app, IH. Qed.

Lemma list_fmap_of_bind {A B C} (f : B → C) (g : A → list B) (l : list A) :
  f <$> (l ≫= g) = l ≫= λ x, f <$> g x.
Proof. induction l as [|x l IH]; [done|]. cbn. by rewrite fmap_app, IH. Qed.

Section SweepProps.
Context {F : Type} `{Num F}.

Definition apply_all (sweeps : list ParamSweep) (vals : list string) (cfg : RunConfig F) : RunConfig F :=
  fold_left (λ c p, apply_value p.1 p.2 c) (zip sweeps vals) cfg.

Lemma expand_all (sweeps : list ParamSweep) (base : list (RunConfig F)) :
  fold_left expand sweeps base =
  base ≫= λ cfg, (λ vals, apply_all sweeps vals cfg) <$> choices (ps_values <$> sweeps).
Proof.
  revert base. induction sweeps as [|sweep sweeps IH]; intros base; cbn [fold_left].
  - cbn. induction base as [|c base IHb]; [done|]. cbn. by f_equal.
  - rewrite IH. unfold expand. rewrite list_bind_assoc'. apply list_bind_ext; [|done]. intros cfg.
    cbn. rewrite list_fmap_bind, list_fmap_of_bind. apply list_bind_ext; [|done]. intros v.
    by rewrite <-list_fmap_compose.
Qed.

Lemma params_fold (sweeps : list ParamSweep) (vals : list string) (cfg : RunConfig F) (field : string) :
  Forall (λ s, ps_isPreset s = false) sweeps → field ∉ ps_field <$> sweeps →
  rc_Params (apply_all sweeps vals cfg) !! field = rc_Params cfg !! field.
Proof.
  intros Hp. revert vals cfg. induction Hp as [|s sweeps Hs _ IH]; intros vals cfg Hn; [done|].
  destruct vals as [|v vals]; [done|]. rewrite fmap_cons, not_elem_of_cons in Hn. destruct Hn as [Hne Hn].
  change (apply_all (s :: sweeps) (v :: vals) cfg) with (apply_all sweeps vals (apply_value s v cfg)).
  rewrite IH by done. unfold apply_value. rewrite Hs. cbn. by rewrite lookup_insert_ne.
Qed.

Lemma params_apply_all (sweeps : list ParamSweep) (vals : list string) (cfg : RunConfig F) i s v :
  Forall (λ s, ps_isPreset s = false) sweeps → NoDup (ps_field <$> sweeps) →
  sweeps !! i = Some s → vals !! i = Some v →
  rc_Params (apply_all sweeps vals cfg) !! ps_field s = Some v.
Proof.
  intros Hp. revert i vals cfg. induction Hp as [|s0 sweeps Hs Hf IH]; intros i vals cfg Hnd Hi Hv; [done|].
  destruct vals as [|v0 vals]; [done|]. rewrite fmap_cons, NoDup_cons in Hnd. destruct Hnd as [Hn Hnd].
  change (apply_all (s0 :: sweeps) (v0 :: vals) cfg) with (apply_all sweeps vals (apply_value s0 v0 cfg)).
  destruct i as [|i]; cbn in Hi, Hv; [|by eapply IH].
  injection Hi as <-. injection Hv as <-. rewrite params_fold by done.
  unfold apply_value. rewrite Hs. cbn. by rewrite lookup_insert_eq.
Qed.

Lemma length_choices {A} (ls : list (list A)) :
  length (choices ls) = foldr Nat.mul 1%nat (length <$> ls).
Proof.
  induction ls as [|l ls IH]; [done|]. cbn [choices foldr fmap list_fmap]. rewrite <-IH.
  induction l as [|x l IHl]; [done|]. cbn. rewrite length_app, length_fmap. by rewrite IHl.
Qed.

(** The run matrix is the full cross product.  From one base configuration
    [CrossProduct] makes one configuration per choice of a value for every
    sweep, the first sweep varying slowest; when the sweeps vary distinct
    parameter fields, the configuration of a choice sets each field to its
    chosen value and leaves the other parameters as they were. *)
Theorem CrossProduct_is_product (sweeps : list ParamSweep) (cfg : RunConfig F) :
  CrossProduct [cfg] sweeps = (λ vals, apply_all sweeps vals cfg) <$> choices (ps_values <$> sweeps) ∧
  length (CrossProduct [cfg] sweeps) = foldr Nat.mul 1%nat (length ∘ ps_values <$> sweeps) ∧
  (Forall (λ s, ps_isPreset s = false) sweeps → NoDup (ps_field <$> sweeps) →
   ∀ vals i s v field,
     (sweeps !! i = Some s → vals !! i = Some v →
        rc_Params (apply_all sweeps vals cfg) !! ps_field s = Some v) ∧
     (field ∉ ps_field <$> sweeps →
        rc_Params (apply_all sweeps vals cfg) !! field = rc_Params cfg !! field)).
Proof.
  assert (Heq : CrossProduct [cfg] sweeps =
    (λ vals, apply_all sweeps vals cfg) <$> choices (ps_values <$> sweeps)).
  { destruct sweeps as [|s sweeps]; [done|]. unfold CrossProduct. rewrite expand_all. cbn. by rewrite app_nil_r. }
  split; [done|]. split.
  - rewrite Heq, length_fmap, length_choices, <-list_fmap_compose. done.
  - intros Hp Hnd vals i s v field. split; intros; [by eapply params_apply_all|by apply params_fold].
Qed.
End SweepProps.

(** *** Ranges of an integer parameter *)

(** A grid point past the maximum is at least one past it, and [SweepRange]
    forgives less than that for a step of at most 10^9. *)
Lemma past_max_not_close (v max step : Z) :
  max < v → step <= 1000000000 →
  flt (fsub (of_Z v) (of_Z max)) (fmul (of_Z step) (lit 1 1000000000)) = false.
Proof.
  intros Hv Hs. unfold lit. cbn [flt fsub fmul fdiv of_Z Num_exact xlt xadd xneg xmul xdiv].
  replace (qc_eqb (qc_of_Z 1000000000) 0) with false by (symmetry; by apply qc_eqb_false).
  apply qc_ltb_false. unfold Qcle.
  rewrite this_mul, this_add, this_opp, !this_of_Z. unfold Qcdiv. rewrite this_mul.
  replace (Qcanon.this (Qcinv (qc_of_Z 1000000000))) with (1 # 1000000000)%Q by (vm_compute; reflexivity).
  rewrite this_of_Z. unfold Qle, Qmult, Qplus, Qopp, inject_Z. cbn. lia.
Qed.
Section IntSweep.
Context (w : Z) (Hw : 0 < w).
Local Instance int_numeric : Numeric Z xq := signed_int w.

Lemma sweep_loop_grid (min max step : Z) (fuel : nat) (i : nat) :
  - 2 ^ (w - 1) <= min → min <= max → 0 < step → step <= 1000000000 → max + step < 2 ^ (w - 1) →
  let n := (max - min) / step in
  Z.of_nat i <= n + 1 → (Z.to_nat (n + 2 - Z.of_nat i) <= fuel)%nat →
  sweep_loop fuel min max step (Z.of_nat i) =
    Some ((λ k, pretty (min + Z.of_nat k * step)) <$> seq i (Z.to_nat (n + 1 - Z.of_nat i))).
Proof.
  intros Hmin Hle Hs Hs9 Hmax. cbn zeta. set (n := (max - min) / step).
  assert (Hn : min + n * step <= max < min + (n + 1) * step).
  { pose proof (Z.div_mod (max - min) step). pose proof (Z.mod_pos_bound (max - min) step Hs). fold n in H. nia. }
  assert (Hn0 : 0 <= n) by (apply Z.div_pos; lia). clearbody n.
  revert i. induction fuel as [|fuel IH]; intros i Hi Hf; [lia|]. cbn [sweep_loop].
  cbn [n_add n_mul n_of_int n_gt int_numeric signed_int n_format n_float64].
  rewrite wrap_signed_grid, wrap_signed_small by nia.
  destruct (decide (Z.of_nat i <= n)) as [Hin|Hin].
  - replace (min + Z.of_nat i * step >? max) with false by nia.
    replace (Z.of_nat i + 1) with (Z.of_nat (S i)) by lia. rewrite IH by lia.
    replace (Z.to_nat (n + 1 - Z.of_nat i)) with (S (Z.to_nat (n + 1 - Z.of_nat (S i)))) by lia. done.
  - assert (Z.of_nat i = n + 1) as Hi1 by lia. rewrite Hi1.
    replace (min + (n + 1) * step >? max) with true by nia.
    replace (Z.to_nat (n + 1 - (n + 1))) with 0%nat by lia. cbn [seq fmap list_fmap].
    by rewrite past_max_not_close by nia.
Qed.

(** An integer sweep lists its grid.  For a signed integer type of [w]
    bits, a step of at most 10^9 and a maximum at least one step below the
    largest value of the type, [SweepRange] terminates and its values are the
    minimum plus every multiple of the step that does not pass the maximum. *)
Theorem SweepRange_lists_grid (field : string) (min max step : Z) (fuel : nat) :
  - 2 ^ (w - 1) <= min → min <= max → 0 < step → step <= 1000000000 → max + step < 2 ^ (w - 1) →
  max - min + 2 <= Z.of_nat fuel →
  ps_values <$> SweepRange fuel field min max step =
    Some ((λ k : nat, pretty (min + Z.of_nat k * step)) <$> seq 0 (Z.to_nat ((max - min) / step + 1))) ∧
  ∀ v, (∃ k : nat, (k < Z.to_nat ((max - min) / step + 1))%nat ∧ v = min + Z.of_nat k * step) ↔
       min <= v <= max ∧ (v - min) mod step = 0.
Proof.
  intros Hmin Hle Hs Hs9 Hmax Hfuel.
  pose proof (Z.div_mod (max - min) step). pose proof (Z.mod_pos_bound (max - min) step Hs).
  pose proof (Z.div_pos (max - min) step). set (n := (max - min) / step) in *.
  split.
  - unfold SweepRange. cbn [n_le n_of_int int_numeric signed_int].
    rewrite wrap_signed_small by lia. rewrite (proj2 (Z.leb_gt _ _)) by done.
    pose proof (sweep_loop_grid min max step fuel 0 Hmin Hle Hs Hs9 Hmax) as Hl. cbn zeta in Hl. fold n in Hl.
    change (Z.of_nat 0) with 0 in Hl. rewrite Hl by nia. cbn. by rewrite Z.sub_0_r.
  - intros v. split.
    + intros (k & Hk & ->). replace (min + Z.of_nat k * step - min) with (Z.of_nat k * step) by lia.
      rewrite Z.mod_mul by lia. nia.
    + intros [Hv Hm]. pose proof (Z.div_mod (v - min) step ltac:(lia)) as Hd. rewrite Hm in Hd.
      pose proof (Z.div_pos (v - min) step). set (k := (v - min) / step) in *. clearbody k n.
      exists (Z.to_nat k). rewrite Z2Nat.id by lia. split; [|lia]. nia.
Qed.

(** A sweep up to the largest value of its type never ends.  Every grid
    point wraps around to at most that maximum, so the loop is still running
    after any number of rounds. *)
Theorem SweepRange_diverges_at_max (field : string) (min step : Z) (fuel : nat) :
  0 < step → step < 2 ^ (w - 1) → SweepRange fuel field min (2 ^ (w - 1) - 1) step = None.
Proof.
  intros Hs Hs'. unfold SweepRange. cbn [n_le n_of_int int_numeric signed_int].
  rewrite wrap_signed_small by lia. rewrite (proj2 (Z.leb_gt _ _)) by done.
  assert (Hl : ∀ ii, sweep_loop fuel min (2 ^ (w - 1) - 1) step ii = None); [|by rewrite Hl].
  induction fuel as [|fuel IH]; intros ii; [done|]. cbn [sweep_loop].
  cbn [n_add n_mul n_of_int n_gt int_numeric signed_int]. rewrite wrap_signed_grid.
  pose proof (wrap_signed_range w Hw (min + ii * step)) as Hr.
  destruct (Z.gtb_spec (wrap_signed w (min + ii * step)) (2 ^ (w - 1) - 1)); [lia|]. by rewrite IH.
Qed.
End IntSweep.

(** ** Witnesses *)
Section Witnesses.
Local Existing Instance stable_sort_slice.
#[local] Abbreviation days a b := (mkRange (day a) (day b)).

(** An exclusion that starts after the window has ended leaves a segment that
    runs past the window: the start of an exclusion is clamped to the window's
    start but not to its end. *)
Theorem SubtractRanges_past_window :
  SubtractRanges (days 0 10) [days 20 30] = [days 0 20].
Proof. reflexivity. Qed.

Lemma SubtractRanges_exact_witness :
  covered (SubtractRanges (days 0 10) [days 5 7; days 2 4]) (t_ns (day 4)) ∧
  ¬ covered (SubtractRanges (days 0 10) [days 5 7; days 2 4]) (t_ns (day 6)).
Proof.
  assert (Hp : Forall (λ ex, t_ns (Start ex) <= t_ns (End_ ex) ∧
    t_ns (Start ex) <= t_ns (End_ (days 0 10))) [days 5 7; days 2 4]) by (repeat constructor; vm_compute; done).
  split; rewrite (SubtractRanges_exact (days 0 10) [days 5 7; days 2 4] Hp); unfold covered;
    rewrite !Exists_cons, Exists_nil; unfold inside; vm_compute; intuition congruence.
Defined.

Lemma KFold_partitions_witness :
  ∃ splits, KFold (day 0) (day 10) 4 = Ok splits ∧ length splits = 4%nat ∧
    ∃ i sp, splits !! i = Some sp ∧ inside (sp_Test sp) (t_ns (day 6)).
Proof.
  destruct (KFold_partitions (day 0) (day 10) 4) as (splits & Hk & Hl & Hcov & _); [done|done|done|].
  exists splits. split; [done|]. split; [done|].
  destruct (Hcov (t_ns (day 6))) as (i & sp & Hi & Hin & _); [by split|]. by exists i, sp.
Defined.

Lemma WalkForward_windows_witness :
  ∃ splits, WalkForward (Z.to_nat 1000) (mkTime 0 "UTC") (mkTime 100 "UTC") 50 20 10 = Ok (Some splits) ∧
    splits ≠ [] ∧ ∀ i sp, splits !! i = Some sp → t_ns (End_ (sp_Test sp)) <= 100.
Proof.
  destruct (WalkForward_windows (mkTime 0 "UTC") (mkTime 100 "UTC") 50 20 10 (Z.to_nat 1000))
    as (splits & Hw & Hne & _ & Hall); try (by vm_compute).
  exists splits. split; [done|]. split; [done|]. intros i sp Hi. by destruct (Hall i sp Hi) as (_ & _ & _ & _ & ?).
Defined.

Definition crises : list Scenario :=
  [mkScenario "a" "" (day 0) (day 5); mkScenario "b" "" (day 3) (day 8); mkScenario "c" "" (day 9) (day 12)].

Lemma ScenarioLeaveNOut_enumerates_witness :
  ∃ splits, ScenarioLeaveNOut 10 crises 2 = Ok (Some splits) ∧ length splits = 3%nat.
Proof.
  destruct (ScenarioLeaveNOut_enumerates crises 2 10) as [He _]; [by vm_compute|by vm_compute; lia|].
  eexists. split; [exact He|]. by vm_compute.
Defined.

Lemma SweepRange_lists_grid_witness :
  ps_values <$> SweepRange (H0 := signed_int (F := xq) 8) (Z.to_nat 202) "lookback" (-100) 60 60 =
    Some ["-100"; "-40"; "20"]%string.
Proof.
  destruct (SweepRange_lists_grid 8 ltac:(done) "lookback" (-100) 60 60 (Z.to_nat 202)) as [He _];
    try (by vm_compute).
Defined.

Lemma SweepRange_diverges_at_max_witness :
  SweepRange (H0 := signed_int (F := xq) 8) 1000 "lookback" 1 127 1 = None.
Proof. exact (SweepRange_diverges_at_max 8 ltac:(done) "lookback" 1 1 1000 eq_refl eq_refl). Defined.
End Witnesses.
