(* ===== verification/GaussianProps.v ===== *)
(** * GaussianProps: the Gaussian process solves its system

    The factor of the covariance matrix is exact where the roots are, the two
    substitutions solve the system of the factor, and so the fitted process
    predicts the observed scores. *)
From Stdlib Require Import ZArith Qcanon Field Lia.
From stdpp Require Import base list gmap strings pretty.
From S2P Require Import Prelude Num GoTime Indicators Resampling Study Search.
Local Open Scope Qc_scope.

(** ** Vectors and sums of rationals *)
Definition fin (v : list Qc) : list xq := Fin <$> v.
Definition qentry (v : list Qc) (i : nat) : Qc := default 0 (v !! i).
Definition qrow (m : list (list Qc)) (i : nat) : list Qc := default [] (m !! i).
Definition qsum_of (l : list nat) (f : nat → Qc) : Qc := qsum (f <$> l).

Lemma Fin_inj (x y : Qc) : Fin x = Fin y → x = y.
Proof. congruence. Qed.
Lemma fin_app v w : fin (v ++ w) = fin v ++ fin w.
Proof. apply fmap_app. Qed.
Lemma length_fin v : length (fin v) = length v.
Proof. apply length_fmap. Qed.
Lemma entry_fin v i : entry (fin v) i = Fin (qentry v i).
Proof. unfold entry, qentry, fin. rewrite list_lookup_fmap. by destruct (v !! i). Qed.
Lemma row_of_fin m i : row_of (fin <$> m) i = fin (qrow m i).
Proof. unfold row_of, qrow. rewrite list_lookup_fmap. by destruct (m !! i). Qed.
Lemma sum_of_fin l f (g : nat → xq) : (∀ k, k ∈ l → g k = Fin (f k)) → sum_of l g = Fin (qsum_of l f).
Proof.
  intros Hg. unfold sum_of, qsum_of. rewrite <-(fsum_exact (f <$> l)). unfold fsum, fsum_from.
  generalize (of_Z 0 : xq). revert Hg. induction l as [|k l IH]; intros Hg z; [done|]. cbn.
  rewrite Hg by set_solver. apply IH. intros j Hj. apply Hg. set_solver.
Qed.

Lemma sum_of_ext l (f g : nat → xq) : (∀ k, k ∈ l → f k = g k) → sum_of l f = sum_of l g.
Proof.
  intros Hfg. unfold sum_of. generalize (of_Z 0 : xq). revert Hfg. induction l as [|k l IH]; intros Hfg z; [done|]. cbn.
  rewrite Hfg by set_solver. apply IH. intros j Hj. apply Hfg. set_solver.
Qed.
Lemma entry_app_l (v w : list xq) i : (i < length v)%nat → entry (v ++ w) i = entry v i.
Proof. intros Hi. unfold entry. by rewrite lookup_app_l. Qed.
Lemma qentry_app_l v w i : (i < length v)%nat → qentry (v ++ w) i = qentry v i.
Proof. intros Hi. unfold qentry. by rewrite lookup_app_l. Qed.
Lemma qentry_snoc v x : qentry (v ++ [x]) (length v) = x.
Proof. unfold qentry. by rewrite list_lookup_middle. Qed.
Lemma qentry_zeros v n i : (length v <= i)%nat → qentry (v ++ replicate n 0) i = 0.
Proof.
  intros Hi. unfold qentry. rewrite lookup_app_r by done. destruct (replicate n 0 !! _) as [x|] eqn:E; [|done].
  by apply lookup_replicate in E as [-> _].
Qed.
Lemma qrow_app_l m w i : (i < length m)%nat → qrow (m ++ w) i = qrow m i.
Proof. intros Hi. unfold qrow. by rewrite lookup_app_l. Qed.
Lemma qrow_snoc m x : qrow (m ++ [x]) (length m) = x.
Proof. unfold qrow. by rewrite list_lookup_middle. Qed.

Lemma qsum_of_app l1 l2 f : qsum_of (l1 ++ l2) f = qsum_of l1 f + qsum_of l2 f.
Proof. unfold qsum_of. by rewrite fmap_app, qsum_app. Qed.
Lemma qsum_of_ext l f g : (∀ k, k ∈ l → f k = g k) → qsum_of l f = qsum_of l g.
Proof. intros Hfg. unfold qsum_of. f_equal. apply list_fmap_ext. intros i k Hk. by apply Hfg, list_elem_of_lookup_2 in Hk || (apply Hfg; by eapply list_elem_of_lookup_2). Qed.
Lemma qsum_of_zero l f : (∀ k, k ∈ l → f k = 0) → qsum_of l f = 0.
Proof.
  unfold qsum_of. induction l as [|k l IH]; intros Hf; [done|]. cbn. rewrite (Hf k) by set_solver.
  rewrite IH by set_solver. ring.
Qed.
Lemma qsum_of_scale l c f : qsum_of l (λ k, c * f k) = c * qsum_of l f.
Proof. unfold qsum_of. induction l as [|k l IH]; cbn; [ring|]. rewrite IH. ring. Qed.
Lemma qsum_of_plus l f g : qsum_of l (λ k, f k + g k) = qsum_of l f + qsum_of l g.
Proof. unfold qsum_of. induction l as [|k l IH]; cbn; [ring|]. rewrite IH. ring. Qed.
Lemma qsum_of_swap l1 l2 (f : nat → nat → Qc) :
  qsum_of l1 (λ i, qsum_of l2 (f i)) = qsum_of l2 (λ j, qsum_of l1 (λ i, f i j)).
Proof.
  induction l1 as [|i l1 IH].
  - symmetry. by apply qsum_of_zero.
  - change (qsum_of (i :: l1) (λ i, qsum_of l2 (f i))) with (qsum_of l2 (f i) + qsum_of l1 (λ i, qsum_of l2 (f i))).
    rewrite IH, <-qsum_of_plus. by apply qsum_of_ext.
Qed.
Lemma qsum_of_S n f : qsum_of (seq 0 (S n)) f = qsum_of (seq 0 n) f + f n.
Proof. rewrite seq_S, qsum_of_app. f_equal. unfold qsum_of. cbn. ring. Qed.
(** A sum over [0..n) whose terms vanish from [m] on, or below [m]. *)
Lemma qsum_of_low n m f : (m <= n)%nat → (∀ k, (m <= k)%nat → f k = 0) → qsum_of (seq 0 n) f = qsum_of (seq 0 m) f.
Proof.
  intros Hm Hf. replace n with (m + (n - m))%nat by lia. rewrite seq_app, qsum_of_app, (qsum_of_zero (seq (0 + m) _)); [ring|].
  intros k Hk%elem_of_seq. apply Hf. lia.
Qed.
Lemma qsum_of_high n m f : (m <= n)%nat → (∀ k, (k < m)%nat → f k = 0) → qsum_of (seq 0 n) f = qsum_of (seq m (n - m)) f.
Proof.
  intros Hm Hf. replace n with (m + (n - m))%nat at 1 by lia. rewrite seq_app, qsum_of_app, (qsum_of_zero (seq 0 m)); [cbn; ring|].
  intros k Hk%elem_of_seq. apply Hf. lia.
Qed.

(** ** The factor *)
Section Factor.
Context `{NumSqrt xq, NumNormal xq, GoFloatText xq}.
Implicit Types (A low : list (list Qc)) (a row : list Qc).

(** The first entries of a row agree with the matrix, given the rows above. *)
Definition factors low a row : Prop :=
  ∀ j, (j < length row)%nat →
    qentry a j = qsum_of (seq 0 (S j)) (λ k, qentry row k * qentry (if (j <? length low)%nat then qrow low j else row) k).
(** A lower triangle with a positive diagonal. *)
Record triangular (n : nat) low : Prop := {
  tr_zero : ∀ i j, (i < j)%nat → qentry (qrow low i) j = 0;
  tr_diag : ∀ i, (i < length low)%nat → 0 < qentry (qrow low i) i;
  tr_len : (length low <= n)%nat;
}.

(** The number whose root the diagonal entry is. *)
Definition pivot (arow row : list xq) (i : nat) : xq :=
  fsub (entry arow i) (sum_of (seq 0 i) (λ k, fmul (entry row k) (entry row k))).
(** It is a square, and [math.Sqrt] is exact on it. *)
Definition exact_pivot (arow row : list xq) (i : nat) : Prop :=
  ∃ r, 0 < r ∧ pivot arow row i = Fin (r * r) ∧ fsqrt (Fin (r * r)) = Fin r.

Lemma cholesky_row_prefix (lower : list (list xq)) arow ii todo (row out : list xq) :
  cholesky_row lower arow ii todo row = Ok out → ∃ more, out = row ++ more ∧ length more = length todo.
Proof.
  revert row. induction todo as [|jj todo IH]; intros row; cbn; [intros [= <-]; exists []; by rewrite app_nil_r|].
  assert (Hx : ∀ x, cholesky_row lower arow ii todo (row ++ [x]) = Ok out → ∃ more, out = row ++ more ∧ length more = S (length todo)).
  { intros x (more & -> & Hl)%IH. exists (x :: more). cbn. rewrite Hl. by rewrite <-app_assoc. }
  destruct (jj =? ii)%nat; [|apply Hx]. cbv zeta. by case_match; [|apply Hx].
Qed.

Lemma cholesky_row_exact low a n j row out :
  triangular n low → (j + length (seq j (S (length low) - j)) = S (length low))%nat → length row = j → factors low a row →
  cholesky_row (fin <$> low) (fin a) (length low) (seq j (S (length low) - j)) (fin row) = Ok out →
  exact_pivot (fin a) out (length low) →
  (j = S (length low) → 0 < qentry row (length low)) →
  ∃ o, out = fin o ∧ length o = S (length low) ∧ factors low a o ∧ 0 < qentry o (length low).
Proof.
  intros Htri Hj. remember (S (length low) - j)%nat as m eqn:Em. revert j row Em Hj.
  induction m as [|m IH]; intros j row Em Hj Hl Hf; cbn [seq cholesky_row].
  - rewrite length_seq in Hj. intros [= <-] _ Hd. exists row. split; [done|]. split; [lia|]. split; [done|]. apply Hd. lia.
  - rewrite length_seq in Hj. destruct (Nat.eqb_spec j (length low)) as [->|Hne].
    + cbv zeta. case_match; [done|]. intros Hrow Hp _.
      destruct (cholesky_row_prefix _ _ _ _ _ _ Hrow) as (more & -> & _). destruct Hp as (r & Hr & Hp & Hw).
      assert (Hs : fsub (entry (fin a) (length low)) (sum_of (seq 0 (length low)) (λ kk, fmul (entry (fin row) kk) (entry (fin row) kk)))
                   = Fin (r * r)).
      { rewrite <-Hp. unfold pivot. apply (f_equal (fsub _)), sum_of_ext. intros k Hk%elem_of_seq.
        rewrite <-app_assoc, entry_app_l; [done|]. rewrite length_fin. lia. }
      rewrite <-Hs in Hw. rewrite Hw in Hrow |- *.
      assert (Em' : m = 0%nat) by lia. subst m. cbn in Hrow. injection Hrow as Hrow.
      exists (row ++ [r]). split; [by rewrite fin_app, <-Hrow|]. rewrite length_app. cbn. split; [lia|].
      rewrite <-Hl, qentry_snoc. split; [|done]. intros j Hj'. rewrite length_app in Hj'. cbn in Hj'. rewrite Hl in *.
      destruct (Nat.ltb_spec j (length low)) as [Hlt|Hge].
      * rewrite (Hf j) by lia. apply qsum_of_ext. intros k Hk%elem_of_seq. rewrite qentry_app_l by lia.
        by destruct (Nat.ltb_spec j (length low)); [|lia].
      * assert (j = length low) as -> by lia. rewrite qsum_of_S, <-Hl, qentry_snoc, Hl.
        rewrite (sum_of_fin _ (λ k, qentry row k * qentry row k)), entry_fin in Hs by (intros; by rewrite entry_fin).
        assert (Hq : qentry a (length low) + - qsum_of (seq 0 (length low)) (λ k, qentry row k * qentry row k) = r * r) by (by apply Fin_inj).
        rewrite (qsum_of_ext _ _ (λ k, qentry row k * qentry row k)) by (intros k Hk%elem_of_seq; rewrite qentry_app_l by lia; done).
        qclra.
    + rewrite row_of_fin, (sum_of_fin _ (λ k, qentry row k * qentry (qrow low j) k)), !entry_fin by (intros; by rewrite !entry_fin).
      assert (Hd : 0 < qentry (qrow low j) j) by (apply (tr_diag _ _ Htri); lia).
      set (x := (qentry a j - qsum_of (seq 0 j) (λ k, qentry row k * qentry (qrow low j) k)) / qentry (qrow low j) j).
      assert (Hx : fdiv (fsub (Fin (qentry a j)) (Fin (qsum_of (seq 0 j) (λ k, qentry row k * qentry (qrow low j) k))))
                        (Fin (qentry (qrow low j) j)) = Fin x).
      { cbn. destruct (qc_eqb _ 0) eqn:E; [apply qc_eqb_true in E; rewrite E in Hd; by apply Qclt_not_eq in Hd|]. done. }
      rewrite Hx. intros Hrow Hp _. change [Fin x] with (fin [x]) in Hrow.
      rewrite <-fin_app in Hrow.
      apply (IH (S j) (row ++ [x])); [lia|rewrite length_seq; lia|rewrite length_app; cbn; lia| |done|done|lia].
      intros j' Hj'. rewrite length_app in Hj'. cbn in Hj'. destruct (decide (j' = j)) as [->|Hne'].
      * destruct (Nat.ltb_spec j (length low)); [|lia]. assert (Hlast : qentry (row ++ [x]) j = x) by (rewrite <-Hl; apply qentry_snoc). rewrite qsum_of_S, Hlast.
        rewrite (qsum_of_ext _ _ (λ k, qentry row k * qentry (qrow low j) k)) by (intros k Hk%elem_of_seq; rewrite qentry_app_l by lia; done).
        unfold x. field. intros E. rewrite E in Hd. by apply Qclt_not_eq in Hd.
      * rewrite (Hf j') by lia. apply qsum_of_ext. intros k Hk%elem_of_seq. rewrite qentry_app_l by lia.
        by destruct (Nat.ltb_spec j' (length low)); [|lia].
Qed.

(** The rows so far multiply to the rows of the matrix. *)
Record factored A (n : nat) low : Prop := mkFactored {
  fa_triangular : triangular n low;
  fa_product : ∀ i j, (j <= i)%nat → (i < length low)%nat →
    qentry (qrow A i) j = qsum_of (seq 0 (S j)) (λ k, qentry (qrow low i) k * qentry (qrow low j) k);
}.

Lemma factored_snoc A n low o :
  factored A n low → length o = S (length low) → (length low < n)%nat → factors low (qrow A (length low)) o →
  0 < qentry o (length low) → factored A n (low ++ [o ++ replicate (n - S (length low)) 0]).
Proof.
  intros [Ht Hp] Hl Hn Hf Hd. set (o' := o ++ _).
  assert (Hentry : ∀ k, (k <= length low)%nat → qentry o' k = qentry o k) by (intros k Hk; apply qentry_app_l; lia).
  split; [split|].
  - intros i j Hij. destruct (decide (i < length low)%nat); [rewrite qrow_app_l by done; by apply (tr_zero _ _ Ht)|].
    destruct (decide (i = length low)) as [->|]; [rewrite qrow_snoc; apply qentry_zeros; lia|].
    unfold qrow. rewrite lookup_ge_None_2; [done|]. rewrite length_app. cbn. lia.
  - intros i Hi. rewrite length_app in Hi. cbn in Hi. destruct (decide (i = length low)) as [->|].
    + rewrite qrow_snoc, Hentry by lia. done.
    + rewrite qrow_app_l by lia. apply (tr_diag _ _ Ht). lia.
  - rewrite length_app. cbn. lia.
  - intros i j Hji Hi. rewrite length_app in Hi. cbn in Hi. destruct (decide (i = length low)) as [->|].
    + rewrite (Hf j) by lia. apply qsum_of_ext. intros k Hk%elem_of_seq. rewrite qrow_snoc, Hentry by lia. f_equal.
      destruct (Nat.ltb_spec j (length low)); [by rewrite qrow_app_l|].
      assert (j = length low) as -> by lia. rewrite qrow_snoc. symmetry. apply Hentry. lia.
    + rewrite (Hp i j) by lia. apply qsum_of_ext. intros k _. by rewrite !qrow_app_l by lia.
Qed.

Definition row_step (m : list (list xq)) (nn : nat) (acc : result (list (list xq))) (ii : nat) : result (list (list xq)) :=
  match acc with
  | Err e => Err e
  | Ok lower =>
      match cholesky_row lower (row_of m ii) ii (seq 0 (S ii)) [] with
      | Err e => Err e
      | Ok row => Ok (lower ++ [row ++ replicate (nn - S ii) (of_Z 0)])
      end
  end.
Lemma cholesky_rows_cons (m : list (list xq)) nn ii indices lower L :
  cholesky_rows m nn (ii :: indices) lower = Ok L →
  ∃ row : list xq, cholesky_row lower (row_of m ii) ii (seq 0 (S ii)) [] = Ok row ∧
    cholesky_rows m nn indices (lower ++ [row ++ replicate (nn - S ii) (of_Z 0)]) = Ok L.
Proof.
  unfold cholesky_rows. change (fold_left (row_step m nn) (ii :: indices) (Ok lower) = Ok L → ∃ row : list xq,
    cholesky_row lower (row_of m ii) ii (seq 0 (S ii)) [] = Ok row ∧
    fold_left (row_step m nn) indices (Ok (lower ++ [row ++ replicate (nn - S ii) (of_Z 0)])) = Ok L).
  cbn [fold_left]. unfold row_step at 2. destruct (cholesky_row _ _ _ _ _) as [row|e]; [by exists row|].
  intros Hf. exfalso. induction indices as [|i indices IH]; [done|by apply IH].
Qed.
Lemma cholesky_rows_prefix (m : list (list xq)) nn indices lower L :
  cholesky_rows m nn indices lower = Ok L → ∃ more, L = lower ++ more.
Proof.
  revert lower. induction indices as [|ii indices IH]; intros lower.
  - intros [= <-]. exists []. by rewrite app_nil_r.
  - intros (row & _ & (more & ->)%IH)%cholesky_rows_cons. eexists. by rewrite <-app_assoc.
Qed.

Lemma cholesky_rows_exact A n m low L :
  (length low + m = n)%nat → factored A n low →
  cholesky_rows (fin <$> A) n (seq (length low) m) (fin <$> low) = Ok L →
  (∀ i, (i < n)%nat → exact_pivot (row_of (fin <$> A) i) (row_of L i) i) →
  ∃ Lq, L = fin <$> Lq ∧ length Lq = n ∧ factored A n Lq.
Proof.
  revert low. induction m as [|m IH]; intros low Hn Hf.
  - intros [= <-] _. exists low. split; [done|]. split; [lia|done].
  - cbn [seq]. intros (out & Hout & Hrest)%cholesky_rows_cons Hp.
    destruct (cholesky_rows_prefix _ _ _ _ _ Hrest) as (more & EL).
    destruct (cholesky_row_prefix _ _ _ _ _ _ Hout) as (tail_ & Eo & Hlen). cbn [app] in Eo. subst tail_. rewrite length_seq in Hlen.
    destruct (cholesky_row_exact low (qrow A (length low)) n 0 [] out) as (o & -> & Ho & Hfac & Hd);
      [apply Hf|by rewrite length_seq|done|by intros j Hj; cbn in Hj; lia| | |lia|].
    + rewrite row_of_fin in Hout. by rewrite Nat.sub_0_r.
    + destruct (Hp (length low)) as (r & Hr & Er & Ew); [lia|]. exists r. split; [done|]. split; [|exact Ew]. rewrite <-Er.
      rewrite row_of_fin. apply (f_equal (fsub _)), sum_of_ext. intros k Hk%elem_of_seq.
      assert (Erow : row_of L (length low) = out ++ replicate (n - S (length low)) (of_Z 0)).
      { unfold row_of. rewrite EL, <-app_assoc, lookup_app_r, length_fmap, Nat.sub_diag by (rewrite length_fmap; done). done. }
      rewrite Erow, entry_app_l by lia. done.
    + assert (Es : (fin <$> low) ++ [fin o ++ replicate (n - S (length low)) (of_Z 0)] =
                   fin <$> (low ++ [o ++ replicate (n - S (length low)) 0])).
      { rewrite fmap_app. cbn. rewrite fin_app. f_equal. f_equal. f_equal. unfold fin. by rewrite fmap_replicate. }
      rewrite Es in Hrest. apply (IH (low ++ [o ++ replicate (n - S (length low)) 0])).
      * rewrite length_app. cbn. lia.
      * apply factored_snoc; [done..|lia|done|done].
      * rewrite length_app, Nat.add_comm. exact Hrest.
      * done.
Qed.

Lemma choleskyDecompose_exact A L :
  choleskyDecompose (fin <$> A) = Ok L →
  (∀ i, (i < length A)%nat → exact_pivot (row_of (fin <$> A) i) (row_of L i) i) →
  ∃ Lq, L = fin <$> Lq ∧ length Lq = length A ∧ factored A (length A) Lq.
Proof.
  unfold choleskyDecompose. rewrite length_fmap. intros Hc Hp. apply (cholesky_rows_exact A (length A) (length A) []); [done| |done|done].
  split; [split|]; try (cbn; lia). intros i j _. unfold qrow, qentry. by rewrite !lookup_nil.
Qed.

(** ** The two substitutions *)
Lemma fdiv_Fin_nz (a b : Qc) : b <> 0 → fdiv (Fin a) (Fin b) = Fin (a / b).
Proof. intros Hb. cbn. apply qc_eqb_false in Hb. by rewrite Hb. Qed.

Section Substitution.
Context (n : nat) (L : list (list Qc)) (Hdiag : ∀ i, (i < n)%nat → qentry (qrow L i) i <> 0).

Definition forward_step (b : list xq) (xx : list xq) (ii : nat) : list xq :=
  xx ++ [fdiv (fsub (entry b ii) (sum_of (seq 0 ii) (λ jj, fmul (entry (row_of (fin <$> L) ii) jj) (entry xx jj))))
           (entry (row_of (fin <$> L) ii) ii)].
Lemma forward_exact b m (y : list Qc) :
  (length y + m = n)%nat →
  (∀ i, (i < length y)%nat → qsum_of (seq 0 (S i)) (λ k, qentry (qrow L i) k * qentry y k) = qentry b i) →
  ∃ y', fold_left (forward_step (fin b)) (seq (length y) m) (fin y) = fin y' ∧ length y' = n ∧
    ∀ i, (i < n)%nat → qsum_of (seq 0 (S i)) (λ k, qentry (qrow L i) k * qentry y' k) = qentry b i.
Proof.
  revert y. induction m as [|m IH]; intros y Hn Hy; cbn [seq fold_left].
  { exists y. split; [done|]. split; [lia|]. intros i Hi. apply Hy. lia. }
  unfold forward_step at 2. rewrite row_of_fin, (sum_of_fin _ (λ k, qentry (qrow L (length y)) k * qentry y k)), !entry_fin
    by (intros; by rewrite !entry_fin).
  set (s := qsum_of _ _).
  change (fsub (Fin (qentry b (length y))) (Fin s)) with (Fin (qentry b (length y) + - s)).
  rewrite fdiv_Fin_nz by (apply Hdiag; lia). set (z := _ / _). change [Fin z] with (fin [z]). rewrite <-fin_app.
  assert (Hl : length (y ++ [z]) = S (length y)) by (rewrite length_app; cbn; lia). rewrite <-Hl.
  apply IH; [lia|]. intros i Hi. rewrite qsum_of_S. destruct (decide (i = length y)) as [->|Hne].
  - rewrite qentry_snoc. rewrite (qsum_of_ext _ _ (λ k, qentry (qrow L (length y)) k * qentry y k))
      by (intros k Hk%elem_of_seq; rewrite qentry_app_l by lia; done).
    fold s. unfold z. field. apply Hdiag. lia.
  - rewrite <-(Hy i) by lia. rewrite qsum_of_S, qentry_app_l by lia. f_equal.
    apply qsum_of_ext. intros k Hk%elem_of_seq. by rewrite qentry_app_l by lia.
Qed.
Lemma forwardSolve_exact b : length b = n →
  ∃ y, forwardSolve (fin <$> L) (fin b) = fin y ∧ length y = n ∧
    ∀ i, (i < n)%nat → qsum_of (seq 0 (S i)) (λ k, qentry (qrow L i) k * qentry y k) = qentry b i.
Proof.
  intros Hb. unfold forwardSolve. rewrite length_fin, Hb.
  change (fold_left _ (seq 0 n) []) with (fold_left (forward_step (fin b)) (seq (length (A := Qc) []) n) (fin [])).
  apply forward_exact; [done|]. intros i Hi. cbn in Hi. lia.
Qed.

Lemma backSolve_exact y : length y = n →
  ∃ x, backSolve (fin <$> L) (fin y) = fin x ∧ length x = n ∧
    ∀ i, (i < n)%nat → qsum_of (seq i (n - i)) (λ j, qentry (qrow L j) i * qentry x j) = qentry y i.
Proof.
  intros Hy. unfold backSolve. rewrite length_fin, Hy.
  assert (Hgen : ∀ m ii, (ii + m = n)%nat → ∃ xx,
    fold_right (λ ii (xx : list xq), fdiv (fsub (entry (fin y) ii)
        (sum_of (seq (S ii) (n - S ii)) (λ jj, fmul (entry (row_of (fin <$> L) jj) ii) (entry xx (jj - S ii)))))
        (entry (row_of (fin <$> L) ii) ii) :: xx) [] (seq ii m) = fin xx ∧ length xx = m ∧
    ∀ i, (ii <= i < n)%nat → qsum_of (seq i (n - i)) (λ j, qentry (qrow L j) i * qentry xx (j - ii)) = qentry y i).
  { induction m as [|m IH]; intros ii Hn; cbn [seq fold_right].
    { exists []. split; [done|]. split; [done|]. intros i Hi. lia. }
    destruct (IH (S ii)) as (xx & -> & Hl & Hx); [lia|].
    rewrite (sum_of_fin _ (λ jj, qentry (qrow L jj) ii * qentry xx (jj - S ii))), row_of_fin, !entry_fin
      by (intros k _; by rewrite row_of_fin, !entry_fin).
    set (s := qsum_of _ _). change (fsub (Fin (qentry y ii)) (Fin s)) with (Fin (qentry y ii + - s)).
    rewrite fdiv_Fin_nz by (apply Hdiag; lia). set (z := _ / _). exists (z :: xx). split; [done|]. split; [cbn; lia|].
    assert (Htail : ∀ l i, (∀ j, j ∈ l → (ii < j)%nat) →
      qsum_of l (λ j, qentry (qrow L j) i * qentry (z :: xx) (j - ii)) = qsum_of l (λ j, qentry (qrow L j) i * qentry xx (j - S ii))).
    { intros l i Hlt. apply qsum_of_ext. intros j Hj%Hlt. f_equal. unfold qentry.
      replace (j - ii)%nat with (S (j - S ii)) by lia. done. }
    intros i Hi. destruct (decide (i = ii)) as [->|Hne].
    - replace (n - ii)%nat with (S (n - S ii)) by lia. cbn [seq].
      change (qsum_of (ii :: ?l) ?f) with (f ii + qsum_of l f). cbv beta. rewrite Htail by (intros j Hj%elem_of_seq; lia).
      fold s. rewrite Nat.sub_diag. change (qentry (z :: xx) 0) with z. unfold z. field. apply Hdiag. lia.
    - rewrite Htail by (intros j Hj%elem_of_seq; lia). apply Hx. lia. }
  destruct (Hgen n 0%nat eq_refl) as (x & Hx & Hl & Hsol). exists x. split; [exact Hx|]. split; [done|].
  intros i Hi. rewrite <-(Hsol i) by lia. apply qsum_of_ext. intros k _. by rewrite Nat.sub_0_r.
Qed.
End Substitution.

(** The solution of the system of the factor solves that of the matrix. *)
Lemma choleskySolve_exact A L b :
  factored A (length A) L → length L = length A → length b = length A →
  (∀ i j, qentry (qrow A i) j = qentry (qrow A j) i) →
  ∃ x, choleskySolve (fin <$> L) (fin b) = fin x ∧ length x = length A ∧
    ∀ i, (i < length A)%nat → qsum_of (seq 0 (length A)) (λ j, qentry (qrow A i) j * qentry x j) = qentry b i.
Proof.
  intros [Ht Hp] HL Hb Hsym. set (n := length A) in *.
  assert (Hd : ∀ i, (i < n)%nat → qentry (qrow L i) i <> 0).
  { intros i Hi E. assert (Hpos := tr_diag _ _ Ht i ltac:(lia)). rewrite E in Hpos. by apply Qclt_not_eq in Hpos. }
  destruct (forwardSolve_exact n L Hd b Hb) as (y & Hy & Hly & Hfwd).
  destruct (backSolve_exact n L Hd y Hly) as (x & Hx & Hlx & Hbwd).
  exists x. unfold choleskySolve. rewrite Hy. split; [exact Hx|]. split; [done|]. intros i Hi.
  assert (Hfull : ∀ i j, (i < n)%nat → (j < n)%nat →
    qentry (qrow A i) j = qsum_of (seq 0 n) (λ k, qentry (qrow L i) k * qentry (qrow L j) k)).
  { assert (Hle : ∀ i j, (i < n)%nat → (j <= i)%nat →
      qentry (qrow A i) j = qsum_of (seq 0 n) (λ k, qentry (qrow L i) k * qentry (qrow L j) k)).
    { intros i' j' Hi' Hj'. rewrite (Hp i' j') by lia. symmetry. apply qsum_of_low; [lia|]. intros k Hk.
      rewrite (tr_zero _ _ Ht j' k) by lia. ring. }
    intros i' j' Hi' Hj'. destruct (decide (j' <= i')%nat); [by apply Hle|]. rewrite Hsym, Hle by lia.
    apply qsum_of_ext. intros k _. ring. }
  rewrite (qsum_of_ext _ _ (λ j, qsum_of (seq 0 n) (λ k, qentry (qrow L i) k * (qentry (qrow L j) k * qentry x j)))).
  2:{ intros j Hj%elem_of_seq. rewrite Hfull by lia. rewrite Qcmult_comm, <-qsum_of_scale. apply qsum_of_ext. intros k _. ring. }
  rewrite qsum_of_swap. rewrite (qsum_of_ext _ _ (λ k, qentry (qrow L i) k * qentry y k)).
  2:{ intros k Hk%elem_of_seq. rewrite qsum_of_scale. f_equal. rewrite <-(Hbwd k) by lia.
      apply qsum_of_high; [lia|]. intros j Hj. rewrite (tr_zero _ _ Ht j k) by lia. ring. }
  rewrite <-(Hfwd i) by lia. apply qsum_of_low; [lia|]. intros k Hk. rewrite (tr_zero _ _ Ht i k) by lia. ring.
Qed.
End Factor.

(** ** The fitted process *)
Section Process.
Context `{NumSqrt xq, NumNormal xq, GoFloatText xq}.
(* the exponential, on the rationals *)
Context (expq : Qc → Qc) (Hexp : ∀ q, fexp (Fin q) = Fin (expq q)).
Context (variance len jitter : Qc) (Hlen : len <> 0).
Implicit Types (X : list (list Qc)) (xa xb x y : list Qc).

Definition prior : gaussianProcess xq := newGaussianProcess (Fin variance) (Fin len) (Fin jitter).
Definition sq_distance xa xb : Qc :=
  qsum_of (seq 0 (length xa)) (λ i, (qentry xa i - qentry xb i) * (qentry xa i - qentry xb i)).
Definition rbf xa xb : Qc := variance * expq (- sq_distance xa xb / (qc_of_Z 2 * len * len)).
Definition gram X : list (list Qc) :=
  imap (λ i xi, imap (λ j xj, rbf xi xj + (if (i =? j)%nat then jitter else 0)) X) X.

Lemma two_len : qc_of_Z 2 * len * len <> 0.
Proof.
  intros E. destruct (Qcmult_integral _ _ E) as [E2|?]; [|done]. destruct (Qcmult_integral _ _ E2) as [E3|?]; [|done].
  apply qc_eq_this in E3. rewrite this_of_Z in E3. discriminate E3.
Qed.
Lemma kernel_exact gp xa xb :
  gp_variance gp = Fin variance → gp_length gp = Fin len → kernel gp (fin xa) (fin xb) = Fin (rbf xa xb).
Proof.
  intros Hv Hl. unfold kernel. rewrite Hv, Hl, length_fin.
  rewrite (sum_of_fin _ (λ i, (qentry xa i - qentry xb i) * (qentry xa i - qentry xb i))) by (intros; by rewrite !entry_fin).
  fold (sq_distance xa xb).
  change (fneg (Fin (sq_distance xa xb))) with (Fin (- sq_distance xa xb)).
  change (fmul (fmul (of_Z 2) (Fin len)) (Fin len)) with (Fin (qc_of_Z 2 * len * len)).
  rewrite fdiv_Fin_nz by apply two_len. by rewrite Hexp.
Qed.
Lemma rbf_sym xa xb : length xa = length xb → rbf xa xb = rbf xb xa.
Proof.
  intros Hl. unfold rbf. replace (sq_distance xb xa) with (sq_distance xa xb); [done|].
  unfold sq_distance. rewrite Hl. apply qsum_of_ext. intros k _. ring.
Qed.
Lemma covariance_exact X : covariance prior (fin <$> X) = fin <$> gram X.
Proof.
  unfold covariance, gram. rewrite imap_fmap, fmap_imap. apply imap_ext. intros i xi _. unfold compose.
  change (fin (imap ?f X)) with (Fin <$> imap f X).
  rewrite imap_fmap, fmap_imap. apply imap_ext. intros j xj _. unfold compose.
  rewrite !kernel_exact by done. destruct (i =? j)%nat; [done|]. f_equal. ring.
Qed.
Lemma gram_entry X i j xi xj : X !! i = Some xi → X !! j = Some xj →
  qentry (qrow (gram X) i) j = rbf xi xj + (if (i =? j)%nat then jitter else 0).
Proof.
  intros Hi Hj. unfold qentry, qrow, gram. rewrite list_lookup_imap, Hi. cbn. by rewrite list_lookup_imap, Hj.
Qed.
Lemma gram_out X i j : (length X <= i)%nat ∨ (length X <= j)%nat → qentry (qrow (gram X) i) j = 0.
Proof.
  intros Hout. unfold qentry, qrow, gram. rewrite list_lookup_imap. destruct (X !! i) as [xi|] eqn:Ei; [|done].
  cbn. rewrite list_lookup_imap. destruct (X !! j) as [xj|] eqn:Ej; [|done].
  apply lookup_lt_Some in Ei. apply lookup_lt_Some in Ej. lia.
Qed.
Lemma length_gram X : length (gram X) = length X.
Proof. apply length_imap. Qed.

(** C32. The Gaussian process predicts what it has seen.  Fitted to points of one
    dimension with finite scores, in exact arithmetic and when the roots the
    factorisation takes are exact, its coefficients are finite and its
    posterior mean at an observed point is the observed score less the jitter
    times the point's coefficient; without jitter it interpolates the scores. *)
Theorem Fit_predicts_scores X y dims gp :
  Forall (λ x, length x = dims) X → length X = length y →
  Fit prior (fin <$> X) (fin y) = Ok gp →
  (∀ i, (i < length X)%nat → exact_pivot (row_of (covariance prior (fin <$> X)) i) (row_of (gp_choleskyL gp) i) i) →
  ∃ alpha, gp_alpha gp = fin alpha ∧ length alpha = length X ∧
    ∀ i xi, X !! i = Some xi → (Predict gp (fin xi)).1 = Fin (qentry y i - jitter * qentry alpha i).
Proof.
  intros Hdims Hy. unfold Fit. rewrite length_fmap, length_fin. destruct (length X =? 0)%nat; [done|].
  destruct (negb _); [done|]. destruct (choleskyDecompose _) as [lower|] eqn:Hc; [|done]. intros [= <-]. cbn [gp_choleskyL gp_alpha].
  rewrite covariance_exact in Hc |- *. rewrite <-length_gram. intros Hp.
  destruct (choleskyDecompose_exact _ _ Hc Hp) as (Lq & -> & HL & Hfac).
  destruct (choleskySolve_exact (gram X) Lq y Hfac HL) as (alpha & Ha & Hla & Hsol); [by rewrite length_gram| |].
  { intros i j. destruct (decide (i < length X ∧ j < length X)%nat) as [[Hi Hj]|Hn]; [|rewrite !gram_out by lia; done].
    apply lookup_lt_is_Some_2 in Hi as [xi Hi]. apply lookup_lt_is_Some_2 in Hj as [xj Hj].
    rewrite (gram_entry X i j xi xj), (gram_entry X j i xj xi), Nat.eqb_sym by done. f_equal. apply rbf_sym.
    rewrite Forall_forall in Hdims. rewrite !Hdims; [done|by eapply list_elem_of_lookup_2..]. }
  exists alpha. rewrite length_gram in *. split; [exact Ha|]. split; [done|]. intros i xi Hi.
  assert (Hlt : (i < length X)%nat) by by eapply lookup_lt_Some.
  unfold Predict. cbn [fst gp_xTrain gp_alpha]. rewrite length_fmap, Ha.
  rewrite (sum_of_fin _ (λ j, qentry (rbf xi <$> X) j * qentry alpha j)).
  2:{ intros k _. rewrite entry_fin. replace (kernel _ (fin xi) <$> (fin <$> X)) with (fin (rbf xi <$> X)); [by rewrite entry_fin|].
      unfold fin. rewrite <-!list_fmap_compose. apply list_fmap_ext. intros j xj _. symmetry. by apply (kernel_exact (mkGP _ _ _ _ _ _)). }
  f_equal. rewrite <-(Hsol i) by done.
  rewrite (qsum_of_ext _ (λ j, qentry (qrow (gram X) i) j * qentry alpha j)
             (λ j, qentry (rbf xi <$> X) j * qentry alpha j + (if (i =? j)%nat then jitter else 0) * qentry alpha j)).
  2:{ intros j Hj%elem_of_seq. destruct (lookup_lt_is_Some_2 X j) as [xj Hj']; [lia|]. rewrite (gram_entry X i j xi xj) by done.
      unfold qentry at 2. rewrite list_lookup_fmap, Hj'. cbn. ring. }
  rewrite qsum_of_plus.
  assert (Hone : qsum_of (seq 0 (length X)) (λ j, (if (i =? j)%nat then jitter else 0) * qentry alpha j) = jitter * qentry alpha i).
  { rewrite (qsum_of_low _ (S i)); [|lia|].
    - rewrite qsum_of_S, Nat.eqb_refl, qsum_of_zero; [ring|]. intros k Hk%elem_of_seq. destruct (Nat.eqb_spec i k); [lia|ring].
    - intros k Hk. destruct (Nat.eqb_spec i k); [lia|ring]. }
  rewrite Hone. ring.
Qed.
End Process.

(** ** A fit of two points *)
Section Fitted.
(** Roots of rational squares. *)
Local Instance rational_sqrt : NumSqrt xq := {|
  fsqrt := λ x, match x with
                | Fin q => Fin (Q2Qc (QArith_base.Qmake (Z.sqrt (QArith_base.Qnum (this q))) (Pos.sqrt (QArith_base.Qden (this q)))))
                | x => x
                end |}.
Local Instance two_values : NumNormal xq := {| fexp := λ x, match x with Fin q => Fin (if decide (q = 0) then 1 else qc_of_Z 8 / qc_of_Z 9) | x => x end;
  ferf := id; fpi := of_Z 3; fsqrt_2 := of_Z 1 |}.
Local Instance blank_text : GoFloatText xq := {| ParseFloat := λ _, None; Sprintf_g := λ _, ""%string |}.
Definition two_points : list (list Qc) := [[0]; [1]].
Definition two_scores : list Qc := [qc_of_Z 4; qc_of_Z 12].
Definition two_exp (q : Qc) : Qc := if decide (q = 0) then 1 else qc_of_Z 8 / qc_of_Z 9.
(** Variance 18/5 and jitter 2/5: the pivots are the squares of 2 and 6/5. *)
Abbreviation two_prior := (prior (qc_of_Z 18 / qc_of_Z 5) 1 (qc_of_Z 2 / qc_of_Z 5)).

Lemma Fit_predicts_scores_witness :
  ∃ gp alpha, Fit two_prior (fin <$> two_points) (fin two_scores) = Ok gp ∧ gp_alpha gp = fin alpha ∧
    (Predict gp (fin [1])).1 = Fin (qc_of_Z 12 - qc_of_Z 2 / qc_of_Z 5 * qentry alpha 1).
Proof.
  assert (Hok : is_Ok (Fit two_prior (fin <$> two_points) (fin two_scores)) = true) by (vm_compute; reflexivity).
  destruct (Fit two_prior (fin <$> two_points) (fin two_scores)) as [gp|] eqn:E; [|done]. exists gp.
  destruct (Fit_predicts_scores two_exp ltac:(done) (qc_of_Z 18 / qc_of_Z 5) 1 (qc_of_Z 2 / qc_of_Z 5) ltac:(done)
    two_points two_scores 1 gp ltac:(by repeat constructor) eq_refl E) as (alpha & Ha & _ & Hpred).
  - assert (Ev : Fit two_prior (fin <$> two_points) (fin two_scores) = Fit two_prior (fin <$> two_points) (fin two_scores)) by done.
    rewrite E in Ev at 1. vm_compute in Ev. injection Ev as Ev. intros i Hi. rewrite Ev. cbn [gp_choleskyL].
    destruct i as [|[|i]]; [exists (qc_of_Z 2)|exists (qc_of_Z 6 / qc_of_Z 5)|cbn in Hi; lia]; vm_compute; auto.
  - exists alpha. split; [done|]. split; [exact Ha|]. by apply (Hpred 1%nat [1]).
Defined.
End Fitted.
