(* ===== verification/SearchProps.v ===== *)
(** * SearchProps: what a search proposes, runs and scores

    The candidates selected are the best; a Bayesian search ends; a batch is
    scored combination by combination. *)
From Stdlib Require Import ZArith Lia.
From stdpp Require Import base list gmap strings pretty.
From S2P Require Import Prelude Num GoTime Indicators Resampling Study Search.

(** ** The best candidates *)
Section Top.
Context {F : Type} `{NumOrd F}.
Implicit Types (vals values topVal : list F) (topIdx : list nat).

Definition numbers values : Prop := ∀ i, is_nan (entry values i) = false.
Definition least_at vals (n p : nat) : Prop := ∀ j, (j < n)%nat → flt (entry vals j) (entry vals p) = false.

Lemma min_position_spec vals : vals ≠ [] → numbers vals → (min_position vals < length vals)%nat ∧ least_at vals (length vals) (min_position vals).
Proof.
  intros Hne Hnum. unfold min_position.
  assert (Hgen : ∀ m j p, (j + m = length vals)%nat → (p < j)%nat → least_at vals j p →
    let q := fold_left (λ minPos jj, if flt (entry vals jj) (entry vals minPos) then jj else minPos) (seq j m) p in
    (q < length vals)%nat ∧ least_at vals (length vals) q).
  { induction m as [|m IH]; intros j p Hj Hp Hl; cbn [seq fold_left]; [replace (length vals) with j by lia; auto|].
    destruct (flt (entry vals j) (entry vals p)) eqn:E; (apply IH; [lia|lia|]); intros i Hi;
      (destruct (decide (i = j)) as [->|Hne']; [|assert (Hij : (i < j)%nat) by lia; specialize (Hl i Hij)]).
    - apply flt_irrefl.
    - destruct (flt (entry vals i) (entry vals j)) eqn:E'; [|done]. by rewrite (flt_trans _ _ _ E' E) in Hl.
    - done.
    - done. }
  destruct vals as [|v vals]; [done|]. apply (Hgen _ 1%nat 0%nat); [cbn; lia|lia|].
  intros j Hj. assert (j = 0%nat) as -> by lia. apply flt_irrefl.
Qed.

(** Of the first [n] values, those at [topIdx] are the best. *)
Record best_of values (n : nat) topIdx topVal : Prop := mkBest {
  bo_nodup : NoDup topIdx;
  bo_below : Forall (λ i, (i < n)%nat) topIdx;
  bo_values : topVal = entry values <$> topIdx;
  bo_best : ∀ i j, i ∈ topIdx → (j < n)%nat → j ∉ topIdx → flt (entry values i) (entry values j) = false;
}.

Lemma entry_top values n topIdx topVal p i : best_of values n topIdx topVal → topIdx !! p = Some i → entry topVal p = entry values i.
Proof. intros Hb Hp. unfold entry at 1. by rewrite (bo_values _ _ _ _ Hb), list_lookup_fmap, Hp. Qed.

Lemma keep_top_best values n topIdx topVal :
  numbers values → topIdx ≠ [] → best_of values n topIdx topVal →
  let '(topIdx', topVal') := keep_top (topIdx, topVal) (n, entry values n) in
  best_of values (S n) topIdx' topVal' ∧ length topIdx' = length topIdx.
Proof.
  intros Hnum Hne Hb. assert (Hlen : length topVal = length topIdx) by (rewrite (bo_values _ _ _ _ Hb); apply length_fmap).
  destruct (min_position_spec topVal) as [Hp Hleast].
  { intros ->. by destruct topIdx. }
  { intros i. destruct (topIdx !! i) as [k|] eqn:Ek; [by rewrite (entry_top _ _ _ _ _ _ Hb Ek)|].
    unfold entry. rewrite lookup_ge_None_2; [|rewrite Hlen; by apply lookup_ge_None]. pose proof (Hnum (length values)) as Hz.
    unfold entry in Hz. by rewrite lookup_ge_None_2 in Hz. }
  unfold keep_top. cbn [fst snd]. set (p := min_position topVal) in *.
  destruct (lookup_lt_is_Some_2 topIdx p) as [m Hm]; [lia|]. rewrite (entry_top _ _ _ _ _ _ Hb Hm).
  assert (Hmin : ∀ i, i ∈ topIdx → flt (entry values i) (entry values m) = false).
  { intros i (q & Hq)%list_elem_of_lookup_1. rewrite <-(entry_top _ _ _ _ _ _ Hb Hm), <-(entry_top _ _ _ _ _ _ Hb Hq).
    apply Hleast. apply lookup_lt_Some in Hq. lia. }
  assert (Hbelow : ∀ i, i ∈ topIdx → (i < n)%nat) by (apply Forall_forall; apply (bo_below _ _ _ _ Hb)).
  assert (Hmt : m ∈ topIdx) by (by eapply list_elem_of_lookup_2).
  destruct (flt (entry values m) (entry values n)) eqn:E.
  - assert (Hin : ∀ i, i ∈ <[p := n]> topIdx ↔ i = n ∨ i ∈ topIdx ∧ i ≠ m).
    { intros i. split.
      - intros (q & Hq)%list_elem_of_lookup_1. apply list_lookup_insert_Some in Hq as [(-> & -> & _)|(Hqp & Hq)]; [by left|].
        right. split; [by eapply list_elem_of_lookup_2|]. intros ->. apply Hqp. symmetry.
        by eapply NoDup_lookup; [apply (bo_nodup _ _ _ _ Hb)|..].
      - intros [->|[(q & Hq)%list_elem_of_lookup_1 Hne']].
        + eapply list_elem_of_lookup_2 with (i := p). apply list_lookup_insert_Some. left. split; [done|]. split; [done|]. lia.
        + eapply list_elem_of_lookup_2 with (i := q). rewrite list_lookup_insert_ne; [done|]. intros ->. congruence. }
    split; [split|by rewrite length_insert].
    + apply NoDup_alt. intros i j x Hi Hj. apply list_lookup_insert_Some in Hi, Hj.
      assert (Hout : topIdx !! j = Some n → False) by (intros Hx; assert (n < n)%nat by (apply Hbelow; by eapply list_elem_of_lookup_2); lia).
      assert (Hout' : topIdx !! i = Some n → False) by (intros Hx; assert (n < n)%nat by (apply Hbelow; by eapply list_elem_of_lookup_2); lia).
      destruct Hi as [(Ei & Ex & _)|(Hi1 & Hi)], Hj as [(Ej & Ey & _)|(Hj1 & Hj)]; try congruence; try (by rewrite <-Ex in Hj); try (by rewrite <-Ey in Hi).
      by eapply NoDup_lookup; [apply (bo_nodup _ _ _ _ Hb)|..].
    + apply Forall_forall. intros i [->|[Hi _]]%Hin; [lia|]. specialize (Hbelow i Hi). lia.
    + by rewrite (bo_values _ _ _ _ Hb), list_fmap_insert.
    + intros i j Hi Hj Hnj. apply Hin in Hi.
      assert (Hold : ∀ i, i ∈ topIdx → flt (entry values i) (entry values j) = false).
      { intros i' Hi'. destruct (decide (j = m)) as [->|]; [by apply Hmin|]. apply (bo_best _ _ _ _ Hb); [done| |].
        - assert (j ≠ n) by (intros ->; apply Hnj, Hin; by left). lia.
        - intros Hjt. apply Hnj, Hin. by right. }
      destruct Hi as [->|[Hi _]]; [|by apply Hold].
      destruct (flt (entry values n) (entry values j)) eqn:E'; [|done]. specialize (Hold m Hmt). by rewrite (flt_trans _ _ _ E E') in Hold.
  - split; [split|done]; [apply Hb| |apply Hb|].
    + eapply Forall_impl; [apply (bo_below _ _ _ _ Hb)|]. cbn. lia.
    + intros i j Hi Hj Hnj. destruct (decide (j = n)) as [->|]; [|apply (bo_best _ _ _ _ Hb); [done|lia|done]].
      eapply flt_neg_trans; [apply Hnum..|by apply Hmin|done].
Qed.

Lemma keep_top_fold values rest n topIdx topVal :
  numbers values → topIdx ≠ [] → best_of values n topIdx topVal → (∀ i, rest !! i = values !! (n + i)%nat) →
  let st := fold_left keep_top (imap (λ i v, ((n + i)%nat, v)) rest) (topIdx, topVal) in
  best_of values (n + length rest) st.1 st.2 ∧ length st.1 = length topIdx.
Proof.
  intros Hnum. revert n topIdx topVal. induction rest as [|v rest IH]; intros n topIdx topVal Hne Hb Hrest; cbn [imap fold_left length].
  - by rewrite Nat.add_0_r.
  - assert (Ev : v = entry values n) by (specialize (Hrest 0%nat); rewrite Nat.add_0_r in Hrest; unfold entry; by rewrite <-Hrest).
    rewrite Nat.add_0_r. pose proof (keep_top_best values n topIdx topVal Hnum Hne Hb) as Hstep. rewrite Ev.
    destruct (keep_top _ _) as [topIdx' topVal']. destruct Hstep as [Hb' Hl'].
    destruct (IH (S n) topIdx' topVal') as [Hf Hlf]; [by destruct topIdx, topIdx'|done| |].
    { intros i. rewrite Nat.add_succ_comm. exact (Hrest (S i)). }
    assert (Eq : imap ((λ i v0, ((n + i)%nat, v0)) ∘ S) rest = imap (λ i v0, ((S n + i)%nat, v0)) rest).
    { apply imap_ext. intros i x _. cbn. f_equal. lia. }
    rewrite Eq. split; [|lia]. by rewrite <-Nat.add_succ_comm.
Qed.

(** The Bayesian search selects the best candidates: of the acquisition
    values it returns as many distinct positions as the batch asks for, or all of
    them when there are fewer, and no position left out has a greater value than
    one selected. *)
Theorem topKIndices_selects values (kk : Z) :
  (0 < kk)%Z → Forall (λ v, is_nan v = false) values →
  ∃ idx, topKIndices values kk = Ok idx ∧ NoDup idx ∧ length idx = Nat.min (Z.to_nat kk) (length values) ∧
    Forall (λ i, (i < length values)%nat) idx ∧
    ∀ i j, i ∈ idx → (j < length values)%nat → j ∉ idx → flt (entry values i) (entry values j) = false.
Proof.
  intros Hk Hfa. unfold topKIndices. destruct (Z.leb_spec (Z.of_nat (length values)) kk).
  { exists (seq 0 (length values)). split; [done|]. split; [apply NoDup_seq|]. rewrite length_seq. split; [lia|].
    split; [apply Forall_forall; intros i Hi%elem_of_seq; lia|]. intros i j _ Hj Hn. exfalso. apply Hn, elem_of_seq. lia. }
  destruct (Z.ltb_spec kk 0); [lia|]. destruct (Z.eqb_spec kk 0); [lia|]. set (k := Z.to_nat kk).
  assert (Hnum : numbers values).
  { intros i. unfold entry. destruct (values !! i) as [v|] eqn:E; [by eapply Forall_lookup_1 in Hfa|].
    by destruct (flt_nan _ _ flt_0_1). }
  assert (Hkl : (0 < k < length values)%nat) by (unfold k; lia).
  assert (Hb0 : best_of values k (seq 0 k) (take k values)).
  { split; [apply NoDup_seq|apply Forall_forall; intros i Hi%elem_of_seq; lia| |].
    - apply list_eq. intros i. rewrite list_lookup_fmap. destruct (decide (i < k)%nat).
      + rewrite lookup_take_lt, lookup_seq_lt by done. cbn. unfold entry.
        destruct (lookup_lt_is_Some_2 values i) as [v ->]; [lia|done].
      + rewrite lookup_take_ge, lookup_seq_ge by lia. done.
    - intros i j _ Hj Hn. exfalso. apply Hn, elem_of_seq. lia. }
  assert (Edrop : drop k (imap pair values) = imap (λ i v, ((k + i)%nat, v)) (drop k values)).
  { apply list_eq. intros i. rewrite lookup_drop, !list_lookup_imap, lookup_drop. done. }
  destruct (keep_top_fold values (drop k values) k (seq 0 k) (take k values) Hnum) as [Hb Hl].
  { intros E. apply (f_equal length) in E. rewrite length_seq in E. cbn in E. lia. }
  { done. }
  { intros i. by rewrite lookup_drop. }
  rewrite Edrop. eexists. split; [reflexivity|]. rewrite length_drop in Hb. replace (k + (length values - k))%nat with (length values) in Hb by lia.
  split; [apply Hb|]. rewrite Hl, length_seq. split; [unfold k in *; lia|]. split; [apply Hb|apply (bo_best _ _ _ _ Hb)].
Qed.
End Top.

(** ** A batch and its scores *)
Section Scoring.
Context {F P : Type} `{Num F}.
Context (score_over : P → DateRange → F) (splits : list Split).
Implicit Types (combo base : RunConfig F) (bases combos : list (RunConfig F)) (results block : list (RunResult F P)) (origins : list (configOrigin F)).

(** The split each of a combination's runs belongs to, in their order. *)
Definition splits_of (bases : nat) : list (option nat) :=
  match splits with [] => replicate bases None | _ => seq 0 (length splits) ≫= λ i, replicate bases (Some i) end.
(** The reference: a combination's score is the mean of the scores of its own
    block of runs, each over the test window of its split. *)
Definition score_block bases combo block : CombinationScore F P :=
  mkScore (rc_Params combo) (rc_Preset combo)
    (mean_score (omap (λ rs : RunResult F P * option nat, run_score score_over splits rs.1 rs.2) (zip block (splits_of (length bases))))) block.
Fixpoint score_blocks bases combos results : list (CombinationScore F P) :=
  match combos with
  | [] => []
  | combo :: combos =>
      let n := length (splits_of (length bases)) in
      score_block bases combo (take n results) :: score_blocks bases combos (drop n results)
  end.

Definition origins_of bases (id : nat) combo : list (configOrigin F) := (λ s, mkOrigin id s combo) <$> splits_of (length bases).
Lemma expand_combo_origins bases id combo : (expand_combo splits bases id combo).*2 = origins_of bases id combo.
Proof.
  unfold expand_combo, origins_of, splits_of. destruct splits as [|sp0 sps].
  { rewrite <-list_fmap_compose, fmap_replicate. cbn. induction bases; cbn; congruence. }
  set (l := sp0 :: sps). assert (Hgen : ∀ (g : nat → nat) (l : list Split),
    ((imap (λ i sp, (g i, sp)) l ≫= λ isp : nat * Split, let '(splitIdx, sp) := isp in
       (λ base, (with_metadata [("_combination_id"%string, pretty id); ("_split_index"%string, pretty splitIdx); ("_split_name"%string, sp_Name sp)]
                   (with_range (sp_FullRange sp) (mergeComboWithBase combo base)), mkOrigin id (Some splitIdx) combo)) <$> bases) : list (RunConfig F * configOrigin F)).*2
    = (λ s, mkOrigin id s combo) <$> ((g <$> seq 0 (length l)) ≫= λ i, replicate (length bases) (Some i))).
  { intros g l'. revert g. induction l' as [|sp l' IH]; intros g; [done|]. cbn [imap mbind list_bind length seq fmap list_fmap].
    rewrite !fmap_app. f_equal.
    - rewrite <-list_fmap_compose, fmap_replicate. clear IH. induction bases; cbn; congruence.
    - specialize (IH (g ∘ S)). rewrite <-fmap_S_seq, <-list_fmap_compose. exact IH. }
  specialize (Hgen (λ i, i) l). rewrite list_fmap_id in Hgen. exact Hgen.
Qed.

Lemma expand_batch_cons bases id combo combos :
  expand_batch splits bases id (combo :: combos) = expand_combo splits bases id combo ++ expand_batch splits bases (S id) combos.
Proof.
  unfold expand_batch. cbn. rewrite Nat.add_0_r. f_equal. f_equal. apply imap_ext. intros i x _. cbn. by rewrite Nat.add_succ_r.
Qed.
Lemma length_origins bases id combo : length (origins_of bases id combo) = length (splits_of (length bases)).
Proof. apply length_fmap. Qed.

(** A group holds the runs of its combination, in order. *)
Definition runs_for (id : nat) (l : list (RunResult F P * configOrigin F)) := keep (λ ro, (og_combinationID ro.2 =? id)%nat) l.
Definition group_of (id : nat) (l : list (RunResult F P * configOrigin F)) : option (comboGroup (F := F) (P := P)) :=
  match runs_for id l with [] => None | ro :: rest => Some (mkGroup (og_combo ro.2) (ro :: rest)) end.
Lemma runs_for_app id l1 l2 : runs_for id (l1 ++ l2) = runs_for id l1 ++ runs_for id l2.
Proof. apply keep_app. Qed.
Lemma group_result_all l id : fold_left group_result l ∅ !! id = group_of id l.
Proof.
  induction l as [|ro l IH] using rev_ind; [done|]. rewrite fold_left_app. cbn [fold_left]. unfold group_result at 1.
  unfold group_of, runs_for. rewrite keep_app, keep_cons. cbn [keep].
  destruct (Nat.eqb_spec (og_combinationID ro.2) id) as [E|E].
  - subst id. rewrite lookup_insert_eq, IH. unfold group_of, runs_for. by destruct (keep _ l).
  - rewrite lookup_insert_ne, IH, app_nil_r by done. done.
Qed.

Lemma zip_split {A B} (l : list A) (k1 k2 : list B) :
  (length k1 <= length l)%nat → zip l (k1 ++ k2) = zip (take (length k1) l) k1 ++ zip (drop (length k1) l) k2.
Proof.
  revert l. induction k1 as [|b k1 IH]; intros l Hl; [done|]. destruct l as [|a l]; [cbn in Hl; lia|]. cbn. f_equal. apply IH. cbn in Hl. lia.
Qed.
Lemma runs_for_none id l : Forall (λ ro : RunResult F P * configOrigin F, og_combinationID ro.2 ≠ id) l → runs_for id l = [].
Proof. intros Hl. apply keep_false. eapply Forall_impl; [exact Hl|]. cbn. intros ro Hne. by apply Nat.eqb_neq. Qed.
Lemma runs_for_all id l : Forall (λ ro : RunResult F P * configOrigin F, og_combinationID ro.2 = id) l → runs_for id l = l.
Proof. intros Hl. apply keep_all. eapply Forall_impl; [exact Hl|]. cbn. intros ro ->. by rewrite Nat.eqb_refl. Qed.
Lemma Forall_zip_r {A B} (R : B → Prop) (l : list A) (k : list B) : Forall R k → Forall (λ ab : A * B, R ab.2) (zip l k).
Proof. intros Hk. revert l. induction Hk as [|b k Hb Hk IH]; intros [|a l]; cbn; constructor; auto. Qed.
Lemma batch_origins_ids bases id combos :
  Forall (λ o : configOrigin F, (id <= og_combinationID o)%nat) (expand_batch splits bases id combos).*2.
Proof.
  revert id. induction combos as [|combo combos IH]; intros id; [constructor|].
  rewrite expand_batch_cons, fmap_app, expand_combo_origins. apply Forall_app. split.
  - apply Forall_forall. intros o (s & -> & _)%list_elem_of_fmap. done.
  - eapply Forall_impl; [apply IH|]. cbn. lia.
Qed.

Lemma score_group_block bases id combo block :
  length block = length (splits_of (length bases)) →
  score_group score_over splits combo (group_of id (zip block (origins_of bases id combo))) = score_block bases combo block.
Proof.
  intros Hl. unfold group_of. rewrite runs_for_all.
  2:{ apply (Forall_zip_r (λ o, og_combinationID o = id)), Forall_forall. intros o (s & -> & _)%list_elem_of_fmap. done. }
  assert (Hmean : ∀ ss, omap (λ ro : RunResult F P * configOrigin F, run_score score_over splits ro.1 (og_split ro.2)) (zip block ((λ s, mkOrigin id s combo) <$> ss))
    = omap (λ rs : RunResult F P * option nat, run_score score_over splits rs.1 rs.2) (zip block ss)).
  { clear Hl. induction block as [|r block IH]; intros [|s ss]; cbn; [done..|]. rewrite IH. done. }
  assert (Hfst : (zip block (origins_of bases id combo)).*1 = block) by (apply fst_zip; rewrite length_origins; lia).
  assert (Hsnd : (zip block (origins_of bases id combo)).*2 = origins_of bases id combo) by (apply snd_zip; rewrite length_origins; lia).
  unfold score_block. rewrite <-Hmean. fold (origins_of bases id combo). revert Hfst Hsnd.
  destruct (zip block (origins_of bases id combo)) as [|ro l] eqn:Ez; intros <- Hsnd; [done|].
  unfold score_group. cbn [cg_combo cg_runs].
  assert (Ec : og_combo ro.2 = combo).
  { assert (Hin : ro.2 ∈ origins_of bases id combo).
    { rewrite <-Hsnd. set_solver. }
    apply list_elem_of_fmap in Hin as (s & -> & _). done. }
  by rewrite Ec.
Qed.

(** C31. A batch is scored combination by combination.  Grouping the runs by the
    identifier of their combination gives each combination, in order, the mean of
    the valid scores of its own consecutive block of runs, each scored over the
    test window of its split (over its whole range without splits); a combination
    none of whose runs has a score gets NaN, and every combination gets a score. *)
Theorem scoreBatch_scores_blocks bases combos results (firstID : nat) :
  length results = length (expand_batch splits bases firstID combos) →
  scoreBatch score_over splits combos results (expand_batch splits bases firstID combos).*2 firstID =
    score_blocks bases combos results.
Proof.
  intros Hl. unfold scoreBatch. set (groups := fold_left _ _ _).
  assert (Hg : ∀ id, (firstID <= id)%nat → groups !! id = group_of id (zip results (expand_batch splits bases firstID combos).*2))
    by (intros; apply group_result_all).
  clearbody groups. revert results firstID Hl groups Hg. induction combos as [|combo combos IH]; intros results firstID Hl groups Hg; [done|].
  cbn [imap score_blocks]. set (n := length (splits_of (length bases))).
  assert (En : length (expand_combo splits bases firstID combo) = n).
  { rewrite <-(length_fmap snd), expand_combo_origins. apply length_origins. }
  rewrite expand_batch_cons, length_app, En in Hl.
  assert (Hz : zip results (expand_batch splits bases firstID (combo :: combos)).*2 =
    zip (take n results) (origins_of bases firstID combo) ++ zip (drop n results) (expand_batch splits bases (S firstID) combos).*2).
  { rewrite expand_batch_cons, fmap_app, expand_combo_origins, zip_split; rewrite ?length_origins; [done|]. fold n. lia. }
  rewrite Hz in Hg.
  assert (Hfst : ∀ id, (S firstID <= id)%nat → groups !! id = group_of id (zip (drop n results) (expand_batch splits bases (S firstID) combos).*2)).
  { intros id Hid. rewrite Hg by lia. unfold group_of. rewrite runs_for_app.
    rewrite (runs_for_none id (zip (take n results) _)); [done|]. apply (Forall_zip_r (λ o, og_combinationID o ≠ id)), Forall_forall.
    intros o (s & -> & _)%list_elem_of_fmap. cbn. lia. }
  f_equal.
  - rewrite Nat.add_0_r, Hg by done. rewrite <-score_group_block with (id := firstID) by (rewrite length_take; fold n; lia).
    f_equal. unfold group_of. rewrite runs_for_app.
    rewrite (runs_for_none firstID (zip (drop n results) _)); [by rewrite app_nil_r|].
    apply (Forall_zip_r (λ o, og_combinationID o ≠ firstID)). eapply Forall_impl; [apply (batch_origins_ids bases (S firstID) combos)|]. cbn. lia.
  - rewrite <-(IH (drop n results) (S firstID)) with (groups := groups); [|rewrite length_drop; lia|done].
    apply imap_ext. intros i x _. unfold compose. by rewrite Nat.add_succ_r.
Qed.
End Scoring.

(** ** A Bayesian search ends *)
Section Ends.
Context {F P R : Type} `{Num F} `{NumSqrt F} `{NumNormal F} `{GoFloatText F} `{GoInf F} `{GoRand R} `{GoRandFloat R F}.
Implicit Types (bs : @bayesianStrategy R) (scores : list (CombinationScore F P)) (bases : list (RunConfig F)).

(** A sweep that values are drawn from has one. *)
Definition drawable (sweep : ParamSweep) : Prop := ps_isPreset sweep = true ∨ has_range sweep = false → ps_values sweep ≠ [].

Lemma choose_ok vals (r : R) : vals ≠ [] → ∃ val r', choose vals r = Ok (val, r').
Proof. intros Hne. unfold choose. destruct vals as [|v vals]; [done|]. destruct (IntN _ _) as [i r']. eauto. Qed.
Lemma sample_sweep_ok sweep (st : RunConfig F * R) : drawable sweep → ∃ st', sample_sweep sweep st = Ok st'.
Proof.
  intros Hd. unfold sample_sweep. destruct st as [cfg r]. unfold drawable in Hd.
  destruct (ps_isPreset sweep); [|destruct (has_range sweep)].
  - destruct (choose_ok (ps_values sweep) r) as (val & r' & ->); [auto|]. cbn. eauto.
  - destruct (bounds_of sweep). destruct (Float64 r). eauto.
  - destruct (choose_ok (ps_values sweep) r) as (val & r' & ->); [auto|]. cbn. eauto.
Qed.
Lemma sample_sweeps_ok sweeps (st : RunConfig F * R) : Forall drawable sweeps → ∃ st', sample_sweeps sweeps st = Ok st'.
Proof.
  intros Hd. revert st. induction Hd as [|sweep sweeps Hs _ IH]; intros st; [by exists st|]. cbn [sample_sweeps].
  destruct (sample_sweep_ok sweep st Hs) as (st' & ->). cbn. apply IH.
Qed.
Lemma sample_batch_ok (count : Z) sweeps (r : R) : Forall drawable sweeps → (0 <= count)%Z →
  ∃ (configs : list (RunConfig F)) r', sample_batch count sweeps r = Ok (configs, r') ∧ length configs = Z.to_nat count.
Proof.
  intros Hd Hc. unfold sample_batch. destruct (Z.ltb_spec count 0); [lia|]. generalize (Z.to_nat count). intros n.
  revert r. induction n as [|n IH]; intros r; cbn [sample_configs]; [by eexists [], r|].
  destruct (sample_sweeps_ok sweeps (zero_run, r) Hd) as ([cfg r1] & ->). cbn.
  destruct (IH r1) as (configs & r2 & -> & Hl). cbn. exists (cfg :: configs), r2. split; [done|]. cbn. by rewrite Hl.
Qed.

Lemma keep_top_length (st : list nat * list F) iv : length (keep_top st iv).1 = length st.1.
Proof. unfold keep_top. destruct st as [i v]. destruct (flt _ _); [cbn; apply length_insert|done]. Qed.
Lemma topKIndices_ok (values : list F) (kk : Z) : (0 < kk)%Z →
  ∃ idx, topKIndices values kk = Ok idx ∧ (length idx <= Z.to_nat kk)%nat.
Proof.
  intros Hk. unfold topKIndices. destruct (Z.leb_spec (Z.of_nat (length values)) kk).
  { eexists. split; [reflexivity|]. rewrite length_seq. lia. }
  destruct (Z.ltb_spec kk 0); [lia|]. destruct (Z.eqb_spec kk 0); [lia|]. eexists. split; [reflexivity|].
  apply (fold_left_keeps _ (λ st, length st.1 <= Z.to_nat kk)%nat).
  - cbn. by rewrite length_seq.
  - intros st iv _ Hl. by rewrite keep_top_length.
Qed.

Definition same_settings bs bs' : Prop :=
  bs_sweeps bs' = bs_sweeps bs ∧ batchSize bs' = batchSize bs ∧ maxIterations bs' = maxIterations bs ∧
  initialSamples bs' = initialSamples bs.

Lemma guided_ok bs scores : (0 < batchSize bs)%Z →
  ∃ guided bs', generateGuidedSamples bs scores = Ok (guided, bs') ∧ same_settings bs bs' ∧ guidedCount bs' = guidedCount bs ∧
    ∀ configs, guided = Ok configs → (length configs <= Z.to_nat (batchSize bs))%nat.
Proof.
  intros Hb. unfold generateGuidedSamples. destruct (valid_scores scores) as [|sc scs]; [by eexists _, bs|].
  destruct (Fit _ _ _) as [gp|e]; [|by eexists _, bs]. destruct (draw_points _ _ _) as [candidates r].
  destruct (topKIndices_ok (map (λ c, let '(mu, sigma) := Predict gp c in expectedImprovement mu sigma (best_score scores)) candidates)
    (batchSize bs) Hb) as (idx & -> & Hl). cbn. eexists _, _. split; [reflexivity|]. split; [done|]. split; [done|].
  intros configs [= <-]. by rewrite length_map.
Qed.

(** A round of the search after the first scores. *)
Lemma bayesian_Next_guided bs scores : (0 < batchSize bs)%Z → Forall drawable (bs_sweeps bs) → scores ≠ [] →
  ∃ bs' configs done_, bayesian_Next bs scores = Ok (bs', configs, done_) ∧ same_settings bs bs' ∧
    (length configs <= Z.to_nat (batchSize bs))%nat ∧
    ((maxIterations bs <= guidedCount bs)%Z → configs = [] ∧ done_ = true) ∧
    ((guidedCount bs < maxIterations bs)%Z → guidedCount bs' = (guidedCount bs + 1)%Z).
Proof.
  intros Hb Hd Hs. destruct scores as [|sc scs]; [done|]. unfold bayesian_Next. set (scores := sc :: scs).
  destruct (Z.leb_spec (maxIterations bs) (guidedCount bs)).
  { eexists bs, [], true. split; [done|]. split; [done|]. split; [cbn; lia|]. split; [done|]. intros; lia. }
  set (bs1 := mkBayesian _ _ _ _ _ _). destruct (guided_ok bs1 scores Hb) as (guided & bs2 & -> & Hset & Hg & Hlen). cbn.
  destruct guided as [configs|e].
  - eexists bs2, configs, _. split; [reflexivity|]. split; [done|]. split; [by apply Hlen|]. split; [lia|]. by intros _.
  - unfold generateRandomBatch. destruct Hset as (E1 & E2 & E3 & E4). rewrite E1, E2. cbn.
    destruct (sample_batch_ok (batchSize bs) (bs_sweeps bs) (bs_rng bs2) Hd ltac:(lia)) as (configs & r & -> & Hl). cbn.
    eexists _, configs, false. split; [reflexivity|]. split; [done|]. split; [lia|]. split; [lia|]. by intros _.
Qed.

Context (run : RunConfig F → result P) (cancelled : nat → nat → option error) (score_over : P → DateRange → F) (splits : list Split).
Abbreviation search_loop := (search_loop run cancelled score_over splits).
Abbreviation runSearch := (runSearch run cancelled score_over splits).

Lemma length_scoreBatch combos results origins (id : nat) :
  length (scoreBatch (P := P) score_over splits combos results origins id) = length combos.
Proof. apply length_imap. Qed.

Lemma guided_rounds m bases (st : SearchState F P (@bayesianStrategy R)) :
  let bs := se_strategy st in
  (0 < batchSize bs)%Z → Forall drawable (bs_sweeps bs) → se_scores st ≠ [] → length (se_scores st) = se_nextID st →
  (maxIterations bs - guidedCount bs <= Z.of_nat m)%Z →
  ∃ st', search_loop (S m) bases st = Some (Ok st') ∧ length (se_scores st') = se_nextID st' ∧
    (se_nextID st' <= se_nextID st + m * Z.to_nat (batchSize bs))%nat.
Proof.
  revert st. induction m as [|m IH]; intros st bs Hb Hd Hs Hid Hm.
  - cbn [Search.search_loop]. unfold search_round. cbn [Search_Next bayesian_strategy].
    destruct (bayesian_Next_guided (se_strategy st) (se_scores st) Hb Hd Hs) as (bs' & configs & done_ & -> & _ & _ & Hend & _).
    destruct Hend as [-> ->]; [fold bs; lia|]. cbn. eexists. split; [reflexivity|]. cbn. split; [done|lia].
  - remember (S m) as fuel eqn:Ef. cbn [Search.search_loop]. unfold search_round. cbn [Search_Next bayesian_strategy].
    destruct (bayesian_Next_guided (se_strategy st) (se_scores st) Hb Hd Hs) as (bs' & configs & done_ & -> & Hset & Hlen & Hend & Hcount).
    destruct Hset as (E1 & E2 & E3 & E4). fold bs in Hlen, Hend, Hcount, E1, E2, E3, E4.
    destruct (Z.le_gt_cases (maxIterations bs) (guidedCount bs)) as [Hle|Hgt].
    { destruct Hend as [-> ->]; [done|]. cbn. eexists. split; [reflexivity|]. cbn. split; [done|lia]. }
    specialize (Hcount ltac:(lia)). cbn [mbind result_bind].
    set (st1 := mkSearch bs' (se_results st ++ runBatch run cancelled (se_batch st) (expand_batch splits bases (se_nextID st) configs).*1)
       (se_scores st ++ scoreBatch score_over splits configs (runBatch run cancelled (se_batch st) (expand_batch splits bases (se_nextID st) configs).*1)
          (expand_batch splits bases (se_nextID st) configs).*2 (se_nextID st)) (se_nextID st + length configs) (S (se_batch st))).
    assert (Hst1 : length (se_scores st1) = se_nextID st1) by (cbn; rewrite length_app, length_scoreBatch; lia).
    assert (Hnext : ∃ st', search_loop fuel bases st1 = Some (Ok st') ∧ length (se_scores st') = se_nextID st' ∧
      (se_nextID st' <= se_nextID st + fuel * Z.to_nat (batchSize bs))%nat).
    { subst fuel. destruct (IH st1) as (st' & E & Hl & Hn); cbn [st1 se_strategy se_scores].
      - by rewrite E2.
      - by rewrite E1.
      - intros Hnil. apply app_eq_nil in Hnil as [? _]. done.
      - done.
      - rewrite E3, Hcount. lia.
      - exists st'. split; [done|]. split; [done|]. cbn [st1 se_strategy se_nextID] in Hn. rewrite E2 in Hn. lia. }
    destruct configs as [|cfg configs], done_; try exact Hnext.
    + eexists. split; [reflexivity|]. cbn. split; [done|lia].
    + eexists. split; [reflexivity|]. fold st1. split; [done|]. cbn [st1 se_nextID]. lia.
Qed.

(** C30. A Bayesian search ends.  Whatever the runs, their scores, the splits and
    the generator do, a search with a positive batch and at least one initial
    sample, over sweeps with values, stops within two rounds more than the guided
    iterations it is allowed, without a panic; every combination proposed has a
    score, and no more are proposed than the initial samples and a batch per
    guided iteration. *)
Theorem bayesian_search_ends bases bs :
  (0 < batchSize bs)%Z → (0 < initialSamples bs)%Z → (0 <= maxIterations bs)%Z → guidedCount bs = 0%Z → Forall drawable (bs_sweeps bs) →
  ∃ st, runSearch (Z.to_nat (maxIterations bs) + 2) bases bs = Some (Ok st) ∧
    length (se_scores st) = se_nextID st ∧
    (Z.of_nat (se_nextID st) <= initialSamples bs + maxIterations bs * batchSize bs)%Z.
Proof.
  intros Hb Hi Hmax Hg Hd. rewrite Nat.add_comm. unfold Search.runSearch. cbn [Nat.add].
  remember (S (Z.to_nat (maxIterations bs))) as fuel eqn:Ef. cbn [Search.search_loop]. unfold search_round.
  cbn [Search_Next bayesian_strategy se_strategy se_scores]. unfold bayesian_Next, generateInitialSamples, generateRandomBatch.
  destruct (sample_batch_ok (initialSamples bs) (bs_sweeps bs) (bs_rng bs) Hd ltac:(lia)) as (configs & r & -> & Hl). cbn [mbind result_bind].
  set (st1 := mkSearch _ _ _ _ _).
  destruct (guided_rounds (Z.to_nat (maxIterations bs)) bases st1) as (st & E & Hs & Hn).
  - done.
  - done.
  - cbn. intros Hnil. apply (f_equal length) in Hnil. rewrite length_scoreBatch, Hl in Hnil. cbn in Hnil. lia.
  - cbn. by rewrite length_scoreBatch.
  - cbn. lia.
  - exists st. destruct configs as [|cfg configs]; [cbn in Hl; lia|]. subst fuel. split; [exact E|]. split; [done|].
    cbn [st1 se_nextID se_strategy put_rng batchSize] in Hn. rewrite Hl in Hn. lia.
Qed.

(** An initial batch of none is asked for again without end. *)
Lemma empty_batch_never_ends fuel bases bs :
  initialSamples bs = 0%Z → runSearch fuel bases bs = None.
Proof.
  intros Hi. unfold Search.runSearch. generalize 0%nat at 2. generalize (@nil (RunResult F P)). intros res b. revert bs Hi res b.
  induction fuel as [|fuel IH]; intros bs Hi res b; [done|]. cbn [Search.search_loop]. unfold search_round.
  cbn [Search_Next bayesian_strategy se_strategy se_scores]. unfold bayesian_Next, generateInitialSamples, generateRandomBatch, sample_batch.
  rewrite Hi. change (Z.to_nat 0) with 0%nat. cbn. rewrite app_nil_r. by apply IH.
Qed.
End Ends.

(** ** A search, run *)
Section Searched.
Local Open Scope Z_scope.
(** A counter as the generator; exponentials and roots that are constant. *)
Local Instance counter_rand : GoRand nat := {| rng_seed := λ _ _, 0%nat; IntN := λ n r, ((r mod n)%nat, S r); Perm := λ n r, (seq 0 n, S r) |}.
Local Instance counter_floats : GoRandFloat nat xq := {| Float64 := λ r, (lit (Z.of_nat r mod 7) 7, S r) |}.
Local Instance flat_normal : NumNormal xq := {| fexp := λ _, of_Z 1; ferf := λ _, of_Z 0; fpi := of_Z 3; fsqrt_2 := of_Z 1 |}.
Local Instance flat_sqrt : NumSqrt xq := {| fsqrt := λ _, of_Z 1 |}.
Local Instance plain_text : GoFloatText xq := {| ParseFloat := λ _, None; Sprintf_g := λ _, ""%string |}.

Definition acquisition : list xq := of_Z <$> [3; 1; 4; 1; 5].
Lemma topKIndices_selects_witness :
  ∃ idx, topKIndices acquisition 2 = Ok idx ∧ idx = [4; 2]%nat ∧
    ∀ i j, i ∈ idx → (j < 5)%nat → j ∉ idx → flt (entry acquisition i) (entry acquisition j) = false.
Proof.
  destruct (topKIndices_selects acquisition 2 ltac:(lia) ltac:(by repeat constructor)) as (idx & E & _ & _ & _ & Hbest).
  exists idx. split; [done|]. split; [|exact Hbest].
  assert (Ev : topKIndices acquisition 2 = Ok [4; 2]%nat) by (vm_compute; reflexivity). rewrite Ev in E. by injection E.
Defined.

(** Two splits, two combinations; the second run of the first combination fails. *)
Definition both_halves : list Split :=
  [mkSplit "a" (mkRange (mkTime 0 "UTC") (mkTime 2 "UTC")) (mkRange (mkTime 0 "UTC") (mkTime 1 "UTC")) (mkRange (mkTime 1 "UTC") (mkTime 2 "UTC")) [];
   mkSplit "b" (mkRange (mkTime 0 "UTC") (mkTime 4 "UTC")) (mkRange (mkTime 0 "UTC") (mkTime 2 "UTC")) (mkRange (mkTime 2 "UTC") (mkTime 4 "UTC")) []]%string.
Definition two_combos : list (RunConfig xq) := [with_param "n" "1" zero_run; with_param "n" "2" zero_run]%string.
Definition window_end (p : xq) (r : DateRange) : xq := fadd p (of_Z (t_ns (End_ r))).
Definition four_runs : list (RunResult xq xq) :=
  [mkResult zero_run (Some (of_Z 10)) None; mkResult zero_run None (Some "failed"%string);
   mkResult zero_run (Some (of_Z 20)) None; mkResult zero_run (Some (of_Z 30)) None].
Lemma scoreBatch_scores_blocks_witness :
  scoreBatch window_end both_halves two_combos four_runs (expand_batch both_halves [zero_run] 5 two_combos).*2 5 =
    score_blocks window_end both_halves [zero_run] two_combos four_runs ∧
  zip_with feq (cs_Score <$> score_blocks window_end both_halves [zero_run] two_combos four_runs) [of_Z 12; of_Z 28] = [true; true].
Proof.
  split; [|vm_compute; reflexivity].
  apply (scoreBatch_scores_blocks window_end both_halves [zero_run] two_combos four_runs 5). vm_compute. reflexivity.
Defined.

(** One sweep of two values; two samples, then two batches of two. *)
Definition small_search : @bayesianStrategy nat :=
  WithMaxIterations 2 (WithBatchSize 2 (NewBayesian [SweepValues "n" ["1"; "2"]] 1 [WithInitialSamples 2]))%string.
Lemma bayesian_search_ends_witness :
  ∃ st, runSearch (λ cfg, Ok (of_Z (Z.of_nat (size (rc_Params cfg))))) (λ _ _, None) window_end both_halves 4 [zero_run] small_search = Some (Ok st) ∧
    length (se_scores st) = se_nextID st ∧ Z.of_nat (se_nextID st) <= 6.
Proof.
  apply (bayesian_search_ends (λ cfg, Ok (of_Z (Z.of_nat (size (rc_Params cfg))))) (λ _ _, None) window_end both_halves [zero_run] small_search);
    [reflexivity|reflexivity|cbn; lia|reflexivity|].
  apply Forall_singleton. by intros _.
Defined.
End Searched.
