(* ===== verification/FrameOpsProps.v ===== *)
(** * FrameOpsProps: inserting columns and combining frames

    The column of an asset and a metric sits at a position computed from the
    two; insertion keeps every other column in place, and elementwise
    arithmetic pairs the columns of the two frames by asset and metric. *)
From Stdlib Require Import ZArith Lia Sorted.
From stdpp Require Import base list gmap strings sorting.
From S2P Require Import Prelude Num GoTime Asset Period Frame FrameOps Samples FrameProps.

(** ** Row-major positions *)
Lemma cell_div (w i j : nat) : (j < w)%nat → ((i * w + j) / w = i)%nat.
Proof. intros Hj. rewrite Nat.div_add_l by lia. rewrite Nat.div_small by done. lia. Qed.
Lemma cell_mod (w i j : nat) : (j < w)%nat → ((i * w + j) mod w = j)%nat.
Proof. intros Hj. rewrite Nat.add_comm, Nat.Div0.mod_add. by apply Nat.mod_small. Qed.
Lemma cell_inj (w i j i' j' : nat) :
  (j < w)%nat → (j' < w)%nat → (i * w + j = i' * w + j')%nat → i = i' ∧ j = j'.
Proof.
  intros Hj Hj' E. split; [by rewrite <-(cell_div w i j), E, cell_div|by rewrite <-(cell_mod w i j), E, cell_mod].
Qed.
Lemma cell_lt (h w i j : nat) : (i < h)%nat → (j < w)%nat → (i * w + j < h * w)%nat.
Proof. nia. Qed.

Lemma elem_of_zip_seq {A} (l : list A) i x : (i, x) ∈ zip (seq 0 (length l)) l ↔ l !! i = Some x.
Proof.
  rewrite list_elem_of_lookup. split.
  - intros (k & Hk). apply lookup_zip_with_Some in Hk as (j & y & [= -> ->] & Hj & Hy).
    by apply lookup_seq in Hj as [-> _].
  - intros Hi. exists i. apply lookup_zip_with_Some. exists i, x. split_and!; [done| |done].
    apply lookup_seq. split; [done|]. by eapply lookup_lt_Some.
Qed.

Section Frames.
Context {F : Type} `{Num F} `{TZDB}.
Implicit Types (df r : DataFrame F) (a b : Asset) (m : Metric).

(** Distinct identifiers and metrics: every cell has a place of its own. *)
Definition distinct df : Prop := NoDup (CompositeFigi <$> df_assets df) ∧ NoDup (df_metrics df).

(** ** Positions of assets and metrics *)
Lemma index_assets_Some n (l : list Asset) idx figi i :
  NoDup (CompositeFigi <$> l) → index_assets n l idx !! figi = Some i → idx !! figi = None →
  (n <= i)%nat ∧ ∃ b, l !! (i - n)%nat = Some b ∧ CompositeFigi b = figi.
Proof.
  intros Hnd Hi Hidx. destruct (decide (figi ∈ CompositeFigi <$> l)) as [(b & -> & Hb)%list_elem_of_fmap|Hno].
  - apply list_elem_of_lookup in Hb as (k & Hk). rewrite (index_assets_lookup n l idx k) in Hi by done.
    simplify_eq. split; [lia|]. exists b. by replace (n + k - n)%nat with k by lia.
  - rewrite index_assets_other in Hi by done. congruence.
Qed.

Lemma index_assets_snoc n (l : list Asset) idx a :
  index_assets n (l ++ [a]) idx = <[CompositeFigi a := (n + length l)%nat]> (index_assets n l idx).
Proof.
  revert n idx. induction l as [|b l IH]; intros n idx; cbn; [by rewrite Nat.add_0_r|].
  rewrite IH. by replace (S n + length l)%nat with (n + S (length l))%nat by lia.
Qed.

Lemma asset_known df figi i :
  frame_shape df → distinct df → df_assetIndex df !! figi = Some i →
  ∃ b, df_assets df !! i = Some b ∧ CompositeFigi b = figi.
Proof.
  intros Hs [Ha _] Hi. rewrite (fs_index _ Hs) in Hi.
  destruct (index_assets_Some 0 (df_assets df) ∅ figi i Ha Hi) as (_ & b & Hb & Hf); [apply lookup_empty|].
  exists b. by rewrite Nat.sub_0_r in Hb.
Qed.

Lemma asset_unknown df figi :
  frame_shape df → distinct df → df_assetIndex df !! figi = None → figi ∉ CompositeFigi <$> df_assets df.
Proof.
  intros Hs [Ha _] Hi (b & -> & Hb)%list_elem_of_fmap. apply list_elem_of_lookup in Hb as (k & Hk).
  rewrite (fs_index _ Hs), (index_assets_lookup 0 _ _ k) in Hi by done. done.
Qed.

Lemma asset_position df a i :
  frame_shape df → distinct df → df_assets df !! i = Some a → df_assetIndex df !! CompositeFigi a = Some i.
Proof. intros Hs [Ha _] Hi. by rewrite (fs_index _ Hs), (index_assets_lookup 0 _ _ i). Qed.

Lemma metric_pos_Some n (l : list Metric) m i :
  metric_pos n l m = Some i → (n <= i)%nat ∧ l !! (i - n)%nat = Some m.
Proof.
  revert n. induction l as [|x l IH]; intros n Hi; [done|]. cbn in Hi. case_bool_decide.
  - simplify_eq. split; [lia|]. by rewrite Nat.sub_diag.
  - apply IH in Hi as [Hle Hl]. split; [lia|]. by replace (i - n)%nat with (S (i - S n)) by lia.
Qed.
Lemma metric_pos_None n (l : list Metric) m : metric_pos n l m = None ↔ m ∉ l.
Proof.
  revert n. induction l as [|x l IH]; intros n; cbn; [split; [set_solver|done]|]. case_bool_decide.
  - subst. split; [done|]. set_solver.
  - rewrite IH. set_solver.
Qed.

Lemma metric_known df m i : metricIndex df m = Some i → df_metrics df !! i = Some m.
Proof. intros Hi. apply metric_pos_Some in Hi as [_ Hi]. by rewrite Nat.sub_0_r in Hi. Qed.

(** The column of a known asset and metric. *)
Lemma Column_cell df a a' m ai mi :
  frame_shape df → distinct df → df_assets df !! ai = Some a' → CompositeFigi a = CompositeFigi a' →
  df_metrics df !! mi = Some m →
  Column df a m = default [] (df_columns df !! (ai * length (df_metrics df) + mi)%nat).
Proof.
  intros Hs Hd Hai Hfigi Hmi. destruct (lookup_lt_is_Some_2 (df_columns df) (colIdx df ai mi)) as [col Hcol].
  { rewrite (fs_columns _ Hs). apply cell_lt; by eapply lookup_lt_Some. }
  destruct (stored_column df a a' m ai mi col Hs (proj1 Hd) (proj2 Hd) Hai Hfigi Hmi Hcol) as (E1 & E2 & E3).
  unfold Column. rewrite (fs_err _ Hs), E1, E2, E3. unfold colIdx in Hcol. by rewrite Hcol.
Qed.

Lemma length_Column df a a' m :
  frame_shape df → distinct df → a' ∈ df_assets df → CompositeFigi a = CompositeFigi a' → m ∈ df_metrics df →
  length (Column df a m) = length (df_times df).
Proof.
  intros Hs Hd (ai & Hai)%list_elem_of_lookup Hf (mi & Hmi)%list_elem_of_lookup.
  rewrite (Column_cell df a a' m ai mi) by done.
  destruct (lookup_lt_is_Some_2 (df_columns df) (ai * length (df_metrics df) + mi)) as [col Hc].
  - rewrite (fs_columns _ Hs). apply cell_lt; by eapply lookup_lt_Some.
  - rewrite Hc. exact (Forall_lookup_1 _ _ _ _ (fs_rows _ Hs) Hc).
Qed.

(** ** Insertion *)
Lemma grow_columns_lookup oldA oldM newA newM n (cols : list (list F)) ai mi :
  (ai < newA)%nat → (mi < newM)%nat →
  grow_columns oldA oldM newA newM n cols !! (ai * newM + mi)%nat =
  Some (if (ai <? oldA)%nat && (mi <? oldM)%nat
        then default (replicate n (of_Z 0)) (cols !! (ai * oldM + mi)%nat) else replicate n (of_Z 0)).
Proof.
  intros Ha Hm. unfold grow_columns. rewrite list_lookup_fmap, lookup_seq_lt by (by apply cell_lt).
  cbn. by rewrite cell_div, cell_mod by done.
Qed.

Lemma grow_columns_rows oldA oldM newA newM n (cols : list (list F)) :
  Forall (λ col, length col = n) cols → Forall (λ col, length col = n) (grow_columns oldA oldM newA newM n cols).
Proof.
  intros Hc. apply Forall_fmap, Forall_forall. intros k _. cbn.
  case_match; [|by rewrite length_replicate]. destruct (cols !! _) as [col|] eqn:E; cbn; [|by rewrite length_replicate].
  exact (Forall_lookup_1 _ _ _ _ Hc E).
Qed.

(** The grown column list before the new column is stored. *)
Definition grown df (assets : list Asset) (metrics : list Metric) (known : bool) : list (list F) :=
  if known then df_columns df
  else grow_columns (length (df_assets df)) (length (df_metrics df)) (length assets) (length metrics)
         (length (df_times df)) (df_columns df).

Lemma grown_lookup df (la : list Asset) (lm : list Metric) known i j :
  frame_shape df → (known = true → la = [] ∧ lm = []) →
  (i < length (df_assets df ++ la))%nat → (j < length (df_metrics df ++ lm))%nat →
  grown df (df_assets df ++ la) (df_metrics df ++ lm) known !! (i * length (df_metrics df ++ lm) + j)%nat =
  Some (if (i <? length (df_assets df))%nat && (j <? length (df_metrics df))%nat
        then default [] (df_columns df !! (i * length (df_metrics df) + j)%nat)
        else replicate (length (df_times df)) (of_Z 0)).
Proof.
  intros Hs Hk Hi Hj.
  assert (Hcol : (i < length (df_assets df))%nat → (j < length (df_metrics df))%nat →
    ∃ col, df_columns df !! (i * length (df_metrics df) + j)%nat = Some col).
  { intros. apply lookup_lt_is_Some_2. rewrite (fs_columns _ Hs). by apply cell_lt. }
  unfold grown. destruct known.
  - destruct (Hk eq_refl) as [-> ->]. rewrite !app_nil_r in *.
    rewrite (proj2 (Nat.ltb_lt _ _) Hi), (proj2 (Nat.ltb_lt _ _) Hj). destruct (Hcol Hi Hj) as [col Hc]. by rewrite Hc.
  - rewrite grow_columns_lookup by done. f_equal. destruct (Nat.ltb_spec i (length (df_assets df))); [|done].
    destruct (Nat.ltb_spec j (length (df_metrics df))); [|done]. cbn. destruct (Hcol ltac:(done) ltac:(done)) as [col Hc].
    by rewrite Hc.
Qed.

Lemma grown_shape df (la : list Asset) (lm : list Metric) known :
  frame_shape df → (known = true → la = [] ∧ lm = []) →
  length (grown df (df_assets df ++ la) (df_metrics df ++ lm) known) =
    (length (df_assets df ++ la) * length (df_metrics df ++ lm))%nat ∧
  Forall (λ col, length col = length (df_times df)) (grown df (df_assets df ++ la) (df_metrics df ++ lm) known).
Proof.
  intros Hs Hk. unfold grown. destruct known.
  - destruct (Hk eq_refl) as [-> ->]. rewrite !app_nil_r. split; apply Hs.
  - split; [by unfold grow_columns; rewrite length_fmap, length_seq|]. apply grow_columns_rows, Hs.
Qed.

(** What a successful insertion returns, cell by cell. *)
Lemma Insert_cells df a m values r :
  frame_shape df → distinct df → length values = length (df_times df) → Insert df a m values = Ok r →
  ∃ la lm ai mi a',
    frame_shape r ∧ distinct r ∧ df_times r = df_times df ∧
    df_assets r = df_assets df ++ la ∧ df_metrics r = df_metrics df ++ lm ∧
    df_assets r !! ai = Some a' ∧ CompositeFigi a' = CompositeFigi a ∧ df_metrics r !! mi = Some m ∧
    ∀ i j, (i < length (df_assets r))%nat → (j < length (df_metrics r))%nat →
      df_columns r !! (i * length (df_metrics r) + j)%nat =
      Some (if decide (i = ai ∧ j = mi) then values
            else if (i <? length (df_assets df))%nat && (j <? length (df_metrics df))%nat
            then default [] (df_columns df !! (i * length (df_metrics df) + j)%nat)
            else replicate (length (df_times df)) (of_Z 0)).
Proof.
  intros Hs Hd Hl. unfold Insert. rewrite (fs_err _ Hs), Hl, Nat.eqb_refl. cbn [negb].
  pose proof (proj1 Hd) as Hda. pose proof (proj2 Hd) as Hdm.
  set (ka := df_assetIndex df !! CompositeFigi a). set (km := metricIndex df m).
  set (la := match ka with Some _ => [] | None => [a] end). set (lm := match km with Some _ => [] | None => [m] end).
  set (ai := default (length (df_assets df)) ka). set (mi := default (length (df_metrics df)) km).
  set (known := match ka, km with Some _, Some _ => true | _, _ => false end).
  assert (Hka : ∃ a', (df_assets df ++ la) !! ai = Some a' ∧ CompositeFigi a' = CompositeFigi a ∧
    NoDup (CompositeFigi <$> df_assets df ++ la) ∧
    match ka with Some _ => df_assetIndex df | None => <[CompositeFigi a := length (df_assets df)]> (df_assetIndex df) end
      = index_assets 0 (df_assets df ++ la) ∅).
  { unfold ai, la. destruct ka as [i|] eqn:E; cbn.
    - destruct (asset_known df _ i Hs Hd E) as (b & Hb & Hf). exists b. rewrite app_nil_r. by rewrite <-(fs_index _ Hs).
    - exists a. rewrite lookup_app_r, Nat.sub_diag by lia. split_and!; [done|done| |].
      + rewrite fmap_app. apply NoDup_app. split; [done|]. split; [|apply NoDup_singleton].
        pose proof (asset_unknown df _ Hs Hd E). set_solver.
      + by rewrite index_assets_snoc, <-(fs_index _ Hs). }
  assert (Hkm : (df_metrics df ++ lm) !! mi = Some m ∧ NoDup (df_metrics df ++ lm)).
  { unfold mi, lm. destruct km as [j|] eqn:E; cbn.
    - rewrite app_nil_r. split; [by apply metric_known|done].
    - rewrite lookup_app_r, Nat.sub_diag by lia. split; [done|]. apply NoDup_app. split; [done|].
      split; [|apply NoDup_singleton]. apply metric_pos_None in E. set_solver. }
  destruct Hka as (a' & Ha' & Hfa & Hnda & Hidx), Hkm as [Hm' Hndm].
  assert (Hkn : known = true → la = [] ∧ lm = []) by (unfold known, la, lm; by destruct ka, km).
  destruct (grown_shape df la lm known Hs Hkn) as [Hlen Hrows].
  replace (match ka with Some _ => df_assets df | None => df_assets df ++ [a] end) with (df_assets df ++ la)
    by (unfold la; destruct ka; by rewrite ?app_nil_r).
  replace (match km with Some _ => df_metrics df | None => df_metrics df ++ [m] end) with (df_metrics df ++ lm)
    by (unfold lm; destruct km; by rewrite ?app_nil_r).
  replace (match ka, km with Some _, Some _ => df_columns df | _, _ => grow_columns _ _ _ _ _ _ end)
    with (grown df (df_assets df ++ la) (df_metrics df ++ lm) known) by (unfold grown, known; by destruct ka, km).
  rewrite Hidx. intros [= <-]. exists la, lm, ai, mi, a'. cbn [df_assets df_metrics df_times df_columns].
  split_and!; try done.
  - split; cbn; [done|by rewrite length_insert| |done]. by apply Forall_insert.
  - intros i j Hi Hj. destruct (decide (i = ai ∧ j = mi)) as [[-> ->]|Hne].
    + apply list_lookup_insert_eq. rewrite Hlen. by apply cell_lt.
    + rewrite list_lookup_insert_ne; [by apply grown_lookup|]. intros E. apply Hne.
      apply cell_inj in E; [destruct E; split; done|by eapply lookup_lt_Some|done].
Qed.
End Frames.

(** ** Arithmetic between frames *)
Section Pairs.
Context {F : Type} `{Num F} `{TZDB}.
Implicit Types (df other r : DataFrame F) (a b : Asset) (m : Metric) (p : colPair).

Lemma fold_place {A B} (key : A → nat) (v : A → B) (l : list A) (cols : list B) k x :
  (∀ q, q ∈ l → key q = k → v q = x) → (cols !! k = Some x ∨ ∃ q, q ∈ l ∧ key q = k) → (k < length cols)%nat →
  fold_left (λ cols q, <[key q := v q]> cols) l cols !! k = Some x.
Proof.
  revert cols. induction l as [|q l IH]; intros cols Hv Hk Hlt; cbn.
  { destruct Hk as [?|(q & []%not_elem_of_nil & _)]; done. }
  apply IH; [intros; apply Hv; [by right|done]| |by rewrite length_insert].
  destruct (decide (key q = k)) as [E|Hne].
  - left. rewrite <-E at 1. rewrite <-E in Hlt. rewrite list_lookup_insert_eq by done. f_equal. apply Hv; [left|done].
  - destruct Hk as [Hk|(q' & [->|Hq]%elem_of_cons & Hk)]; [left|done|right; eauto].
    by rewrite list_lookup_insert_ne.
Qed.

Lemma dedup_by_spec {A K} `{EqDecision K} (key : A → K) (seen : list K) (l : list A) :
  NoDup (key <$> dedup_by key seen l) ∧
  (∀ x, x ∈ dedup_by key seen l → x ∈ l ∧ key x ∉ seen) ∧
  (∀ x, x ∈ l → key x ∉ seen → key x ∈ key <$> dedup_by key seen l).
Proof.
  revert seen. induction l as [|x l IH]; intros seen; cbn; [split_and!; [constructor|set_solver|set_solver]|].
  case_bool_decide as Hx.
  - destruct (IH seen) as (H1 & H2 & H3). split_and!; [done|set_solver|]. intros y [->|Hy]%elem_of_cons Hs; [done|auto].
  - destruct (IH (key x :: seen)) as (H1 & H2 & H3). rewrite fmap_cons. split_and!.
    + apply NoDup_cons. split; [|done]. intros (y & Ey & Hy)%list_elem_of_fmap. apply H2 in Hy as [_ Hy]. set_solver.
    + intros y [->|Hy]%elem_of_cons; [set_solver|]. apply H2 in Hy. set_solver.
    + intros y [->|Hy]%elem_of_cons Hs; [set_solver|]. destruct (decide (key y = key x)) as [->|]; [set_solver|].
      right. apply H3; set_solver.
Qed.

(** The pair of an asset and a metric that both frames have. *)
Record shared df other a m (ai oi mi om : nat) : Prop := {
  sh_asset : df_assets df !! ai = Some a;
  sh_other : df_assetIndex other !! CompositeFigi a = Some oi;
  sh_metric : df_metrics df !! mi = Some m;
  sh_om : metricIndex other m = Some om;
}.

Lemma elem_of_col_pairs df other p :
  p ∈ col_pairs df other ↔ ∃ a m ai oi mi om,
    shared df other a m ai oi mi om ∧ p = mkPair a m (colIdx df ai mi) (colIdx other oi om).
Proof.
  unfold col_pairs. rewrite list_elem_of_In, in_flat_map. split.
  - intros ([ai a] & Hin & Hp). apply list_elem_of_In, elem_of_zip_seq in Hin. cbn in Hp.
    destruct (df_assetIndex other !! CompositeFigi a) as [oi|] eqn:Eo; [|done].
    apply list_elem_of_In in Hp. unfold metric_pairs in Hp. apply list_elem_of_omap in Hp as ([mi m] & Hm & Hp).
    apply elem_of_zip_seq in Hm. cbn in Hp. destruct (metricIndex other m) as [om|] eqn:Em; [|done].
    cbn in Hp. simplify_eq. exists a, m, ai, oi, mi, om. done.
  - intros (a & m & ai & oi & mi & om & Hsh & ->). exists (ai, a). split.
    + apply list_elem_of_In, elem_of_zip_seq. apply Hsh.
    + cbn. rewrite (sh_other _ _ _ _ _ _ _ _ Hsh). apply list_elem_of_In. unfold metric_pairs.
      apply list_elem_of_omap. exists (mi, m). split; [apply elem_of_zip_seq, Hsh|]. cbn.
      by rewrite (sh_om _ _ _ _ _ _ _ _ Hsh).
Qed.
(** The frame an elementwise operation builds from the shared columns. *)
Definition combined df other (op : list F → list F → list F) : DataFrame F :=
  let '(pairs, resAssets, resMetrics) := findIntersection df other in
  let resIdx := index_assets 0 resAssets ∅ in
  let place cols p :=
    <[(default 0%nat (resIdx !! CompositeFigi (cp_a p)) * length resMetrics +
       default 0%nat (metric_pos 0 resMetrics (cp_m p)))%nat :=
      op (default [] (df_columns df !! cp_self p)) (default [] (df_columns other !! cp_other p))]> cols in
  propagateAux df (build (df_times df) resAssets resMetrics (df_freq df)
    (fold_left place pairs (replicate (length resAssets * length resMetrics) []))).

Lemma elemWiseOp_combined df other op a m ai oi mi om :
  df_err df = None → df_err other = None → times_match (df_times df) (df_times other) = true →
  shared df other a m ai oi mi om → elemWiseOp df other op = combined df other op.
Proof.
  intros He Ho Ht Hsh. unfold elemWiseOp, combined, findIntersection. rewrite He, Ho, Ht. cbn [negb].
  assert (Hin : mkPair a m (colIdx df ai mi) (colIdx other oi om) ∈ col_pairs df other)
    by (apply elem_of_col_pairs; eauto 10).
  by destruct (col_pairs df other); [apply not_elem_of_nil in Hin|].
Qed.

Lemma combined_cell df other op a m ai oi mi om :
  frame_shape df → distinct df → distinct other → shared df other a m ai oi mi om →
  Column (combined df other op) a m =
    op (default [] (df_columns df !! colIdx df ai mi)) (default [] (df_columns other !! colIdx other oi om)).
Proof.
  intros Hs Hd Ho Hsh. unfold combined, findIntersection. cbn zeta.
  set (pairs := col_pairs df other).
  destruct (dedup_by_spec CompositeFigi [] (cp_a <$> pairs)) as (Hna & Hina & Hca).
  destruct (dedup_by_spec (λ m : Metric, m) [] (cp_m <$> pairs)) as (Hnm & Hinm & Hcm).
  set (resA := dedup_by CompositeFigi [] _) in *. set (resM := dedup_by (λ m : Metric, m) [] _) in *.
  rewrite list_fmap_id in Hnm, Hcm.
  assert (Hpos : ∀ q, q ∈ pairs → ∃ i j, index_assets 0 resA ∅ !! CompositeFigi (cp_a q) = Some i ∧ (i < length resA)%nat ∧
    metric_pos 0 resM (cp_m q) = Some j ∧ (j < length resM)%nat ∧
    (∃ b, resA !! i = Some b ∧ CompositeFigi b = CompositeFigi (cp_a q)) ∧ resM !! j = Some (cp_m q)).
  { intros q Hq. assert (Ha : CompositeFigi (cp_a q) ∈ CompositeFigi <$> resA) by (apply Hca; [by apply list_elem_of_fmap_2|set_solver]).
    apply list_elem_of_fmap in Ha as (b & Eb & Hb). apply list_elem_of_lookup in Hb as (i & Hi).
    assert (Hm : cp_m q ∈ resM) by (apply Hcm; [by apply list_elem_of_fmap_2|set_solver]).
    apply list_elem_of_lookup in Hm as (j & Hj). exists i, j.
    rewrite Eb, (index_assets_lookup 0 _ _ i) by done. rewrite (metric_pos_lookup 0 _ j) by done.
    split_and!; eauto using lookup_lt_Some. }
  set (key p := (default 0%nat (index_assets 0 resA ∅ !! CompositeFigi (cp_a p)) * length resM +
       default 0%nat (metric_pos 0 resM (cp_m p)))%nat).
  set (v p := op (default [] (df_columns df !! cp_self p)) (default [] (df_columns other !! cp_other p))).
  set (p0 := mkPair a m (colIdx df ai mi) (colIdx other oi om)).
  assert (Hp0 : p0 ∈ pairs) by (apply elem_of_col_pairs; eauto 10).
  destruct (Hpos p0 Hp0) as (i & j & Ei & Hi & Ej & Hj & _ & _). cbn in Ei, Ej.
  change (op (default [] (df_columns df !! colIdx df ai mi)) (default [] (df_columns other !! colIdx other oi om)))
    with (v p0). unfold Column. cbn [df_err df_assetIndex df_columns propagateAux build].
  rewrite Ei. unfold metricIndex, colSlice, colIdx. cbn [df_metrics propagateAux build df_columns]. rewrite Ej.
  rewrite (fold_place key v pairs _ _ (v p0)); [done| | |].
  - intros q Hq Hk. destruct (Hpos q Hq) as (i' & j' & Ei' & Hi' & Ej' & Hj' & (b' & Hb' & Eb') & Hm').
    unfold key in Hk. rewrite Ei', Ej' in Hk. cbn in Hk. apply cell_inj in Hk as [-> ->]; [|done|done].
    destruct (Hpos p0 Hp0) as (i'' & j'' & Ei'' & _ & Ej'' & _ & (b'' & Hb'' & Eb'') & Hm''). cbn in *.
    rewrite Ei in Ei''. rewrite Ej in Ej''. simplify_eq.
    apply elem_of_col_pairs in Hq as (a' & m' & ai' & oi' & mi' & om' & Hsh' & ->). cbn in *. simplify_eq.
    assert (ai' = ai) as ->.
    { eapply (NoDup_lookup _ _ _ (CompositeFigi a') (proj1 Hd)); rewrite list_lookup_fmap.
      - by rewrite (sh_asset _ _ _ _ _ _ _ _ Hsh').
      - rewrite (sh_asset _ _ _ _ _ _ _ _ Hsh). cbn. congruence. }
    pose proof (sh_asset _ _ _ _ _ _ _ _ Hsh'). pose proof (sh_asset _ _ _ _ _ _ _ _ Hsh). simplify_eq.
    assert (mi' = mi) as ->.
    { eapply (NoDup_lookup _ _ _ _ (proj2 Hd)); [apply Hsh'|apply Hsh]. }
    destruct Hsh, Hsh'. simplify_eq. done.
  - right. exists p0. split; [done|]. unfold key. cbn. by rewrite Ei, Ej.
  - rewrite length_replicate. cbn. by apply cell_lt.
Qed.

(** Only assets and metrics of both frames are in the result. *)
Lemma combined_shared df other op b m :
  b ∈ df_assets (combined df other op) → m ∈ df_metrics (combined df other op) →
  (b ∈ df_assets df ∧ is_Some (df_assetIndex other !! CompositeFigi b)) ∧
  (m ∈ df_metrics df ∧ is_Some (metricIndex other m)).
Proof.
  unfold combined, findIntersection. cbn. intros Hb Hm. apply dedup_by_spec in Hb as [Hb _], Hm as [Hm _].
  apply list_elem_of_fmap in Hb as (p & -> & Hp), Hm as (q & -> & Hq).
  apply elem_of_col_pairs in Hp as (a & m & ai & oi & mi & om & Hsh & ->).
  apply elem_of_col_pairs in Hq as (a' & m' & ai' & oi' & mi' & om' & Hsh' & ->). cbn.
  destruct Hsh, Hsh'. split; (split; [by eapply list_elem_of_lookup_2|eauto]).
Qed.
End Pairs.

Section Properties.
Context {F : Type} `{Num F} `{TZDB}.
Implicit Types (df r : DataFrame F) (a b : Asset) (m : Metric).

Lemma app_lookup_old {A} (l k : list A) i x :
  (l ++ k) !! i = Some x → (i <? length l)%nat = true → l !! i = Some x.
Proof. intros Hi Hlt%Nat.ltb_lt. by rewrite lookup_app_l in Hi. Qed.

Lemma app_lookup_new {A K} (f : A → K) (l k : list A) i x :
  NoDup (f <$> l ++ k) → (l ++ k) !! i = Some x → (i <? length l)%nat = false → x ∉ l.
Proof.
  intros Hnd Hi Hge%Nat.ltb_ge (j & Hj)%list_elem_of_lookup. pose proof (lookup_lt_Some _ _ _ Hj).
  assert (Hij : i = j); [|lia]. eapply (NoDup_lookup _ i j (f x)); [exact Hnd| |].
  - by rewrite list_lookup_fmap, Hi.
  - by rewrite list_lookup_fmap, (lookup_app_l_Some _ _ _ _ Hj).
Qed.

(** What an insertion does to the frame. *)
Record inserted df a m (values : list F) r : Prop := {
  in_length : length values = length (df_times df);
  in_shape : frame_shape r;
  in_distinct : distinct r;
  in_times : df_times r = df_times df;
  in_freq : df_freq r = df_freq df;
  in_assets : ∀ b, b ∈ df_assets df → b ∈ df_assets r;
  in_metrics : ∀ m', m' ∈ df_metrics df → m' ∈ df_metrics r;
  in_metrics_new : ∀ m', m' ∈ df_metrics r → m' = m ∨ m' ∈ df_metrics df;
  in_metric : m ∈ df_metrics r;
  in_known : a ∈ df_assets df → df_assets r = df_assets df;
  in_column : Column r a m = values;
  in_others : ∀ b m', b ∈ df_assets r → m' ∈ df_metrics r → CompositeFigi b ≠ CompositeFigi a ∨ m' ≠ m →
    Column r b m' = if decide (b ∈ df_assets df ∧ m' ∈ df_metrics df) then Column df b m'
                    else replicate (length (df_times df)) (of_Z 0);
}.

Lemma Insert_fixed df a m (values : list F) r :
  frame_shape df → distinct df → Insert df a m values = Ok r →
  df_freq r = df_freq df ∧ (a ∈ df_assets df → df_assets r = df_assets df) ∧
  m ∈ df_metrics r ∧ ∀ m', m' ∈ df_metrics r → m' = m ∨ m' ∈ df_metrics df.
Proof.
  intros Hs Hd. unfold Insert. rewrite (fs_err _ Hs). case_match; [done|]. intros [= <-]. cbn. split_and!; [done| | |].
  - intros (i & Hi)%list_elem_of_lookup. by rewrite (asset_position df a i).
  - destruct (metricIndex df m) as [j|] eqn:Ej; [|set_solver].
    apply metric_known in Ej. by eapply list_elem_of_lookup_2.
  - destruct (metricIndex df m); set_solver.
Qed.

Lemma Insert_spec df a m (values : list F) :
  frame_shape df → distinct df →
  match Insert df a m values with
  | Ok r => inserted df a m values r
  | Err _ => length values ≠ length (df_times df)
  end.
Proof.
  intros Hs Hd. destruct (Insert df a m values) as [r|e] eqn:E.
  2:{ intros Hl. unfold Insert in E. rewrite (fs_err _ Hs), Hl, Nat.eqb_refl in E. done. }
  assert (Hl : length values = length (df_times df)).
  { unfold Insert in E. rewrite (fs_err _ Hs) in E. destruct (Nat.eqb_spec (length values) (length (df_times df))); [done|].
    done. }
  destruct (Insert_cells df a m values r Hs Hd Hl E) as
    (la & lm & ai & mi & a' & Hsr & Hdr & Ht & HA & HM & Hai & Hfa & Hmi & Hcell).
  destruct (Insert_fixed df a m values r Hs Hd E) as (Hfr & Hkn & Hmr & Hnew).
  split; try done.
  - intros b Hb. rewrite HA. set_solver.
  - intros m' Hm'. rewrite HM. set_solver.
  - rewrite (Column_cell r a a' m ai mi) by done. rewrite Hcell by (by eapply lookup_lt_Some).
    by rewrite decide_True.
  - intros b m' Hb Hm' Hne. apply list_elem_of_lookup in Hb as (i & Hi), Hm' as (j & Hj).
    rewrite (Column_cell r b b m' i j) by done. rewrite Hcell by (by eapply lookup_lt_Some). cbn [default from_option id].
    rewrite decide_False by (intros [-> ->]; simplify_eq; naive_solver).
    pose proof Hi as Hi'. pose proof Hj as Hj'. rewrite HA in Hi'. rewrite HM in Hj'.
    destruct (i <? length (df_assets df))%nat eqn:Ei, (j <? length (df_metrics df))%nat eqn:Ej; cbn.
    + apply (app_lookup_old _ _ _ _ Hi') in Ei. apply (app_lookup_old _ _ _ _ Hj') in Ej.
      rewrite decide_True by (split; by eapply list_elem_of_lookup_2). by rewrite (Column_cell df b b m' i j).
    + rewrite decide_False; [done|]. intros [_ Hin]. revert Hin. eapply (app_lookup_new id); [|done|done].
      rewrite list_fmap_id, <-HM. apply Hdr.
    + rewrite decide_False; [done|]. intros [Hin _]. revert Hin.
      eapply (app_lookup_new CompositeFigi); [rewrite <-HA; apply Hdr|done|done].
    + rewrite decide_False; [done|]. intros [Hin _]. revert Hin.
      eapply (app_lookup_new CompositeFigi); [rewrite <-HA; apply Hdr|done|done].
Qed.

(** An inserted column reads back.  [Insert] succeeds exactly when it gets
    one value per row.  Afterwards the frame is well formed, the column of the
    asset and the metric holds the values, every other column the frame had is
    as it was, and the columns that a new asset or metric brings are zero. *)
Theorem Insert_reads_back df a m (values : list F) :
  frame_shape df → distinct df →
  match Insert df a m values with
  | Ok r =>
      length values = length (df_times df) ∧ frame_shape r ∧ distinct r ∧ df_times r = df_times df ∧
      (∀ b, b ∈ df_assets df → b ∈ df_assets r) ∧ (∀ m', m' ∈ df_metrics df → m' ∈ df_metrics r) ∧
      Column r a m = values ∧
      ∀ b m', b ∈ df_assets r → m' ∈ df_metrics r → CompositeFigi b ≠ CompositeFigi a ∨ m' ≠ m →
        Column r b m' = if decide (b ∈ df_assets df ∧ m' ∈ df_metrics df) then Column df b m'
                        else replicate (length (df_times df)) (of_Z 0)
  | Err _ => length values ≠ length (df_times df)
  end.
Proof.
  intros Hs Hd. pose proof (Insert_spec df a m values Hs Hd) as Hi.
  destruct (Insert df a m values) as [r|e]; [|done]. by destruct Hi.
Qed.

(** Arithmetic between frames pairs the columns by asset and metric.  For
    two well-formed frames with the same times, the column of an asset
    (matched by its FIGI) and a metric that both have is, in the result of
    [Add], [Sub], [Mul] and [Div], the row-by-row operation of the two columns
    wherever they stand in their frames, and the result has no other asset or
    metric. *)
Theorem Arithmetic_aligns `{Gonum F, !GonumLaws F} df other a a' m :
  frame_shape df → distinct df → frame_shape other → distinct other →
  times_match (df_times df) (df_times other) = true →
  a ∈ df_assets df → a' ∈ df_assets other → CompositeFigi a = CompositeFigi a' →
  m ∈ df_metrics df → m ∈ df_metrics other →
  let both op := zip_with op (Column df a m) (Column other a m) in
  Column (frame_Add df other []) a m = both fadd ∧ Column (frame_Sub df other []) a m = both fsub ∧
  Column (frame_Mul df other []) a m = both fmul ∧ Column (frame_Div df other []) a m = both fdiv ∧
  ∀ op b m', b ∈ df_assets (arith op df other []) → m' ∈ df_metrics (arith op df other []) →
    (b ∈ df_assets df ∧ CompositeFigi b ∈ CompositeFigi <$> df_assets other) ∧
    (m' ∈ df_metrics df ∧ m' ∈ df_metrics other).
Proof.
  intros Hs Hd Ho Hdo Ht Ha Ha' Hf Hm Hm'. cbn zeta.
  apply list_elem_of_lookup in Ha as (ai & Hai), Ha' as (oi & Hoi), Hm as (mi & Hmi), Hm' as (om & Hom).
  assert (Hsh : shared df other a m ai oi mi om).
  { split; [done| |done|]; [rewrite Hf; by apply asset_position|].
    unfold metricIndex. by rewrite (metric_pos_lookup 0 _ om) by (try apply Hdo; done). }
  pose proof (Column_cell df a a m ai mi Hs Hd Hai eq_refl Hmi) as E1.
  pose proof (Column_cell other a a' m oi om Ho Hdo Hoi Hf Hom) as E2.
  assert (Hlen : length (Column df a m) = length (Column other a m)).
  { rewrite (length_Column df a a m), (length_Column other a a' m) by (try done; by eapply list_elem_of_lookup_2).
    unfold times_match in Ht. apply andb_true_iff in Ht as [Ht _]. by apply Nat.eqb_eq. }
  assert (Hop : ∀ op, Column (arith op df other []) a m = op (Column df a m) (Column other a m)).
  { intros op. cbn [arith]. rewrite (elemWiseOp_combined df other op a m ai oi mi om) by (try apply Hs; try apply Ho; done).
    rewrite (combined_cell df other op a m ai oi mi om) by done. by rewrite E1, E2. }
  unfold frame_Add, frame_Sub, frame_Mul, frame_Div. rewrite !Hop.
  split_and!; [by apply AddTo_elem|by apply SubTo_elem|by apply MulTo_elem|by apply DivTo_elem|].
  intros op b n. cbn [arith]. rewrite (elemWiseOp_combined df other op a m ai oi mi om) by (try apply Hs; try apply Ho; done).
  intros Hb Hn. destruct (combined_shared _ _ _ _ _ Hb Hn) as [[Hb1 [k Hk]] [Hn1 [l Hl]]].
  split; (split; [done|]).
  - destruct (asset_known other _ _ Ho Hdo Hk) as (c & Hc & <-). apply list_elem_of_fmap_2. by eapply list_elem_of_lookup_2.
  - apply metric_known in Hl. by eapply list_elem_of_lookup_2.
Qed.
End Properties.

(** ** Witnesses *)
Section Witnesses.
Local Existing Instance utc_db.

(** Operations that do what the documentation of the elementwise ones says. *)
Definition plain_gonum {F} `{Num F} : Gonum F := {|
  floats_Sum := fsum;
  floats_Max := λ l, fold_left (λ b v, if flt b v then v else b) l (default fnan (head l));
  floats_Min := λ l, fold_left (λ b v, if flt v b then v else b) l (default fnan (head l));
  floats_AddTo := zip_with fadd; floats_SubTo := zip_with fsub;
  floats_MulTo := zip_with fmul; floats_DivTo := zip_with fdiv;
  floats_AddConst := λ c l, (λ x, fadd x c) <$> l;
  floats_Scale := λ c l, (λ x, fmul x c) <$> l;
  floats_CumSum := λ l, (λ i, fsum (take (S i) l)) <$> seq 0 (length l);
  stat_Mean := λ l, fdiv (fsum l) (of_Z (Z.of_nat (length l)));
  stat_Quantile := λ _ l, default fnan (head l);
|}.
Local Existing Instance plain_gonum.

Lemma plain_gonum_laws {F} `{Num F} : GonumLaws F.
Proof. by split. Qed.

Lemma frame_distinct {F} `{Num F} `{TZDB} (df : DataFrame F) :
  bool_decide (NoDup (CompositeFigi <$> df_assets df)) && bool_decide (NoDup (df_metrics df)) = true → distinct df.
Proof. intros [Ha Hm]%andb_true_iff. split; by eapply bool_decide_eq_true_1. Qed.

Lemma sample_frame_distinct : distinct sample_frame.
Proof. apply frame_distinct. vm_compute. reflexivity. Qed.

Definition GLD : Asset := mk_asset "BBG000CRF6Q8" "GLD".

Lemma Insert_reads_back_witness :
  match Insert sample_frame GLD "High"%string [q 5; q 6; q 7] with
  | Ok r => Column r GLD "High"%string = [q 5; q 6; q 7] ∧ Column r TLT MetricClose = [q 7; q 8; q 9] ∧
            Column r SPY "High"%string = [q 0; q 0; q 0]
  | Err _ => False
  end.
Proof.
  pose proof (Insert_reads_back sample_frame GLD "High"%string [q 5; q 6; q 7] sample_frame_shape sample_frame_distinct) as Hi.
  assert (E : match Insert sample_frame GLD "High"%string [q 5; q 6; q 7] with
              | Ok r => df_assets r = [SPY; TLT; GLD] ∧ df_metrics r = [MetricClose; Volume; "High"%string] | Err _ => False end)
    by (vm_compute; done).
  destruct (Insert sample_frame GLD "High"%string [q 5; q 6; q 7]) as [r|e]; [|done].
  destruct E as [EA EM], Hi as (_ & _ & _ & _ & _ & _ & Hv & Ho). split; [exact Hv|]. split.
  - rewrite Ho; [|rewrite EA; set_solver|rewrite EM; set_solver|left; done].
    rewrite decide_True by (split; apply (bool_decide_unpack _); vm_compute; done). reflexivity.
  - rewrite Ho; [|rewrite EA; set_solver|rewrite EM; set_solver|left; done].
    rewrite decide_False; [reflexivity|]. intros [_ Hin]. revert Hin. apply (bool_decide_unpack _). vm_compute. done.
Defined.

(** Covariance and correlation of a frame without rows panic.  The result has
    one value per pair but takes its time axis from the last row, which does
    not exist, and [mustNewDataFrame] rejects the dimensions. *)
Theorem Covariance_panics_without_rows :
  Covariance (build (F := xq) [] [SPY; TLT] [MetricClose] Daily [[]; []]) [SPY; TLT] = None.
Proof. reflexivity. Qed.

(** A frame of the same days that lists other columns in another order. *)
Definition other_frame : DataFrame xq :=
  build [day 0; day 1; day 3] [GLD; TLT] ["High"%string; Volume] Daily
    [[q 0; q 0; q 0]; [q 0; q 0; q 0]; [q 0; q 0; q 0]; [q 10; q 20; q 30]].

Lemma Arithmetic_aligns_witness :
  Column (frame_Sub other_frame sample_frame []) TLT Volume = [q 6; q 15; q 24].
Proof.
  assert (Hs : frame_shape other_frame) by (split; [reflexivity|reflexivity|repeat constructor|reflexivity]).
  assert (Hd : distinct other_frame) by (apply frame_distinct; vm_compute; reflexivity).
  assert (Hin : ∀ (a : Asset) (df : DataFrame xq), bool_decide (a ∈ df_assets df) = true → a ∈ df_assets df)
    by (intros; by eapply bool_decide_eq_true_1).
  assert (Hinm : ∀ m (df : DataFrame xq), bool_decide (m ∈ df_metrics df) = true → m ∈ df_metrics df)
    by (intros; by eapply bool_decide_eq_true_1).
  destruct (@Arithmetic_aligns xq _ plain_gonum plain_gonum_laws other_frame sample_frame TLT TLT Volume
    Hs Hd sample_frame_shape sample_frame_distinct eq_refl
    (Hin TLT other_frame eq_refl) (Hin TLT sample_frame eq_refl) eq_refl
    (Hinm Volume other_frame eq_refl) (Hinm Volume sample_frame eq_refl)) as (_ & Hsub & _).
  rewrite Hsub. eval_eq.
Defined.
End Witnesses.
