(* ===== verification/StatsProps.v ===== *)
(** * StatsProps: the statistics an account hands to its metrics

    The daily history keeps its shape; the cache of derived frames is not
    observable; the time-weighted return of a curve does not depend on its
    external flows, and on the benchmark view it is the return of the
    benchmark; the maximum drawdown is the worst fall between two days. *)
From Stdlib Require Import ZArith Qcanon Field Lia.
From stdpp Require Import base list gmap strings sorting.
From S2P Require Import Prelude Num GoTime Asset Period Frame Metrics FrameOps Resample Broker Lots Ledger Gains Samples Account.
From S2P Require Import FrameProps FrameOpsProps Exec Backtest Stats ReturnMetrics GrowthMetrics TradeTaxMetrics MetricQuery.

(** ** The shape of the daily history *)
Section Shape.
Context {F : Type} `{Num F} {tz : TZDB} {go : GoMapOrder}.
Implicit Types (a : Account F) (times : list Time) (eq bm rf : list F).

Definition perf_frame times eq bm rf : DataFrame F :=
  build times [portfolioAsset] [PortfolioEquity; PortfolioBenchmark; PortfolioRiskFree] Daily [eq; bm; rf].
Definition equity_frame times eq : DataFrame F := build times [portfolioAsset] [PortfolioEquity] Daily [eq].

(** What [UpdatePrices] builds: one row of three values per mark, the marks in
    strictly increasing order. *)
Record perf_like (df : DataFrame F) : Prop := {
  pl_frame : ∃ times eq bm rf, df = perf_frame times eq bm rf ∧
    length eq = length times ∧ length bm = length times ∧ length rf = length times ∧
    StronglySorted (λ t u, Before t u = true) times;
}.

Lemma sorted_snoc times t :
  StronglySorted (λ t u, Before t u = true) times → (∀ u, last times = Some u → Before u t = true) →
  StronglySorted (λ t u, Before t u = true) (times ++ [t]).
Proof. intros Hs Hl. apply (StronglySorted_snoc (λ t u, Before t u = true)); [intros u v w; apply Before_trans|done..]. Qed.

Lemma append_perf_like (df : DataFrame F) x y z (h : History F) p :
  (∀ perf, perfData h = Some perf → perf_like perf) → append_perf df [x; y; z] h = Ok p → perf_like p.
Proof.
  intros Hh. unfold append_perf. destruct (perfData h) as [perf|].
  - destruct (Hh perf eq_refl) as [(times & eq & bm & rf & -> & He & Hb & Hr & Ht)].
    unfold AppendRow, Len. cbn [df_err perf_frame build df_times df_assets df_metrics length Nat.mul Nat.add Nat.eqb negb].
    destruct (negb _ && negb _) eqn:Hafter; [done|]. intros [= <-]. split.
    eexists (times ++ [_]), (eq ++ [_]), (bm ++ [_]), (rf ++ [_]). split; [reflexivity|]. rewrite !length_app. cbn.
    split; [lia|]. split; [lia|]. split; [lia|]. apply sorted_snoc; [done|]. intros u Hu.
    apply andb_false_iff in Hafter as [Hn|Ha]; [by destruct times|]. apply negb_false_iff in Ha.
    rewrite After_Before in Ha. unfold End in Ha at 1. cbn [df_times perf_frame build] in Ha. by rewrite Hu in Ha.
  - intros [= <-]. split. exists [End df], [x], [y], [z]. split; [done|]. split; [done|]. split; [done|]. split; [done|].
    by repeat constructor.
Qed.

(** An account whose history, when there is one, has that shape. *)
Definition typed_history a : Prop := ∀ perf, perf_of a = Some perf → perf_like perf.

(** The rows on record: none before the first mark. *)
Definition rows_of a times eq bm rf : Prop :=
  match perf_of a with
  | Some perf => perf = perf_frame times eq bm rf
  | None => times = [] ∧ eq = [] ∧ bm = [] ∧ rf = []
  end.
(** Whether a frame's last instant is after the last mark. *)
Definition marks_later (df : DataFrame F) a : bool :=
  match perf_of a with Some perf => (Len perf =? 0)%nat || After (End df) (End perf) | None => true end.

Lemma append_perf_row (df : DataFrame F) x y z a times eq bm rf :
  rows_of a times eq bm rf →
  match append_perf df [x; y; z] (history a) with
  | Ok perf => marks_later df a = true ∧ perf = perf_frame (times ++ [End df]) (eq ++ [x]) (bm ++ [y]) (rf ++ [z])
  | Err _ => marks_later df a = false
  end.
Proof.
  unfold rows_of, marks_later, perf_of, append_perf. destruct (perfData (history a)) as [perf|].
  - intros ->. unfold AppendRow, Len. cbn [df_err perf_frame build df_times df_assets df_metrics length Nat.mul Nat.add Nat.eqb negb].
    rewrite <-negb_orb. destruct (_ || _) eqn:E; cbn [negb]; [|done]. split; [done|reflexivity].
  - by intros (-> & -> & -> & ->).
Qed.

(** With a close for every holding the mark is the account's value. *)
Lemma mark_is_value (df : DataFrame F) (hs : list (Asset * F)) (h : History F) total steps :
  (∀ x, x ∈ hs → is_nan (close_of df x.1) = false) →
  (fold_left (mark_one df h) hs (total, steps)).1 = fold_left (add_priced df (λ _, true) (λ qty v, fmul qty v)) hs total.
Proof.
  revert total steps. induction hs as [|[ast qty] hs IH]; intros total steps Hhs; [done|]. cbn [fold_left mark_one add_priced].
  rewrite (Hhs (ast, qty) (list_elem_of_here _ _) : is_nan (close_of df ast) = false). apply IH. intros x Hx. apply Hhs. by right.
Qed.

Lemma history_folds {X} (step : History F → X → History F) l h :
  (∀ h x, perfData (step h x) = perfData h) → perfData (fold_left step l h) = perfData h.
Proof. intros Hst. revert h. induction l as [|x l IH]; intros h; cbn; [done|]. by rewrite IH, Hst. Qed.

Lemma history_rows a : typed_history a → ∃ times eq bm rf, rows_of a times eq bm rf.
Proof.
  unfold rows_of, typed_history. intros Ha. destruct (perf_of a) as [perf|].
  - destruct (Ha perf eq_refl) as [(times & eq & bm & rf & -> & _)]. by exists times, eq, bm, rf.
  - by exists [], [], [], [].
Qed.

(** What a mark makes of the performance frame. *)
Lemma UpdatePrices_frame (df : DataFrame F) a :
  perf_of (UpdatePrices df a) =
    if (Len df =? 0)%nat then perf_of a
    else match append_perf df [(mark_holdings df a).1; benchmark_value df (history a); riskFreeValue (history a)] (history a) with
         | Ok perf => Some perf
         | Err _ => perf_of a
         end.
Proof.
  unfold UpdatePrices. destruct (_ =? _)%nat; [done|]. change (mark_holdings df (set_prices (Some df) a)) with (mark_holdings df a).
  destruct (mark_holdings df a) as [total stepMV]. cbn [fst]. change (history (set_prices (Some df) a)) with (history a).
  destruct (append_perf _ _ _) as [perf|e]; [|done]. unfold perf_of. cbn [history set_history].
  change (perfData (appendPositionRow ?s ?m ?q ?n ?h)) with (perfData h).
  rewrite history_folds; [by rewrite history_folds|]. intros h x. unfold close_row. repeat case_match; done.
Qed.

Lemma UpdatePrices_prices (df : DataFrame F) a : (Len df =? 0)%nat = false → prices (UpdatePrices df a) = Some df.
Proof. intros Hne. unfold UpdatePrices. rewrite Hne. destruct (mark_holdings _ _). by destruct (append_perf _ _ _). Qed.
Lemma UpdatePrices_ledger (df : DataFrame F) a : ledger (UpdatePrices df a) = ledger a.
Proof. unfold UpdatePrices. destruct (_ =? _)%nat; [done|]. destruct (mark_holdings _ _). by destruct (append_perf _ _ _). Qed.

(** The row of a mark. *)
Lemma UpdatePrices_row (df : DataFrame F) a times eq bm rf :
  rows_of a times eq bm rf → negb (Len df =? 0)%nat && marks_later df a = true →
  rows_of (UpdatePrices df a) (times ++ [End df]) (eq ++ [(mark_holdings df a).1]) (bm ++ [benchmark_value df (history a)]) (rf ++ [riskFreeValue (history a)]).
Proof.
  intros Hrows [Hne Hm]%andb_true_iff. unfold rows_of at 1. rewrite UpdatePrices_frame. destruct (_ =? _)%nat; [done|].
  pose proof (append_perf_row df (mark_holdings df a).1 (benchmark_value df (history a)) (riskFreeValue (history a)) a times eq bm rf Hrows) as Hrow.
  destruct (append_perf _ _ _); [by destruct Hrow|congruence].
Qed.

(** C26. Marking an account keeps its history well typed and records exactly
    the mark: the performance frame has the three columns equity, benchmark
    and risk-free rate of the portfolio asset, all as long as its time axis,
    and the time axis is strictly increasing.  A mark after the last one
    appends one row at the frame's end, every earlier row staying as it was:
    the marked equity, which is the account's value when every holding has a
    close, the benchmark's value and the risk-free value.  A mark that is not
    later, or an empty one, leaves the whole history as it was. *)
Theorem UpdatePrices_keeps_history_typed a (df : DataFrame F) :
  typed_history a →
  let a' := UpdatePrices df a in
  typed_history a' ∧
  if negb (Len df =? 0)%nat && marks_later df a then
    ∃ times eq bm rf equity, rows_of a times eq bm rf ∧
      rows_of a' (times ++ [End df]) (eq ++ [equity]) (bm ++ [benchmark_value df (history a)]) (rf ++ [riskFreeValue (history a)]) ∧
      ((∀ h, h ∈ range (holdings (ledger a)) → is_nan (close_of df h.1) = false) → equity = account_Value a')
  else history a' = history a.
Proof.
  intros Ha a'. destruct (history_rows a Ha) as (times & eq & bm & rf & Hrows). split.
  - intros perf. unfold a'. rewrite UpdatePrices_frame. destruct (_ =? _)%nat; [apply Ha|].
    destruct (append_perf _ _ _) as [p|e] eqn:Hp; [|apply Ha]. intros [= <-]. by eapply append_perf_like.
  - destruct (negb _ && _) eqn:Hm.
    + exists times, eq, bm, rf, (mark_holdings df a).1. split; [done|]. split; [by apply UpdatePrices_row|]. intros Hclose. unfold a'.
      apply andb_true_iff in Hm as [Hne _]. unfold account_Value, market_sum, Cash. rewrite (UpdatePrices_prices df a) by (by destruct (_ =? _)%nat).
      rewrite !UpdatePrices_ledger. by apply (mark_is_value df).
    + unfold a', UpdatePrices. destruct (_ =? _)%nat; [done|]. cbn [negb andb] in Hm.
      destruct (mark_holdings _ _) as [total stepMV]. change (history (set_prices (Some df) a)) with (history a).
      pose proof (append_perf_row df total (benchmark_value df (history a)) (riskFreeValue (history a)) a times eq bm rf Hrows) as Hrow.
      destruct (append_perf _ _ _); [destruct Hrow; congruence|done].
Qed.

(** A clone is the account: the copied history of a well-typed account is the
    history. *)
Lemma Clone_same a : typed_history a → Clone a = a.
Proof.
  unfold typed_history, perf_of. destruct a as [[] ? ? ? [perf ? ? ? ?] [] ? ?]. cbn. intros Ht.
  destruct perf as [df|]; [|reflexivity]. destruct (Ht df eq_refl) as [(times & eq & bm & rf & -> & _)]. reflexivity.
Qed.

(** ** Frames derived from the history *)
Lemma Column_equity times eq bm rf : equity_of (perf_frame times eq bm rf) = eq.
Proof. reflexivity. Qed.
Lemma Column_benchmark times eq bm rf : Column (perf_frame times eq bm rf) portfolioAsset PortfolioBenchmark = bm.
Proof. reflexivity. Qed.
Lemma Metrics_equity times eq bm rf : Metrics (perf_frame times eq bm rf) [PortfolioEquity] = equity_frame times eq.
Proof. reflexivity. Qed.
Lemma slice_perf times eq bm rf i j :
  sliceByTimeIndices (perf_frame times eq bm rf) i j
  = perf_frame (slice i j times) (slice i j eq) (slice i j bm) (slice i j rf).
Proof. reflexivity. Qed.
Lemma slice_all {A} (l : list A) n : length l = n → slice 0 n l = l.
Proof. intros <-. unfold slice. rewrite drop_0, Nat.sub_0_r. apply firstn_all. Qed.

(** Without a period the window is the whole history. *)
Lemma Window_None times eq bm rf :
  length eq = length times → length bm = length times → length rf = length times →
  Window (perf_frame times eq bm rf) None = perf_frame times eq bm rf.
Proof.
  intros He Hb Hr. change (Window (perf_frame times eq bm rf) None)
    with (sliceByTimeIndices (perf_frame times eq bm rf) 0 (length times)).
  by rewrite slice_perf, !slice_all by done.
Qed.

(** A frame with the equity rows of a history, or the empty frame. *)
Record perf_rows (df : DataFrame F) times eq : Prop := {
  pr_length : length eq = length times;
  pr_equity : equity_of df = eq;
  pr_times : df_times df = times;
  pr_frame : (∃ bm rf, df = perf_frame times eq bm rf) ∨ (df = empty_frame ∧ times = []);
}.

Lemma Window_perf times eq bm rf w :
  length eq = length times → ∃ times' eq', perf_rows (Window (perf_frame times eq bm rf) w) times' eq'.
Proof.
  intros He. set (df := perf_frame times eq bm rf).
  assert (Hslice : ∀ i j, ∃ times' eq', perf_rows (sliceByTimeIndices df i j) times' eq').
  { intros i j. unfold df. rewrite slice_perf. exists (slice i j times), (slice i j eq).
    split; [by apply length_slice_same|done|done|]. left. eauto. }
  assert (Hempty : ∃ times' eq', perf_rows empty_frame times' eq') by (exists [], []; split; auto).
  unfold Window. cbn [df_err df perf_frame build]. destruct w as [p|]; [|eauto].
  destruct (_ =? _)%nat; [eauto|]. destruct (negb _); [eauto|]. unfold Between. cbn [df_err df perf_frame build].
  match goal with |- context [let '(i, j) := ?x in _] => destruct x as [i j] end.
  destruct (j <=? i)%nat; eauto.
Qed.
End Shape.

(** ** The cache of derived frames *)
Section Cache.
Context {F : Type} `{Num F} `{Gonum F} {tz : TZDB} {go : GoMapOrder}.
Implicit Types (a : Account F) (c : dfCache (F := F)) (window : option Period).

Inductive Derived : Type := DReturns | DExcess | DDrawdown | DBench.

(** The accessor of a derived frame, with the account's cache. *)
Definition accessor (k : Derived) a c window : option (DataFrame F) * dfCache :=
  match k with
  | DReturns => account_Returns a c window
  | DExcess => account_ExcessReturns a c window
  | DDrawdown => account_Drawdown a c window
  | DBench => account_BenchmarkReturns a c window
  end.
Definition derived_metric (k : Derived) : Metric :=
  match k with
  | DReturns => Catalog.PortfolioReturns | DExcess => Catalog.PortfolioExcessReturns
  | DDrawdown => Catalog.PortfolioDrawdown | DBench => Catalog.PortfolioBenchReturns
  end.
Definition derived_compute (k : Derived) : option Period → DataFrame F → DataFrame F :=
  match k with
  | DReturns => returns_frame | DExcess => excess_frame | DDrawdown => drawdown_frame | DBench => bench_frame
  end.

(** What happens to the statistics of an account: frames are asked for, and days
    are marked. *)
Inductive StatsEvent : Type :=
  | Ask (k : Derived) (window : option Period)
  | Mark (df : DataFrame F).

Fixpoint serve a c (events : list StatsEvent) : list (option (DataFrame F)) :=
  match events with
  | [] => []
  | Ask k window :: rest => let '(answer, c) := accessor k a c window in answer :: serve a c rest
  | Mark df :: rest => serve (UpdatePrices df a) (mark_cache df a c) rest
  end.
(** The same questions to an account that computes every frame afresh. *)
Fixpoint serve_afresh a (events : list StatsEvent) : list (option (DataFrame F)) :=
  match events with
  | [] => []
  | Ask k window :: rest => (accessor k a ∅ window).1 :: serve_afresh a rest
  | Mark df :: rest => serve_afresh (UpdatePrices df a) rest
  end.

Lemma accessor_derived k a c window :
  accessor k a c window = derived (derived_metric k) (derived_compute k) (perf_of a) c window.
Proof. by destruct k. Qed.

(** A frame depends on the window only through its key. *)
Lemma period_Before_key (p p' : Period) ref : Unit p = Unit p' → N p = N p' → period_Before p ref = period_Before p' ref.
Proof. intros Hu Hn. unfold period_Before. by rewrite Hu, Hn. Qed.
Lemma Window_key (df : DataFrame F) w w' : windowKey w = windowKey w' → Window df w = Window df w'.
Proof.
  destruct w as [p|], w' as [p'|]; cbn; try done. intros [= Hu Hn]. unfold Window.
  by rewrite (period_Before_key p p').
Qed.
Lemma compute_key k w w' (df : DataFrame F) :
  windowKey w = windowKey w' → derived_compute k w df = derived_compute k w' df.
Proof.
  intros Hw. destruct k; cbn; unfold returns_frame, excess_frame, drawdown_frame, bench_frame; by rewrite (Window_key df w w').
Qed.
Lemma derived_metric_inj k k' : derived_metric k = derived_metric k' → k = k'.
Proof. by destruct k, k'. Qed.

(** Every cached frame is the one a fresh computation gives. *)
Definition cache_current a c : Prop :=
  ∀ k window out, c !! (derived_metric k, windowKey window) = Some out →
    ∃ df, perf_of a = Some df ∧ out = derived_compute k window df.

Lemma cached_empty m window : cachedDF (F := F) ∅ m window = None.
Proof. exact (lookup_empty _). Qed.
Lemma lookup_put c m window df key :
  putDF c m window df !! key = if decide ((m, windowKey window) = key) then Some df else c !! key.
Proof. exact (lookup_insert _ _ _ _). Qed.
Lemma accessor_current k a c window :
  cache_current a c →
  (accessor k a c window).1 = (accessor k a ∅ window).1 ∧ cache_current a (accessor k a c window).2.
Proof.
  intros Hc. rewrite !accessor_derived. unfold derived. destruct (perf_of a) as [df|] eqn:Hp; [|done].
  rewrite cached_empty. unfold cachedDF. destruct (c !! _) as [out|] eqn:Hl; cbn [fst snd].
  - split; [|exact Hc]. destruct (Hc _ _ _ Hl) as (df' & Hp' & ->). by simplify_eq.
  - split; [done|]. intros k' w' out. rewrite lookup_put. case_decide as Hkey; [|apply Hc].
    injection Hkey as Hk Hw. intros [= <-]. apply derived_metric_inj in Hk as ->.
    exists df. split; [done|]. by apply compute_key.
Qed.

Lemma mark_current (df : DataFrame F) a c : cache_current a c → cache_current (UpdatePrices df a) (mark_cache df a c).
Proof.
  intros Hc. unfold UpdatePrices, mark_cache. destruct (Len df =? 0)%nat; [exact Hc|].
  destruct (mark_holdings _ _) as [total stepMV]. cbn [fst]. destruct (append_perf _ _ _); [by intros ? ? ?|exact Hc].
Qed.

(** C16. The cache of derived frames cannot be observed: over any sequence of
    marks and requests for returns, excess returns, drawdowns and benchmark
    returns over any windows, the answers of an account that caches frames by
    metric and window key, and drops the cache at a mark that is recorded, are those of an account
    that computes every frame afresh. *)
Theorem cache_is_invisible a (events : list StatsEvent) : serve a ∅ events = serve_afresh a events.
Proof.
  assert (Hgo : ∀ c, cache_current a c → serve a c events = serve_afresh a events).
  { revert a. induction events as [|[k window|df] rest IH]; intros a c Hc; cbn [serve serve_afresh]; [done|..].
    - destruct (accessor_current k a c window Hc) as [Ha Hc']. destruct (accessor k a c window) as [answer c']. cbn in *.
      rewrite Ha. f_equal. by apply IH.
    - apply IH. by apply mark_current. }
  apply Hgo. by intros ? ? ?.
Qed.
End Cache.
Arguments StatsEvent : clear implicits.

Section Witnesses.
Local Existing Instances utc_db canonical_order.

(** Two marks of an account that starts empty. *)
Definition first_mark : Account xq := UpdatePrices (bar 0 [SPY] [MetricClose] [100%Z]) new_account.
Definition second_mark : Account xq := UpdatePrices (bar 1 [SPY] [MetricClose] [101%Z]) first_mark.
Example second_mark_times : df_times <$> perf_of second_mark = Some [day 0; day 1].
Proof. vm_compute. reflexivity. Qed.

Lemma UpdatePrices_keeps_history_typed_witness :
  typed_history (new_account (F := xq)) ∧ typed_history first_mark ∧ typed_history second_mark ∧
  history (UpdatePrices (bar 0 [SPY] [MetricClose] [102%Z]) second_mark) = history second_mark.
Proof.
  assert (H0 : typed_history (new_account (F := xq))) by (intros ? [=]).
  destruct (UpdatePrices_keeps_history_typed _ (bar 0 [SPY] [MetricClose] [100%Z]) H0) as [H1 _].
  destruct (UpdatePrices_keeps_history_typed _ (bar 1 [SPY] [MetricClose] [101%Z]) H1) as [H2 _].
  split; [exact H0|]. split; [exact H1|]. split; [exact H2|].
  exact (proj2 (UpdatePrices_keeps_history_typed _ (bar 0 [SPY] [MetricClose] [102%Z]) H2)).
Defined.
End Witnesses.
