(* ===== verification/MetricProps.v ===== *)
(** * MetricProps: what the performance metrics measure

    In exact arithmetic.  The time-weighted return is the product of the
    growth factors of the curve, whatever was deposited or withdrawn on its
    days, and on the benchmark view it is the return of the benchmark.  The
    maximum drawdown is the deepest fall between two days.  The safe withdrawal
    rate is the greatest rate of its grid that never exhausts the balance. *)
From Stdlib Require Import ZArith Qround Qcanon Field Lia.
From stdpp Require Import base list gmap strings sorting.
From S2P Require Import Prelude Num GoTime Asset Period Frame Metrics FrameOps Resample Broker Lots Ledger Gains Samples Account.
From S2P Require Import FrameProps FrameOpsProps Backtest Stats ReturnMetrics GrowthMetrics TradeTaxMetrics MetricQuery StatsProps.

(** ** External flows *)
Section Flows.
Context {F : Type} `{Num F}.
Local Open Scope num_scope.
Implicit Types (txns : list (Transaction F)) (t start : Time).

Definition flow_dated t (tx : Transaction F) : bool := is_flow tx && bool_decide (t_Date tx = t).
(** The deposits and withdrawals dated exactly [t], in the order of the log. *)
Definition flow_on txns t : F := fsum (t_Amount <$> keep (flow_dated t) txns).

Lemma flow_map_lookup txns t start end_ (flows : gmap Time F) :
  Before t start = false → After t end_ = false →
  lookup_d 0 (fold_left (add_flow start end_) txns flows) t
  = fsum_from (lookup_d 0 flows t) (t_Amount <$> keep (flow_dated t) txns).
Proof.
  intros Hs He. revert flows. induction txns as [|tx txns IH]; intros flows; [done|].
  cbn [fold_left]. rewrite IH, keep_cons. unfold add_flow, flow_dated.
  case_bool_decide as Ht.
  - subst t. rewrite Hs, He, andb_true_r. cbn [orb].
    destruct (is_flow tx); [|done]. cbn [fmap list_fmap]. by rewrite lookup_d_insert_eq.
  - rewrite andb_false_r. destruct (_ || _); [done|]. destruct (is_flow tx); [|done].
    by rewrite lookup_d_insert_ne.
Qed.

Lemma buildFlowMap_exact txns t start end_ :
  Before t start = false → After t end_ = false → lookup_d 0 (buildFlowMap txns start end_) t = flow_on txns t.
Proof. intros Hs He. unfold buildFlowMap. rewrite flow_map_lookup by done. by rewrite lookup_d_empty. Qed.

(** Every instant of a sorted axis lies between its first and its last. *)
Lemma sorted_bounds t0 ts t :
  StronglySorted (λ t u, Before t u = true) (t0 :: ts) → t ∈ t0 :: ts →
  Before t (first_time (t0 :: ts)) = false ∧ After t (last_time (t0 :: ts)) = false.
Proof.
  intros Hs Ht. split.
  - cbn. inversion Hs as [|? ? _ Hall]; subst. rewrite Forall_forall in Hall.
    apply elem_of_cons in Ht as [->|Ht]; [unfold Before; lia|]. apply Hall in Ht. unfold Before in *. lia.
  - unfold last_time. destruct (last (t0 :: ts)) as [u|] eqn:Hl; [|by apply last_None in Hl].
    apply last_Some in Hl as [l Hl]. rewrite Hl in Hs, Ht. cbn.
    apply elem_of_app in Ht as [Ht|Ht%list_elem_of_singleton]; [|subst; unfold After; lia].
    apply StronglySorted_app in Hs as (Hlt & _ & _). specialize (Hlt t u Ht ltac:(set_solver)).
    unfold After, Before in *. lia.
Qed.
End Flows.

(** ** Time-weighted return *)
Section Twrr.
Local Open Scope Qc_scope.
Context {tz : TZDB} {go : GoMapOrder} {srt : GoSort} `{Gonum xq, NumSqrt xq}.
Implicit Types (stats : PortfolioStats xq) (window : option Period) (steps : list (Qc * Qc)) (ts : list Time).

(** One day of a curve: it grows by a factor, then a flow is added. *)
Fixpoint curve_of (v : Qc) steps : list Qc :=
  match steps with
  | [] => []
  | (g, f) :: rest => let v := v * g + f in v :: curve_of v rest
  end.
Fixpoint growth_of steps : Qc := match steps with [] => 1 | (g, _) :: rest => g * growth_of rest end.
(** The portfolio holds something on every day but the last. *)
Fixpoint funded (v : Qc) steps : Prop :=
  match steps with [] => True | (g, f) :: rest => v ≠ 0 ∧ funded (v * g + f) rest end.

Lemma length_curve v steps : length (curve_of v steps) = length steps.
Proof. revert v. induction steps as [|[g f] steps IH]; intros v; cbn; congruence. Qed.

Lemma fdiv_Fin (a b : Qc) : b ≠ 0 → fdiv (Fin a) (Fin b) = Fin (a / b).
Proof. intros Hb. cbn. by apply qc_eqb_false in Hb as ->. Qed.

Lemma sub_returns_path v steps ts (flows : gmap Time xq) :
  funded v steps → Forall2 (λ s t, lookup_d (Fin 0) flows t = Fin s.2) steps ts →
  sub_returns flows (Fin v) (zip (Fin <$> curve_of v steps) ts) = (λ s, Fin (s.1 - 1)) <$> steps.
Proof.
  intros Hf Hl. revert v Hf. induction Hl as [|[g f] t steps ts Ht Hl IH]; intros v Hf; [done|].
  destruct Hf as [Hv Hf]. cbn [curve_of fmap list_fmap zip_with sub_returns].
  rewrite (IH _ Hf). change (@of_Z xq _ 0) with (Fin 0). rewrite Ht. cbn [snd fst].
  change (feq (Fin v) (Fin 0)) with (qc_eqb v 0). pose proof Hv as Hv'. apply qc_eqb_false in Hv as ->. cbn [negb].
  f_equal. change (@of_Z xq _ 1) with (Fin 1). change (fsub (Fin (v * g + f)) (Fin f)) with (Fin (v * g + f + - f)).
  rewrite fdiv_Fin by done. change (fsub (Fin ?x) (Fin 1)) with (Fin (x + - 1)). f_equal. field. done.
Qed.

Lemma compound_path (acc : Qc) steps :
  fold_left (λ growth ri, fmul growth (fadd (of_Z 1) ri)) ((λ s : Qc * Qc, Fin (s.1 - 1)) <$> steps) (Fin acc)
  = Fin (acc * growth_of steps).
Proof.
  revert acc. induction steps as [|[g f] steps IH]; intros acc; cbn [fmap list_fmap fold_left growth_of].
  - f_equal. ring.
  - change (@of_Z xq _ 1) with (Fin 1). cbn [fadd fmul Num_exact xadd xmul fst] in IH |- *.
    rewrite IH. f_equal. ring.
Qed.

(** A flow-adjusted curve compounds to its growth factors. *)
Lemma flow_adjusted_path v steps t0 ts (txns : list (Transaction xq)) :
  funded v steps → StronglySorted (λ t u, Before t u = true) (t0 :: ts) →
  Forall2 (λ s t, flow_on txns t = Fin s.2) steps ts →
  compound (subPeriodReturns (Fin <$> v :: curve_of v steps) (t0 :: ts)
    (buildFlowMap txns (first_time (t0 :: ts)) (last_time (t0 :: ts)))) = Fin (growth_of steps).
Proof.
  intros Hf Hs Hflows. unfold subPeriodReturns, compound. cbn [fmap list_fmap zip_with].
  rewrite sub_returns_path; [|done|].
  - change (@of_Z xq _ 1) with (Fin 1). change (Fin 1) with (@of_Z xq _ 1) at 1.
    rewrite compound_path. f_equal. ring.
  - apply Forall2_same_length_lookup. apply Forall2_same_length_lookup in Hflows as [Hlen Hall].
    split; [done|]. intros i s t Hsi Hti. rewrite <-(Hall i s t Hsi Hti).
    destruct (sorted_bounds t0 ts t Hs) as [Hb Ha]; [apply list_elem_of_further; by eapply list_elem_of_lookup_2|].
    exact (buildFlowMap_exact (F := xq) txns t _ _ Hb Ha).
Qed.

(** C10. The time-weighted return ignores external flows: over a window in
    which the curve grows by given factors from day to day, and the deposits and
    withdrawals dated on those days are added after the growth, the return is the
    product of the factors less one, whatever the flows are. *)
Theorem TWRR_ignores_flows stats window (df : DataFrame xq) (v : Qc) steps (t0 : Time) ts :
  EquitySeries stats window = Some df →
  equity_of df = Fin <$> v :: curve_of v steps → df_times df = t0 :: ts →
  StronglySorted (λ t u, Before t u = true) (t0 :: ts) → steps ≠ [] → funded v steps →
  Forall2 (λ s t, flow_on (TransactionsView stats) t = Fin s.2) steps ts →
  twrr_Compute stats window = Ok (Fin (growth_of steps - 1)).
Proof.
  intros Hdf Heq Hts Hs Hne Hf Hflows. unfold twrr_Compute, on_equity. rewrite Hdf, Heq, Hts.
  rewrite flow_adjusted_path by done. rewrite length_fmap. cbn [length]. rewrite length_curve.
  by destruct steps.
Qed.

(** ** The benchmark view *)

(** The factors from one value of a series to the next, without flows. *)
Fixpoint factors (b : Qc) (bs : list Qc) : list (Qc * Qc) :=
  match bs with [] => [] | b' :: rest => (b' / b, 0) :: factors b' rest end.

Definition scaled (k : Qc) (l : list Qc) : list Qc := (λ x, x * k) <$> l.
Lemma curve_of_factors (k b : Qc) bs :
  b ≠ 0 → Forall (λ x, x ≠ 0) bs → k ≠ 0 →
  curve_of (b * k) (factors b bs) = scaled k bs ∧ funded (b * k) (factors b bs).
Proof.
  intros Hb Hbs Hk. revert b Hb. induction Hbs as [|b' bs Hb' Hbs IH]; intros b Hb; [done|].
  cbn [factors curve_of funded scaled fmap list_fmap].
  replace (b * k * (b' / b) + 0) with (b' * k) by (field; done).
  destruct (IH b' Hb') as [-> Hf]. split; [done|]. split; [|done]. intros Hz.
  apply Qcmult_integral in Hz as [|]; contradiction.
Qed.

Lemma growth_of_factors (b : Qc) bs :
  b ≠ 0 → Forall (λ x, x ≠ 0) bs → growth_of (factors b bs) = default b (last (b :: bs)) / b.
Proof.
  intros Hb Hbs. revert b Hb. induction Hbs as [|b' bs Hb' Hbs IH]; intros b Hb; cbn [factors growth_of].
  - cbn. field. done.
  - rewrite (IH b' Hb'). change (last (b :: b' :: bs)) with (last (b' :: bs)).
    destruct (last (b' :: bs)) as [z|] eqn:Hz; [|by apply last_None in Hz]. cbn. field. done.
Qed.

Lemma no_flows_left (txns : list (Transaction xq)) t : flow_on (keep (λ tx, negb (is_flow tx)) txns) t = Fin 0.
Proof.
  unfold flow_on. rewrite (keep_false (flow_dated t)); [done|]. apply Forall_forall. intros tx Htx.
  apply elem_of_keep in Htx as [Htx _]. unfold flow_dated. by destruct (is_flow tx).
Qed.

(** The frame of the view: the equity column is the scaled benchmark. *)
Lemma benchmarkView_frame (a : Account xq) times (e0 b0 : Qc) (eqs bs : list Qc) rf :
  perf_of a = Some (perf_frame times (Fin <$> e0 :: eqs) (Fin <$> b0 :: bs) rf) →
  length times = S (length bs) → e0 ≠ 0 → b0 ≠ 0 →
  benchmarkView a = Ok (set_perf_and_log
    (perf_frame times (Fin <$> scaled (e0 / b0) (b0 :: bs)) (Fin <$> b0 :: bs) rf)
    (keep (λ t, negb (is_flow t)) (transactions (ledger a))) a).
Proof.
  intros Hp Hlen He Hb. unfold benchmarkView. rewrite Hp, Column_benchmark.
  change (Column ?d portfolioAsset PortfolioEquity) with (equity_of d). rewrite Column_equity. cbn [fmap list_fmap].
  change (feq (Fin b0) (of_Z 0)) with (qc_eqb b0 0). change (feq (Fin e0) (of_Z 0)) with (qc_eqb e0 0).
  pose proof Hb as Hb'. apply qc_eqb_false in Hb' as ->. pose proof He as He'. apply qc_eqb_false in He' as ->.
  cbn [orb]. rewrite fdiv_Fin by done.
  unfold Insert. change (df_err (frame_Copy ?d)) with (@None error). cbn beta iota zeta.
  change (df_times (frame_Copy ?d)) with times.
  match goal with |- context [negb (?n =? length times)%nat] => assert (n = length times) as -> end.
  { rewrite Hlen. cbn [length]. by rewrite !length_fmap. }
  rewrite Nat.eqb_refl.
  cbn [negb]. f_equal. f_equal. unfold scaled, perf_frame, build, frame_Copy. f_equal. rewrite <-!list_fmap_compose. reflexivity.
Qed.

(** The return of the benchmark: when the history of an account starts
    with positive equity and a benchmark that is never zero, the time-weighted
    return on its benchmark view is the last benchmark value over the first,
    less one, whatever the account deposited, withdrew or traded. *)
Theorem benchmark_TWRR_is_its_return (a : Account xq) (t0 : Time) ts (e0 b0 : Qc) (eqs bs : list Qc) rf :
  perf_of a = Some (perf_frame (t0 :: ts) (Fin <$> e0 :: eqs) (Fin <$> b0 :: bs) rf) →
  length ts = length bs → length rf = S (length ts) → bs ≠ [] → e0 ≠ 0 → Forall (λ x, x ≠ 0) (b0 :: bs) →
  StronglySorted (λ t u, Before t u = true) (t0 :: ts) →
  (stats ← BenchmarkStats a; twrr_Compute stats None) = Ok (Fin (default b0 (last (b0 :: bs)) / b0 - 1)).
Proof.
  intros Hp Hlen Hrf Hne He Hbs Hs. inversion Hbs as [|? ? Hb Hrest]; subst.
  assert (Hk : e0 / b0 ≠ 0).
  { intros Hz. apply He. transitivity (e0 / b0 * b0); [field; done|rewrite Hz; ring]. }
  destruct (curve_of_factors (e0 / b0) b0 bs Hb Hrest Hk) as [Hcurve Hfund].
  unfold BenchmarkStats. rewrite (benchmarkView_frame a (t0 :: ts) e0 b0 eqs bs rf) by (cbn; auto).
  rewrite <-growth_of_factors by done.
  pose (df := perf_frame (t0 :: ts) (Fin <$> scaled (e0 / b0) (b0 :: bs)) (Fin <$> b0 :: bs) rf).
  pose (txns := keep (λ t, negb (is_flow t)) (transactions (ledger a))).
  change (twrr_Compute (account_stats (set_perf_and_log df txns a)) None = Ok (Fin (growth_of (factors b0 bs) - 1))).
  assert (Hseries : EquitySeries (account_stats (set_perf_and_log df txns a)) None = Some df).
  { cbn [EquitySeries account_stats]. unfold account_EquitySeries.
    change (perf_of (set_perf_and_log ?d ?l ?x)) with (Some d). cbn [fmap option_fmap option_map]. unfold df, scaled.
    by rewrite Window_None by (rewrite ?length_fmap; cbn [length]; rewrite ?length_fmap; lia). }
  unfold twrr_Compute, on_equity. rewrite Hseries. unfold df at 1 2 3. rewrite !Column_equity. unfold scaled. rewrite !length_fmap. cbn [length].
  change (df_times (perf_frame ?ts _ _ _)) with ts. rewrite fmap_cons. fold (scaled (e0 / b0) bs). rewrite <-Hcurve.
  rewrite flow_adjusted_path; [by destruct bs|exact Hfund|exact Hs|].
  apply Forall2_same_length_lookup. split.
  - rewrite Hlen. clear. revert b0. induction bs as [|b bs IH]; intros b0; cbn; [done|]. by rewrite IH.
  - intros i s t Hi _. etransitivity; [apply no_flows_left|]. f_equal. clear -Hi. revert b0 i Hi.
    induction bs as [|b bs IH]; intros b0 [|i] Hi; cbn in Hi; [done|done|by simplify_eq|by eapply IH].
Qed.
End Twrr.

(** ** Drawdown *)
Section Drawdown.
Local Open Scope Qc_scope.
Context {tz : TZDB} {go : GoMapOrder} {srt : GoSort} `{Gonum xq, !GonumLaws xq}.
Implicit Types (es : list Qc) (times : list Time).

Lemma times_match_refl times : times_match times times = true.
Proof.
  unfold times_match. rewrite Nat.eqb_refl. cbn [andb]. induction times as [|t times IH]; [done|].
  cbn [zip zip_with forallb fst snd]. rewrite IH, andb_true_r. unfold Equal. lia.
Qed.

(** The operations on two frames with the same single column. *)
Lemma arith_equity (op : list xq → list xq → list xq) times (u v : list xq) :
  elemWiseOp (equity_frame times u) (equity_frame times v) op = equity_frame times (op u v).
Proof. unfold elemWiseOp, equity_frame. cbn [df_err build df_times]. rewrite times_match_refl. reflexivity. Qed.

Lemma drawdown_equity times (u : list xq) :
  equity_of (drawdown_of (equity_frame times u)) = floats_DivTo (floats_SubTo u (cum_max_col u)) (cum_max_col u).
Proof.
  unfold drawdown_of. change (CumMax (equity_frame times u)) with (equity_frame times (cum_max_col u)).
  change (frame_Sub ?x ?y []) with (elemWiseOp x y floats_SubTo). rewrite arith_equity.
  change (frame_Div ?x ?y []) with (elemWiseOp x y floats_DivTo). by rewrite arith_equity.
Qed.

Lemma cum_max_exact es i x :
  es !! i = Some x →
  ∃ k p, (k ≤ i)%nat ∧ es !! k = Some p ∧ cum_max_col (Fin <$> es) !! i = Some (Fin p) ∧
    ∀ j y, (j ≤ i)%nat → es !! j = Some y → y <= p.
Proof.
  intros Hi. destruct es as [|x0 rest]; [done|].
  assert (Hp : ∃ p, cum_max_col (Fin <$> x0 :: rest) !! i = Some p ∧ p ∈ take (S i) (Fin <$> x0 :: rest) ∧
    ∀ y, y ∈ take (S i) (Fin <$> x0 :: rest) → flt p y = false).
  { cbn [fmap list_fmap cum_max_col]. destruct i as [|i]; [injection Hi as <-|change (rest !! i = Some x) in Hi].
    - exists (Fin x0). split; [done|]. split; [cbn; set_solver|]. cbn. intros y ->%list_elem_of_singleton. exact (flt_irrefl (Fin x0)).
    - destruct (cum_max_from_spec (Fin x0) (Fin <$> rest) i (Fin x)) as (p & Hp & Hin & _ & Hmax);
        [by rewrite list_lookup_fmap, Hi|]. by exists p. }
  destruct Hp as (p & Hp & Hin & Hmax). rewrite <-fmap_take in Hin.
  apply list_elem_of_fmap in Hin as (q & -> & (k & Hk)%list_elem_of_lookup_1).
  apply lookup_take_Some in Hk as [Hk Hki]. exists k, q. split; [lia|]. split; [done|]. split; [done|].
  intros j y Hj Hy. assert (Hlt : flt (Fin q) (Fin y) = false).
  { apply Hmax. rewrite <-fmap_take. apply list_elem_of_fmap_2. eapply list_elem_of_lookup_2 with (i := j).
    apply lookup_take_Some. split; [done|lia]. }
  cbn in Hlt. by apply qc_ltb_false in Hlt.
Qed.

Lemma min_below_exact (s : Qc) (ds : list Qc) :
  ∃ m, min_below (Fin s) (Fin <$> ds) = Fin m ∧ m <= s ∧ Forall (λ d, m <= d) ds ∧ (m = s ∨ m ∈ ds).
Proof.
  revert s. unfold min_below. induction ds as [|d ds IH]; intros s.
  - exists s. split; [done|]. split; [qclra|]. split; [constructor|by left].
  - cbn [fmap list_fmap fold_left]. change (flt (Fin d) (Fin s)) with (qc_ltb d s). qc_case.
    + destruct (IH d) as (m & -> & Hm & Hall & Hin). exists m. split; [done|]. split; [qclra|].
      split; [by constructor|]. right. destruct Hin as [->|Hin]; set_solver.
    + destruct (IH s) as (m & -> & Hm & Hall & Hin). exists m. split; [done|]. split; [done|].
      split; [constructor; [qclra|done]|]. destruct Hin as [->|Hin]; [by left|right; set_solver].
Qed.

(** The fall from [x] to [y]. *)
Definition fall (x y : Qc) : Qc := (y - x) / x.
Lemma qc_pos_ne (x : Qc) : 0 < x → x ≠ 0.
Proof. intros Hx. apply not_eq_sym, Qclt_not_eq, Hx. Qed.
Lemma fall_deeper (x p y : Qc) : 0 < x → x <= p → 0 < y → fall p y <= fall x y.
Proof.
  intros Hx Hxp Hy. unfold fall.
  assert (Hx0 : x ≠ 0) by by apply qc_pos_ne. assert (Hp0 : p ≠ 0) by (apply qc_pos_ne; qclra).
  assert (Ha : (y - x) / x * x = y - x) by (field; done). assert (Hb : (y - p) / p * p = y - p) by (field; done).
  revert Ha Hb. generalize ((y - x) / x) ((y - p) / p). intros a b Ha Hb.
  assert (Ha1 : 0 < a + 1).
  { destruct (Qclt_le_dec 0 (a + 1)) as [|Hn]; [done|exfalso]. qcnra. }
  apply Qcnot_lt_le. intros Hlt. assert (Hm : 0 <= (a + 1) * (p - x)) by (apply qc_mul_nonneg; qclra).
  assert (Hs : 0 < (b - a) * p) by qcnra. replace ((b - a) * p) with (b * p - a * p) in Hs by ring.
  replace ((a + 1) * (p - x)) with (a * p + p - a * x - x) in Hm by ring. rewrite Ha in Hm. rewrite Hb in Hs. qclra.
Qed.

Lemma drawdown_cells times es i x :
  Forall (λ e, 0 < e) es → es !! i = Some x →
  ∃ k p, (k ≤ i)%nat ∧ es !! k = Some p ∧ (∀ j y, (j ≤ i)%nat → es !! j = Some y → y <= p) ∧
    equity_of (drawdown_of (equity_frame times (Fin <$> es))) !! i = Some (Fin (fall p x)).
Proof.
  intros Hpos Hi. destruct (cum_max_exact es i x Hi) as (k & p & Hk & Hp & Hc & Hmax).
  exists k, p. split; [done|]. split; [done|]. split; [done|]. rewrite drawdown_equity.
  assert (Hlen : length (cum_max_col (Fin <$> es)) = length (Fin <$> es)).
  { destruct es; cbn; [done|]. by rewrite length_cum_max. }
  rewrite SubTo_elem by done. rewrite DivTo_elem by (rewrite length_zip_with; lia).
  rewrite !lookup_zip_with, Hc, list_lookup_fmap, Hi. cbn [fmap option_fmap option_map mbind option_bind].
  assert (Hp0 : p ≠ 0). { rewrite Forall_forall in Hpos. apply list_elem_of_lookup_2, Hpos in Hp. by apply qc_pos_ne. }
  change (fsub (Fin x) (Fin p)) with (Fin (x - p)). by rewrite fdiv_Fin.
Qed.

Lemma length_drawdown_column times es :
  length (equity_of (drawdown_of (equity_frame times (Fin <$> es)))) = length es.
Proof.
  rewrite drawdown_equity. assert (Hcm : length (cum_max_col (Fin <$> es)) = length (Fin <$> es)).
  { destruct es; cbn; [done|]. by rewrite length_cum_max. }
  rewrite SubTo_elem by done. rewrite DivTo_elem by (rewrite length_zip_with; lia).
  rewrite !length_zip_with, Hcm, length_fmap. lia.
Qed.

(** The drawdown column: each day's fall from the highest day before it. *)
Lemma drawdown_column_exact times es :
  Forall (λ e, 0 < e) es →
  ∃ ds, equity_of (drawdown_of (equity_frame times (Fin <$> es))) = Fin <$> ds ∧ length ds = length es ∧
    ∀ j y, es !! j = Some y → ∃ k p, (k ≤ j)%nat ∧ es !! k = Some p ∧
      (∀ i x, (i ≤ j)%nat → es !! i = Some x → x <= p) ∧ ds !! j = Some (fall p y).
Proof.
  intros Hpos. pose proof (length_drawdown_column times es) as Hlen.
  pose proof (λ i x, drawdown_cells times es i x Hpos) as Hcells. revert Hlen Hcells. generalize (equity_of (drawdown_of (equity_frame times (Fin <$> es)))).
  intros col Hlen Hcells. exists ((λ c, match c with Fin d => d | _ => 0 end) <$> col). rewrite length_fmap. split; [|split; [done|]].
  - apply list_eq. intros i. rewrite !list_lookup_fmap. destruct (es !! i) as [x|] eqn:Hi.
    + destruct (Hcells i x Hi) as (k & p & _ & _ & _ & Hc). by rewrite Hc.
    + apply lookup_ge_None in Hi. rewrite lookup_ge_None_2 by lia. done.
  - intros j y Hj. destruct (Hcells j y Hj) as (k & p & Hk & Hp & Hmax & Hc). exists k, p.
    by rewrite list_lookup_fmap, Hc.
Qed.

Lemma account_Drawdown_equity (a : Account xq) (perf : DataFrame xq) window es :
  perf_of a = Some perf → perf_like perf → equity_of (Window perf window) = Fin <$> es → es ≠ [] →
  ∃ times, Drawdown (account_stats a) window = Some (drawdown_of (equity_frame times (Fin <$> es))).
Proof.
  intros Hp [(times & eq & bm & rf & -> & Hlen & _)] Hes Hne. cbn [Drawdown account_stats].
  unfold account_Drawdown, derived. rewrite Hp, cached_empty. cbn [fst]. unfold drawdown_frame.
  destruct (Window_perf times eq bm rf window Hlen) as (times' & eq' & [Hl He _ Hf]). rewrite Hes in He. subst eq'.
  destruct Hf as [(bm' & rf' & ->)|[_ ->]]; [exists times'; by rewrite Metrics_equity|].
  rewrite length_fmap in Hl. by destruct es.
Qed.

(** C25. The maximum drawdown of an account over a window is its deepest fall:
    no day of the window is further below an earlier day, relative to the
    earlier day, than the metric says, and the equity of some two days falls by
    exactly that much (a flat day counts as a fall of zero). *)
Theorem MaxDrawdown_is_deepest_fall (a : Account xq) (perf : DataFrame xq) window es :
  perf_of a = Some perf → perf_like perf → equity_of (Window perf window) = Fin <$> es → es ≠ [] →
  Forall (λ e, 0 < e) es →
  ∃ m, maxDrawdown_Compute (account_stats a) window = Ok (Fin m) ∧
    (∀ i j x y, (i ≤ j)%nat → es !! i = Some x → es !! j = Some y → m <= fall x y) ∧
    ∃ i j x y, (i ≤ j)%nat ∧ es !! i = Some x ∧ es !! j = Some y ∧ m = fall x y.
Proof.
  intros Hp Hperf Hes Hne Hpos. destruct (account_Drawdown_equity a perf window es Hp Hperf Hes Hne) as [times Hd].
  destruct (drawdown_column_exact times es Hpos) as (ds & Hcol & Hlen & Hcell).
  unfold maxDrawdown_Compute, drawdown_column. rewrite Hd. cbn [fmap option_fmap option_map].
  destruct (min_below_exact 0 ds) as (m & Hm & Hle & Hall & Hatt). exists m. rewrite Hcol.
  split; [|split].
  - change (@of_Z xq _ 0) with (Fin 0). rewrite Hm. destruct ds; [|done]. by destruct es.
  - intros i j x y Hij Hx Hy. destruct (Hcell j y Hy) as (k & p & _ & _ & Hmax & Hd').
    rewrite Forall_forall in Hall, Hpos. apply list_elem_of_lookup_2 in Hd' as Hin. eapply Qcle_trans; [by apply Hall|].
    apply fall_deeper; [|by eapply Hmax|]; apply Hpos; by eapply list_elem_of_lookup_2.
  - destruct Hatt as [->|(j & Hj)%list_elem_of_lookup_1].
    + destruct es as [|x es]; [done|]. exists 0%nat, 0%nat, x, x. split; [done|]. split; [done|]. split; [done|].
      unfold fall. assert (x ≠ 0) by (apply qc_pos_ne; by inversion Hpos). by field.
    + destruct (es !! j) as [y|] eqn:Hy; [|apply lookup_ge_None in Hy; apply lookup_lt_Some in Hj; lia].
      destruct (Hcell j y Hy) as (k & p & Hk & Hp' & _ & Hd'). exists k, j, p, y. split; [done|]. split; [done|].
      split; [done|]. congruence.
Qed.
End Drawdown.

(** ** Withdrawal rates *)
Section Withdrawals.
Local Open Scope Qc_scope.
Context {tz : TZDB} {srt : GoSort} `{Gonum xq, GoStat xq, NumSqrt xq, NumPow xq}.
Implicit Types (es : list Qc) (times : list Time) (stats : PortfolioStats xq) (w : Drawing xq) (dynamic : bool).

(** [math.Pow] of the inflation factor to a whole number of years. *)
Hypothesis pow_inflation : ∀ n : nat, ∃ x, 0 <= x ∧ fpow inflation (of_Z (Z.of_nat n)) = Fin x.

Definition grown_balance (p e b : Qc) : Qc := if qc_ltb 0 p then b * (1 + (e - p) / p) else b.
Lemma grown_balance_exact (p e b : Qc) :
  (if flt (of_Z 0) (Fin p) then fmul (Fin b) (fadd (of_Z 1) (fdiv (fsub (Fin e) (Fin p)) (Fin p))) else Fin b)
  = Fin (grown_balance p e b).
Proof.
  unfold grown_balance. change (flt (of_Z 0) (Fin p)) with (qc_ltb 0 p). qc_case; [|done].
  change (fsub (Fin e) (Fin p)) with (Fin (e - p)). rewrite fdiv_Fin by by apply qc_pos_ne. reflexivity.
Qed.
Lemma grown_balance_mono (p e b b' : Qc) :
  0 <= e → 0 <= b' → b' <= b → 0 <= grown_balance p e b' ∧ grown_balance p e b' <= grown_balance p e b.
Proof.
  intros He Hb Hle. unfold grown_balance. qc_case; [|done].
  assert (Hp : p ≠ 0) by by apply qc_pos_ne.
  assert (Hf : (1 + (e - p) / p) * p = e) by (field; done). revert Hf. generalize (1 + (e - p) / p). intros k Hf.
  assert (Hk : 0 <= k). { destruct (Qclt_le_dec k 0) as [Hn|]; [exfalso|done]. qcnra. }
  split; [by apply qc_mul_nonneg|]. assert (0 <= (b - b') * k) by (apply qc_mul_nonneg; qclra).
  replace ((b - b') * k) with (b * k - b' * k) in * by ring. qclra.
Qed.

(** What is left of a balance after a year's withdrawal. *)
Definition left_over dynamic (start x r b : Qc) : Qc :=
  b - (if dynamic && qc_ltb (b * r) (r * start * x) then b * r else r * start * x).
Lemma left_over_mono dynamic (start x r r' b b' : Qc) :
  0 <= start → 0 <= x → 0 <= b' → b' <= b → r <= r' → r' <= 1 →
  left_over dynamic start x r' b' <= left_over dynamic start x r b.
Proof.
  intros Hs Hx Hb Hle Hr Hr1. unfold left_over.
  assert (Hw : 0 <= (r' - r) * (start * x)) by (apply qc_mul_nonneg; [qclra|by apply qc_mul_nonneg]).
  assert (Hd : 0 <= (b - b') * (1 - r')) by (apply qc_mul_nonneg; qclra).
  assert (Hd' : 0 <= (r' - r) * b) by (apply qc_mul_nonneg; qclra).
  replace ((r' - r) * (start * x)) with (r' * start * x - r * start * x) in Hw by ring.
  replace ((b - b') * (1 - r')) with (b - b' - b * r' + b' * r') in Hd by ring.
  replace ((r' - r) * b) with (b * r' - b * r) in Hd' by ring.
  revert Hw Hd Hd'. generalize (r' * start * x) (r * start * x) (b' * r') (b * r') (b * r). intros v' v u' u u0 Hw Hd Hd'.
  destruct dynamic; cbn [andb]; [|qclra]. destruct (qc_ltb u' v') eqn:E', (qc_ltb u0 v) eqn:E; qc_bools; qclra.
Qed.

(** The account that withdraws less has at least the balance of the other. *)
Record outlasts w w' : Prop := {
  ol_boundary : dw_boundary w = dw_boundary w';
  ol_years : dw_years w = dw_years w';
  ol_balance : ∃ b b', dw_balance w = Fin b ∧ dw_balance w' = Fin b' ∧ 0 <= b' ∧ b' <= b;
}.

Lemma draw_day_exact dynamic (start r p e b x : Qc) (boundary : Z) years startDate t :
  fpow inflation (of_Z (Z.of_nat (S years))) = Fin x →
  draw_day (Fin start) (Fin r) dynamic startDate (Fin p) (Fin e) t (mkDrawing (Fin b) boundary years)
  = if (boundary <=? Unix t)%Z then
      let b := left_over dynamic start x r (grown_balance p e b) in
      if qc_leb b 0 then None else Some (mkDrawing (Fin b) (year_boundary startDate (S (S years))) (S years))
    else Some (mkDrawing (Fin (grown_balance p e b)) boundary years).
Proof.
  intros Hpow. unfold draw_day. cbn [dw_balance dw_boundary dw_years]. rewrite grown_balance_exact.
  destruct (_ <=? _)%Z; [|done].
  rewrite Hpow. change (fmul (fmul (Fin r) (Fin start)) (Fin x)) with (Fin (r * start * x)).
  change (fmul (Fin ?u) (Fin r)) with (Fin (u * r)). change (flt (Fin ?u) (Fin ?v)) with (qc_ltb u v).
  unfold left_over. destruct (dynamic && _); reflexivity.
Qed.

Lemma draw_day_mono dynamic (start r r' p e : Qc) startDate t w w' v' :
  0 <= start → r <= r' → r' <= 1 → 0 <= e → outlasts w w' →
  draw_day (Fin start) (Fin r') dynamic startDate (Fin p) (Fin e) t w' = Some v' →
  ∃ v, draw_day (Fin start) (Fin r) dynamic startDate (Fin p) (Fin e) t w = Some v ∧ outlasts v v'.
Proof.
  intros Hs Hr Hr1 He. destruct w as [bal bd yr], w' as [bal' bd' yr'].
  intros [Hbd Hyr (b & b' & Hb & Hb' & Hpos & Hle)]. cbn in Hbd, Hyr, Hb, Hb'. subst.
  destruct (pow_inflation (S yr')) as (x & Hx & Hpow). rewrite !(draw_day_exact _ _ _ _ _ _ x) by done.
  destruct (grown_balance_mono p e b b' He Hpos Hle) as [Hg Hgle].
  destruct (bd' <=? Unix t)%Z; [|intros [= <-]; eexists; split; [done|]; split; cbn; eauto 10].
  pose proof (left_over_mono dynamic start x r r' _ _ Hs Hx Hg Hgle Hr Hr1) as Hleft. revert Hleft.
  generalize (left_over dynamic start x r' (grown_balance p e b')) (left_over dynamic start x r (grown_balance p e b)).
  intros u' u Hu. cbv zeta. destruct (qc_leb u' 0) eqn:E'; [done|]. intros [= <-]. qc_bools.
  assert (qc_leb u 0 = false) as -> by (apply qc_leb_false; by eapply Qclt_le_trans).
  eexists. split; [done|]. split; cbn; [done|done|]. exists u, u'. split_and!; try done. by apply Qclt_le_weak.
Qed.

Lemma draw_days_mono dynamic (start r r' p : Qc) es times startDate w w' v' :
  0 <= start → r <= r' → r' <= 1 → Forall (λ e, 0 <= e) es → outlasts w w' →
  draw_days (Fin start) (Fin r') dynamic startDate (Fin p) (zip (Fin <$> es) times) w' = Some v' →
  ∃ v, draw_days (Fin start) (Fin r) dynamic startDate (Fin p) (zip (Fin <$> es) times) w = Some v ∧ outlasts v v'.
Proof.
  intros Hs Hr Hr1 Hes. revert times p w w'. induction Hes as [|e es He Hes IH]; intros [|t times] p w w' Hw Hv;
    cbn [fmap list_fmap zip_with draw_days] in *; try (injection Hv as <-; by exists w).
  destruct (draw_day _ _ _ _ _ _ _ w') as [u'|] eqn:Hu'; [|done].
  destruct (draw_day_mono dynamic start r r' p e startDate t w w' u' Hs Hr Hr1 He Hw Hu') as (u & -> & Hu).
  by apply (IH times e u u').
Qed.

(** A criterion on the final balance that a greater balance meets as well. *)
Definition upward_closed (criterion : xq → xq → xq → bool) : Prop :=
  ∀ s b b' x, b' <= b → criterion s (Fin b') x = true → criterion s (Fin b) x = true.

Lemma sustainable_mono dynamic criterion es times (r r' : Qc) :
  upward_closed criterion → Forall (λ e, 0 <= e) es → r <= r' → r' <= 1 →
  withdrawalSustainable (Fin <$> es) times (Fin r') dynamic criterion = true →
  withdrawalSustainable (Fin <$> es) times (Fin r) dynamic criterion = true.
Proof.
  intros Hc Hes Hr Hr1. unfold withdrawalSustainable. destruct (_ || _); [done|].
  destruct Hes as [|e es He Hes]; [done|]. destruct times as [|t times]; [done|]. cbn [fmap list_fmap zip_with].
  destruct (draw_days _ (Fin r') _ _ _ _ _) as [v'|] eqn:Hv; [|done].
  eapply draw_days_mono in Hv as (v & -> & [_ _ (b & b' & -> & -> & _ & Hle)]); [by apply Hc|done..|].
  split; [done|done|]. exists e, e. by split_and!.
Qed.

(** The grid of rates. *)
Lemma rate_of_exact (n : nat) : @rate_of xq _ n = Fin (qc_of_Z (Z.of_nat n) / qc_of_Z 1000).
Proof. unfold rate_of. apply fdiv_Fin. done. Qed.

(** The search stops at the first rate that fails; when success is closed
    downwards, no later rate would have succeeded. *)
Lemma best_rate_greatest (ok : xq → bool) (n k : nat) :
  (∀ i j, (i ≤ j ≤ n + k)%nat → ok (rate_of j) = true → ok (rate_of i) = true) →
  ∃ m, best_rate ok (rate_of n) (seq (S n) k) = rate_of m ∧ (n ≤ m ≤ n + k)%nat ∧
    ∀ i, (n < i ≤ n + k)%nat → ok (rate_of i) = true ↔ (i ≤ m)%nat.
Proof.
  revert n. induction k as [|k IH]; intros n Hmono; cbn [seq best_rate].
  - exists n. split; [done|]. split; [lia|]. lia.
  - destruct (ok (rate_of (S n))) eqn:Hok.
    + destruct (IH (S n)) as (m & -> & Hm & Hspec); [intros; apply (Hmono i j); [lia|done]|].
      exists m. split; [done|]. split; [lia|]. intros i Hi. destruct (decide (i = S n)) as [->|]; [|apply Hspec; lia].
      split; [lia|done].
    + exists n. split; [done|]. split; [lia|]. intros i Hi. split; [|lia]. intros Hi'.
      rewrite (Hmono (S n) i) in Hok; [done|lia|done].
Qed.

Definition any_balance (start final factor : xq) : bool := true.
Definition keeps_pace (start final factor : xq) : bool := fle (fmul start factor) final.
Lemma any_balance_up : upward_closed any_balance.
Proof. done. Qed.
Lemma keeps_pace_up : upward_closed keeps_pace.
Proof.
  intros s b b' x Hle. unfold keeps_pace. destruct (fmul s x) as [c| | |]; cbn; try done. rewrite !qc_leb_true. intros Hc.
  by eapply Qcle_trans.
Qed.

(** The answer is the greatest rate of the grid 0.1%, 0.2%, ..., 20% that the
    simulation sustains, or 0%: the rates up to it are sustained, the rates
    above it are not. *)
Definition greatest_rate (compute : PortfolioStats xq → option Period → result xq) dynamic
    (criterion : xq → xq → xq → bool) stats window es times : Prop :=
  ∃ m, (m ≤ 200)%nat ∧ compute stats window = Ok (rate_of m) ∧
    ∀ i, (1 ≤ i ≤ 200)%nat →
      withdrawalSustainable (Fin <$> es) times (rate_of i) dynamic criterion = true ↔ (i ≤ m)%nat.

Lemma withdrawal_rate_greatest stats window (df : DataFrame xq) es dynamic criterion :
  upward_closed criterion → EquitySeries stats window = Some df → equity_of df = Fin <$> es →
  (2 ≤ length es)%nat → (2 ≤ length (df_times df))%nat → flt (span_days (df_times df)) (of_Z 365) = false →
  Forall (λ e, 0 <= e) es →
  greatest_rate (withdrawal_rate dynamic criterion) dynamic criterion stats window es (df_times df).
Proof.
  intros Hup Hdf Heq Hl Ht Hspan Hes. unfold greatest_rate, withdrawal_rate, on_equity. rewrite Hdf, Heq, length_fmap, Hspan.
  destruct (Nat.ltb_spec (length es) 2); [lia|]. destruct (Nat.ltb_spec (length (df_times df)) 2); [lia|]. cbn [orb].
  set (ok := λ rate, withdrawalSustainable (Fin <$> es) (df_times df) rate dynamic criterion).
  destruct (best_rate_greatest ok 0 200) as (m & Hm & Hle & Hspec).
  - intros i j Hij. unfold ok. rewrite !rate_of_exact. apply sustainable_mono; try done.
    + apply Qcmult_le_compat_r; [|done]. apply qc_of_Z_le. lia.
    + apply (Qcmult_lt_0_le_reg_r _ _ (qc_of_Z 1000)); [done|]. 
      replace (qc_of_Z (Z.of_nat j) / qc_of_Z 1000 * qc_of_Z 1000) with (qc_of_Z (Z.of_nat j)) by (field; done).
      replace (1 * qc_of_Z 1000) with (qc_of_Z 1000) by ring. apply qc_of_Z_le. lia.
  - exists m. split; [lia|]. split; [|intros i Hi; apply Hspec; lia]. rewrite <-Hm.
    f_equal. unfold ok. f_equal. rewrite rate_of_exact. cbn [of_Z Num_exact]. f_equal. by apply Qc_is_canon.
Qed.

(** C17. The withdrawal rates are the greatest of their grid.  The safe, the
    dynamic and the perpetual withdrawal rate stop at the first rate of the grid
    0.1%, 0.2%, ..., 20% that the simulation of the window does not sustain; no
    greater rate would have been sustained, because withdrawing more never
    leaves more.  For equity that is never negative over at least a year. *)
Theorem WithdrawalRates_are_greatest stats window (df : DataFrame xq) es :
  EquitySeries stats window = Some df → equity_of df = Fin <$> es →
  (2 ≤ length es)%nat → (2 ≤ length (df_times df))%nat → flt (span_days (df_times df)) (of_Z 365) = false →
  Forall (λ e, 0 <= e) es →
  greatest_rate safeWithdrawalRate_Compute false any_balance stats window es (df_times df) ∧
  greatest_rate dynamicWithdrawalRate_Compute true any_balance stats window es (df_times df) ∧
  greatest_rate perpetualWithdrawalRate_Compute false keeps_pace stats window es (df_times df).
Proof. intros. split_and!; apply withdrawal_rate_greatest; auto using any_balance_up, keeps_pace_up. Qed.
End Withdrawals.

(** ** Expanding standard deviation *)
Section Deviation.
Local Open Scope Qc_scope.
Context {tz : TZDB} {srt : GoSort} `{Gonum xq, GoStat xq, NumSqrt xq}.
Implicit Types (xs : list Qc) (col : list xq) (times : list Time).

Definition count_of xs : Qc := qc_of_Z (Z.of_nat (length xs)).
Definition sample_mean xs : Qc := qsum xs / count_of xs.
Definition squared_deviations xs : Qc := qsum ((λ x, (x - sample_mean xs) * (x - sample_mean xs)) <$> xs).

(** [stat.StdDev] is the square root of the unbiased sample variance. *)
Hypothesis StdDev_sample : ∀ xs, (2 ≤ length xs)%nat →
  stat_StdDev (Fin <$> xs) = fsqrt (Fin (squared_deviations xs / (count_of xs - 1))).

Lemma count_of_nil : count_of [] = 0.
Proof. by apply Qc_is_canon. Qed.
Lemma count_of_snoc xs x : count_of (xs ++ [x]) = count_of xs + 1.
Proof.
  unfold count_of. rewrite length_app. apply Qc_is_canon. rewrite this_add, !this_of_Z, this_1.
  by rewrite Nat2Z.inj_add, QArith_base.inject_Z_plus.
Qed.
Lemma count_of_pos xs : xs ≠ [] → 0 < count_of xs.
Proof.
  intros Hne. apply Qclt_le_trans with (y := qc_of_Z 1); [done|]. apply qc_of_Z_le. destruct xs; [done|cbn; lia].
Qed.
Lemma count_of_ne xs : xs ≠ [] → count_of xs ≠ 0.
Proof. intros Hne. by apply qc_pos_ne, count_of_pos. Qed.

Lemma deviations_expand (m : Qc) xs :
  qsum ((λ x, (x - m) * (x - m)) <$> xs)
  = qsum ((λ x, x * x) <$> xs) - (1 + 1) * m * qsum xs + count_of xs * (m * m).
Proof.
  induction xs as [|x xs IH] using rev_ind; [rewrite count_of_nil; cbn; ring|].
  rewrite !fmap_app, !qsum_app, count_of_snoc, IH. cbn. ring.
Qed.
Lemma squared_deviations_sums xs :
  xs ≠ [] → squared_deviations xs = qsum ((λ x, x * x) <$> xs) - qsum xs * qsum xs / count_of xs.
Proof.
  intros Hne. unfold squared_deviations. rewrite deviations_expand. unfold sample_mean. field. by apply count_of_ne.
Qed.

(** Welford's state after the values [xs]. *)
Definition welford_of xs (w : Welford xq) : Prop :=
  wf_count w = length xs ∧ wf_mean w = Fin (sample_mean xs) ∧ wf_m2 w = Fin (squared_deviations xs).

Lemma welford_step_exact xs x w : welford_of xs w → welford_of (xs ++ [x]) (welford_step w (Fin x)).
Proof.
  intros (Hc & Hm & Hs). destruct w as [c m s]. cbn in Hc, Hm, Hs. subst. unfold welford_step.
  cbn [wf_count wf_mean wf_m2].
  assert (Hlen : qc_of_Z (Z.of_nat (S (length xs))) = count_of (xs ++ [x])) by (unfold count_of; rewrite length_app; do 2 f_equal; cbn; lia).
  assert (Hne : count_of (xs ++ [x]) ≠ 0) by (apply count_of_ne; by destruct xs).
  assert (Hmean : fadd (Fin (sample_mean xs)) (fdiv (fsub (Fin x) (Fin (sample_mean xs))) (of_Z (Z.of_nat (S (length xs)))))
                  = Fin (sample_mean (xs ++ [x]))).
  { cbn [of_Z Num_exact]. rewrite Hlen. change (fsub (Fin x) (Fin ?m)) with (Fin (x - m)). rewrite fdiv_Fin by done.
    cbn [fadd Num_exact xadd]. f_equal. unfold sample_mean. rewrite qsum_app. cbn [qsum]. rewrite count_of_snoc in Hne |- *.
    destruct xs as [|y xs]; [rewrite count_of_nil in *; cbn [qsum]; replace (0 / 0) with 0 by (by apply Qc_is_canon); by field|].
    field. split; [done|]. by apply count_of_ne. }
  split; [rewrite length_app; cbn; lia|]. split; [exact Hmean|]. rewrite Hmean.
  change (fsub (Fin x) (Fin ?m)) with (Fin (x - m)). cbn [wf_m2 fadd fmul Num_exact xadd xmul]. f_equal.
  rewrite (squared_deviations_sums (xs ++ [x])) by by destruct xs. rewrite fmap_app, !qsum_app. cbn [fmap list_fmap qsum].
  unfold sample_mean. rewrite qsum_app. cbn [qsum]. rewrite count_of_snoc in Hne |- *.
  destruct xs as [|y xs]; [unfold squared_deviations; rewrite count_of_nil in *; cbn [qsum fmap list_fmap]; replace (0 / 0) with 0 by (by apply Qc_is_canon); by field|].
  rewrite squared_deviations_sums by done. field. split; [done|]. by apply count_of_ne.
Qed.

(** The point of one row by the definition: the standard deviation of all the
    returns up to the row, annualized with the axis up to the row. *)
Definition expanding_point col times (i : nat) : option (Time * xq) :=
  match col !! i, times !! i with
  | Some ret, Some t =>
      let returns := removeNaN (take (S i) col) in
      if is_nan ret || (length returns <? 2)%nat then None
      else Some (t, fmul (stat_StdDev returns) (fsqrt (annualizationFactor (take (S i) times))))
  | _, _ => None
  end.

(** A return that is a number or NaN. *)
Definition plain_return (x : xq) : Prop := x = XNaN ∨ ∃ a, x = Fin a.

Lemma take_middle {A} (l k : list A) x : take (S (length l)) (l ++ x :: k) = l ++ [x].
Proof. induction l as [|y l IH]; [by destruct k|]. cbn. f_equal. exact IH. Qed.
Lemma expanding_point_middle (pre rest : list xq) (seen ts : list Time) x t :
  length pre = length seen →
  expanding_point (pre ++ x :: rest) (seen ++ t :: ts) (length pre)
  = if is_nan x || (length (removeNaN (pre ++ [x])) <? 2)%nat then None
    else Some (t, fmul (stat_StdDev (removeNaN (pre ++ [x]))) (fsqrt (annualizationFactor (seen ++ [t])))).
Proof.
  intros Hlen. unfold expanding_point. rewrite list_lookup_middle by done. rewrite take_middle.
  rewrite Hlen, list_lookup_middle by done. by rewrite take_middle.
Qed.
Lemma std_series_points (pre rest : list xq) (seen ts : list Time) xs w :
  length pre = length seen → length rest = length ts → Forall plain_return rest →
  removeNaN pre = Fin <$> xs → welford_of xs w →
  std_series seen (zip rest ts) w
  = omap (expanding_point (pre ++ rest) (seen ++ ts)) (seq (length pre) (length rest)).
Proof.
  intros Hpre Hrest Hplain. revert pre seen ts xs w Hpre Hrest.
  induction Hplain as [|x rest Hx Hplain IH]; intros pre seen [|t ts] xs w Hpre Hrest Hxs Hw; try done.
  cbn [zip zip_with std_series length seq].
  assert (Hnext : ∀ xs' w', removeNaN (pre ++ [x]) = Fin <$> xs' → welford_of xs' w' →
    std_series (seen ++ [t]) (zip rest ts) w'
    = omap (expanding_point (pre ++ x :: rest) (seen ++ t :: ts)) (seq (S (length pre)) (length rest))).
  { intros xs' w' Hxs' Hw'. rewrite (IH (pre ++ [x]) (seen ++ [t]) ts xs' w'); try done.
    - rewrite <-!app_assoc, length_app. cbn. by rewrite Nat.add_1_r.
    - rewrite !length_app. cbn. lia.
    - cbn in Hrest. lia. }
  cbn [omap list_omap]. rewrite expanding_point_middle by done. destruct Hx as [->|[x' ->]]; cbn [is_nan Num_exact orb].
  - apply (Hnext xs); [|done]. unfold removeNaN. rewrite keep_app. cbn. by rewrite app_nil_r.
  - assert (Hx : removeNaN (pre ++ [Fin x']) = Fin <$> xs ++ [x']).
    { unfold removeNaN in *. rewrite keep_app, Hxs, fmap_app. done. }
    pose proof (welford_step_exact xs x' w Hw) as Hw'. rewrite (Hnext _ _ Hx Hw'), Hx.
    destruct Hw' as (-> & _ & ->). rewrite length_fmap.
    destruct (Nat.ltb_spec (length (xs ++ [x'])) 2) as [|Hlen]; [done|]. f_equal. f_equal.
    rewrite StdDev_sample by done. f_equal. f_equal.
    change (of_Z (Z.of_nat (length ?l) - 1)) with (Fin (qc_of_Z (Z.of_nat (length l) - 1))).
    replace (qc_of_Z (Z.of_nat (length (xs ++ [x'])) - 1)) with (count_of (xs ++ [x']) - 1).
    + apply fdiv_Fin. rewrite count_of_snoc. replace (count_of xs + 1 - 1) with (count_of xs) by ring.
      apply count_of_ne. intros ->. cbn in Hlen. lia.
    + unfold count_of. apply Qc_is_canon. rewrite this_sub, !this_of_Z, this_1.
      unfold Z.sub. rewrite QArith_base.inject_Z_plus. reflexivity.
Qed.

(** The expanding standard deviation is the one of each prefix.  The
    series that Welford's online algorithm produces in one pass has, in order and
    for nothing else, a point for every row whose return is a number and by which
    there are at least two of them; the point is the sample standard deviation of
    all returns up to that row, annualized with the time axis up to that row. *)
Theorem StdDev_series_is_expanding stats window (df : DataFrame xq) :
  Returns stats window = Some df → length (df_times df) = length (equity_of df) → Forall plain_return (equity_of df) →
  let points := omap (expanding_point (equity_of df) (df_times df)) (seq 0 (length (equity_of df))) in
  stdDev_ComputeSeries stats window
  = match points with [] => Ok None | _ => one_series points.*1 (df_freq df) points.*2 end.
Proof.
  intros Hdf Hlen Hplain points. unfold stdDev_ComputeSeries. rewrite Hdf, Hlen, Nat.eqb_refl. cbn [negb].
  rewrite orb_false_r. change (@of_Z xq _ 0) with (Fin 0).
  rewrite (std_series_points [] (equity_of df) [] (df_times df) [] (mkWelford 0 (Fin 0) (Fin 0)));
    [|done..|split_and!; cbn; [done|f_equal; by apply Qc_is_canon|done]].
  cbn [app length]. fold points. destruct (Nat.eqb_spec (length (equity_of df)) 0) as [Hz|].
  - unfold points. by rewrite Hz.
  - by destruct points.
Qed.
End Deviation.

(** ** Witnesses *)
Section Witnesses.
Local Existing Instances utc_db plain_gonum canonical_order stable_sort_slice.
Local Instance plain_laws : GonumLaws xq := plain_gonum_laws.
Local Instance floor_sqrt : NumSqrt xq :=
  {| fsqrt := λ x, match x with Fin a => Fin (qc_of_Z (Z.sqrt (Qfloor a))) | x => x end |}.
Local Instance whole_pow : NumPow xq :=
  {| fpow := λ b e, match b, e with Fin b, Fin e => Fin (Qcpower b (Z.to_nat (Qfloor e))) | _, _ => XNaN end |}.
(** The sample standard deviation by its definition. *)
Local Instance sample_stat : GoStat xq := {|
  stat_StdDev := λ col, let xs := (λ c, match c with Fin a => a | _ => 0%Qc end) <$> col in
    fsqrt (Fin (squared_deviations xs / (count_of xs - 1)));
  stat_Variance := λ _, Fin 0; stat_Covariance := λ _ _, Fin 0; stat_Quantile_Empirical := λ _ _, Fin 0;
|}.
Lemma sample_stat_law xs : (2 ≤ length xs)%nat →
  stat_StdDev (Fin <$> xs) = fsqrt (Fin (squared_deviations xs / (count_of xs - 1)))%Qc.
Proof. intros _. cbn [stat_StdDev sample_stat]. by rewrite <-list_fmap_compose, list_fmap_id. Qed.
Lemma whole_pow_law (n : nat) : ∃ x, (0 <= x)%Qc ∧ fpow inflation (of_Z (Z.of_nat n)) = Fin x.
Proof.
  eexists. split; [|reflexivity]. apply Qcpower_pos. vm_compute. discriminate.
Qed.

Definition deposit (d amount : Z) : Transaction xq :=
  mkTxn "dep" (day d) (mk_asset "" "") DepositTransaction (of_Z 0) (of_Z 0) (of_Z amount) false "" LotFIFO 0.

(** 100, up 10% and 50 deposited, up 5%. *)
Definition funded_account : Account xq :=
  set_perf_and_log (perf_frame [day 0; day 1; day 2] [q 100; q 160; q 168] [q 10; q 11; q 12] [q 0; q 0; q 0])
    [deposit 1 50] new_account.

Definition funded_perf : DataFrame xq :=
  perf_frame [day 0; day 1; day 2] [q 100; q 160; q 168] [q 10; q 11; q 12] [q 0; q 0; q 0].
Lemma funded_perf_like : perf_like funded_perf.
Proof.
  split. exists [day 0; day 1; day 2], [q 100; q 160; q 168], [q 10; q 11; q 12], [q 0; q 0; q 0].
  split; [done|]. split; [done|]. split; [done|]. split; [done|]. repeat constructor.
Qed.

Lemma TWRR_ignores_flows_witness :
  twrr_Compute (account_stats funded_account) None = Ok (Fin (growth_of [(qfrac 11 10, qfrac 50 1); (qfrac 21 20, 0%Qc)] - 1)%Qc).
Proof.
  apply (TWRR_ignores_flows (account_stats funded_account) None funded_perf (qc_of_Z 100)
    [(qfrac 11 10, qfrac 50 1); (qfrac 21 20, 0%Qc)] (day 0) [day 1; day 2]).
  - reflexivity.
  - eval_eq.
  - reflexivity.
  - repeat constructor.
  - done.
  - split; [by apply qc_eqb_false|]. split; [by apply qc_eqb_false|done].
  - repeat constructor; eval_eq.
Defined.

Lemma benchmark_TWRR_is_its_return_witness :
  (stats ← BenchmarkStats funded_account; twrr_Compute stats None)
  = Ok (Fin (qc_of_Z 12 / qc_of_Z 10 - 1)%Qc).
Proof.
  apply (benchmark_TWRR_is_its_return funded_account (day 0) [day 1; day 2] (qc_of_Z 100) (qc_of_Z 10)
    [qc_of_Z 160; qc_of_Z 168] [qc_of_Z 11; qc_of_Z 12] [q 0; q 0; q 0]); try done.
  - by repeat constructor.
  - repeat constructor.
Defined.

(** Up to 120, down to 90, back to 110. *)
Definition falling : list Qc := qc_of_Z <$> [100; 120; 90; 110]%Z.
Definition falling_times : list Time := day <$> [0; 150; 300; 450]%Z.
Definition falling_perf : DataFrame xq :=
  perf_frame falling_times (Fin <$> falling) (replicate 4 (q 0)) (replicate 4 (q 0)).
Definition falling_account : Account xq := set_perf_and_log falling_perf [] new_account.

Lemma MaxDrawdown_is_deepest_fall_witness :
  ∃ m, maxDrawdown_Compute (account_stats falling_account) None = Ok (Fin m) ∧
    (∀ i j x y, (i ≤ j)%nat → falling !! i = Some x → falling !! j = Some y → (m <= fall x y)%Qc) ∧
    ∃ i j x y, (i ≤ j)%nat ∧ falling !! i = Some x ∧ falling !! j = Some y ∧ m = fall x y.
Proof.
  apply (MaxDrawdown_is_deepest_fall falling_account falling_perf None falling); [reflexivity| |reflexivity|done|].
  - split. exists falling_times, (Fin <$> falling), (replicate 4 (q 0)), (replicate 4 (q 0)).
    split; [done|]. split; [done|]. split; [done|]. split; [done|]. repeat constructor.
  - repeat constructor.
Defined.

Lemma WithdrawalRates_are_greatest_witness :
  let stats := account_stats falling_account in
  greatest_rate safeWithdrawalRate_Compute false any_balance stats None falling falling_times ∧
  greatest_rate dynamicWithdrawalRate_Compute true any_balance stats None falling falling_times ∧
  greatest_rate perpetualWithdrawalRate_Compute false keeps_pace stats None falling falling_times.
Proof.
  apply (WithdrawalRates_are_greatest whole_pow_law (account_stats falling_account) None falling_perf falling);
    [reflexivity|reflexivity|cbn; lia|cbn; lia|vm_compute; reflexivity|].
  repeat constructor; vm_compute; discriminate.
Defined.

(** The returns of the falling account: NaN, then numbers. *)
Definition sample_returns : DataFrame xq := equity_frame falling_times [XNaN; q 3; q (-2); q 5].
Definition returns_only : PortfolioStats xq :=
  let s := account_stats falling_account in
  mkStats (λ _, Some sample_returns) (ExcessReturns s) (Drawdown s) (BenchmarkReturns s) (EquitySeries s)
    (TransactionsView s) (TradeDetailsView s) (PricesView s) (TaxLotsView s) (ShortLotsView s) (PerfDataView s)
    (AnnualReturns s) (DrawdownDetails s) (MonthlyReturns s) None.

Lemma StdDev_series_is_expanding_witness :
  stdDev_ComputeSeries returns_only None
  = match omap (expanding_point [XNaN; q 3; q (-2); q 5] falling_times) (seq 0 4) with
    | [] => Ok None
    | points => one_series points.*1 Daily points.*2
    end.
Proof.
  assert (Hplain : Forall plain_return [XNaN; q 3; q (-2); q 5]) by (repeat constructor; unfold plain_return; eauto).
  exact (StdDev_series_is_expanding sample_stat_law returns_only None sample_returns eq_refl eq_refl Hplain).
Defined.
End Witnesses.

(** ** Flows and windows that are not aligned with the rows *)
Section Misaligned.
Local Existing Instances utc_db plain_gonum canonical_order stable_sort_slice.
Local Instance no_sqrt : NumSqrt xq := {| fsqrt := λ x, x |}.

Definition noon_deposit : Transaction xq :=
  mkTxn "dep" (mkTime (t_ns (day 1) - ns_per_day / 2) "UTC") (mk_asset "" "") DepositTransaction (of_Z 0) (of_Z 0)
    (of_Z 50) false "" LotFIFO 0.
Definition misdated_account : Account xq := set_perf_and_log funded_perf [noon_deposit] new_account.

(** A deposit dated between two rows of the history counts as return: the flow
    map is keyed by the exact instant, and no row has it.  The curve of
    [funded_account], whose time-weighted return is 15.5%, returns 68% when its
    deposit is recorded half a day before the row. *)
Theorem flow_between_rows_is_return :
  twrr_Compute (account_stats funded_account) None = Ok (Fin (qfrac 155 1000)) ∧
  twrr_Compute (account_stats misdated_account) None = Ok (Fin (qfrac 68 100)).
Proof.
  split.
  - assert (Hx : match twrr_Compute (account_stats funded_account) None with Ok x => x | Err _ => XNaN end = Fin (qfrac 155 1000)) by eval_eq.
    destruct (twrr_Compute _ _); cbn in Hx; congruence.
  - assert (Hx : match twrr_Compute (account_stats misdated_account) None with Ok x => x | Err _ => XNaN end = Fin (qfrac 68 100)) by eval_eq.
    destruct (twrr_Compute _ _); cbn in Hx; congruence.
Qed.

Definition rising_account : Account xq :=
  set_perf_and_log (perf_frame [day 0; day 1; day 2] [q 100; q 110; q 121] (replicate 3 (q 0)) (replicate 3 (q 0))) [] new_account.

(** The same two days give one return through a period and two through an
    absolute range: the period windows the equity and then takes the changes,
    the range takes the changes and then the window, and keeps the change into
    its first day. *)
Theorem windows_count_returns_differently :
  (removeNaN ∘ equity_of) <$> Returns (account_stats rising_account) (Some (Days 1)) = Some [Fin (qfrac 1 10)] ∧
  (removeNaN ∘ equity_of) <$> Returns (windowedStats (account_stats rising_account) (day 1) (day 2)) None
  = Some [Fin (qfrac 1 10); Fin (qfrac 1 10)].
Proof. split; eval_eq. Qed.
End Misaligned.
