(* ===== verification/ReportProps.v ===== *)
(** * ReportProps: what the reports of the studies say

    The bands of a Monte Carlo fan chart are in order and stay among the paths;
    the optimiser ranks by the mean out-of-sample score; the stress test's
    drawdown is the deepest fall. *)
From Stdlib Require Import ZArith QArith Qcanon Qround Field Lia.
From stdpp Require Import base list gmap strings pretty sorting.
From S2P Require Import Prelude Num GoTime Asset Period Frame Metrics FrameOps Resample Schedule Provider Ledger Account.
From S2P Require Import Stats ReturnMetrics GrowthMetrics MetricQuery Indicators Resampling Setup Samples Study Search StudyReports GaussianProps StatsProps MetricProps.
Local Open Scope Qc_scope.

(** ** Percentiles *)
Section Percentiles.
Implicit Types (l : list Qc) (p f : Qc) (z : nat).

Definition ascending l : Prop := StronglySorted (λ x y, x <= y) l.
Lemma ascending_entry l i j : ascending l → (i <= j)%nat → (j < length l)%nat → qentry l i <= qentry l j.
Proof.
  intros Hs. revert i j. induction Hs as [|x l Hs IH Hx]; intros i j Hij Hj; cbn in Hj; [lia|].
  destruct i as [|i], j as [|j]; [qclra| |lia|].
  - change (qentry (x :: l) (S j)) with (qentry l j). change (qentry (x :: l) 0) with x.
    rewrite Forall_forall in Hx. apply Hx. destruct (lookup_lt_is_Some_2 l j) as [y Hy]; [lia|].
    unfold qentry. rewrite Hy. by eapply list_elem_of_lookup_2.
  - change (qentry (x :: l) (S j)) with (qentry l j). change (qentry (x :: l) (S i)) with (qentry l i). apply IH; lia.
Qed.

(** The value at rank [z + f]. *)
Definition at_rank l z f : Qc :=
  if (z =? 0)%nat then qentry l 0
  else if (length l <=? z)%nat then qentry l (length l - 1)
  else qentry l (z - 1) + f * (qentry l z - qentry l (z - 1)).

Lemma at_rank_between l z f : ascending l → l ≠ [] → 0 <= f → f <= 1 →
  qentry l (Nat.min (z - 1) (length l - 1)) <= at_rank l z f ∧ at_rank l z f <= qentry l (Nat.min z (length l - 1)).
Proof.
  intros Hs Hne Hf0 Hf1. assert (Hl : (0 < length l)%nat) by (destruct l; [done|cbn; lia]). unfold at_rank.
  destruct (Nat.eqb_spec z 0) as [->|Hz]; [cbn [Nat.sub Nat.min]; qclra|].
  destruct (Nat.leb_spec (length l) z) as [Hge|Hlt].
  - rewrite !Nat.min_r by lia. split; qclra.
  - rewrite !Nat.min_l by lia. pose proof (ascending_entry l (z - 1) z Hs ltac:(lia) Hlt) as Hstep.
    assert (Hm : 0 <= f * (qentry l z - qentry l (z - 1))) by (apply qc_mul_nonneg; qclra).
    assert (Hm1 : 0 <= (1 - f) * (qentry l z - qentry l (z - 1))) by (apply qc_mul_nonneg; qclra).
    replace ((1 - f) * (qentry l z - qentry l (z - 1))) with (qentry l z - qentry l (z - 1) - f * (qentry l z - qentry l (z - 1))) in Hm1 by ring.
    split; qclra.
Qed.
Lemma at_rank_mono l z1 f1 z2 f2 : ascending l → l ≠ [] → 0 <= f1 → f1 <= 1 → 0 <= f2 → f2 <= 1 →
  ((z1 < z2)%nat ∨ z1 = z2 ∧ f1 <= f2) → at_rank l z1 f1 <= at_rank l z2 f2.
Proof.
  intros Hs Hne H0 H1 H2 H3. assert (Hl : (0 < length l)%nat) by (destruct l; [done|cbn; lia]). intros [Hlt|[-> Hf]].
  - destruct (at_rank_between l z1 f1) as [_ Hu]; [done..|]. destruct (at_rank_between l z2 f2) as [Hd _]; [done..|].
    pose proof (ascending_entry l (Nat.min z1 (length l - 1)) (Nat.min (z2 - 1) (length l - 1)) Hs ltac:(lia) ltac:(lia)). qclra.
  - unfold at_rank. destruct (z2 =? 0)%nat; [qclra|]. destruct (Nat.leb_spec (length l) z2); [qclra|].
    pose proof (ascending_entry l (z2 - 1) z2 Hs ltac:(lia) ltac:(lia)) as Hstep.
    assert (Hm : 0 <= (f2 - f1) * (qentry l z2 - qentry l (z2 - 1))) by (apply qc_mul_nonneg; qclra).
    replace ((f2 - f1) * (qentry l z2 - qentry l (z2 - 1))) with (f2 * (qentry l z2 - qentry l (z2 - 1)) - f1 * (qentry l z2 - qentry l (z2 - 1))) in Hm by ring.
    qclra.
Qed.

Lemma qc_of_Z_lt (a b : Z) : (a < b)%Z → (qc_of_Z a < qc_of_Z b).
Proof. intros Hab. unfold Qclt. rewrite !this_of_Z. by rewrite <-Zlt_Qlt. Qed.
Lemma whole_upto_exact n (z : Z) : (0 <= z)%Z → whole_upto n (Fin (qc_of_Z z)) = Nat.min n (Z.to_nat z).
Proof.
  intros Hz. unfold whole_upto. induction n as [|n IH]; [done|]. rewrite seq_S, keep_app, length_app, IH, keep_cons.
  change (keep _ []) with (@nil nat). cbn [Nat.add].
  change (fle (of_Z (Z.of_nat (S n))) (Fin (qc_of_Z z))) with (qc_leb (qc_of_Z (Z.of_nat (S n))) (qc_of_Z z)).
  destruct (qc_leb _ _) eqn:E; qc_bools; cbn [length].
  - destruct (Z.le_gt_cases (Z.of_nat (S n)) z) as [Hle|Hgt]; [lia|]. apply qc_of_Z_lt in Hgt. exfalso. qclra.
  - destruct (Z.le_gt_cases (Z.of_nat (S n)) z) as [Hle|Hgt]; [|lia]. apply qc_of_Z_le in Hle. exfalso. qclra.
Qed.

Definition rank_of l p : Qc := p * qc_of_Z (Z.of_nat (length l + 1)).
Definition fraction_of l p : Qc := rank_of l p - qc_of_Z (Qfloor (rank_of l p)).
Lemma fraction_bounds l p : 0 <= fraction_of l p ∧ fraction_of l p <= 1.
Proof.
  unfold fraction_of. set (r := rank_of l p).
  assert (Hlo : qc_of_Z (Qfloor r) <= r) by (unfold Qcle; rewrite this_of_Z; apply Qfloor_le).
  assert (Hhi : r < qc_of_Z (Qfloor r + 1)) by (unfold Qclt; rewrite this_of_Z; apply Qlt_floor).
  assert (Hs : qc_of_Z (Qfloor r + 1) = qc_of_Z (Qfloor r) + 1).
  { apply Qc_is_canon. rewrite this_add, !this_of_Z, inject_Z_plus. reflexivity. }
  rewrite Hs in Hhi. split; qclra.
Qed.
Lemma rank_nonneg l p : 0 <= p → 0 <= rank_of l p.
Proof. intros Hp. apply qc_mul_nonneg; [done|]. rewrite <-qc_of_Z_0. apply qc_of_Z_le. lia. Qed.
Lemma floor_nonneg (r : Qc) : 0 <= r → (0 <= Qfloor r)%Z.
Proof. intros Hr. change 0%Z with (Qfloor 0). by apply Qfloor_resp_le. Qed.

(** A percentile of two values or more, as a rank. *)
Definition percentile_of l p : Qc :=
  if (length l =? 1)%nat then qentry l 0
  else if qc_leb p 0 then qentry l 0
  else if qc_leb 1 p then qentry l (length l - 1)
  else at_rank l (Z.to_nat (Qfloor (rank_of l p))) (fraction_of l p).
Lemma percentile_exact l p : l ≠ [] → percentile (fin l) (Fin p) = Fin (percentile_of l p).
Proof.
  intros Hne. unfold percentile, percentile_of. rewrite length_fin, !entry_fin. destruct l as [|x l']; [done|]. set (l := x :: l').
  change (length l =? 0)%nat with false. destruct (length l =? 1)%nat; [done|].
  change (fle (Fin p) (of_Z 0)) with (qc_leb p 0). destruct (qc_leb p 0) eqn:Hp; [done|].
  change (fle (of_Z 1) (Fin p)) with (qc_leb 1 p). destruct (qc_leb 1 p); [done|]. qc_bools.
  change (fmul (Fin p) (of_Z (Z.of_nat (length l + 1)))) with (Fin (rank_of l p)).
  change (ffloor (Fin (rank_of l p))) with (Fin (qc_of_Z (Qfloor (rank_of l p)))).
  change (fsub (Fin (rank_of l p)) (Fin (qc_of_Z (Qfloor (rank_of l p))))) with (Fin (fraction_of l p)).
  assert (Hz : (0 <= Qfloor (rank_of l p))%Z) by (apply floor_nonneg, rank_nonneg; qclra).
  rewrite whole_upto_exact by done. unfold at_rank. set (z := Z.to_nat _).
  assert (Hl : (0 < length l)%nat) by (cbn; lia).
  destruct (Nat.eqb_spec z 0) as [->|Hz0]; [by rewrite Nat.min_0_r|].
  destruct (Nat.leb_spec (length l) z) as [Hge|Hlt].
  - rewrite Nat.min_l by done. destruct (Nat.eqb_spec (length l) 0); [lia|]. by rewrite Nat.leb_refl.
  - rewrite Nat.min_r by lia. destruct (Nat.eqb_spec z 0); [done|]. destruct (Nat.leb_spec (length l) z); [lia|].
    done.
Qed.

Lemma percentile_bounds l p : ascending l → l ≠ [] → qentry l 0 <= percentile_of l p ∧ percentile_of l p <= qentry l (length l - 1).
Proof.
  intros Hs Hne. assert (Hl : (0 < length l)%nat) by (destruct l; [done|cbn; lia]).
  pose proof (ascending_entry l 0 (length l - 1) Hs ltac:(lia) ltac:(lia)) as Hends. unfold percentile_of.
  destruct (_ =? 1)%nat; [split; [qclra|done]|]. destruct (qc_leb p 0); [split; [qclra|done]|]. destruct (qc_leb 1 p); [split; [done|qclra]|].
  destruct (fraction_bounds l p) as [Hf0 Hf1]. destruct (at_rank_between l (Z.to_nat (Qfloor (rank_of l p))) (fraction_of l p)) as [Hlo Hhi]; [done..|].
  set (z := Z.to_nat _) in *.
  pose proof (ascending_entry l 0 (Nat.min (z - 1) (length l - 1)) Hs ltac:(lia) ltac:(lia)).
  pose proof (ascending_entry l (Nat.min z (length l - 1)) (length l - 1) Hs ltac:(lia) ltac:(lia)). split; qclra.
Qed.
Lemma percentile_mono l p1 p2 : ascending l → l ≠ [] → p1 <= p2 → percentile_of l p1 <= percentile_of l p2.
Proof.
  intros Hs Hne Hp. destruct (percentile_bounds l p1 Hs Hne) as [Hlo1 Hhi1]. destruct (percentile_bounds l p2 Hs Hne) as [Hlo2 Hhi2].
  unfold percentile_of in *. destruct (_ =? 1)%nat; [qclra|].
  destruct (qc_leb p1 0) eqn:E1; [done|]. destruct (qc_leb p2 0) eqn:E2; qc_bools; [exfalso; qclra|].
  destruct (qc_leb 1 p2) eqn:E3; [done|]. destruct (qc_leb 1 p1) eqn:E4; qc_bools; [exfalso; qclra|].
  destruct (fraction_bounds l p1), (fraction_bounds l p2). apply at_rank_mono; [done..|].
  assert (Hr : rank_of l p1 <= rank_of l p2).
  { unfold rank_of. assert (Hm : 0 <= (p2 - p1) * qc_of_Z (Z.of_nat (length l + 1))).
    { apply qc_mul_nonneg; [qclra|]. rewrite <-qc_of_Z_0. apply qc_of_Z_le. lia. }
    replace ((p2 - p1) * qc_of_Z (Z.of_nat (length l + 1))) with (p2 * qc_of_Z (Z.of_nat (length l + 1)) - p1 * qc_of_Z (Z.of_nat (length l + 1))) in Hm by ring. qclra. }
  assert (Hz : (0 <= Qfloor (rank_of l p1) <= Qfloor (rank_of l p2))%Z).
  { split; [apply floor_nonneg, rank_nonneg; qclra|by apply Qfloor_resp_le]. }
  destruct (Z.eq_dec (Qfloor (rank_of l p1)) (Qfloor (rank_of l p2))) as [Heq|Hne'].
  - right. split; [by rewrite Heq|]. unfold fraction_of. rewrite Heq. qclra.
  - left. lia.
Qed.
End Percentiles.

(** ** Sorting rationals *)
Section Sorting.
Context {srt : GoSort}.
Lemma sort_Float64s_exact (l : list Qc) : ∃ s, sort_Float64s (fin l) = fin s ∧ s ≡ₚ l ∧ ascending s.
Proof.
  unfold sort_Float64s. set (out := sort_slice float_less (fin l)).
  assert (Hp : out ≡ₚ fin l) by apply sort_slice_perm.
  destruct (Permutation_map_inv _ _ Hp) as (s & Es & Hls). exists s. split; [exact Es|]. split; [by symmetry|].
  assert (Hsorted : StronglySorted (in_order float_less) (fin s)).
  { change (StronglySorted (in_order float_less) (map Fin s)). rewrite <-Es.
    apply (sort_slice_sorted_on float_less (λ x, ∃ q, x = Fin q)).
    - intros x y [a ->] [b ->]. unfold float_less. cbn. rewrite !orb_false_r. intros ?. qc_bools. apply qc_ltb_false. qclra.
    - intros x y z [a ->] [b ->] [c ->]. unfold float_less. cbn. rewrite !orb_false_r. intros ??. qc_bools. apply qc_ltb_false. qclra.
    - apply Forall_forall. intros x (q & -> & _)%list_elem_of_fmap. by exists q. }
  clear -Hsorted. induction s as [|x s IH]; [constructor|]. cbn in Hsorted. apply StronglySorted_inv in Hsorted as [Hs Hx].
  constructor; [by apply IH|]. apply Forall_forall. intros y Hy. rewrite Forall_forall in Hx. specialize (Hx (Fin y)).
  unfold in_order, float_less in Hx. cbn in Hx. rewrite orb_false_r in Hx. apply qc_ltb_false, Hx. by apply list_elem_of_fmap_2.
Qed.
End Sorting.

(** ** The fan chart *)
Section Fan.
Context {srt : GoSort} `{NumSqrt xq, GoFixed xq} {go : GoMapOrder} {tz : TZDB}.
Implicit Types (curves : list (list Qc)) (times : list Time).

Definition step_values curves (i : nat) : list Qc := omap (λ c, c !! i) curves.
Lemma values_at_exact curves i : values_at (fin <$> curves) i = sort_Float64s (fin (step_values curves i)).
Proof.
  unfold values_at. f_equal. induction curves as [|c curves IH]; [done|]. cbn. unfold fin at 1. rewrite list_lookup_fmap.
  destruct (c !! i); cbn; [by rewrite IH|done].
Qed.
Lemma band_exact curves steps i (n d : Z) : (i < steps)%nat → step_values curves i ≠ [] → (d ≠ 0)%Z →
  ∀ s, sort_Float64s (fin (step_values curves i)) = fin s → s ≠ [] →
  band (fin <$> curves) steps (lit n d) !! i = Some (Fin (percentile_of s (qc_of_Z n / qc_of_Z d))).
Proof.
  intros Hi Hne Hd s Es Hs. unfold band. rewrite list_lookup_fmap, lookup_seq_lt by done. cbn [fmap option_fmap option_map Nat.add].
  rewrite values_at_exact, Es. unfold lit.
  change (fdiv (of_Z n) (of_Z d)) with (fdiv (Fin (qc_of_Z n)) (Fin (qc_of_Z d))). rewrite fdiv_Fin; [by rewrite percentile_exact|].
  intros E. apply qc_eq_this in E. rewrite this_of_Z, this_0 in E. unfold Qeq in E. cbn in E. lia.
Qed.

(** C34. The bands of a Monte Carlo fan chart are in order.  At every step some
    path reaches, in exact arithmetic, the 5th, 25th, 50th, 75th and 95th
    percentile of the paths' equities exist and increase, and they lie between
    any bounds the equities of that step lie between. *)
Theorem fan_chart_bands_ordered times curves historical i lo hi :
  (i < length times)%nat → step_values curves i ≠ [] → (∀ v, v ∈ step_values curves i → lo <= v ∧ v <= hi) →
  let fc := computeFanChart times (fin <$> curves) historical in
  ∃ p5 p25 p50 p75 p95,
    (fc_P5 fc !! i = Some (Fin p5) ∧ fc_P25 fc !! i = Some (Fin p25) ∧ fc_P50 fc !! i = Some (Fin p50) ∧
     fc_P75 fc !! i = Some (Fin p75) ∧ fc_P95 fc !! i = Some (Fin p95)) ∧
    lo <= p5 ∧ p5 <= p25 ∧ p25 <= p50 ∧ p50 <= p75 ∧ p75 <= p95 ∧ p95 <= hi.
Proof.
  intros Hi Hne Hb fc. destruct (sort_Float64s_exact (step_values curves i)) as (s & Es & Hp & Hs).
  assert (Hsne : s ≠ []) by (intros ->; apply Hne; symmetry; by apply Permutation_nil_l).
  assert (Hin : ∀ k, (k < length s)%nat → lo <= qentry s k ∧ qentry s k <= hi).
  { intros k [v Hv]%lookup_lt_is_Some_2. unfold qentry. rewrite Hv. apply Hb. rewrite <-Hp. by eapply list_elem_of_lookup_2. }
  assert (Hl : (0 < length s)%nat) by (destruct s; [done|cbn; lia]).
  set (p n := percentile_of s (qc_of_Z n / qc_of_Z 100)). exists (p 5%Z), (p 25%Z), (p 50%Z), (p 75%Z), (p 95%Z).
  split; [split_and!; by apply band_exact|].
  assert (Hm : ∀ a b, qc_of_Z a / qc_of_Z 100 <= qc_of_Z b / qc_of_Z 100 → p a <= p b) by (intros; by apply percentile_mono).
  pose proof (percentile_bounds s (qc_of_Z 5 / qc_of_Z 100) Hs Hsne) as [H5 _].
  pose proof (percentile_bounds s (qc_of_Z 95 / qc_of_Z 100) Hs Hsne) as [_ H95].
  destruct (Hin 0%nat ltac:(lia)) as [Hlo _]. destruct (Hin (length s - 1)%nat ltac:(lia)) as [_ Hhi].
  split_and!; [unfold p; qclra|apply Hm; by vm_compute..|unfold p; qclra].
Qed.
End Fan.

(** ** The optimiser's ranking *)
Section Ranking.
Context {F : Type} `{Num F} `{!NumOrd F} `{NumSqrt F} `{GoInf F} `{GoFixed F} {tz : TZDB} {go : GoMapOrder} {srt : GoSort}.
Context (score : ReportablePortfolio F → DateRange → F) (higherIsBetter : bool).
Implicit Types (combos : list (comboResult (F := F))) (cr : comboResult (F := F)) (results : list (RunResult F (ReportablePortfolio F))).

Definition strict_better (x y : F) : bool := if higherIsBetter then flt y x else flt x y.
(** A score is no worse than another: a number before NaN, and of two numbers
    the other is not strictly better. *)
Definition no_worse (x y : F) : Prop := is_nan y = false → is_nan x = false ∧ strict_better y x = false.

Lemma combo_less_asym l r : combo_less higherIsBetter l r = true → combo_less higherIsBetter r l = false.
Proof.
  unfold combo_less, nan_last. destruct (is_nan (oos_mean l)) eqn:El; [done|]. destruct (is_nan (oos_mean r)) eqn:Er; [done|].
  destruct higherIsBetter; apply flt_asym.
Qed.
Lemma combo_less_neg_trans x y z :
  combo_less higherIsBetter y x = false → combo_less higherIsBetter z y = false → combo_less higherIsBetter z x = false.
Proof.
  unfold combo_less, nan_last. destruct (is_nan (oos_mean z)) eqn:Ez; [done|]. destruct (is_nan (oos_mean y)) eqn:Ey; [done|].
  destruct (is_nan (oos_mean x)) eqn:Ex; [done|]. destruct higherIsBetter; intros Hxy Hyz.
  - by apply (flt_neg_trans (oos_mean x) (oos_mean y) (oos_mean z)).
  - by apply (flt_neg_trans (oos_mean z) (oos_mean y) (oos_mean x)).
Qed.
Lemma in_order_no_worse l r : in_order (combo_less higherIsBetter) l r → no_worse (oos_mean l) (oos_mean r).
Proof.
  unfold in_order, combo_less, nan_last, no_worse, strict_better. intros Hlr Hr. rewrite Hr in Hlr.
  by destruct (is_nan (oos_mean l)).
Qed.

Definition tag (r : RunResult F (ReportablePortfolio F)) : string := lookup_d ""%string (rc_Metadata (rr_Config r)) "_combination_id"%string.
Definition keyed (m : gmap string (comboResult (F := F))) : Prop := ∀ id cr, m !! id = Some cr → cb_comboID cr = id.
Lemma group_run_keyed splits m r : keyed m →
  keyed (group_run score splits m r) ∧
  ∀ id, is_Some (group_run score splits m r !! id) ↔ is_Some (m !! id) ∨ (id = tag r ∧ tag r ≠ ""%string).
Proof.
  intros Hk. unfold group_run. fold (tag r). destruct (decide (tag r = ""%string)) as [E|E].
  { rewrite bool_decide_true by done. split; [done|]. intros id. split; [by left|intros [?|[_ ?]]; done]. }
  rewrite bool_decide_false by done. set (cr := default _ _).
  assert (Hcr : cb_comboID cr = tag r).
  { unfold cr. destruct (m !! tag r) as [c|] eqn:Em; [by apply Hk|done]. }
  assert (Hins : ∀ c m', cb_comboID c = tag r → keyed m' → (∀ id, is_Some (m' !! id) → is_Some (m !! id) ∨ id = tag r) → (∀ id, is_Some (m !! id) → is_Some (m' !! id)) →
    keyed (<[tag r := c]> m') ∧ ∀ id, is_Some ((<[tag r := c]> m') !! id) ↔ is_Some (m !! id) ∨ (id = tag r ∧ tag r ≠ ""%string)).
  { intros c m' Hc Hk' Hsub Hsup. split.
    - intros id c'. destruct (decide (id = tag r)) as [->|]; [rewrite lookup_insert_eq; by intros [= <-]|rewrite lookup_insert_ne by done; apply Hk'].
    - intros id. destruct (decide (id = tag r)) as [->|Hne]; [rewrite lookup_insert_eq; split; eauto|].
      rewrite lookup_insert_ne by done. split; [intros Hs; left; by destruct (Hsub id Hs)|intros [?|[? _]]; [by apply Hsup|done]]. }
  assert (Hone : keyed (<[tag r := cr]> m) ∧ ∀ id, is_Some ((<[tag r := cr]> m) !! id) ↔ is_Some (m !! id) ∨ (id = tag r ∧ tag r ≠ ""%string)).
  { apply Hins; [done|done|by left|done]. }
  destruct (Sscanf_d _) as [i|]; [|exact Hone]. destruct (i <? 0)%Z; [exact Hone|].
  destruct (splits !! Z.to_nat i) as [sp|]; [|exact Hone]. destruct (rr_Err r); [exact Hone|]. destruct (rr_Portfolio r) as [p|]; [|exact Hone].
  destruct Hone as [Hk1 Hd1]. apply Hins; [|done|intros id Hs%Hd1; naive_solver|intros id Hs; apply Hd1; by left].
  unfold score_split. destruct (cb_equity cr). exact Hcr.
Qed.

Lemma group_runs splits results m : keyed m →
  keyed (fold_left (group_run score splits) results m) ∧
  ∀ id, is_Some (fold_left (group_run score splits) results m !! id) ↔
    is_Some (m !! id) ∨ (id ≠ ""%string ∧ ∃ r, r ∈ results ∧ tag r = id).
Proof.
  revert m. induction results as [|r results IH]; intros m Hk; cbn [fold_left].
  { split; [done|]. intros id. split; [by left|intros [?|(_ & r & Hr & _)]; [done|by apply not_elem_of_nil in Hr]]. }
  destruct (group_run_keyed splits m r Hk) as [Hk1 Hd1]. destruct (IH _ Hk1) as [Hk2 Hd2]. split; [done|].
  intros id. rewrite Hd2, Hd1. split.
  - intros [[?|[-> ?]]|(? & r' & ? & ?)]; [by left|right; split; [done|exists r; set_solver]|right; split; [done|exists r'; set_solver]].
  - intros [?|(Hne & r' & [-> |Hr']%elem_of_cons & Ht)]; [by left; left|left; right; by rewrite Ht|right; eauto].
Qed.

(** C33. The optimiser ranks every combination once, best first.  Its ranking
    has exactly one entry for each non-empty combination identifier the runs
    carry, and an entry's mean out-of-sample score is never worse than that of a
    later one: a score that is a number comes before one that is not, and between
    numbers the objective's direction decides. *)
Theorem optimizer_ranks_once splits results :
  let ranked := rankCombos higherIsBetter (groupByCombination score splits results) in
  NoDup (cb_comboID <$> ranked) ∧
  (∀ id, id ∈ cb_comboID <$> ranked ↔ id ≠ ""%string ∧ ∃ r, r ∈ results ∧ tag r = id) ∧
  StronglySorted (λ l r, no_worse (oos_mean l) (oos_mean r)) ranked.
Proof.
  intros ranked. assert (Hp : ranked ≡ₚ groupByCombination score splits results) by apply sort_slice_perm.
  assert (Hk0 : keyed ∅) by (intros id cr; by rewrite lookup_empty).
  destruct (group_runs splits results ∅ Hk0) as [Hk Hd]. unfold groupByCombination in Hp. set (m := fold_left _ _ _) in *.
  assert (Hids : cb_comboID <$> (range m).*2 = (range m).*1).
  { rewrite <-list_fmap_compose. apply list_eq. intros i. rewrite !list_lookup_fmap.
    destruct (range m !! i) as [[k cr]|] eqn:Ei; [|done]. cbn. f_equal. apply Hk, elem_of_range. by eapply list_elem_of_lookup_2. }
  split; [|split].
  - rewrite Hp, Hids. apply NoDup_range_fst.
  - intros id. rewrite Hp, Hids. trans (is_Some (m !! id)).
    + split.
      * intros ([k cr] & -> & Hin)%list_elem_of_fmap. apply elem_of_range in Hin. by exists cr.
      * intros [cr Hc]. apply elem_of_range in Hc. by apply (list_elem_of_fmap_2 fst) in Hc.
    + rewrite Hd. rewrite lookup_empty. split; [intros [[? ?]|?]; [done|done]|by right].
  - eapply StronglySorted_mono; [apply in_order_no_worse|]. apply sort_slice_sorted; [apply combo_less_asym|apply combo_less_neg_trans].
Qed.
End Ranking.

(** ** The drawdown of a stress window *)
Section Stress.
Implicit Types (es : list Qc).

Record deepest es (peak dd : Qc) : Prop := mkDeepest {
  de_peak : ∀ x, x ∈ es → x <= peak;
  de_pos : 0 < peak;
  de_nonpos : dd <= 0;
  de_least : ∀ i j x y, (i <= j)%nat → es !! i = Some x → es !! j = Some y → dd <= fall x y;
  de_peak_in : peak ∈ es;
  de_attained : dd = 0 ∨ ∃ i j x y, (i <= j)%nat ∧ es !! i = Some x ∧ es !! j = Some y ∧ dd = fall x y;
}.
Lemma drawdown_step_exact es peak dd v : deepest es peak dd → Forall (λ e, 0 < e) es → 0 < v →
  ∃ peak' dd', drawdown_step (Fin peak, Fin dd) (Fin v) = (Fin peak', Fin dd') ∧ deepest (es ++ [v]) peak' dd'.
Proof.
  intros [Hp Hpos Hn Hl Hin Ha] Hes Hv. set (peak' := if qc_ltb peak v then v else peak).
  assert (Hle : peak <= peak' ∧ v <= peak') by (unfold peak'; destruct (qc_ltb peak v) eqn:E; qc_bools; split; qclra). destruct Hle as [Hpp Hvp].
  assert (Hpos' : 0 < peak') by qclra. assert (Hne : peak' ≠ 0) by by apply qc_pos_ne.
  set (dd' := if qc_ltb (fall peak' v) dd then fall peak' v else dd).
  assert (Hdd : dd' <= dd ∧ dd' <= fall peak' v) by (unfold dd'; destruct (qc_ltb (fall peak' v) dd) eqn:E; qc_bools; split; qclra).
  destruct Hdd as [Hd1 Hd2]. exists peak', dd'. split.
  - unfold drawdown_step. change (flt (Fin peak) (Fin v)) with (qc_ltb peak v).
    assert (Eif : (if qc_ltb peak v then Fin v else Fin peak) = Fin peak') by (unfold peak'; by destruct (qc_ltb peak v)). rewrite Eif.
    change (flt (of_Z 0) (Fin peak')) with (qc_ltb 0 peak'). rewrite (proj2 (qc_ltb_true 0 peak')) by done.
    change (fsub (Fin v) (Fin peak')) with (Fin (v - peak')). rewrite fdiv_Fin by done. fold (fall peak' v).
    change (flt (Fin (fall peak' v)) (Fin dd)) with (qc_ltb (fall peak' v) dd). unfold dd'. by destruct (qc_ltb (fall peak' v) dd).
  - assert (Hpin : peak' ∈ es ++ [v]) by (unfold peak'; destruct (qc_ltb peak v); set_solver).
    assert (Hlast : (es ++ [v]) !! length es = Some v) by (by rewrite list_lookup_middle). split.
    + intros x [Hx| ->%list_elem_of_singleton]%elem_of_app; [|done]. specialize (Hp x Hx). qclra.
    + done.
    + qclra.
    + intros i j x y Hij Hi Hj. apply lookup_snoc_Some in Hj as [[Hj Hy]|[-> <-]].
      * apply lookup_snoc_Some in Hi as [[Hi Hx]|[-> ->]]; [|lia]. specialize (Hl i j x y Hij Hx Hy). qclra.
      * assert (Hx : 0 < x ∧ x <= peak').
        { apply lookup_snoc_Some in Hi as [[Hi Hx]|[-> <-]]; [|done]. apply list_elem_of_lookup_2 in Hx.
          split; [by rewrite Forall_forall in Hes; apply Hes|]. specialize (Hp x Hx). qclra. }
        destruct Hx as [Hx0 Hxp]. pose proof (fall_deeper x peak' v Hx0 Hxp Hv). qclra.
    + done.
    + unfold dd'. destruct (qc_ltb (fall peak' v) dd); [right|destruct Ha as [->|(i & j & x & y & Hij & Hi & Hj & E)]; [by left|right]].
      * apply list_elem_of_lookup_1 in Hpin as [i Hi]. exists i, (length es), peak', v. split; [|done].
        apply lookup_lt_Some in Hi. rewrite length_app in Hi. cbn in Hi. lia.
      * exists i, j, x, y. split; [done|]. apply lookup_app_l_Some with (l2 := [v]) in Hi, Hj. done.
Qed.

(** The drawdown of a window of positive equities is zero or the fall between
    two of its days, and no fall is deeper. *)
Lemma stress_drawdown_deepest es : es ≠ [] → Forall (λ e, 0 < e) es →
  ∃ peak dd, computeMaxDrawdown (fin es) = Fin dd ∧ deepest es peak dd.
Proof.
  destruct es as [|e es]; [done|]. intros _ Hpos. apply Forall_cons in Hpos as [He Hes].
  assert (Hgen : ∀ rest pre peak dd, deepest pre peak dd → Forall (λ e, 0 < e) pre → Forall (λ e, 0 < e) rest →
    ∃ peak' dd', fold_left drawdown_step (fin rest) (Fin peak, Fin dd) = (Fin peak', Fin dd') ∧ deepest (pre ++ rest) peak' dd').
  { induction rest as [|v rest IH]; intros pre peak dd Hd Hpre Hrest; cbn [fin fmap list_fmap fold_left].
    - exists peak, dd. by rewrite app_nil_r.
    - apply Forall_cons in Hrest as [Hv Hrest]. destruct (drawdown_step_exact pre peak dd v Hd Hpre Hv) as (p' & d' & -> & Hd').
      destruct (IH (pre ++ [v]) p' d' Hd') as (p2 & d2 & E & Hd2); [by apply Forall_app; split; [|constructor]|done|].
      exists p2, d2. split; [exact E|]. by rewrite <-app_assoc in Hd2. }
  assert (H0 : deepest [e] e 0).
  { split; [intros x ->%list_elem_of_singleton; qclra|done|qclra| |by left|by left].
    intros i j x y _ Hi Hj. apply list_lookup_singleton_Some in Hi as [_ <-]. apply list_lookup_singleton_Some in Hj as [_ <-].
    unfold fall. assert (E : (e - e) / e = 0) by (field; by apply qc_pos_ne). rewrite E. qclra. }
  destruct (Hgen es [e] e 0 H0) as (peak & dd & E & Hd); [by constructor|done|]. exists peak, dd. split; [|done].
  unfold computeMaxDrawdown. change (fin (e :: es)) with (Fin e :: fin es). cbn [fold_left].
  assert (Es : drawdown_step (Fin e, of_Z 0) (Fin e) = (Fin e, Fin 0)).
  { unfold drawdown_step. change (flt (Fin e) (Fin e)) with (qc_ltb e e). rewrite (proj2 (qc_ltb_false e e)) by qclra.
    change (flt (of_Z 0) (Fin e)) with (qc_ltb 0 e). rewrite (proj2 (qc_ltb_true 0 e)) by done.
    change (fsub (Fin e) (Fin e)) with (Fin (e - e)). rewrite fdiv_Fin by by apply qc_pos_ne.
    change (flt (Fin ((e - e) / e)) (of_Z 0)) with (qc_ltb ((e - e) / e) 0).
    assert (Ez : (e - e) / e = 0) by (field; by apply qc_pos_ne). rewrite Ez. done. }
  rewrite Es, E. done.
Qed.
End Stress.

(** A path without a risk-free rate is summarised in part; the historical result
    without one aborts the whole analysis. *)
Theorem historical_without_risk_free_aborts {F : Type} `{Num F, NumSqrt F, GoInf F, GoFixed F} {tz : TZDB} {go : GoMapOrder} {srt : GoSort}
    (df : DataFrame F) s v threshold cfg :
  let p := mkReportable (Some df) (s, [ErrNoRiskFreeRate]) v in
  (∃ rpt, montecarlo_analyzeResults [mkResult cfg (Some p) None] None threshold = Ok rpt) ∧
  montecarlo_analyzeResults [mkResult cfg (Some p) None] (Some p) threshold =
    Err ("computing historical rank: computing historical summary: " +:+ ErrNoRiskFreeRate)%string.
Proof. intros p. split; [eexists; reflexivity|]. vm_compute. reflexivity. Qed.

(** ** Two studies, analysed *)
Section Analysed.
Local Existing Instances utc_db stable_sort_slice canonical_order.
Local Instance unit_sqrt : NumSqrt xq := {| fsqrt := λ _, of_Z 1 |}.
Local Instance blank_fixed : GoFixed xq := {| Sprintf_f := λ _ _, ""%string; Sprintf_6g := λ _, ""%string |}.

(** Three paths of two steps; the third ends after the first. *)
Definition three_paths : list (list Qc) := [qc_of_Z <$> [100; 120]; qc_of_Z <$> [100; 90]; qc_of_Z <$> [100]]%Z.
Lemma fan_chart_bands_ordered_witness :
  ∃ p5 p25 p50 p75 p95,
    (let fc := computeFanChart [zero_time; zero_time] (fin <$> three_paths) None in
     fc_P5 fc !! 1%nat = Some (Fin p5) ∧ fc_P25 fc !! 1%nat = Some (Fin p25) ∧ fc_P50 fc !! 1%nat = Some (Fin p50) ∧
     fc_P75 fc !! 1%nat = Some (Fin p75) ∧ fc_P95 fc !! 1%nat = Some (Fin p95)) ∧
    qc_of_Z 90 <= p5 ∧ p5 <= p25 ∧ p25 <= p50 ∧ p50 <= p75 ∧ p75 <= p95 ∧ p95 <= qc_of_Z 120.
Proof.
  apply (fan_chart_bands_ordered [zero_time; zero_time] three_paths None 1 (qc_of_Z 90) (qc_of_Z 120)); [cbn; lia|done|].
  intros v [-> | ->%list_elem_of_singleton]%elem_of_cons; split; by vm_compute.
Defined.

(** Two combinations over one split, the second better, one run without an
    identifier. *)
Definition tagged (id : string) (v : xq) : RunResult xq (ReportablePortfolio xq) :=
  mkResult (mkRun "" zero_time zero_time (of_Z 0) "" ∅ (<["_combination_id" := id]> {["_split_index" := "0"]}))%string
    (Some (mkReportable None (mkSummary v v v v v v v, []) v)) None.
Definition one_split : list Split := [mkSplit "all" (mkRange zero_time zero_time) (mkRange zero_time zero_time) (mkRange zero_time zero_time) []]%string.
Definition final_value (p : ReportablePortfolio xq) (r : DateRange) : xq := rep_Value p.
Lemma optimizer_ranks_once_witness :
  let ranked := rankCombos true (groupByCombination final_value one_split [tagged "0" (of_Z 1); tagged "1" (of_Z 2); tagged "" (of_Z 3)]%string) in
  (cb_comboID <$> ranked) = ["1"; "0"]%string ∧ NoDup (cb_comboID <$> ranked) ∧
  StronglySorted (λ l r, no_worse true (oos_mean l) (oos_mean r)) ranked.
Proof.
  intros ranked. destruct (optimizer_ranks_once final_value true one_split [tagged "0" (of_Z 1); tagged "1" (of_Z 2); tagged "" (of_Z 3)]%string) as (Hn & _ & Hs).
  split; [vm_compute; reflexivity|]. split; [exact Hn|exact Hs].
Defined.
End Analysed.
