(* ===== verification/SignalProps.v ===== *)
(** * SignalProps: what the signals promise

    In exact arithmetic.  The oscillators stay in their documented ranges on
    bars whose close lies between low and high; the regression of the pair
    signals and of the detrended fluctuation is the least-squares line.

    The last part proves the factor regression. *)
From Stdlib Require Import ZArith Qcanon Field Lia.
From stdpp Require Import base list gmap strings sorting.
From S2P Require Import Prelude Num GoTime Asset Period Frame Metrics FrameOps Resample Ledger Samples Account SimBroker FrameProps.
From S2P Require Import Backtest Stats Universe Signal Indicators FactorRegression FrameOpsProps StatsProps MetricProps.
Local Open Scope Qc_scope.

(** ** Oscillators *)
Record Bar : Type := mkBar { b_high : Qc; b_low : Qc; b_close : Qc; b_volume : Qc }.
Definition good_bar (b : Bar) : Prop := 0 <= b_low b ∧ b_low b <= b_close b ∧ b_close b <= b_high b ∧ 0 <= b_volume b.
Definition col_of (f : Bar → Qc) (bars : list Bar) : list xq := (λ b, Fin (f b)) <$> bars.

(** NaN, or a number of the range. *)
Definition in_range (lo hi : Qc) (x : xq) : Prop := x = XNaN ∨ ∃ r, x = Fin r ∧ lo <= r ∧ r <= hi.

Definition hundred : Qc := qc_of_Z 100.

Lemma scan_max (f : Bar → Qc) (s : Qc) bars :
  ∃ m, fold_left (λ best v, if flt best v then v else best) (col_of f bars) (Fin s) = Fin m ∧
    s <= m ∧ Forall (λ b, f b <= m) bars.
Proof.
  revert s. induction bars as [|b bars IH]; intros s; cbn [col_of fmap list_fmap fold_left].
  - exists s. split; [done|]. split; [qclra|constructor].
  - change (flt (Fin s) (Fin (f b))) with (qc_ltb s (f b)). qc_case.
    + destruct (IH (f b)) as (m & Hm & Hs & Hall). exists m. split; [exact Hm|]. split; [qclra|by constructor].
    + destruct (IH s) as (m & Hm & Hs & Hall). exists m. split; [exact Hm|]. split; [done|]. constructor; [qclra|done].
Qed.
Lemma scan_min (f : Bar → Qc) (s : Qc) bars :
  ∃ m, fold_left (λ best v, if flt v best then v else best) (col_of f bars) (Fin s) = Fin m ∧
    m <= s ∧ Forall (λ b, m <= f b) bars.
Proof.
  revert s. induction bars as [|b bars IH]; intros s; cbn [col_of fmap list_fmap fold_left].
  - exists s. split; [done|]. split; [qclra|constructor].
  - change (flt (Fin (f b)) (Fin s)) with (qc_ltb (f b) s). qc_case.
    + destruct (IH (f b)) as (m & Hm & Hs & Hall). exists m. split; [exact Hm|]. split; [qclra|by constructor].
    + destruct (IH s) as (m & Hm & Hs & Hall). exists m. split; [exact Hm|]. split; [done|]. constructor; [qclra|done].
Qed.

(** The extremes of a window that has bars enclose the close of each bar. *)
Lemma extremes_enclose bars :
  bars ≠ [] → Forall good_bar bars →
  ∃ top bottom, highest (col_of b_high bars) = Fin top ∧ lowest (col_of b_low bars) = Fin bottom ∧
    Forall (λ b, bottom <= b_close b ∧ b_close b <= top) bars.
Proof.
  intros Hne Hgood. destruct bars as [|b bars]; [done|]. unfold highest, lowest. cbn [col_of fmap list_fmap fold_left].
  change (flt (fneg inf) (Fin (b_high b))) with true. change (flt (Fin (b_low b)) inf) with true. cbn iota.
  destruct (scan_max b_high (b_high b) bars) as (top & Htop & Hh & Hhall).
  destruct (scan_min b_low (b_low b) bars) as (bottom & Hbot & Hl & Hlall).
  exists top, bottom. split; [exact Htop|]. split; [exact Hbot|].
  assert (Hh' : Forall (λ x, b_high x <= top) (b :: bars)) by by constructor.
  assert (Hl' : Forall (λ x, bottom <= b_low x) (b :: bars)) by by constructor.
  rewrite Forall_forall in Hgood, Hh', Hl'. apply Forall_forall. intros x Hx.
  destruct (Hgood x Hx) as (_ & H1 & H2 & _). specialize (Hh' x Hx). specialize (Hl' x Hx). split; qclra.
Qed.

(** The place of a value in a range, as a percentage of the range. *)
Lemma place_in_range (lo x hi : Qc) :
  lo <= x → x <= hi → hi - lo ≠ 0 → 0 <= (x - lo) / (hi - lo) * hundred ∧ (x - lo) / (hi - lo) * hundred <= hundred.
Proof.
  intros Hlo Hhi Hne. assert (Hpos : 0 < hi - lo).
  { destruct (Qclt_le_dec 0 (hi - lo)) as [|Hle]; [done|]. exfalso. apply Hne. apply Qcle_antisym; [done|qclra]. }
  assert (Hk : (x - lo) / (hi - lo) * (hi - lo) = x - lo) by (field; done). revert Hk.
  generalize ((x - lo) / (hi - lo)). intros k Hk. assert (Hh : 0 < hundred) by done.
  assert (Hk0 : 0 <= k). { destruct (Qclt_le_dec k 0) as [Hn|]; [exfalso|done]. qcnra. }
  assert (Hk1 : k <= 1). { destruct (Qclt_le_dec 1 k) as [Hn|]; [exfalso|done]. qcnra. }
  split; qcnra.
Qed.

Lemma feq_exact (x y : Qc) : feq (Fin x) (Fin y) = qc_eqb x y.
Proof. done. Qed.
Lemma fdiv_exact (x y : Qc) : y ≠ 0 → fdiv (Fin x) (Fin y) = Fin (x / y).
Proof. intros Hy. cbn. by apply qc_eqb_false in Hy as ->. Qed.
Lemma percent_place (lo x hi : Qc) :
  lo <= x → x <= hi →
  in_range 0 hundred (if feq (fsub (Fin hi) (Fin lo)) (of_Z 0) then fnan
                      else fmul (fdiv (fsub (Fin x) (Fin lo)) (fsub (Fin hi) (Fin lo))) (of_Z 100)).
Proof.
  intros Hlo Hhi. change (fsub (Fin ?u) (Fin ?v)) with (Fin (u - v)). change (@of_Z xq _ 0) with (Fin 0).
  rewrite feq_exact. qc_case; [by left|]. right. rewrite fdiv_exact by done. eexists. split; [reflexivity|].
  by apply place_in_range.
Qed.

Lemma stochastic_value_range bars (b : Bar) :
  Forall good_bar bars → b ∈ bars →
  in_range 0 hundred (stochastic_value (col_of b_high bars) (col_of b_low bars) (Fin (b_close b))).
Proof.
  intros Hgood Hb. destruct (extremes_enclose bars) as (top & bottom & Ht & Hbo & Hall); [by destruct bars; [apply elem_of_nil in Hb|]|done|].
  rewrite Forall_forall in Hall. destruct (Hall b Hb) as [H1 H2]. unfold stochastic_value. rewrite Ht, Hbo.
  by apply percent_place.
Qed.

Lemma slice_col f bars i j : slice i j (col_of f bars) = col_of f (slice i j bars).
Proof. unfold slice, col_of. by rewrite <-fmap_drop, <-fmap_take. Qed.

Lemma stochastic_range bars (window : nat) :
  Forall good_bar bars → (1 ≤ window)%nat →
  Forall (in_range 0 hundred) (stochasticKSeries (col_of b_high bars) (col_of b_low bars) (col_of b_close bars) window).
Proof.
  intros Hgood Hw. unfold stochasticKSeries. apply Forall_fmap, Forall_forall. intros i Hi.
  apply elem_of_seq in Hi. unfold col_of in Hi at 1. rewrite length_fmap in Hi. unfold compose.
  rewrite !slice_col. destruct (lookup_lt_is_Some_2 bars (i + window - 1)) as [b Hb]; [lia|].
  replace (default _ (col_of b_close bars !! (i + window - 1)%nat)) with (Fin (b_close b))
    by (unfold col_of; by rewrite list_lookup_fmap, Hb).
  apply stochastic_value_range.
  - unfold slice. by apply Forall_take, Forall_drop.
  - apply list_elem_of_lookup_2 with (i := (window - 1)%nat). unfold slice.
    rewrite lookup_take_lt by lia. rewrite lookup_drop. by replace (i + (window - 1))%nat with (i + window - 1)%nat by lia.
Qed.

Lemma williams_range bars :
  Forall good_bar bars → bars ≠ [] →
  in_range (- hundred) 0 (williams_value (col_of b_high bars) (col_of b_low bars) (col_of b_close bars)).
Proof.
  intros Hgood Hne. destruct (extremes_enclose bars Hne Hgood) as (top & bottom & Ht & Hbo & Hall).
  destruct (last bars) as [b|] eqn:Hl; [|by apply last_None in Hl].
  unfold williams_value. rewrite Ht, Hbo. unfold col_of. rewrite fmap_last, Hl. cbn [default fmap option_fmap option_map from_option id].
  apply last_Some in Hl as [l' ->]. rewrite Forall_app, Forall_singleton in Hall. destruct Hall as [_ [H1 H2]].
  change (fsub (Fin ?u) (Fin ?v)) with (Fin (u - v)). change (@of_Z xq _ 0) with (Fin 0).
  rewrite feq_exact. qc_case; [by left|]. right. rewrite fdiv_exact by done. eexists. split; [reflexivity|].
  destruct (place_in_range bottom (b_close b) top H1 H2) as [Hp0 Hp1]; [done|].
  replace ((top - b_close b) / (top - bottom) * - qc_of_Z 100)
    with ((b_close b - bottom) / (top - bottom) * hundred - hundred) by (unfold hundred; field; done).
  split; qclra.
Qed.

(** The smoothed gains and losses stay nonnegative. *)
Lemma wilder_nonneg (n : nat) (xs : list Qc) :
  (1 ≤ n)%nat → Forall (λ x, 0 <= x) xs → ∃ w, wilder n (Fin <$> xs) = Fin w ∧ 0 <= w.
Proof.
  intros Hn Hxs. unfold wilder. rewrite <-fmap_take, <-fmap_drop, fsum_exact.
  assert (Hd : 0 < qc_of_Z (Z.of_nat n)) by (apply Qclt_le_trans with (y := qc_of_Z 1); [done|apply qc_of_Z_le; lia]).
  assert (Hd0 : qc_of_Z (Z.of_nat n) ≠ 0) by (apply not_eq_sym, Qclt_not_eq, Hd).
  assert (Hdiv : ∀ x : Qc, 0 <= x → 0 <= x / qc_of_Z (Z.of_nat n)).
  { intros x Hx. apply qc_mul_nonneg; [done|]. apply Qcle_trans with (y := / qc_of_Z (Z.of_nat n)); [|apply Qcle_refl].
    assert (Hi : / qc_of_Z (Z.of_nat n) * qc_of_Z (Z.of_nat n) = 1) by (field; done). revert Hi.
    generalize (/ qc_of_Z (Z.of_nat n)). intros k Hk. destruct (Qclt_le_dec k 0) as [Hneg|]; [exfalso|done]. qcnra. }
  cbn [of_Z Num_exact]. rewrite fdiv_exact by done.
  assert (Hseed : 0 <= qsum (take n xs) / qc_of_Z (Z.of_nat n)) by (apply Hdiv, qsum_nonneg; by apply Forall_take).
  revert Hseed. generalize (qsum (take n xs) / qc_of_Z (Z.of_nat n)). apply (Forall_drop _ n) in Hxs. revert Hxs.
  generalize (drop n xs). intros ys Hys. induction Hys as [|y ys Hy Hys IH]; intros s Hs; cbn [fmap list_fmap fold_left].
  - by exists s.
  - unfold wilder_step at 2. cbn [of_Z Num_exact]. change (fadd (fmul (Fin s) (Fin ?u)) (Fin y)) with (Fin (s * u + y)).
    rewrite fdiv_exact by done. apply IH, Hdiv.
    assert (0 <= qc_of_Z (Z.of_nat n - 1)) by (rewrite <-qc_of_Z_0; apply qc_of_Z_le; lia).
    assert (0 <= s * qc_of_Z (Z.of_nat n - 1)) by by apply qc_mul_nonneg. qclra.
Qed.

Lemma share_nonneg (g l : Qc) : 0 <= g → 0 <= l → l ≠ 0 → 1 + g / l ≠ 0 ∧ 0 <= hundred - hundred / (1 + g / l) ∧ hundred - hundred / (1 + g / l) <= hundred.
Proof.
  intros Hg Hl Hne. assert (Hlp : 0 < l).
  { destruct (Qclt_le_dec 0 l) as [|Hle]; [done|]. exfalso. by apply Hne, Qcle_antisym. }
  assert (Hq : g / l * l = g) by (field; done). revert Hq. generalize (g / l). intros k Hk.
  assert (Hk0 : 0 <= k). { destruct (Qclt_le_dec k 0) as [Hn|]; [exfalso|done]. qcnra. }
  assert (H1 : 1 + k ≠ 0). { intros Hz. assert (0 <= 1 + k) by qclra. assert (0 < 1 + k) by qclra. rewrite Hz in *. by apply (Qclt_not_eq 0 0). }
  split; [done|]. assert (Hh : hundred / (1 + k) * (1 + k) = hundred) by (field; done). revert Hh.
  generalize (hundred / (1 + k)). intros z Hz. assert (Hpos : 0 < hundred) by done.
  assert (Hz0 : 0 <= z). { destruct (Qclt_le_dec z 0) as [Hn|]; [exfalso|done]. assert (0 <= (1 + k)) by qclra. qcnra. }
  assert (Hz1 : z <= hundred). { assert (0 <= k * z) by by apply qc_mul_nonneg. replace (z * (1 + k)) with (z + k * z) in Hz by ring. qclra. }
  split; qclra.
Qed.

Lemma rsi_value_range (g l : Qc) : 0 <= g → 0 <= l → in_range 0 hundred (rsi_value (Fin g) (Fin l)).
Proof.
  intros Hg Hl. unfold rsi_value. change (@of_Z xq _ 0) with (Fin 0). rewrite feq_exact. qc_case.
  - right. exists hundred. split; [done|]. split; [done|apply Qcle_refl].
  - right. rewrite fdiv_exact by done. destruct (share_nonneg g l Hg Hl) as (H1 & Hlo & Hhi); [done|].
    change (fadd (of_Z 1) (Fin ?x)) with (Fin (1 + x)). change (@of_Z xq _ 100) with (Fin hundred).
    rewrite fdiv_exact by done. eexists. split; [reflexivity|]. done.
Qed.

Lemma rsi_range (n : nat) (first : xq) (changes : list Qc) :
  (1 ≤ n)%nat → Forall (in_range 0 hundred) (rsi_col n (first :: (Fin <$> changes))).
Proof.
  intros Hn. cbn [rsi_col]. apply Forall_app. split; [apply Forall_replicate; by left|]. constructor; [|constructor].
  rewrite <-!list_fmap_compose.
  assert (Hsplit : ∀ (f : xq → xq) (g : Qc → Qc), (∀ x, f (Fin x) = Fin (g x)) → (∀ x, 0 <= g x) →
    ∃ w, wilder n ((f ∘ Fin) <$> changes) = Fin w ∧ 0 <= w).
  { intros f g Hf Hg. destruct (wilder_nonneg n (g <$> changes)) as (w & Hw & Hpos); [done|by apply Forall_fmap, Forall_true|].
    exists w. split; [|done]. rewrite <-Hw. f_equal. rewrite <-list_fmap_compose. apply list_fmap_ext. intros i x _. apply Hf. }
  destruct (Hsplit gain_of (λ x, if qc_ltb 0 x then x else 0)) as (g & -> & Hg).
  { intros x. unfold gain_of. change (flt (of_Z 0) (Fin x)) with (qc_ltb 0 x). by destruct (qc_ltb 0 x). }
  { intros x. qc_case; [by apply Qclt_le_weak|apply Qcle_refl]. }
  destruct (Hsplit loss_of (λ x, if qc_ltb 0 x then 0 else - x)) as (l & -> & Hl).
  { intros x. unfold loss_of. change (flt (of_Z 0) (Fin x)) with (qc_ltb 0 x). by destruct (qc_ltb 0 x). }
  { intros x. qc_case; [apply Qcle_refl|qclra]. }
  by apply rsi_value_range.
Qed.

(** Flows of nonnegative amounts are nonnegative. *)
Lemma directed_flow_nonneg (up : bool) (total prev : Qc) (flow : list (Qc * Qc)) :
  0 <= total → Forall (λ p, 0 <= p.2) flow →
  ∃ r, directed_flow (if up then fadd else λ t _, t) (if up then λ t _, t else fadd) (Fin total) (Fin prev)
         ((λ p : Qc * Qc, (Fin p.1, Fin p.2)) <$> flow) = Fin r ∧ 0 <= r.
Proof.
  intros Ht Hflow. revert total prev Ht. induction Hflow as [|[price amount] flow Hamt Hflow IH]; intros total prev Ht;
    cbn [fmap list_fmap directed_flow]; [by exists total|]. cbn [fst snd].
  assert (Hs : 0 <= total + amount) by (cbn in Hamt; qclra).
  destruct up; destruct (flt (Fin prev) (Fin price)); try destruct (flt (Fin price) (Fin prev));
    first [apply (IH (total + amount)); done|by apply IH].
Qed.

Definition typical (b : Bar) : Qc := (b_high b + b_low b + b_close b) / qc_of_Z 3.
Lemma typical_exact bars :
  typical_prices (col_of b_high bars) (col_of b_low bars) (col_of b_close bars) = col_of typical bars.
Proof. induction bars as [|b bars IH]; [done|]. cbn. f_equal. exact IH. Qed.

Lemma mfi_range bars :
  Forall good_bar bars →
  in_range 0 hundred (mfi_value (typical_prices (col_of b_high bars) (col_of b_low bars) (col_of b_close bars)) (col_of b_volume bars)).
Proof.
  intros Hgood. rewrite typical_exact. unfold mfi_value.
  assert (Hzip : zip (col_of typical bars) (zip_with fmul (col_of typical bars) (col_of b_volume bars))
    = (λ p : Qc * Qc, (Fin p.1, Fin p.2)) <$> ((λ b, (typical b, typical b * b_volume b)) <$> bars)).
  { clear. induction bars as [|b bars IH]; [done|]. cbn. f_equal. exact IH. }
  rewrite Hzip. assert (Hamt : Forall (λ p : Qc * Qc, 0 <= p.2) ((λ b, (typical b, typical b * b_volume b)) <$> bars)).
  { apply Forall_fmap. eapply Forall_impl; [exact Hgood|]. intros b (H0 & H1 & H2 & H3). cbn. apply qc_mul_nonneg; [|done].
    unfold typical. apply qc_mul_nonneg; [qclra|done]. }
  revert Hamt. generalize ((λ b, (typical b, typical b * b_volume b)) <$> bars). intros [|[p0 x0] flow] Hamt; [by left|].
  cbn [fmap list_fmap fst snd]. apply Forall_cons in Hamt as [_ Hamt].
  destruct (directed_flow_nonneg true 0 p0 flow) as (pos & Hpos & Hp0); [done|done|].
  destruct (directed_flow_nonneg false 0 p0 flow) as (neg & Hneg & Hn0); [done|done|].
  change (Fin 0) with (@of_Z xq _ 0) in Hpos, Hneg. cbn [andb] in Hpos, Hneg. rewrite Hpos, Hneg.
  change (feq (Fin ?x) (of_Z 0)) with (qc_eqb x 0).
  destruct (qc_eqb pos 0) eqn:Ep; destruct (qc_eqb neg 0) eqn:En; cbn [andb]; qc_bools.
  - by left.
  - right. exists 0. split; [done|]. split; [apply Qcle_refl|done].
  - right. exists hundred. split; [done|]. split; [done|apply Qcle_refl].
  - right. destruct (share_nonneg pos neg Hp0 Hn0 En) as (H1 & Hlo & Hhi). rewrite fdiv_exact by done.
    change (fadd (of_Z 1) (Fin ?x)) with (Fin (1 + x)). change (@of_Z xq _ 100) with (Fin hundred).
    rewrite fdiv_exact by done. eexists. split; [reflexivity|]. done.
Qed.

Lemma money_flow_bound (b : Bar) :
  good_bar b → ∃ v, money_flow_volume (Fin (b_high b)) (Fin (b_low b)) (Fin (b_close b)) (Fin (b_volume b)) = Fin v ∧
    - b_volume b <= v ∧ v <= b_volume b.
Proof.
  intros (_ & H1 & H2 & H3). destruct b as [h l c v]. cbn in *. unfold money_flow_volume.
  assert (Hsub : ∀ x y, fsub (Fin x) (Fin y) = Fin (x - y)) by done. rewrite !Hsub.
  change (@of_Z xq _ 0) with (Fin 0). rewrite feq_exact. qc_case.
  - exists 0. split; [done|]. split; qclra.
  - rewrite fdiv_exact by done. eexists. split; [reflexivity|].
    destruct (place_in_range l c h H1 H2) as [Hp0 Hp1]; [done|].
    assert (Hk : (c - l) / (h - l) * hundred / hundred = (c - l) / (h - l)) by (field; done).
    replace ((c - l - (h - c)) / (h - l)) with ((1 + 1) * ((c - l) / (h - l)) - 1) by (field; done).
    revert Hp0 Hp1 Hk. generalize ((c - l) / (h - l)). intros k Hp0 Hp1 _. assert (Hh : 0 < hundred) by done.
    assert (Hk0 : 0 <= k). { destruct (Qclt_le_dec k 0) as [Hn|]; [exfalso|done]. qcnra. }
    assert (Hk1 : k <= 1). { destruct (Qclt_le_dec 1 k) as [Hn|]; [exfalso|done]. qcnra. }
    assert (0 <= k * v) by by apply qc_mul_nonneg. assert (0 <= (1 - k) * v) by (apply qc_mul_nonneg; [qclra|done]).
    replace ((1 - k) * v) with (v - k * v) in * by ring. replace (((1 + 1) * k - 1) * v) with (k * v + k * v - v) by ring.
    split; qclra.
Qed.

Lemma flow_volumes_bound bars :
  Forall good_bar bars →
  ∃ ms, moneyFlowVolumeSeries (col_of b_high bars) (col_of b_low bars) (col_of b_close bars) (col_of b_volume bars) = Fin <$> ms ∧
    - qsum (b_volume <$> bars) <= qsum ms ∧ qsum ms <= qsum (b_volume <$> bars) ∧ 0 <= qsum (b_volume <$> bars).
Proof.
  induction 1 as [|b bars Hb Hbars (ms & Hms & Hlo & Hhi & Hv)].
  - exists []. split; [done|]. cbn. split; [qclra|]. split; apply Qcle_refl.
  - destruct (money_flow_bound b Hb) as (v & Hmv & Hl & Hh). exists (v :: ms).
    unfold moneyFlowVolumeSeries in *. unfold col_of in *. cbn [fmap list_fmap zip_with fst snd]. rewrite Hmv.
    cbn [fmap list_fmap] in Hms. rewrite Hms. split; [done|]. destruct Hb as (_ & _ & _ & Hbv). cbn [qsum fmap list_fmap].
    cbn [fmap list_fmap] in Hlo, Hhi, Hv. split; [qclra|]. split; qclra.
Qed.

Lemma cmf_range bars :
  Forall good_bar bars →
  in_range (- (1)) 1 (cmf_value (moneyFlowVolumeSeries (col_of b_high bars) (col_of b_low bars) (col_of b_close bars)
    (col_of b_volume bars)) (col_of b_volume bars)).
Proof.
  intros Hgood. destruct (flow_volumes_bound bars Hgood) as (ms & -> & Hlo & Hhi & Hv). unfold cmf_value.
  replace (col_of b_volume bars) with (Fin <$> (b_volume <$> bars)) by (unfold col_of; by rewrite <-list_fmap_compose).
  rewrite !fsum_exact. change (@of_Z xq _ 0) with (Fin 0). rewrite feq_exact. destruct (qc_eqb _ 0) eqn:E; qc_bools; [by left|].
  right. cbn [negb]. rewrite fdiv_exact by done. eexists. split; [reflexivity|]. revert Hlo Hhi Hv E.
  generalize (qsum ms) (qsum (b_volume <$> bars)). intros s v Hlo Hhi Hv E.
  assert (Hvp : 0 < v). { destruct (Qclt_le_dec 0 v) as [|Hle]; [done|]. exfalso. by apply E, Qcle_antisym. }
  assert (Hk : s / v * v = s) by (field; done). revert Hk. generalize (s / v). intros k Hk. split.
  - destruct (Qclt_le_dec k (- (1))) as [Hn|]; [exfalso|done]. qcnra.
  - destruct (Qclt_le_dec 1 k) as [Hn|]; [exfalso|done]. qcnra.
Qed.

(** C20. The oscillators stay in their documented ranges.  On bars whose low is
    nonnegative, whose close lies between low and high, and whose volume is not
    negative, Williams %R lies between -100 and 0, every stochastic %K and the
    money flow index between 0 and 100, the Chaikin money flow between -1 and 1;
    and the relative strength index of any changes lies between 0 and 100; or
    the value is NaN. *)
Theorem Oscillators_in_range (bars : list Bar) (window n : nat) (first : xq) (changes : list Qc) :
  Forall good_bar bars → bars ≠ [] → (1 ≤ window)%nat → (1 ≤ n)%nat →
  let highs := col_of b_high bars in
  let lows := col_of b_low bars in
  let closes := col_of b_close bars in
  let volumes := col_of b_volume bars in
  in_range (- hundred) 0 (williams_value highs lows closes) ∧
  Forall (in_range 0 hundred) (stochasticKSeries highs lows closes window) ∧
  in_range 0 hundred (mfi_value (typical_prices highs lows closes) volumes) ∧
  in_range (- (1)) 1 (cmf_value (moneyFlowVolumeSeries highs lows closes volumes) volumes) ∧
  Forall (in_range 0 hundred) (rsi_col n (first :: (Fin <$> changes))).
Proof.
  intros Hgood Hne Hw Hn. cbv zeta. split; [by apply williams_range|]. split; [by apply stochastic_range|].
  split; [by apply mfi_range|]. split; [by apply cmf_range|]. by apply rsi_range.
Qed.

Lemma Oscillators_in_range_witness :
  let bars := [mkBar (qfrac 12 1) (qfrac 9 1) (qfrac 10 1) (qfrac 100 1); mkBar (qfrac 13 1) (qfrac 10 1) (qfrac 12 1) (qfrac 50 1)] in
  Forall good_bar bars ∧
  in_range (- hundred) 0 (williams_value (col_of b_high bars) (col_of b_low bars) (col_of b_close bars)).
Proof.
  intros bars. assert (Hgood : Forall good_bar bars) by (repeat constructor; vm_compute; discriminate).
  split; [exact Hgood|].
  exact (proj1 (Oscillators_in_range bars 2 1 XNaN [qfrac 2 1] Hgood ltac:(done) ltac:(lia) ltac:(lia))).
Defined.

(** ** Regression *)
Implicit Types (points : list (Qc * Qc)) (slope intercept : Qc).

Definition sum_of (f : Qc * Qc → Qc) points : Qc := qsum (f <$> points).
(** The squared vertical distances of the points from a line. *)
Definition squared_error slope intercept points : Qc :=
  sum_of (λ p, (p.2 - (intercept + slope * p.1)) * (p.2 - (intercept + slope * p.1))) points.

Lemma sum_of_cons f p points : sum_of f (p :: points) = f p + sum_of f points.
Proof. done. Qed.
Lemma no_points : qc_of_Z (Z.of_nat (length (@nil (Qc * Qc)))) = 0.
Proof. by apply Qc_is_canon. Qed.
Lemma count_cons (p : Qc * Qc) points : qc_of_Z (Z.of_nat (length (p :: points))) = 1 + qc_of_Z (Z.of_nat (length points)).
Proof.
  apply Qc_is_canon. rewrite this_add, !this_of_Z, this_1. cbn [length]. rewrite Nat2Z.inj_succ.
  unfold Z.succ. rewrite QArith_base.inject_Z_plus. apply QArith_base.Qplus_comm.
Qed.

Lemma line_distance (c d : Qc) points :
  sum_of (λ p, (c + d * p.1) * (c + d * p.1)) points
  = qc_of_Z (Z.of_nat (length points)) * (c * c) + (1 + 1) * c * d * sum_of fst points + d * d * sum_of (λ p, p.1 * p.1) points.
Proof.
  induction points as [|p points IH]; [rewrite no_points; unfold sum_of; cbn; ring|].
  rewrite !sum_of_cons, IH, count_cons. ring.
Qed.
Lemma squared_error_sums slope intercept points :
  squared_error slope intercept points
  = sum_of (λ p, p.2 * p.2) points - (1 + 1) * intercept * sum_of snd points - (1 + 1) * slope * sum_of (λ p, p.1 * p.2) points
    + sum_of (λ p, (intercept + slope * p.1) * (intercept + slope * p.1)) points.
Proof.
  unfold squared_error. induction points as [|p points IH]; [unfold sum_of; cbn; ring|].
  rewrite !sum_of_cons, IH. ring.
Qed.
Lemma sum_of_squares_nonneg (f : Qc * Qc → Qc) points : 0 <= sum_of (λ p, f p * f p) points.
Proof.
  unfold sum_of. apply qsum_nonneg, Forall_fmap, Forall_true. intros p. unfold compose.
  generalize (f p). intros x. qcnra.
Qed.

(** A line that satisfies the normal equations has the least squared error. *)
Lemma normal_equations_minimise slope intercept points :
  qc_of_Z (Z.of_nat (length points)) * intercept + slope * sum_of fst points = sum_of snd points →
  intercept * sum_of fst points + slope * sum_of (λ p, p.1 * p.1) points = sum_of (λ p, p.1 * p.2) points →
  ∀ slope' intercept', squared_error slope intercept points <= squared_error slope' intercept' points.
Proof.
  intros H1 H2 slope' intercept'.
  assert (Heq : squared_error slope' intercept' points = squared_error slope intercept points
    + sum_of (λ p, ((intercept' - intercept) + (slope' - slope) * p.1) * ((intercept' - intercept) + (slope' - slope) * p.1)) points).
  { rewrite !squared_error_sums, !line_distance, <-H1, <-H2. ring. }
  rewrite Heq. pose proof (sum_of_squares_nonneg (λ p, (intercept' - intercept) + (slope' - slope) * p.1) points) as Hnn.
  cbn beta in Hnn. qclra.
Qed.

Lemma regress_sums points :
  fsum (Fin <$> points.*1) = Fin (sum_of fst points) ∧ fsum (Fin <$> points.*2) = Fin (sum_of snd points) ∧
  fsum (zip_with fmul (Fin <$> points.*1) (Fin <$> points.*2)) = Fin (sum_of (λ p, p.1 * p.2) points) ∧
  fsum (zip_with fmul (Fin <$> points.*1) (Fin <$> points.*1)) = Fin (sum_of (λ p, p.1 * p.1) points).
Proof.
  rewrite !fsum_exact. split; [done|]. split; [done|].
  assert (Hz : ∀ f g : Qc * Qc → Qc, zip_with fmul (Fin <$> (f <$> points)) (Fin <$> (g <$> points)) = Fin <$> ((λ p, f p * g p) <$> points)).
  { intros f g. induction points as [|p points IH]; [done|]. cbn [fmap list_fmap zip_with]. cbn [fmap list_fmap] in IH. by rewrite IH. }
  rewrite !Hz, !fsum_exact. done.
Qed.

(** The denominator is the count times the squared deviations of the abscissas. *)
Lemma denominator_deviations points :
  points ≠ [] →
  qc_of_Z (Z.of_nat (length points)) * sum_of (λ p, p.1 * p.1) points - sum_of fst points * sum_of fst points
  = qc_of_Z (Z.of_nat (length points)) * squared_deviations points.*1.
Proof.
  intros Hne. rewrite squared_deviations_sums by by destruct points. unfold count_of. rewrite length_fmap.
  assert (Hc : qc_of_Z (Z.of_nat (length points)) ≠ 0).
  { rewrite <-(length_fmap fst). apply count_of_ne. by destruct points. }
  unfold sum_of. rewrite <-list_fmap_compose. unfold compose. field. done.
Qed.

Lemma deviations_zero xs : squared_deviations xs = 0 → Forall (λ x, x = sample_mean xs) xs.
Proof.
  unfold squared_deviations. generalize (sample_mean xs). intros m.
  induction xs as [|x xs IH]; [constructor|]. cbn [fmap list_fmap qsum]. intros Hz.
  assert (Hx : 0 <= (x - m) * (x - m)) by (generalize (x - m); intros y; qcnra).
  assert (Hxs : 0 <= qsum ((λ x, (x - m) * (x - m)) <$> xs)).
  { apply qsum_nonneg, Forall_fmap, Forall_true. intros y. unfold compose. generalize (y - m). intros z. qcnra. }
  cbn [fmap list_fmap] in Hxs. constructor.
  - assert (Hsq : (x - m) * (x - m) = 0) by (apply Qcle_antisym; [qclra|done]).
    apply Qcmult_integral in Hsq as [Hs|Hs]; qclra.
  - apply IH. apply Qcle_antisym; [cbn [fmap list_fmap]; qclra|exact Hxs].
Qed.

Lemma deviations_constant c xs : xs ≠ [] → Forall (λ x, x = c) xs → squared_deviations xs = 0.
Proof.
  intros Hne Hc. assert (Hsum : qsum xs = count_of xs * c).
  { clear Hne. induction xs as [|x xs IH] using rev_ind; [rewrite count_of_nil; cbn; ring|].
    apply Forall_app in Hc as [Hxs Hx]. apply Forall_singleton in Hx as ->.
    rewrite qsum_app, IH, count_of_snoc by done. cbn. ring. }
  unfold squared_deviations. assert (Hm : sample_mean xs = c) by (unfold sample_mean; rewrite Hsum; field; by apply count_of_ne).
  rewrite Hm. clear -Hc. induction Hc as [|x xs -> Hc IH]; [done|]. cbn [fmap list_fmap qsum] in *. rewrite IH. ring.
Qed.

(** The regression is the least-squares line: on two or more points it
    fails exactly when all abscissas are the same, and otherwise no line has a
    smaller sum of squared vertical distances than the slope and intercept it
    returns. *)
Theorem linRegress_least_squares points :
  (2 ≤ length points)%nat →
  match linRegress (Fin <$> points.*1) (Fin <$> points.*2) with
  | Ok (s, i) => ∃ slope intercept, s = Fin slope ∧ i = Fin intercept ∧
      ∀ slope' intercept', squared_error slope intercept points <= squared_error slope' intercept' points
  | Err _ => ∃ c, Forall (λ x, x = c) points.*1
  end ∧
  ((∃ c, Forall (λ x, x = c) points.*1) → is_Ok (linRegress (Fin <$> points.*1) (Fin <$> points.*2)) = false).
Proof.
  intros Hlen. assert (Hne : points ≠ []) by by destruct points; cbn in Hlen; [lia|].
  unfold linRegress, fcount. destruct (regress_sums points) as (-> & -> & -> & ->). rewrite !length_fmap.
  destruct (Nat.ltb_spec (length points) 2); [lia|]. rewrite Nat.eqb_refl. cbn [negb].
  cbn [of_Z Num_exact]. set (n := qc_of_Z (Z.of_nat (length points))).
  assert (Hsub : ∀ x y, fsub (Fin x) (Fin y) = Fin (x - y)) by done.
  assert (Hmul : ∀ x y, fmul (Fin x) (Fin y) = Fin (x * y)) by done. rewrite !Hmul, !Hsub, feq_exact.
  pose proof (denominator_deviations points Hne) as Hden. fold n in Hden.
  assert (Hn : n ≠ 0) by (unfold n; rewrite <-(length_fmap fst); apply count_of_ne; by destruct points).
  destruct (qc_eqb _ _) eqn:E; qc_bools; rewrite qc_of_Z_0 in E.
  - split; [|done]. rewrite Hden in E. apply Qcmult_integral in E as [E|E]; [done|].
    eexists. by apply deviations_zero.
  - rewrite !fdiv_exact by done. rewrite Hmul, Hsub, fdiv_exact by done. split.
    + eexists _, _. split; [done|]. split; [done|]. apply normal_equations_minimise; fold n; field; done.
    + intros [c Hc]. exfalso. apply E. rewrite Hden. replace (squared_deviations points.*1) with 0; [ring|].
      symmetry. apply (deviations_constant c); [by destruct points|done].
Qed.

Lemma linRegress_least_squares_witness :
  let points := [(qfrac 1 1, qfrac 2 1); (qfrac 2 1, qfrac 5 1); (qfrac 3 1, qfrac 6 1)] in
  (2 ≤ length points)%nat ∧
  match linRegress (Fin <$> points.*1) (Fin <$> points.*2) with
  | Ok (s, i) => ∃ slope intercept, s = Fin slope ∧ i = Fin intercept ∧
      ∀ slope' intercept', squared_error slope intercept points <= squared_error slope' intercept' points
  | Err _ => ∃ c, Forall (λ x, x = c) points.*1
  end.
Proof.
  intros points. assert (Hlen : (2 ≤ length points)%nat) by (cbn; lia).
  exact (conj Hlen (proj1 (linRegress_least_squares points Hlen))).
Defined.

Local Close Scope Qc_scope.

(** * Forward selection of factors

    In any arithmetic whose comparison is an order, binary64 included: each
    round improves the criterion, the rounds end, and the final model is a
    local optimum. *)
Section Stepwise.
Context {F : Type} `{NumOrd F} `{GoInf F}.
Local Open Scope num_scope.
Implicit Types (regress : list Metric → result (result (FactorRegression F))) (selected remaining : list Metric)
  (steps : list (FactorRegression F)) (best : option (Candidate F)).

(** [math.Inf(1)] is not NaN, and nothing is greater. *)
Hypothesis inf_number : is_nan (inf : F) = false.
Hypothesis inf_greatest : ∀ x : F, (inf <? x) = false.

(** A model with a lower criterion. *)
Definition improves (r r' : FactorRegression F) : Prop := (AIC r' <? AIC r) = true.
#[export] Instance improves_trans : Transitive improves.
Proof. intros x y z Hxy Hyz. unfold improves in *. by eapply flt_trans. Qed.

(** The model that adds [m], when the regression succeeds. *)
Definition added regress selected m (r : FactorRegression F) : Prop := regress (selected ++ [m]) = Ok (Ok r).

(** A candidate comes from the remaining factors. *)
Definition from_remaining regress selected (offset : nat) remaining best : Prop :=
  match best with
  | None => True
  | Some c => added regress selected (cd_metric c) (cd_result c) ∧ is_nan (AIC (cd_result c)) = false ∧
      ∃ i, cd_idx c = (offset + i)%nat ∧ remaining !! i = Some (cd_metric c)
  end.

Lemma candidate_number regress selected offset remaining best :
  from_remaining regress selected offset remaining best → is_nan (candidate_aic best) = false.
Proof. destruct best as [c|]; cbn; [by intros (_ & ? & _)|done]. Qed.

Lemma best_candidate_spec regress selected all idx remaining best best' :
  all = take idx all ++ remaining → (idx ≤ length all)%nat →
  from_remaining regress selected 0 all best →
  (∀ m r, m ∈ take idx all → added regress selected m r → (AIC r <? candidate_aic best) = false) →
  best_candidate regress selected idx remaining best = Ok best' →
  from_remaining regress selected 0 all best' ∧
  ∀ m r, m ∈ all → added regress selected m r → (AIC r <? candidate_aic best') = false.
Proof.
  revert idx best. induction remaining as [|m remaining IH]; intros idx best Hall Hidx Hfrom Hmin; cbn [best_candidate].
  - intros [= <-]. split; [done|]. intros m r Hm. apply Hmin. rewrite app_nil_r in Hall. by rewrite <-Hall.
  - destruct (regress (selected ++ [m])) as [result|e] eqn:Hreg; [|done]. cbn [mbind result_bind].
    assert (Hm : all !! idx = Some m).
    { rewrite Hall, lookup_app_r by (rewrite length_take; lia). rewrite length_take.
      by replace (idx - idx `min` length all)%nat with 0%nat by lia. }
    assert (Htake : take (S idx) all = take idx all ++ [m]) by by apply take_S_r.
    set (best1 := match result with Ok r => _ | Err _ => _ end). intros Hrest.
    assert (Hcase : best1 = best ∧ (∀ r, added regress selected m r → (AIC r <? candidate_aic best) = false)
      ∨ ∃ r, best1 = Some (mkCandidate m r idx) ∧ added regress selected m r ∧ (AIC r <? candidate_aic best) = true).
    { unfold best1, added. rewrite Hreg. destruct result as [r|e]; [|left; split; [done|by intros]].
      destruct (AIC r <? candidate_aic best) eqn:E; [right; by exists r|left; split; [done|by intros r' [= <-]]]. }
    apply IH in Hrest; [done|rewrite Htake, <-app_assoc; exact Hall|apply lookup_lt_Some in Hm; lia|..].
    + destruct Hcase as [[-> _]|(r & -> & Hadd & Hlt)]; [done|]. split; [done|]. split; [by apply (flt_nan _ _ Hlt)|].
      by exists idx.
    + intros m' r' Hm' Hadd'. rewrite Htake in Hm'. apply elem_of_app in Hm' as [Hm'|Hm'%list_elem_of_singleton].
      * pose proof (Hmin m' r' Hm' Hadd') as Hf. destruct Hcase as [[-> _]|(r & -> & _ & Hlt)]; [done|]. cbn.
        destruct (AIC r' <? AIC r) eqn:E; [|done]. by rewrite (flt_trans _ _ _ E Hlt) in Hf.
      * subst m'. destruct Hcase as [[-> Hm'']|(r & -> & Hadd & _)]; [by apply Hm''|]. cbn.
        unfold added in *. rewrite Hadd in Hadd'. injection Hadd' as <-. apply flt_irrefl.
Qed.

Definition best_of steps : F := match last steps with Some r => AIC r | None => inf end.

(** Each step is the model of the factors selected so far, in their order, and
    the factor it adds is a best one: no factor not yet selected gives a lower
    criterion. *)
Definition greedy regress selected remaining steps : Prop :=
  length selected = length steps ∧
  ∀ i m r, selected !! i = Some m → steps !! i = Some r →
    added regress (take i selected) m r ∧
    ∀ m' r', m' ∈ drop i selected ++ remaining → added regress (take i selected) m' r' → (AIC r' <? AIC r) = false.

Lemma greedy_snoc regress selected remaining steps i m r :
  greedy regress selected remaining steps → remaining !! i = Some m → added regress selected m r →
  (∀ m' r', m' ∈ remaining → added regress selected m' r' → (AIC r' <? AIC r) = false) →
  greedy regress (selected ++ [m]) (delete i remaining) (steps ++ [r]).
Proof.
  intros [Hlen Hg] Hi Hadd Hmin. split; [by rewrite !length_app, Hlen|]. intros j x y Hx Hy.
  destruct (decide (j = length selected)) as [->|Hj].
  - rewrite lookup_app_r, Nat.sub_diag in Hx by done. rewrite Hlen, lookup_app_r, Nat.sub_diag in Hy by done.
    injection Hx as <-. injection Hy as <-. rewrite take_app_length, drop_app_length. split; [done|].
    intros m' r' Hm'. apply Hmin. cbn [app] in Hm'. by rewrite <-delete_Permutation in Hm' by done.
  - assert (Hlt : (j < length selected)%nat) by (apply lookup_lt_Some in Hx; rewrite length_app in Hx; cbn in Hx; lia).
    rewrite lookup_app_l in Hx by lia. rewrite lookup_app_l in Hy by lia. destruct (Hg j x y Hx Hy) as [Ha Hm]. rewrite take_app_le by lia. split; [done|].
    intros m' r' Hm'. apply Hm. rewrite drop_app_le, <-app_assoc in Hm' by lia. cbn [app] in Hm'.
    rewrite !elem_of_app in Hm' |- *. by rewrite <-(delete_Permutation remaining i m Hi) in Hm'.
Qed.

Record selection regress (metrics : list Metric) steps : Prop := {
  sel_descends : StronglySorted improves steps;
  sel_bound : (length steps ≤ length metrics)%nat;
  sel_optimum : ∃ selected remaining, selected ++ remaining ≡ₚ metrics ∧ greedy regress selected remaining steps ∧
    ∀ m r, m ∈ remaining → added regress selected m r → (AIC r <? best_of steps) = false;
}.

Lemma stepwise_selects fuel regress metrics selected remaining steps steps' :
  (length remaining ≤ fuel)%nat → selected ++ remaining ≡ₚ metrics → greedy regress selected remaining steps →
  StronglySorted improves steps → is_nan (best_of steps) = false →
  stepwise fuel regress selected remaining (best_of steps) steps = Ok steps' →
  selection regress metrics steps'.
Proof.
  revert selected remaining steps. induction fuel as [|fuel IH]; intros selected remaining steps Hfuel Hperm Hgr Hs Hnum; cbn [stepwise]; pose proof Hgr as [Hlen _].
  - intros [= <-]. assert (remaining = []) as -> by (destruct remaining; [done|cbn in Hfuel; lia]).
    split; [done|rewrite <-Hlen, <-Hperm, app_nil_r; lia|]. exists selected, []. split; [done|]. split; [done|].
    intros m r Hm. by apply elem_of_nil in Hm.
  - assert (Hstop : (∀ m r, m ∈ remaining → added regress selected m r → (AIC r <? best_of steps) = false) → selection regress metrics steps).
    { intros Hopt. split; [done|rewrite <-Hlen, <-Hperm, length_app; lia|]. by exists selected, remaining. }
    destruct (Nat.eqb_spec (length remaining) 0) as [Hz|Hz].
    { intros [= <-]. apply Hstop. intros m r Hm. by apply nil_length_inv in Hz as ->; apply elem_of_nil in Hm. }
    destruct (best_candidate regress selected 0 remaining None) as [best|e] eqn:Hb; [|done]. cbn [mbind result_bind].
    destruct (best_candidate_spec regress selected remaining 0 remaining None best eq_refl ltac:(lia) I
      ltac:(intros m r Hm; by apply elem_of_nil in Hm) Hb) as [Hfrom Hmin].
    pose proof (candidate_number _ _ _ _ _ Hfrom) as Hcn.
    destruct (best_of steps <=? candidate_aic best) eqn:Hle.
    { intros [= <-]. apply Hstop. intros m r Hm Hadd. destruct (AIC r <? best_of steps) eqn:E; [|done].
      pose proof (flt_neg_trans _ (candidate_aic best) _ (proj1 (flt_nan _ _ E)) Hcn Hnum (Hmin m r Hm Hadd) (fle_not_flt _ _ Hle)). congruence. }
    destruct best as [c|]; [|cbn [candidate_aic] in Hle; by rewrite (flt_total _ _ inf_number Hnum (inf_greatest _)) in Hle].
    destruct Hfrom as (Hadd & Hcnum & i & Hci & Hi). rewrite Nat.add_0_l in Hci. rewrite Hci.
    assert (Hbest : best_of (steps ++ [cd_result c]) = AIC (cd_result c)) by (unfold best_of; by rewrite last_snoc).
    rewrite <-Hbest. apply IH.
    + rewrite length_delete by by eexists. lia.
    + rewrite <-Hperm, <-app_assoc. f_equiv. symmetry. by apply delete_Permutation.
    + apply greedy_snoc; [done..|]. exact Hmin.
    + apply StronglySorted_snoc; [apply _|done|]. intros u Hu. unfold improves.
      assert (Hbo : best_of steps = AIC u) by (unfold best_of; by rewrite Hu). rewrite <-Hbo.
      destruct (AIC (cd_result c) <? best_of steps) eqn:E; [done|].
      cbn in Hle. by rewrite (flt_total _ _ Hcnum Hnum E) in Hle.
    + by rewrite Hbest.
Qed.
End Stepwise.

(** ** The analysis *)
Section Analysis.
Context {F : Type} `{NumOrd F} `{Gonum F} `{GonumMat F} `{NumSqrt F} `{NumLog F} `{GoInf F} {tz : TZDB} {go : GoMapOrder} `{GoSort}.
Local Open Scope num_scope.

(** C29. Forward selection descends to a local optimum, and it ends.  When the
    stepwise analysis answers, its best model is the last of its steps; each
    step is the model of the factors selected so far and adds one that no other
    factor left beats; every step has a strictly lower criterion than the one
    before, there are at most as many as factors, and adding any factor that
    was not selected to the selected ones does not lower the criterion
    further. *)
Theorem StepwiseFactorAnalysis_descends (a : Account F) (factors : DataFrame F) (aligned : alignedFactors) (r : StepwiseResult F) :
  is_nan (inf : F) = false → (∀ x : F, (inf <? x) = false) →
  alignWithFactors a factors = Ok aligned → StepwiseFactorAnalysis a factors = Ok r →
  last (Steps r) = Some (Best r) ∧
  selection (regress_on "trial" (df_metrics factors) aligned) (df_metrics factors) (Steps r).
Proof.
  intros Hinf Htop Hal. unfold StepwiseFactorAnalysis. destruct (_ =? 0)%nat; [done|]. rewrite Hal. cbn [mbind result_bind].
  destruct (stepwise _ _ _ _ _ _) as [steps|e] eqn:Hst; [|done]. cbn [mbind result_bind].
  destruct (last steps) as [best|] eqn:Hl; [|done]. intros [= <-]. cbn [Steps Best]. split; [done|].
  pose proof (sort_slice_perm string_less (df_metrics factors)) as Hperm.
  eapply (stepwise_selects Hinf Htop _ _ _ [] _ []); [| |by split|constructor|exact Hinf|exact Hst].
  - by rewrite Hperm.
  - exact Hperm.
Qed.
End Analysis.

(** ** Witness *)
Section Witness.
Local Existing Instances utc_db plain_gonum canonical_order stable_sort_slice.
Local Open Scope num_scope.
Local Instance exact_sqrt : NumSqrt xq := {| fsqrt := λ x, x |}.
(** The first term of the logarithm's series at one. *)
Local Instance first_order_log : NumLog xq := {| flog := λ x, x - 1 |}.

(** The normal equations for a line; more columns are refused. *)
Definition line_fit (rows : list (list xq)) (ys : list xq) : result (list xq) :=
  let xs := (λ row, value_at row 1) <$> rows in
  let n := of_Z (Z.of_nat (length rows)) in
  let slope := (n * fsum (zip_with fmul xs ys) - fsum xs * fsum ys) / (n * fsum (zip_with fmul xs xs) - fsum xs * fsum xs) in
  if (2 <? length (default [] (head rows)))%nat then Err "matrix singular or near-singular"%string
  else Ok [(fsum ys - slope * fsum xs) / n; slope].
Local Instance line_mat : GonumMat xq := {|
  qr_SolveVec := line_fit;
  mat_MulVec := λ rows v, (λ row, fsum (zip_with fmul row v)) <$> rows;
|}.

(** Thirteen returns alternating between 2% and 4%, and two factors: one moves
    with them, the other does not. *)
Fixpoint grown (n : nat) (x : xq) : list xq :=
  match n with O => [x] | S n => x :: grown n (x * (if Nat.even n then Fin (qfrac 51 50) else Fin (qfrac 26 25))) end.
Definition regressed_times : list Time := (λ i, day (Z.of_nat i)) <$> seq 0 14.
Definition regressed_account : Account xq :=
  set_perf_and_log (perf_frame regressed_times (grown 13 (q 100)) (replicate 14 (q 100)) (replicate 14 (q 100))) [] new_account.
Definition two_factors : DataFrame xq :=
  build regressed_times [Factor] ["MKT"; "SMB"]%string Daily
    [(λ i, if Nat.even i then q 1 else q 2) <$> seq 0 14; (λ i, q (Z.of_nat i)) <$> seq 0 14].

Definition two_aligned : alignedFactors := match alignWithFactors regressed_account two_factors with Ok al => al | Err _ => mkAligned [] [] [] end.
Definition one_step : StepwiseResult xq :=
  match StepwiseFactorAnalysis regressed_account two_factors with
  | Ok r => r
  | Err _ => mkStepwise (mkRegression 0 0 0 ∅) []
  end.

Lemma StepwiseFactorAnalysis_descends_witness :
  (length (Steps one_step) = 1)%nat ∧
  last (Steps one_step) = Some (Best one_step) ∧
  selection (regress_on "trial" (df_metrics two_factors) two_aligned) (df_metrics two_factors) (Steps one_step).
Proof.
  split; [vm_compute; reflexivity|].
  apply (StepwiseFactorAnalysis_descends regressed_account two_factors two_aligned one_step);
    [reflexivity|by intros []|vm_compute; reflexivity|vm_compute; reflexivity].
Defined.
End Witness.
