(* ===== verification/ResampleProps.v ===== *)
(** * ResampleProps: the rows resampling keeps, groups and fills

    The cursor of an upsampling loop stops at the same source row a search
    from the start would, so forward fill reads the last row at or before each
    generated time and back fill the first at or after it; the generated axis
    is finite and regular.  Downsampling cuts the rows into the maximal runs of
    one period.  Merging by time concatenates the frames in order. *)
From Stdlib Require Import ZArith Lia Sorted.
From stdpp Require Import base list gmap strings sorting.
From S2P Require Import Prelude Num GoTime Asset Period Frame FrameOps Resample Samples FrameProps.

(** ** The cursor *)

(** Where the cursor rests at [t]: every earlier row asks for more, and this
    one does not or is the last. *)
Definition rests (n : nat) (more : nat → bool) (i : nat) : Prop :=
  (i < n)%nat ∧ (∀ j, (j < i)%nat → more j = true) ∧ (S i = n ∨ more i = false).

Lemma move_cursor_rests fuel n more i :
  (i < n)%nat → (n <= fuel + i + 1)%nat → (∀ j, (j < i)%nat → more j = true) →
  rests n more (move_cursor fuel n more i).
Proof.
  revert i. induction fuel as [|fuel IH]; intros i Hi Hf Hlow; cbn [move_cursor].
  { split; [done|]. split; [done|left; lia]. }
  destruct (Nat.ltb_spec i (n - 1)) as [Hlt|Hge]; cbn [andb].
  - destruct (more i) eqn:Hm; [|by split_and!; auto]. apply IH; [lia|lia|]. intros j Hj.
    destruct (decide (j = i)) as [->|]; [done|]. apply Hlow. lia.
  - split; [done|]. split; [done|left; lia].
Qed.

Section Walk.
Context {A : Type} (times : list Time) (more : Time → nat → bool) (value : Time → nat → A).
Context (more_later : ∀ t u j, Before u t = false → more t j = true → more u j = true).

Lemma length_walk i axis : length (walk times more value i axis) = length axis.
Proof. revert i. induction axis as [|t axis IH]; intros i; cbn; [done|]. by rewrite IH. Qed.

Lemma walk_lookup axis i k t :
  times ≠ [] → StronglySorted (λ t u, Before u t = false) axis →
  (i < length times)%nat → (∀ u j, u ∈ axis → (j < i)%nat → more u j = true) →
  axis !! k = Some t →
  ∃ r, rests (length times) (more t) r ∧ walk times more value i axis !! k = Some (value t r).
Proof.
  intros Hne Hs. revert i k. induction Hs as [|u axis Hs IH Hu]; intros i k Hi Hlow Hk; [done|].
  cbn [walk]. set (r := move_cursor (length times) (length times) (more u) i).
  assert (Hr : rests (length times) (more u) r).
  { apply move_cursor_rests; [done|lia|]. intros j Hj. apply Hlow; [left|done]. }
  destruct k as [|k]; cbn in Hk |- *.
  - injection Hk as <-. by exists r.
  - apply IH; [apply Hr| |done]. intros v j Hv Hj. apply more_later with u.
    + exact (proj1 (Forall_forall _ _) Hu v Hv).
    + by apply (proj1 (proj2 Hr)).
Qed.
End Walk.

(** ** The generated axis *)
Section Axis.
Context `{TZDB}.
Implicit Types (t : Time) (freq : Frequency).

(** The step of a frequency that adds a whole number of days. *)
Definition day_step freq : option Z :=
  match freq with Daily | Tick => Some 1%Z | Weekly => Some 7%Z | _ => None end.

Lemma next_time_fixed freq t off d :
  (∀ u, zone (t_loc t) u = off) → day_step freq = Some d →
  next_time freq t = mkTime (t_ns t + d * ns_per_day) (t_loc t).
Proof. intros Hoff Hd. destruct freq; cbn in Hd; simplify_eq; by apply (AddDate_days_fixed t off). Qed.

(** [t], then a time every [d] days, [n] in all. *)
Definition every_days (d : Z) t (n : nat) : list Time :=
  (λ k, mkTime (t_ns t + Z.of_nat k * (d * ns_per_day)) (t_loc t)) <$> seq 0 n.

Lemma every_days_S d t n :
  every_days d t (S n) = t :: every_days d (mkTime (t_ns t + d * ns_per_day) (t_loc t)) n.
Proof.
  unfold every_days. cbn [seq]. rewrite <-seq_shift, fmap_cons, <-list_fmap_compose. f_equal.
  - destruct t; cbn. f_equal; lia.
  - apply list_fmap_ext. intros i k Hk. cbn [compose t_ns t_loc]. f_equal. lia.
Qed.

(** How many of them are not after [end_]. *)
Definition steps_until (d : Z) t (end_ : Time) : nat :=
  if After t end_ then 0 else S (Z.to_nat ((t_ns end_ - t_ns t) / (d * ns_per_day))).

Lemma times_loop_regular freq d off (end_ : Time) fuel t :
  (∀ u, zone (t_loc t) u = off) → day_step freq = Some d →
  (steps_until d t end_ < fuel)%nat →
  times_loop fuel freq t end_ = Some (every_days d t (steps_until d t end_)).
Proof.
  intros Hoff Hd. revert t Hoff. induction fuel as [|fuel IH]; intros t Hoff Hf; [lia|].
  assert (Hpos : (0 < d * ns_per_day)%Z) by (destruct freq; cbn in Hd; simplify_eq; unfold ns_per_day, secs_per_day, ns_per_sec; lia).
  cbn [times_loop]. unfold steps_until, After in *. destruct (Z.ltb_spec (t_ns end_) (t_ns t)); [done|].
  rewrite (next_time_fixed freq t off d) by done. set (t' := mkTime _ _).
  assert (E : Z.to_nat ((t_ns end_ - t_ns t) / (d * ns_per_day)) = steps_until d t' end_).
  { unfold steps_until, After, t'. cbn [t_ns].
    replace (t_ns end_ - (t_ns t + d * ns_per_day))%Z with (t_ns end_ - t_ns t + (-1) * (d * ns_per_day))%Z by lia.
    rewrite Z.div_add by lia. destruct (Z.ltb_spec (t_ns end_) (t_ns t + d * ns_per_day)).
    - rewrite Z.div_small by lia. done.
    - assert (1 <= (t_ns end_ - t_ns t) / (d * ns_per_day))%Z by (apply Z.div_le_lower_bound; lia). lia. }
  rewrite E, every_days_S. fold t'. rewrite IH; [done|done|]. unfold steps_until, After in E. unfold t' in *. cbn [t_ns t_loc] in *.
  rewrite E in Hf. unfold steps_until, After. cbn [t_ns]. lia.
Qed.

Lemma every_days_sorted d t n :
  (0 < d)%Z → StronglySorted (λ t u, Before u t = false) (every_days d t n).
Proof.
  intros Hd. revert t. induction n as [|n IH]; intros t; [constructor|].
  rewrite every_days_S. constructor; [apply IH|]. apply Forall_fmap, Forall_forall. intros k _.
  assert (0 <= Z.of_nat k * (d * ns_per_day))%Z by (unfold ns_per_day, secs_per_day, ns_per_sec; lia).
  assert (0 <= d * ns_per_day)%Z by (unfold ns_per_day, secs_per_day, ns_per_sec; lia).
  unfold Before. cbn [compose t_ns]. lia.
Qed.

Lemma every_days_from d t n u : (0 < d)%Z → u ∈ every_days d t n → Before u t = false.
Proof.
  intros Hd (k & -> & _)%list_elem_of_fmap.
  assert (0 <= Z.of_nat k * (d * ns_per_day))%Z by (unfold ns_per_day, secs_per_day, ns_per_sec; lia).
  unfold Before. cbn [t_ns]. lia.
Qed.
End Axis.

(** ** Filling gaps *)
Section Fill.
Context {F : Type} `{Num F} `{TZDB}.
Implicit Types (df r : DataFrame F) (t u v : Time) (col : list F).

Lemma every_days_until d t (end_ : Time) u :
  (0 < d)%Z → u ∈ every_days d t (steps_until d t end_) → Before end_ u = false.
Proof.
  intros Hd (k & -> & Hk)%list_elem_of_fmap. apply elem_of_seq in Hk as [_ Hk]. unfold steps_until, After, Before in *.
  assert (0 < d * ns_per_day)%Z by (unfold ns_per_day, secs_per_day, ns_per_sec; lia).
  destruct (Z.ltb_spec (t_ns end_) (t_ns t)); [lia|]. cbn [t_ns].
  assert (Hq : (Z.of_nat k <= (t_ns end_ - t_ns t) / (d * ns_per_day))%Z).
  { enough (0 <= (t_ns end_ - t_ns t) / (d * ns_per_day))%Z by lia. apply Z.div_pos; lia. }
  pose proof (Z.mul_div_le (t_ns end_ - t_ns t) (d * ns_per_day) ltac:(lia)).
  assert (Z.of_nat k * (d * ns_per_day) <= (t_ns end_ - t_ns t) / (d * ns_per_day) * (d * ns_per_day))%Z
    by (apply Z.mul_le_mono_nonneg_r; lia). lia.
Qed.

(** What the upsampling loops need of the frame and the frequency. *)
Record upsampled (fuel : nat) df (freq : Frequency) (off d : Z) : Prop := {
  up_shape : frame_shape df;
  up_sorted : sorted_times df;
  up_rows : df_times df ≠ [];
  up_zone : ∀ s, zone (t_loc (Start df)) s = off;
  up_step : day_step freq = Some d;
  up_fuel : (steps_until d (Start df) (End df) < fuel)%nat;
}.
Definition new_axis df (d : Z) : list Time := every_days d (Start df) (steps_until d (Start df) (End df)).

Lemma day_step_pos freq d : day_step freq = Some d → (0 < d)%Z.
Proof. destruct freq; cbn; intros; simplify_eq; lia. Qed.

Lemma generateTimes_regular fuel df freq off d :
  upsampled fuel df freq off d → generateTimes fuel df freq = Some (new_axis df d).
Proof.
  intros Hu. unfold generateTimes, new_axis. destruct (Nat.ltb_spec (length (df_times df)) 2) as [Hlt|Hge].
  - pose proof (up_rows _ _ _ _ _ Hu) as Hne. destruct (df_times df) as [|t [|]] eqn:E; [done| |cbn in Hlt; lia].
    unfold Start, End. rewrite E. cbn [head last default from_option]. unfold steps_until, After.
    rewrite Z.ltb_irrefl, Z.sub_diag, Z.div_0_l by (pose proof (day_step_pos _ _ (up_step _ _ _ _ _ Hu)); unfold ns_per_day, secs_per_day, ns_per_sec; lia).
    cbn. destruct t; cbn. by rewrite Z.add_0_r.
  - apply (times_loop_regular freq d off); apply Hu.
Qed.

Definition fill_with (more : list Time → Time → nat → bool) (times : list Time) col (axis : list Time) : list F :=
  walk times (more times) (λ _ i, default (of_Z 0) (col !! i)) 0 axis.

Lemma upsample_cells (more : list Time → Time → nat → bool) fuel df freq off d :
  (∀ t u j, Before u t = false → more (df_times df) t j = true → more (df_times df) u j = true) →
  upsampled fuel df freq off d →
  ∃ r, upsample fuel df freq (fill_with more) = Some r ∧ frame_shape r ∧ df_times r = new_axis df d ∧
    ∀ k t, df_times r !! k = Some t →
      Before t (Start df) = false ∧ Before (End df) t = false ∧
      ∃ i, rests (length (df_times df)) (more (df_times df) t) i ∧
        ∀ c col, df_columns df !! c = Some col →
          ∃ col' x, df_columns r !! c = Some col' ∧ col' !! k = Some x ∧ col !! i = Some x.
Proof.
  intros Hmore Hu. pose proof (day_step_pos _ _ (up_step _ _ _ _ _ Hu)) as Hd.
  pose proof (up_rows _ _ _ _ _ Hu) as Hne. pose proof (up_shape _ _ _ _ _ Hu) as Hs.
  unfold upsample. rewrite (generateTimes_regular _ _ _ _ _ Hu). destruct (df_times df) as [|t0 ts] eqn:E; [done|].
  rewrite <-E in *. clear E t0 ts. cbn [fmap option_fmap option_map]. eexists. split; [reflexivity|]. split.
  { split; cbn; [done|by rewrite length_fmap; apply Hs| |done]. apply Forall_fmap, Forall_forall. intros col _.
    apply length_walk. }
  split; [done|]. cbn [set_rates build df_times df_columns]. intros k t Hk.
  pose proof (list_elem_of_lookup_2 _ _ _ Hk) as Hin. split; [by eapply every_days_from|].
  split; [by eapply every_days_until|].
  assert (Hw : ∀ A (value : Time → nat → A), ∃ i, rests (length (df_times df)) (more (df_times df) t) i ∧
    walk (df_times df) (more (df_times df)) value 0 (new_axis df d) !! k = Some (value t i)).
  { intros A value. apply walk_lookup; [done|done|by apply every_days_sorted| |lia|done].
    destruct (df_times df); [done|cbn; lia]. }
  destruct (Hw nat (λ _ i, i)) as (i & Hi & _). exists i. split; [done|]. intros c col Hc.
  rewrite list_lookup_fmap, Hc. cbn. eexists _, (default (of_Z 0) (col !! i)). split; [reflexivity|].
  assert (Hcol : length col = length (df_times df)) by exact (Forall_lookup_1 _ _ _ _ (fs_rows _ Hs) Hc).
  destruct (lookup_lt_is_Some_2 col i) as [x Hx]; [rewrite Hcol; apply Hi|]. rewrite Hx. cbn. split; [|done].
  destruct (Hw F (λ _ i, default (of_Z 0) (col !! i))) as (i' & Hi' & Hl). unfold fill_with. rewrite Hl. f_equal.
  assert (i' = i) as ->; [|by rewrite Hx].
  destruct Hi as (Hi1 & Hi2 & Hi3), Hi' as (Hi1' & Hi2' & Hi3').
  destruct (Nat.lt_trichotomy i i') as [Hlt|[<-|Hlt]]; [|done|].
  - specialize (Hi2' i Hlt). destruct Hi3 as [?|Hi3]; [lia|congruence].
  - specialize (Hi2 i' Hlt). destruct Hi3' as [?|Hi3']; [lia|congruence].
Qed.

Lemma sorted_before df i j u v :
  sorted_times df → df_times df !! i = Some u → df_times df !! j = Some v → (i < j)%nat → Before u v = true.
Proof. intros Hs Hi Hj Hij. exact (sorted_lookup_lt _ _ i j u v Hs Hij Hi Hj). Qed.

Lemma Start_lookup df u : df_times df !! 0%nat = Some u → Start df = u.
Proof. unfold Start. destruct (df_times df); [done|]. by intros [= ->]. Qed.
Lemma End_lookup df i u : df_times df !! i = Some u → S i = length (df_times df) → End df = u.
Proof. intros Hi Hl. unfold End. rewrite last_lookup, <-Hl. cbn. by rewrite Hi. Qed.
End Fill.

(** ** Groups *)
Section Groups.
Context `{TZDB}.
Implicit Types (times rest : list Time) (freq : Frequency).

(** Rows [j - 1] and [j] lie in different periods. *)
Definition changes_at freq times (j : nat) : bool :=
  match times !! (j - 1)%nat, times !! j with
  | Some prev, Some curr => periodChanged prev curr freq
  | _, _ => false
  end.

(** A nonempty run of rows of one period that starts where the period changes. *)
Record run_of freq times (g : nat * nat) : Prop := {
  run_nonempty : (g.1 < g.2 <= length times)%nat;
  run_same : ∀ j, (g.1 < j < g.2)%nat → changes_at freq times j = false;
  run_starts : (0 < g.1)%nat → changes_at freq times g.1 = true;
}.

(** The groups follow each other from index [a] to index [b]. *)
Fixpoint chain (a b : nat) (gs : list (nat * nat)) : Prop :=
  match gs with
  | [] => a = b
  | g :: gs => g.1 = a ∧ chain g.2 b gs
  end.

Lemma group_ends_runs freq times start i prev rest :
  drop i times = rest → times !! (i - 1)%nat = Some prev → (start < i <= length times)%nat →
  (∀ j, (start < j < i)%nat → changes_at freq times j = false) →
  ((0 < start)%nat → changes_at freq times start = true) →
  Forall (run_of freq times) (group_ends freq start i prev rest) ∧
  chain start (length times) (group_ends freq start i prev rest).
Proof.
  revert start i prev. induction rest as [|t rest IH]; intros start i prev Hd Hp Hi Hsame Hst; cbn.
  { apply (f_equal length) in Hd. rewrite length_drop in Hd. cbn in Hd. split; [|split; [done|lia]].
    constructor; [|done]. split; cbn; [lia|done|done]. }
  assert (Ht : times !! i = Some t) by (rewrite <-(Nat.add_0_r i), <-lookup_drop, Hd; done).
  assert (Hc : changes_at freq times i = periodChanged prev t freq) by (unfold changes_at; by rewrite Hp, Ht).
  assert (Hd' : drop (S i) times = rest) by (rewrite <-Nat.add_1_r, <-drop_drop, Hd; done).
  pose proof (lookup_lt_Some _ _ _ Ht). assert (Ht' : times !! (S i - 1)%nat = Some t) by (by rewrite Nat.sub_succ, Nat.sub_0_r).
  destruct (periodChanged prev t freq).
  - destruct (IH i (S i) t) as [Hr Hch]; try done; [lia|intros; lia|]. split; [|done].
    constructor; [|done]. split; cbn; [lia|done|done].
  - apply IH; try done; [lia|]. intros j Hj. destruct (decide (j = i)) as [->|]; [done|]. apply Hsame; lia.
Qed.

Lemma groups_runs freq times :
  times ≠ [] →
  Forall (run_of freq times) (groups_of_times freq times) ∧ chain 0 (length times) (groups_of_times freq times).
Proof.
  destruct times as [|t rest] eqn:E; [done|]. intros _. rewrite <-E. unfold groups_of_times. rewrite E.
  apply group_ends_runs; subst; cbn; [done|done|lia|intros; lia|lia].
Qed.

Lemma slice_split {A} (a b c : nat) (l : list A) :
  (a <= b <= c)%nat → slice a b l ++ slice b c l = slice a c l.
Proof.
  intros Hb. unfold slice. replace (drop b l) with (drop (b - a) (drop a l)) by (rewrite drop_drop; f_equal; lia).
  rewrite take_take_drop. f_equal. lia.
Qed.

Lemma chain_slices {A} (l : list A) a b gs :
  chain a b gs → Forall (λ g : nat * nat, g.1 <= g.2)%nat gs →
  (a <= b)%nat ∧ mjoin ((λ g : nat * nat, slice g.1 g.2 l) <$> gs) = slice a b l.
Proof.
  revert a. induction gs as [|[i j] gs IH]; intros a Hch Hle; cbn in *.
  { subst. split; [lia|]. unfold slice. by rewrite Nat.sub_diag. }
  destruct Hch as [<- Hch]. apply Forall_cons in Hle as [Hij Hle]. cbn in Hij.
  destruct (IH _ Hch Hle) as [Hjb Heq]. split; [lia|].
  change (slice i j l ++ mjoin ((λ g : nat * nat, slice g.1 g.2 l) <$> gs) = slice i b l).
  rewrite Heq. by apply slice_split.
Qed.

(** Cutting a list as long as the time axis into its groups loses nothing. *)
Lemma groups_cover {A} freq times (l : list A) :
  times ≠ [] → length l = length times →
  mjoin ((λ g : nat * nat, slice g.1 g.2 l) <$> groups_of_times freq times) = l.
Proof.
  intros Hne Hl. destruct (groups_runs freq times Hne) as [Hr Hch].
  destruct (chain_slices l _ _ _ Hch) as [_ ->].
  - eapply Forall_impl; [exact Hr|]. intros g Hg. pose proof (run_nonempty _ _ _ Hg). lia.
  - unfold slice. rewrite drop_0, Nat.sub_0_r, <-Hl. by rewrite take_ge by lia.
Qed.
End Groups.

(** ** Merging by time *)
Section MergeTimes.
Context {F : Type} `{Num F} `{TZDB} `{GoSort}.
Implicit Types (df f g r : DataFrame F) (fs : list (DataFrame F)).

(** A frame with rows, columns for the assets [A] and metrics [M], increasing
    times and, when it has risk-free rates, one per row. *)
Record part (A : list Asset) (M : list Metric) f : Prop := {
  part_shape : frame_shape f;
  part_sorted : sorted_times f;
  part_assets : df_assets f = A;
  part_metrics : df_metrics f = M;
  part_rates : ∀ rf, df_riskFreeRates f = Some rf → length rf = length (df_times f);
}.

Definition overlapping f g : Prop := Before (End f) (Start g) = false ∧ Before (End g) (Start f) = false.

Lemma Len_pos f : (0 <? Len f)%nat = true ↔ ∃ u, df_times f !! 0%nat = Some u.
Proof.
  unfold Len. destruct (df_times f); cbn; split; try done; [by intros [? ?]|eauto].
Qed.

Lemma part_bounds A M f u :
  part A M f → u ∈ df_times f → Before u (Start f) = false ∧ Before (End f) u = false.
Proof.
  intros Hp (i & Hi)%list_elem_of_lookup. pose proof (part_sorted _ _ _ Hp) as Hs.
  pose proof (lookup_lt_Some _ _ _ Hi) as Hlt. split.
  - destruct (lookup_lt_is_Some_2 (df_times f) 0%nat) as [s Hst]; [lia|]. rewrite (Start_lookup _ _ Hst).
    destruct i as [|i]; [simplify_eq; apply Before_irrefl|].
    pose proof (sorted_before f 0 (S i) s u Hs Hst Hi ltac:(lia)). unfold Before in *. lia.
  - destruct (lookup_lt_is_Some_2 (df_times f) (length (df_times f) - 1)%nat) as [e He]; [lia|].
    rewrite (End_lookup _ _ _ He) by lia. destruct (decide (i = length (df_times f) - 1)%nat) as [->|Hne].
    + simplify_eq. apply Before_irrefl.
    + pose proof (sorted_before f i _ u e Hs Hi He ltac:(lia)). unfold Before in *. lia.
Qed.

Lemma part_start_end A M f : part A M f → (0 <? Len f)%nat = true → Before (End f) (Start f) = false.
Proof.
  intros Hp (u & Hu)%Len_pos. rewrite (Start_lookup _ _ Hu). apply (part_bounds _ _ _ _ Hp).
  by eapply list_elem_of_lookup_2.
Qed.

(** Consecutive frames that do not overlap have increasing times. *)
Lemma no_overlap_sorted A M fs :
  Forall (part A M) fs → Forall (λ f, (0 <? Len f)%nat = true) fs →
  existsb overlap_at (zip fs (tail fs)) = false →
  StronglySorted (λ u v, Before u v = true) (mjoin (df_times <$> fs)) ∧
  ∀ f u, head fs = Some f → u ∈ mjoin (df_times <$> tail fs) → Before (End f) u = true.
Proof.
  induction 1 as [|f fs Hf Hfs IH]; intros Hne Hov; [split; [constructor|done]|].
  apply Forall_cons in Hne as [Hnf Hne].
  assert (Hov' : existsb overlap_at (zip fs (tail fs)) = false).
  { destruct fs as [|g fs]; [done|]. cbn in Hov. by apply orb_false_iff in Hov as [_ Hov]. }
  destruct (IH Hne Hov') as [Hs Hafter].
  assert (Hall : ∀ u, u ∈ mjoin (df_times <$> fs) → Before (End f) u = true).
  { destruct fs as [|g fs]; [intros u []%not_elem_of_nil|]. intros u Hu.
    cbn in Hov. apply orb_false_iff in Hov as [Hfg _]. unfold overlap_at, After in Hfg. cbn in Hfg.
    apply negb_false_iff in Hfg. apply Forall_cons in Hfs as [Hg _]. apply Forall_cons in Hne as [Hng _].
    change (u ∈ df_times g ++ mjoin (df_times <$> fs)) in Hu. apply elem_of_app in Hu as [Hu|Hu].
    - destruct (part_bounds _ _ _ _ Hg Hu) as [Hu' _]. unfold Before in *. lia.
    - specialize (Hafter g u eq_refl Hu). pose proof (part_start_end _ _ _ Hg Hng). unfold Before in *. lia. }
  split; [|by intros ? u [= <-] Hu; apply Hall].
  apply StronglySorted_app_2; [|apply Hf|done]. intros u v Hu Hv.
  destruct (part_bounds _ _ _ _ Hf Hu) as [_ Hu']. specialize (Hall v Hv). unfold Before in *. lia.
Qed.

Lemma column_or_zeros_length A M f am :
  part A M f → am ∈ cells f → NoDup (CompositeFigi <$> A) → NoDup M →
  column_or_zeros f am = Column f am.1 am.2 ∧ length (column_or_zeros f am) = length (df_times f).
Proof.
  intros Hp Hin Ha Hm. pose proof (part_shape _ _ _ Hp) as Hs. unfold cells in Hin.
  apply list_elem_of_In, in_flat_map in Hin as (a & Hina & Hinm). apply list_elem_of_In in Hina, Hinm.
  apply list_elem_of_fmap in Hinm as (m & -> & Hinm). cbn.
  apply list_elem_of_lookup in Hina as (ai & Hai), Hinm as (mi & Hmi).
  rewrite <-(part_assets _ _ _ Hp) in Ha. rewrite <-(part_metrics _ _ _ Hp) in Hm.
  pose proof (lookup_lt_Some _ _ _ Hai). pose proof (lookup_lt_Some _ _ _ Hmi).
  destruct (lookup_lt_is_Some_2 (df_columns f) (colIdx f ai mi)) as [col Hcol].
  { rewrite (fs_columns _ Hs). unfold colIdx. nia. }
  destruct (stored_column f a a m ai mi col Hs Ha Hm Hai eq_refl Hmi Hcol) as (E1 & E2 & E3).
  unfold column_or_zeros, Column. cbn. rewrite (fs_err _ Hs), E1, E2, E3. split; [done|].
  exact (Forall_lookup_1 _ _ _ _ (fs_rows _ Hs) Hcol).
Qed.

Lemma all_rates_length A M fs rates :
  Forall (part A M) fs → all_rates fs = Some rates → length rates = length (mjoin (df_times <$> fs)).
Proof.
  intros Hfs. revert rates. induction Hfs as [|f fs Hf Hfs IH]; intros rates Hr; cbn in Hr; [by simplify_eq|].
  destruct (df_riskFreeRates f) as [rf|] eqn:E; [|done]. destruct (all_rates fs) as [rs|]; [|done]. simplify_eq.
  change (length (rf ++ rs) = length (df_times f ++ mjoin (df_times <$> fs))).
  rewrite !length_app, (IH rs eq_refl). by rewrite (part_rates _ _ _ Hf _ E).
Qed.

Lemma length_cells f : length (cells f) = (length (df_assets f) * length (df_metrics f))%nat.
Proof.
  unfold cells. induction (df_assets f) as [|a l IH]; cbn; [done|]. by rewrite length_app, length_fmap, IH.
Qed.

Lemma cells_lookup f ai mi a m :
  df_assets f !! ai = Some a → df_metrics f !! mi = Some m →
  cells f !! (ai * length (df_metrics f) + mi)%nat = Some (a, m).
Proof.
  intros Ha Hm. unfold cells. revert ai Ha. induction (df_assets f) as [|b l IH]; intros ai Ha; [done|].
  cbn. pose proof (lookup_lt_Some _ _ _ Hm). destruct ai as [|ai]; cbn in *.
  - simplify_eq. rewrite lookup_app_l by (rewrite length_fmap; done). by rewrite list_lookup_fmap, Hm.
  - rewrite lookup_app_r by (rewrite length_fmap; lia). rewrite length_fmap.
    replace (length (df_metrics f) + ai * length (df_metrics f) + mi - length (df_metrics f))%nat
      with (ai * length (df_metrics f) + mi)%nat by lia. by apply IH.
Qed.

Lemma cells_same A M f g : part A M f → part A M g → cells f = cells g.
Proof.
  intros Hf Hg. unfold cells. by rewrite (part_assets _ _ _ Hf), (part_metrics _ _ _ Hf), (part_assets _ _ _ Hg), (part_metrics _ _ _ Hg).
Qed.

Lemma length_mjoin_same {A C E} (h : A → list C) (k : A → list E) (l : list A) :
  Forall (λ x, length (h x) = length (k x)) l → length (mjoin (h <$> l)) = length (mjoin (k <$> l)).
Proof.
  induction 1 as [|x l Hx _ IH]; [done|]. change (length (h x ++ mjoin (h <$> l)) = length (k x ++ mjoin (k <$> l))).
  by rewrite !length_app, Hx, IH.
Qed.

(** The concatenation of the frames, with the schema of the first. *)
Definition concatenation f fs : DataFrame F :=
  set_rates (all_rates fs)
    (build (mjoin (df_times <$> fs)) (df_assets f) (df_metrics f) (df_freq f)
       ((λ am, mjoin ((λ g, column_or_zeros g am) <$> fs)) <$> cells f)).

Lemma concat_frames_spec A M f fs :
  Forall (part A M) (f :: fs) → NoDup (CompositeFigi <$> A) → NoDup M →
  concat_frames (f :: fs) = Ok (concatenation f (f :: fs)) ∧ frame_shape (concatenation f (f :: fs)).
Proof.
  intros Hfs Ha Hm. set (all := f :: fs) in *. assert (Hf : part A M f) by (unfold all in Hfs; by apply Forall_cons in Hfs as [? _]).
  assert (Hrows : ∀ am, am ∈ cells f →
    length (mjoin ((λ g, column_or_zeros g am) <$> all)) = length (mjoin (df_times <$> all))).
  { intros am Hin. apply length_mjoin_same. eapply Forall_impl; [exact Hfs|]. intros g Hg. cbn.
    eapply column_or_zeros_length; [exact Hg| |done|done]. by rewrite <-(cells_same A M f g). }
  assert (Hshape : frame_shape (concatenation f all)).
  { split; cbn; [done|by rewrite length_fmap, length_cells| |done]. by apply Forall_fmap, Forall_forall. }
  split; [|done]. pose proof (all_rates_length A M all) as Hrates.
  change (concat_frames all) with (match NewDataFrame (mjoin (df_times <$> all)) (df_assets f) (df_metrics f)
      (df_freq f) ((λ am, mjoin ((λ g, column_or_zeros g am) <$> all)) <$> cells f) with
    | Err e => Err e
    | Ok r => match all_rates all with None => Ok r | Some rates =>
        match SetRiskFreeRates r rates with Ok r => Ok r
        | Err e => Err ("concat: set risk-free rates: " +:+ e)%string end end end).
  unfold NewDataFrame. set (cols := _ <$> cells f).
  assert (Hlen : length cols = (length (df_assets f) * length (df_metrics f))%nat) by (unfold cols; by rewrite length_fmap, length_cells).
  assert (Hcols : (if (length (mjoin (df_times <$> all)) =? 0)%nat && (length cols =? 0)%nat
    then replicate (length (df_assets f) * length (df_metrics f)) [] else cols) = cols).
  { destruct (Nat.eqb_spec (length cols) 0) as [E|]; [|by rewrite andb_false_r]. rewrite andb_true_r.
    destruct (_ =? 0)%nat; [|done]. rewrite <-Hlen, E. symmetry. by apply nil_length_inv. }
  rewrite Hcols, Hlen, Nat.eqb_refl. cbn [negb].
  replace (existsb _ cols) with false.
  2:{ symmetry. apply not_true_is_false. intros (col & Hin & Hneq)%existsb_exists. apply list_elem_of_In in Hin.
      unfold cols in Hin. apply list_elem_of_fmap in Hin as (am & -> & Hin). apply Hrows in Hin.
      apply negb_true_iff, Nat.eqb_neq in Hneq. done. }
  unfold concatenation. fold cols. destruct (all_rates all) as [rates|] eqn:E; [|done].
  unfold SetRiskFreeRates. cbn [df_times build]. rewrite (Hrates rates Hfs eq_refl), Nat.eqb_refl. done.
Qed.

Lemma sorted_by_start fs :
  StronglySorted (λ f g, Before (Start g) (Start f) = false) (sort_slice (λ f g, Before (Start f) (Start g)) fs).
Proof.
  eapply StronglySorted_mono; [|apply sort_slice_sorted].
  - intros f g Hfg. exact Hfg.
  - unfold Before. intros f g. lia.
  - intros f g h. apply not_Before_trans.
Qed.

Lemma MergeTimes_spec A M (frames : list (DataFrame F)) :
  Forall (part A M) frames → NoDup (CompositeFigi <$> A) → NoDup M →
  let full := keep (λ f, (0 <? Len f)%nat) frames in
  (2 <= length full)%nat →
  ∃ sorted, sorted ≡ₚ full ∧
    match MergeTimes frames with
    | Ok r =>
        frame_shape r ∧ sorted_times r ∧ df_assets r = A ∧ df_metrics r = M ∧
        df_times r = mjoin (df_times <$> sorted) ∧
        ∀ a m, a ∈ A → m ∈ M → Column r a m = mjoin ((λ f, Column f a m) <$> sorted)
    | Err _ => ∃ i j f g, (i < j)%nat ∧ sorted !! i = Some f ∧ sorted !! j = Some g ∧ overlapping f g
    end.
Proof.
  intros Hfs Ha Hm. cbn zeta. intros H2.
  set (full := keep _ frames) in *. set (sorted := sort_slice (λ f g, Before (Start f) (Start g)) full).
  assert (Hperm : sorted ≡ₚ full) by apply sort_slice_perm. exists sorted. split; [done|].
  assert (Hparts : Forall (part A M) sorted).
  { rewrite Hperm. apply Forall_forall. intros f (_ & Hin)%elem_of_keep. by apply (proj1 (Forall_forall _ _) Hfs). }
  assert (Hne : Forall (λ f, (0 <? Len f)%nat = true) sorted).
  { rewrite Hperm. apply Forall_forall. by intros f (Hl & _)%elem_of_keep. }
  assert (E : MergeTimes frames =
    if existsb overlap_at (zip sorted (tail sorted)) then Err "MergeTimes: overlapping time ranges"%string
    else concat_frames sorted).
  { unfold MergeTimes. fold full. destruct frames as [|f [|g frames]]; [cbn in H2; lia| |].
    - unfold full in H2. rewrite keep_cons in H2. destruct (0 <? Len f)%nat; cbn in H2; lia.
    - destruct full as [|f1 [|f2 full']] eqn:Efull; [cbn in H2; lia|cbn in H2; lia|]. reflexivity. }
  rewrite E. clear E. destruct (existsb overlap_at (zip sorted (tail sorted))) eqn:Hov.
  - apply existsb_exists in Hov as ([f g] & Hin & Hfg). apply list_elem_of_In, list_elem_of_lookup in Hin as (i & Hi).
    apply lookup_zip_with_Some in Hi as (f' & g' & [= <- <-] & Hf & Hg). rewrite lookup_tail in Hg.
    exists i, (S i), f, g. split; [lia|]. split_and!; [done|done|split].
    + unfold overlap_at, After in Hfg. cbn in Hfg. by apply negb_true_iff in Hfg.
    + pose proof (sorted_lookup_lt _ _ i (S i) f g (sorted_by_start full) ltac:(lia) Hf Hg) as Hle. cbn in Hle.
      pose proof (part_start_end A M g (Forall_lookup_1 _ _ _ _ Hparts Hg) (Forall_lookup_1 _ _ _ _ Hne Hg)).
      unfold Before in *. lia.
  - destruct (no_overlap_sorted A M sorted Hparts Hne Hov) as [Hst _].
    destruct sorted as [|f fs]; [by apply Permutation_nil_l in Hperm; rewrite <-Hperm in H2; cbn in H2; lia|].
    pose proof (proj1 (Forall_cons _ _ _) Hparts) as [Hf _].
    destruct (concat_frames_spec A M f fs Hparts Ha Hm) as [-> Hshape].
    pose proof (part_assets _ _ _ Hf) as EA. pose proof (part_metrics _ _ _ Hf) as EM.
    split_and!; [done|done|done|done|done|]. intros a m Hina Hinm.
    apply list_elem_of_lookup in Hina as (ai & Hai), Hinm as (mi & Hmi). rewrite <-EA in Hai. rewrite <-EM in Hmi.
    pose proof (cells_lookup f ai mi a m Hai Hmi) as Hcell.
    set (r := concatenation f (f :: fs)) in *.
    assert (Hcol : df_columns r !! colIdx r ai mi = Some (mjoin ((λ g, column_or_zeros g (a, m)) <$> f :: fs))).
    { unfold r, concatenation, colIdx. cbn [df_columns df_metrics set_rates build]. by rewrite list_lookup_fmap, Hcell. }
    rewrite <-EA in Ha. rewrite <-EM in Hm.
    destruct (stored_column r a a m ai mi _ Hshape Ha Hm Hai eq_refl Hmi Hcol) as (E1 & E2 & E3).
    unfold Column at 1. rewrite (fs_err _ Hshape), E1, E2, E3. f_equal. apply list_fmap_ext. intros k g Hk.
    destruct (column_or_zeros_length A M g (a, m)) as [Hcz _]; [by eapply Forall_lookup_1| |by rewrite <-EA|by rewrite <-EM|done].
    rewrite (cells_same A M g f); [by eapply list_elem_of_lookup_2|by eapply Forall_lookup_1|done].
Qed.
End MergeTimes.

Section Properties.
Context {F : Type} `{Num F} `{TZDB}.
Implicit Types (df r : DataFrame F) (t u v : Time) (col : list F).

(** Upsampling to daily or weekly rows terminates in a zone of constant
    offset.  The new rows run from the first source row, one step apart, up to
    the last.  In every column, forward fill reads the last source row at or
    before the new row, and back fill the first source row at or after it. *)
Theorem Upsample_fills fuel df freq off d :
  upsampled fuel df freq off d →
  ∃ r r', ForwardFill fuel df freq = Some r ∧ BackFill fuel df freq = Some r' ∧
    frame_shape r ∧ frame_shape r' ∧ df_times r = new_axis df d ∧ df_times r' = new_axis df d ∧
    ∀ k t, new_axis df d !! k = Some t →
      (∃ i u, df_times df !! i = Some u ∧ Before t u = false ∧
         (∀ j v, (i < j)%nat → df_times df !! j = Some v → Before t v = true) ∧
         ∀ c col, df_columns df !! c = Some col →
           ∃ col' x, df_columns r !! c = Some col' ∧ col' !! k = Some x ∧ col !! i = Some x) ∧
      (∃ i u, df_times df !! i = Some u ∧ Before u t = false ∧
         (∀ j v, (j < i)%nat → df_times df !! j = Some v → Before v t = true) ∧
         ∀ c col, df_columns df !! c = Some col →
           ∃ col' x, df_columns r' !! c = Some col' ∧ col' !! k = Some x ∧ col !! i = Some x).
Proof.
  intros Hu. pose proof (up_sorted _ _ _ _ _ Hu) as Hs.
  destruct (upsample_cells (λ times t i, negb (After (time_at times (S i)) t)) fuel df freq off d)
    as (r & Hr & Hsh & Ht & Hcells); [|done|].
  { intros t u j Hbe. unfold After, Before in *. rewrite !negb_true_iff. lia. }
  destruct (upsample_cells (λ times t i, Before (time_at times i) t) fuel df freq off d)
    as (r' & Hr' & Hsh' & Ht' & Hcells'); [|done|].
  { intros t u j Hbe. unfold Before in *. lia. }
  exists r, r'. split; [done|]. split; [done|]. split_and!; try done. intros k t Hk. split.
  - rewrite <-Ht in Hk. destruct (Hcells k t Hk) as (Hge & _ & i & (Hi & Hlow & Hstop) & Hcol).
    destruct (lookup_lt_is_Some_2 _ _ Hi) as [u Hiu]. exists i, u. split; [done|]. split_and!; [| |done].
    + destruct i as [|i]; [by rewrite <-(Start_lookup _ _ Hiu)|]. specialize (Hlow i ltac:(lia)).
      unfold time_at in Hlow. rewrite Hiu in Hlow. unfold After, Before in *. cbn in Hlow. by apply negb_true_iff in Hlow.
    + intros j v Hij Hj. pose proof (lookup_lt_Some _ _ _ Hj). destruct Hstop as [?|Hstop]; [lia|].
      destruct (lookup_lt_is_Some_2 (df_times df) (S i)) as [w Hw]; [lia|]. unfold time_at in Hstop. rewrite Hw in Hstop.
      cbn in Hstop. apply negb_false_iff in Hstop. destruct (decide (S i = j)) as [<-|Hne]; [by simplify_eq|].
      apply Before_trans with w; [done|]. eapply sorted_before; [done..|lia].
  - rewrite <-Ht' in Hk. destruct (Hcells' k t Hk) as (_ & Hle & i & (Hi & Hlow & Hstop) & Hcol).
    destruct (lookup_lt_is_Some_2 _ _ Hi) as [u Hiu]. exists i, u. split; [done|]. split_and!; [| |done].
    + destruct Hstop as [Hl|Hstop]; [by rewrite <-(End_lookup _ _ _ Hiu Hl)|]. unfold time_at in Hstop.
      by rewrite Hiu in Hstop.
    + intros j v Hj Hjv. specialize (Hlow j Hj). unfold time_at in Hlow. by rewrite Hjv in Hlow.
Qed.
(** Downsampling cuts the rows into the maximal runs of one period: the
    runs follow each other without gap or overlap, every column is the
    concatenation of its runs, and the result has one row per run, stamped
    with the run's last time and holding the reduction of the run. *)
Theorem Downsample_partitions df freq (reducer : list F → F) :
  frame_shape df → df_times df ≠ [] →
  let gs := groups_of_times freq (df_times df) in
  let r := aggregate df freq reducer in
  frame_shape r ∧ length (df_times r) = length gs ∧
  Forall (run_of freq (df_times df)) gs ∧
  (∀ c col, df_columns df !! c = Some col →
     mjoin ((λ g : nat * nat, slice g.1 g.2 col) <$> gs) = col ∧
     df_columns r !! c = Some ((λ g : nat * nat, reducer (slice g.1 g.2 col)) <$> gs)) ∧
  ∀ k g, gs !! k = Some g → df_times r !! k = df_times df !! (g.2 - 1)%nat.
Proof.
  intros Hs Hne. cbn zeta. destruct (groups_runs freq (df_times df) Hne) as [Hr Hch].
  assert (E : aggregate df freq reducer =
    let groups := groups_of_times freq (df_times df) in
    set_rates ((λ rf, group_last (of_Z 0) rf <$> groups) <$> df_riskFreeRates df)
      (build (group_last zero_time (df_times df) <$> groups) (df_assets df) (df_metrics df) freq
        ((λ col, (λ g : nat * nat, reducer (slice g.1 g.2 col)) <$> groups) <$> df_columns df))).
  { unfold aggregate. by destruct (df_times df). }
  rewrite E. clear E. cbn. split_and!.
  - split; cbn; [done|by rewrite length_fmap; apply Hs| |done]. apply Forall_fmap, Forall_forall. intros col _.
    cbn. by rewrite !length_fmap.
  - by rewrite length_fmap.
  - done.
  - intros c col Hc. split; [|by rewrite list_lookup_fmap, Hc].
    apply groups_cover; [done|]. exact (Forall_lookup_1 _ _ _ _ (fs_rows _ Hs) Hc).
  - intros k g Hk. rewrite list_lookup_fmap, Hk. cbn. unfold group_last.
    pose proof (run_nonempty _ _ _ (Forall_lookup_1 _ _ _ _ Hr Hk)).
    destruct (lookup_lt_is_Some_2 (df_times df) (g.2 - 1)%nat) as [t Ht]; [lia|]. by rewrite Ht.
Qed.
(** Merging by time.  Frames with the same assets and metrics whose rows
    are in order, at least two of them nonempty, either merge into one
    well-formed frame whose increasing times, and whose columns, are the
    concatenations of the nonempty frames' in order of their first times, or
    two of them overlap and the merge is an error. *)
Theorem MergeTimes_concatenates `{GoSort} A M (frames : list (DataFrame F)) :
  Forall (part A M) frames → NoDup (CompositeFigi <$> A) → NoDup M →
  let full := keep (λ f, (0 <? Len f)%nat) frames in
  (2 <= length full)%nat →
  ∃ sorted, sorted ≡ₚ full ∧
    match MergeTimes frames with
    | Ok r =>
        frame_shape r ∧ sorted_times r ∧ df_assets r = A ∧ df_metrics r = M ∧
        df_times r = mjoin (df_times <$> sorted) ∧
        ∀ a m, a ∈ A → m ∈ M → Column r a m = mjoin ((λ f, Column f a m) <$> sorted)
    | Err _ => ∃ i j f g, (i < j)%nat ∧ sorted !! i = Some f ∧ sorted !! j = Some g ∧ overlapping f g
    end.
Proof. apply MergeTimes_spec. Qed.
End Properties.

(** ** Witnesses *)
Section Witnesses.
Local Existing Instance utc_db.

Lemma sample_frame_sorted : sorted_times sample_frame.
Proof. repeat constructor. Qed.

(** The missing day is the day before, filled forward, and the day after,
    filled backward. *)
Lemma Upsample_fills_witness :
  ∃ r r', ForwardFill 10 sample_frame Daily = Some r ∧ BackFill 10 sample_frame Daily = Some r' ∧
    df_times r = [day 0; day 1; day 2; day 3] ∧
    ∃ x x', default [] (df_columns r !! 0%nat) !! 2%nat = Some x ∧
            default [] (df_columns r' !! 0%nat) !! 2%nat = Some x' ∧ x = q 30 ∧ x' = q 20.
Proof.
  assert (Hu : upsampled 10 sample_frame Daily 0 1).
  { split; [exact sample_frame_shape|exact sample_frame_sorted|done|done|done|vm_compute; lia]. }
  destruct (Upsample_fills 10 sample_frame Daily 0 1 Hu) as (r & r' & Hr & Hr' & _ & _ & Ht & Ht' & Hc).
  exists r, r'. split; [exact Hr|]. split; [exact Hr'|]. split; [rewrite Ht; vm_compute; reflexivity|].
  destruct (Hc 2%nat (day 2)) as [(i & u & Hi & Hle & Hlater & Hf) (i' & u' & Hi' & Hge & Hearlier & Hb)];
    [vm_compute; reflexivity|].
  destruct (Hf 0%nat _ eq_refl) as (col & x & -> & Hx & Hix). destruct (Hb 0%nat _ eq_refl) as (col' & x' & -> & Hx' & Hix').
  exists x, x'. split; [exact Hx|]. split; [exact Hx'|]. split.
  - destruct i as [|[|[|i]]].
    + pose proof (Hlater 1%nat (day 1) ltac:(lia) eq_refl) as Hbad. vm_compute in Hbad. discriminate Hbad.
    + by injection Hix as <-.
    + injection Hi as <-. vm_compute in Hle. discriminate Hle.
    + discriminate Hi.
  - destruct i' as [|[|[|i']]].
    + injection Hi' as <-. vm_compute in Hge. discriminate Hge.
    + injection Hi' as <-. vm_compute in Hge. discriminate Hge.
    + by injection Hix' as <-.
    + discriminate Hi'.
Defined.

(** 1 January 2024 was a Monday: days 0, 1 and 3 are in one week. *)
Definition weeks_frame : DataFrame xq :=
  build [day 0; day 1; day 7; day 8; day 14] [SPY] [MetricClose] Daily [[q 1; q 2; q 3; q 4; q 5]].

Lemma Downsample_partitions_witness :
  let r := aggregate weeks_frame Weekly fsum in
  df_columns r !! 0%nat = Some [fsum [q 1; q 2]; fsum [q 3; q 4]; fsum [q 5]] ∧
  df_times r !! 1%nat = Some (day 8).
Proof.
  assert (Hs : frame_shape weeks_frame) by (split; [reflexivity|reflexivity|repeat constructor|reflexivity]).
  assert (Hne : df_times weeks_frame ≠ []) by done.
  destruct (Downsample_partitions weeks_frame Weekly fsum Hs Hne) as (_ & _ & _ & Hc & Ht).
  assert (Eg : groups_of_times Weekly (df_times weeks_frame) = [(0, 2); (2, 4); (4, 5)]%nat) by (vm_compute; reflexivity).
  rewrite Eg in Hc, Ht. split; [exact (proj2 (Hc 0%nat _ eq_refl))|]. exact (Ht 1%nat _ eq_refl).
Defined.

Local Existing Instance stable_sort_slice.

Definition later_frame : DataFrame xq :=
  build [day 4; day 5] [SPY; TLT] [MetricClose; Volume] Daily [[q 1; q 2]; [q 3; q 4]; [q 5; q 6]; [q 7; q 8]].

Lemma MergeTimes_concatenates_witness :
  match MergeTimes [later_frame; sample_frame] with
  | Ok r => df_times r = [day 0; day 1; day 3; day 4; day 5] ∧
            Column r TLT MetricClose = [q 7; q 8; q 9; q 5; q 6]
  | Err _ => False
  end.
Proof.
  assert (Hl : part [SPY; TLT] [MetricClose; Volume] later_frame).
  { split; [split; [reflexivity|reflexivity|repeat constructor|reflexivity]|repeat constructor|done..]. }
  assert (Hs : part [SPY; TLT] [MetricClose; Volume] sample_frame).
  { split; [exact sample_frame_shape|exact sample_frame_sorted|done..]. }
  assert (Ha : NoDup (CompositeFigi <$> [SPY; TLT])) by (apply (bool_decide_unpack _); vm_compute; done).
  assert (Hm : NoDup [MetricClose; Volume]) by (apply (bool_decide_unpack _); vm_compute; done).
  destruct (MergeTimes_concatenates _ _ [later_frame; sample_frame]
    (Forall_cons_2 _ _ _ Hl (Forall_cons_2 _ _ _ Hs (Forall_nil_2 _))) Ha Hm) as (sorted & Hperm & Hr).
  { vm_compute. lia. }
  assert (E : match MergeTimes [later_frame; sample_frame] with
    | Ok r => df_times r = [day 0; day 1; day 3; day 4; day 5] | Err _ => False end) by (vm_compute; done).
  destruct (MergeTimes [later_frame; sample_frame]) as [r|e]; [|done]. split; [exact E|].
  destruct Hr as (_ & _ & _ & _ & Ht & Hc).
  rewrite (Hc TLT MetricClose) by (apply (bool_decide_unpack _); vm_compute; done).
  change (keep (λ f : DataFrame xq, (0 <? Len f)%nat) [later_frame; sample_frame]) with [later_frame; sample_frame] in Hperm.
  rewrite E in Ht. symmetry in Hperm. apply Permutation_length_2_inv in Hperm as [->| ->]; [discriminate Ht|reflexivity].
Defined.
End Witnesses.
