(* ===== verification/ScheduleProps.v ===== *)
(** * ScheduleProps: trading days and the times schedules fire

    In a zone whose midnights read back, the date arithmetic of the source is
    arithmetic on day numbers; the day loops then find the first or the last
    market day of a month, and end, because the holiday table is finite.  A
    schedule fires at the first activation at which the market is open. *)
From Stdlib Require Import ZArith Lia.
From stdpp Require Import base list gmap strings pretty.
From S2P Require Import Prelude Num GoTime Calendar Schedule Samples.
Local Open Scope Z_scope.

(** ** Clock offsets *)
Lemma time_relative_total mins hrs hours minutes :
  - 2 ^ 62 < mins < 2 ^ 62 → - 2 ^ 61 < hrs < 2 ^ 61 → 0 <= hours <= 99 → 0 <= minutes <= 99 →
  let total := (hrs + hours) * 60 + mins + minutes in
  time_relative_to mins hrs hours minutes =
    if (0 <=? total) && (total <? 1440) then Ok (total / 60, total mod 60) else Err ErrFieldOutOfBounds.
Proof.
  intros Hm Hh Hhs Hms. cbn zeta. unfold time_relative_to.
  rewrite (wrap64_small (mins + minutes)) by lia. set (m := mins + minutes).
  assert (Hmb : - 2 ^ 62 < m < 2 ^ 62 + 100) by (unfold m; lia).
  replace ((hrs + hours) * 60 + mins + minutes) with ((hrs + hours) * 60 + m) by (unfold m; lia). clearbody m.
  assert (Hq : m = 60 * (m ÷ 60) + Z.rem m 60) by apply Z.quot_rem'.
  assert (Hr : -60 < Z.rem m 60 < 60) by (pose proof (Z.rem_bound_abs m 60); lia).
  assert (Hquot : -2 ^ 61 < m ÷ 60 < 2 ^ 61) by lia.
  assert (Hb : ∃ h1 m1, (if (59 <? m) || (m <? -59) then (wrap64 (hrs + m ÷ 60), Z.rem m 60) else (hrs, m)) = (h1, m1) ∧
    h1 * 60 + m1 = hrs * 60 + m ∧ -60 < m1 < 60 ∧ - 2 ^ 62 - 2 ^ 61 < h1 < 2 ^ 62 + 2 ^ 61).
  { destruct (Z.ltb_spec 59 m), (Z.ltb_spec m (-59)); cbn [orb]; eexists _, _; (split; [reflexivity|]).
    1-3: rewrite wrap64_small by lia; lia. lia. }
  destruct Hb as (h1 & m1 & -> & Ht & Hm1 & Hh1). clear Hq Hr Hquot.
  rewrite (wrap64_small (h1 + hours)) by lia.
  assert (Hb : ∃ h2 m2, (if m1 <? 0 then (wrap64 (h1 + hours - 1), 60 + m1) else (h1 + hours, m1)) = (h2, m2) ∧
    h2 * 60 + m2 = (h1 + hours) * 60 + m1 ∧ 0 <= m2 < 60).
  { destruct (Z.ltb_spec m1 0); eexists _, _; (split; [reflexivity|]); [rewrite wrap64_small by lia; lia|lia]. }
  destruct Hb as (h2 & m2 & -> & Ht2 & Hm2).
  assert (E : (hrs + hours) * 60 + m = h2 * 60 + m2) by lia. rewrite E.
  rewrite Z.div_add_l, Z.div_small, Z.add_0_r by lia.
  rewrite (Z.add_comm (h2 * 60)), Z.mod_add, Z.mod_small by lia.
  destruct (Z.ltb_spec h2 0).
  { destruct (Z.leb_spec 0 (m2 + h2 * 60)); [lia|done]. }
  destruct (Z.leb_spec 0 (m2 + h2 * 60)); [|lia]. cbn [andb].
  destruct (Z.ltb_spec 23 h2), (Z.ltb_spec (m2 + h2 * 60) 1440); try lia; done.
Qed.

(** ** Days of the exchange's zone *)

(** The instant a day starts, and the day a time falls on where it is. *)
Definition day_start `{TZDB} (n : Z) : Time :=
  let w := n * secs_per_day in mkTime ((w - zone nyc (w - zone nyc w)) * ns_per_sec) nyc.
Definition date_no `{TZDB} (t : Time) : Z := wall_secs t / secs_per_day.

(** Midnights of the exchange's zone read back, and its offset is less than
    half a day. *)
Class MarketZone `{TZDB} : Prop := {
  midnight_reads : ∀ n, wall_secs (day_start n) = n * secs_per_day;
  offset_bound : ∀ u, -43200 < zone nyc u < 43200;
}.

Section Days.
Context `{MarketZone}.
Implicit Types (t : Time) (n k : Z) (holidays : Holidays).

Lemma date_no_start n : date_no (day_start n) = n.
Proof. unfold date_no. rewrite midnight_reads. by rewrite Z.div_mul. Qed.

Lemma civil_start n : civil (day_start n) = civil_from_days n.
Proof. unfold civil. rewrite midnight_reads. by rewrite Z.div_mul. Qed.

Lemma day_start_mono n k : n < k → t_ns (day_start n) < t_ns (day_start k).
Proof.
  intros Hlt. unfold day_start. cbn [t_ns].
  pose proof (offset_bound (n * secs_per_day - zone nyc (n * secs_per_day))).
  pose proof (offset_bound (k * secs_per_day - zone nyc (k * secs_per_day))). unfold secs_per_day, ns_per_sec in *. lia.
Qed.
Lemma day_start_le n k : n <= k → t_ns (day_start n) <= t_ns (day_start k).
Proof. intros Hle. destruct (decide (n = k)) as [->|]; [done|]. apply Z.lt_le_incl, day_start_mono. lia. Qed.
Lemma day_start_Before n k : Before (day_start n) (day_start k) = (n <? k).
Proof.
  unfold Before. destruct (Z.lt_trichotomy n k) as [Hlt|[->|Hlt]].
  - pose proof (day_start_mono n k Hlt). lia.
  - lia.
  - pose proof (day_start_mono k n Hlt). lia.
Qed.

Lemma Date_midnight y mo d :
  Date y mo d 0 0 0 0 nyc = day_start (days_from_civil (y + (mo - 1) / 12) ((mo - 1) mod 12 + 1) d).
Proof.
  assert (E : ∀ x, x + 0 * 3600 + 0 * 60 + 0 + 0 / ns_per_sec = x) by (intros x; change (0 / ns_per_sec) with 0; lia).
  unfold Date, day_start. cbn zeta. rewrite !E. change (0 mod ns_per_sec) with 0. by rewrite Z.add_0_r.
Qed.

Lemma midnight_day t : midnight t = day_start (date_no t).
Proof.
  unfold midnight. rewrite Date_midnight. f_equal. unfold Year, Month, Day, civil. fold (date_no t).
  destruct (days_civil_roundtrip (date_no t)) as [Hrt Hm]. set (c := civil_from_days (date_no t)) in *.
  rewrite Z.div_small, Z.mod_small, Z.add_0_r by lia. by replace (c_month c - 1 + 1) with (c_month c) by lia.
Qed.

Lemma first_of_month_day t : first_of_month t = day_start (month_first (month_of (date_no t))).
Proof.
  unfold first_of_month. rewrite Date_midnight. f_equal. unfold month_first, month_of, month_no, Year, Month, civil.
  fold (date_no t). destruct (days_civil_roundtrip (date_no t)) as [_ Hm]. set (c := civil_from_days (date_no t)) in *.
  destruct (month_no_civil (c_year c) (c_month c) Hm) as [-> ->].
  rewrite Z.div_small, Z.mod_small, Z.add_0_r by lia. by replace (c_month c - 1 + 1) with (c_month c) by lia.
Qed.

Lemma clock_start n : Hour (day_start n) = 0 ∧ Minute (day_start n) = 0 ∧ Second (day_start n) = 0 ∧ Nanosecond (day_start n) = 0.
Proof.
  unfold Hour, Minute, Second, Nanosecond, sec_of_day. rewrite midnight_reads, Z.mod_mul by done.
  unfold day_start. cbn [t_ns]. by rewrite Z.mod_mul.
Qed.

Lemma AddDate_start n years months days :
  AddDate (day_start n) years months days =
  Date (c_year (civil_from_days n) + years) (c_month (civil_from_days n) + months) (c_day (civil_from_days n) + days)
    0 0 0 0 nyc.
Proof.
  unfold AddDate. destruct (clock_start n) as (-> & -> & -> & ->). by rewrite civil_start.
Qed.

Lemma AddDate_day n k : AddDate (day_start n) 0 0 k = day_start (n + k).
Proof.
  rewrite AddDate_start, Date_midnight. f_equal. destruct (days_civil_roundtrip n) as [Hrt Hm].
  set (c := civil_from_days n) in *. rewrite !Z.add_0_r, Z.div_small, Z.mod_small, Z.add_0_r by lia.
  replace (c_month c - 1 + 1) with (c_month c) by lia. by rewrite days_from_civil_day, Hrt.
Qed.

Lemma AddDate_month mi k : AddDate (day_start (month_first mi)) 0 1 k = day_start (month_first (mi + 1) + k).
Proof.
  rewrite AddDate_start, Date_midnight, civil_month_first. cbn [c_year c_month c_day]. f_equal.
  rewrite days_from_civil_day. f_equal. unfold month_first. rewrite Z.add_0_r.
  replace (mi mod 12 + 1 + 1 - 1) with (mi mod 12 + 1) by lia.
  by destruct (month_no_next mi) as [-> ->].
Qed.

(** ** Market days *)
Definition weekday_no n : Z := (n + 4) mod 7.
Definition trading holidays n : bool :=
  negb ((weekday_no n =? 6) || (weekday_no n =? 0)) &&
  negb match holidays !! Unix (day_start n) with Some close => close =? 0 | None => false end.

Lemma IsMarketDay_date holidays t : IsMarketDay holidays t = trading holidays (date_no (InLoc t nyc)).
Proof.
  unfold IsMarketDay, IsMarketHoliday, trading, weekday_no, Weekday. fold (date_no (InLoc t nyc)).
  replace (InLoc (InLoc t nyc) nyc) with (InLoc t nyc) by done. rewrite midnight_day.
  by destruct (_ || _).
Qed.

Lemma IsMarketDay_start holidays n : IsMarketDay holidays (day_start n) = trading holidays n.
Proof. rewrite IsMarketDay_date. by rewrite (date_no_start n : date_no (InLoc (day_start n) nyc) = n). Qed.

Lemma market_day_from_spec fuel holidays (step : Z) n k :
  0 <= k → (Z.to_nat k < fuel)%nat →
  trading holidays (n + k * step) = true → (∀ j, 0 <= j < k → trading holidays (n + j * step) = false) →
  market_day_from fuel holidays step (day_start n) = Some (day_start (n + k * step)).
Proof.
  revert n k. induction fuel as [|fuel IH]; intros n k Hk Hf Ht Hno; [lia|]. cbn [market_day_from].
  rewrite IsMarketDay_start. destruct (decide (k = 0)) as [->|Hk0].
  - rewrite Z.mul_0_l, Z.add_0_r in Ht. by rewrite Ht, Z.mul_0_l, Z.add_0_r.
  - pose proof (Hno 0 ltac:(lia)) as Hn0. rewrite Z.mul_0_l, Z.add_0_r in Hn0. rewrite Hn0, AddDate_day.
    replace (n + k * step) with (n + step + (k - 1) * step) by lia. apply IH; [lia|lia| |].
    + by replace (n + step + (k - 1) * step) with (n + k * step) by lia.
    + intros j Hj. replace (n + step + j * step) with (n + (j + 1) * step) by lia. apply Hno. lia.
Qed.

(** The first or last day of [p] in a finite range, by search. *)
Lemma least_day (p : Z → bool) n m :
  n <= m → p m = true → ∃ k, n <= k <= m ∧ p k = true ∧ ∀ j, n <= j < k → p j = false.
Proof.
  intros Hle Hm. remember (Z.to_nat (m - n)) as d eqn:Hd. revert n Hle Hd. induction d as [|d IH]; intros n Hle Hd.
  { exists m. split; [lia|]. split; [done|]. intros; lia. }
  destruct (p n) eqn:Hn; [exists n; split; [lia|split; [done|intros; lia]]|].
  destruct (IH (n + 1)) as (k & Hk & Hpk & Hlow); [lia|lia|]. exists k. split; [lia|]. split; [done|].
  intros j Hj. destruct (decide (j = n)) as [->|]; [done|]. apply Hlow. lia.
Qed.

Lemma greatest_day (p : Z → bool) n m :
  n <= m → p n = true → ∃ k, n <= k <= m ∧ p k = true ∧ ∀ j, k < j <= m → p j = false.
Proof.
  intros Hle Hn. destruct (least_day (λ k, p (- k)) (- m) (- n)) as (k & Hk & Hp & Hlow); [lia|by rewrite Z.opp_involutive|].
  exists (- k). split; [lia|]. split; [done|]. intros j Hj. rewrite <-(Z.opp_involutive j). apply Hlow. lia.
Qed.

(** The holiday table is finite: far enough in either direction only weekends
    are closed. *)
Lemma holidays_bounded (holidays : gmap Z Z) : ∃ b, 0 <= b ∧ ∀ s c, holidays !! s = Some c → - b < s < b.
Proof.
  induction holidays as [|s c m Hm (b & Hb & Hall)] using map_ind.
  { exists 0. split; [done|]. intros s c. by rewrite lookup_empty. }
  exists (Z.max b (Z.abs s + 1)). split; [lia|]. intros s' c' Hs. destruct (decide (s = s')) as [<-|Hne]; [lia|].
  rewrite lookup_insert_ne in Hs by done. specialize (Hall s' c' Hs). lia.
Qed.

Lemma Unix_start n : n * secs_per_day - 43200 < Unix (day_start n) < n * secs_per_day + 43200.
Proof.
  unfold Unix, day_start. cbn [t_ns]. rewrite Z.div_mul by done.
  pose proof (offset_bound (n * secs_per_day - zone nyc (n * secs_per_day))). lia.
Qed.

Lemma weekdays_far holidays : ∃ b, 0 <= b ∧ ∀ n, n < - b ∨ b < n →
  trading holidays n = negb ((weekday_no n =? 6) || (weekday_no n =? 0)).
Proof.
  destruct (holidays_bounded holidays) as (b & Hb & Hall). exists (b + 1). split; [lia|]. intros n Hn. unfold trading.
  destruct (holidays !! Unix (day_start n)) as [c|] eqn:E; [|by rewrite andb_true_r].
  apply Hall in E. pose proof (Unix_start n). unfold secs_per_day in *. lia.
Qed.

Lemma weekday_soon n : ∃ j, 0 <= j < 3 ∧ negb ((weekday_no (n + j) =? 6) || (weekday_no (n + j) =? 0)) = true.
Proof.
  unfold weekday_no. pose proof (Z.mod_pos_bound (n + 4) 7 ltac:(lia)) as Hr. pose proof (Z.div_mod (n + 4) 7 ltac:(lia)) as Hd.
  assert (Hm : ∀ j, 0 <= j → (n + 4) mod 7 + j < 7 → (n + j + 4) mod 7 = (n + 4) mod 7 + j).
  { intros j Hj Hlt. symmetry. apply (Z.mod_unique_pos _ 7 ((n + 4) / 7)); lia. }
  destruct (decide ((n + 4) mod 7 = 6)) as [E|].
  - exists 2. split; [lia|]. replace ((n + 2 + 4) mod 7) with 1; [done|].
    apply (Z.mod_unique_pos _ 7 ((n + 4) / 7 + 1)); lia.
  - destruct (decide ((n + 4) mod 7 = 0)) as [E|].
    + exists 1. split; [lia|]. rewrite Hm by lia. by rewrite E.
    + exists 0. split; [lia|]. rewrite Hm by lia. apply negb_true_iff, orb_false_iff. lia.
Qed.

(** There is always a next market day, and one before. *)
Lemma next_trading holidays n : ∃ k, n <= k ∧ trading holidays k = true ∧ ∀ j, n <= j < k → trading holidays j = false.
Proof.
  destruct (weekdays_far holidays) as (b & Hb & Hfar). destruct (weekday_soon (Z.max n (b + 1))) as (j & Hj & Hw).
  destruct (least_day (trading holidays) n (Z.max n (b + 1) + j)) as (k & Hk & Ht & Hlow);
    [lia|rewrite Hfar by lia; done|]. exists k. split; [lia|done].
Qed.
Lemma prev_trading holidays n : ∃ k, k <= n ∧ trading holidays k = true ∧ ∀ j, k < j <= n → trading holidays j = false.
Proof.
  destruct (weekdays_far holidays) as (b & Hb & Hfar).
  destruct (weekday_soon (Z.min n (- b - 1) - 2)) as (j & Hj & Hw).
  destruct (greatest_day (trading holidays) (Z.min n (- b - 1) - 2 + j) n) as (k & Hk & Ht & Hlow);
    [lia|rewrite Hfar by lia; done|]. exists k. split; [lia|done].
Qed.

Lemma forward_loop holidays n :
  ∃ f k, n <= k ∧ trading holidays k = true ∧ (∀ j, n <= j < k → trading holidays j = false) ∧
    ∀ fuel, (f <= fuel)%nat → market_day_from fuel holidays 1 (day_start n) = Some (day_start k).
Proof.
  destruct (next_trading holidays n) as (k & Hk & Ht & Hlow). exists (S (Z.to_nat (k - n))), k. split_and!; try done.
  intros fuel Hf. replace k with (n + (k - n) * 1) at 1 by lia. apply market_day_from_spec; [lia|lia| |].
  - by replace (n + (k - n) * 1) with k by lia.
  - intros j Hj. apply Hlow. lia.
Qed.
Lemma backward_loop holidays n :
  ∃ f k, k <= n ∧ trading holidays k = true ∧ (∀ j, k < j <= n → trading holidays j = false) ∧
    ∀ fuel, (f <= fuel)%nat → market_day_from fuel holidays (-1) (day_start n) = Some (day_start k).
Proof.
  destruct (prev_trading holidays n) as (k & Hk & Ht & Hlow). exists (S (Z.to_nat (n - k))), k. split_and!; try done.
  intros fuel Hf. replace k with (n + (n - k) * (-1)) at 1 by lia. apply market_day_from_spec; [lia|lia| |].
  - by replace (n + (n - k) * (-1)) with k by lia.
  - intros j Hj. apply Hlow. lia.
Qed.

(** ** The last trading day of a month *)

(** A market day with no further market day in its month. *)
Definition closes_month holidays n : Prop :=
  trading holidays n = true ∧ ∀ j, n < j < month_first (month_of n + 1) → trading holidays j = false.

#[export] Instance closes_month_dec holidays k : Decision (closes_month holidays k).
Proof.
  unfold closes_month. destruct (decide (trading holidays k = true)) as [Ht|]; [|right; naive_solver].
  destruct (decide (k + 1 <= month_first (month_of k + 1) - 1)) as [Hle|]; [|left; split; [done|intros; lia]].
  destruct (existsb (trading holidays) ((λ i, k + 1 + Z.of_nat i) <$> seq 0 (Z.to_nat (month_first (month_of k + 1) - 1 - k)))) eqn:E.
  - right. intros [_ Hno]. apply existsb_exists in E as (x & Hx & Ht'). apply list_elem_of_In, list_elem_of_fmap in Hx as (i & -> & Hi).
    apply elem_of_seq in Hi. rewrite Hno in Ht'; [done|lia].
  - left. split; [done|]. intros i Hi. destruct (trading holidays i) eqn:Ei; [|done].
    assert (E' : existsb (trading holidays) ((λ i, k + 1 + Z.of_nat i) <$> seq 0 (Z.to_nat (month_first (month_of k + 1) - 1 - k))) = true);
      [|congruence]. apply existsb_exists. exists i. split; [|done]. apply list_elem_of_In, list_elem_of_fmap.
    exists (Z.to_nat (i - k - 1)). split; [lia|]. apply elem_of_seq. lia.
Defined.

(** The next such day from [n] on. *)
Definition next_closing holidays n k : Prop :=
  n <= k ∧ closes_month holidays k ∧ ∀ j, n <= j < k → ¬ closes_month holidays j.

Lemma month_closing holidays mi k :
  month_first mi <= k < month_first (mi + 1) → trading holidays k = true →
  ∃ c, k <= c < month_first (mi + 1) ∧ month_of c = mi ∧ closes_month holidays c.
Proof.
  intros Hk Ht. destruct (greatest_day (trading holidays) k (month_first (mi + 1) - 1)) as (c & Hc & Htc & Hlow); [lia|done|].
  assert (Hm : month_of c = mi) by (apply month_of_unique; lia). exists c. split; [lia|]. split; [done|]. split; [done|].
  rewrite Hm. intros j Hj. apply Hlow. lia.
Qed.

Lemma next_closing_exists holidays n : ∃ k, next_closing holidays n k.
Proof.
  destruct (weekdays_far holidays) as (b & Hb & Hfar).
  set (mi := month_of (Z.max n (b + 1)) + 1).
  pose proof (month_range (Z.max n (b + 1))) as Hr. fold mi in Hr. pose proof (month_first_next mi) as Hlen.
  destruct (weekday_soon (month_first mi)) as (j & Hj & Hw).
  destruct (month_closing holidays mi (month_first mi + j)) as (c & Hc & _ & Hcl); [lia|rewrite Hfar by lia; done|].
  destruct (least_day (λ k, bool_decide (closes_month holidays k)) n c) as (k & Hk & Hpk & Hlow);
    [lia|by apply bool_decide_eq_true_2|].
  exists k. split; [lia|]. split; [by apply bool_decide_eq_true_1 in Hpk|]. intros i Hi Hcl'.
  specialize (Hlow i Hi). by apply bool_decide_eq_false_1 in Hlow.
Qed.

Lemma last_trading_day_spec holidays t k :
  next_closing holidays (date_no t) k →
  ∃ f, ∀ fuel days, (f <= fuel)%nat → (f <= days)%nat → last_trading_day_loop fuel days holidays t = Some (day_start k).
Proof.
  intros Hk. remember (Z.to_nat (month_of k - month_of (date_no t))) as d eqn:Hd. revert t Hk Hd.
  induction d as [|d IH]; intros t (Hle & [Ht Hlast] & Hmin) Hd; set (mi := month_of (date_no t)) in *;
    pose proof (month_of_mono _ _ Hle) as Hmle; fold mi in Hmle; pose proof (month_range (date_no t)) as Hr; fold mi in Hr;
    destruct (backward_loop holidays (month_first (mi + 1) + -1)) as (f & l & Hl & Htl & Hafter & Hloop).
  - assert (Em : month_of k = mi) by lia. pose proof (month_range k) as Hrk. rewrite Em in Hrk, Hlast.
    assert (l = k) as ->.
    { destruct (Z.lt_trichotomy l k) as [Hlt|[?|Hlt]]; [|done|].
      - rewrite Hafter in Ht; [done|lia].
      - rewrite Hlast in Htl; [done|lia]. }
    exists (S f). intros [|fuel] days Hf Hdays; [lia|]. cbn [last_trading_day_loop].
    rewrite first_of_month_day. fold mi. rewrite AddDate_month. rewrite Hloop by lia.
    rewrite midnight_day, day_start_Before. destruct (Z.ltb_spec k (date_no t)); [lia|done].
  - assert (Hml : mi < month_of k) by lia. pose proof (month_range k) as Hrk.
    pose proof (month_first_le (mi + 1) (month_of k) ltac:(lia)) as Hfirst.
    assert (Hlt : l < date_no t).
    { destruct (Z.lt_ge_cases l (date_no t)) as [|Hge]; [done|]. exfalso. apply (Hmin l); [lia|].
      split; [done|]. rewrite (month_of_unique l mi) by lia. intros j Hj. apply Hafter. lia. }
    destruct (IH (day_start (month_first (mi + 1)))) as (f' & Hf').
    + rewrite date_no_start. split; [lia|]. split; [done|]. intros j Hj. apply Hmin. lia.
    + rewrite date_no_start, month_of_first. lia.
    + exists (S (Nat.max f f')). intros [|fuel] days Hf Hdays; [lia|]. cbn [last_trading_day_loop].
      rewrite first_of_month_day. fold mi. rewrite !AddDate_month. rewrite Hloop by lia.
      rewrite midnight_day, day_start_Before. destruct (Z.ltb_spec l (date_no t)); [|lia].
      rewrite Z.add_0_r. apply Hf'; lia.
Qed.
End Days.

(** ** Clock times *)

(** The instant of clock time [s] on day [n], by the two look-ups of [Date]. *)
Definition day_clock `{TZDB} (n s : Z) : Time :=
  let w := n * secs_per_day + s in mkTime ((w - zone nyc (w - zone nyc w)) * ns_per_sec) nyc.

(** A clock time that exists on every day: daylight-saving time skips the hour
    from two to three. *)
Definition every_day (s : Z) : Prop := 0 <= s < 7200 ∨ 10800 <= s < secs_per_day.

(** The exchange's zone, with its changes between standard and daylight-saving
    time: clock times outside the skipped hour read back and are in order, and
    a date starts at its midnight. *)
Class ExchangeZone `{TZDB} : Prop := {
  ez_bound : ∀ u, -43200 < zone nyc u < 43200;
  ez_reads : ∀ n s, every_day s → wall_secs (day_clock n s) = n * secs_per_day + s;
  ez_order : ∀ n s s', every_day s → every_day s' → s < s' → t_ns (day_clock n s) < t_ns (day_clock n s');
  ez_midnight : ∀ u n, n * secs_per_day <= u + zone nyc u ↔ Unix (day_clock n 0) <= u;
}.

Section Clocks.
Context `{ExchangeZone}.
Implicit Types (t : Time) (n k s : Z) (holidays : Holidays).

Lemma every_day_range s : every_day s → 0 <= s < secs_per_day.
Proof. unfold every_day, secs_per_day. lia. Qed.
Lemma every_day_0 : every_day 0.
Proof. unfold every_day. lia. Qed.
Hint Resolve every_day_0 every_day_range : core.

Lemma day_clock_0 n : day_clock n 0 = day_start n.
Proof. unfold day_clock, day_start. by rewrite Z.add_0_r. Qed.

#[export] Instance exchange_market : MarketZone.
Proof.
  split; [|apply ez_bound]. intros n. rewrite <-day_clock_0, ez_reads by done. lia.
Qed.

Lemma date_clock n s : every_day s → date_no (day_clock n s) = n.
Proof. intros Hs. unfold date_no. rewrite ez_reads, Z.div_add_l by done. rewrite Z.div_small by auto. lia. Qed.

Lemma sec_of_clock n s : every_day s → sec_of_day (day_clock n s) = s.
Proof.
  intros Hs. unfold sec_of_day. rewrite ez_reads, Z.add_comm, Z.mod_add by done. apply Z.mod_small. auto.
Qed.

Lemma Before_clock n s s' : every_day s → every_day s' → Before (day_clock n s) (day_clock n s') = (s <? s').
Proof.
  intros Hs Hs'. unfold Before. destruct (Z.lt_trichotomy s s') as [Hlt|[->|Hlt]].
  - pose proof (ez_order n s s' Hs Hs' Hlt). lia.
  - lia.
  - pose proof (ez_order n s' s Hs' Hs Hlt). lia.
Qed.

Lemma Date_clock t h mi s ns :
  0 <= ns < ns_per_sec →
  clock_of t h mi s ns nyc = mkTime (t_ns (day_clock (date_no t) (h * 3600 + mi * 60 + s)) + ns) nyc.
Proof.
  intros Hns. unfold clock_of, Date, Year, Month, Day, civil. fold (date_no t).
  destruct (days_civil_roundtrip (date_no t)) as [Hrt Hm]. set (c := civil_from_days (date_no t)) in *.
  rewrite (Z.div_small (c_month c - 1)), (Z.mod_small (c_month c - 1)), Z.add_0_r by lia.
  replace (c_month c - 1 + 1) with (c_month c) by lia. rewrite Hrt.
  rewrite (Z.div_small ns), (Z.mod_small ns) by done. unfold day_clock. cbn [t_ns].
  replace (date_no t * secs_per_day + h * 3600 + mi * 60 + s + 0) with (date_no t * secs_per_day + (h * 3600 + mi * 60 + s)) by lia.
  done.
Qed.

(** The day the exchange sees. *)
Lemma date_bounds t : t_loc t = nyc → t_ns (day_start (date_no t)) <= t_ns t < t_ns (day_start (date_no t + 1)).
Proof.
  intros Hl. rewrite <-!day_clock_0. assert (Hu : ∀ n, Unix (day_clock n 0) <= Unix t ↔ t_ns (day_clock n 0) <= t_ns t).
  { intros n. unfold Unix, day_clock. cbn [t_ns]. rewrite Z.div_mul by done. set (c := n * secs_per_day + 0 - _). clearbody c.
    unfold ns_per_sec. split; [intros|intros; apply Z.div_le_lower_bound]; Z.to_euclidean_division_equations; lia. }
  assert (Hd : ∀ n, n <= date_no t ↔ t_ns (day_clock n 0) <= t_ns t).
  { intros n. rewrite <-Hu, <-ez_midnight, <-Hl. fold (wall_secs t). unfold date_no, secs_per_day.
    split; [intros|intros; apply Z.div_le_lower_bound]; Z.to_euclidean_division_equations; lia. }
  split; [by apply Hd|]. apply Z.nle_gt. rewrite <-Hd. lia.
Qed.

Definition hhmm_secs (v : Z) : Z := v ÷ 100 * 3600 + Z.rem v 100 * 60.
(* no session opens or closes between two and three in the morning *)
Definition clock_value (v : Z) : Prop := 0 <= v ÷ 100 < 24 ∧ v ÷ 100 ≠ 2 ∧ 0 <= Z.rem v 100 < 60.

Lemma hhmm_every_day v : clock_value v → every_day (hhmm_secs v).
Proof. unfold clock_value, hhmm_secs, every_day, secs_per_day. lia. Qed.
Hint Resolve hhmm_every_day : core.

Lemma early_close_clock holidays t :
  clock_value (EarlyClose holidays t) → t_loc t = nyc →
  early_close_on holidays t = day_clock (date_no t) (hhmm_secs (EarlyClose holidays t)).
Proof.
  intros Hv Hl. unfold early_close_on. rewrite Date_clock by (unfold ns_per_sec; lia).
  rewrite !Z.add_0_r. reflexivity.
Qed.

Lemma EarlyClose_date holidays t : t_loc t = nyc → EarlyClose holidays t = lookup_d 0 holidays (Unix (day_start (date_no t))).
Proof. intros Hl. unfold EarlyClose. rewrite midnight_day. destruct t; cbn in *; by subst. Qed.

Lemma clock_fields n v : clock_value v → Hour (day_clock n (hhmm_secs v)) * 100 + Minute (day_clock n (hhmm_secs v)) = v.
Proof.
  intros Hv. unfold Hour, Minute. rewrite sec_of_clock by auto.
  unfold hhmm_secs, clock_value in *. pose proof (Z.quot_rem' v 100).
  rewrite Z.div_add_l, (Z.div_small (Z.rem v 100 * 60)) by lia.
  rewrite (Z.add_comm (v ÷ 100 * 3600)), Z.mod_add, Z.mod_small, Z.div_mul by lia. lia.
Qed.

Lemma scheduled_clock t n s :
  every_day s → scheduled_on t (day_clock n s) = day_clock (date_no t) s.
Proof.
  intros Hs. unfold scheduled_on. change (t_loc (day_clock n s)) with nyc.
  assert (Hns : Nanosecond (day_clock n s) = 0) by (unfold Nanosecond, day_clock; cbn [t_ns]; by apply Z.mod_mul).
  rewrite Hns, Date_clock by (unfold ns_per_sec; lia). rewrite Z.add_0_r. unfold Hour, Minute, Second. rewrite sec_of_clock by done.
  assert (E : s / 3600 * 3600 + s mod 3600 / 60 * 60 + s mod 60 = s); [|by rewrite E].
  pose proof (Z.div_mod s 3600 ltac:(done)). pose proof (Z.div_mod (s mod 3600) 60 ltac:(done)).
  assert ((s mod 3600) mod 60 = s mod 60); [|lia].
  apply Z.mod_mod_divide. by exists 60.
Qed.

(** ** A daily close *)

(** The first instant after [t] at which the exchange's clock shows [s]. *)
Definition next_clock s t : Time :=
  if Before t (day_clock (date_no t) s) then day_clock (date_no t) s else day_clock (date_no t + 1) s.

Context `{Cron} (holidays : Holidays) (tc : TradeCron).

(** A schedule of the close of every day, with closing times of the clock: the
    cron library activates it at the close of each day. *)
Record close_schedule : Prop := {
  cs_time : tc_TimeFlag tc = AtClose;
  cs_close : clock_value (mh_Close (tc_hours tc));
  cs_hours : 0 < mh_Open (tc_hours tc) <= mh_Close (tc_hours tc);
  cs_early : ∀ k, let e := EarlyClose holidays (day_start k) in
    e = 0 ∨ (clock_value e ∧ mh_Open (tc_hours tc) <= e <= mh_Close (tc_hours tc));
  cs_cron : ∀ t, t_loc t = nyc → cron_Next (tc_Schedule tc) t = next_clock (hhmm_secs (mh_Close (tc_hours tc))) t;
}.
Context (Hcs : close_schedule).

Local Abbreviation closing := (hhmm_secs (mh_Close (tc_hours tc))).

(** When the market closes on day [k]. *)
Definition close_of k : Time :=
  day_clock k (if EarlyClose holidays (day_start k) =? 0 then closing else hhmm_secs (EarlyClose holidays (day_start k))).

Lemma hhmm_mono v w : clock_value v → clock_value w → v <= w → hhmm_secs v <= hhmm_secs w.
Proof.
  unfold clock_value, hhmm_secs. intros Hv Hw Hle. pose proof (Z.quot_rem' v 100). pose proof (Z.quot_rem' w 100). lia.
Qed.

Lemma closing_pos : 0 < closing < secs_per_day ∧ every_day closing.
Proof.
  pose proof (cs_close Hcs) as Hc. pose proof (cs_hours Hcs) as Ho. pose proof (hhmm_every_day _ Hc) as He.
  pose proof (every_day_range _ He). split; [|done]. assert (closing ≠ 0); [|lia].
  unfold hhmm_secs, clock_value in *. pose proof (Z.quot_rem' (mh_Close (tc_hours tc)) 100). lia.
Qed.

Lemma EarlyClose_day k s : every_day s → EarlyClose holidays (day_clock k s) = EarlyClose holidays (day_start k).
Proof. intros Hs. rewrite !EarlyClose_date by done. by rewrite date_clock, date_no_start. Qed.

Lemma close_of_range k : ∃ s, close_of k = day_clock k s ∧ every_day s ∧ s <= closing.
Proof.
  unfold close_of. pose proof closing_pos as [Hp He]. destruct (cs_early Hcs k) as [E|(Hv & _ & Hle)].
  - rewrite E, Z.eqb_refl. by exists closing.
  - destruct (Z.eqb_spec (EarlyClose holidays (day_start k)) 0); [by exists closing|].
    eexists. split; [reflexivity|]. split; [auto|]. exact (hhmm_mono _ _ Hv (cs_close Hcs) Hle).
Qed.

(** Days in order, and a close within its day. *)
Lemma day_before_clock k n s : k <= n → every_day s → t_ns (day_start k) <= t_ns (day_clock n s).
Proof.
  intros Hle Hs. assert (Hn : t_ns (day_start n) <= t_ns (day_clock n s)).
  { rewrite <-day_clock_0. destruct (decide (s = 0)) as [->|]; [reflexivity|].
    apply Z.lt_le_incl, ez_order; [done|done|]. apply every_day_range in Hs. lia. }
  apply day_start_le in Hle. lia.
Qed.
Lemma clock_before_day k n s : k < n → every_day s → t_ns (day_clock k s) < t_ns (day_start n).
Proof.
  intros Hlt Hs. pose proof (date_bounds (day_clock k s) eq_refl) as [_ Hb]. rewrite date_clock in Hb by done.
  pose proof (day_start_le (k + 1) n ltac:(lia)). lia.
Qed.
Lemma close_within k : t_ns (day_start k) <= t_ns (close_of k) < t_ns (day_start (k + 1)).
Proof.
  destruct (close_of_range k) as (s & -> & Hs & _). split; [by apply day_before_clock|apply clock_before_day; [lia|done]].
Qed.
Lemma close_not_after k : t_ns (close_of k) <= t_ns (day_clock k closing).
Proof.
  destruct (close_of_range k) as (s & -> & Hs & Hle). destruct (decide (s = closing)) as [->|]; [done|].
  apply Z.lt_le_incl, ez_order; [done|apply closing_pos|lia].
Qed.

Lemma firing_close k nextDate n :
  nextDate = day_clock n closing → firing_on holidays tc (day_start k) nextDate = close_of k.
Proof.
  intros ->. unfold firing_on, at_close, close_of. rewrite (cs_time Hcs). cbn [andb]. pose proof closing_pos as [_ Hp].
  destruct (cs_early Hcs k) as [E|(Hv & _ & _)].
  - rewrite E, Z.eqb_refl. cbn [negb]. rewrite scheduled_clock by done. by rewrite date_no_start.
  - destruct (Z.eqb_spec (EarlyClose holidays (day_start k)) 0); cbn [negb].
    + rewrite scheduled_clock by done. by rewrite date_no_start.
    + rewrite early_close_clock by done. by rewrite date_no_start.
Qed.

Lemma settle_close forDate k :
  trading holidays k = true → Before forDate (close_of k) = true →
  settle holidays tc forDate (day_clock k closing) = Some (close_of k).
Proof.
  intros Ht Hbe. pose proof closing_pos as [_ Hp]. pose proof (cs_hours Hcs) as Ho. pose proof (cs_close Hcs) as Hc.
  unfold settle, IsMarketOpen. change (InLoc (day_clock k closing) nyc) with (day_clock k closing).
  assert (Hday : IsMarketDay holidays (day_clock k closing) = true).
  { rewrite IsMarketDay_date. change (InLoc (day_clock k closing) nyc) with (day_clock k closing).
    by rewrite date_clock by done. }
  rewrite Hday. cbn [negb]. rewrite clock_fields by done. rewrite !EarlyClose_day by done.
  unfold coversFullDay. destruct (Z.leb_spec (mh_Open (tc_hours tc)) 0); [lia|]. cbn [andb].
  destruct (Z.ltb_spec (mh_Close (tc_hours tc)) (mh_Open (tc_hours tc))); [lia|]. cbn [orb].
  unfold close_of in *. destruct (Z.eqb_spec (EarlyClose holidays (day_start k)) 0) as [E|E].
  { by rewrite Z.ltb_irrefl. }
  destruct (cs_early Hcs k) as [?|(Hv & _ & Hle)]; [lia|].
  destruct (Z.ltb_spec (EarlyClose holidays (day_start k)) (mh_Close (tc_hours tc))); cbn [negb].
  - unfold at_close. rewrite (cs_time Hcs). cbn [andb negb].
    rewrite early_close_clock by (rewrite ?EarlyClose_day by done; done).
    rewrite EarlyClose_day, date_clock by done. unfold After. unfold Before in Hbe. by rewrite Hbe.
  - by replace (EarlyClose holidays (day_start k)) with (mh_Close (tc_hours tc)) by lia.
Qed.

(** From a start on day [k], before its close, the search ends on that day. *)
Lemma open_loop_close iters forDate start k :
  t_loc start = nyc → date_no start = k → trading holidays k = true →
  Before start (day_clock k closing) = true → Before forDate (close_of k) = true →
  open_loop holidays tc (S iters) forDate start = Some (close_of k).
Proof.
  intros Hl Hd Ht Hst Hbe. cbn [open_loop]. rewrite (cs_cron Hcs start Hl). unfold next_clock. rewrite Hd, Hst.
  by rewrite settle_close.
Qed.

(** From the chosen day, the first activation settles at that day's close. *)
Lemma close_found forDate k :
  t_loc forDate = nyc → trading holidays k = true → date_no forDate <= k → Before forDate (close_of k) = true →
  open_loop holidays tc max_iterations forDate (if Before (day_start k) forDate then forDate else day_start k) =
    Some (close_of k).
Proof.
  intros Hl Ht Hle Hbe. unfold max_iterations. change (Z.to_nat 5001) with (S (Z.to_nat 5000)).
  pose proof closing_pos as [Hp He]. pose proof (close_not_after k) as Hc. pose proof (date_bounds forDate Hl) as Hb.
  destruct (Before (day_start k) forDate) eqn:E.
  - apply open_loop_close; [done| |done| |done].
    + destruct (decide (date_no forDate = k)) as [|Hne]; [done|].
      exfalso. assert (Hd : date_no forDate + 1 <= k) by (clear -Hle Hne; lia). apply day_start_le in Hd. unfold Before in E. lia.
    + unfold Before in *. lia.
  - apply open_loop_close; [done|by rewrite date_no_start|done| |done].
    rewrite <-day_clock_0, Before_clock by done. lia.
Qed.

Lemma close_past t j : t_loc t = nyc → j < date_no t → Before t (close_of j) = false.
Proof.
  intros Hl Hj. pose proof (date_bounds t Hl) as [Hb _]. pose proof (close_within j) as [_ Hc].
  assert (Hd : j + 1 <= date_no t) by (clear -Hj; lia). apply day_start_le in Hd. unfold Before. lia.
Qed.
Lemma close_ahead t j : t_loc t = nyc → date_no t < j → Before t (close_of j) = true.
Proof.
  intros Hl Hj. pose proof (date_bounds t Hl) as [_ Hb]. pose proof (close_within j) as [Hc _].
  assert (Hd : date_no t + 1 <= j) by (clear -Hj; lia). apply day_start_le in Hd. unfold Before. lia.
Qed.

Lemma month_after k : Date (Year (day_start k)) (Month (day_start k) + 1) 1 0 0 0 0 nyc = day_start (month_first (month_of k + 1)).
Proof.
  rewrite Date_midnight. f_equal. unfold Year, Month. rewrite civil_start. unfold month_of, month_no, month_first.
  destruct (days_civil_roundtrip k) as [_ Hm]. set (c := civil_from_days k) in *. clearbody c.
  destruct (month_no_next (c_year c * 12 + (c_month c - 1))) as [<- <-].
  destruct (month_no_civil (c_year c) (c_month c) Hm) as [-> Hmod].
  replace ((c_year c * 12 + (c_month c - 1)) mod 12 + 1) with (c_month c) by lia.
  by replace (c_month c + 1 - 1) with (c_month c) by lia.
Qed.

(** The first close of a month after [t]. *)
Lemma least_closing t k1 :
  t_loc t = nyc → closes_month holidays k1 → Before t (close_of k1) = true →
  ∃ k, closes_month holidays k ∧ Before t (close_of k) = true ∧
    ∀ j, j < k → closes_month holidays j → Before t (close_of j) = false.
Proof.
  intros Hl Hcl Hbe.
  assert (Hle : date_no t <= k1) by (destruct (Z.lt_ge_cases k1 (date_no t)); [by rewrite close_past in Hbe|done]).
  destruct (least_day (λ k, bool_decide (closes_month holidays k) && Before t (close_of k)) (date_no t) k1)
    as (k & Hk & Hp & Hlow); [done|by rewrite bool_decide_eq_true_2|].
  apply andb_true_iff in Hp as [Hp Hb]. apply bool_decide_eq_true_1 in Hp. exists k. split; [done|]. split; [done|].
  intros j Hj Hclj. destruct (Z.lt_ge_cases j (date_no t)) as [|Hge]; [by apply close_past|].
  specialize (Hlow j ltac:(lia)). by rewrite bool_decide_eq_true_2 in Hlow.
Qed.

Lemma search_month_end t k :
  t_loc t = nyc → tc_DateFlag tc = AtMonthEnd → closes_month holidays k → Before t (close_of k) = true →
  (∀ j, j < k → closes_month holidays j → Before t (close_of j) = false) →
  ∃ f, ∀ fuel, (f <= fuel)%nat →
    search_start fuel holidays tc t = Some (if Before (day_start k) t then t else day_start k).
Proof.
  intros Hl Hflag Hk Hbe Hmin. destruct (next_closing_exists holidays (date_no t)) as (k0 & Hk0).
  destruct (last_trading_day_spec holidays t k0 Hk0) as (f0 & Hf0). destruct Hk0 as (Hle0 & Hcl0 & Hmin0).
  assert (Hkt : date_no t <= k).
  { destruct (Z.lt_ge_cases k (date_no t)); [|done]. rewrite close_past in Hbe by done. done. }
  assert (Hk0k : k0 <= k).
  { destruct (Z.lt_ge_cases k k0); [|done]. by destruct (Hmin0 k ltac:(lia)). }
  assert (Hn : ∃ n, cron_Next (tc_Schedule tc) t = day_clock n closing).
  { rewrite (cs_cron Hcs t Hl). unfold next_clock. case_match; eauto. }
  destruct Hn as [n Hn]. unfold search_start. rewrite Hflag. unfold month_end.
  destruct (Before t (close_of k0)) eqn:E0.
  - assert (k0 = k) as ->.
    { destruct (decide (k0 = k)) as [|Hne]; [done|]. rewrite Hmin in E0; [done|lia|done]. }
    exists f0. intros fuel Hf. unfold NextLastTradingDayOfMonth. rewrite Hf0 by lia.
    cbn [mbind option_bind]. by rewrite (firing_close k _ n Hn), E0.
  - assert (Hlt : k0 < k).
    { destruct (decide (k0 = k)) as [->|]; [congruence|lia]. }
    pose proof (month_range k0) as Hr0. set (start := month_first (month_of k0 + 1)) in *.
    assert (Hnk : next_closing holidays start k).
    { assert (Hsk : start <= k).
      { destruct (Z.lt_ge_cases k start) as [Hks|]; [|done]. destruct Hcl0 as [_ Hno], Hk as [Htk _].
        rewrite Hno in Htk; [done|fold start; lia]. }
      split; [done|]. split; [done|]. intros j Hj Hclj.
      (* the close of [j] is after [t], because that of the day [t] lies on is not *)
      assert (Hjt : Before t (close_of j) = true) by (apply close_ahead; [done|lia]).
      rewrite Hmin in Hjt; [done|lia|done]. }
    destruct (last_trading_day_spec holidays (day_start start) k) as (f1 & Hf1); [by rewrite date_no_start|].
    exists (Nat.max f0 f1). intros fuel Hf. unfold NextLastTradingDayOfMonth. rewrite Hf0 by lia.
    cbn [mbind option_bind]. rewrite (firing_close k0 _ n Hn), E0. cbn [negb].
    rewrite month_after. fold start. by rewrite Hf1 by lia.
Qed.
End Clocks.

(** ** Properties *)
Section Properties.
Implicit Types (t : Time) (n k : Z) (holidays : Holidays).

(** Offsets from the open and the close.  The first two tokens of a
    schedule with [@open] or [@close] are a signed offset in minutes and hours;
    the clock time they give is their exact sum with the session time, carried
    over the hour in both directions, and it is an error precisely when the sum
    leaves the day. *)
Theorem parseTimeRelativeTo_exact (t0 t1 t2 t3 t4 : string) (rest : list string) (mins hrs hours minutes : Z) :
  number_or_star t0 = Ok mins → number_or_star t1 = Ok hrs →
  - 2 ^ 62 < mins < 2 ^ 62 → - 2 ^ 61 < hrs < 2 ^ 61 → 0 <= hours <= 99 → 0 <= minutes <= 99 →
  let total := (hrs + hours) * 60 + mins + minutes in
  parseTimeRelativeTo (t0 :: t1 :: t2 :: t3 :: t4 :: rest) hours minutes =
    if (0 <=? total) && (total <? 1440)
    then Ok (pretty (total mod 60) +:+ " " +:+ pretty (total / 60) +:+ " " +:+ t2 +:+ " " +:+ t3 +:+ " " +:+ t4)
    else Err ErrFieldOutOfBounds.
Proof.
  intros H0 H1 Hm Hh Hhs Hms. cbn zeta. unfold parseTimeRelativeTo. rewrite H0, H1. cbn [mbind result_bind].
  rewrite (time_relative_total mins hrs hours minutes Hm Hh Hhs Hms). by case_match.
Qed.

(** The trading days of a month.  There always is a next one, and the
    loops find it: the first trading day of the next month is the first market
    day on or after the first of the month that follows; the last trading day
    of a month, asked from any time, is the first market day from that date on
    that has no market day after it in its month.  It holds for every holiday
    table, in any zone whose midnights read back. *)
Theorem Month_trading_days `{MarketZone} holidays t :
  (∃ k, month_first (month_of (date_no t) + 1) <= k ∧ trading holidays k = true ∧
     (∀ j, month_first (month_of (date_no t) + 1) <= j < k → trading holidays j = false) ∧
     ∃ f, ∀ fuel, (f <= fuel)%nat → NextFirstTradingDayOfMonth fuel holidays t = Some (day_start k)) ∧
  (∃ k, next_closing holidays (date_no t) k ∧
     ∃ f, ∀ fuel, (f <= fuel)%nat → NextLastTradingDayOfMonth fuel holidays t = Some (day_start k)).
Proof.
  split.
  - destruct (forward_loop holidays (month_first (month_of (date_no t) + 1) + 0)) as (f & k & Hk & Ht & Hlow & Hloop).
    rewrite Z.add_0_r in Hk, Hlow. exists k. split_and!; try done. exists f. intros fuel Hf.
    unfold NextFirstTradingDayOfMonth. rewrite first_of_month_day, AddDate_month. by apply Hloop.
  - destruct (next_closing_exists holidays (date_no t)) as (k & Hk). exists k. split; [done|].
    destruct (last_trading_day_spec holidays t k Hk) as (f & Hf). exists f. intros fuel Hfuel. by apply Hf.
Qed.

(** C36. A month-end schedule fires at the close of the last trading day.  In
    the exchange's zone, through its changes to and from daylight-saving time,
    with a cron library that activates the schedule at the regular close of
    every day, [Next] of an [@monthend] schedule terminates with the first
    close of a month's last trading day that is strictly after the given time,
    whatever the time's own zone; on an early-close day that close is the
    shortened one. *)
Theorem Next_month_end `{ExchangeZone} `{Cron} holidays (tc : TradeCron) forDate :
  close_schedule holidays tc → tc_DateFlag tc = AtMonthEnd →
  ∃ k, closes_month holidays k ∧ Before forDate (close_of holidays tc k) = true ∧
    (∀ j, j < k → closes_month holidays j → Before forDate (close_of holidays tc j) = false) ∧
    ∃ f, ∀ fuel, (f <= fuel)%nat → Next fuel holidays tc forDate = Some (close_of holidays tc k).
Proof.
  intros Hcs Hflag. set (t := InLoc forDate nyc).
  assert (HBe : ∀ u, Before forDate u = Before t u) by done. setoid_rewrite HBe.
  destruct (next_closing_exists holidays (date_no t + 1)) as (k1 & Hk1 & Hcl1 & _).
  assert (Hb1 : Before t (close_of holidays tc k1) = true) by (apply close_ahead; [done|done|lia]).
  destruct (least_closing holidays tc Hcs t k1 eq_refl Hcl1 Hb1) as (k & Hcl & Hbe & Hmin).
  exists k. split; [done|]. split; [done|]. split; [done|].
  destruct (search_month_end holidays tc Hcs t k eq_refl Hflag Hcl Hbe Hmin) as (f & Hf).
  exists f. intros fuel Hfuel. unfold Next. fold t. rewrite Hf by done. cbn [mbind option_bind].
  apply close_found; try done; [apply Hcl|].
  destruct (Z.lt_ge_cases k (date_no t)); [|done]. by rewrite (close_past holidays tc Hcs) in Hbe.
Qed.

(** The activations after [t], in order. *)
Definition activation `{Cron} (tc : TradeCron) t (i : nat) : Time := Nat.iter (S i) (cron_Next (tc_Schedule tc)) t.

Lemma open_loop_first `{TZDB} `{Cron} holidays (tc : TradeCron) forDate t iters :
  match open_loop holidays tc iters forDate t with
  | Some r => ∃ i, (i < iters)%nat ∧ settle holidays tc forDate (activation tc t i) = Some r ∧
      ∀ j, (j < i)%nat → settle holidays tc forDate (activation tc t j) = None
  | None => ∀ i, (i < iters)%nat → settle holidays tc forDate (activation tc t i) = None
  end.
Proof.
  assert (Hs : ∀ t i, activation tc (cron_Next (tc_Schedule tc) t) i = activation tc t (S i))
    by (intros u i; unfold activation; symmetry; apply (Nat.iter_succ_r (S i))).
  revert t. induction iters as [|iters IH]; intros t; cbn [open_loop]; [intros; lia|].
  destruct (settle holidays tc forDate (cron_Next (tc_Schedule tc) t)) as [r|] eqn:E.
  { exists 0%nat. split; [lia|]. split; [done|intros; lia]. }
  specialize (IH (cron_Next (tc_Schedule tc) t)). destruct (open_loop _ _ _ _ _) as [r|].
  - destruct IH as (i & Hi & Hr & Hno). exists (S i). split; [lia|]. rewrite <-Hs. split; [done|].
    intros [|j] Hj; [done|]. rewrite <-Hs. apply Hno. lia.
  - intros [|i] Hi; [done|]. rewrite <-Hs. apply IH. lia.
Qed.

(** A plain schedule fires at its first activation in market hours.  When
    the cron library only moves forward, [Next] of a schedule without a date
    modifier gives a time strictly after the given one.  It is the first
    activation at which the market is open; a schedule of the close takes the
    shortened close of a day whose activation comes too late for it.  There
    is no answer, and the source panics, only when none of the first 5001
    activations will do. *)
Theorem Next_first_open `{TZDB} `{Cron} (fuel : nat) holidays (tc : TradeCron) forDate :
  tc_DateFlag tc = NoDateFlag → (∀ t, After (cron_Next (tc_Schedule tc) t) t = true) →
  let act := activation tc (InLoc forDate nyc) in
  match Next fuel holidays tc forDate with
  | Some r =>
      After r forDate = true ∧
      ∃ i, (i < max_iterations)%nat ∧ (∀ j, (j < i)%nat → IsMarketOpen holidays (tc_hours tc) (act j) = false) ∧
        (r = act i ∧ IsMarketOpen holidays (tc_hours tc) r = true ∨
         r = early_close_on holidays (act i) ∧ tc_TimeFlag tc = AtClose ∧ IsMarketDay holidays (act i) = true ∧
         EarlyClose holidays (act i) ≠ 0 ∧ IsMarketOpen holidays (tc_hours tc) (act i) = false)
  | None => ∀ i, (i < max_iterations)%nat → IsMarketOpen holidays (tc_hours tc) (act i) = false
  end.
Proof.
  intros Hflag Hfwd. cbn zeta. unfold Next, search_start. rewrite Hflag. cbn [fmap option_fmap option_map mbind option_bind].
  rewrite Before_irrefl. pose proof (open_loop_first holidays tc (InLoc forDate nyc) (InLoc forDate nyc) max_iterations) as Hl.
  assert (Hnone : ∀ a, settle holidays tc (InLoc forDate nyc) a = None → IsMarketOpen holidays (tc_hours tc) a = false)
    by (intros a; unfold settle; by destruct (IsMarketOpen _ _ _)).
  assert (Hact : ∀ i, After (activation tc (InLoc forDate nyc) i) forDate = true).
  { induction i as [|i IH]; [exact (Hfwd (InLoc forDate nyc))|].
    pose proof (Hfwd (activation tc (InLoc forDate nyc) i)) as Hf. change (activation tc (InLoc forDate nyc) (S i)) with
      (cron_Next (tc_Schedule tc) (activation tc (InLoc forDate nyc) i)). unfold After in *. lia. }
  clear Hfwd. destruct (open_loop _ _ _ _ _) as [r|].
  - destruct Hl as (i & Hlt & Hr & Hno). pose proof (Hact i) as Ha. set (a := activation tc _ i) in *. unfold settle in Hr.
    destruct (IsMarketOpen holidays (tc_hours tc) a) eqn:Eo.
    + injection Hr as <-. split; [done|]. exists i. split; [done|]. split; [intros; apply Hnone; by apply Hno|].
      left. fold a. split; done.
    + destruct (at_close tc) eqn:Ec; [|done]. destruct (IsMarketDay holidays a) eqn:Ed; [|done].
      destruct (Z.eqb_spec (EarlyClose holidays a) 0); [done|]. cbn [andb negb] in Hr.
      destruct (After (early_close_on holidays a) (InLoc forDate nyc)) eqn:Ea; [|done]. injection Hr as <-.
      split; [exact Ea|]. exists i. split; [done|]. split; [intros; apply Hnone; by apply Hno|].
      right. fold a. unfold at_close in Ec. split_and!; try done. by destruct (tc_TimeFlag tc).
  - intros i Hlt. by apply Hnone, Hl.
Qed.
End Properties.

(** ** Witnesses *)

(** A zone of constant offset, and New York in 2024: daylight-saving time from
    the 10th of March to the 3rd of November. *)
Lemma constant_zone `{TZDB} off : (∀ u, zone nyc u = off) → -43200 < off < 43200 → ExchangeZone.
Proof.
  intros Hz Hoff. split; unfold every_day, day_clock, wall_secs, Unix; cbn [t_ns t_loc]; intros; rewrite ?Hz; [lia|..].
  - rewrite Z.div_mul by done. lia.
  - unfold ns_per_sec. lia.
  - rewrite Z.div_mul by done. lia.
Qed.
Definition new_york_2024 : TZDB := {|
  zone loc u := if bool_decide (loc = nyc) then if (1710054000 <=? u) && (u <? 1730613600) then -14400 else -18000 else 0
|}.
Section NewYorkZone.
Local Existing Instance new_york_2024.
Lemma new_york_zone u :
  1710054000 <= u < 1730613600 ∧ zone nyc u = -14400 ∨ ¬ (1710054000 <= u < 1730613600) ∧ zone nyc u = -18000.
Proof.
  unfold zone, new_york_2024. rewrite bool_decide_eq_true_2 by done.
  destruct (Z.leb_spec 1710054000 u), (Z.ltb_spec u 1730613600); cbn [andb]; lia.
Qed.
(** What [Date] makes of a wall time: the changes are at two in the morning. *)
Lemma new_york_wall w :
  1710036000 <= w < 1730599200 ∧ zone nyc (w - zone nyc w) = -14400 ∨
  ¬ (1710036000 <= w < 1730599200) ∧ zone nyc (w - zone nyc w) = -18000.
Proof.
  destruct (new_york_zone w) as [[? ->]|[? ->]]; [destruct (new_york_zone (w - -14400))|destruct (new_york_zone (w - -18000))]; lia.
Qed.
#[export] Instance new_york_exchange : ExchangeZone.
Proof.
  split; unfold every_day, day_clock, wall_secs, Unix, secs_per_day, ns_per_sec; cbn [t_ns t_loc].
  - intros u. destruct (new_york_zone u); lia.
  - intros n s Hs. rewrite Z.div_mul by done. destruct (new_york_wall (n * 86400 + s)) as [[? ->]|[? ->]];
      [destruct (new_york_zone (n * 86400 + s - -14400))|destruct (new_york_zone (n * 86400 + s - -18000))]; lia.
  - intros n s s' Hs Hs' Hlt. destruct (new_york_wall (n * 86400 + s)), (new_york_wall (n * 86400 + s')); lia.
  - intros u n. rewrite Z.div_mul by done. destruct (new_york_wall (n * 86400 + 0)), (new_york_zone u); lia.
Qed.
End NewYorkZone.

(** A cron library for specifications of one clock time a day. *)
Definition daily_cron `{TZDB} : Cron := {|
  CronSchedule := Z;
  cron_parse := λ spec,
    match Split spec with
    | m :: h :: _ =>
        match Atoi m, Atoi h with
        | Some m, Some h => Ok (h * 3600 + m * 60)
        | _, _ => Err "not a clock time"%string
        end
    | _ => Err "not a clock time"%string
    end;
  cron_Next := λ s t, next_clock s (InLoc t nyc);
|}.

Section Thanksgiving.
Context `{ExchangeZone}.
Local Existing Instance daily_cron.

(** Thanksgiving of 2024 closed the market on 28 November and shortened the
    session of the 29th, the month's last. *)
Definition thanksgiving : Holidays :=
  SetMarketHolidays [mkHoliday (day 332) false 0; mkHoliday (day 333) true 1300].
Context (in_zone : thanksgiving = (<[Unix (day_start 20056) := 1300]> (<[Unix (day_start 20055) := 0]> ∅) : gmap Z Z)).

Definition month_end_cron : TradeCron :=
  match New "@monthend" RegularHours with
  | Ok tc => tc
  | Err _ => mkTradeCron 0 "" "" NoTimeFlag NoDateFlag RegularHours
  end.

Lemma Unix_start_inj n k : Unix (day_start n) = Unix (day_start k) → n = k.
Proof.
  unfold Unix. intros E. assert (En : t_ns (day_start n) = t_ns (day_start k)).
  { unfold day_start in *. cbn [t_ns] in *. by rewrite !Z.div_mul in E by done; rewrite E. }
  destruct (Z.lt_trichotomy n k) as [Hlt|[?|Hlt]]; [|done|]; apply day_start_mono in Hlt; lia.
Qed.

Lemma thanksgiving_early k : EarlyClose thanksgiving (day_start k) = if k =? 20056 then 1300 else 0.
Proof.
  rewrite EarlyClose_date, date_no_start, in_zone by done. destruct (Z.eqb_spec k 20056) as [->|Hne]; [apply lookup_d_insert_eq|].
  rewrite lookup_d_insert_ne by (intros E%Unix_start_inj; lia). destruct (decide (k = 20055)) as [->|]; [apply lookup_d_insert_eq|].
  rewrite lookup_d_insert_ne by (intros E%Unix_start_inj; lia). apply lookup_d_empty.
Qed.

Lemma month_end_schedule : close_schedule thanksgiving month_end_cron.
Proof.
  assert (Ef : tc_TimeFlag month_end_cron = AtClose) by (vm_compute; reflexivity).
  assert (Eh : tc_hours month_end_cron = RegularHours) by (vm_compute; reflexivity).
  assert (Es : tc_Schedule month_end_cron = 57600) by (vm_compute; reflexivity).
  split; rewrite ?Eh, ?Es; [exact Ef|unfold clock_value; vm_compute; intuition congruence|cbn; lia| |].
  - intros k. cbn zeta. rewrite thanksgiving_early. destruct (k =? 20056); [right|by left].
    unfold clock_value. vm_compute. intuition congruence.
  - intros [ns loc] Hl. cbn in Hl. subst loc. reflexivity.
Qed.
End Thanksgiving.

Section Witnesses.
Local Existing Instances utc_db daily_cron.

Lemma parseTimeRelativeTo_exact_witness :
  parseTimeRelativeTo ["-15"; "0"; "*"; "*"; "*"]%string 16 0 = Ok "45 15 * * *"%string ∧
  parseTimeRelativeTo ["30"; "8"; "*"; "*"; "*"]%string 16 0 = Err ErrFieldOutOfBounds.
Proof.
  split.
  - rewrite (parseTimeRelativeTo_exact "-15" "0" "*" "*" "*" [] (-15) 0 16 0) by (reflexivity || lia). reflexivity.
  - rewrite (parseTimeRelativeTo_exact "30" "8" "*" "*" "*" [] 30 8 16 0) by (reflexivity || lia). reflexivity.
Defined.

Lemma utc_fixed : ∀ u, zone nyc u = 0.
Proof. done. Qed.
#[export] Instance utc_exchange : ExchangeZone.
Proof. apply (constant_zone 0); [exact utc_fixed|lia]. Qed.
Lemma utc_clock n s : day_clock n s = mkTime ((n * secs_per_day + s) * ns_per_sec) nyc.
Proof. unfold day_clock. change (zone nyc _) with 0. by rewrite Z.sub_0_r. Qed.
Lemma utc_thanksgiving : thanksgiving = (<[Unix (day_start 20056) := 1300]> (<[Unix (day_start 20055) := 0]> ∅) : gmap Z Z).
Proof. vm_compute. reflexivity. Qed.

Lemma Month_trading_days_witness :
  ∃ k, trading thanksgiving k = true ∧ (∀ j, month_first (month_of (date_no (day 300)) + 1) <= j < k → trading thanksgiving j = false) ∧
    ∃ f, ∀ fuel, (f <= fuel)%nat → NextFirstTradingDayOfMonth fuel thanksgiving (day 300) = Some (day_start k).
Proof.
  destruct (Month_trading_days thanksgiving (day 300)) as [(k & _ & Ht & Hlow & Hf) _].
  exists k. split; [exact Ht|]. split; [exact Hlow|exact Hf].
Defined.

Definition daily_open_cron : TradeCron := mkTradeCron 34200 "@daily" "30 9 * * *" AtOpen NoDateFlag RegularHours.

(** From Wednesday evening, over the holiday, to Friday morning. *)
Lemma Next_first_open_witness :
  let r := mkTime (t_ns (day 333) + 34200 * ns_per_sec) nyc in
  Next 10 thanksgiving daily_open_cron (mkTime (t_ns (day 331) + 20 * ns_per_hour) "UTC") = Some r ∧
  After r (mkTime (t_ns (day 331) + 20 * ns_per_hour) "UTC") = true.
Proof.
  assert (Hfwd : ∀ t, After (cron_Next (tc_Schedule daily_open_cron) t) t = true).
  { intros t. cbn. unfold next_clock. destruct (Before (InLoc t nyc) _) eqn:E; [exact E|].
    pose proof (date_bounds (InLoc t nyc) eq_refl) as [_ Hb]. unfold After. apply Z.ltb_lt.
    eapply Z.lt_le_trans; [exact Hb|]. apply day_before_clock; [done|]. unfold every_day, secs_per_day. lia. }
  cbn zeta. pose proof (Next_first_open 10 thanksgiving daily_open_cron
    (mkTime (t_ns (day 331) + 20 * ns_per_hour) "UTC") eq_refl Hfwd) as Hn. cbn zeta in Hn.
  assert (E : Next 10 thanksgiving daily_open_cron (mkTime (t_ns (day 331) + 20 * ns_per_hour) "UTC") =
    Some (mkTime (t_ns (day 333) + 34200 * ns_per_sec) nyc)) by (vm_compute; reflexivity).
  rewrite E in Hn. split; [exact E|exact (proj1 Hn)].
Defined.

(** Monday, 15 January 2024, was a holiday.  Asked on the Friday before, the
    first trading day of the week is Tuesday the 16th; asked on that Tuesday
    before the open, the schedule skips the day. *)
Definition king_day : Holidays := SetMarketHolidays [mkHoliday (day 14) false 0].
Definition week_begin_cron : TradeCron := mkTradeCron 34200 "@weekbegin" "30 9 * * *" AtOpen AtWeekBegin RegularHours.

Theorem week_begin_skips_first_day :
  Next 10 king_day week_begin_cron (day 11) = Some (mkTime (t_ns (day 15) + 34200 * ns_per_sec) nyc) ∧
  Next 10 king_day week_begin_cron (mkTime (t_ns (day 15) + 7 * ns_per_hour) "UTC") =
    Some (mkTime (t_ns (day 21) + 34200 * ns_per_sec) nyc).
Proof. vm_compute. split; reflexivity. Qed.
End Witnesses.

(** Out of daylight-saving time: from the last evening of October the schedule
    fires at 13:00 standard time on the 29th of November. *)
Section NewYork.
Local Existing Instances new_york_2024 daily_cron.
Lemma new_york_thanksgiving : thanksgiving = (<[Unix (day_start 20056) := 1300]> (<[Unix (day_start 20055) := 0]> ∅) : gmap Z Z).
Proof. vm_compute. reflexivity. Qed.

Lemma Next_month_end_witness :
  ∃ f, ∀ fuel, (f <= fuel)%nat →
    Next fuel thanksgiving month_end_cron (day 305) = Some (mkTime (t_ns (day 333) + 18 * ns_per_hour) nyc).
Proof.
  pose proof (month_end_schedule new_york_thanksgiving) as Hcs.
  destruct (Next_month_end thanksgiving month_end_cron (day 305) Hcs ltac:(vm_compute; reflexivity)) as (k & Hcl & Hbe & Hmin & Hf).
  assert (Hk : k = 20056).
  { assert (Hlast : closes_month thanksgiving 20056) by (apply (bool_decide_unpack _); vm_compute; done).
    assert (Hb : Before (day 305) (close_of thanksgiving month_end_cron 20056) = true) by (vm_compute; reflexivity).
    destruct (Z.lt_trichotomy k 20056) as [Hlt|[E|Hlt]]; [exfalso|exact E|rewrite Hmin in Hb; [discriminate Hb|done|exact Hlast]].
    assert (Hge : 20028 <= k).
    { assert (Ed : date_no (InLoc (day 305) nyc) = 20027) by (vm_compute; reflexivity).
      change (Before (InLoc (day 305) nyc) (close_of thanksgiving month_end_cron k) = true) in Hbe.
      destruct (Z.lt_trichotomy k 20027) as [Hk|[->|Hk]]; [|vm_compute in Hbe; discriminate Hbe|lia].
      rewrite (close_past _ _ Hcs) in Hbe; [discriminate Hbe|done|rewrite Ed; exact Hk]. }
    destruct Hcl as [_ Hno]. assert (Hm : month_first (month_of k + 1) = 20058).
    { rewrite (month_of_unique k (month_of 20056)); [vm_compute; reflexivity|].
      assert (E1 : month_first (month_of 20056) = 20028) by (vm_compute; reflexivity).
      assert (E2 : month_first (month_of 20056 + 1) = 20058) by (vm_compute; reflexivity). rewrite E1, E2. lia. }
    rewrite Hm in Hno. assert (Ht : trading thanksgiving 20056 = true) by (vm_compute; reflexivity).
    rewrite Hno in Ht; [discriminate Ht|lia]. }
  subst k. destruct Hf as (f & Hf). exists f. intros fuel Hfuel. rewrite Hf by exact Hfuel. vm_compute. reflexivity.
Defined.
End NewYork.
