(* ===== verification/Sessions.v ===== *)
(** * Sessions: the days of the exchange's calendar as rows of daily data

    Daily data carries one row per day, stamped at one instant of it in New
    York.  Dates, date keys and calendar years of such rows are monotone
    functions of the day number, and the chunks of the column cache are the
    calendar years. *)
From Stdlib Require Import ZArith Lia Sorted.
From stdpp Require Import base list gmap strings sorting.
From S2P Require Import Prelude Num GoTime Asset Period Frame Calendar Schedule ScheduleProps DataCache.
Local Open Scope Z_scope.
#[local] Opaque days_from_civil civil_from_days.

(** ** Years and date keys of day numbers *)
Definition year_no (n : Z) : Z := c_year (civil_from_days n).
Definition key_no (n : Z) : Z :=
  let c := civil_from_days n in c_year c * 10000 + c_month c * 100 + c_day c.
Definition jan1 (y : Z) : Z := days_from_civil y 1 1.

Lemma civil_of_day n :
  let c := civil_from_days n in
  c_year c = month_of n / 12 ∧ c_month c = month_of n mod 12 + 1 ∧
  c_day c = n - month_first (month_of n) + 1 ∧ 1 <= c_day c <= 31.
Proof.
  cbn zeta. destruct (days_civil_roundtrip n) as [Hrt Hm]. set (c := civil_from_days n) in *.
  destruct (month_no_civil (c_year c) (c_month c) Hm) as [E1 E2].
  assert (Hmo : month_of n = c_year c * 12 + (c_month c - 1)) by done. rewrite <-Hmo in E1, E2.
  pose proof (month_range n) as Hr.
  assert (Hd : n = month_first (month_of n) + (c_day c - 1)).
  { unfold month_first. rewrite E1, E2, <-days_from_civil_day. by replace (1 + (c_day c - 1)) with (c_day c) by lia. }
  assert (Hle : month_first (month_of n + 1) <= month_first (month_of n) + 31).
  { clear. destruct (month_split (month_of n)) as (y & mp & Hmp & ->). rewrite month_first_mp, month_first_mp_next by done.
    destruct (Z.eqb_spec mp 11) as [->|Hne]; [|unfold month_start; pose proof (Z.div_mod (153 * mp + 2) 5); pose proof (Z.mod_pos_bound (153 * mp + 2) 5);
      pose proof (Z.div_mod (153 * (mp + 1) + 2) 5); pose proof (Z.mod_pos_bound (153 * (mp + 1) + 2) 5); lia].
    change (month_start 11) with 337. pose proof (Z.mod_pos_bound y 400). set (yoe := y mod 400) in *. clearbody yoe.
    destruct (Z.eqb_spec yoe 399) as [->|]; [change (year_start 399) with 145731; lia|unfold year_start].
    assert ((yoe + 1) / 4 <= yoe / 4 + 1) by (pose proof (Z.div_mod (yoe + 1) 4); pose proof (Z.div_mod yoe 4);
      pose proof (Z.mod_pos_bound (yoe + 1) 4); pose proof (Z.mod_pos_bound yoe 4); lia).
    assert (yoe / 100 <= (yoe + 1) / 100) by (apply Z.div_le_mono; lia). lia. }
  split; [done|]. split; [lia|]. lia.
Qed.

Lemma year_no_mono n k : n <= k → year_no n <= year_no k.
Proof.
  intros Hle. unfold year_no. destruct (civil_of_day n) as (-> & _), (civil_of_day k) as (-> & _).
  apply Z.div_le_mono; [lia|]. by apply month_of_mono.
Qed.

Lemma key_no_mono n k : n < k → key_no n < key_no k.
Proof.
  intros Hlt. unfold key_no. cbn zeta. destruct (civil_of_day n) as (Y1 & M1 & D1 & B1), (civil_of_day k) as (Y2 & M2 & D2 & B2).
  set (c := civil_from_days n) in *. set (d := civil_from_days k) in *. pose proof (month_of_mono n k ltac:(lia)) as Hm.
  pose proof (Z.div_mod (month_of n) 12 ltac:(lia)). pose proof (Z.mod_pos_bound (month_of n) 12 ltac:(lia)).
  pose proof (Z.div_mod (month_of k) 12 ltac:(lia)). pose proof (Z.mod_pos_bound (month_of k) 12 ltac:(lia)).
  destruct (decide (month_of n = month_of k)) as [He|Hne]; [rewrite <-He in *; lia|]. lia.
Qed.

Lemma key_no_le n k : key_no n <= key_no k ↔ n <= k.
Proof.
  split; intros Hle.
  - destruct (Z.lt_ge_cases k n) as [Hlt|]; [|done]. pose proof (key_no_mono k n Hlt). lia.
  - destruct (decide (n = k)) as [->|]; [lia|]. pose proof (key_no_mono n k). lia.
Qed.

Lemma key_no_lt n k : key_no n < key_no k ↔ n < k.
Proof. pose proof (key_no_le k n). lia. Qed.
Lemma key_no_inj n k : key_no n = key_no k → n = k.
Proof. intros E. pose proof (key_no_le n k). pose proof (key_no_le k n). lia. Qed.

Lemma year_jan1 y : year_no (jan1 y) = y.
Proof.
  unfold year_no, jan1. pose proof (civil_month_first (y * 12)) as Hc. unfold month_first in Hc.
  rewrite Z.div_mul, Z.mod_mul in Hc by lia. change (0 + 1) with 1 in Hc. by rewrite Hc.
Qed.

(** A day lies in the year whose first day is the last not after it. *)
Lemma year_no_bounds n y : jan1 y <= n < jan1 (y + 1) → year_no n = y.
Proof.
  intros Hn. pose proof (year_no_mono (jan1 y) n ltac:(lia)) as H1. rewrite year_jan1 in H1.
  assert (H2 : month_of n < (y + 1) * 12).
  { destruct (Z.lt_ge_cases (month_of n) ((y + 1) * 12)) as [|Hge]; [done|]. exfalso.
    pose proof (month_first_le _ _ Hge) as Hle. pose proof (month_range n). unfold jan1 in Hn.
    unfold month_first at 1 in Hle. rewrite Z.div_mul, Z.mod_mul in Hle by lia. change (0 + 1) with 1 in Hle. lia. }
  unfold year_no in *. destruct (civil_of_day n) as (E & _). rewrite E in *.
  pose proof (Z.div_mod (month_of n) 12 ltac:(lia)). pose proof (Z.mod_pos_bound (month_of n) 12 ltac:(lia)). lia.
Qed.

Lemma year_bounds n : jan1 (year_no n) <= n < jan1 (year_no n + 1).
Proof.
  destruct (civil_of_day n) as (E & _). fold (year_no n) in E. set (y := year_no n) in *.
  pose proof (month_range n) as Hr. pose proof (Z.div_mod (month_of n) 12 ltac:(lia)).
  pose proof (Z.mod_pos_bound (month_of n) 12 ltac:(lia)).
  pose proof (month_first_le (y * 12) (month_of n) ltac:(lia)) as H1.
  pose proof (month_first_le (month_of n + 1) ((y + 1) * 12) ltac:(lia)) as H2.
  unfold jan1. unfold month_first at 1 in H1. unfold month_first at 2 in H2.
  rewrite Z.div_mul, Z.mod_mul in H1, H2 by lia. change (0 + 1) with 1 in *. lia.
Qed.

Section Sessions.
Context `{MarketZone}.
Implicit Types (t : Time) (n k y : Z).

Lemma Year_no t : Year t = year_no (date_no t).
Proof. unfold Year, civil, year_no, date_no. reflexivity. Qed.
Lemma YearDay_no t : YearDay t = date_no t - jan1 (Year t) + 1.
Proof.
  unfold YearDay, Year, Month, Day, civil, jan1. fold (date_no t).
  pose proof (proj1 (days_civil_roundtrip (date_no t))) as E. cbn zeta in E. rewrite E. reflexivity.
Qed.
Lemma dateKey_no t : dateKey t = key_no (date_no t).
Proof. unfold dateKey, Year, Month, Day, civil, key_no, date_no. reflexivity. Qed.

Lemma InLoc_same t : t_loc t = nyc → InLoc t nyc = t.
Proof. destruct t. cbn. by intros ->. Qed.

(** ** Chunks of the cache *)
Lemma Date_jan1 y : Date y 1 1 0 0 0 0 nyc = day_start (jan1 y).
Proof. rewrite Date_midnight. unfold jan1. by rewrite (Z.div_small (1 - 1)), Z.add_0_r. Qed.

Lemma whole_second n : t_ns (day_start n) = Unix (day_start n) * ns_per_sec.
Proof. unfold Unix, day_start. cbn [t_ns]. by rewrite Z.div_mul. Qed.

Lemma year_chunk_start y : mkTime (year_chunk y * ns_per_sec) nyc = day_start (jan1 y).
Proof. unfold year_chunk. rewrite Date_jan1, <-whole_second. done. Qed.

Lemma Unix_day_start_inj n k : Unix (day_start n) = Unix (day_start k) → n = k.
Proof.
  intros E. destruct (Z.lt_trichotomy n k) as [Hlt|[?|Hlt]]; [|done|]; apply day_start_mono in Hlt;
    rewrite !whole_second in Hlt; unfold ns_per_sec in Hlt; lia.
Qed.

Lemma jan1_inj y z : jan1 y = jan1 z → y = z.
Proof. intros E. by rewrite <-(year_jan1 y), E, year_jan1. Qed.

Lemma year_chunk_inj y z : year_chunk y = year_chunk z → y = z.
Proof. unfold year_chunk. rewrite !Date_jan1. intros E%Unix_day_start_inj. by apply jan1_inj. Qed.

Lemma chunk_year y : Year (mkTime (year_chunk y * ns_per_sec) nyc) = y.
Proof. rewrite year_chunk_start, Year_no, date_no_start. apply year_jan1. Qed.

(** The chunks of a range are its calendar years. *)
Definition years_between (from to : Z) : list Z := (λ i, from + Z.of_nat i) <$> seq 0 (Z.to_nat (to - from + 1)).

Lemma elem_of_years from to y : y ∈ years_between from to ↔ from <= y <= to.
Proof.
  unfold years_between. rewrite list_elem_of_fmap. setoid_rewrite elem_of_seq. split.
  - intros (i & -> & Hi). lia.
  - intros Hy. exists (Z.to_nat (y - from)). lia.
Qed.

Lemma years_between_one y : years_between y y = [y].
Proof. unfold years_between. rewrite Z.sub_diag. change (Z.to_nat (0 + 1)) with 1%nat. cbn [seq fmap list_fmap]. by rewrite Z.add_0_r. Qed.

Lemma chunkYears_between start end_ :
  t_loc start = nyc → t_loc end_ = nyc → year_no (date_no start) <= year_no (date_no end_) + 1 →
  chunkYears start end_ = Some (year_chunk <$> years_between (year_no (date_no start)) (year_no (date_no end_))).
Proof.
  intros Hs He Hle. unfold chunkYears. rewrite !InLoc_same, !Year_no by done.
  destruct (Z.ltb_spec (year_no (date_no end_) - year_no (date_no start) + 1) 0); [lia|].
  unfold years_between. rewrite <-list_fmap_compose. unfold compose. reflexivity.
Qed.
End Sessions.

(** ** Stamps: the instant of a day's row *)
Record day_stamps `{TZDB} (stamp : Z → Time) : Prop := {
  stamp_loc : ∀ n, t_loc (stamp n) = nyc;
  stamp_day : ∀ n, date_no (stamp n) = n;
  stamp_within : ∀ n, t_ns (day_start n) <= t_ns (stamp n) < t_ns (day_start (n + 1));
}.

Section Stamps.
Context `{MarketZone} (stamp : Z → Time) (Hst : day_stamps stamp).
Implicit Types (t : Time) (n k y : Z) (days : list Z).

Lemma stamp_lt n k : n < k → t_ns (stamp n) < t_ns (stamp k).
Proof.
  intros Hlt. pose proof (stamp_within _ Hst n). pose proof (stamp_within _ Hst k).
  destruct (decide (n + 1 = k)) as [<-|]; [lia|]. pose proof (day_start_mono (n + 1) k). lia.
Qed.
Lemma stamp_Before n k : Before (stamp n) (stamp k) = (n <? k).
Proof.
  unfold Before. destruct (Z.lt_trichotomy n k) as [Hlt|[->|Hlt]]; [pose proof (stamp_lt n k Hlt)| |pose proof (stamp_lt k n Hlt)]; lia.
Qed.
Lemma stamp_inj n k : stamp n = stamp k → n = k.
Proof. intros E. by rewrite <-(stamp_day _ Hst n), E, (stamp_day _ Hst). Qed.

Lemma Unix_stamp_lt n k : n < k → Unix (stamp n) < Unix (stamp k).
Proof.
  intros Hlt. pose proof (stamp_within _ Hst n) as H1. pose proof (stamp_within _ Hst k) as H2.
  assert (H3 : t_ns (day_start (n + 1)) <= t_ns (day_start k)).
  { destruct (decide (n + 1 = k)) as [<-|]; [lia|]. pose proof (day_start_mono (n + 1) k). lia. }
  rewrite (whole_second (n + 1)) in H1, H3. rewrite (whole_second k) in H2, H3.
  change (Unix (stamp n)) with (t_ns (stamp n) / ns_per_sec). change (Unix (stamp k)) with (t_ns (stamp k) / ns_per_sec).
  pose proof (Z.div_lt_upper_bound (t_ns (stamp n)) ns_per_sec (Unix (day_start (n + 1))) ltac:(done)).
  pose proof (Z.div_le_lower_bound (t_ns (stamp k)) ns_per_sec (Unix (day_start k)) ltac:(done)).
  unfold ns_per_sec in *. lia.
Qed.
Lemma Unix_stamp_inj n k : Unix (stamp n) = Unix (stamp k) → n = k.
Proof.
  intros E. destruct (Z.lt_trichotomy n k) as [Hlt|[?|Hlt]]; [|done|]; apply Unix_stamp_lt in Hlt; lia.
Qed.

Lemma stamp_key n : dateKey (stamp n) = key_no n.
Proof. by rewrite dateKey_no, (stamp_day _ Hst). Qed.

Lemma stamps_chronological days :
  StronglySorted Z.lt days → StronglySorted (λ u v, dateKey u < dateKey v) (stamp <$> days).
Proof.
  induction 1 as [|n days Hs IH Hn]; cbn; constructor; [done|]. apply Forall_fmap.
  eapply Forall_impl; [exact Hn|]. intros k Hlt. cbn. rewrite !stamp_key. by apply key_no_mono.
Qed.

Lemma dates_of_stamps days : date_no <$> (stamp <$> days) = days.
Proof. induction days as [|n days IH]; cbn; [done|]. by rewrite (stamp_day _ Hst), IH. Qed.
End Stamps.
