(* ===== verification/FetchFacts.v ===== *)
(** * FetchFacts: what the cache holds and what is assembled from it

    The recorded data is a function from asset, metric and day to a value, NaN
    where nothing is on record.  A cache entry is right for it when it lists
    days of its year, with the values on record, and leaves out none that has
    one.  A frame assembled from right entries is a grid of these values; the
    misses of a request, once fetched from providers that answer truthfully,
    leave the cache right and every requested column served. *)
From Stdlib Require Import ZArith Lia Sorted.
From stdpp Require Import base list gmap strings sorting.
From S2P Require Import Prelude Num GoTime Asset Period Frame Metrics FrameOps Calendar Schedule Provider DataCache Fetch.
From S2P Require Import FrameProps FrameOpsProps ScheduleProps Sessions.
Local Open Scope Z_scope.
#[local] Opaque days_from_civil civil_from_days date_no year_chunk.

(** ** Frames given by a function of asset and metric *)
Section Grid.
Context {F : Type} `{Num F} `{TZDB}.
Implicit Types (a b : Asset) (m : Metric) (col : Asset → Metric → list F).

Definition cells_of {A} (assets : list Asset) (metrics : list Metric) (f : Asset → Metric → A) : list A :=
  a ← assets; m ← metrics; [f a m].

Lemma cells_cons {A} a (assets : list Asset) (metrics : list Metric) (f : Asset → Metric → A) :
  cells_of (a :: assets) metrics f = (f a <$> metrics) ++ cells_of assets metrics f.
Proof. reflexivity. Qed.

Lemma length_cells_of {A} (assets : list Asset) (metrics : list Metric) (f : Asset → Metric → A) :
  length (cells_of assets metrics f) = (length assets * length metrics)%nat.
Proof. induction assets as [|a l IH]; [done|]. rewrite cells_cons, length_app, length_fmap, IH. done. Qed.

Lemma cells_of_lookup {A} (assets : list Asset) (metrics : list Metric) (f : Asset → Metric → A) ai mi a m :
  assets !! ai = Some a → metrics !! mi = Some m →
  cells_of assets metrics f !! (ai * length metrics + mi)%nat = Some (f a m).
Proof.
  intros Ha Hm. pose proof (lookup_lt_Some _ _ _ Hm). revert ai Ha. induction assets as [|b l IH]; intros ai Ha; [done|].
  rewrite cells_cons. destruct ai as [|ai]; cbn in Ha.
  - simplify_eq. rewrite Nat.mul_0_l, Nat.add_0_l.
    rewrite lookup_app_l by (rewrite length_fmap; done). by rewrite list_lookup_fmap, Hm.
  - rewrite lookup_app_r by (rewrite length_fmap; lia). rewrite length_fmap.
    replace (S ai * length metrics + mi - length metrics)%nat with (ai * length metrics + mi)%nat by lia. by apply IH.
Qed.

Lemma elem_of_cells_of {A} (assets : list Asset) (metrics : list Metric) (f : Asset → Metric → A) x :
  x ∈ cells_of assets metrics f ↔ ∃ a m, a ∈ assets ∧ m ∈ metrics ∧ x = f a m.
Proof.
  unfold cells_of. rewrite list_elem_of_bind. setoid_rewrite list_elem_of_bind. setoid_rewrite list_elem_of_singleton. naive_solver.
Qed.

Lemma cells_of_fmap {A B} (g : A → B) (assets : list Asset) (metrics : list Metric) (f : Asset → Metric → A) :
  g <$> cells_of assets metrics f = cells_of assets metrics (λ a m, g (f a m)).
Proof.
  induction assets as [|a l IH]; [done|]. rewrite !cells_cons, fmap_app, IH. by rewrite <-list_fmap_compose.
Qed.

(** The index holds some position of every listed FIGI. *)
Lemma index_assets_in n (l : list Asset) idx figi :
  figi ∈ CompositeFigi <$> l →
  ∃ i b, index_assets n l idx !! figi = Some (n + i)%nat ∧ l !! i = Some b ∧ CompositeFigi b = figi.
Proof.
  revert n idx. induction l as [|b l IH]; intros n idx Hin; [set_solver|]. cbn in *.
  destruct (decide (figi ∈ CompositeFigi <$> l)) as [Hl|Hl].
  - destruct (IH (S n) (<[CompositeFigi b := n]> idx) Hl) as (i & b' & E & Hi & Hf). exists (S i), b'.
    split; [rewrite E; f_equal; lia|done].
  - exists 0%nat, b. rewrite index_assets_other by done. apply elem_of_cons in Hin as [->|]; [|done].
    by rewrite lookup_insert_eq, Nat.add_0_r.
Qed.

Lemma metric_pos_in n (l : list Metric) m :
  m ∈ l → ∃ i, metric_pos n l m = Some (n + i)%nat ∧ l !! i = Some m.
Proof.
  intros Hin. destruct (metric_pos n l m) as [k|] eqn:E.
  - pose proof (metric_pos_Some _ _ _ _ E) as [Hle Hl]. exists (k - n)%nat. split; [f_equal; lia|done].
  - by apply metric_pos_None in E.
Qed.

Definition grid_frame (times : list Time) (assets : list Asset) (metrics : list Metric) freq col : DataFrame F :=
  build times assets metrics freq (cells_of assets metrics col).

Definition by_figi col (m : Metric) : Prop := ∀ a b, CompositeFigi a = CompositeFigi b → col a m = col b m.

Lemma grid_Column times (assets : list Asset) (metrics : list Metric) freq col a m :
  CompositeFigi a ∈ CompositeFigi <$> assets → m ∈ metrics → by_figi col m →
  Column (grid_frame times assets metrics freq col) a m = col a m.
Proof.
  intros Ha Hm Hcol. unfold Column, grid_frame, build. cbn [df_err df_assetIndex].
  destruct (index_assets_in 0 assets ∅ _ Ha) as (ai & b & -> & Hb & Hf).
  unfold metricIndex. cbn [df_metrics]. destruct (metric_pos_in 0 metrics m Hm) as (mi & -> & Hmi).
  unfold colSlice, colIdx. cbn [df_columns df_metrics]. rewrite !Nat.add_0_l.
  rewrite (cells_of_lookup _ _ _ _ _ _ _ Hb Hmi). cbn. by apply Hcol.
Qed.

Lemma grid_shape times (assets : list Asset) (metrics : list Metric) freq col :
  (∀ a m, length (col a m) = length times) → frame_shape (grid_frame times assets metrics freq col).
Proof.
  intros Hlen. split; [done| | |done].
  - apply length_cells_of.
  - apply Forall_forall. intros x Hx. apply elem_of_cells_of in Hx as (a & m & _ & _ & ->). apply Hlen.
Qed.

Lemma NewDataFrame_grid times (assets : list Asset) (metrics : list Metric) freq col :
  times ≠ [] → (∀ a m, length (col a m) = length times) →
  NewDataFrame times assets metrics freq (cells_of assets metrics col) = Ok (grid_frame times assets metrics freq col).
Proof.
  intros Hne Hlen. unfold NewDataFrame. destruct times as [|t times]; [done|]. cbn [length Nat.eqb andb].
  rewrite length_cells_of, Nat.eqb_refl. cbn [negb].
  destruct (existsb _ _) eqn:E; [|done]. apply existsb_exists in E as (x & Hx & Hne'). apply list_elem_of_In in Hx.
  apply elem_of_cells_of in Hx as (a & m & _ & _ & ->). rewrite Hlen, Nat.eqb_refl in Hne'. done.
Qed.

(** Positions of a list without duplicates. *)
Lemma index_of_spec {A} `{Countable A} (l : list A) x i :
  NoDup l → index_of l !! x = Some i ↔ l !! i = Some x.
Proof.
  unfold index_of. induction l as [|y l IH] using rev_ind; intros Hnd.
  { cbn. by rewrite lookup_empty. }
  apply NoDup_app in Hnd as (Hnd & Hy & _). specialize (IH Hnd).
  rewrite length_app, seq_app, zip_with_app, fold_left_app by (by rewrite length_seq). cbn.
  assert (Hyl : y ∉ l) by (intros Hin; by apply (Hy y Hin); left). split.
  - intros [[-> <-]|[Hne Hi]]%lookup_insert_Some.
    + rewrite lookup_app_r by lia. by rewrite Nat.sub_diag.
    + apply IH in Hi. by apply lookup_app_l_Some.
  - intros [Hi|[Hle Hi]]%lookup_app_Some.
    + apply lookup_insert_Some. right. split; [|by apply IH]. intros ->. by apply Hyl; eapply list_elem_of_lookup_2.
    + destruct (i - length l)%nat eqn:E; [|done]. cbn in Hi. simplify_eq. apply lookup_insert_Some. left. split; [done|lia].
Qed.
End Grid.

Lemma StronglySorted_lt_NoDup (l : list Z) : StronglySorted Z.lt l → NoDup l.
Proof.
  induction 1 as [|x l Hs IH Hx]; constructor; [|done]. intros Hin. rewrite Forall_forall in Hx. specialize (Hx x Hin). lia.
Qed.
Lemma StronglySorted_drop {A} (R : relation A) (l : list A) n : StronglySorted R l → StronglySorted R (drop n l).
Proof. intros Hs. revert n. induction Hs as [|x l Hs IH Hx]; intros [|n]; cbn; try done; constructor; done. Qed.
Lemma StronglySorted_take {A} (R : relation A) (l : list A) n : StronglySorted R l → StronglySorted R (take n l).
Proof.
  intros Hs. revert n. induction Hs as [|x l Hs IH Hx]; intros [|n]; cbn; try done; constructor; [done|]. by apply Forall_take.
Qed.

(** ** Recorded data *)
Section Record_.
Context {F : Type} `{Num F} `{MarketZone} (stamp : Z → Time) (Hst : day_stamps stamp).
Context (T : string → Metric → Z → F).
(** Columns of a year that providers may leave out of an answer. *)
Context (gone : string → Metric → Z → Prop).
Context (gone_nan : ∀ figi m y d, gone figi m y → year_no d = y → T figi m d = fnan).
Implicit Types (c : dataCache F) (a : Asset) (m : Metric) (y : Z) (days : list Z) (entry : colCacheEntry F).

(** Days of a year, in order, that leave out no day with a value on record. *)
Record year_axis (figi : string) m y days : Prop := {
  ya_sorted : StronglySorted Z.lt days;
  ya_year : Forall (λ d, year_no d = y) days;
  ya_complete : ∀ d, year_no d = y → d ∉ days → T figi m d = fnan;
}.

Definition entry_on (figi : string) m days : colCacheEntry F := mkEntry (stamp <$> days) (T figi m <$> days).

Definition entry_ok (figi : string) m y entry : Prop :=
  ∃ days, entry = entry_on figi m days ∧ year_axis figi m y days.

Definition cache_ok c : Prop :=
  ∀ figi m y entry, entries c !! mkKey figi m (year_chunk y) = Some entry → entry_ok figi m y entry.

(** A column of a year is there, or may be left out. *)
Definition served c (figi : string) m y : Prop :=
  is_Some (entries c !! mkKey figi m (year_chunk y)) ∨ gone figi m y.

(** *** Union of axes *)
Definition axis_of entry (days : list Z) : Prop := ce_times entry = stamp <$> days.

Definition add_times (l : list Time) (set : gmap Z Time) : gmap Z Time :=
  fold_left (λ set (t : Time), <[Unix t := t]> set) l set.

Lemma add_stamps_lookup days (set : gmap Z Time) s t :
  add_times (stamp <$> days) set !! s = Some t ↔
  (∃ d, d ∈ days ∧ s = Unix (stamp d) ∧ t = stamp d) ∨
  (set !! s = Some t ∧ ∀ d, d ∈ days → s ≠ Unix (stamp d)).
Proof.
  revert set. induction days as [|d days IH]; intros set; unfold add_times; cbn.
  { split; [intros Hs; right; split; [done|set_solver]|]. intros [(d & Hd & _)|[Hs _]]; [set_solver|done]. }
  fold (add_times (stamp <$> days) (<[Unix (stamp d):=stamp d]> set)). rewrite IH. split.
  - intros [(k & Hk & Hs)|[Hs Hno]]; [left; exists k; set_solver|].
    apply lookup_insert_Some in Hs as [[<- <-]|[Hne Hs]]; [left; exists d; set_solver|].
    right. split; [done|]. intros k [->|Hk]%elem_of_cons; [done|auto].
  - intros [(k & [->|Hk]%elem_of_cons & -> & ->)|[Hs Hno]].
    + destruct (decide (d ∈ days)); [left; by exists d|]. right. split; [by rewrite lookup_insert_eq|].
      intros k Hk E. apply (Unix_stamp_inj _ Hst) in E as ->. done.
    + left. by exists k.
    + right. split; [|set_solver]. rewrite lookup_insert_ne; [done|]. intros E. apply (Hno d); [left|done].
Qed.

(** The sorted union of axes is the sorted union of their days. *)
Lemma union_sorted `{GoMapOrder} `{GoSort} days :
  ∃ udays, sort_slice Before (range (add_times (stamp <$> days) ∅)).*2 = stamp <$> udays ∧
    StronglySorted Z.lt udays ∧ ∀ d, d ∈ udays ↔ d ∈ days.
Proof.
  set (set := add_times (stamp <$> days) ∅). set (l := sort_slice Before (range set).*2).
  assert (Hl : ∀ t, t ∈ l ↔ ∃ d, d ∈ days ∧ t = stamp d).
  { intros t. unfold l. rewrite sort_slice_perm, list_elem_of_fmap. split.
    - intros ([s u] & -> & Hs%elem_of_range). apply add_stamps_lookup in Hs as [(d & Hd & _ & ->)|[Hs _]]; [by exists d|].
      by rewrite lookup_empty in Hs.
    - intros (d & Hd & ->). exists (Unix (stamp d), stamp d). split; [done|]. apply elem_of_range, add_stamps_lookup.
      left. by exists d. }
  assert (Hnd : NoDup l).
  { unfold l. rewrite sort_slice_perm. apply NoDup_fmap_2_strong.
    - intros [s u] [s' u'] Hs Hs' E. cbn in E. subst u'. apply elem_of_range in Hs, Hs'.
      apply add_stamps_lookup in Hs as [(d & _ & -> & E)|[Hs _]]; [|by rewrite lookup_empty in Hs].
      apply add_stamps_lookup in Hs' as [(d' & _ & -> & E')|[Hs' _]]; [|by rewrite lookup_empty in Hs'].
      by rewrite <-E, <-E'.
    - eapply NoDup_fmap_1, NoDup_range_fst. }
  exists (date_no <$> l). split.
  { rewrite <-list_fmap_compose. rewrite <-(list_fmap_id l) at 1. apply list_fmap_ext. intros i t Ht. cbn.
    apply list_elem_of_lookup_2, Hl in Ht as (d & _ & ->). by rewrite (stamp_day _ Hst). }
  split.
  - assert (Hs : StronglySorted (in_order Before) l).
    { apply sort_slice_sorted; unfold Before; intros; lia. }
    assert (Hst' : Forall (λ t, ∃ d, t = stamp d) l) by (apply Forall_forall; intros t (d & _ & ->)%Hl; by exists d).
    clear Hl. clearbody l. induction Hs as [|t l Hs IH Ht]; cbn; [constructor|].
    apply NoDup_cons in Hnd as [Hn Hnd]. apply Forall_cons in Hst' as [(d & ->) Hst']. constructor; [by apply IH|].
    apply Forall_fmap, Forall_forall. intros u Hu. cbn. rewrite Forall_forall in Ht, Hst'.
    destruct (Hst' u Hu) as (k & ->). specialize (Ht _ Hu). unfold in_order in Ht. rewrite (stamp_Before _ Hst) in Ht.
    rewrite !(stamp_day _ Hst). destruct (decide (d = k)) as [->|]; [done|lia].
  - intros d. rewrite list_elem_of_fmap. split.
    + intros (t & -> & (k & Hk & ->)%Hl). by rewrite (stamp_day _ Hst).
    + intros Hd. exists (stamp d). split; [by rewrite (stamp_day _ Hst)|]. apply Hl. by exists d.
Qed.

(** *** Columns of the slab *)
Definition chunks (ys : list Z) : list Z := year_chunk <$> ys.

Definition filled (done_ : list Z) udays (figi : string) m (col : list F) : Prop :=
  length col = length udays ∧
  ∀ i d, udays !! i = Some d → col !! i = Some (if decide (year_no d ∈ done_) then T figi m d else fnan).

Lemma length_scatter_entry (idx : gmap Z nat) (col : list F) entry :
  length (scatter_entry idx col entry) = length col.
Proof.
  unfold scatter_entry. generalize (zip (ce_times entry) (ce_values entry)). intros l. revert col.
  induction l as [|x l IH]; intros col; cbn; [done|]. rewrite IH. destruct (idx !! Unix x.1); [apply length_insert|done].
Qed.

Lemma scatter_entry_lookup udays days figi m (col : list F) i d :
  NoDup udays → length col = length udays → udays !! i = Some d →
  scatter_entry (index_of (Unix <$> (stamp <$> udays))) col (entry_on figi m days) !! i =
    if decide (d ∈ days) then Some (T figi m d) else col !! i.
Proof.
  intros Hnd Hlen Hi. unfold scatter_entry, entry_on. cbn [ce_times ce_values].
  assert (Hidx : ∀ k j, index_of (Unix <$> (stamp <$> udays)) !! Unix (stamp k) = Some j ↔ udays !! j = Some k).
  { intros k j. rewrite index_of_spec.
    - rewrite !list_lookup_fmap. destruct (udays !! j) as [x|]; cbn; [|done]. split; [|by intros [= ->]].
      by intros [= ->%(Unix_stamp_inj _ Hst)].
    - rewrite <-list_fmap_compose. apply NoDup_fmap_2_strong; [|done]. intros x y _ _ E. by apply (Unix_stamp_inj _ Hst). }
  revert col Hlen. induction days as [|k days IH]; intros col Hlen; [done|]. cbn [fmap list_fmap zip_with fold_left].
  cbn [fst snd]. destruct (index_of _ !! Unix (stamp k)) as [j|] eqn:Ej.
  - apply Hidx in Ej. rewrite (IH (<[j:=T figi m k]> col)) by (by rewrite length_insert). destruct (decide (d = k)) as [->|Hne].
    + rewrite (decide_True (P := k ∈ k :: days)) by left. assert (i = j) as -> by (eapply NoDup_lookup; eauto).
      case_decide; [done|]. rewrite list_lookup_insert_eq; [done|]. rewrite Hlen. by eapply lookup_lt_Some.
    + rewrite list_lookup_insert_ne by (intros ->; congruence).
      rewrite (decide_ext (d ∈ k :: days) (d ∈ days)); [done|]. rewrite elem_of_cons. tauto.
  - rewrite (IH col Hlen). destruct (decide (d = k)) as [->|Hne].
    + apply Hidx in Hi. congruence.
    + rewrite (decide_ext (d ∈ k :: days) (d ∈ days)); [done|]. rewrite elem_of_cons. tauto.
Qed.

Lemma scatter_year udays c y done_ a m (col : list F) :
  NoDup udays → cache_ok c → served c (CompositeFigi a) m y → filled done_ udays (CompositeFigi a) m col →
  filled (y :: done_) udays (CompositeFigi a) m
    (fold_left (scatter_entry (index_of (Unix <$> (stamp <$> udays)))) (cached_entries c (chunks [y]) [a] [m]) col).
Proof.
  intros Hnd Hc Hs [Hlen Hcol]. unfold cached_entries, chunks. cbn. unfold cache_get.
  destruct (entries c !! _) as [entry|] eqn:E; cbn.
  - destruct (Hc _ _ _ _ E) as (days & -> & Hax). split.
    + by rewrite length_scatter_entry.
    + intros i d Hi. rewrite (scatter_entry_lookup udays days (CompositeFigi a) m col i d Hnd Hlen Hi).
      rewrite (Hcol i d Hi). pose proof (ya_year _ _ _ _ Hax) as Hy. rewrite Forall_forall in Hy.
      pose proof (ya_complete _ _ _ _ Hax d) as Hno. destruct (decide (year_no d = y)) as [Ey|Ey].
      * rewrite (decide_True (P := year_no d ∈ y :: done_)) by (rewrite Ey; left). case_decide; [done|].
        rewrite (Hno Ey) by done. by case_decide.
      * rewrite decide_False by (intros Hd; by apply Ey, Hy).
        rewrite (decide_ext (year_no d ∈ y :: done_) (year_no d ∈ done_)); [done|]. rewrite elem_of_cons. tauto.
  - destruct Hs as [[? Hs]|Hs]; [congruence|]. split; [done|]. intros i d Hi. rewrite (Hcol i d Hi).
    destruct (decide (year_no d = y)) as [Ey|Ey].
    + rewrite (gone_nan _ _ _ _ Hs Ey). by repeat case_decide.
    + rewrite (decide_ext (year_no d ∈ y :: done_) (year_no d ∈ done_)); [done|]. rewrite elem_of_cons. tauto.
Qed.

Lemma scatter_years udays c ys done_ a m (col : list F) :
  NoDup udays → cache_ok c → Forall (served c (CompositeFigi a) m) ys → filled done_ udays (CompositeFigi a) m col →
  filled (rev ys ++ done_) udays (CompositeFigi a) m
    (fold_left (scatter_entry (index_of (Unix <$> (stamp <$> udays)))) (cached_entries c (chunks ys) [a] [m]) col).
Proof.
  intros Hnd Hc Hs. revert done_ col. induction Hs as [|y ys Hy Hs IH]; intros done_ col Hcol; [done|].
  replace (cached_entries c (chunks (y :: ys)) [a] [m]) with
    (cached_entries c (chunks [y]) [a] [m] ++ cached_entries c (chunks ys) [a] [m])
    by (unfold cached_entries, chunks; cbn; by rewrite !app_nil_r).
  rewrite fold_left_app. cbn [rev]. rewrite <-app_assoc. apply IH. by apply scatter_year.
Qed.

(** A column of the slab is the data on record at the days of the axis. *)
Lemma scatter_column_values udays c ys a m :
  NoDup udays → cache_ok c → Forall (served c (CompositeFigi a) m) ys → Forall (λ d, year_no d ∈ ys) udays →
  scatter_column c (chunks ys) (index_of (Unix <$> (stamp <$> udays))) (length udays) a m = T (CompositeFigi a) m <$> udays.
Proof.
  intros Hnd Hc Hs Hy. unfold scatter_column.
  destruct (scatter_years udays c ys [] a m (replicate (length udays) fnan)) as [Hlen Hcol]; [done..| |].
  { split; [by rewrite length_replicate|]. intros i d Hi. rewrite decide_False by apply not_elem_of_nil.
    apply lookup_replicate. split; [done|]. by eapply lookup_lt_Some. }
  apply list_eq. intros i. rewrite list_lookup_fmap. destruct (udays !! i) as [d|] eqn:Ei; cbn.
  - rewrite (Hcol i d Ei), decide_True; [done|]. rewrite app_nil_r. rewrite Forall_forall in Hy.
    apply list_elem_of_In. rewrite <-in_rev. apply list_elem_of_In, Hy. by eapply list_elem_of_lookup_2.
  - apply lookup_ge_None in Ei. apply lookup_ge_None. lia.
Qed.

(** *** Ranges of a grid *)
Lemma Column_slice (df : DataFrame F) i j a m :
  df_err df = None → df_assetIndex df = index_assets 0 (df_assets df) ∅ →
  Column (sliceByTimeIndices df i j) a m = slice i j (Column df a m).
Proof.
  intros He Hidx. unfold Column. rewrite He, Hidx. cbn [df_err df_assetIndex df_columns sliceByTimeIndices build].
  destruct (index_assets 0 (df_assets df) ∅ !! CompositeFigi a) as [ai|]; [|unfold slice; by rewrite drop_nil, take_nil].
  change (metricIndex (sliceByTimeIndices df i j) m) with (metricIndex df m).
  destruct (metricIndex df m) as [mi|]; [|unfold slice; by rewrite drop_nil, take_nil].
  unfold colSlice, colIdx. cbn [df_columns df_metrics sliceByTimeIndices build].
  rewrite list_lookup_fmap. destruct (df_columns df !! _); cbn; [done|]. unfold slice. by rewrite drop_nil, take_nil.
Qed.

Lemma slice_fmap {A B} (f : A → B) i j (l : list A) : slice i j (f <$> l) = f <$> slice i j l.
Proof. unfold slice. by rewrite <-fmap_drop, <-fmap_take. Qed.

Lemma Between_grid udays (assets : list Asset) (metrics : list Metric) (col : Asset → Metric → list F) start end_ :
  StronglySorted Z.lt udays → (∀ a m, length (col a m) = length udays) →
  let df := grid_frame (stamp <$> udays) assets metrics Daily col in
  ∃ i j,
    df_times (Between df start end_) = stamp <$> slice i j udays ∧
    (∀ d, d ∈ slice i j udays ↔ d ∈ udays ∧ date_no start <= d <= date_no end_) ∧
    ∀ a m, CompositeFigi a ∈ CompositeFigi <$> assets → m ∈ metrics → by_figi col m →
      Column (Between df start end_) a m = slice i j (col a m).
Proof.
  intros Hs Hlen df.
  assert (Hshape : frame_shape df) by (apply grid_shape; intros; by rewrite length_fmap).
  assert (Hchr : chronological df) by exact (stamps_chronological _ Hst _ Hs).
  destruct (Between_rows df start end_ Hshape Hchr) as [Htimes _]. revert Htimes.
  rewrite (Between_slice df start end_ (fs_err _ Hshape)). cbn zeta.
  set (i := search_list (from_row df start) _). set (j := search_list (past_row df end_) _).
  set (ij := if (j <=? i)%nat then (0, 0)%nat else (i, j)). intros Htimes. exists ij.1, ij.2.
  assert (Hslice : df_times (if (j <=? i)%nat then empty_frame else sliceByTimeIndices df i j) = stamp <$> slice ij.1 ij.2 udays).
  { unfold ij. destruct (j <=? i)%nat; [done|]. exact (slice_fmap stamp i j udays). }
  split; [exact Hslice|]. split.
  - intros d. assert (Hd : d ∈ slice ij.1 ij.2 udays ↔ stamp d ∈ stamp <$> slice ij.1 ij.2 udays).
    { rewrite list_elem_of_fmap. split; [intros ?; by exists d|]. intros (k & E & Hk). by apply (stamp_inj _ Hst) in E as ->. }
    rewrite Hd, <-Hslice, Htimes, elem_of_keep. unfold from_row, past_row, row_key. change (daily_or_coarser (df_freq df)) with true. cbn match.
    rewrite (stamp_key _ Hst), !dateKey_no, andb_true_iff, negb_true_iff, Z.leb_le, Z.ltb_ge, !key_no_le.
    change (df_times df) with (stamp <$> udays). rewrite list_elem_of_fmap. split.
    + intros [? (k & E & Hk)]. apply (stamp_inj _ Hst) in E as ->. done.
    + intros [Hk ?]. split; [done|]. by exists d.
  - intros a m Ha Hm Hby. unfold ij. destruct (j <=? i)%nat; [done|]. cbn [fst snd].
    rewrite Column_slice by done. f_equal. by apply grid_Column.
Qed.

(** *** The values a forward fill carries *)

(** The latest value on record from one day to another, NaN if there is none. *)
Inductive latest (f : Z → F) (from to : Z) (v : F) : Prop :=
  | latest_at k : from <= k <= to → v = f k → is_nan v = false →
      (∀ j, k < j <= to → is_nan (f j) = true) → latest f from to v
  | latest_none : is_nan v = true → (∀ j, from <= j <= to → is_nan (f j) = true) → latest f from to v.

Definition nan_between (col : list F) (i j : nat) : Prop := ∀ k z, (i < k <= j)%nat → col !! k = Some z → is_nan z = true.

Lemma fill_from_lookup (prev : F) (col : list F) i x :
  (prev :: col) !! i = Some x →
  ∃ v, (prev :: fill_from prev col) !! i = Some v ∧
    ((∃ j, (j <= i)%nat ∧ (prev :: col) !! j = Some v ∧ is_nan v = false ∧ nan_between (prev :: col) j i) ∨
     (is_nan v = true ∧ ∀ k z, (k <= i)%nat → (prev :: col) !! k = Some z → is_nan z = true)).
Proof.
  revert prev i x. induction col as [|y col IH]; intros prev i x Hi.
  { destruct i as [|i]; [|done]. cbn in Hi. simplify_eq. exists x. split; [done|]. destruct (is_nan x) eqn:Ex.
    - right. split; [done|]. intros k z Hk Hz. assert (k = 0%nat) as -> by lia. cbn in Hz. by simplify_eq.
    - left. exists 0%nat. split; [lia|]. split; [done|]. split; [done|]. intros k z Hk. lia. }
  destruct i as [|i].
  { cbn in Hi. simplify_eq. exists x. split; [done|]. destruct (is_nan x) eqn:Ex.
    - right. split; [done|]. intros k z Hk Hz. assert (k = 0%nat) as -> by lia. cbn in Hz. by simplify_eq.
    - left. exists 0%nat. split; [lia|]. split; [done|]. split; [done|]. intros k z Hk. lia. }
  cbn [fill_from]. set (w := if is_nan y && negb (is_nan prev) then prev else y). destruct (IH w i (default x ((w :: col) !! i))) as (v & Hv & Hcase).
  { destruct i as [|i]; [done|]. change (col !! i = Some x) in Hi. change (col !! i = Some (default x (col !! i))). by rewrite Hi. }
  exists v. split; [done|]. destruct Hcase as [(j & Hj & Hjv & Hn & Hbet)|[Hn Hall]].
  - destruct j as [|j].
    + cbn in Hjv. injection Hjv as <-. unfold w in *. destruct (is_nan y) eqn:Ey; cbn [andb] in *.
      * destruct (is_nan prev) eqn:Ep; cbn [negb] in *; [congruence|]. left. exists 0%nat. split; [lia|]. split; [done|]. split; [done|].
        intros [|[|k]] z Hk Hz; [lia| |]; cbn in Hz; [by simplify_eq|]. by apply (Hbet (S k) z); [lia|].
      * left. exists 1%nat. split; [lia|]. split; [done|]. split; [done|].
        intros [|[|k]] z Hk Hz; [lia|lia|]. by apply (Hbet (S k) z); [lia|].
    + left. exists (S (S j)). split; [lia|]. split; [done|]. split; [done|].
      intros [|[|k]] z Hk Hz; [lia|lia|]. by apply (Hbet (S k) z); [lia|].
  - right. split; [done|]. pose proof (Hall 0%nat w ltac:(lia) eq_refl) as Hw. unfold w in Hw.
    assert (is_nan y = true ∧ is_nan prev = true) as [Ey Ep].
    { destruct (is_nan y) eqn:Ey; cbn [andb] in Hw; [|by rewrite Ey in Hw]. split; [done|].
      destruct (is_nan prev) eqn:Ep; cbn [negb] in Hw; [done|]. by rewrite Ep in Hw. }
    intros [|[|k]] z Hk Hz; cbn in Hz; [by simplify_eq|by simplify_eq|]. by apply (Hall (S k) z); [lia|].
Qed.

Lemma forward_fill_lookup (col : list F) i x :
  col !! i = Some x →
  ∃ v, forward_fill col !! i = Some v ∧
    ((∃ j, (j <= i)%nat ∧ col !! j = Some v ∧ is_nan v = false ∧ nan_between col j i) ∨
     (is_nan v = true ∧ ∀ k z, (k <= i)%nat → col !! k = Some z → is_nan z = true)).
Proof. destruct col as [|y col]; [done|]. apply fill_from_lookup. Qed.

Lemma length_forward_fill (col : list F) : length (forward_fill col) = length col.
Proof.
  destruct col as [|y col]; [done|]. cbn. f_equal. revert y. induction col as [|z col IH]; intros y; cbn; [done|]. by rewrite IH.
Qed.

(** On an axis that leaves out no value on record since a day, the forward
    fill carries the latest one. *)
Lemma forward_fill_latest `{!NumOrd F} (f : Z → F) from udays i d :
  StronglySorted Z.lt udays → Forall (λ k, from <= k) udays → udays !! i = Some d →
  (∀ k, from <= k <= d → k ∉ udays → f k = fnan) →
  ∃ v, forward_fill (f <$> udays) !! i = Some v ∧ latest f from d v.
Proof.
  intros Hs Hfrom Hi Hno. destruct (forward_fill_lookup (f <$> udays) i (f d)) as (v & Hv & Hcase).
  { by rewrite list_lookup_fmap, Hi. }
  exists v. split; [done|]. rewrite Forall_forall in Hfrom.
  assert (Hnan : ∀ j, from <= j <= d → (∀ k, udays !! k = Some j → (k <= i)%nat → is_nan (f j) = true) → is_nan (f j) = true).
  { intros j Hj Hk. destruct (decide (j ∈ udays)) as [(k & Hkj)%list_elem_of_lookup|Hnot].
    - apply (Hk k Hkj). destruct (Nat.le_gt_cases k i) as [|Hlt]; [done|].
      pose proof (sorted_lookup_lt _ _ i k _ _ Hs Hlt Hi Hkj). lia.
    - rewrite Hno by done. apply nan_is_nan. }
  destruct Hcase as [(j & Hj & Hjv & Hn & Hbet)|[Hn Hall]].
  - rewrite list_lookup_fmap in Hjv. destruct (udays !! j) as [k|] eqn:Ej; [|done]. cbn in Hjv. injection Hjv as <-.
    assert (Hkd : k <= d).
    { destruct (decide (j = i)) as [->|]; [simplify_eq; lia|]. pose proof (sorted_lookup_lt _ _ j i _ _ Hs ltac:(lia) Ej Hi). lia. }
    apply (latest_at _ _ _ _ k); [|done|done|].
    + split; [apply Hfrom; by eapply list_elem_of_lookup_2|done].
    + intros x Hx. apply Hnan; [pose proof (Hfrom k ltac:(by eapply list_elem_of_lookup_2)); lia|].
      intros n Hnx Hni. apply (Hbet n); [|by rewrite list_lookup_fmap, Hnx]. split; [|done].
      destruct (Nat.le_gt_cases n j) as [Hle|]; [|done]. destruct (decide (n = j)) as [->|]; [simplify_eq; lia|].
      pose proof (sorted_lookup_lt _ _ n j _ _ Hs ltac:(lia) Hnx Ej). lia.
  - apply latest_none; [done|]. intros x Hx. apply Hnan; [done|]. intros n Hnx Hni.
    apply (Hall n); [done|]. by rewrite list_lookup_fmap, Hnx.
Qed.

(** ** What a frame of a request shows

    The rows are days of the range in order; a column of daily data is the data
    on record at the rows, a fundamental column the latest value on record
    since January 1 of the first year; a day without a row has nothing on
    record. *)
Record serves (from to : Z) (assets : list Asset) (metrics : list Metric) days (df : DataFrame F) : Prop := {
  sv_dates : date_no <$> df_times df = days;
  sv_sorted : StronglySorted Z.lt days;
  sv_range : Forall (λ d, from <= d <= to) days;
  sv_plain : ∀ a m, a ∈ assets → m ∈ metrics → IsFundamental m = false →
    Column df a m = T (CompositeFigi a) m <$> days;
  sv_fundamental : ∀ a m, a ∈ assets → m ∈ metrics → IsFundamental m = true →
    Forall2 (latest (T (CompositeFigi a) m) (jan1 (year_no from))) days (Column df a m);
  sv_complete : ∀ d a m, from <= d <= to → d ∉ days → a ∈ assets → m ∈ metrics → T (CompositeFigi a) m d = fnan;
}.

Definition all_served c (ys : list Z) (assets : list Asset) (metrics : list Metric) : Prop :=
  ∀ y a m, y ∈ ys → a ∈ assets → m ∈ metrics → served c (CompositeFigi a) m y.

Lemma elem_of_cached c cs (assets : list Asset) (metrics : list Metric) entry :
  entry ∈ cached_entries c cs assets metrics ↔
  ∃ k a m, k ∈ cs ∧ a ∈ assets ∧ m ∈ metrics ∧ entries c !! mkKey (CompositeFigi a) m k = Some entry.
Proof.
  unfold cached_entries, cache_get. rewrite list_elem_of_bind. setoid_rewrite list_elem_of_bind. setoid_rewrite list_elem_of_bind. split.
  - intros (k & (a & (m & He & Hm) & Ha) & Hk). destruct (entries c !! _) eqn:E; [|by apply not_elem_of_nil in He].
    apply list_elem_of_singleton in He as ->. by exists k, a, m.
  - intros (k & a & m & Hk & Ha & Hm & E). exists k. split; [|done]. exists a. split; [|done]. exists m. split; [|done].
    rewrite E. by apply list_elem_of_singleton.
Qed.

(** A day of the axis of some entry of the request. *)
Definition on_axis c (ys : list Z) (assets : list Asset) (metrics : list Metric) (d : Z) : Prop :=
  ∃ y a m days, y ∈ ys ∧ a ∈ assets ∧ m ∈ metrics ∧
    entries c !! mkKey (CompositeFigi a) m (year_chunk y) = Some (entry_on (CompositeFigi a) m days) ∧ d ∈ days.

(** The days of the entries of a request. *)
Lemma cached_days c ys (assets : list Asset) (metrics : list Metric) :
  cache_ok c →
  ∃ days, mjoin (ce_times <$> cached_entries c (chunks ys) assets metrics) = stamp <$> days ∧
    (∀ d, d ∈ days ↔ on_axis c ys assets metrics d) ∧
    (∀ d, d ∈ days → year_no d ∈ ys) ∧
    (all_served c ys assets metrics → ∀ d a m, year_no d ∈ ys → d ∉ days → a ∈ assets → m ∈ metrics →
      T (CompositeFigi a) m d = fnan).
Proof.
  intros Hc. set (l := mjoin _). exists (date_no <$> l).
  assert (Hl : ∀ t, t ∈ l ↔ ∃ y a m days, y ∈ ys ∧ a ∈ assets ∧ m ∈ metrics ∧ year_axis (CompositeFigi a) m y days ∧
    entries c !! mkKey (CompositeFigi a) m (year_chunk y) = Some (entry_on (CompositeFigi a) m days) ∧ t ∈ stamp <$> days).
  { intros t. unfold l. rewrite list_elem_of_join. setoid_rewrite list_elem_of_fmap. split.
    - intros (ts & Ht & entry & -> & He). apply elem_of_cached in He as (k & a & m & Hk & Ha & Hm & E).
      apply list_elem_of_fmap in Hk as (y & -> & Hy). destruct (Hc _ _ _ _ E) as (days & -> & Hax). by exists y, a, m, days; rewrite <-list_elem_of_fmap.
    - intros (y & a & m & days & Hy & Ha & Hm & Hax & E & Ht). exists (stamp <$> days). split; [by apply list_elem_of_fmap|].
      exists (entry_on (CompositeFigi a) m days). split; [done|]. apply elem_of_cached. exists (year_chunk y), a, m.
      split; [by apply list_elem_of_fmap_2|done]. }
  assert (Hstamp : ∀ t, t ∈ l → ∃ d, t = stamp d).
  { intros t (y & a & m & days & _ & _ & _ & _ & _ & (d & -> & _)%list_elem_of_fmap)%Hl. by exists d. }
  split; [|split; [|split]].
  - rewrite <-list_fmap_compose. rewrite <-(list_fmap_id l) at 1. apply list_fmap_ext. intros i t Ht. cbn.
    destruct (Hstamp t) as (d & ->); [by eapply list_elem_of_lookup_2|]. by rewrite (stamp_day _ Hst).
  - intros d. split.
    + intros (t & -> & Ht)%list_elem_of_fmap. apply Hl in Ht as (y & a & m & days & Hy & Ha & Hm & Hax & E & (k & -> & Hk)%list_elem_of_fmap).
      rewrite (stamp_day _ Hst). by exists y, a, m, days.
    + intros (y & a & m & days & Hy & Ha & Hm & E & Hd). apply list_elem_of_fmap. exists (stamp d).
      split; [by rewrite (stamp_day _ Hst)|]. apply Hl. exists y, a, m, days. destruct (Hc _ _ _ _ E) as (days' & E' & Hax).
      assert (days = days') as <-.
      { unfold entry_on in E'. injection E' as E' _. by rewrite <-(dates_of_stamps stamp Hst days), E', (dates_of_stamps stamp Hst). }
      repeat (split; [done|]). by apply list_elem_of_fmap_2.
  - intros d (t & -> & Ht)%list_elem_of_fmap. apply Hl in Ht as (y & a & m & days & Hy & _ & _ & Hax & _ & (k & -> & Hk)%list_elem_of_fmap).
    rewrite (stamp_day _ Hst). pose proof (ya_year _ _ _ _ Hax) as Hyear. rewrite Forall_forall in Hyear. by rewrite (Hyear k Hk).
  - intros Hall d a m Hy Hno Ha Hm. destruct (Hall _ a m Hy Ha Hm) as [[entry E]|Hs]; [|by eapply gone_nan].
    destruct (Hc _ _ _ _ E) as (days & -> & Hax). apply (ya_complete _ _ _ _ Hax); [done|]. intros Hd. apply Hno.
    apply list_elem_of_fmap. exists (stamp d). split; [by rewrite (stamp_day _ Hst)|]. apply Hl. exists (year_no d), a, m, days.
    split; [done|]. split; [done|]. split; [done|]. split; [done|]. split; [done|]. by apply list_elem_of_fmap_2.
Qed.

Lemma length_slab_column c cs (times : list Time) a m : length (slab_column c cs times a m) = length times.
Proof.
  assert (E : length (scatter_column c cs (index_of (Unix <$> times)) (length times) a m) = length times).
  { unfold scatter_column. generalize (cached_entries c cs [a] [m]). intros l.
    assert (Hcol : length (replicate (length times) (fnan : F)) = length times) by apply length_replicate.
    revert Hcol. generalize (replicate (length times) (fnan : F)). induction l as [|entry l IH]; intros col Hcol; cbn; [done|].
    apply IH. by rewrite length_scatter_entry. }
  unfold slab_column. destruct (IsFundamental m); [by rewrite length_forward_fill|done].
Qed.

Lemma slab_by_figi c cs (times : list Time) m : by_figi (slab_column c cs times) m.
Proof. intros a b E. unfold slab_column, scatter_column, cached_entries. cbn. by rewrite E. Qed.

Lemma serves_nothing (from to : Z) (assets : list Asset) (metrics : list Metric) (df : DataFrame F) :
  df_times df = [] → (∀ a m, Column df a m = []) →
  (∀ d a m, from <= d <= to → a ∈ assets → m ∈ metrics → T (CompositeFigi a) m d = fnan) →
  serves from to assets metrics [] df.
Proof.
  intros Ht Hcol Hno. split.
  - by rewrite Ht.
  - constructor.
  - constructor.
  - intros a m _ _ _. by rewrite Hcol.
  - intros a m _ _ _. rewrite Hcol. constructor.
  - intros d a m Hd _. by apply Hno.
Qed.

Lemma slab_fundamental `{!NumOrd F} c ys udays a m y0 y1 :
  (∀ y, y ∈ ys ↔ y0 <= y <= y1) → StronglySorted Z.lt udays →
  cache_ok c → Forall (served c (CompositeFigi a) m) ys → Forall (λ d, year_no d ∈ ys) udays →
  (∀ d, year_no d ∈ ys → d ∉ udays → T (CompositeFigi a) m d = fnan) →
  Forall2 (latest (T (CompositeFigi a) m) (jan1 y0)) udays
    (forward_fill (scatter_column c (chunks ys) (index_of (Unix <$> (stamp <$> udays))) (length udays) a m)).
Proof.
  intros Hys Hs Hc Hserv Hyear Hno. rewrite scatter_column_values; [|by apply StronglySorted_lt_NoDup|done..].
  apply Forall2_same_length_lookup. rewrite length_forward_fill, length_fmap. split; [done|]. intros i d v Hi Hv.
  rewrite Forall_forall in Hyear.
  destruct (forward_fill_latest (T (CompositeFigi a) m) (jan1 y0) udays i d Hs) as (v' & Hv' & Hl); [|done| |congruence].
  - apply Forall_forall. intros k Hk. pose proof (year_bounds k) as [Hk1 _]. pose proof (proj1 (Hys _) (Hyear k Hk)) as [Hy0 _].
    destruct (Z.lt_ge_cases k (jan1 y0)) as [Hlt|]; [|done].
    pose proof (year_no_mono k (jan1 y0 - 1) ltac:(lia)) as Hm.
    assert (jan1 (y0 - 1) <= jan1 y0 - 1).
    { destruct (Z.lt_ge_cases (jan1 y0 - 1) (jan1 (y0 - 1))) as [Hlt'|]; [|done].
      pose proof (year_no_mono (jan1 y0) (jan1 (y0 - 1)) ltac:(lia)). rewrite !year_jan1 in *. lia. }
    rewrite (year_no_bounds (jan1 y0 - 1) (y0 - 1)) in Hm by (replace (y0 - 1 + 1) with y0 by lia; lia). lia.
  - intros k Hk Hnk. apply Hno; [|done]. apply Hys. pose proof (year_no_mono (jan1 y0) k ltac:(lia)) as Hk1.
    rewrite year_jan1 in Hk1. pose proof (year_no_mono k d ltac:(lia)).
    pose proof (proj1 (Hys _) (Hyear d ltac:(by eapply list_elem_of_lookup_2))). lia.
Qed.

Lemma assemble_slab_serves `{GoMapOrder} `{GoSort} `{!NumOrd F} c (assets : list Asset) (metrics : list Metric) start end_ :
  let from := date_no start in let to := date_no end_ in
  let ys := years_between (year_no from) (year_no to) in
  let point := existsb IsFundamental metrics && Equal start end_ in
  (point = true → start = end_ ∧ end_ = stamp to) → cache_ok c → all_served c ys assets metrics →
  ∃ df days, assemble_slab c (chunks ys) assets metrics start end_ = Ok df ∧
    df_times df = stamp <$> days ∧ serves from to assets metrics days df ∧
    ∀ d, d ∈ days ↔ from <= d <= to ∧ (on_axis c ys assets metrics d ∨ (point = true ∧ d = to)).
Proof.
  intros from to ys point Hpoint Hc Hall. destruct (cached_days c ys assets metrics Hc) as (base & Ebase & Hbase & Hyears & Hcomplete).
  specialize (Hcomplete Hall). set (all := base ++ if point then [to] else []).
  assert (Hall_in : ∀ d, d ∈ all ↔ on_axis c ys assets metrics d ∨ (point = true ∧ d = to)).
  { intros d. unfold all. rewrite elem_of_app, Hbase. destruct point.
    - rewrite list_elem_of_singleton. tauto.
    - pose proof (not_elem_of_nil d). assert (false ≠ true) by done. tauto. }
  assert (Eset : union_times c (chunks ys) assets metrics (if point then Some end_ else None) = add_times (stamp <$> all) ∅).
  { unfold union_times. rewrite Ebase. unfold all. destruct point; [|by rewrite app_nil_r].
    rewrite fmap_app. unfold add_times. rewrite fold_left_app. cbn. by destruct Hpoint as [_ <-]. }
  destruct (union_sorted all) as (udays & Eu & Hs & Hin).
  assert (Hinside : ∀ d, from <= d <= to → year_no d ∈ ys).
  { intros d Hd. apply elem_of_years. split; apply year_no_mono; lia. }
  assert (Hno : ∀ d a m, year_no d ∈ ys → d ∉ udays → a ∈ assets → m ∈ metrics → T (CompositeFigi a) m d = fnan).
  { intros d a m Hy Hd. apply Hcomplete; [done|]. rewrite Hbase. intros Hax. apply Hd, Hin, Hall_in. by left. }
  assert (Hyu : Forall (λ d, year_no d ∈ ys) udays).
  { apply Forall_forall. intros d [Hd|[Hp ->]]%Hin%Hall_in; [by apply Hyears, Hbase|]. apply Hinside.
    destruct (Hpoint Hp) as [E _]. unfold from, to. rewrite E. lia. }
  unfold assemble_slab. fold point. rewrite Eset.
  destruct (Nat.eqb_spec (size (add_times (stamp <$> all) ∅)) 0) as [E0|Hsize].
  - apply map_size_empty_inv in E0. rewrite E0, range_empty in Eu. cbn in Eu.
    assert (udays = []) as ->.
    { assert (Hp : stamp <$> udays ≡ₚ []) by (rewrite <-Eu; apply sort_slice_perm).
      apply Permutation_nil_r in Hp. by apply fmap_nil_inv in Hp. }
    eexists _, []. split; [reflexivity|]. split; [done|]. split; [apply serves_nothing; [done| |]|].
    + intros a m. unfold Column. cbn. by rewrite lookup_empty.
    + intros d a m Hd. apply Hno; [by apply Hinside|apply not_elem_of_nil].
    + intros d. rewrite <-Hall_in, <-Hin. pose proof (not_elem_of_nil d). tauto.
  - rewrite Eu. assert (Hud : stamp <$> udays ≠ []).
    { intros ->%fmap_nil_inv. apply Hsize. rewrite <-length_range, <-(length_fmap snd), <-(sort_slice_perm Before), Eu. done. }
    change (a ← assets; m ← metrics; [slab_column c (chunks ys) (stamp <$> udays) a m]) with
      (cells_of assets metrics (slab_column c (chunks ys) (stamp <$> udays))).
    rewrite NewDataFrame_grid; [|done|intros; apply length_slab_column].
    destruct (Between_grid udays assets metrics (slab_column c (chunks ys) (stamp <$> udays)) start end_) as (i & j & Ht & Hd & Hcol);
      [done|intros; by rewrite length_slab_column, length_fmap|].
    eexists _, (slice i j udays). split; [reflexivity|]. split; [done|].
    split; [|intros d; rewrite Hd, <-Hall_in, <-Hin; tauto].
    assert (Hserv : ∀ a m, a ∈ assets → m ∈ metrics → Forall (served c (CompositeFigi a) m) ys)
      by (intros a m Ha Hm; apply Forall_forall; intros y Hy; by apply Hall).
    split.
    + rewrite Ht. apply (dates_of_stamps _ Hst).
    + unfold slice. by apply StronglySorted_take, StronglySorted_drop.
    + apply Forall_forall. by intros d [_ ?]%Hd.
    + intros a m Ha Hm Hf. rewrite (Hcol a m (list_elem_of_fmap_2 _ _ _ Ha) Hm (slab_by_figi _ _ _ _)).
      unfold slab_column. rewrite Hf, length_fmap, scatter_column_values; [apply slice_fmap|by apply StronglySorted_lt_NoDup|done|by apply Hserv|done].
    + intros a m Ha Hm Hf. rewrite (Hcol a m (list_elem_of_fmap_2 _ _ _ Ha) Hm (slab_by_figi _ _ _ _)).
      unfold slab_column. rewrite Hf, length_fmap. unfold slice. apply Forall2_take, Forall2_drop.
      apply (slab_fundamental _ _ _ _ _ _ (year_no to)); [intros; apply elem_of_years|done|done|by apply Hserv|done|].
      intros d Hy Hnd. by apply Hno.
    + intros d a m Hdr Hnd Ha Hm. apply Hno; [by apply Hinside| |done|done]. intros Hdu. by apply Hnd, Hd.
Qed.
End Record_.
