(* ===== verification/FetchChunks.v ===== *)
(** * FetchChunks: fetching the misses of a request

    A provider answers truthfully when its frame for a chunk holds rows of that
    year, the data on record in each of its columns, and leaves out nothing on
    record that was asked for.  When every provider routed to does, fetching
    the misses of a request succeeds, keeps the cache right, and serves every
    column of the request. *)
From Stdlib Require Import ZArith Lia Sorted.
From stdpp Require Import base list gmap strings sorting.
From S2P Require Import Prelude Num GoTime Asset Period Frame Metrics FrameOps Calendar Schedule Provider DataCache Fetch.
From S2P Require Import FrameProps FrameOpsProps ScheduleProps Sessions FetchFacts.
Local Open Scope Z_scope.
#[local] Opaque days_from_civil civil_from_days date_no year_chunk dateKey.

Section Loops.
Implicit Types (a : Asset) (m : Metric).

(** The two nested loops over assets and metrics, as one. *)
Lemma fold_cells {S} (f : Asset → S → Metric → S) (assets : list Asset) (metrics : list Metric) (s : S) :
  fold_left (λ s a, fold_left (f a) metrics s) assets s =
  fold_left (λ s am, f am.1 s am.2) (cells_of assets metrics pair) s.
Proof.
  revert s. induction assets as [|a assets IH]; intros s; [done|]. rewrite cells_cons, fold_left_app. cbn [fold_left].
  rewrite IH. f_equal. clear IH. revert s. induction metrics as [|m metrics IHm]; intros s; cbn; [done|]. apply IHm.
Qed.

Lemma elem_of_pairs (assets : list Asset) (metrics : list Metric) a m :
  (a, m) ∈ cells_of assets metrics pair ↔ a ∈ assets ∧ m ∈ metrics.
Proof. rewrite elem_of_cells_of. naive_solver. Qed.
End Loops.

Section Chunks.
Context {F : Type} `{Num F} `{MarketZone} `{GoMapOrder} `{GoSort} `{GoSched}.
Context (stamp : Z → Time) (Hst : day_stamps stamp) (T : string → Metric → Z → F).
Context (gone : string → Metric → Z → Prop).
Context (gone_nan : ∀ figi m y d, gone figi m y → year_no d = y → T figi m d = fnan).
Implicit Types (e : Engine F) (c : dataCache F) (a : Asset) (m : Metric) (y : Z) (df : DataFrame F).
Implicit Types (st : dataCache F * gmap Metric bool) (entry : colCacheEntry F).

Abbreviation cache_right := (cache_ok stamp T).
Abbreviation entry_right := (entry_ok stamp T).
Abbreviation is_served := (served gone).

(** ** Puts *)
Lemma cache_put_right c figi m y entry :
  cache_right c → entry_right figi m y entry → cache_right (cache_put (mkKey figi m (year_chunk y)) entry c).
Proof.
  intros Hc He figi' m' y' entry' Hk. cbn [entries cache_put] in Hk.
  apply lookup_insert_Some in Hk as [[[= -> -> Ey] ->]|[_ Hk]]; [|by apply Hc].
  apply year_chunk_inj in Ey as ->. done.
Qed.

Lemma cache_put_there c key key' entry :
  is_Some (entries c !! key') ∨ key' = key → is_Some (entries (cache_put key entry c) !! key').
Proof.
  intros Hk. cbn. destruct (decide (key = key')) as [->|Hne]; [by rewrite lookup_insert_eq|].
  rewrite lookup_insert_ne by done. naive_solver.
Qed.

(** ** Storing the columns of an answer *)
Definition placed y (col : Asset → Metric → option (colCacheEntry F)) (am : Asset * Metric) st : Prop :=
  is_Some (col am.1 am.2) →
  is_Some (entries st.1 !! mkKey (CompositeFigi am.1) am.2 (year_chunk y)) ∧ lookup_d false st.2 am.2 = true.

(** Nothing that is cached is lost. *)
Definition more_stored st st' : Prop :=
  (∀ key, is_Some (entries st.1 !! key) → is_Some (entries st'.1 !! key)) ∧
  (∀ m, lookup_d false st.2 m = true → lookup_d false st'.2 m = true).

Lemma more_stored_trans st st' st'' : more_stored st st' → more_stored st' st'' → more_stored st st''.
Proof. intros [A B] [C D]. split; auto. Qed.

Lemma store_column_more y a col st m : more_stored st (store_column (year_chunk y) a col st m).
Proof.
  unfold store_column. destruct (col m) as [entry|]; [|by split]. split; cbn.
  - intros key Hk. apply cache_put_there. by left.
  - intros m' Hm'. destruct (decide (m = m')) as [->|Hne]; [by rewrite lookup_d_insert_eq|by rewrite lookup_d_insert_ne].
Qed.

Lemma store_columns_spec y (assets : list Asset) (metrics : list Metric) col st :
  cache_right st.1 →
  (∀ a m entry, a ∈ assets → m ∈ metrics → col a m = Some entry → entry_right (CompositeFigi a) m y entry) →
  let st' := store_columns (year_chunk y) assets metrics col st in
  cache_right st'.1 ∧ more_stored st st' ∧ ∀ a m, a ∈ assets → m ∈ metrics → placed y col (a, m) st'.
Proof.
  intros Hc Hcol. cbn zeta. unfold store_columns. rewrite (fold_cells (λ a, store_column (year_chunk y) a (col a))).
  destruct (fold_left_leaves (λ st (am : Asset * Metric), store_column (year_chunk y) am.1 (col am.1) st am.2)
    (λ st', cache_right st'.1 ∧ more_stored st st') (placed y col) (cells_of assets metrics pair) st) as [[Hc' Hg] Hp].
  - split; [done|by split].
  - intros st' [a m] [Ha Hm]%elem_of_pairs [Hc' Hg]. cbn [fst snd].
    split; [split; [|by eapply more_stored_trans, store_column_more]|].
    + unfold store_column. destruct (col a m) as [entry|] eqn:E; [|done]. cbn. apply cache_put_right; [done|]. by apply Hcol.
    + intros [entry E]. cbn in E. unfold store_column. rewrite E. cbn. split; [apply cache_put_there; by right|].
      by rewrite lookup_d_insert_eq.
  - intros st' [a m] am _ _ Hp E. destruct (Hp E) as [Hk Hm]. cbn [fst snd].
    destruct (store_column_more y a (col a) st' m) as [G1 G2]. auto.
  - split; [done|]. split; [done|]. intros a m Ha Hm. by apply Hp, elem_of_pairs.
Qed.

(** ** A truthful answer *)
Record answered y (assets : list Asset) (metrics : list Metric) days df : Prop := {
  an_shape : frame_shape df;
  an_times : df_times df = stamp <$> days;
  an_sorted : StronglySorted Z.lt days;
  an_year : Forall (λ d, year_no d = y) days;
  an_assets : ∀ a, a ∈ df_assets df → CompositeFigi a ∈ CompositeFigi <$> assets;
  an_metrics : ∀ m, m ∈ df_metrics df → m ∈ metrics;
  an_values : ∀ a m, a ∈ df_assets df → m ∈ df_metrics df → Column df a m = T (CompositeFigi a) m <$> days;
  an_complete : ∀ a m d, a ∈ assets → m ∈ metrics → year_no d = y → d ∉ days → T (CompositeFigi a) m d = fnan;
  an_absent : ∀ a m, a ∈ assets → m ∈ metrics → days ≠ [] →
    CompositeFigi a ∉ CompositeFigi <$> df_assets df ∨ m ∉ df_metrics df → gone (CompositeFigi a) m y;
}.

Definition truthful (serves : Metric → Prop) (fetch : DataRequest → result (DataFrame F)) : Prop :=
  ∀ y assets metrics, Forall serves metrics →
  ∃ df days, fetch (chunk_request (year_chunk y) assets metrics) = Ok df ∧ answered y assets metrics days df.

(** The columns of a shaped frame are there. *)
Lemma frame_entry_spec df a m :
  frame_shape df → CompositeFigi a ∈ CompositeFigi <$> df_assets df → m ∈ df_metrics df →
  frame_entry df a m = Some (mkEntry (df_times df) (Column df a m)).
Proof.
  intros Hs Ha Hm. unfold frame_entry. rewrite (fs_err _ Hs), (fs_index _ Hs).
  destruct (index_assets_in 0 _ ∅ _ Ha) as (i & b & -> & _). unfold metricIndex.
  by destruct (metric_pos_in 0 _ m Hm) as (j & -> & _).
Qed.

(** What an answer leaves of a column it was asked for. *)
Definition settled y a m st : Prop :=
  is_Some (entries st.1 !! mkKey (CompositeFigi a) m (year_chunk y)) ∨ gone (CompositeFigi a) m y.

Lemma store_answer_spec y (assets : list Asset) (metrics : list Metric) days df st :
  cache_right st.1 → answered y assets metrics days df →
  let st' := store_answer (year_chunk y) assets metrics df st in
  cache_right st'.1 ∧ more_stored st st' ∧
  (∀ a m, a ∈ assets → m ∈ metrics → settled y a m st') ∧
  (∀ a m, a ∈ assets → m ∈ metrics → lookup_d false st'.2 m = false → ∀ d, year_no d = y → T (CompositeFigi a) m d = fnan).
Proof.
  intros Hc Han. cbn zeta. unfold store_answer. destruct (df_times df) as [|t ts] eqn:Et.
  - assert (days = []) as ->.
    { pose proof (an_times _ _ _ _ _ Han) as E. rewrite Et in E. destruct days; [done|discriminate]. }
    assert (Hno : ∀ a m d, a ∈ assets → m ∈ metrics → year_no d = y → T (CompositeFigi a) m d = fnan).
    { intros a m d Ha Hm Hd. eapply an_complete; eauto. apply not_elem_of_nil. }
    destruct (store_columns_spec y assets metrics (λ _ _, Some empty_entry) st Hc) as (Hc' & Hg & Hp).
    { intros a m entry Ha Hm [= <-]. exists []. split; [done|]. split; [constructor|constructor|]. intros d Hd _. by apply Hno. }
    split; [done|]. split; [done|]. split.
    + intros a m Ha Hm. left. by apply (Hp a m).
    + intros a m Ha Hm _ d Hd. by apply Hno.
  - destruct (store_columns_spec y (df_assets df) (df_metrics df) (frame_entry df) st Hc) as (Hc' & Hg & Hp).
    { intros a m entry Ha Hm E. rewrite (frame_entry_spec df a m (an_shape _ _ _ _ _ Han) (list_elem_of_fmap_2 _ _ _ Ha) Hm) in E.
      injection E as <-. exists days. split.
      - unfold entry_on. by rewrite (an_times _ _ _ _ _ Han), (an_values _ _ _ _ _ Han) by done.
      - split; [by eapply an_sorted|by eapply an_year|]. intros d Hd Hnd.
        pose proof (an_assets _ _ _ _ _ Han a Ha) as (b & Hf & Hb)%list_elem_of_fmap. rewrite Hf.
        eapply an_complete; eauto. by eapply an_metrics. }
    assert (Hin : ∀ a m, a ∈ assets → m ∈ metrics →
      (is_Some (entries (store_columns (year_chunk y) (df_assets df) (df_metrics df) (frame_entry df) st).1 !!
         mkKey (CompositeFigi a) m (year_chunk y)) ∧
       lookup_d false (store_columns (year_chunk y) (df_assets df) (df_metrics df) (frame_entry df) st).2 m = true) ∨
      gone (CompositeFigi a) m y).
    { assert (Hdays : days ≠ []) by (intros ->; rewrite (an_times _ _ _ _ _ Han) in Et; done).
      intros a m Ha Hm. destruct (decide (CompositeFigi a ∈ CompositeFigi <$> df_assets df)) as [Hfa|Hfa];
        [|right; eapply an_absent; eauto].
      destruct (decide (m ∈ df_metrics df)) as [Hfm|Hfm]; [|right; eapply an_absent; eauto].
      left. pose proof Hfa as (b & Hf & Hb)%list_elem_of_fmap. rewrite Hf. apply (Hp b m Hb Hfm). cbn.
      rewrite frame_entry_spec; [done|by eapply an_shape|by apply list_elem_of_fmap_2|done]. }
    split; [done|]. split; [done|]. split.
    + intros a m Ha Hm. destruct (Hin a m Ha Hm) as [[Hk _]|Hk]; [by left|by right].
    + intros a m Ha Hm Hf d Hd. destruct (Hin a m Ha Hm) as [[_ Hk]|Hk]; [congruence|by eapply gone_nan].
Qed.

(** ** The answers of a chunk *)
Lemma settled_more y a m st st' : more_stored st st' → settled y a m st → settled y a m st'.
Proof. intros [G _] [Hk|Hk]; [left; auto|by right]. Qed.

Definition unplaced y a m st : Prop :=
  lookup_d false st.2 m = false → ∀ d, year_no d = y → T (CompositeFigi a) m d = fnan.

Lemma unplaced_grows y a m st st' : more_stored st st' → unplaced y a m st → unplaced y a m st'.
Proof.
  intros [_ G] Hu Hf. apply Hu. destruct (lookup_d false st.2 m) eqn:E; [|done]. apply G in E. congruence.
Qed.

Lemma store_answers_spec y (assets : list Asset) (answers : list (list Metric * result (DataFrame F))) st :
  cache_right st.1 →
  (∀ ms r, (ms, r) ∈ answers → ∃ df days, r = Ok df ∧ answered y assets ms days df) →
  ∃ st', store_answers (year_chunk y) assets answers st = (st', None) ∧ cache_right st'.1 ∧ more_stored st st' ∧
    ∀ ms r a m, (ms, r) ∈ answers → a ∈ assets → m ∈ ms → settled y a m st' ∧ unplaced y a m st'.
Proof.
  revert st. induction answers as [|[ms r] answers IH]; intros st Hc Hans.
  { exists st. split; [done|]. split; [done|]. split; [by split|]. intros ms r a m Hin. by apply not_elem_of_nil in Hin. }
  destruct (Hans ms r) as (df & days & -> & Han); [left|]. cbn [store_answers].
  destruct (store_answer_spec y assets ms days df st Hc Han) as (Hc' & Hg & Hset & Hun).
  destruct (IH (store_answer (year_chunk y) assets ms df st) Hc') as (st' & E & Hc'' & Hg' & Hall).
  { intros ms' r' Hin. apply Hans. by right. }
  exists st'. split; [done|]. split; [done|]. split; [by eapply more_stored_trans|].
  intros ms' r' a m [[= -> ->]|Hin]%elem_of_cons Ha Hm; [|by eapply Hall].
  split; [eapply settled_more; [done|by apply Hset]|]. eapply unplaced_grows; [done|]. intros Hf. by apply Hun.
Qed.

Lemma put_sentinels_spec y cached (assets : list Asset) (metrics : list Metric) c :
  cache_right c →
  (∀ a m, a ∈ assets → m ∈ metrics → unplaced y a m (c, cached) ∧ settled y a m (c, cached)) →
  let c' := put_sentinels (year_chunk y) cached assets metrics c in
  cache_right c' ∧ (∀ key, is_Some (entries c !! key) → is_Some (entries c' !! key)) ∧
  ∀ a m, a ∈ assets → m ∈ metrics → is_served c' (CompositeFigi a) m y.
Proof.
  intros Hc Hun. cbn zeta. unfold put_sentinels. rewrite (fold_cells (put_sentinel (year_chunk y) cached)).
  assert (Hgrow : ∀ c am key, is_Some (entries c !! key) → is_Some (entries (put_sentinel (year_chunk y) cached am.1 c am.2) !! key)).
  { intros c0 am key Hk. unfold put_sentinel. destruct (lookup_d _ _ _); [done|]. case_match; [done|]. apply cache_put_there. by left. }
  apply (and_assoc _ _ _). split.
  - apply (fold_left_keeps _ (λ c', cache_right c' ∧ ∀ key, is_Some (entries c !! key) → is_Some (entries c' !! key)));
      [by split|]. intros c0 [a m] [Ha Hm]%elem_of_pairs [Hc0 Hk0]. split; [|intros key Hk; by apply Hgrow, Hk0].
    cbn [fst snd]. unfold put_sentinel. destruct (lookup_d false cached m) eqn:E; [done|]. case_match; [done|].
    apply cache_put_right; [done|]. exists []. split; [done|]. split; [constructor|constructor|].
    intros d Hd _. by apply (proj1 (Hun a m Ha Hm)).
  - intros a m Ha Hm. destruct (proj2 (Hun a m Ha Hm)) as [Hk|Hk]; [|by right]. left. cbn in Hk.
    apply (fold_left_keeps _ (λ c, is_Some (entries c !! mkKey (CompositeFigi a) m (year_chunk y)))); [done|].
    intros c0 am _ Hk0. by apply Hgrow.
Qed.

(** ** Grouping by provider *)
Lemma group_metrics_spec (routes : gmap Metric nat) (metrics : list Metric) (groups : gmap nat (list Metric)) :
  (∀ m, m ∈ metrics → is_Some (routes !! m)) →
  ∃ groups', group_metrics routes metrics groups = Ok groups' ∧
    (∀ p l m, groups' !! p = Some l → m ∈ l → m ∈ lookup_d [] groups p ∨ (routes !! m = Some p ∧ m ∈ metrics)) ∧
    ((∀ p l, groups !! p = Some l → l ≠ []) → ∀ p l, groups' !! p = Some l → l ≠ []) ∧
    (∀ p m, m ∈ lookup_d [] groups p → m ∈ lookup_d [] groups' p) ∧
    (∀ p m, m ∈ metrics → routes !! m = Some p → m ∈ lookup_d [] groups' p).
Proof.
  revert groups. induction metrics as [|m0 metrics IH]; intros groups Hr.
  { exists groups. split; [done|]. split; [|split; [done|split; [done|intros p m Hm; by apply not_elem_of_nil in Hm]]].
    intros p l m Hp Hm. left. unfold lookup_d. by rewrite Hp. }
  cbn [group_metrics]. destruct (Hr m0) as [p0 Hp0]; [left|]. rewrite Hp0.
  set (g := <[p0 := _]> groups). destruct (IH g) as (groups' & -> & Hsound & Hne & Hkeep & Hall); [intros; apply Hr; by right|].
  assert (Hg : ∀ p m, m ∈ lookup_d [] g p ↔ m ∈ lookup_d [] groups p ∨ (m = m0 ∧ p = p0)).
  { intros p m. unfold g. destruct (decide (p0 = p)) as [<-|Hp].
    - rewrite lookup_d_insert_eq, elem_of_app, list_elem_of_singleton. naive_solver.
    - rewrite lookup_d_insert_ne by done. naive_solver. }
  exists groups'. split; [done|]. split; [|split; [|split]].
  - intros p l m Hp Hm. destruct (Hsound p l m Hp Hm) as [Hm'|[? ?]]; [|right; split; [done|by right]].
    apply Hg in Hm' as [?|[-> ->]]; [by left|right; split; [done|left]].
  - intros Hl. apply Hne. intros p l. unfold g. intros [[<- <-]|[_ Hp]]%lookup_insert_Some; [|by eapply Hl]. by destruct (lookup_d _ _ _).
  - intros p m Hm. apply Hkeep, Hg. by left.
  - intros p m [->|Hm]%elem_of_cons Hrm; [|by apply Hall]. apply Hkeep, Hg. right. split; [done|congruence].
Qed.

Lemma elem_of_fetch_groups e k (assets : list Asset) (groups : gmap nat (list Metric)) ms r :
  (ms, r) ∈ fetch_groups e k assets groups ↔
  ∃ p, groups !! p = Some ms ∧ r = provider_fetch e p (chunk_request k assets ms).
Proof.
  unfold fetch_groups. set (answers := _ <$> range groups).
  assert (Ha : (ms, r) ∈ answers ↔ ∃ p, groups !! p = Some ms ∧ r = provider_fetch e p (chunk_request k assets ms)).
  { unfold answers. rewrite list_elem_of_fmap. split.
    - intros ([p l] & [= -> ->] & Hp%elem_of_range). by exists p.
    - intros (p & Hp & ->). exists (p, ms). split; [done|]. by apply elem_of_range. }
  destruct (length answers =? 1)%nat; [done|]. by rewrite arrival_perm.
Qed.

(** Each metric is routed to a provider that answers truthfully for every
    metric routed to it. *)
Definition engine_feed e (metrics : list Metric) : Prop :=
  ∀ m, m ∈ metrics → ∃ p fetch, metricProvider e !! m = Some p ∧ providers e !! p ≫= dp_Fetch = Some fetch ∧
    truthful (λ m', metricProvider e !! m' = Some p) fetch.

(** ** One chunk, and all of them *)
Lemma fetch_chunk_spec e c y cm :
  cache_right c → engine_feed e (range (cm_metrics cm)).*1 →
  ∃ c', fetch_chunk e c (year_chunk y, cm) = (c', None) ∧ cache_right c' ∧
    (∀ key, is_Some (entries c !! key) → is_Some (entries c' !! key)) ∧
    ∀ a m, a ∈ (range (cm_assets cm)).*2 → m ∈ (range (cm_metrics cm)).*1 → is_served c' (CompositeFigi a) m y.
Proof.
  intros Hc Hfeed. unfold fetch_chunk. set (assets := (range (cm_assets cm)).*2) in *. set (metrics := (range (cm_metrics cm)).*1) in *.
  destruct (group_metrics_spec (metricProvider e) metrics ∅) as (groups & -> & Hsound & Hne & _ & Hall).
  { intros m Hm. destruct (Hfeed m Hm) as (p & fetch & Hp & _). by exists p. }
  assert (Hroute : ∀ p l m, groups !! p = Some l → m ∈ l → metricProvider e !! m = Some p ∧ m ∈ metrics).
  { intros p l m Hp Hm. destruct (Hsound p l m Hp Hm) as [Hno|?]; [|done].
    rewrite lookup_d_empty in Hno. by apply not_elem_of_nil in Hno. }
  destruct (store_answers_spec y assets (fetch_groups e (year_chunk y) assets groups) (c, ∅) Hc)
    as ([c1 cached] & -> & Hc1 & [Hg1 _] & Hset).
  { intros ms r (p & Hp & ->)%elem_of_fetch_groups. unfold provider_fetch.
    destruct ms as [|m ms]; [by destruct (Hne ltac:(done) p [] Hp)|].
    destruct (Hroute p (m :: ms) m Hp ltac:(left)) as [Hm Hin]. destruct (Hfeed m Hin) as (p' & fetch & Hp' & Efetch & Htruth).
    rewrite Hm in Hp'. injection Hp' as <-. rewrite Efetch.
    apply Htruth. apply Forall_forall. intros m' Hm'. destruct (Hroute p (m :: ms) m' Hp Hm') as [Hm'' _]. congruence. }
  destruct (put_sentinels_spec y cached assets metrics c1 Hc1) as (Hc2 & Hg2 & Hserved).
  { intros a m Ha Hm. destruct (Hfeed m Hm) as (p & fetch & Hp & _). pose proof (Hall p m Hm Hp) as Hin.
    unfold lookup_d in Hin. destruct (groups !! p) as [l|] eqn:El; [|by apply not_elem_of_nil in Hin]. cbn in Hin.
    apply and_comm. eapply Hset; [|done|exact Hin]. apply elem_of_fetch_groups. by exists p. }
  eexists. split; [reflexivity|]. split; [done|]. split; [auto|done].
Qed.

Definition miss_of (cs : list Z) (assets : list Asset) (metrics : list Metric) (ym : Z * chunkMiss) : Prop :=
  ym.1 ∈ cs ∧ (∀ m, m ∈ (range (cm_metrics ym.2)).*1 → m ∈ metrics).

Lemma fetch_chunks_spec e ys (assets : list Asset) (metrics : list Metric) (misses : list (Z * chunkMiss)) c :
  cache_right c → engine_feed e metrics → Forall (miss_of (chunks ys) assets metrics) misses →
  ∃ c', fetch_chunks e misses c = (c', None) ∧ cache_right c' ∧
    (∀ key, is_Some (entries c !! key) → is_Some (entries c' !! key)) ∧
    ∀ y cm a m, (year_chunk y, cm) ∈ misses → a ∈ (range (cm_assets cm)).*2 → m ∈ (range (cm_metrics cm)).*1 →
      is_served c' (CompositeFigi a) m y.
Proof.
  intros Hc Hfeed Hm. revert c Hc. induction Hm as [|[k cm] misses [Hk Hmet] Hm IH]; intros c Hc.
  { exists c. split; [done|]. split; [done|]. split; [done|]. intros y cm a m Hin. by apply not_elem_of_nil in Hin. }
  cbn [fst snd] in *. apply list_elem_of_fmap in Hk as (y & -> & Hy). cbn [fetch_chunks].
  destruct (fetch_chunk_spec e c y cm Hc) as (c1 & -> & Hc1 & Hg1 & Hs1); [intros m Hin; by apply Hfeed, Hmet|].
  destruct (IH c1 Hc1) as (c2 & -> & Hc2 & Hg2 & Hs2). exists c2. split; [done|]. split; [done|]. split; [auto|].
  intros y' cm' a m [[= Ey ->]|Hin]%elem_of_cons Ha Hmm; [|by eapply Hs2].
  apply year_chunk_inj in Ey as ->. destruct (Hs1 a m Ha Hmm) as [Hk|Hk]; [left; auto|by right].
Qed.

(** ** The misses of a request *)
Definition noted c (cs : list Z) (misses : gmap Z chunkMiss) (kam : Z * (Asset * Metric)) : Prop :=
  let '(k, (a, m)) := kam in
  is_Some (entries c !! mkKey (CompositeFigi a) m k) ∨
  ∃ cm b, misses !! k = Some cm ∧ cm_assets cm !! CompositeFigi a = Some b ∧ CompositeFigi b = CompositeFigi a ∧
    is_Some (cm_metrics cm !! m).

Definition misses_right (cs : list Z) (metrics : list Metric) (misses : gmap Z chunkMiss) : Prop :=
  ∀ k cm, misses !! k = Some cm → k ∈ cs ∧
    (∀ f b, cm_assets cm !! f = Some b → CompositeFigi b = f) ∧ (∀ m b, cm_metrics cm !! m = Some b → m ∈ metrics).

Lemma note_miss_right c cs (metrics : list Metric) k a m misses :
  k ∈ cs → m ∈ metrics → misses_right cs metrics misses →
  misses_right cs metrics (note_miss c k a misses m) ∧ noted c cs (note_miss c k a misses m) (k, (a, m)).
Proof.
  intros Hk Hm Hr. unfold note_miss, cache_get. destruct (entries c !! _) eqn:E; [split; [done|left; by rewrite E]|].
  assert (Hcm : let cm := lookup_d (mkMiss ∅ ∅) misses k in
    (∀ f b, cm_assets cm !! f = Some b → CompositeFigi b = f) ∧ (∀ m b, cm_metrics cm !! m = Some b → m ∈ metrics)).
  { cbn zeta. unfold lookup_d. destruct (misses !! k) as [cm|] eqn:Ek; [by apply (Hr k cm)|]. cbn.
    split; intros ? ?; by rewrite lookup_empty. }
  destruct Hcm as [Hca Hcmet]. split.
  - intros k' cm [[<- <-]|[_ Hk']]%lookup_insert_Some; [|by apply Hr]. split; [done|]. cbn [cm_assets cm_metrics]. split.
    + intros f b [[<- <-]|[_ Hb]]%lookup_insert_Some; [done|by apply Hca].
    + intros m' b [[<- _]|[_ Hb]]%lookup_insert_Some; [done|by eapply Hcmet].
  - right. eexists _, a. rewrite lookup_insert_eq. split; [done|]. cbn. rewrite !lookup_insert_eq. done.
Qed.

Lemma note_miss_keeps c cs k a m misses kam : noted c cs misses kam → noted c cs (note_miss c k a misses m) kam.
Proof.
  destruct kam as [k' [a' m']]. intros [?|(cm & b & Hcm & Hb & Hf & Hm)]; [by left|]. right. unfold note_miss.
  destruct (cache_get _ _); [by exists cm, b|]. destruct (decide (k = k')) as [<-|Hne].
  - assert (Hmet : is_Some (<[m := true]> (cm_metrics cm) !! m')).
    { destruct (decide (m = m')) as [->|]; [by rewrite lookup_insert_eq|by rewrite lookup_insert_ne]. }
    assert (Has : ∃ b', <[CompositeFigi a := a]> (cm_assets cm) !! CompositeFigi a' = Some b' ∧ CompositeFigi b' = CompositeFigi a').
    { destruct (decide (CompositeFigi a = CompositeFigi a')) as [E|E].
      - exists a. by rewrite E, lookup_insert_eq.
      - exists b. by rewrite lookup_insert_ne. }
    destruct Has as (b' & Hb' & Hf'). eexists _, b'. split; [by apply lookup_insert_eq|].
    unfold lookup_d. rewrite Hcm. done.
  - exists cm, b. by rewrite lookup_insert_ne.
Qed.

Lemma find_misses_spec c cs (assets : list Asset) (metrics : list Metric) :
  let misses := find_misses c cs assets metrics in
  misses_right cs metrics misses ∧
  ∀ k a m, k ∈ cs → a ∈ assets → m ∈ metrics → noted c cs misses (k, (a, m)).
Proof.
  cbn zeta. unfold find_misses.
  destruct (fold_left_leaves (λ misses k, fold_left (λ misses a, fold_left (note_miss c k a) metrics misses) assets misses)
    (misses_right cs metrics) (λ k misses, ∀ a m, a ∈ assets → m ∈ metrics → noted c cs misses (k, (a, m))) cs ∅)
    as [Hr Hn]; [intros k cm; by rewrite lookup_empty| | |split; [done|by intros; apply Hn]].
  - intros misses k Hk Hr. rewrite (fold_cells (note_miss c k)).
    destruct (fold_left_leaves (λ misses (am : Asset * Metric), note_miss c k am.1 misses am.2) (misses_right cs metrics)
      (λ am misses, noted c cs misses (k, am)) (cells_of assets metrics pair) misses Hr) as [Hr' Hn].
    + intros misses' [a m] [Ha Hm]%elem_of_pairs Hr'. by apply note_miss_right.
    + intros misses' am am' _ _. apply note_miss_keeps.
    + split; [done|]. intros a m Ha Hm. by apply Hn, elem_of_pairs.
  - intros misses k k' _ _ Hn a m Ha Hm. rewrite (fold_cells (note_miss c k)).
    apply (fold_left_keeps _ (λ misses, noted c cs misses (k', (a, m)))); [by apply Hn|].
    intros misses' am _. apply note_miss_keeps.
Qed.

(** Fetching the misses of a request serves every column of it. *)
Lemma fetch_misses_spec e c ys (assets : list Asset) (metrics : list Metric) :
  cache_right c → engine_feed e metrics →
  ∃ c', fetch_chunks e (range (find_misses c (chunks ys) assets metrics)) c = (c', None) ∧ cache_right c' ∧
    (∀ key, is_Some (entries c !! key) → is_Some (entries c' !! key)) ∧ all_served gone c' ys assets metrics.
Proof.
  intros Hc Hfeed. destruct (find_misses_spec c (chunks ys) assets metrics) as [Hr Hn].
  destruct (fetch_chunks_spec e ys assets metrics (range (find_misses c (chunks ys) assets metrics)) c Hc Hfeed)
    as (c' & E & Hc' & Hg & Hs).
  { apply Forall_forall. intros [k cm] Hin%elem_of_range. destruct (Hr k cm Hin) as (Hk & _ & Hm). split; [done|].
    intros m ([m' b] & -> & Hb%elem_of_range)%list_elem_of_fmap. by eapply Hm. }
  exists c'. split; [done|]. split; [done|]. split; [done|]. intros y a m Hy Ha Hm.
  destruct (Hn (year_chunk y) a m) as [Hk|(cm & b & Hcm & Hb & Hf & [v Hv])]; [by apply list_elem_of_fmap_2|done|done|left; auto|].
  rewrite <-Hf. apply (Hs y cm).
  - by apply elem_of_range.
  - apply list_elem_of_fmap. exists (CompositeFigi a, b). split; [done|]. by apply elem_of_range.
  - apply list_elem_of_fmap. exists (m, v). split; [done|]. by apply elem_of_range.
Qed.
End Chunks.
