(* ===== verification/FetchProps.v ===== *)
(** * FetchProps: what a request for data shows

    Whatever is in the cache, [fetchRange] shows the data on record, neither
    more nor less; the short path for one instant agrees with the assembly of
    the whole axis; a frame fetched on a day shows nothing recorded later, and
    in the middle of a session nothing of that day; asking again asks no
    provider; the cache's byte count is exact. *)
From Stdlib Require Import ZArith Lia Sorted.
From stdpp Require Import base list gmap strings sorting.
From S2P Require Import Prelude Num GoTime Asset Period Frame Metrics FrameOps Calendar Schedule Provider DataCache Fetch.
From S2P Require Import Samples FrameProps FrameOpsProps ScheduleProps Sessions FetchFacts FetchChunks.
Local Open Scope Z_scope.
#[local] Opaque days_from_civil civil_from_days date_no year_chunk dateKey.

(** ** A point in time *)
Section Point.
Context {F : Type} `{Num F} `{MarketZone} (stamp : Z → Time) (Hst : day_stamps stamp).
Context (T : string → Metric → Z → F) (gone : string → Metric → Z → Prop).
Context (gone_nan : ∀ figi m y d, gone figi m y → year_no d = y → T figi m d = fnan).
Implicit Types (c : dataCache F) (a : Asset) (m : Metric) (t : Time) (days : list Z).

Lemma Equal_same (t u : Time) : Equal t u = true → t_loc t = t_loc u → t = u.
Proof. unfold Equal. intros E%Z.eqb_eq. destruct t, u; cbn in *. by intros ->; subst. Qed.

Lemma walk_back_spec (values : list F) n :
  match walk_back values n with
  | Some v => ∃ j, (j < n)%nat ∧ values !! j = Some v ∧ is_nan v = false ∧
                ∀ k z, (j < k < n)%nat → values !! k = Some z → is_nan z = true
  | None => ∀ k z, (k < n)%nat → values !! k = Some z → is_nan z = true
  end.
Proof.
  induction n as [|n IH]; cbn; [lia|].
  assert (Hnext : (∀ z, values !! n = Some z → is_nan z = true) →
    match walk_back values n with
    | Some v => ∃ j, (j < S n)%nat ∧ values !! j = Some v ∧ is_nan v = false ∧
                  ∀ k z, (j < k < S n)%nat → values !! k = Some z → is_nan z = true
    | None => ∀ k z, (k < S n)%nat → values !! k = Some z → is_nan z = true
    end).
  { intros Hn. destruct (walk_back values n) as [v|].
    - destruct IH as (j & Hj & Hv & Hnan & Hall). exists j. split; [lia|]. split; [done|]. split; [done|].
      intros k z Hk Hz. destruct (decide (k = n)) as [->|]; [by apply Hn|]. apply (Hall k); [lia|done].
    - intros k z Hk Hz. destruct (decide (k = n)) as [->|]; [by apply Hn|]. apply (IH k); [lia|done]. }
  destruct (values !! n) as [v|] eqn:Ev; [|by apply Hnext]. destruct (is_nan v) eqn:En; [apply Hnext; by intros z [= <-]|].
  exists n. split; [lia|]. split; [done|]. split; [done|]. intros k z Hk. lia.
Qed.

Lemma sorted_keys days : StronglySorted Z.lt days → StronglySorted Z.lt (key_no <$> days).
Proof.
  induction 1 as [|d days Hs IH Hd]; cbn; constructor; [done|]. apply Forall_fmap. eapply Forall_impl; [exact Hd|].
  intros k Hk. by apply key_no_mono.
Qed.

Lemma entry_value_plain figi m days t :
  StronglySorted Z.lt days →
  entry_value false (dateKey t) (entry_on stamp T figi m days) =
    if decide (date_no t ∈ days) then Some (T figi m (date_no t)) else None.
Proof.
  intros Hs. unfold entry_value, entry_on. cbn [ce_times ce_values]. rewrite <-list_fmap_compose.
  rewrite (list_fmap_ext _ key_no) by (intros; apply (stamp_key _ Hst)). set (keys := key_no <$> days).
  set (lo := sort_Search _ _).
  pose proof (λ i, find_key_spec (λ k : Z, k) (λ k, dateKey t <=? k) (λ k, k =? dateKey t) (dateKey t)
    (λ _, eq_refl) (λ _, eq_refl) keys i (sorted_keys _ Hs)) as Hfind.
  change (find_key (λ k : Z, dateKey t <=? k) (λ k : Z, k =? dateKey t) keys) with
    (match keys !! lo with Some k => if k =? dateKey t then Some lo else None | None => None end) in Hfind.
  assert (Hkey : ∀ i, (∃ k, keys !! i = Some k ∧ k = dateKey t) ↔ days !! i = Some (date_no t)).
  { intros i. unfold keys. rewrite list_lookup_fmap, dateKey_no. destruct (days !! i) as [d|]; cbn; [|naive_solver].
    split; [intros (k & [= <-] & E%key_no_inj); by subst|intros [= ->]; by eexists]. }
  setoid_rewrite Hkey in Hfind. case_decide as Hd.
  - apply list_elem_of_lookup in Hd as (i & Hi). pose proof (proj2 (Hfind i) Hi) as E.
    destruct (keys !! lo) as [k|]; [|done]. destruct (k =? dateKey t); [|done]. injection E as ->.
    by rewrite list_lookup_fmap, Hi.
  - destruct (keys !! lo) as [k|] eqn:Ek; [|done]. destruct (k =? dateKey t); [|done]. exfalso. apply Hd.
    eapply list_elem_of_lookup_2, Hfind. reflexivity.
Qed.

Lemma entry_value_latest `{!NumOrd F} figi m days t :
  let y := year_no (date_no t) in
  year_axis T figi m y days →
  latest (T figi m) (jan1 y) (date_no t) (default fnan (entry_value true (dateKey t) (entry_on stamp T figi m days))).
Proof.
  intros y [Hs Hy Hno]. unfold entry_value, entry_on. cbn [ce_times ce_values]. rewrite <-list_fmap_compose.
  rewrite (list_fmap_ext _ key_no) by (intros; apply (stamp_key _ Hst)). set (keys := key_no <$> days).
  destruct (search_list_spec Z.lt (λ k, dateKey t <? k)) with keys as (_ & Hlow & Hhigh);
    [intros u v Huv; rewrite !Z.ltb_lt; lia|by apply sorted_keys|].
  change (search_list (λ k, dateKey t <? k) keys) with
    (sort_Search (length keys) (λ i, match keys !! i with Some k => dateKey t <? k | None => true end)) in Hlow, Hhigh.
  set (n := sort_Search _ _) in *.
  assert (Hn : ∀ i d, days !! i = Some d → (i < n)%nat ↔ d <= date_no t).
  { intros i d Hi. rewrite <-key_no_le, <-dateKey_no. assert (Hk : keys !! i = Some (key_no d)) by (unfold keys; by rewrite list_lookup_fmap, Hi).
    destruct (Nat.lt_ge_cases i n) as [Hlt|Hge].
    - rewrite Forall_lookup in Hlow. specialize (Hlow i (key_no d)). rewrite lookup_take_lt in Hlow by done.
      specialize (Hlow Hk). split; [lia|done].
    - rewrite Forall_lookup in Hhigh. specialize (Hhigh (i - n)%nat (key_no d)). rewrite lookup_drop in Hhigh.
      replace (n + (i - n))%nat with i in Hhigh by lia. specialize (Hhigh Hk). split; lia. }
  assert (Hrange : ∀ j, jan1 y <= j <= date_no t → year_no j = y).
  { intros j Hj. pose proof (year_bounds (date_no t) : jan1 y <= _ < jan1 (y + 1)). apply year_no_bounds. lia. }
  assert (Hnan : ∀ j, jan1 y <= j <= date_no t → (∀ i, days !! i = Some j → is_nan (T figi m j) = true) → is_nan (T figi m j) = true).
  { intros j Hj Hi. destruct (decide (j ∈ days)) as [(i & Hij)%list_elem_of_lookup|Hnj]; [by eapply Hi|].
    rewrite Hno by auto. apply nan_is_nan. }
  pose proof (walk_back_spec (T figi m <$> days) n) as Hw. destruct (walk_back _ n) as [v|]; cbn [default from_option id].
  - destruct Hw as (j & Hj & Hv & Hnv & Hall). rewrite list_lookup_fmap in Hv. destruct (days !! j) as [k|] eqn:Ej; [|done].
    cbn in Hv. injection Hv as <-. apply (latest_at _ _ _ _ k); [|done|done|].
    + split; [|by eapply Hn]. rewrite Forall_forall in Hy. pose proof (year_bounds k) as Hk.
      rewrite (Hy k ltac:(by eapply list_elem_of_lookup_2)) in Hk. lia.
    + intros x Hx. apply Hnan.
      { rewrite Forall_forall in Hy. pose proof (year_bounds k) as Hk. rewrite (Hy k ltac:(by eapply list_elem_of_lookup_2)) in Hk. lia. }
      intros i Hi. apply (Hall i); [|by rewrite list_lookup_fmap, Hi]. split; [|apply (Hn i x Hi); lia].
      destruct (Nat.le_gt_cases i j) as [Hle|]; [|done]. destruct (decide (i = j)) as [->|]; [simplify_eq; lia|].
      pose proof (sorted_lookup_lt _ _ i j _ _ Hs ltac:(lia) Hi Ej). lia.
  - apply latest_none; [apply nan_is_nan|]. intros x Hx. apply Hnan; [done|]. intros i Hi. apply (Hw i); [apply (Hn i x Hi); lia|].
    by rewrite list_lookup_fmap, Hi.
Qed.

(** One cell. *)
Lemma point_cell_plain c t a m :
  cache_ok stamp T c → served gone c (CompositeFigi a) m (year_no (date_no t)) → IsFundamental m = false →
  let cell := point_cell c (chunks [year_no (date_no t)]) t a m in
  default fnan cell = T (CompositeFigi a) m (date_no t) ∧ (cell = None → T (CompositeFigi a) m (date_no t) = fnan).
Proof.
  intros Hc Hs Hf. cbn zeta. unfold point_cell, cache_get. cbn [chunks fmap list_fmap fold_left]. rewrite Hf.
  destruct (entries c !! _) as [entry|] eqn:E.
  - destruct (Hc _ _ _ _ E) as (days & -> & Hax). rewrite entry_value_plain by apply Hax. case_decide as Hd; [done|].
    by rewrite (ya_complete _ _ _ _ _ Hax).
  - destruct Hs as [[? Hs]|Hs]; [congruence|]. by rewrite (gone_nan _ _ _ (date_no t) Hs).
Qed.

Lemma point_cell_fundamental `{!NumOrd F} c t a m :
  cache_ok stamp T c → served gone c (CompositeFigi a) m (year_no (date_no t)) → IsFundamental m = true →
  latest (T (CompositeFigi a) m) (jan1 (year_no (date_no t))) (date_no t)
    (default fnan (point_cell c (chunks [year_no (date_no t)]) t a m)).
Proof.
  intros Hc Hs Hf. unfold point_cell, cache_get. cbn [chunks fmap list_fmap fold_left]. rewrite Hf.
  destruct (entries c !! _) as [entry|] eqn:E.
  - destruct (Hc _ _ _ _ E) as (days & -> & Hax). pose proof (entry_value_latest _ _ _ t Hax) as Hl.
    by destruct (entry_value true _ _).
  - destruct Hs as [[? Hs]|Hs]; [congruence|]. apply latest_none; [apply nan_is_nan|]. intros j Hj.
    rewrite (gone_nan _ _ _ j Hs); [apply nan_is_nan|]. pose proof (year_bounds (date_no t)). apply year_no_bounds. lia.
Qed.

Lemma point_frame_serves `{!NumOrd F} c (assets : list Asset) (metrics : list Metric) t :
  let d := date_no t in
  cache_ok stamp T c → (∀ a m, a ∈ assets → m ∈ metrics → served gone c (CompositeFigi a) m (year_no d)) →
  serves T d d assets metrics [d]
    (grid_frame [t] assets metrics Daily (λ a m, [default fnan (point_cell c (chunks [year_no d]) t a m)])).
Proof.
  intros d Hc Hs.
  assert (Hcol : ∀ a m, a ∈ assets → m ∈ metrics →
    Column (grid_frame [t] assets metrics Daily (λ a m, [default fnan (point_cell c (chunks [year_no d]) t a m)])) a m =
    [default fnan (point_cell c (chunks [year_no d]) t a m)]).
  { intros a m Ha Hm. refine (grid_Column _ _ _ _ _ a m (list_elem_of_fmap_2 _ _ _ Ha) Hm _).
    intros u v E. unfold point_cell. by rewrite E. }
  split.
  - done.
  - repeat constructor.
  - repeat constructor; lia.
  - intros a m Ha Hm Hf. rewrite Hcol by done. cbn. f_equal. by apply point_cell_plain; [done|apply Hs|].
  - intros a m Ha Hm Hf. rewrite Hcol by done. constructor; [|constructor]. by apply point_cell_fundamental; [done|apply Hs|].
  - intros k a m Hk Hno. exfalso. apply Hno. assert (k = d) as -> by lia. left.
Qed.

(** A frame with no rows. *)
Lemma NewDataFrame_nothing (assets : list Asset) (metrics : list Metric) :
  NewDataFrame [] assets metrics Daily [] =
  Ok (build [] assets metrics Daily (replicate (length assets * length metrics) (@nil F))).
Proof.
  unfold NewDataFrame. cbn [length Nat.eqb andb]. rewrite length_replicate, Nat.eqb_refl. cbn [negb].
  destruct (existsb _ (replicate _ _)) eqn:E; [|reflexivity]. apply existsb_exists in E as (x & Hx & Hne).
  apply list_elem_of_In, elem_of_replicate in Hx as [-> _]. done.
Qed.

Lemma nothing_Column (assets : list Asset) (metrics : list Metric) n a m :
  Column (build [] assets metrics Daily (replicate n (@nil F))) a m = [].
Proof.
  unfold Column. cbn [df_err build df_assetIndex]. case_match; [|done]. case_match; [|done].
  unfold colSlice. cbn [df_columns build]. destruct (replicate _ _ !! _) as [x|] eqn:E; [|done].
  by apply lookup_replicate in E as [-> _].
Qed.

Lemma point_cell_found c t a m :
  cache_ok stamp T c → IsFundamental m = false →
  is_Some (point_cell c (chunks [year_no (date_no t)]) t a m) ↔
  ∃ days, entries c !! mkKey (CompositeFigi a) m (year_chunk (year_no (date_no t))) =
            Some (entry_on stamp T (CompositeFigi a) m days) ∧ date_no t ∈ days.
Proof.
  intros Hc Hf. unfold point_cell, cache_get. cbn [chunks fmap list_fmap fold_left]. rewrite Hf.
  destruct (entries c !! _) as [entry|] eqn:E.
  - destruct (Hc _ _ _ _ E) as (days & -> & Hax). rewrite entry_value_plain by apply Hax. case_decide as Hd.
    + split; [|done]. intros _. by exists days.
    + split; [by intros [? ?]|]. intros (days' & [= E' _] & Hd'). exfalso. apply Hd.
      by rewrite <-(dates_of_stamps stamp Hst days), E', (dates_of_stamps stamp Hst).
  - split; [by intros [? ?]|by intros (? & ? & _)].
Qed.

(** Without fundamentals there is a row when some entry has the day. *)
Lemma any_cell c (assets : list Asset) (metrics : list Metric) t :
  let d := date_no t in
  cache_ok stamp T c → existsb IsFundamental metrics = false →
  existsb (λ cell : option F, match cell with Some _ => true | None => false end)
    (cells_of assets metrics (point_cell c (chunks [year_no d]) t)) = true ↔
  on_axis stamp T c [year_no d] assets metrics d.
Proof.
  intros d Hc Hno. rewrite existsb_exists. setoid_rewrite <-list_elem_of_In.
  assert (Hplain : ∀ m, m ∈ metrics → IsFundamental m = false).
  { intros m Hm. destruct (IsFundamental m) eqn:E; [|done]. rewrite <-Hno. symmetry. apply existsb_exists. exists m.
    by rewrite <-list_elem_of_In. }
  split.
  - intros (cell & (a & m & Ha & Hm & ->)%elem_of_cells_of & Hcell).
    assert (Hsome : is_Some (point_cell c (chunks [year_no d]) t a m)) by (destruct (point_cell _ _ _ _ _); [done|discriminate]).
    apply point_cell_found in Hsome as (days & E & Hd); [|done|by apply Hplain]. exists (year_no d), a, m, days.
    by rewrite list_elem_of_singleton.
  - intros (y & a & m & days & ->%list_elem_of_singleton & Ha & Hm & E & Hd).
    assert (Hsome : is_Some (point_cell c (chunks [year_no d]) t a m)) by (apply point_cell_found; [done|by apply Hplain|by exists days]).
    exists (point_cell c (chunks [year_no d]) t a m). split; [apply elem_of_cells_of; by exists a, m|]. by destruct Hsome as [v ->].
Qed.

Lemma assemblePointInTime_serves `{!NumOrd F} c (assets : list Asset) (metrics : list Metric) t :
  let d := date_no t in
  t_loc t = nyc → cache_ok stamp T c → all_served gone c [year_no d] assets metrics →
  ∃ df days, assemblePointInTime c assets metrics t (existsb IsFundamental metrics) = Some (Ok df) ∧
    df_times df = (λ _, t) <$> days ∧ serves T d d assets metrics days df ∧
    ∀ k, k ∈ days ↔ k = d ∧ (on_axis stamp T c [year_no d] assets metrics d ∨ existsb IsFundamental metrics = true).
Proof.
  intros d Hloc Hc Hall. unfold assemblePointInTime. rewrite chunkYears_between by (done || (clear; lia)). fold d.
  rewrite years_between_one. cbn [mbind option_bind]. fold (chunks [year_no d]). set (f := point_cell c (chunks [year_no d]) t).
  change (a ← assets; m ← metrics; [f a m]) with (cells_of assets metrics f).
  assert (Hserved : ∀ a m, a ∈ assets → m ∈ metrics → served gone c (CompositeFigi a) m (year_no d))
    by (intros; apply Hall; [left|done|done]).
  assert (Hrow : existsb IsFundamental metrics = false → _ ↔ _) by exact (any_cell c assets metrics t Hc).
  fold d f in Hrow. set (any := existsb _ (cells_of assets metrics f)) in *.
  destruct (decide (any = false ∧ existsb IsFundamental metrics = false)) as [[Eany Ef]|Hsome].
  - rewrite Eany, Ef. cbn [negb andb]. rewrite NewDataFrame_nothing.
    eexists _, []. split; [reflexivity|]. split; [done|]. split.
    + apply serves_nothing; [reflexivity|apply nothing_Column|]. intros k a m Hk Ha Hm. assert (k = d) as -> by lia.
      destruct (Hserved a m Ha Hm) as [[entry E]|Hg]; [|by eapply gone_nan].
      destruct (Hc _ _ _ _ E) as (days & -> & Hax). apply (ya_complete _ _ _ _ _ Hax); [done|]. intros Hd.
      assert (any = true); [|congruence]. apply Hrow; [done|]. exists (year_no d), a, m, days. by rewrite list_elem_of_singleton.
    + intros k. pose proof (not_elem_of_nil k). split; [done|]. intros [_ [Hax%Hrow|Hax]]; congruence.
  - assert (negb any && negb (existsb IsFundamental metrics) = false) as ->
      by (destruct any, (existsb IsFundamental metrics); try done; exfalso; by apply Hsome).
    rewrite cells_of_fmap, NewDataFrame_grid by done. eexists _, [d]. split; [reflexivity|]. split; [done|].
    split; [by apply point_frame_serves|]. intros k. rewrite list_elem_of_singleton.
    destruct (existsb IsFundamental metrics) eqn:Ef; [tauto|]. rewrite <-Hrow by done. destruct any; [tauto|]. exfalso. by apply Hsome.
Qed.
End Point.

(** ** A range of days *)
Section Range.
Context {F : Type} `{Num F} `{!NumOrd F} `{MarketZone} `{GoMapOrder} `{GoSort} `{GoSched}.
Context (stamp : Z → Time) (Hst : day_stamps stamp) (T : string → Metric → Z → F).
Context (gone : string → Metric → Z → Prop).
Context (gone_nan : ∀ figi m y d, gone figi m y → year_no d = y → T figi m d = fnan).
Implicit Types (e : Engine F) (c : dataCache F) (a : Asset) (m : Metric) (t : Time) (days : list Z).

(** The frame of a cache that serves the request. *)
Lemma assembled_serves c (assets : list Asset) (metrics : list Metric) start end_ :
  let from := date_no start in let to := date_no end_ in
  let ys := years_between (year_no from) (year_no to) in
  t_loc start = nyc → t_loc end_ = nyc → cache_ok stamp T c → all_served gone c ys assets metrics →
  ∃ df days, serves T from to assets metrics days df ∧
    (if Equal start end_
     then assemblePointInTime c assets metrics end_ (existsb IsFundamental metrics)
     else Some (assemble_slab c (chunks ys) assets metrics start end_)) = Some (Ok df).
Proof.
  intros from to ys Hls Hle Hc Hall. destruct (Equal start end_) eqn:Heq.
  - apply Equal_same in Heq as ->; [|by rewrite Hle]. unfold ys in Hall. rewrite years_between_one in Hall.
    destruct (assemblePointInTime_serves stamp Hst T gone gone_nan c assets metrics end_ Hle Hc Hall) as (df & days & E & _ & Hs & _).
    by exists df, days.
  - destruct (assemble_slab_serves stamp Hst T gone gone_nan c assets metrics start end_) as (df & days & E & _ & Hs & _);
      [rewrite Heq, andb_false_r; discriminate|done|done|].
    exists df, days. split; [done|]. exact (f_equal Some E).
Qed.

Lemma fetchRange_right e c (assets : list Asset) (metrics : list Metric) start end_ :
  let from := date_no start in let to := date_no end_ in
  let ys := years_between (year_no from) (year_no to) in
  t_loc start = nyc → t_loc end_ = nyc → year_no from <= year_no to + 1 →
  cache_ok stamp T c → engine_feed stamp T gone e metrics →
  ∃ c' df days, fetchRange e c assets metrics start end_ = Some (c', Ok df) ∧
    cache_ok stamp T c' ∧ all_served gone c' ys assets metrics ∧
    (∀ key, is_Some (entries c !! key) → is_Some (entries c' !! key)) ∧
    serves T from to assets metrics days df.
Proof.
  intros from to ys Hls Hle Hy Hc Hfeed. unfold fetchRange. rewrite chunkYears_between by done. cbn [mbind option_bind].
  destruct (fetch_misses_spec stamp T gone gone_nan e c ys assets metrics Hc Hfeed) as (c' & E & Hc' & Hg & Hall).
  change (year_chunk <$> years_between _ _) with (chunks ys). rewrite E.
  destruct (assembled_serves c' assets metrics start end_ Hls Hle Hc' Hall) as (df & days & Hs & Ea).
  exists c', df, days. split; [|done]. destruct (Equal start end_); [by rewrite Ea|].
  exact (f_equal (option_map (pair c')) Ea).
Qed.
End Range.

(** ** Requests that repeat *)
Section Again.
Context {F : Type} `{Num F} `{TZDB} `{GoMapOrder} `{GoSort} `{GoSched}.
Implicit Types (e : Engine F) (c : dataCache F) (a : Asset) (m : Metric).

Lemma no_misses c cs (assets : list Asset) (metrics : list Metric) :
  (∀ k a m, k ∈ cs → a ∈ assets → m ∈ metrics → is_Some (entries c !! mkKey (CompositeFigi a) m k)) →
  find_misses c cs assets metrics = ∅.
Proof.
  intros Hall. unfold find_misses. apply (fold_left_keeps _ (λ misses, misses = ∅)); [done|]. intros misses k Hk ->.
  apply (fold_left_keeps _ (λ misses, misses = ∅)); [done|]. intros misses a Ha ->.
  apply (fold_left_keeps _ (λ misses, misses = ∅)); [done|]. intros misses m Hm ->.
  unfold note_miss, cache_get. destruct (Hall k a m Hk Ha Hm) as [entry ->]. done.
Qed.

(** What is cached is not asked for. *)
Lemma fetchRange_cached e c (assets : list Asset) (metrics : list Metric) start end_ cs :
  chunkYears start end_ = Some cs →
  (∀ k a m, k ∈ cs → a ∈ assets → m ∈ metrics → is_Some (entries c !! mkKey (CompositeFigi a) m k)) →
  fetchRange e c assets metrics start end_ =
    (if Equal start end_
     then (λ r, (c, match r with
                    | Ok df => Ok df
                    | Err err => Err ("engine: assemble point-in-time: " +:+ err)%string
                    end)) <$> assemblePointInTime c assets metrics end_ (existsb IsFundamental metrics)
     else Some (c, assemble_slab c cs assets metrics start end_)).
Proof.
  intros Ecs Hall. unfold fetchRange. rewrite Ecs. cbn [mbind option_bind]. rewrite (no_misses c cs) by done.
  rewrite range_empty. cbn [fetch_chunks]. destruct (Equal start end_); [|done]. by destruct (assemblePointInTime _ _ _ _ _).
Qed.
End Again.

(** ** What requests show *)
Section Requests.
Context {F : Type} `{Num F} `{!NumOrd F} `{MarketZone} `{GoMapOrder} `{GoSort} `{GoSched}.
Context (stamp : Z → Time) (Hst : day_stamps stamp) (T : string → Metric → Z → F).
Implicit Types (e : Engine F) (c : dataCache F) (a : Asset) (m : Metric) (t : Time) (days : list Z).

(** A year with nothing on record; and no year at all. *)
Definition unrecorded (figi : string) m (y : Z) : Prop := ∀ d, year_no d = y → T figi m d = fnan.
Definition never (figi : string) m (y : Z) : Prop := False.

(** C9. A request is answered, with what is on record in the range, and leaves the
    cache right: whatever was in the cache before, whatever the order in which
    providers answer, and whichever columns they leave out because they have
    nothing for them. *)
Theorem fetchRange_serves e c (assets : list Asset) (metrics : list Metric) start end_ :
  t_loc start = nyc → t_loc end_ = nyc → Year start <= Year end_ + 1 →
  cache_ok stamp T c → engine_feed stamp T unrecorded e metrics →
  ∃ c' df days, fetchRange e c assets metrics start end_ = Some (c', Ok df) ∧ cache_ok stamp T c' ∧
    serves T (date_no start) (date_no end_) assets metrics days df.
Proof.
  intros Hls Hle Hy Hc Hfeed.
  destruct (fetchRange_right stamp Hst T unrecorded (λ figi m y d Hu, Hu d) e c assets metrics start end_ Hls Hle Hy Hc Hfeed)
    as (c' & df & days & E & Hc' & _ & _ & Hs). by exists c', df, days.
Qed.

(** After a request, no request for some of its assets and metrics in its
    years asks a provider or changes the cache, on any engine. *)
Theorem fetchRange_repeats e c (assets : list Asset) (metrics : list Metric) start end_ :
  t_loc start = nyc → t_loc end_ = nyc → Year start <= Year end_ + 1 →
  cache_ok stamp T c → engine_feed stamp T never e metrics →
  ∃ c' df, fetchRange e c assets metrics start end_ = Some (c', Ok df) ∧
    ∀ e' (assets' : list Asset) (metrics' : list Metric) start' end', assets' ⊆ assets → metrics' ⊆ metrics →
      t_loc start' = nyc → t_loc end' = nyc → Year start <= Year start' → Year start' <= Year end' + 1 → Year end' <= Year end_ →
      ∃ df' days, fetchRange e' c' assets' metrics' start' end' = Some (c', Ok df') ∧
        serves T (date_no start') (date_no end') assets' metrics' days df'.
Proof.
  intros Hls Hle Hy Hc Hfeed.
  destruct (fetchRange_right stamp Hst T never (λ figi m y d Hu, match Hu with end) e c assets metrics start end_ Hls Hle Hy Hc Hfeed)
    as (c' & df & days & E & Hc' & Hall & _). exists c', df. split; [done|].
  intros e' assets' metrics' start' end' Ha Hm Hls' Hle' H1' H2' H3'.
  assert (Hall' : all_served never c' (years_between (Year start') (Year end')) assets' metrics').
  { intros y a m [Hlo Hhi]%elem_of_years Ha' Hm'. apply Hall; [|by apply Ha|by apply Hm]. apply elem_of_years.
    rewrite <-!Year_no. lia. }
  rewrite (fetchRange_cached _ _ _ _ _ _ _ (chunkYears_between start' end' Hls' Hle' H2')).
  2: { intros k a m (y & -> & Hyk)%list_elem_of_fmap Ha' Hm'. by destruct (Hall' y a m Hyk Ha' Hm'). }
  destruct (assembled_serves stamp Hst T never (λ figi m y d Hu, match Hu with end) c' assets' metrics' start' end' Hls' Hle' Hc' Hall')
    as (df' & days' & Hs & Ea). exists df', days'. split; [|done]. destruct (Equal start' end'); [by rewrite Ea|].
  exact (f_equal (option_map (pair c')) Ea).
Qed.

(** *** The short path *)
Definition same_cell (x y : F) : Prop := x = y ∨ (is_nan x = true ∧ is_nan y = true).

Lemma latest_same (f : Z → F) from to x y : latest f from to x → latest f from to y → same_cell x y.
Proof.
  intros [k Hk -> Hnk Hgt|Hnx Hno] [k' Hk' -> Hnk' Hgt'|Hny Hno'].
  - left. destruct (Z.lt_trichotomy k k') as [Hlt|[->|Hlt]]; [|done|].
    + rewrite Hgt in Hnk' by lia. discriminate.
    + rewrite Hgt' in Hnk by lia. discriminate.
  - rewrite Hno' in Hnk by done. discriminate.
  - rewrite Hno in Hnk' by done. discriminate.
  - by right.
Qed.

(** C19. At the stamp of a day the short path shows the same row as the assembly of
    the whole axis, cell by cell. *)
Theorem point_in_time_slab c (assets : list Asset) (metrics : list Metric) d :
  cache_ok stamp T c → all_served unrecorded c [year_no d] assets metrics →
  ∃ p s, assemblePointInTime c assets metrics (stamp d) (existsb IsFundamental metrics) = Some (Ok p) ∧
    assemble_slab c [year_chunk (year_no d)] assets metrics (stamp d) (stamp d) = Ok s ∧
    df_times p = df_times s ∧
    ∀ a m, a ∈ assets → m ∈ metrics → Forall2 same_cell (Column p a m) (Column s a m).
Proof.
  intros Hc Hall. pose proof (stamp_day _ Hst d) as Hd.
  destruct (assemblePointInTime_serves stamp Hst T unrecorded (λ figi m y d Hu, Hu d) c assets metrics (stamp d))
    as (p & pd & Ep & Etp & Hsp & Hpd); [apply (stamp_loc _ Hst)|done|by rewrite Hd|].
  destruct (assemble_slab_serves stamp Hst T unrecorded (λ figi m y d Hu, Hu d) c assets metrics (stamp d) (stamp d))
    as (s & sd & Es & Ets & Hss & Hsd); [by rewrite Hd|done|by rewrite Hd, years_between_one|].
  rewrite Hd in Hsp, Hpd, Hss, Hsd, Es. rewrite years_between_one in Hsd, Es.
  assert (pd = sd) as <-.
  { apply (StronglySorted_unique_strong Z.lt); [|apply Hsp|apply Hss|].
    - intros x y _ _. lia.
    - apply NoDup_Permutation; [apply StronglySorted_lt_NoDup, Hsp|apply StronglySorted_lt_NoDup, Hss|].
      intros k. rewrite Hpd, Hsd. unfold Equal. rewrite Z.eqb_refl, andb_true_r. split.
      + intros [-> Hk]. split; [lia|]. tauto.
      + intros [Hk Hax]. assert (k = d) as -> by lia. tauto. }
  exists p, s. split; [done|]. split; [done|]. split.
  - rewrite Etp, Ets. apply list_fmap_ext. intros i k Hk%list_elem_of_lookup_2%Hpd. by destruct Hk as [-> _].
  - intros a m Ha Hm. destruct (IsFundamental m) eqn:Ef.
    + pose proof (sv_fundamental _ _ _ _ _ _ _ Hsp a m Ha Hm Ef) as Hp. pose proof (sv_fundamental _ _ _ _ _ _ _ Hss a m Ha Hm Ef) as Hs.
      revert Hp Hs. generalize (Column p a m) (Column s a m). clear. intros lp ls Hp. revert ls.
      induction Hp; intros ls Hs; inversion Hs; subst; constructor; [by eapply latest_same|auto].
    + rewrite (sv_plain _ _ _ _ _ _ _ Hsp a m Ha Hm Ef), (sv_plain _ _ _ _ _ _ _ Hss a m Ha Hm Ef).
      apply Forall_Forall2_diag, Forall_forall. by left.
Qed.
(** *** The engine's requests *)

Lemma attach_risk_free_Ok what e (df : DataFrame F) :
  ∃ rates, attach_risk_free what e df = Ok (set_rates rates df).
Proof.
  assert (Hsame : ∃ rates, Ok df = Ok (set_rates rates df)) by (exists (df_riskFreeRates df); by destruct df).
  unfold attach_risk_free. destruct (_ && _); [|done]. unfold sliceRiskFree. destruct (_ || _); [done|].
  unfold SetRiskFreeRates. rewrite length_fmap, Nat.eqb_refl. cbn. by eexists.
Qed.

Lemma serves_rates (from to : Z) (assets : list Asset) (metrics : list Metric) days (df : DataFrame F) rates :
  serves T from to assets metrics days df → serves T from to assets metrics days (set_rates rates df).
Proof. intros [? ? ? ? ? ?]. by split. Qed.

(** Outside a prediction the frame of the request is shown as it is. *)
Lemma finish_serves fuel method frame e target (from to : Z) (assets : list Asset) (metrics : list Metric) days (df : DataFrame F) :
  predicting e = false → serves T from to assets metrics days df →
  ∃ df', finish fuel method frame e target (Ok df) = Some (Ok df') ∧ serves T from to assets metrics days df'.
Proof.
  intros Hp Hs. unfold finish, predict_fill. rewrite Hp. cbn [andb mbind option_bind].
  destruct (attach_risk_free_Ok frame e df) as (rates & ->). eexists. split; [done|]. by apply serves_rates.
Qed.

(** The last day a request at an instant may show. *)
Definition last_day e t : Z := date_no t - (if isIntradayFiring e && (date_no t =? date_no (currentDate e)) then 1 else 0).

Lemma capDailyRangeEnd_day e t :
  t_loc t = nyc → t_loc (currentDate e) = nyc → date_no (AddDate t 0 0 (-1)) = date_no t - 1 →
  t_loc (capDailyRangeEnd e t) = nyc ∧ date_no (capDailyRangeEnd e t) = last_day e t.
Proof.
  intros Hl Hc Hback. unfold capDailyRangeEnd, last_day. destruct (isIntradayFiring e); cbn [negb andb]; [|split; [done|lia]].
  rewrite !InLoc_same by done.
  assert (E : (Year t =? Year (currentDate e)) && (YearDay t =? YearDay (currentDate e)) = (date_no t =? date_no (currentDate e))).
  { rewrite !YearDay_no. destruct (Z.eqb_spec (Year t) (Year (currentDate e))) as [<-|Hne]; cbn [andb].
    - destruct (Z.eqb_spec (date_no t) (date_no (currentDate e))); lia.
    - destruct (Z.eqb_spec (date_no t) (date_no (currentDate e))) as [E|]; [|done]. by rewrite !Year_no, E in Hne. }
  rewrite E. destruct (date_no t =? _); split; try done; lia.
Qed.
(** A daily request of a run on a day of the exchange: the clock stands at it,
    nothing is being predicted, the day before is where [AddDate] puts it, and
    the cache is right. *)
Record on_day e t (assets : list Asset) (metrics : list Metric) : Prop := {
  od_loc : t_loc (currentDate e) = nyc;
  od_real : predicting e = false;
  od_eve : date_no (AddDate t 0 0 (-1)) = date_no t - 1;
  od_cache : cache_ok stamp T (ensure_cache e);
  od_feed : engine_feed stamp T unrecorded e metrics;
}.

(** C8. [Fetch] shows what is on record from the start of the lookback to the
    current day, and during an intra-day firing to the day before: nothing
    later is in the frame, and nothing up to there is missing. *)
Theorem Fetch_no_lookahead fuel e (assets : list Asset) lookback (metrics : list Metric) :
  IsIntraday lookback = false → on_day e (currentDate e) assets metrics →
  let start := period_Before lookback (currentDate e) in
  let today := date_no (currentDate e) in
  let end_ := capDailyRangeEnd e (currentDate e) in
  t_loc start = nyc → Year start <= Year end_ + 1 →
  ∃ e' df days, engine_Fetch fuel e assets lookback metrics = Some (e', Ok df) ∧
    serves T (date_no start) (date_no end_) assets metrics days df ∧
    date_no end_ = (if isIntradayFiring e then today - 1 else today) ∧ cache_ok stamp T (ensure_cache e').
Proof.
  intros Hl [Hloc Hp Heve Hc Hfeed] start today end_ Hls Hy.
  destruct (capDailyRangeEnd_day e (currentDate e) Hloc Hloc Heve) as [Hle Hd].
  unfold engine_Fetch. rewrite Hl. fold start end_. set (e0 := set_cache _ e).
  destruct (fetchRange_right stamp Hst T unrecorded (λ figi m y d Hu, Hu d) e0 (ensure_cache e) assets metrics start end_
    Hls Hle Hy Hc Hfeed) as (c' & df & days & E & Hc' & _ & _ & Hs).
  change (fetchRange e0 _ assets metrics _ _) with (fetchRange e0 (ensure_cache e) assets metrics start end_).
  rewrite E. cbn [mbind option_bind].
  destruct (finish_serves fuel "Fetch" "assembled" (set_cache (Some c') e0) (currentDate e) _ _ _ _ _ _ Hp Hs) as (df' & Ef & Hs').
  change (finish fuel _ _ _ _ _) with (finish fuel "Fetch" "assembled" (set_cache (Some c') e0) (currentDate e) (Ok df)).
  eexists _, df', days. split; [by rewrite Ef|]. split; [done|]. split; [|done].
  etransitivity; [exact Hd|]. unfold last_day. rewrite Z.eqb_refl, andb_true_r. fold today. destruct (isIntradayFiring e); lia.
Qed.

(** C18. [FetchAt] refuses an instant after the current date; at any other it shows
    what is on record that day, and during an intra-day firing of the current
    day what was on record the day before. *)
Theorem FetchAt_no_lookahead fuel e (assets : list Asset) t (metrics : list Metric) :
  t_loc t = nyc → on_day e t assets metrics →
  (IsZero (currentDate e) = false → After t (currentDate e) = true →
   engine_FetchAt fuel e assets t metrics = Some (e, Err "FetchAt: requested future date")) ∧
  (After t (currentDate e) = false →
   ∃ e' df days, engine_FetchAt fuel e assets t metrics = Some (e', Ok df) ∧
     serves T (last_day e t) (last_day e t) assets metrics days df ∧ cache_ok stamp T (ensure_cache e')).
Proof.
  intros Hlt [Hloc Hp Heve Hc Hfeed]. unfold engine_FetchAt. rewrite Hp. cbn [negb andb]. split.
  { by intros -> ->. }
  intros ->. rewrite andb_false_r. destruct (capDailyRangeEnd_day e t Hlt Hloc Heve) as [Hle Hd].
  set (e0 := set_cache _ e). change (capDailyRangeEnd e0 t) with (capDailyRangeEnd e t).
  change (ensure_cache e0) with (ensure_cache e). rewrite <-Hd.
  destruct (fetchRange_right stamp Hst T unrecorded (λ figi m y d Hu, Hu d) e0 (ensure_cache e) assets metrics
    (capDailyRangeEnd e t) (capDailyRangeEnd e t) Hle Hle ltac:(lia) Hc Hfeed) as (c' & df & days & E & Hc' & _ & _ & Hs).
  rewrite E. cbn [mbind option_bind].
  destruct (finish_serves fuel "FetchAt" "result" (set_cache (Some c') e0) (capDailyRangeEnd e t) _ _ _ _ _ _ Hp Hs)
    as (df' & -> & Hs').
  by eexists _, df', days.
Qed.
End Requests.
