(* ===== verification/ProviderProps.v ===== *)
(** * ProviderProps: providers that answer truthfully

    The engine's theorems are proved against the contract [truthful] of a
    provider.  Here the provider over a frame is shown to meet it. *)
From Stdlib Require Import ZArith Lia Sorted.
From stdpp Require Import base list gmap strings sorting.
From S2P Require Import Prelude Num GoTime Asset Period Frame Metrics FrameOps Calendar Schedule Provider DataCache Fetch.
From S2P Require Import Samples FrameProps FrameOpsProps ScheduleProps Sessions FetchFacts FetchChunks FetchProps.
Local Open Scope Z_scope.
#[local] Opaque days_from_civil civil_from_days date_no year_chunk dateKey.

(** ** Selections of a frame with unique metrics *)
Section Select.
Context {F : Type} `{Num F} `{TZDB}.
Implicit Types (df : DataFrame F) (a b : Asset) (m : Metric).

(** What [match_assets] selects: assets of the frame, one for every FIGI that
    is asked for and listed. *)
Lemma match_assets_spec df seen (assets : list Asset) :
  frame_shape df →
  (∀ b i, (b, i) ∈ match_assets df seen assets →
     df_assetIndex df !! CompositeFigi b = Some i ∧ b ∈ df_assets df ∧ CompositeFigi b ∈ CompositeFigi <$> assets) ∧
  (∀ figi, figi ∈ CompositeFigi <$> assets → figi ∈ CompositeFigi <$> df_assets df → figi ∉ seen →
     figi ∈ CompositeFigi <$> (match_assets df seen assets).*1).
Proof.
  intros Hs. revert seen. induction assets as [|a assets IH]; intros seen.
  { split; [intros b i Hb; by apply not_elem_of_nil in Hb|]. intros figi Hf. by apply not_elem_of_nil in Hf. }
  cbn [match_assets fmap list_fmap]. case_bool_decide as Hseen.
  - destruct (IH seen) as [Hin Hall]. split.
    + intros b i Hb. destruct (Hin b i Hb) as (? & ? & ?). split; [done|]. split; [done|]. by right.
    + intros figi [->|Hf]%elem_of_cons Hdf Hns; [done|]. by apply Hall.
  - rewrite (fs_index _ Hs). destruct (decide (CompositeFigi a ∈ CompositeFigi <$> df_assets df)) as [Ha|Ha].
    + destruct (index_assets_in 0 _ ∅ _ Ha) as (i & b & Ei & Hb & Hfig). rewrite Ei, Nat.add_0_l. cbn [mbind option_bind].
      rewrite Hb. cbn [fmap option_fmap option_map].
      destruct (IH (CompositeFigi a :: seen)) as [Hin Hall]. rewrite (fs_index _ Hs) in Hin. split.
      * intros c j [[= -> ->]|Hc]%elem_of_cons.
        { rewrite Hfig. split; [done|]. split; [by eapply list_elem_of_lookup_2|left]. }
        destruct (Hin c j Hc) as (? & ? & ?). split; [done|]. split; [done|]. by right.
      * intros figi Hf Hdf Hns. cbn. destruct (decide (figi = CompositeFigi a)) as [->|Hne]; [rewrite Hfig; left|]. right.
        apply Hall; [|done|]. { by apply elem_of_cons in Hf as [?|?]. } { rewrite elem_of_cons. tauto. }
    + rewrite index_assets_other by done. rewrite lookup_empty. cbn [mbind option_bind]. destruct (IH seen) as [Hin Hall]. split.
      * intros b i Hb. destruct (Hin b i Hb) as (? & ? & ?). rewrite <-(fs_index _ Hs). split; [done|]. split; [done|]. by right.
      * intros figi [->|Hf]%elem_of_cons Hdf Hns; [done|]. by apply Hall.
Qed.

Lemma metric_pos_nth (metrics : list Metric) :
  NoDup metrics → (λ m, metric_pos 0 metrics m) <$> metrics = Some <$> seq 0 (length metrics).
Proof.
  intros Hnd. apply list_eq. intros i. rewrite !list_lookup_fmap. destruct (metrics !! i) as [m|] eqn:E; cbn.
  - rewrite (metric_pos_lookup 0 _ i m) by done. rewrite lookup_seq_lt by (by eapply lookup_lt_Some). done.
  - rewrite lookup_seq_ge; [done|]. by apply lookup_ge_None.
Qed.

Lemma Column_at df a m i j :
  frame_shape df → df_assetIndex df !! CompositeFigi a = Some i → metricIndex df m = Some j → Column df a m = colSlice df i j.
Proof. intros Hs Ha Hm. unfold Column. by rewrite (fs_err _ Hs), Ha, Hm. Qed.

(** The frame restricted to assets and metrics is a grid of its columns. *)
Lemma Assets_grid df (assets : list Asset) :
  frame_shape df → NoDup (df_metrics df) → df_riskFreeRates df = None →
  let as_ := (match_assets df [] assets).*1 in
  Assets df assets = match as_ with [] => empty_frame | _ => grid_frame (df_times df) as_ (df_metrics df) (df_freq df) (Column df) end.
Proof.
  intros Hs Hnd Hr. cbn zeta. unfold Assets. rewrite (fs_err _ Hs).
  destruct (match_assets_spec df [] assets Hs) as [Hin _].
  destruct (match_assets df [] assets) as [|p l] eqn:E; [done|].
  assert (Hne : match_assets df [] assets ≠ []) by (by rewrite E). rewrite <-E in *. clear E p l.
  assert (Ecols : flat_map (λ p : Asset * nat, colSlice df p.2 <$> seq 0 (length (df_metrics df))) (match_assets df [] assets) =
    cells_of (match_assets df [] assets).*1 (df_metrics df) (Column df)).
  { revert Hin. generalize (match_assets df [] assets). induction l as [|[b i] l IH]; intros Hin; [done|].
    cbn [flat_map fmap list_fmap fst snd]. rewrite cells_cons, IH by (intros; apply Hin; by right). f_equal.
    destruct (Hin b i ltac:(left)) as (Hb & _ & _). apply list_eq. intros k. rewrite !list_lookup_fmap.
    destruct (df_metrics df !! k) as [m|] eqn:Ek; cbn.
    - rewrite lookup_seq_lt by (by eapply lookup_lt_Some). cbn. f_equal. symmetry.
      rewrite (Column_at df b m i k Hs Hb); [done|]. unfold metricIndex. by rewrite (metric_pos_lookup 0 _ k m).
    - rewrite lookup_seq_ge; [done|]. by apply lookup_ge_None. }
  rewrite Ecols. destruct (match_assets df [] assets) as [|p l]; [done|].
  unfold propagateAux. rewrite Hr. reflexivity.
Qed.

Lemma flat_map_seq {A B} (f : nat → list B) (h : A → list B) (l : list A) :
  (∀ i x, l !! i = Some x → f i = h x) → flat_map f (seq 0 (length l)) = l ≫= h.
Proof.
  induction l as [|x l IH] using rev_ind; intros Hf; [done|].
  rewrite length_app, seq_app, flat_map_app, bind_app. f_equal.
  - apply IH. intros i y Hi. apply Hf. by apply lookup_app_l_Some.
  - cbn. f_equal. apply Hf. by rewrite lookup_app_r, Nat.sub_diag.
Qed.

Definition listed (metrics want : list Metric) : list Metric := keep (λ m, bool_decide (m ∈ metrics)) want.

Lemma Metrics_empty (want : list Metric) : Metrics (@empty_frame F) want = empty_frame.
Proof. unfold Metrics. cbn [df_err empty_frame build]. induction want as [|m want IH]; [done|]. exact IH. Qed.

Lemma Metrics_grid times (assets : list Asset) (metrics want : list Metric) freq (col : Asset → Metric → list F) :
  let df := grid_frame times assets metrics freq col in
  Metrics df want = match listed metrics want with
                    | [] => empty_frame
                    | _ => grid_frame times assets (listed metrics want) freq col
                    end.
Proof.
  intros df. unfold Metrics. cbn [df_err grid_frame build]. fold df.
  set (matched := omap (λ m, pair m <$> metricIndex df m) want).
  assert (Hfst : matched.*1 = listed metrics want).
  { unfold matched, listed, keep, metricIndex. cbn [df grid_frame build df_metrics]. induction want as [|m want IH]; [done|]. cbn.
    destruct (metric_pos 0 metrics m) as [i|] eqn:E; cbn.
    - pose proof (metric_pos_Some _ _ _ _ E) as [_ Hi]. rewrite bool_decide_eq_true_2 by (by eapply list_elem_of_lookup_2). cbn.
      f_equal. apply IH.
    - apply metric_pos_None in E. rewrite bool_decide_eq_false_2 by done. apply IH. }
  assert (Hcols : flat_map (λ aIdx, (λ mi : Metric * nat, colSlice df aIdx mi.2) <$> matched) (seq 0 (length (df_assets df))) =
    cells_of assets matched.*1 col).
  { apply flat_map_seq. intros i a Hi. unfold matched. clear Hfst matched. revert Hi. generalize want. clear want.
    intros want Hi. induction want as [|m want IH]; [done|]. cbn.
    destruct (metric_pos 0 metrics m) as [j|] eqn:E; cbn; [|apply IH]. f_equal; [|apply IH].
    pose proof (metric_pos_Some _ _ _ _ E) as [_ Hj]. rewrite Nat.sub_0_r in Hj. unfold colSlice, colIdx. cbn [df grid_frame build df_columns df_metrics].
    by rewrite (cells_of_lookup _ _ col _ _ _ _ Hi Hj). }
  rewrite Hcols, Hfst. destruct matched as [|x l]; [by rewrite <-Hfst|].
  destruct (listed metrics want); [discriminate|]. reflexivity.
Qed.
End Select.

(** ** The provider over a frame *)

(** The instant before midnight of January 1 lies on December 31. *)
Class YearEnds `{TZDB} : Prop := year_eve : ∀ y, date_no (AddDur (day_start (jan1 y)) (-1)) = jan1 y - 1.

Section TestProvider.
Context {F : Type} `{Num F} `{MarketZone} `{!YearEnds}.
Context (stamp : Z → Time) (Hst : day_stamps stamp) (T : string → Metric → Z → F).
Implicit Types (df frame : DataFrame F) (a b : Asset) (m : Metric) (days : list Z).

(** The frame carries what is on record, on these days. *)
Record on_record frame days : Prop := {
  or_shape : frame_shape frame;
  or_unique : NoDup (df_metrics frame);
  or_rates : df_riskFreeRates frame = None;
  or_freq : df_freq frame = Daily;
  or_times : df_times frame = stamp <$> days;
  or_sorted : StronglySorted Z.lt days;
  or_values : ∀ a m, a ∈ df_assets frame → m ∈ df_metrics frame → Column frame a m = T (CompositeFigi a) m <$> days;
  or_nothing : ∀ figi m d,
    figi ∉ CompositeFigi <$> df_assets frame ∨ m ∉ df_metrics frame ∨ d ∉ days → T figi m d = fnan;
}.

(** The days of a chunk's request are those of its year. *)
Lemma chunk_days y (assets : list Asset) (metrics : list Metric) d :
  let req := chunk_request (year_chunk y) assets metrics in
  date_no (rq_Start req) <= d <= date_no (rq_End req) ↔ year_no d = y.
Proof.
  unfold chunk_request. cbn [rq_Start rq_End]. rewrite chunk_year, year_chunk_start, date_no_start, Date_jan1, year_eve. split.
  - intros Hd. apply year_no_bounds. lia.
  - intros <-. pose proof (year_bounds d). lia.
Qed.

(** The frame of the values on record. *)
Definition record_grid udays (assets : list Asset) (metrics : list Metric) : DataFrame F :=
  grid_frame (stamp <$> udays) assets metrics Daily (λ a m, T (CompositeFigi a) m <$> udays).

Lemma selected_grid frame udays (assets metrics_assets : list Asset) (metrics : list Metric) :
  on_record frame udays →
  (∀ a, a ∈ assets → a ∈ df_assets frame) → (∀ m, m ∈ metrics → m ∈ df_metrics frame) →
  grid_frame (df_times frame) assets metrics (df_freq frame) (Column frame) = record_grid udays assets metrics.
Proof.
  intros Hr Ha Hm. unfold record_grid. rewrite (or_times _ _ Hr), (or_freq _ _ Hr). unfold grid_frame. f_equal.
  induction assets as [|a assets IH]; [done|]. rewrite !cells_cons, IH by (intros; apply Ha; by right). f_equal.
  apply list_fmap_ext. intros i m Hi. apply (or_values _ _ Hr); [apply Ha; left|]. apply Hm. by eapply list_elem_of_lookup_2.
Qed.

Lemma answered_nothing y (assets : list Asset) (metrics : list Metric) :
  (∀ a m d, a ∈ assets → m ∈ metrics → T (CompositeFigi a) m d = fnan) →
  answered stamp T (unrecorded T) y assets metrics [] empty_frame.
Proof.
  intros Hno. split; [by split|done|constructor|constructor|..].
  - intros a Ha. by apply not_elem_of_nil in Ha.
  - intros m Hm. by apply not_elem_of_nil in Hm.
  - intros a m Ha. by apply not_elem_of_nil in Ha.
  - intros a m d Ha Hm _ _. by apply Hno.
  - done.
Qed.

(** A range of the grid answers the request for a year. *)
Lemma record_answers gone y udays (sel assets : list Asset) (ms metrics : list Metric) :
  let req := chunk_request (year_chunk y) assets metrics in
  StronglySorted Z.lt udays →
  (∀ a, a ∈ sel → CompositeFigi a ∈ CompositeFigi <$> assets) → (∀ m, m ∈ ms → m ∈ metrics) →
  (∀ a m d, a ∈ assets → m ∈ metrics → CompositeFigi a ∉ CompositeFigi <$> sel ∨ m ∉ ms ∨ d ∉ udays → T (CompositeFigi a) m d = fnan) →
  (∀ a m, a ∈ assets → m ∈ metrics → CompositeFigi a ∉ CompositeFigi <$> sel ∨ m ∉ ms → gone (CompositeFigi a) m y) →
  ∃ days, answered stamp T gone y assets metrics days (Between (record_grid udays sel ms) (rq_Start req) (rq_End req)).
Proof.
  intros req Hs Hsel Hms Hno Hgone. unfold record_grid.
  set (col := λ a m, T (CompositeFigi a) m <$> udays).
  destruct (Between_grid stamp Hst udays sel ms col (rq_Start req) (rq_End req)) as (i & j & Ht & Hd & Hcol);
    [done|intros; apply length_fmap|]. set (days := slice i j udays) in *.
  assert (Hin : ∀ d, d ∈ days ↔ d ∈ udays ∧ year_no d = y) by (intros d; rewrite Hd; unfold req; by rewrite (chunk_days y assets metrics d)).
  assert (Hgrid : frame_shape (grid_frame (stamp <$> udays) sel ms Daily col)) by (apply grid_shape; intros; unfold col; by rewrite !length_fmap).
  exists days. set (r := Between _ _ _) in *.
  assert (Hr : (r = empty_frame ∧ days = []) ∨ (df_assets r = sel ∧ df_metrics r = ms)).
  { revert Ht. unfold r. rewrite (Between_slice _ _ _ (fs_err _ Hgrid)). cbn zeta. destruct (_ <=? _)%nat; [|by right].
    intros E. left. split; [done|]. by apply symmetry, fmap_nil_inv in E. }
  split.
  - apply Between_shape, Hgrid.
  - exact Ht.
  - unfold days, slice. by apply StronglySorted_take, StronglySorted_drop.
  - apply Forall_forall. by intros d [_ ?]%Hin.
  - intros a Ha. destruct Hr as [[E _]|[E _]]; rewrite E in Ha; [by apply not_elem_of_nil in Ha|by apply Hsel].
  - intros m Hm. destruct Hr as [[E _]|[_ E]]; rewrite E in Hm; [by apply not_elem_of_nil in Hm|by apply Hms].
  - intros a m Ha Hm. destruct Hr as [[E _]|[Ea Em]]; [rewrite E in Ha; by apply not_elem_of_nil in Ha|].
    rewrite Ea in Ha. rewrite Em in Hm. rewrite (Hcol a m (list_elem_of_fmap_2 _ _ _ Ha) Hm); [apply slice_fmap|].
    intros b c E. unfold col. by rewrite E.
  - intros a m d Ha Hm Hy Hnd. apply Hno; [done|done|]. right. right. intros Hu. by apply Hnd, Hin.
  - intros a m Ha Hm Hne Habs. apply Hgone; [done|done|].
    destruct Hr as [[_ E]|[Ea Em]]; [done|]. rewrite Ea, Em in Habs. tauto.
Qed.

Lemma TestProvider_answers frame udays y (assets : list Asset) (metrics : list Metric) :
  on_record frame udays →
  ∃ df days, TestProvider_Fetch frame (chunk_request (year_chunk y) assets metrics) = Ok df ∧
    answered stamp T (unrecorded T) y assets metrics days df.
Proof.
  intros Hr. unfold TestProvider_Fetch. set (req := chunk_request _ _ _).
  change (rq_Assets req) with assets. change (rq_Metrics req) with metrics.
  rewrite (Assets_grid frame assets (or_shape _ _ Hr) (or_unique _ _ Hr) (or_rates _ _ Hr)). cbn zeta.
  destruct (match_assets_spec frame [] assets (or_shape _ _ Hr)) as [Hin Hall].
  set (sel := (match_assets frame [] assets).*1) in *.
  assert (Hsel : ∀ a, a ∈ sel → a ∈ df_assets frame ∧ CompositeFigi a ∈ CompositeFigi <$> assets).
  { intros a ([b i] & -> & Hb)%list_elem_of_fmap. by destruct (Hin b i Hb) as (_ & ? & ?). }
  assert (Hno : ∀ a m d, a ∈ assets → m ∈ metrics →
    CompositeFigi a ∉ CompositeFigi <$> sel ∨ m ∉ listed (df_metrics frame) metrics ∨ d ∉ udays → T (CompositeFigi a) m d = fnan).
  { intros a m d Ha Hm Habs. apply (or_nothing _ _ Hr). destruct Habs as [Habs|[Habs|?]]; [left|right; left|by right; right].
    - intros Hf. apply Habs, Hall; [by apply list_elem_of_fmap_2|done|apply not_elem_of_nil].
    - intros Hf. apply Habs, elem_of_keep. by rewrite bool_decide_eq_true. }
  assert (Hms : ∀ m, m ∈ listed (df_metrics frame) metrics → m ∈ df_metrics frame ∧ m ∈ metrics)
    by (intros m; unfold listed; by rewrite elem_of_keep, bool_decide_eq_true).
  clearbody sel. set (ms := listed (df_metrics frame) metrics) in *.
  assert (Esel : sel = [] ∨ sel ≠ []) by (destruct sel; auto). assert (Emsl : ms = [] ∨ ms ≠ []) by (destruct ms; auto).
  destruct Esel as [->|Hsel0].
  { eexists _, []. split; [reflexivity|]. rewrite Metrics_empty. apply answered_nothing. intros a m d Ha Hm.
    apply Hno; [done|done|]. left. apply not_elem_of_nil. }
  replace (match sel with [] => _ | _ :: _ => _ end) with (grid_frame (df_times frame) sel (df_metrics frame) (df_freq frame) (Column frame))
    by (destruct sel; done).
  rewrite Metrics_grid. fold ms. destruct Emsl as [Ems|Hms0].
  { rewrite Ems in *. eexists _, []. split; [reflexivity|]. apply answered_nothing. intros a m d Ha Hm.
    apply Hno; [done|done|]. right. left. apply not_elem_of_nil. }
  replace (match ms with [] => _ | _ :: _ => _ end) with (record_grid udays sel ms)
    by (rewrite <-(selected_grid frame udays sel sel ms Hr) by naive_solver; by destruct ms).
  destruct (record_answers (unrecorded T) y udays sel assets ms metrics (or_sorted _ _ Hr)) as (days & Hans);
    [naive_solver|naive_solver|done|intros a m Ha Hm Habs d _; apply Hno; [done|done|tauto]|].
  by eexists _, days.
Qed.
(** C21. The provider over a frame meets the contract that the engine's theorems
    suppose of a provider, for every metric it is asked for: the shape, the
    time axis and the values of its answers are those on record, and a column
    it leaves out has nothing on record. *)
Theorem TestProvider_truthful frame udays :
  on_record frame udays → truthful stamp T (unrecorded T) (λ _, True) (TestProvider_Fetch frame).
Proof. intros Hr y assets metrics _. by apply (TestProvider_answers frame udays). Qed.
End TestProvider.

(** ** Routing *)
Section Routing.
Context {F : Type}.
Implicit Types (e : Engine F) (p : DataProvider F) (m : Metric).

(** The number of the last provider of a metric. *)
Definition last_provider (ps : list (DataProvider F)) m (i : nat) : Prop :=
  (∃ p, ps !! i = Some p ∧ m ∈ Provides p) ∧ ∀ j p, (i < j)%nat → ps !! j = Some p → m ∉ Provides p.

Lemma route_one (i : nat) (ms : list Metric) (routes : gmap Metric nat) m :
  fold_left (λ routes m, <[m := i]> routes) ms routes !! m = if decide (m ∈ ms) then Some i else routes !! m.
Proof.
  revert routes. induction ms as [|x ms IH]; intros routes; cbn [fold_left]; [done|]. rewrite IH.
  destruct (decide (m ∈ ms)) as [Hm|Hm]; [by rewrite decide_True by (by right)|].
  destruct (decide (m = x)) as [->|Hne]; [by rewrite lookup_insert_eq, decide_True by left|].
  rewrite lookup_insert_ne by done. rewrite decide_False; [done|]. rewrite elem_of_cons. tauto.
Qed.

Lemma route_providers_spec (ps : list (DataProvider F)) n (routes : gmap Metric nat) :
  match route_providers n ps routes with
  | Ok r => (∀ p, p ∈ ps → is_Some (dp_Fetch p)) ∧
      ∀ m k, r !! m = Some k ↔
        (∃ i, last_provider ps m i ∧ k = (n + i)%nat) ∨ (routes !! m = Some k ∧ ∀ p, p ∈ ps → m ∉ Provides p)
  | Err _ => ∃ p, p ∈ ps ∧ dp_Fetch p = None
  end.
Proof.
  revert n routes. induction ps as [|p ps IH]; intros n routes; cbn [route_providers].
  { split; [intros p Hp; by apply not_elem_of_nil in Hp|]. intros m k. split.
    - intros Hk. right. split; [done|]. intros p Hp. by apply not_elem_of_nil in Hp.
    - by intros [(i & [(p & Hp & _) _] & _)|[Hk _]]. }
  destruct (dp_Fetch p) as [fetch|] eqn:Ef; [|exists p; split; [left|done]].
  specialize (IH (S n) (fold_left (λ routes m, <[m := n]> routes) (Provides p) routes)).
  destruct (route_providers _ _ _) as [r|err].
  - destruct IH as [Hall Hr]. split; [intros p' [->|Hp']%elem_of_cons; [by rewrite Ef|by apply Hall]|].
    intros m k. rewrite Hr, route_one. split.
    + intros [(i & [(p' & Hi & Hm) Hlast] & ->)|[Hk Hno]].
      * left. exists (S i). split; [|lia]. split; [by exists p'|]. intros [|j] p'' Hj Hp''; [lia|]. apply (Hlast j); [lia|done].
      * case_decide as Hm.
        { left. exists 0%nat. split; [|injection Hk as <-; lia]. split; [by exists p|]. intros [|j] p'' Hj Hp''; [lia|].
          apply Hno. by eapply list_elem_of_lookup_2. }
        right. split; [done|]. intros p' [->|Hp']%elem_of_cons; [done|by apply Hno].
    + intros [(i & [(p' & Hi & Hm) Hlast] & ->)|[Hk Hno]].
      * destruct i as [|i]; cbn in Hi.
        { injection Hi as <-. right. rewrite decide_True by done. split; [f_equal; lia|]. intros p' (j & Hj)%list_elem_of_lookup.
          apply (Hlast (S j)); [lia|done]. }
        left. exists i. split; [|lia]. split; [by exists p'|]. intros j p'' Hj Hp''. apply (Hlast (S j)); [lia|done].
      * right. rewrite decide_False by (apply Hno; left). split; [done|]. intros p' Hp'. apply Hno. by right.
  - destruct IH as (p' & Hp' & E). exists p'. split; [by right|done].
Qed.

(** Routing succeeds exactly when every provider fetches in batches, and then
    a metric goes to the last registered provider that provides it, and to
    none if none does. *)
Theorem buildProviderRouting_last e :
  match buildProviderRouting e with
  | Ok e' => (∀ p, p ∈ providers e → is_Some (dp_Fetch p)) ∧ e' = set_metricProvider (metricProvider e') e ∧
      ∀ m i, metricProvider e' !! m = Some i ↔ last_provider (providers e) m i
  | Err _ => ∃ p, p ∈ providers e ∧ dp_Fetch p = None
  end.
Proof.
  unfold buildProviderRouting. pose proof (route_providers_spec (providers e) 0 ∅) as Hr.
  destruct (route_providers 0 (providers e) ∅) as [r|err]; cbn; [|done]. destruct Hr as [Hall Hr]. split; [done|]. split; [done|].
  intros m i. rewrite Hr. split; [|intros Hl; left; by exists i].
  intros [(j & Hj & ->)|[Hk _]]; [done|]. by rewrite lookup_empty in Hk.
Qed.
End Routing.

(** ** The catalogue of metrics *)
Section Columns.
Context {F : Type} `{Num F}.

(** Whatever metrics are asked for, those of the metrics view have SQL
    columns, and so have all fundamentals: the queries [PVDataProvider] builds
    never fail for want of a column, and a name stands for one metric. *)
Theorem catalogue_has_columns (metrics : list Metric) :
  (∃ cols, bind_columns (view_metrics "metrics" metrics) = Ok cols ∧ length cols = length (view_metrics "metrics" metrics)) ∧
  (forallb IsFundamental metrics = true →
   ∃ cols, key_columns metrics = Ok cols ∧ cols.*1 = keep (λ m, negb (is_metadata m)) metrics) ∧
  ∀ name name' m, MetricByName name = Some m → MetricByName name' = Some m → name = name'.
Proof.
  split; [|split].
  - assert (Hall : Forall (λ mv : Metric * string, mv.2 = "metrics"%string → is_Some (metricsColumn !! mv.1)) (map_to_list metricView))
      by (apply (bool_decide_unpack _); vm_compute; done).
    rewrite Forall_forall in Hall. unfold view_metrics, keep. induction metrics as [|m metrics (cols & E & Hlen)]; [by exists []|].
    cbn [List.filter]. case_bool_decide as Hm; [|by exists cols]. cbn [bind_columns]. assert (Hcol : is_Some (metricsColumn !! m)) by (apply (Hall (m, "metrics"%string)); [by apply elem_of_map_to_list|done]).
    destruct Hcol as [col ->]. rewrite E. exists (col :: cols). cbn. by rewrite Hlen.
  - assert (Hall : Forall (λ mv : Metric * string, mv.2 = "fundamentals"%string → is_Some (metricColumn !! mv.1)) (map_to_list metricView))
      by (apply (bool_decide_unpack _); vm_compute; done).
    rewrite Forall_forall in Hall. intros Hf. induction metrics as [|m metrics IH]; [by exists []|].
    cbn [forallb] in Hf. apply andb_true_iff in Hf as [Hm Hf]. destruct (IH Hf) as (cols & E & Hlen). cbn [key_columns].
    unfold keep in *. cbn [List.filter]. destruct (is_metadata m) eqn:Emeta; cbn [negb]; [by exists cols|].
    unfold IsFundamental, lookup_d in Hm. apply bool_decide_eq_true in Hm.
    destruct (metricView !! m) as [v|] eqn:Ev; [|done]. cbn in Hm. subst v.
    assert (Hcol : is_Some (metricColumn !! m)) by (apply (Hall (m, "fundamentals"%string)); [by apply elem_of_map_to_list|done]).
    destruct Hcol as [col ->]. rewrite E.
    exists ((m, col) :: cols). split; [done|]. cbn. by rewrite Hlen.
  - intros name name' m E E'. unfold MetricByName in E, E'.
    assert (Hnd : NoDup (map_to_list metricRegistry).*2) by (apply (bool_decide_unpack _); vm_compute; done).
    rewrite <-elem_of_map_to_list in E, E'. apply list_elem_of_lookup in E as (i & Hi), E' as (j & Hj).
    assert (i = j) as <-; [|congruence].
    eapply NoDup_lookup; [exact Hnd| |]; rewrite list_lookup_fmap; [by rewrite Hi|by rewrite Hj].
Qed.
End Columns.
