(* ===== verification/FetchRuns.v ===== *)
(** * FetchRuns: a recorded market of three days

    Closes of two assets and a fundamental of one of them, on the last day of
    2023 and two days of 2024, in a frame that the test provider serves: the
    witnesses of the theorems on data access run on it. *)
From Stdlib Require Import ZArith Lia Sorted.
From stdpp Require Import base list gmap strings sorting.
From S2P Require Import Prelude Num GoTime Asset Period Frame Metrics FrameOps Calendar Schedule Provider DataCache Fetch.
From S2P Require Import Samples FrameProps FrameOpsProps ScheduleProps Sessions FetchFacts FetchChunks FetchProps ProviderProps.
Local Open Scope Z_scope.

Local Existing Instance utc_db.
Local Existing Instance stable_sort_slice.
Local Existing Instance launch_order.
Local Existing Instance canonical_order.

#[export] Instance utc_market : MarketZone := exchange_market.

(** Rows are stamped at 16:00. *)
Definition close_stamp (n : Z) : Time := day_clock n 57600.

Lemma close_stamps : day_stamps close_stamp.
Proof.
  split; [done| |].
  - intros n. by apply date_clock; unfold every_day, secs_per_day; lia.
  - intros n. unfold close_stamp. rewrite <-!day_clock_0, !utc_clock. unfold secs_per_day, ns_per_sec. cbn [t_ns]. lia.
Qed.

#[export] Instance utc_year_ends : YearEnds.
Proof.
  intros y. generalize (jan1 y). intros n. unfold date_no, wall_secs, AddDur, Unix, day_start. cbn [t_ns t_loc].
  rewrite !utc_fixed, Z.sub_0_r, Z.add_0_r. unfold secs_per_day, ns_per_sec. Z.to_euclidean_division_equations. lia.
Qed.

Lemma utc_eve t : t_loc t = nyc → date_no (AddDate t 0 0 (-1)) = date_no t - 1.
Proof.
  intros Hl. rewrite (AddDate_days_fixed t 0) by done. unfold date_no, wall_secs, Unix. cbn [t_ns t_loc].
  change (zone _ _) with 0. rewrite !Z.add_0_r. unfold ns_per_day, secs_per_day, ns_per_sec. Z.to_euclidean_division_equations. lia.
Qed.

(** 2023-12-29, 2024-01-02 and 2024-01-03. *)
Definition market_days : list Z := [19720; 19724; 19725].
Definition market_metrics : list Metric := [MetricClose; Catalog.Revenue].

Definition market_cells : list ((string * Metric * Z) * xq) :=
  [ ((CompositeFigi SPY, MetricClose, 19720), q 100); ((CompositeFigi SPY, MetricClose, 19724), q 101);
    ((CompositeFigi SPY, MetricClose, 19725), q 102); ((CompositeFigi TLT, MetricClose, 19720), q 50);
    ((CompositeFigi TLT, MetricClose, 19725), q 52); ((CompositeFigi SPY, Catalog.Revenue, 19724), q 7) ].

Definition market_record (figi : string) (m : Metric) (d : Z) : xq :=
  default XNaN ((list_to_map market_cells : gmap (string * Metric * Z) xq) !! (figi, m, d)).

Definition market_frame : DataFrame xq := record_grid close_stamp market_record market_days [SPY; TLT] market_metrics.

Lemma market_on_record : on_record close_stamp market_record market_frame market_days.
Proof.
  split.
  - apply grid_shape. intros. by rewrite !length_fmap.
  - apply (bool_decide_unpack _). vm_compute. done.
  - done.
  - done.
  - done.
  - repeat constructor.
  - intros a m Ha Hm.
    refine (grid_Column _ _ _ _ (λ a m, market_record (CompositeFigi a) m <$> market_days) a m (list_elem_of_fmap_2 _ _ _ Ha) Hm _).
    intros b c E. by rewrite E.
  - intros figi m d Habs. unfold market_record. destruct (list_to_map market_cells !! (figi, m, d)) as [x|] eqn:E; [|done].
    exfalso. apply elem_of_list_to_map_2 in E.
    assert (Hall : Forall (λ c : (string * Metric * Z) * xq, c.1.1.1 ∈ CompositeFigi <$> [SPY; TLT] ∧ c.1.1.2 ∈ market_metrics ∧ c.1.2 ∈ market_days) market_cells)
      by (apply (bool_decide_unpack _); vm_compute; done).
    rewrite Forall_forall in Hall. specialize (Hall _ E). cbn [fst snd] in Hall. cbn [market_frame record_grid grid_frame build df_assets df_metrics] in Habs. tauto.
Qed.

Definition market_provider : DataProvider xq := NewTestProvider market_metrics market_frame.

(** An engine at the close of 2024-01-03 over this provider. *)
Definition market_engine : Engine xq :=
  mkEngine [market_provider] {[ MetricClose := 0%nat; Catalog.Revenue := 0%nat ]} None 0 None
    (close_stamp 19725) (close_stamp 19725) false false (mkRiskFree [] [] ∅) "ARQ".

Lemma market_feed : engine_feed close_stamp market_record (unrecorded market_record) market_engine market_metrics.
Proof.
  intros m Hm. exists 0%nat, (TestProvider_Fetch market_frame). split; [|split; [done|]].
  - apply elem_of_cons in Hm as [->|Hm]; [done|]. by apply list_elem_of_singleton in Hm as ->.
  - intros y assets metrics _. exact (TestProvider_answers close_stamp close_stamps market_record market_frame market_days y assets metrics market_on_record).
Qed.

Lemma empty_cache_ok : cache_ok close_stamp market_record (newDataCache 0).
Proof. intros figi m y entry Hk. cbn [newDataCache entries] in Hk. by rewrite lookup_empty in Hk. Qed.

Lemma fetchRange_serves_witness :
  ∃ c df days, fetchRange market_engine (newDataCache 0) [SPY; TLT] market_metrics (close_stamp 19720) (close_stamp 19725) = Some (c, Ok df) ∧
    serves market_record 19720 19725 [SPY; TLT] market_metrics days df.
Proof.
  destruct (fetchRange_serves close_stamp close_stamps market_record market_engine (newDataCache 0) [SPY; TLT] market_metrics
    (close_stamp 19720) (close_stamp 19725) eq_refl eq_refl ltac:(vm_compute; discriminate) empty_cache_ok market_feed)
    as (c & df & days & E & _ & Hs).
  exists c, df, days. split; [exact E|exact Hs].
Defined.

(** A provider that answers with every column it is asked for. *)
Definition full_fetch (req : DataRequest) : result (DataFrame xq) :=
  Ok (Between (record_grid close_stamp market_record market_days (rq_Assets req) (rq_Metrics req)) (rq_Start req) (rq_End req)).
Definition full_engine : Engine xq :=
  mkEngine [mkProvider market_metrics (Some full_fetch) None None] {[ MetricClose := 0%nat; Catalog.Revenue := 0%nat ]} None 0 None
    (close_stamp 19725) (close_stamp 19725) false false (mkRiskFree [] [] ∅) "ARQ".

Lemma full_answers gone y (assets : list Asset) (metrics : list Metric) :
  ∃ df days, full_fetch (chunk_request (year_chunk y) assets metrics) = Ok df ∧
    answered close_stamp market_record gone y assets metrics days df.
Proof.
  destruct (record_answers close_stamp close_stamps market_record gone y market_days assets assets metrics metrics) as (days & Ha).
  - apply market_on_record.
  - intros a Ha. by apply list_elem_of_fmap_2.
  - done.
  - intros a m d Ha Hm [Habs|[Habs|Habs]]; [destruct Habs; by apply list_elem_of_fmap_2|done|].
    apply (or_nothing _ _ _ _ market_on_record). by right; right.
  - intros a m Ha Hm [Habs|Habs]; [destruct Habs; by apply list_elem_of_fmap_2|done].
  - by eexists _, days.
Qed.

Lemma full_feed gone e :
  providers e !! 0%nat ≫= dp_Fetch = Some full_fetch →
  metricProvider e = {[ MetricClose := 0%nat; Catalog.Revenue := 0%nat ]} →
  engine_feed close_stamp market_record gone e market_metrics.
Proof.
  intros Hp Hr m Hm. exists 0%nat, full_fetch. split; [|split; [done|]].
  - rewrite Hr. apply elem_of_cons in Hm as [->|Hm]; [done|]. by apply list_elem_of_singleton in Hm as ->.
  - intros y assets metrics _. apply full_answers.
Qed.

(** The second request asks an engine without providers. *)
Definition bare_engine : Engine xq :=
  mkEngine [] ∅ None 0 None (close_stamp 19725) (close_stamp 19725) false false (mkRiskFree [] [] ∅) "ARQ".

Lemma fetchRange_repeats_witness :
  ∃ c df df' days, fetchRange full_engine (newDataCache 0) [SPY; TLT] market_metrics (close_stamp 19720) (close_stamp 19725) = Some (c, Ok df) ∧
    fetchRange bare_engine c [TLT] [MetricClose] (close_stamp 19724) (close_stamp 19725) = Some (c, Ok df') ∧
    serves market_record 19724 19725 [TLT] [MetricClose] days df'.
Proof.
  destruct (fetchRange_repeats close_stamp close_stamps market_record full_engine (newDataCache 0) [SPY; TLT] market_metrics
    (close_stamp 19720) (close_stamp 19725) eq_refl eq_refl ltac:(vm_compute; discriminate) empty_cache_ok (full_feed never full_engine eq_refl eq_refl))
    as (c & df & E & Hagain).
  destruct (Hagain bare_engine [TLT] [MetricClose] (close_stamp 19724) (close_stamp 19725)) as (df' & days & E' & Hs);
    [apply (bool_decide_unpack _); vm_compute; done|apply (bool_decide_unpack _); vm_compute; done|done|done|
     vm_compute; discriminate|vm_compute; discriminate|vm_compute; discriminate|].
  exists c, df, df', days. split; [exact E|]. split; [exact E'|exact Hs].
Defined.

(** A cache with the year 2024 of SPY's close. *)
Definition close_cache : dataCache xq :=
  cache_put (mkKey (CompositeFigi SPY) MetricClose (year_chunk 2024)) (entry_on close_stamp market_record (CompositeFigi SPY) MetricClose [19724; 19725])
    (newDataCache 0).

Lemma year_of_2024 d : year_no d = 2024 → d ∉ [19724; 19725] → market_record (CompositeFigi SPY) MetricClose d = XNaN.
Proof.
  intros Hy Hd. destruct (decide (d ∈ market_days)) as [Hin|Hin].
  - exfalso. apply elem_of_cons in Hin as [->|Hin]; [by vm_compute in Hy|]. done.
  - apply (or_nothing _ _ _ _ market_on_record). by right; right.
Qed.

Lemma close_cache_ok : cache_ok close_stamp market_record close_cache.
Proof.
  apply cache_put_right; [apply empty_cache_ok|]. exists [19724; 19725]. split; [done|]. split.
  - repeat constructor.
  - repeat constructor.
  - apply year_of_2024.
Qed.

Lemma point_in_time_slab_witness :
  ∃ p s, assemblePointInTime close_cache [SPY] [MetricClose] (close_stamp 19724) false = Some (Ok p) ∧
    assemble_slab close_cache [year_chunk 2024] [SPY] [MetricClose] (close_stamp 19724) (close_stamp 19724) = Ok s ∧
    df_times p = df_times s ∧ Forall2 same_cell (Column p SPY MetricClose) (Column s SPY MetricClose).
Proof.
  destruct (point_in_time_slab close_stamp close_stamps market_record close_cache [SPY] [MetricClose] 19724 close_cache_ok)
    as (p & s & Ep & Es & Ht & Hc).
  - intros y a m ->%list_elem_of_singleton ->%list_elem_of_singleton ->%list_elem_of_singleton. left. eexists. vm_compute. reflexivity.
  - exists p, s. split; [exact Ep|]. split; [exact Es|]. split; [exact Ht|]. apply Hc; left.
Defined.

(** At the close, and at noon of the same day, when a provider has minute bars. *)
Definition noon_engine : Engine xq :=
  mkEngine [mkProvider market_metrics (Some full_fetch) (Some (λ _ _ _ _ _, Err "no bars"%string)) None]
    {[ MetricClose := 0%nat; Catalog.Revenue := 0%nat ]} None 0 None
    (close_stamp 19725) (day_clock 19725 43200) false false (mkRiskFree [] [] ∅) "ARQ".

Lemma noon_on_day t : t_loc t = nyc → on_day close_stamp market_record noon_engine t [SPY; TLT] market_metrics.
Proof.
  intros Hl. split; [done|done|by apply utc_eve|apply empty_cache_ok|by apply full_feed].
Qed.

Lemma Fetch_no_lookahead_witness :
  isIntradayFiring noon_engine = true ∧
  ∃ e df days, engine_Fetch 0 noon_engine [SPY; TLT] (Months 1) market_metrics = Some (e, Ok df) ∧
    Forall (λ d, d <= 19724) days ∧ date_no <$> df_times df = days.
Proof.
  split; [vm_compute; reflexivity|].
  destruct (Fetch_no_lookahead close_stamp close_stamps market_record 0 noon_engine [SPY; TLT] (Months 1) market_metrics eq_refl
    (noon_on_day (currentDate noon_engine) eq_refl) eq_refl ltac:(vm_compute; discriminate)) as (e & df & days & E & Hs & Hend & _).
  exists e, df, days. split; [exact E|]. split; [|apply Hs].
  assert (En : isIntradayFiring noon_engine = true) by (vm_compute; reflexivity). rewrite En in Hend.
  eapply Forall_impl; [apply (sv_range _ _ _ _ _ _ _ Hs)|]. intros d [_ Hd]. rewrite Hend in Hd. vm_compute (date_no (currentDate noon_engine)) in Hd. lia.
Defined.

Lemma FetchAt_no_lookahead_witness :
  engine_FetchAt 0 noon_engine [SPY; TLT] (close_stamp 19726) market_metrics = Some (noon_engine, Err "FetchAt: requested future date") ∧
  ∃ e df days, engine_FetchAt 0 noon_engine [SPY; TLT] (close_stamp 19725) market_metrics = Some (e, Ok df) ∧
    serves market_record 19724 19724 [SPY; TLT] market_metrics days df.
Proof.
  split.
  - destruct (FetchAt_no_lookahead close_stamp close_stamps market_record 0 noon_engine [SPY; TLT] (close_stamp 19726) market_metrics eq_refl
      (noon_on_day (close_stamp 19726) eq_refl)) as [Hf _]. apply Hf; vm_compute; reflexivity.
  - destruct (FetchAt_no_lookahead close_stamp close_stamps market_record 0 noon_engine [SPY; TLT] (close_stamp 19725) market_metrics eq_refl
      (noon_on_day (close_stamp 19725) eq_refl)) as [_ Hs]. destruct Hs as (e & df & days & E & Hd & _); [vm_compute; reflexivity|].
    exists e, df, days. split; [exact E|].
    assert (El : last_day noon_engine (close_stamp 19725) = 19724) by (vm_compute; reflexivity). rewrite El in Hd. exact Hd.
Defined.

(** A put over an entry, and an eviction in 2026: the year 2024 goes. *)
Lemma cache_bytes_exact_witness :
  curBytes (cache_put (mkKey (CompositeFigi SPY) MetricClose (year_chunk 2024)) (mkEntry [] []) close_cache) = 0 ∧
  curBytes close_cache = 64 ∧
  entries (evictBefore (close_stamp (jan1 2026)) close_cache) !! mkKey (CompositeFigi SPY) MetricClose (year_chunk 2024) = None.
Proof.
  destruct (@cache_bytes_exact xq utc_db canonical_order) as (Hnew & Hput & Hevict).
  assert (Hc : counted close_cache) by apply Hput, Hnew.
  split; [|split].
  - rewrite (Hput _ _ _ Hc). vm_compute. reflexivity.
  - rewrite Hc. vm_compute. reflexivity.
  - rewrite (proj2 (Hevict (close_stamp (jan1 2026)) close_cache Hc)). rewrite decide_True; [reflexivity|]. vm_compute. reflexivity.
Defined.

Lemma TestProvider_truthful_witness :
  ∃ df days, TestProvider_Fetch market_frame (chunk_request (year_chunk 2024) [TLT] [MetricClose]) = Ok df ∧
    df_times df = close_stamp <$> days ∧ Forall (λ d, year_no d = 2024) days.
Proof.
  destruct (TestProvider_truthful close_stamp close_stamps market_record market_frame market_days market_on_record 2024 [TLT] [MetricClose])
    as (df & days & E & Ha); [by repeat constructor|].
  exists df, days. split; [exact E|]. split; [apply (an_times _ _ _ _ _ _ _ _ Ha)|apply (an_year _ _ _ _ _ _ _ _ Ha)].
Defined.

Lemma catalogue_has_columns_witness :
  ∃ cols, key_columns [Catalog.Revenue; Catalog.FundamentalsDateKey] = Ok cols ∧ cols.*1 = [Catalog.Revenue].
Proof.
  destruct (catalogue_has_columns [Catalog.Revenue; Catalog.FundamentalsDateKey]) as (_ & Hk & _).
  destruct Hk as (cols & E & Hc); [vm_compute; reflexivity|]. exists cols. split; [exact E|]. rewrite Hc. vm_compute. reflexivity.
Defined.
