(* ===== verification/PlanProps.v ===== *)
(** * PlanProps: the dates and firings of a backtest

    A lawful schedule names a set of instants and [Next] gives the first of
    them after an instant.  The plan of a run then has one step for every
    trading day of the range and in each step exactly the firings of the day,
    of the parent and of every child, in order. *)
From Stdlib Require Import ZArith Lia Sorted.
From stdpp Require Import base list gmap strings pretty sorting.
From S2P Require Import Prelude Num GoTime Asset Period Frame Metrics FrameOps Calendar Schedule Provider DataCache Fetch.
From S2P Require Import Broker Lots Ledger Account Batch Exec SimBroker MarginCall Engine Backtest.
From S2P Require Import Samples Runs ScheduleProps Sessions.
Local Open Scope Z_scope.

(** ** Keys of days *)

Lemma pad0_roundtrip w (lo len n : Z) :
  forallb (λ k, bool_decide (digits 0 (pad0 w k) = Some k) && (String.length (pad0 w k) =? w)%nat) (seqZ lo len) = true →
  lo <= n < lo + len → digits 0 (pad0 w n) = Some n ∧ String.length (pad0 w n) = w.
Proof.
  intros Hall Hn. rewrite forallb_forall in Hall.
  specialize (Hall n ltac:(by rewrite <-list_elem_of_In, elem_of_seqZ)). apply andb_true_iff in Hall as [Hd Hl].
  apply bool_decide_eq_true in Hd. apply Nat.eqb_eq in Hl. done.
Qed.

Lemma pad2 (n : Z) : 0 <= n < 0 + 100 → digits 0 (pad0 2 n) = Some n ∧ String.length (pad0 2 n) = 2%nat.
Proof. apply (pad0_roundtrip 2). vm_compute. reflexivity. Qed.
Lemma pad4 (n : Z) : 1900 <= n < 1900 + 1100 → digits 0 (pad0 4 n) = Some n ∧ String.length (pad0 4 n) = 4%nat.
Proof. apply (pad0_roundtrip 4). vm_compute. reflexivity. Qed.

Lemma append_inj (s1 s2 t1 t2 : string) :
  String.length s1 = String.length s2 → (s1 +:+ t1 = s2 +:+ t2)%string → s1 = s2 ∧ t1 = t2.
Proof.
  revert s2. induction s1 as [|c s1 IH]; intros [|c2 s2] Hl E; try done.
  cbn in Hl. injection Hl as Hl. change (String c (s1 +:+ t1) = String c2 (s2 +:+ t2)) in E. injection E as -> E.
  destruct (IH s2 Hl E) as [-> ->]. done.
Qed.

Lemma pad_inj w a b : digits 0 (pad0 w a) = Some a → digits 0 (pad0 w b) = Some b → pad0 w a = pad0 w b → a = b.
Proof. intros Ha Hb E. rewrite E, Hb in Ha. by injection Ha. Qed.

Section Plan.
Context {tz : TZDB}.
Implicit Types (t u v : Time) (next : NextFn).

(** A year from 1900 to 2999. *)
Definition plain_year t : Prop := 1900 <= Year t < 3000.

Lemma cal_key_date t u : date_no t = date_no u → cal_key t = cal_key u.
Proof. intros E. unfold cal_key, format_date, Year, Month, Day, civil. fold (date_no t) (date_no u). by rewrite E. Qed.

Lemma cal_key_inj t u : plain_year t → plain_year u → cal_key t = cal_key u → date_no t = date_no u.
Proof.
  unfold plain_year. intros Ht Hu. unfold cal_key, format_date.
  destruct (pad4 (Year t)) as [Dyt Lyt]; [lia|]. destruct (pad4 (Year u)) as [Dyu Lyu]; [lia|].
  assert (Hm : ∀ v, 0 <= Month v < 0 + 100 ∧ 0 <= Day v < 0 + 100 ∧ days_from_civil (Year v) (Month v) (Day v) = date_no v).
  { intros v. unfold Year, Month, Day, civil. fold (date_no v). destruct (days_civil_roundtrip (date_no v)) as [Hrt Hm].
    destruct (civil_of_day (date_no v)) as (_ & _ & _ & Hd). cbn zeta in *. split; [lia|]. split; [lia|done]. }
  destruct (Hm t) as (Mt & Dt & <-), (Hm u) as (Mu & Du & <-).
  destruct (pad2 _ Mt) as [Dmt Lmt], (pad2 _ Mu) as [Dmu Lmu], (pad2 _ Dt) as [Ddt Ldt], (pad2 _ Du) as [Ddu Ldu].
  intros E. apply append_inj in E as [Ey E]; [|by rewrite Lyt, Lyu].
  apply (append_inj "-" "-") in E as [_ E]; [|done]. apply append_inj in E as [Em E]; [|by rewrite Lmt, Lmu].
  apply (append_inj "-" "-") in E as [_ Ed]; [|done].
  by rewrite (pad_inj 4 _ _ Dyt Dyu Ey), (pad_inj 2 _ _ Dmt Dmu Em), (pad_inj 2 _ _ Ddt Ddu Ed).
Qed.

(** ** Lawful schedules *)
Class ScheduleLaws (next : NextFn) (fires : Time → Prop) : Prop := {
  next_total : ∀ t, is_Some (next t);
  next_fires : ∀ t u, next t = Some u → fires u ∧ Before t u = true;
  next_least : ∀ t u v, next t = Some u → fires v → Before t v = true → Before v u = false;
  fires_loc : ∀ t, fires t → t_loc t = nyc;
  fires_second : ∀ t, fires t → t_ns t mod ns_per_sec = 0;
}.

Definition between (start stop t : Time) : Prop := t_ns start <= t_ns t <= t_ns stop.
Definition in_time_order (l : list Time) : Prop := StronglySorted (λ t u, t_ns t < t_ns u) l.

Lemma enumerate_from_spec next fires `{!ScheduleLaws next fires} n stop cur :
  fires cur → (Z.to_nat (t_ns stop - t_ns cur + 1) < n)%nat →
  ∃ l, enumerate_from n next stop cur = Some l ∧ in_time_order l ∧ ∀ t, t ∈ l ↔ fires t ∧ between cur stop t.
Proof.
  revert cur. induction n as [|n IH]; intros cur Hcur Hn; [lia|]. cbn [enumerate_from]. unfold After.
  destruct (Z.ltb_spec (t_ns stop) (t_ns cur)) as [Hlt|Hle].
  { exists []. split; [done|]. split; [constructor|]. intros t. unfold between. pose proof (not_elem_of_nil t).
    split; [done|intros [_ ?]; lia]. }
  destruct (next_total (AddDur cur 1)) as [u Hu]. rewrite Hu. cbn [mbind option_bind].
  destruct (next_fires _ _ Hu) as [Hfu Hbu]. unfold Before, AddDur in Hbu. cbn [t_ns] in Hbu. apply Z.ltb_lt in Hbu.
  destruct (IH u Hfu) as (l & El & Hs & Hl); [lia|]. rewrite El. exists (cur :: l). split; [done|]. split.
  - constructor; [done|]. apply Forall_forall. intros t [_ Ht]%Hl. unfold between in Ht. lia.
  - intros t. rewrite elem_of_cons, Hl. unfold between. split.
    + intros [->|[Hf Ht]]; (split; [done|lia]).
    + intros [Hf Ht]. destruct (decide (t_ns t = t_ns cur)) as [E|Hne].
      { left. pose proof (fires_loc t Hf) as L1. pose proof (fires_loc cur Hcur) as L2. destruct t, cur; cbn in *. by subst. }
      right. split; [done|]. split; [|lia].
      pose proof (fires_second t Hf) as M1. pose proof (fires_second cur Hcur) as M2.
      pose proof (next_least _ _ t Hu Hf) as Hmin. unfold Before, AddDur in Hmin. cbn [t_ns] in Hmin.
      rewrite Z.ltb_lt, Z.ltb_ge in Hmin. apply Hmin. clear -M1 M2 Ht Hne. unfold ns_per_sec in *.
      pose proof (Z.div_mod (t_ns t) 1000000000). pose proof (Z.div_mod (t_ns cur) 1000000000). lia.
Qed.

(** The instants of a lawful schedule in a range, in order. *)
Lemma enumerate_spec next fires `{!ScheduleLaws next fires} start stop :
  ∃ n0, ∀ n, (n0 <= n)%nat →
  ∃ l, enumerate n next start stop = Some l ∧ in_time_order l ∧ ∀ t, t ∈ l ↔ fires t ∧ between start stop t.
Proof.
  exists (Z.to_nat (t_ns stop - t_ns start) + 2)%nat. intros n Hn. unfold enumerate.
  destruct (next_total (AddDur start (-1))) as [u Hu]. rewrite Hu. cbn [mbind option_bind].
  destruct (next_fires _ _ Hu) as [Hfu Hbu]. unfold Before, AddDur in Hbu. cbn [t_ns] in Hbu. apply Z.ltb_lt in Hbu.
  destruct (enumerate_from_spec next fires n stop u Hfu) as (l & El & Hs & Hl); [lia|].
  exists l. split; [done|]. split; [done|]. intros t. rewrite Hl. unfold between. split; [intros [? ?]; split; [done|lia]|].
  intros [Hf Ht]. split; [done|]. split; [|lia]. pose proof (next_least _ _ t Hu Hf) as Hmin.
  unfold Before, AddDur in Hmin. cbn [t_ns] in Hmin. rewrite Z.ltb_lt, Z.ltb_ge in Hmin. apply Hmin. lia.
Qed.

(** Grouping by day keeps the order. *)
Lemma group_by_date_lookup (l : list Time) key :
  lookup_d [] (group_by_date l) key = keep (λ t, bool_decide (cal_key t = key)) l.
Proof.
  unfold group_by_date. induction l as [|t l IH] using rev_ind; [cbn [fold_left]; by rewrite lookup_d_empty|].
  rewrite fold_left_app. cbn [fold_left]. unfold keep in *. rewrite List.filter_app. cbn [List.filter].
  destruct (decide (cal_key t = key)) as [<-|Hne].
  - rewrite bool_decide_eq_true_2 by done. by rewrite lookup_d_insert_eq, IH.
  - rewrite bool_decide_eq_false_2 by done. by rewrite lookup_d_insert_ne, IH, app_nil_r.
Qed.

Lemma keep_sorted_on {A} (R : relation A) (P : A → bool) (l : list A) : StronglySorted R l → StronglySorted R (keep P l).
Proof.
  unfold keep. induction 1 as [|x l Hs IH Hx]; cbn; [constructor|]. destruct (P x); [|done]. constructor; [done|].
  apply Forall_forall. intros y Hy. rewrite Forall_forall in Hx. apply Hx. by apply elem_of_keep in Hy as [_ Hy].
Qed.

(** The firings of a day. *)
Definition day_firings (fires : Time → Prop) start stop (d : Time) (l : list Time) : Prop :=
  in_time_order l ∧ ∀ t, t ∈ l ↔ fires t ∧ between start stop t ∧ date_no t = date_no d.

Lemma grouped_firings fires start stop (l : list Time) d :
  in_time_order l → (∀ t, t ∈ l ↔ fires t ∧ between start stop t) →
  (∀ t, fires t → between start stop t → plain_year t) → plain_year d →
  day_firings fires start stop d (lookup_d [] (group_by_date l) (cal_key d)).
Proof.
  intros Hs Hl Hy Hd. rewrite group_by_date_lookup. split; [by apply keep_sorted_on|].
  intros t. rewrite elem_of_keep, bool_decide_eq_true, Hl. split.
  - intros [E [Hf Hb]]. split; [done|]. split; [done|]. by apply cal_key_inj; [apply Hy| |].
  - intros (Hf & Hb & E). split; [by apply cal_key_date|done].
Qed.

Lemma child_fires_lookup (m : gmap string (gmap string (list Time))) (names : list string) key name :
  name ∈ names → lookup_d [] (child_fires m names key) name = lookup_d [] (lookup_d ∅ m name) key.
Proof.
  assert (Hgen : ∀ acc, (name ∈ names ∨ lookup_d [] acc name = lookup_d [] (lookup_d ∅ m name) key) →
    lookup_d [] (fold_left (λ acc name, match lookup_d [] (lookup_d ∅ m name) key with
                                        | [] => acc | firings => <[name := firings]> acc end) names acc) name =
      lookup_d [] (lookup_d ∅ m name) key ∨ lookup_d [] acc name ≠ [] ∧ lookup_d [] (lookup_d ∅ m name) key = []).
  { induction names as [|x names IH]; intros acc Hin; cbn [fold_left].
    { destruct Hin as [Hin|Hin]; [by apply not_elem_of_nil in Hin|by left]. }
    destruct (decide (x = name)) as [->|Hne].
    - destruct (lookup_d [] (lookup_d ∅ m name) key) as [|t l] eqn:E.
      + destruct (decide (lookup_d [] acc name = [])) as [E0|E0]; [|by right]. apply IH. by right.
      + destruct (IH (<[name := t :: l]> acc)) as [Hok|[_ ?]]; [right; by rewrite lookup_d_insert_eq|by left|done].
    - assert (Hacc : lookup_d [] (match lookup_d [] (lookup_d ∅ m x) key with [] => acc | firings => <[x := firings]> acc end) name = lookup_d [] acc name)
        by (destruct (lookup_d [] (lookup_d ∅ m x) key); [done|by rewrite lookup_d_insert_ne]).
      rewrite <-Hacc. apply IH. rewrite Hacc. destruct Hin as [[->|Hin]%elem_of_cons|Hin]; [done|by left|by right]. }
  intros Hin. destruct (Hgen ∅ (or_introl Hin)) as [Hok|[Hne _]]; [exact Hok|]. by rewrite lookup_d_empty in Hne.
Qed.

Lemma child_fires_absent (m : gmap string (gmap string (list Time))) (names : list string) key name :
  name ∉ names → lookup_d [] (child_fires m names key) name = [].
Proof.
  intros Hn. unfold child_fires. assert (Hgen : ∀ acc, lookup_d [] acc name = [] →
    lookup_d [] (fold_left (λ acc name, match lookup_d [] (lookup_d ∅ m name) key with
                                        | [] => acc | firings => <[name := firings]> acc end) names acc) name = []);
    [|apply Hgen, lookup_d_empty].
  induction names as [|x names IH]; intros acc Hacc; cbn [fold_left]; [done|].
  apply not_elem_of_cons in Hn as [Hne Hn]. apply IH; [done|].
  destruct (lookup_d [] (lookup_d ∅ m x) key); [done|by rewrite lookup_d_insert_ne].
Qed.
End Plan.

Section Run.
Context {F : Type} {tz : TZDB} {S : Type}.
Implicit Types (cfg : Config F S) (children : list (childEntry F S)).

Lemma children_firings fires_of (children : list (string * NextFn)) start stop :
  (∀ c, c ∈ children → ScheduleLaws c.2 (fires_of c.1)) →
  ∃ n0, ∀ n, (n0 <= n)%nat →
  ∃ l, mapM (λ cs : string * NextFn, pair cs.1 <$> enumerate n cs.2 start stop) children = Some l ∧
    l.*1 = children.*1 ∧
    ∀ name ts, (name, ts) ∈ l → in_time_order ts ∧ ∀ t, t ∈ ts ↔ fires_of name t ∧ between start stop t.
Proof.
  induction children as [|c children IH]; intros Hc.
  { exists 0%nat. intros m _. exists []. split; [done|]. split; [done|]. intros ? ? Hin. by apply not_elem_of_nil in Hin. }
  destruct IH as (n1 & IH); [intros; apply Hc; by right|].
  destruct (@enumerate_spec _ _ (Hc c (list_elem_of_here _ _)) start stop) as (n2 & He).
  exists (n1 + n2)%nat. intros m Hm. destruct (IH m ltac:(lia)) as (l & El & Hn & Hl), (He m ltac:(lia)) as (ts & Ets & Hs & Hts).
  exists ((c.1, ts) :: l). cbn [mapM]. rewrite Ets. cbn [fmap option_fmap option_map mbind option_bind]. rewrite El.
  split; [done|]. split; [exact (f_equal (cons c.1) Hn)|]. intros name ts' [[= -> ->]|Hin]%elem_of_cons; [done|by apply Hl].
Qed.

Lemma grouped_children (l : list (string * list Time)) name ts :
  NoDup l.*1 → (name, ts) ∈ l →
  lookup_d ∅ (fold_left (λ (m : gmap string (gmap string (list Time))) nf, <[nf.1 := group_by_date nf.2]> m) l ∅) name = group_by_date ts.
Proof.
  induction l as [|[x xs] l IH] using rev_ind; intros Hnd Hin; [by apply not_elem_of_nil in Hin|].
  rewrite fmap_app in Hnd. apply NoDup_app in Hnd as (Hnd & Hx & _). rewrite fold_left_app. cbn [fold_left fst snd].
  apply elem_of_app in Hin as [Hin|[= -> ->]%list_elem_of_singleton]; [|by rewrite lookup_d_insert_eq].
  rewrite lookup_d_insert_ne; [by apply IH|]. intros ->. apply (Hx name); [|left]. apply list_elem_of_fmap. by exists (name, ts).
Qed.

(** The names of the children with a schedule. *)
Lemma scheduled_names children : NoDup (ch_name <$> children) → NoDup (scheduled children).*1.
Proof.
  intros Hnd. refine (sublist_NoDup _ _ _ _); [exact Hnd|]. clear Hnd. induction children as [|c children IH]; [done|]. unfold scheduled. cbn [omap list_omap].
  destruct (ch_schedule c); cbn [fmap option_fmap option_map list_fmap fst]; by constructor.
Qed.
Lemma unscheduled_name children c :
  NoDup (ch_name <$> children) → c ∈ children → ch_schedule c = None → ch_name c ∉ (scheduled children).*1.
Proof.
  intros Hnd Hin Hn ([name next] & En & (c' & Hin' & Es)%list_elem_of_omap)%list_elem_of_fmap. cbn in En. subst name.
  destruct (ch_schedule c') eqn:E'; [|done]. injection Es as En _. apply list_elem_of_lookup in Hin as [i Hi], Hin' as [j Hj].
  assert (i = j) as ->; [|congruence].
  eapply (NoDup_lookup _ i j (ch_name c) Hnd); rewrite list_lookup_fmap, ?Hi, ?Hj; cbn; by rewrite ?En.
Qed.

(** C11. For lawful schedules and a long enough enumeration, the plan of a run has
    one step for each instant of the daily schedule in the range, in order;
    its parent firings are the firings of the parent in the range on that
    calendar day, in order, and so are those of each child with a schedule; a
    child without one never fires. *)
Theorem plan_enumerates cfg children trades parent fires_of start stop :
  ScheduleLaws (dailySchedule cfg) trades → ScheduleLaws (schedule cfg) parent →
  (∀ c next, c ∈ children → ch_schedule c = Some next → ScheduleLaws next (fires_of (ch_name c))) → NoDup (ch_name <$> children) →
  (∀ t, t_loc t = nyc → between start stop t → plain_year t) →
  ∃ n0, ∀ n, (n0 <= n)%nat → ∃ steps, plan n cfg children start stop = Some steps ∧
    in_time_order (date <$> steps) ∧ (∀ t, t ∈ date <$> steps ↔ trades t ∧ between start stop t) ∧
    ∀ s, s ∈ steps →
      day_firings parent start stop (date s) (parentFirings s) ∧
      ∀ c, c ∈ children → match ch_schedule c with
                          | Some _ => day_firings (fires_of (ch_name c)) start stop (date s) (lookup_d [] (childFirings s) (ch_name c))
                          | None => lookup_d [] (childFirings s) (ch_name c) = []
                          end.
Proof.
  intros Hd Hp Hc Hnd Hy. destruct (enumerate_spec _ trades start stop) as (n1 & He1), (enumerate_spec _ parent start stop) as (n2 & He2).
  assert (Hcs : ∀ c, c ∈ scheduled children → ScheduleLaws c.2 (fires_of c.1)).
  { intros [name next] (c & Hin & Es)%list_elem_of_omap. destruct (ch_schedule c) eqn:E; [|done]. injection Es as <- <-. by apply Hc. }
  destruct (children_firings fires_of (scheduled children) start stop Hcs) as (n3 & He3). exists (n1 + n2 + n3)%nat. intros n Hn.
  destruct (He1 n ltac:(lia)) as (dates & Ed & Hds & Hdl), (He2 n ltac:(lia)) as (ps & Ep & Hps & Hpl).
  destruct (He3 n ltac:(lia)) as (l & El & Hnames & Hl). unfold plan. rewrite Ep. cbn [mbind option_bind]. rewrite El.
  cbn [mbind option_bind]. rewrite Ed. cbn [mbind option_bind]. eexists. split; [reflexivity|].
  assert (Edate : date <$> steps_of dates ps l = dates) by (unfold steps_of; rewrite <-list_fmap_compose; apply list_fmap_id).
  rewrite Edate. split; [done|]. split; [done|]. intros s (d & -> & Hdin)%list_elem_of_fmap. cbn [date parentFirings childFirings].
  apply Hdl in Hdin as [Htr Hb]. assert (Hyd : plain_year d) by (apply Hy; [exact (@fires_loc _ _ Hd d Htr)|done]).
  split; [apply grouped_firings; [done|done| |done]; intros t Ht ?; apply Hy; [exact (@fires_loc _ _ Hp t Ht)|done]|].
  intros c Hcin. destruct (ch_schedule c) as [next|] eqn:Esch.
  2:{ rewrite child_fires_absent; [done|]. rewrite Hnames. by apply (unscheduled_name children c). }
  assert (Hsc : (ch_name c, next) ∈ scheduled children).
  { apply list_elem_of_omap. exists c. by rewrite Esch. }
  assert (Hin : ch_name c ∈ l.*1).
  { rewrite Hnames. apply list_elem_of_fmap. by exists (ch_name c, next). }
  rewrite child_fires_lookup by done. apply list_elem_of_fmap in Hin as ([name ts] & En & Hin). cbn in En. subst name.
  assert (Hndl : NoDup l.*1) by (rewrite Hnames; by apply scheduled_names). rewrite (grouped_children l (ch_name c) ts Hndl Hin). destruct (Hl _ _ Hin) as [Hs Hts].
  apply grouped_firings; [done|done| |done]. intros t Ht ?. apply Hy; [|done]. exact (@fires_loc _ _ (Hc c next Hcin Esch) t Ht).
Qed.
End Run.

(** ** The daily close is a lawful schedule *)
Section DailyClose.
Context `{ExchangeZone} `{Cron} (holidays : Holidays) (tc : TradeCron) (Hcs : close_schedule holidays tc).
Context (no_date : tc_DateFlag tc = NoDateFlag).
(* the market is never closed for so long that the source gives up *)
Context (open_days : ∀ n, ∃ k, n <= k < n + 5000 ∧ trading holidays k = true).
Implicit Types (t : Time) (n k : Z).
Local Abbreviation closing := (hhmm_secs (mh_Close (tc_hours tc))).
Local Abbreviation close_of := (close_of holidays tc).

Lemma settle_none forDate k :
  Before forDate (day_clock k closing) = true → trading holidays k && Before forDate (close_of k) = false →
  settle holidays tc forDate (day_clock k closing) = None.
Proof.
  intros Ha Hno. pose proof (closing_pos holidays tc Hcs) as [_ Hp].
  assert (Hday : IsMarketDay holidays (day_clock k closing) = trading holidays k).
  { rewrite IsMarketDay_date. change (InLoc (day_clock k closing) nyc) with (day_clock k closing).
    by rewrite date_clock by done. }
  unfold settle, IsMarketOpen. change (InLoc (day_clock k closing) nyc) with (day_clock k closing). rewrite Hday.
  destruct (trading holidays k) eqn:Ht; cbn [negb andb] in *; [|by rewrite andb_false_r].
  rewrite clock_fields by apply (cs_close _ _ Hcs). rewrite !EarlyClose_day by done.
  unfold ScheduleProps.close_of in Hno. destruct (Z.eqb_spec (EarlyClose holidays (day_start k)) 0) as [E|E].
  { rewrite Ha in Hno. done. }
  destruct (cs_early _ _ Hcs k) as [?|(Hv & _ & Hle)]; [lia|].
  pose proof (cs_hours _ _ Hcs) as Ho. unfold coversFullDay.
  destruct (Z.leb_spec (mh_Open (tc_hours tc)) 0); [lia|]. cbn [andb].
  destruct (Z.ltb_spec (mh_Close (tc_hours tc)) (mh_Open (tc_hours tc))); [lia|]. cbn [orb].
  destruct (Z.ltb_spec (EarlyClose holidays (day_start k)) (mh_Close (tc_hours tc))) as [Hlt|Hge]; cbn [negb].
  - unfold at_close. rewrite (cs_time _ _ Hcs). cbn [andb].
    rewrite early_close_clock by (rewrite ?EarlyClose_day by done; done).
    rewrite EarlyClose_day, date_clock by done. unfold After. unfold Before in Hno. by rewrite Hno.
  - replace (EarlyClose holidays (day_start k)) with (mh_Close (tc_hours tc)) in Hno by lia. congruence.
Qed.

(** From the day of [forDate] on, the loop stops at the first close ahead. *)
Lemma open_loop_daily forDate k n iters cur :
  t_loc cur = nyc → cron_Next (tc_Schedule tc) cur = day_clock n closing →
  Before forDate (day_clock n closing) = true → n <= k → (Z.to_nat (k - n) < iters)%nat →
  trading holidays k = true → Before forDate (close_of k) = true →
  (∀ j, n <= j < k → trading holidays j && Before forDate (close_of j) = false) →
  open_loop holidays tc iters forDate cur = Some (close_of k).
Proof.
  intros Hl Hn Ha Hle Hit Ht Hbe Hno. pose proof (closing_pos holidays tc Hcs) as [_ Hp].
  revert n iters cur Hl Hn Ha Hle Hit Hno. intros n iters. revert n.
  induction iters as [|iters IH]; intros n cur Hl Hn Ha Hle Hit Hno; [lia|].
  cbn [open_loop]. rewrite Hn. destruct (decide (n = k)) as [->|Hne].
  - by rewrite (settle_close holidays tc Hcs).
  - rewrite settle_none by (done || (apply Hno; lia)). apply (IH (n + 1)); [done| | |lia|lia|intros; apply Hno; lia].
    + rewrite (cs_cron _ _ Hcs) by done. unfold next_clock. rewrite date_clock by done.
      by rewrite Before_irrefl.
    + pose proof (clock_before_day n (n + 1) closing ltac:(lia) Hp). pose proof (day_before_clock (n + 1) (n + 1) closing ltac:(done) Hp).
      unfold Before in *. lia.
Qed.

(** [Next] of a daily close is the first close of a market day ahead. *)
Lemma Next_daily_close fuel t : ∃ k, trading holidays k = true ∧ Before t (close_of k) = true ∧
  (∀ j, j < k → trading holidays j && Before t (close_of j) = false) ∧ Next fuel holidays tc t = Some (close_of k).
Proof.
  pose proof (closing_pos holidays tc Hcs) as [_ Hp]. set (u := InLoc t nyc).
  change (∃ k, trading holidays k = true ∧ Before u (close_of k) = true ∧
    (∀ j, j < k → trading holidays j && Before u (close_of j) = false) ∧ Next fuel holidays tc t = Some (close_of k)).
  assert (Hu : t_loc u = nyc) by done.
  assert (Hlater : ∀ j, date_no u < j → Before u (close_of j) = true) by (intros j; by apply (close_ahead holidays tc Hcs)).
  assert (Hclock : ∀ j, close_of j = day_clock j closing ∨ Before (close_of j) (day_clock j closing) = true).
  { intros j. destruct (close_of_range holidays tc Hcs j) as (s & -> & Hs & Hle). destruct (decide (s = closing)) as [->|]; [by left|right].
    rewrite Before_clock by done. lia. }
  destruct (open_days (date_no u + 1)) as (k1 & Hk1 & Ht1).
  destruct (least_day (λ k, trading holidays k && Before u (close_of k)) (date_no u) k1) as (k & Hk & Hpk & Hlow);
    [lia|rewrite Ht1, Hlater by lia; done|].
  apply andb_true_iff in Hpk as [Htk Hbk]. exists k. split; [done|]. split; [done|]. split.
  { intros j Hj. destruct (Z.lt_ge_cases j (date_no u)) as [Hlt|]; [|by apply Hlow].
    by rewrite (close_past holidays tc Hcs), andb_false_r. }
  unfold Next. fold u. unfold search_start. rewrite no_date. cbn [fmap option_fmap option_map mbind option_bind]. rewrite Before_irrefl.
  pose proof (cs_cron _ _ Hcs u Hu) as Hcron. unfold next_clock in Hcron.
  destruct (Before u (day_clock (date_no u) closing)) eqn:E.
  - apply (open_loop_daily u k (date_no u)); [done|done|done|lia|apply Z2Nat.inj_lt; lia|done|done|]. intros; apply Hlow; lia.
  - assert (k ≠ date_no u).
    { intros ->. destruct (Hclock (date_no u)) as [Ec|Hlt]; [congruence|]. unfold Before in *. lia. }
    apply (open_loop_daily u k (date_no u + 1)); [done|done| |lia|apply Z2Nat.inj_lt; lia|done|done|intros; apply Hlow; lia].
    destruct (Hclock (date_no u + 1)) as [<-|Hlt]; [apply Hlater; lia|]. assert (Hx : Before u (close_of (date_no u + 1)) = true) by (apply Hlater; lia). unfold Before in *. lia.
Qed.

Lemma close_unique j k : close_of j = close_of k → j = k.
Proof.
  destruct (close_of_range holidays tc Hcs j) as (s & -> & Hs & _), (close_of_range holidays tc Hcs k) as (r & -> & Hr & _).
  intros E. rewrite <-(date_clock j s), E by done. by apply date_clock.
Qed.

(** The instants at which a daily close fires: the actual closes of the market
    days. *)
Definition market_closes t : Prop := ∃ k, trading holidays k = true ∧ t = close_of k.

#[export] Instance daily_close_lawful fuel : ScheduleLaws (Next fuel holidays tc) market_closes.
Proof.
  split.
  - intros t. destruct (Next_daily_close fuel t) as (k & _ & _ & _ & ->). done.
  - intros t u E. destruct (Next_daily_close fuel t) as (k & Ht & Hb & _ & E'). rewrite E in E'. injection E' as ->.
    split; [by exists k|done].
  - intros t u v E (j & Ht & ->) Hb. destruct (Next_daily_close fuel t) as (k & _ & _ & Hlow & E'). rewrite E in E'. injection E' as ->.
    destruct (Z.lt_ge_cases j k) as [Hlt|Hge]; [specialize (Hlow j Hlt); by rewrite Ht, Hb in Hlow|].
    destruct (decide (j = k)) as [->|]; [apply Before_irrefl|].
    pose proof (close_within holidays tc Hcs j) as [Hj _]. pose proof (close_within holidays tc Hcs k) as [_ Hk].
    pose proof (day_start_le (k + 1) j ltac:(lia)). unfold Before. lia.
  - intros t (k & _ & ->). by destruct (close_of_range holidays tc Hcs k) as (s & -> & _).
  - intros t (k & _ & ->). destruct (close_of_range holidays tc Hcs k) as (s & -> & _). unfold day_clock. cbn [t_ns].
    by rewrite Z.mod_mul.
Qed.
End DailyClose.

(** ** Witness: the week of Thanksgiving *)
Section Witness.
Local Existing Instance utc_db.
Local Existing Instance daily_cron.

Definition daily_close : TradeCron := mkTradeCron 57600 "@daily" "0 16 * * *" AtClose NoDateFlag RegularHours.

Lemma daily_close_schedule : close_schedule thanksgiving daily_close.
Proof.
  pose proof (month_end_schedule utc_thanksgiving) as M. split; [done|unfold clock_value; vm_compute; intuition congruence|cbn; lia| |].
  - intros k. pose proof (cs_early _ _ M k) as He. cbn zeta in *.
    assert (Eh : tc_hours month_end_cron = RegularHours) by (vm_compute; reflexivity). by rewrite Eh in He.
  - intros [ns loc] Hl. cbn in Hl. subst loc. reflexivity.
Qed.

Lemma thanksgiving_opens n : ∃ k, n <= k < n + 5000 ∧ trading thanksgiving k = true.
Proof.
  assert (Hopen : ∀ k, k ≠ 20055 → negb ((weekday_no k =? 6) || (weekday_no k =? 0)) = true → trading thanksgiving k = true).
  { intros k Hne Hw. unfold trading. rewrite Hw. cbn [andb]. assert (Eu : Unix (day_start k) = k * 86400).
    { unfold Unix, day_start, secs_per_day. cbn [t_ns]. rewrite Z.div_mul by done. change (zone _ _) with 0. lia. }
    assert (Et : thanksgiving = (<[20056 * 86400 := 1300]> (<[20055 * 86400 := 0]> ∅) : gmap Z Z)) by (vm_compute; reflexivity).
    rewrite Eu. destruct (decide (k = 20056)) as [->|]; [vm_compute; done|].
    assert (El : (thanksgiving : gmap Z Z) !! (k * 86400) = None) by (rewrite Et, !lookup_insert_ne by lia; apply lookup_empty).
    unfold Holidays in *. by rewrite El. }
  destruct (weekday_soon n) as (j & Hj & Hw). destruct (decide (n + j = 20055)) as [E|Hne].
  - exists 20056. split; [lia|]. vm_compute. reflexivity.
  - exists (n + j). split; [lia|]. by apply Hopen.
Qed.

Definition idle : Strategy xq nat := mkStrategy "idle" (λ m e _ a b, mkComputed m e a b None) None None.
Definition idle_child : childEntry xq nat :=
  mkChild idle "core" (q 1) (Some (Next 10 thanksgiving daily_close)) (holding 1000 0 100) NewSimulatedBroker.
Definition idle_config : Config xq nat :=
  mkConfig idle (Next 10 thanksgiving daily_close) (Next 10 thanksgiving daily_close) zero_asset zero_asset [] [] Ok.

Lemma plan_enumerates_witness :
  ∃ n0, ∀ n, (n0 <= n)%nat → ∃ steps, plan n idle_config [idle_child] (mkTime (t_ns (day 330)) nyc) (mkTime (t_ns (day 334)) nyc) = Some steps ∧
    mkTime (t_ns (day 333) + 13 * ns_per_hour) nyc ∈ date <$> steps.
Proof.
  set (start := mkTime (t_ns (day 330)) nyc). set (stop := mkTime (t_ns (day 334)) nyc).
  pose (closes := market_closes thanksgiving daily_close).
  assert (Hlaw : ScheduleLaws (Next 10 thanksgiving daily_close) closes).
  { apply (daily_close_lawful thanksgiving daily_close daily_close_schedule eq_refl thanksgiving_opens). }
  destruct (plan_enumerates idle_config [idle_child] closes closes (λ _, closes) start stop) as (n0 & Hn0).
  - exact Hlaw.
  - exact Hlaw.
  - intros c next ->%list_elem_of_singleton [= <-]. exact Hlaw.
  - apply (bool_decide_unpack _). vm_compute. done.
  - intros [ns loc] Hl [Hlo Hhi]. cbn in Hl. subst loc. unfold plain_year.
    pose proof (year_no_mono 20053 (date_no (mkTime ns nyc))) as H1. pose proof (year_no_mono (date_no (mkTime ns nyc)) 20058) as H2.
    assert (E1 : year_no 20053 = 2024) by (vm_compute; reflexivity). assert (E2 : year_no 20058 = 2024) by (vm_compute; reflexivity).
    assert (Hd : 20053 <= date_no (mkTime ns nyc) <= 20058).
    { pose proof (date_bounds (mkTime ns nyc) eq_refl) as Hb. rewrite <-!day_clock_0, !utc_clock in Hb. unfold secs_per_day, ns_per_sec, nyc in *. cbn [t_ns] in *.
      assert (L : t_ns start = 20053 * 86400 * 1000000000) by reflexivity. assert (R : t_ns stop = 20057 * 86400 * 1000000000) by reflexivity. lia. }
    change (Year (mkTime ns nyc)) with (year_no (date_no (mkTime ns nyc))). lia.
  - exists n0. intros n Hn. destruct (Hn0 n Hn) as (steps & E & _ & Hdates & _). exists steps. split; [exact E|].
    apply Hdates. split; [|split; vm_compute; discriminate]. exists 20056. split; vm_compute; reflexivity.
Defined.
End Witness.
