(* ===== verification/TradeFacts.v ===== *)
(** * TradeFacts: what trading leaves of an account

    Executing a batch, draining fills, cancelling, reconciling and syncing
    change the ledger, the order book, the batches and the annotations of an
    account.  They append to its transaction log, drop no annotation, and
    leave its equity history alone. *)
From Stdlib Require Import ZArith Lia.
From stdpp Require Import base list gmap strings.
From S2P Require Import Prelude Num GoTime Asset Period Frame Broker Lots Ledger.
From S2P Require Import Account Batch Exec MarginCall LedgerFacts.

Section Facts.
Context {F : Type} `{Num F} {tz : TZDB} {fx : FmtFloat F} {go : GoMapOrder}.
Context {B : Type} `{!Broker B F}.
Implicit Types (a : Account F) (s : ExecState B F) (L : Ledger F) (b : Batch F) (k : B).

(** ** The relation *)
Record trades (a a' : Account F) : Prop := mkTrades {
  tr_history : history a' = history a;
  tr_log : transactions (ledger a) `prefix_of` transactions (ledger a');
  tr_notes : (length (annotations a) <= length (annotations a'))%nat;
}.

#[export] Instance trades_preorder : PreOrder trades.
Proof.
  split; [by intros a|]. intros a1 a2 a3 [H1 L1 N1] [H2 L2 N2]. split; [congruence|by etrans|lia].
Qed.

Lemma trades_book x a : trades a (set_book x a).
Proof. done. Qed.
Lemma trades_batches x a : trades a (set_batches x a).
Proof. done. Qed.
Lemma trades_ledger L a : transactions (ledger a) `prefix_of` transactions L → trades a (set_ledger L a).
Proof. done. Qed.

(** ** The ledger appends to its log *)
Lemma Record_log txn L : transactions L `prefix_of` transactions (Record_ txn L).
Proof.
  destruct (isFiniteTransaction txn) eqn:E.
  - destruct (Record_core txn L E) as (_ & -> & _). by eexists.
  - unfold Record_. by rewrite E.
Qed.

Lemma ApplySplit_log ast date f L L' : ApplySplit ast date f L = Ok L' → transactions L `prefix_of` transactions L'.
Proof.
  unfold ApplySplit. destruct (feq _ _); [done|]. destruct (feq _ _); intros [= <-]; [done|]. by eexists.
Qed.

Lemma SyncTransactions_log txns L : transactions L `prefix_of` transactions (SyncTransactions txns L).1.
Proof.
  revert L. induction txns as [|bt txns IH]; intros L; [done|]. cbn [SyncTransactions]. unfold sync_one.
  destruct (decide _); [apply IH|]. destruct (decide _).
  - destruct (ApplySplit _ _ _ _) as [L'|] eqn:E; [|done].
    etrans; [by eapply ApplySplit_log|]. etrans; [|apply IH]. done.
  - etrans; [apply Record_log|apply IH].
Qed.

(** ** Fills *)
Definition moves s s' : Prop := trades (es_account s) (es_account s').
#[export] Instance moves_preorder : PreOrder moves.
Proof. split; [by intros s|]. intros s1 s2 s3 M1 M2. unfold moves in *. by etrans. Qed.

Lemma moves_book f s : moves s (on_book f s).
Proof. done. Qed.
Lemma moves_broker k s : moves s (put_broker k s).
Proof. done. Qed.
Lemma moves_batch (ob : option (Batch F)) id s : moves s (put_batch ob id s).
Proof. done. Qed.

Lemma fold_moves {X} (f : ExecState B F → X → ExecState B F) l s :
  (∀ s x, moves s (f s x)) → moves s (fold_left f l s).
Proof. intros Hf. revert s. induction l as [|x l IH]; intros s; cbn; [done|]. etrans; [apply Hf|apply IH]. Qed.

Lemma submit_moves order s : moves s (submit order s).1.
Proof. unfold submit. by destruct (bk_Submit _ _ _). Qed.
Lemma cancel_moves id s : moves s (cancel id s).1.
Proof. unfold cancel. by destruct (bk_Cancel _ _). Qed.

Lemma cancel_sibling_moves s id : moves s (cancel_sibling s id).
Proof. unfold cancel_sibling. destruct has_groups; [done|]. etrans; [apply (cancel_moves id)|done]. Qed.

Lemma cancelOCOSiblings_moves gid fid s : moves s (cancelOCOSiblings gid fid s).
Proof.
  unfold cancelOCOSiblings. destruct (_ !! _); [|done]. etrans; [|apply moves_book].
  apply fold_moves. intros. apply cancel_sibling_moves.
Qed.

Lemma submitBracketExits_moves s info : moves s (submitBracketExits s info).
Proof.
  unfold submitBracketExits. cbv zeta. etrans; [|apply moves_book].
  match goal with |- context [fold_left submit_quiet ?l ?x] => set (s1 := x) end.
  assert (Hs : moves s s1) by done. etrans; [exact Hs|]. clearbody s1.
  destruct bk_SubmitGroup; [done|]. apply fold_moves. intros. apply submit_moves.
Qed.

Lemma record_outcome_moves order fill s : moves s (record_outcome order fill s).
Proof. unfold record_outcome. destruct (es_batch s); [|done]. by destruct (_ =? _)%Z. Qed.
Lemma settle_order_moves order fill s : moves s (settle_order order fill s).
Proof. unfold settle_order. by destruct (flt _ _). Qed.
Lemma settle_group_moves order fill s : moves s (settle_group order fill s).1.
Proof.
  unfold settle_group. destruct (decide _); [done|].
  destruct (o_GroupRole order); try done; cbn; try apply cancelOCOSiblings_moves. by destruct (_ !! o_GroupID order).
Qed.

Lemma handle_fill_moves fill s : moves s (handle_fill fill s).1.
Proof.
  unfold handle_fill. destruct (_ !! _) as [order|]; [|done]. destruct (f_Err fill); cbn [fst].
  - etrans; [apply record_outcome_moves|apply moves_book].
  - etrans; [apply record_outcome_moves|]. etrans; [|apply settle_group_moves]. etrans; [|apply settle_order_moves].
    apply trades_ledger, Record_log.
Qed.

Lemma drain_loop_moves fuel s exits : moves s (drain_loop fuel s exits).1.
Proof.
  revert s exits. induction fuel as [|fuel IH]; intros s exits; [done|]. cbn [drain_loop].
  destruct (bk_recv _) as [[fill k]|]; [|done].
  pose proof (handle_fill_moves fill (put_broker k s)) as Hh. destruct (handle_fill _ _) as [s' new]. cbn [fst] in Hh.
  etrans; [|apply IH]. exact Hh.
Qed.

Lemma drainFills_moves s : moves s (drainFills s).
Proof.
  unfold drainFills. pose proof (drain_loop_moves (length (bk_queue (F := F) (es_broker s))) s []) as Hd.
  destruct (drain_loop _ _ _) as [s' exits]. etrans; [exact Hd|]. apply fold_moves. intros. apply submitBracketExits_moves.
Qed.

(** ** Batches *)
Lemma submit_all_moves os s : moves s (submit_all os s).1.
Proof.
  revert s. induction os as [|o os IH]; intros s; [done|]. cbn [submit_all].
  pose proof (submit_moves o s) as Hm. destruct (submit o s) as [s' [e|]]; [done|]. etrans; [exact Hm|apply IH].
Qed.

Lemma submit_group_moves all news spec s : moves s (submit_group all news spec s).1.
Proof.
  unfold submit_group. destruct (gs_Type spec).
  - destruct bk_SubmitGroup as [sg|].
    + destruct (sg _ _ _ _) as [k [e|]]; done.
    + pose proof (submit_all_moves (orders_of_group (gs_GroupID spec) news) s) as Hm.
      destruct (submit_all _ _) as [s' [e|]]; [done|]. etrans; [exact Hm|apply moves_book].
  - destruct (0 <=? gs_EntryIndex spec)%Z; [|done]. destruct (all !! _) as [entry|]; [|done].
    pose proof (submit_moves entry s) as Hm. destruct (submit entry s) as [s' [e|]]; [done|]. etrans; [exact Hm|apply moves_book].
Qed.

Lemma submit_groups_moves all news specs s : moves s (submit_groups all news specs s).1.
Proof.
  revert s. induction specs as [|spec specs IH]; intros s; [done|]. cbn [submit_groups].
  pose proof (submit_group_moves all news spec s) as Hm. destruct (submit_group _ _ _ _) as [s' [e|]]; [done|].
  etrans; [exact Hm|apply IH].
Qed.

Lemma submit_batch_moves b s : moves s (submit_batch b s).1.
Proof.
  unfold submit_batch. cbv zeta.
  match goal with |- context [submit_groups ?all ?news ?specs ?x] =>
    pose proof (submit_groups_moves all news specs x) as Hg; assert (Hx : moves s x) by done;
    destruct (submit_groups all news specs x) as [s1 [e|]]; [by etrans|]; assert (Hs : moves s s1) by (by etrans)
  end.
  match goal with |- context [submit_all ?os s1] =>
    pose proof (submit_all_moves os s1) as Ha; destruct (submit_all os s1) as [s2 [e|]]; [by etrans|]; assert (Hs2 : moves s s2) by (by etrans)
  end.
  etrans; [exact Hs2|]. cbn [fst]. etrans; [|apply drainFills_moves]. done.
Qed.

Lemma annotate_in_length l n : (length l <= length (annotate_in l n))%nat.
Proof. induction l as [|x l IH]; cbn; [lia|]. destruct (_ && _); cbn; lia. Qed.

Lemma Annotate_trades t key v id a : trades a (Annotate t key v id a).
Proof. split; [done|done|]. apply annotate_in_length. Qed.

Lemma annotate_all_trades b id a : trades a (annotate_all b id a).
Proof.
  unfold annotate_all. generalize (range (b_Annotations b)). intros l. revert a.
  induction l as [|x l IH]; intros a; [done|]. cbn [fold_left]. etrans; [apply Annotate_trades|apply IH].
Qed.

(** A middleware that only trades. *)
Definition trading_middleware (mw : Middleware F) : Prop := ∀ a b, trades a (mw a b).1.1.

Lemma run_middleware_trades mws a b : Forall trading_middleware mws → trades a (run_middleware mws a b).1.1.
Proof.
  intros Hm. revert a b. induction Hm as [|mw mws Hmw _ IH]; intros a b; [done|]. cbn [run_middleware].
  pose proof (Hmw a b) as Hab. destruct (mw a b) as [[a' b'] [e|]]; [done|]. etrans; [exact Hab|apply IH].
Qed.

Lemma ExecuteBatch_trades mws a k b : Forall trading_middleware mws → trades a (ExecuteBatch mws a k b).1.1.1.
Proof.
  intros Hm. unfold ExecuteBatch. cbv zeta.
  set (a0 := if (b_batchID b =? 0)%Z then _ else a). assert (H0 : trades a a0) by (unfold a0; by destruct (_ =? _)%Z).
  set (b0 := set_batchID _ b). set (first := (b_executed b0 =? 0)%nat). clearbody a0 b0.
  destruct (first && negb (b_SkipMiddleware b0)).
  - pose proof (run_middleware_trades mws a0 b0 Hm) as H1. destruct (run_middleware mws a0 b0) as [[a1 b1] [e|]]; [by etrans|].
    cbn [fst] in H1. assert (Ha : trades a (if first then annotate_all b1 (if (b_batchID b =? 0)%Z then Z.of_nat (length (batches a) + 1) else b_batchID b) a1 else a1)).
    { etrans; [exact H0|]. etrans; [exact H1|]. destruct first; [apply annotate_all_trades|done]. }
    match goal with |- context [submit_batch b1 ?x] => pose proof (submit_batch_moves b1 x) as Hs; destruct (submit_batch b1 x) as [s e] end.
    etrans; [exact Ha|exact Hs].
  - assert (Ha : trades a (if first then annotate_all b0 (if (b_batchID b =? 0)%Z then Z.of_nat (length (batches a) + 1) else b_batchID b) a0 else a0)).
    { etrans; [exact H0|]. destruct first; [apply annotate_all_trades|done]. }
    match goal with |- context [submit_batch b0 ?x] => pose proof (submit_batch_moves b0 x) as Hs; destruct (submit_batch b0 x) as [s e] end.
    etrans; [exact Ha|exact Hs].
Qed.

(** ** Cancelling, margin calls and reconciliation *)
Lemma CancelOpenOrders_moves s : moves s (CancelOpenOrders s).
Proof.
  unfold CancelOpenOrders. set (f := fold_left _ _ _). assert (Hf : moves s f.1).
  { unfold f. generalize (mkBook ∅ ∅ ∅ : OrderBook F). generalize (range (pendingOrders (book (es_account s)))). intros l.
    revert s f. induction l as [|[id o] l IH]; intros s _ kept; [done|]. cbn [fold_left].
    assert (Hst : moves s (cancel_step (s, kept) (id, o)).1).
    { unfold cancel_step. destruct (is_exit_leg o); [|apply cancel_moves]. destruct (decide _); [done|]. by destruct (_ !! _). }
    destruct (cancel_step (s, kept) (id, o)) as [s' kept']. etrans; [exact Hst|]. by apply IH. }
  destruct f as [s' kept]. etrans; [exact Hf|apply moves_book].
Qed.

Lemma autoLiquidate_trades mws date a k : Forall trading_middleware mws → trades a (autoLiquidate mws date a k).1.1.
Proof.
  intros Hm. unfold autoLiquidate. destruct (feq _ _); [done|]. destruct (fle _ _); [done|].
  destruct (unwind_orders a) as [|o os]; [done|]. 
  match goal with |- context [ExecuteBatch mws a k ?b] => pose proof (ExecuteBatch_trades mws a k b Hm) as He; destruct (ExecuteBatch mws a k b) as [[[a' k'] b'] e] end.
  exact He.
Qed.

Lemma checkAndHandleMarginCall_trades h mws date a k :
  Forall trading_middleware mws → trades a (checkAndHandleMarginCall h mws date a k).1.1.
Proof.
  intros Hm. unfold checkAndHandleMarginCall. destruct (feq _ _); [done|]. destruct h as [h|]; [|by apply autoLiquidate_trades].
  destruct (h a _) as [b|]; [|done].
  pose proof (ExecuteBatch_trades mws a k b Hm) as He. destruct (ExecuteBatch mws a k b) as [[[a' k'] b'] [e|]]; [done|].
  cbn [fst] in He. destruct (feq _ _); [done|]. etrans; [exact He|by apply autoLiquidate_trades].
Qed.

Lemma reconcileBatch_trades r prefetch mws a k b :
  Forall trading_middleware mws → trades a (reconcileBatch r prefetch mws a k b).1.1.1.
Proof.
  intros Hm. unfold reconcileBatch. destruct r as [r|]; [|done]. generalize maxReconcilePasses. intros n.
  revert a k b. induction n as [|n IH]; intros a k b; [done|]. cbn [reconcile_loop].
  destruct (r a b) as [b'|]; [|done]. destruct (_ =? _)%nat; [done|]. destruct (prefetch _); [done|].
  pose proof (ExecuteBatch_trades mws a k b' Hm) as He. destruct (ExecuteBatch mws a k b') as [[[a' k'] b''] [e|]]; [done|].
  etrans; [exact He|apply IH].
Qed.
End Facts.
#[export] Hint Resolve trades_book trades_batches moves_book moves_broker moves_batch : core.
