(* ===== verification/BacktestProps.v ===== *)
(** * BacktestProps: what a run shows its strategies and records

    The calls a run makes to its strategies, in order and with the clock each
    of them reads; the equity curve and the transaction log of the parent and
    of every child; and the isolation of the prediction at the end. *)
From Stdlib Require Import ZArith Lia.
From stdpp Require Import base list gmap strings pretty.
From S2P Require Import Prelude Num GoTime Asset Period Frame Metrics FrameOps Schedule Provider DataCache Fetch.
From S2P Require Import Broker Lots Ledger Account Batch Exec SimBroker MarginCall Engine Backtest AccountProps StatsProps TradeFacts.

(** ** The monad of a step *)
Lemma run_bind_ok {A B} (m : Run A) (k : A → Run B) b :
  run_bind m k = Some (Ok b) → ∃ a, m = Some (Ok a) ∧ k a = Some (Ok b).
Proof. destruct m as [[a|]|]; [by exists a|done|done]. Qed.

Lemma run_in_ok {A} label (m : Run A) a : run_in label m = Some (Ok a) → m = Some (Ok a).
Proof. unfold run_in, wrapped. by destruct m as [[]|]. Qed.

Ltac run_inv Hrun :=
  lazymatch type of Hrun with
  | run_bind _ _ = Some (Ok _) =>
      let x := fresh "x" in let Hx := fresh "Hx" in
      apply run_bind_ok in Hrun as (x & Hx & Hrun); try apply run_in_ok in Hx
  end.

Section Clock.
Context {F : Type} `{Num F} `{NumPow F} {tz : TZDB} {fx : FmtFloat F} {go : GoMapOrder} {srt : GoSort} {sched : GoSched}.
Context (fuel : nat).
Implicit Types (e : Engine F) (a : Account F) (k : SimulatedBroker F).

(** ** Fetching leaves the clock alone *)
Record same_clock e e' : Prop := mkSameClock {
  sc_date : currentDate e' = currentDate e;
  sc_time : currentTime e' = currentTime e;
  sc_predicting : predicting e' = predicting e;
}.
#[export] Instance same_clock_preorder : PreOrder same_clock.
Proof. split; [by intros e|]. intros e1 e2 e3 [] []. split; congruence. Qed.

Lemma FetchAt_clock e assets t metrics e' r : engine_FetchAt fuel e assets t metrics = Some (e', r) → same_clock e e'.
Proof.
  unfold engine_FetchAt. destruct (_ && _); [by intros [= <- _]|].
  destruct (fetchRange _ _ _ _ _ _) as [[c r']|]; [|done]. cbn [mbind option_bind].
  destruct (finish _ _ _ _ _ _); [|done]. by intros [= <- _].
Qed.

Lemma Prices_clock e assets e' r : engine_Prices fuel e assets = Some (e', r) → same_clock e e'.
Proof.
  unfold engine_Prices. destruct (isIntradayFiring e).
  - intros [= E]. unfold nextMinuteBar in E. destruct (findIntradayProvider e) as [fetch|]; [|by injection E as <- _].
    assert (Hw : ∀ m s t, same_clock e (intradayFillWindow e fetch assets m s t).1).
    { intros m s t. unfold intradayFillWindow. destruct (intradayFill e) as [fc|].
      - destruct (Equal _ _); [destruct (covers _ _); [done|]|]; by destruct (fetch _ _ _ _ _).
      - by destruct (fetch _ _ _ _ _). }
    match type of E with context [intradayFillWindow e fetch assets ?m ?s ?t] =>
      specialize (Hw m s t); destruct (intradayFillWindow e fetch assets m s t) as [e1 [w|]] end.
    + destruct (earliest_bar _ _); by injection E as <- _.
    + by injection E as <- _.
  - destruct (engine_FetchAt _ _ _ _ _) as [[e1 r1]|] eqn:E; [|done]. intros [= <- _]. by eapply FetchAt_clock.
Qed.

Lemma run_FetchAt_clock e assets t metrics e' df : run_FetchAt fuel e assets t metrics = Some (Ok (e', df)) → same_clock e e'.
Proof.
  unfold run_FetchAt. destruct (engine_FetchAt _ _ _ _ _) as [[e1 [df1|]]|] eqn:E; [|done|done].
  intros [= <- <-]. by eapply FetchAt_clock.
Qed.

Lemma prefetchBrokerPrices_clock e orders e' : prefetchBrokerPrices fuel e orders = Some (Ok e') → same_clock e e'.
Proof.
  unfold prefetchBrokerPrices. destruct orders; [by intros [= <-]|].
  destruct (engine_Prices _ _ _) as [[e1 [df|[|err]]]|] eqn:E; intros [= <-]; by eapply Prices_clock.
Qed.

Lemma prefetchHousekeepingPrices_clock e a d b e' :
  prefetchHousekeepingPrices fuel e a d b = Some (Ok e') → same_clock e e'.
Proof.
  unfold prefetchHousekeepingPrices. destruct (with_benchmark _ _); [by intros [= <-]|].
  intros E. run_inv E. destruct x as [e1 df]. injection E as <-. by eapply run_FetchAt_clock.
Qed.

Lemma setMarginPrices_keeps e a d e' a' :
  setMarginPrices fuel e a d = Some (Ok (e', a')) → same_clock e e' ∧ trades a a'.
Proof.
  unfold setMarginPrices. destruct (held_assets a); [by intros [= <- <-]|].
  intros E. run_inv E. destruct x as [e1 df]. injection E as <- <-. split; [by eapply run_FetchAt_clock|done].
Qed.

Lemma markIntradayPrices_trades e a a' : markIntradayPrices e a = Ok a' → trades a a'.
Proof.
  unfold markIntradayPrices. destruct (isIntradayFiring e); [|by intros [= <-]]. cbn [negb].
  destruct (held_assets a); [by intros [= <-]|]. destruct (wrapped _ _); [|done]. by intros [= <-].
Qed.

Lemma housekeepAccount_trades a k a' k' : housekeepAccount a k = Ok (a', k') → trades a a'.
Proof.
  unfold housekeepAccount, DrainFills. set (s := drainFills _). assert (Hs : trades a (es_account s)) by apply (drainFills_moves (mkExec a k None 0%Z)).
  clearbody s. destruct (Transactions _ _) as [k1 [txns|]]; [|done].
  pose proof (SyncTransactions_log txns (ledger (es_account s))) as Hl.
  destruct (SyncTransactions txns (ledger (es_account s))) as [L [err|]]; intros [= <- <-].
  etrans; [exact Hs|]. by apply trades_ledger.
Qed.

(** ** The frame of one instant *)
Lemma NewDataFrame_times times (assets : list Asset) metrics freq cols (df : DataFrame F) :
  NewDataFrame times assets metrics freq cols = Ok df → df_times df = times.
Proof.
  unfold NewDataFrame. repeat case_match; intros E; try discriminate E; by injection E as <-.
Qed.

Lemma attach_times what e df df' : attach_risk_free what e df = Ok df' → df_times df' = df_times df.
Proof.
  unfold attach_risk_free. destruct (_ && _); [|by intros [= <-]]. destruct (sliceRiskFree _ _) as [rates|]; [|by intros [= <-]].
  unfold SetRiskFreeRates. destruct (negb _); [done|]. by intros [= <-].
Qed.

Lemma FetchAt_one_row e assets t metrics e' df :
  predicting e = false → currentTime e = currentDate e →
  run_FetchAt fuel e assets t metrics = Some (Ok (e', df)) → df_times df = [] ∨ df_times df = [t].
Proof.
  intros Hp Hc. unfold run_FetchAt, engine_FetchAt. rewrite Hp. cbn [negb andb].
  destruct (_ && _); [done|]. set (e1 := set_cache _ e).
  assert (Ecap : capDailyRangeEnd e1 t = t).
  { unfold capDailyRangeEnd, isIntradayFiring, e1. cbn [set_cache currentTime currentDate]. rewrite Hc.
    unfold Equal. rewrite Z.eqb_refl. by destruct (IsZero _). }
  rewrite Ecap. unfold fetchRange. destruct (chunkYears t t) as [years|]; [|done]. cbn [mbind option_bind].
  destruct (fetch_chunks _ _ _) as [c [err|]]; [done|]. unfold Equal at 1. rewrite Z.eqb_refl.
  unfold assemblePointInTime. destruct (chunkYears t t) as [years'|]; [|done]. cbn [mbind option_bind].
  match goal with |- context [if ?b then NewDataFrame [] _ _ _ _ else NewDataFrame [t] ?x1 ?x2 ?x3 ?x4] =>
    set (r := if b then NewDataFrame [] assets metrics Daily [] else NewDataFrame [t] x1 x2 x3 x4);
    assert (Hr : ∀ df, r = Ok df → df_times df = [] ∨ df_times df = [t]);
    [unfold r; destruct b; intros ? E; [left|right]; by eapply NewDataFrame_times|]; clearbody r
  end.
  destruct r as [df1|]; [|done]. unfold finish, predict_fill. change (predicting (set_cache _ e1)) with (predicting e). rewrite Hp.
  cbn [andb mbind option_bind].
  destruct (attach_risk_free _ _ df1) as [df2|] eqn:Ea; [|done]. intros [= _ <-].
  rewrite (attach_times _ _ _ _ Ea). by apply Hr.
Qed.
End Clock.

(** ** The record an account keeps of a run *)
Section Record.
Context {F : Type} `{Num F} `{NumPow F} {tz : TZDB} {fx : FmtFloat F} {go : GoMapOrder} {srt : GoSort} {sched : GoSched}.
Implicit Types (a : Account F) (df : DataFrame F) (ds : list Time).

(** The dates of the equity curve. *)
Definition curve a : list Time := match perfData (history a) with Some perf => df_times perf | None => [] end.

(** The curve gains rows at some of the dates, in order; the log of
    transactions only grows. *)
Definition grows ds a a' : Prop :=
  (∃ rows, rows `sublist_of` ds ∧ curve a' = curve a ++ rows) ∧
  transactions (ledger a) `prefix_of` transactions (ledger a').

Lemma grows_trades a a' : trades a a' → grows [] a a'.
Proof. intros [Hh Hl _]. split; [|done]. exists []. split; [done|]. unfold curve. by rewrite Hh, app_nil_r. Qed.

Lemma grows_refl a : grows [] a a.
Proof. by apply grows_trades. Qed.

Lemma grows_trans ds ds' a1 a2 a3 : grows ds a1 a2 → grows ds' a2 a3 → grows (ds ++ ds') a1 a3.
Proof.
  intros [(r1 & S1 & C1) L1] [(r2 & S2 & C2) L2]. split; [|by etrans].
  exists (r1 ++ r2). split; [by apply sublist_app|]. by rewrite C2, C1, app_assoc.
Qed.

Lemma grows_weaken ds ds' a a' : ds `sublist_of` ds' → grows ds a a' → grows ds' a a'.
Proof. intros Hs [(r & S & C) L]. split; [|done]. exists r. split; [by etrans|done]. Qed.

Lemma append_perf_times df row h perf :
  append_perf df row h = Ok perf →
  df_times perf = match perfData h with Some p => df_times p | None => [] end ++ [End df].
Proof.
  unfold append_perf. destruct (perfData h) as [p|]; [|by apply NewDataFrame_times].
  unfold AppendRow. destruct (df_err p); [done|]. destruct (negb _); [done|]. destruct (_ && _); [done|]. by intros [= <-].
Qed.

(** A mark adds a row at the frame's end, or none. *)
Lemma UpdatePrices_curve df a :
  curve (UpdatePrices df a) = curve a ∨ df_times df ≠ [] ∧ curve (UpdatePrices df a) = curve a ++ [End df].
Proof.
  unfold UpdatePrices. destruct (Nat.eqb_spec (Len df) 0) as [|Hne]; [by left|].
  assert (Hdf : df_times df ≠ []) by (intros E; apply Hne; unfold Len; by rewrite E).
  destruct (mark_holdings _ _) as [total steps]. change (history (set_prices _ a)) with (history a).
  destruct (append_perf df _ (history a)) as [perf|err] eqn:E; [|by left]. right. split; [done|].
  apply append_perf_times in E. unfold curve at 2. rewrite <-E. unfold curve. cbn [set_history history].
  match goal with |- match perfData ?h with _ => _ end = _ => assert (Hp : perfData h = Some perf) end; [|by rewrite Hp].
  unfold appendPositionRow at 1. cbn [set_position_rows perfData].
  rewrite fold_append_perf; [rewrite fold_append_perf; [done|done]|].
  intros h [ast x]. unfold close_row. repeat case_match; done.
Qed.

Lemma mark_day_grows df d a : df_times df = [] ∨ df_times df = [d] → grows [d] a (mark_day df a).
Proof.
  intros Hd. unfold mark_day. split.
  - change (curve (UpdateExcursions df (UpdatePrices df a))) with (curve (UpdatePrices df a)).
    destruct (UpdatePrices_curve df a) as [->|[Hne ->]]; [exists []; split; [apply sublist_nil_l|by rewrite app_nil_r]|].
    destruct Hd as [|Hd]; [done|]. exists [d]. split; [done|]. unfold End. by rewrite Hd.
  - unfold UpdateExcursions. cbn [ledger set_ledger with_excursions transactions]. by rewrite UpdatePrices_ledger.
Qed.

Context (fuel : nat).
Implicit Types (e : Engine F).

Lemma updateAccountPrices_grows e rf r a d b e' r' a' :
  predicting e = false → currentTime e = currentDate e →
  updateAccountPrices fuel e rf r a d b = Some (Ok (e', r', a')) → same_clock e e' ∧ grows [d] a a'.
Proof.
  intros Hp Hc. unfold updateAccountPrices.
  set (m := if _ : bool then advance_risk_free _ _ _ _ _ else _).
  assert (Hm : ∀ e1 r1, m = Some (e1, r1) → same_clock e e1).
  { unfold m. destruct (_ && _); [|by intros ? ? [= <- _]]. unfold advance_risk_free.
    destruct (engine_FetchAt _ _ _ _ _) as [[e0 [df|]]|] eqn:E; cbv zeta; intros ? ? [= <- _]; by eapply FetchAt_clock. }
  destruct m as [[e1 r1]|]; [|done]. specialize (Hm _ _ eq_refl).
  assert (Hset : grows [] a (SetRiskFreeValue r1 a)).
  { split; [|done]. exists []. split; [done|]. by rewrite app_nil_r. }
  destruct (with_benchmark b (held_assets a)) as [|x xs].
  - intros E. run_inv E. injection E as <- <- <-. split; [done|]. apply (inj Some) in Hx.
    apply (grows_trans [] [d] _ _ _ Hset), mark_day_grows. right. by eapply NewDataFrame_times.
  - intros E. run_inv E. destruct x0 as [e2 df]. injection E as <- <- <-.
    split; [etrans; [exact Hm|by eapply run_FetchAt_clock]|].
    apply (grows_trans [] [d] _ _ _ Hset), mark_day_grows. eapply FetchAt_one_row; [| |exact Hx].
    + by rewrite (sc_predicting _ _ Hm).
    + by rewrite (sc_time _ _ Hm), (sc_date _ _ Hm).
Qed.
End Record.

(** ** A run *)

(** A call of [Compute]: whose, the engine's date and time, the timestamp of
    the batch. *)
Record Call : Type := mkCall { ca_name : string; ca_date : Time; ca_time : Time; ca_batch : Time }.

Section Runs.
Context {F : Type} `{Num F} `{NumPow F} {tz : TZDB} {fx : FmtFloat F} {go : GoMapOrder} {srt : GoSort} {sched : GoSched}.
Context {S : Type} (fuel : nat).
(* the calls the strategies' memory tells *)
Context (calls : S → list Call).
Implicit Types (e : Engine F) (a : Account F) (k : SimulatedBroker F) (b : Batch F).
Implicit Types (st : Strategy F S) (f : Firing F S) (w : World F S) (c : childEntry F S) (cfg : Config F S).

(** A strategy that remembers its calls, fetches data, and changes the account
    at most through the interface. *)
Record observed st : Prop := mkObserved {
  ob_calls : ∀ m e vs a b,
    calls (co_mem (st_Compute st m e vs a b)) = calls m ++ [mkCall (st_Name st) (currentDate e) (currentTime e) (b_Timestamp b)];
  ob_clock : ∀ m e vs a b, same_clock e (co_engine (st_Compute st m e vs a b));
  ob_account : ∀ m e vs a b, trades a (co_account (st_Compute st m e vs a b));
}.

(** What one call of a strategy at [t] on day [d] makes of the state. *)
Record called (name : string) (d : Time) (ts : list Time) f f' : Prop := mkCalled {
  cd_calls : calls (fi_mem f') = calls (fi_mem f) ++ ((λ t, mkCall name d t t) <$> ts);
  cd_date : currentDate (fi_engine f') = d;
  cd_predicting : predicting (fi_engine f') = predicting (fi_engine f);
  cd_account : trades (fi_account f) (fi_account f');
}.

Lemma called_trans name d ts ts' f1 f2 f3 :
  called name d ts f1 f2 → called name d ts' f2 f3 → called name d (ts ++ ts') f1 f3.
Proof.
  intros [C1 _ P1 A1] [C2 D2 P2 A2]. split; [|done|congruence|by etrans]. by rewrite C2, C1, fmap_app, app_assoc.
Qed.

Lemma fire_called who whose st mws pending children date t f f' :
  observed st → Forall trading_middleware mws →
  fire fuel who whose st mws pending children date t f = Some (Ok f') →
  called (st_Name st) (currentDate (fi_engine f)) [t] f f'.
Proof.
  intros Hob Hm. unfold fire. cbv zeta. set (e := set_clock _ t _). intros E. run_inv E.
  rename x into a1. injection Hx as Hx. apply markIntradayPrices_trades in Hx. revert E.
  set (k1 := if pending then _ else _). unfold CancelOpen.
  set (s := CancelOpenOrders _). assert (Hs : trades a1 (es_account s)) by apply (CancelOpenOrders_moves (mkExec a1 k1 None 0%Z)).
  clearbody s k1. set (c := st_Compute st _ e children _ _).
  pose proof (ob_calls _ Hob (fi_mem f) e children (es_account s) (NewBatch t)) as Hc. fold c in Hc.
  pose proof (ob_clock _ Hob (fi_mem f) e children (es_account s) (NewBatch t)) as Hk. fold c in Hk.
  pose proof (ob_account _ Hob (fi_mem f) e children (es_account s) (NewBatch t)) as Ha. fold c in Ha.
  clearbody c. destruct (co_err c); [done|]. intros E. run_inv E. apply prefetchBrokerPrices_clock in Hx0.
  rename x into e2. revert E.
  match goal with |- context [ExecuteBatch mws ?a ?k ?b] =>
    pose proof (ExecuteBatch_trades mws a k b Hm) as He; destruct (ExecuteBatch mws a k b) as [[[a2 k2] b2] [err|]]; [done|] end.
  match goal with |- context [reconcileBatch ?r ?p mws a2 k2 b2] =>
    pose proof (reconcileBatch_trades r p mws a2 k2 b2 Hm) as Hr; destruct (reconcileBatch r p mws a2 k2 b2) as [[[a3 k3] b3] [err|]]; [done|] end.
  intros [= <-]. cbn [fst] in *. pose proof (same_clock_preorder.(PreOrder_Transitive) _ _ _ Hk Hx0) as Hck.
  split; cbn [fi_mem fi_engine fi_account].
  - rewrite Hc. done.
  - apply (sc_date _ _ Hck).
  - apply (sc_predicting _ _ Hck).
  - etrans; [exact Hx|]. etrans; [exact Hs|]. etrans; [exact Ha|]. by etrans.
Qed.

Lemma fire_all_called who whose st mws pending children date ts f f' :
  observed st → Forall trading_middleware mws →
  fire_all fuel who whose st mws pending children date ts f = Some (Ok f') →
  called (st_Name st) (currentDate (fi_engine f)) ts f f'.
Proof.
  intros Hob Hm. revert f. induction ts as [|t ts IH]; intros f E; cbn [fire_all] in E.
  - injection E as <-. split; [by rewrite app_nil_r|done|done|done].
  - run_inv E. apply fire_called in Hx; [|done|done]. apply IH in E. rewrite (cd_date _ _ _ _ _ Hx) in E.
    by apply (called_trans _ _ [t] ts _ _ _ Hx).
Qed.

(** ** Worlds *)

(** A child and what became of it. *)
Definition child_grows ds c c' : Prop :=
  ch_name c' = ch_name c ∧ ch_strategy c' = ch_strategy c ∧ grows ds (ch_account c) (ch_account c').

(** From one world to a later one: the calls made, the dates at which the
    parent's curve and the curve of each child may have grown. *)
Record onward (made : list Call) (parent : list Time) (child : nat → list Time) w w' : Prop := mkOnward {
  on_calls : calls (w_mem w') = calls (w_mem w) ++ made;
  on_clock : same_clock (w_engine w) (w_engine w');
  on_parent : grows parent (w_account w) (w_account w');
  on_count : length (w_children w') = length (w_children w);
  on_children : ∀ i c, w_children w !! i = Some c → ∃ c', w_children w' !! i = Some c' ∧ child_grows (child i) c c';
}.

Definition no_child (i : nat) : list Time := [].

Lemma child_grows_refl c : child_grows [] c c.
Proof. split; [done|]. split; [done|apply grows_refl]. Qed.

Lemma onward_trans m m' p p' q q' w1 w2 w3 :
  onward m p q w1 w2 → onward m' p' q' w2 w3 → onward (m ++ m') (p ++ p') (λ i, q i ++ q' i) w1 w3.
Proof.
  intros [C1 K1 P1 N1 H1] [C2 K2 P2 N2 H2]. split; [by rewrite C2, C1, app_assoc|by etrans|by eapply grows_trans|congruence|].
  intros i c Hi. destruct (H1 i c Hi) as (c1 & Hi1 & En1 & Es1 & G1), (H2 i c1 Hi1) as (c2 & Hi2 & En2 & Es2 & G2).
  exists c2. split; [done|]. split; [congruence|]. split; [congruence|]. by eapply grows_trans.
Qed.

Lemma onward_still w w' : calls (w_mem w') = calls (w_mem w) → same_clock (w_engine w) (w_engine w') →
  ∀ p, grows p (w_account w) (w_account w') → w_children w' = w_children w → onward [] p no_child w w'.
Proof.
  intros Hc Hk p Hp Hch. split; [by rewrite app_nil_r|done|done|by rewrite Hch|].
  intros i c Hi. rewrite Hch. exists c. split; [done|apply child_grows_refl].
Qed.

Lemma onward_refl w : onward [] [] no_child w w.
Proof. apply onward_still; [done|done|apply grows_refl|done]. Qed.

Lemma onward_child made ds i c c' w e m rf rows n :
  w_children w !! i = Some c → child_grows ds c c' → same_clock (w_engine w) e → calls m = calls (w_mem w) ++ made →
  onward made [] (λ j, if decide (j = i) then ds else []) w
    (mkWorld m e (w_account w) (w_broker w) (<[i := c']> (w_children w)) rf rows n).
Proof.
  intros Hi Hg Hk Hc. split; cbn [w_mem w_engine w_account w_children]; [done|done|apply grows_refl|by rewrite length_insert|].
  intros j c0 Hj. destruct (decide (j = i)) as [->|Hne].
  - replace c0 with c by congruence. exists c'. split; [|done]. apply list_lookup_insert_eq. by eapply lookup_lt_Some.
  - exists c0. rewrite list_lookup_insert_ne by done. split; [done|apply child_grows_refl].
Qed.

(** The world of a day: the clock stands at the day's close. *)
Definition at_day (d : Time) w : Prop :=
  currentDate (w_engine w) = d ∧ currentTime (w_engine w) = d ∧ predicting (w_engine w) = false.

Lemma at_day_onward d made p q w w' : at_day d w → onward made p q w w' → at_day d w'.
Proof.
  intros (Hd & Ht & Hp) Ho. destruct (on_clock _ _ _ _ _ Ho) as [Cd Ct Cp]. split; [congruence|]. split; congruence.
Qed.

Lemma onward_weaken made p q q' w w' :
  (∀ i, q i `sublist_of` q' i) → onward made p q w w' → onward made p q' w w'.
Proof.
  intros Hq [C K P N Hc]. split; [done|done|done|done|]. intros i c Hi.
  destruct (Hc i c Hi) as (c' & Hi' & En & Es & G). exists c'. split; [done|]. split; [done|]. split; [done|]. exact (grows_weaken _ _ _ _ (Hq i) G).
Qed.

Lemma same_still w w' : same_clock (w_engine w) (w_engine w') → w_mem w' = w_mem w →
  trades (w_account w) (w_account w') → w_children w' = w_children w → onward [] [] no_child w w'.
Proof. intros Hk Hm Ht Hc. apply onward_still; [by rewrite Hm|done|by apply grows_trades|done]. Qed.

(** ** The calls of a step *)
Definition calls_of st (d : Time) (ts : list Time) : list Call := (λ t, mkCall (st_Name st) d t t) <$> ts.
Definition child_calls (children : list (childEntry F S)) (d : Time) (nf : string * list Time) : list Call :=
  match child_index children nf.1 ≫= (children !!.) with
  | Some c => calls_of (ch_strategy c) d nf.2
  | None => []
  end.
(** The children that fire, in the order [range] visits them, then the
    parent. *)
Definition step_calls cfg (children : list (childEntry F S)) (step : backtestStep) : list Call :=
  (nf ← range (childFirings step); child_calls children (date step) nf) ++
  calls_of (strategy cfg) (date step) (parentFirings step).

Lemma names_kept made p q w w' : onward made p q w w' → ch_name <$> w_children w' = ch_name <$> w_children w.
Proof.
  intros [_ _ _ Hn Hc]. apply list_eq. intros i. rewrite !list_lookup_fmap.
  destruct (w_children w !! i) as [c|] eqn:E.
  - destruct (Hc i c E) as (c' & -> & En & _). cbn. by rewrite En.
  - apply lookup_ge_None in E. rewrite <-Hn in E. apply lookup_ge_None in E. by rewrite E.
Qed.

Lemma child_calls_kept made p q w w' d nf : onward made p q w w' → child_calls (w_children w') d nf = child_calls (w_children w) d nf.
Proof.
  intros Ho. unfold child_calls, child_index. rewrite (names_kept _ _ _ _ _ Ho).
  destruct (index_of _ !! nf.1) as [i|]; [|done]. cbn [mbind option_bind]. destruct Ho as [_ _ _ Hn Hc].
  destruct (w_children w !! i) as [c|] eqn:E.
  - destruct (Hc i c E) as (c' & -> & _ & Es & _). by rewrite Es.
  - apply lookup_ge_None in E. rewrite <-Hn in E. apply lookup_ge_None in E. by rewrite E.
Qed.

Lemma strategies_kept (P : Strategy F S → Prop) made p q w w' :
  onward made p q w w' → (∀ c, c ∈ w_children w → P (ch_strategy c)) → ∀ c, c ∈ w_children w' → P (ch_strategy c).
Proof.
  intros [_ _ _ Hn Hc] HP c' (i & Hi)%list_elem_of_lookup_1.
  destruct (w_children w !! i) as [c|] eqn:E.
  - destruct (Hc i c E) as (c1 & Hi1 & _ & Es & _). replace c' with c1 by congruence. rewrite Es. apply HP. by eapply list_elem_of_lookup_2.
  - apply lookup_ge_None in E. rewrite <-Hn in E. apply lookup_lt_Some in Hi. lia.
Qed.

(** ** The parts of a step *)
Section Steps.
Context (cfg : Config F S).
Context (Hparent : observed (strategy cfg)) (Hmws : Forall trading_middleware (middleware cfg)).

Lemma open_day_onward d w w' : predicting (w_engine w) = false →
  open_day fuel cfg d w = Some (Ok w') → onward [] [] no_child (put_engine (set_clock d d (w_engine w)) w) w'.
Proof.
  intros Hp. unfold open_day. cbv zeta. set (e := set_clock d d _). intros E. run_inv E. apply prefetchHousekeepingPrices_clock in Hx.
  rename x into e1. run_inv E. destruct x as [a1 k1]. apply (inj Some) in Hx0. apply housekeepAccount_trades in Hx0.
  run_inv E. destruct x as [e2 a2]. apply setMarginPrices_keeps in Hx1 as [Hk2 Ht2]. revert E.
  match goal with |- context [checkAndHandleMarginCall ?h ?m d a2 ?k] =>
    pose proof (checkAndHandleMarginCall_trades h m d a2 k Hmws) as Hc; destruct (checkAndHandleMarginCall h m d a2 k) as [[a3 k3] [err|]]; [done|] end.
  intros [= <-]. apply same_still; cbn; [by etrans|done| |done]. etrans; [exact Hx0|]. by etrans.
Qed.

Lemma run_child_onward d w nf w' : at_day d w → (∀ c, c ∈ w_children w → observed (ch_strategy c)) →
  run_child fuel d w nf = Some (Ok w') → onward (child_calls (w_children w) d nf) [] no_child w w'.
Proof.
  intros (Hd & Ht & Hp) Hob. destruct nf as [name ts]. unfold run_child, child_calls. cbn [fst snd].
  destruct (child_index (w_children w) name) as [i|]; [|intros [= <-]; apply onward_refl]. cbn [mbind option_bind].
  destruct (w_children w !! i) as [c|] eqn:Ec; [|intros [= <-]; apply onward_refl]. intros E. run_inv E. injection E as <-.
  apply fire_all_called in Hx; [|apply Hob; by eapply list_elem_of_lookup_2|done]. cbn [fi_engine] in Hx. rewrite Hd in Hx.
  destruct Hx as [Hcalls Hdate Hpred Hacc]. cbn [fi_mem fi_engine fi_account] in *.
  eapply onward_weaken; [|apply (onward_child _ [] i c (set_child (fi_account x) (fi_broker x) c) w); [done| | |exact Hcalls]].
  - intros j. cbv beta. destruct (decide (j = i)); apply sublist_nil_l.
  - split; [done|]. split; [done|]. by apply grows_trades.
  - split; cbn; congruence.
Qed.

Lemma run_children_onward d fires w w' : at_day d w → (∀ c, c ∈ w_children w → observed (ch_strategy c)) →
  run_children fuel d fires w = Some (Ok w') → onward (fires ≫= child_calls (w_children w) d) [] no_child w w'.
Proof.
  revert w. induction fires as [|nf fires IH]; intros w Hw Hob E; cbn [run_children] in E; [injection E as <-; apply onward_refl|].
  run_inv E. apply run_child_onward in Hx; [|done|done]. rename x into w1. apply IH in E.
  - rewrite bind_cons. pose proof (onward_trans _ _ _ _ _ _ _ _ _ Hx E) as Ho.
    replace (fires ≫= child_calls (w_children w) d) with (fires ≫= child_calls (w_children w1) d); [exact Ho|].
    apply list_bind_ext; [|done]. intros y. by eapply child_calls_kept.
  - by eapply at_day_onward.
  - by eapply strategies_kept.
Qed.

Lemma run_parent_onward step w w' : at_day (date step) w →
  run_parent fuel cfg step w = Some (Ok w') → onward (calls_of (strategy cfg) (date step) (parentFirings step)) [] no_child w w'.
Proof.
  intros (Hd & Ht & Hp). unfold run_parent. destruct (parentFirings step) as [|t ts]; [intros [= <-]; apply onward_refl|].
  intros E. run_inv E. injection E as <-. apply fire_all_called in Hx; [|done|done]. cbn [fi_engine] in Hx. rewrite Hd in Hx.
  destruct Hx as [Hcalls Hdate Hpred Hacc]. cbn [fi_mem fi_engine fi_account] in *.
  split; cbn; [done|split; cbn; congruence|by apply grows_trades|done|].
  intros i c Hi. exists c. split; [done|apply child_grows_refl].
Qed.

Lemma mark_parent_onward d w w' : at_day d w → mark_parent fuel cfg d w = Some (Ok w') → onward [] [d] no_child w w'.
Proof.
  intros (Hd & Ht & Hp). unfold mark_parent. intros E. run_inv E. destruct x as [[e rf] a]. injection E as <-.
  apply updateAccountPrices_grows in Hx as [Hk Hg]; [|done|congruence]. by apply onward_still.
Qed.

Lemma close_child_onward d w i w' : at_day d w → close_child fuel cfg d w i = Some (Ok w') →
  onward [] [] (λ j, if decide (j = i) then [d] else []) w w'.
Proof.
  intros (Hd & Ht & Hp). unfold close_child. destruct (w_children w !! i) as [c|] eqn:Ec.
  2:{ intros [= <-]. eapply onward_weaken; [|apply onward_refl]. intros j. apply sublist_nil_l. }
  cbv zeta. intros E. run_inv E. apply prefetchHousekeepingPrices_clock in Hx. rename x into e1.
  run_inv E. destruct x as [a1 k1]. apply (inj Some) in Hx0. apply housekeepAccount_trades in Hx0.
  run_inv E. destruct x as [[e2 rf] a2]. injection E as <-.
  apply updateAccountPrices_grows in Hx1 as [Hk Hg]; [|by rewrite (sc_predicting _ _ Hx)|rewrite (sc_time _ _ Hx), (sc_date _ _ Hx); congruence].
  apply (onward_child [] [d] i c (set_child a2 k1 c) w); [done| |by etrans|by rewrite app_nil_r].
  split; [done|]. split; [done|]. apply (grows_trans [] [d] _ a1 _); [by apply grows_trades|done].
Qed.

Lemma close_children_onward d idxs w w' : at_day d w → close_children fuel cfg d idxs w = Some (Ok w') →
  onward [] [] (λ j, i ← idxs; if decide (j = i) then [d] else []) w w'.
Proof.
  revert w. induction idxs as [|i idxs IH]; intros w Hw E; cbn [close_children] in E; [injection E as <-; apply onward_refl|].
  run_inv E. apply close_child_onward in Hx; [|done]. apply IH in E; [|by eapply at_day_onward].
  exact (onward_trans _ _ _ _ _ _ _ _ _ Hx E).
Qed.

Lemma once_each (d : Time) (j : nat) (idxs : list nat) : NoDup idxs → (i ← idxs; if decide (j = i) then [d] else []) `sublist_of` [d].
Proof.
  induction 1 as [|i idxs Hi Hnd IH]; [apply sublist_nil_l|]. rewrite bind_cons. destruct (decide (j = i)) as [->|]; [|done].
  assert (E : (i0 ← idxs; if decide (i = i0) then [d] else []) = []); [|by rewrite E].
  clear -Hi. induction idxs as [|x idxs IH]; [done|]. apply not_elem_of_cons in Hi as [Hx Hi]. rewrite bind_cons, decide_False by done. by apply IH.
Qed.

Lemma close_day_onward step w : onward [] [] no_child w (close_day cfg step w).
Proof. unfold close_day. by destruct (parentFirings step); apply same_still. Qed.

Lemma run_step_onward step w w' : predicting (w_engine w) = false → (∀ c, c ∈ w_children w → observed (ch_strategy c)) →
  run_step fuel cfg w step = Some (Ok w') →
  onward (step_calls cfg (w_children w) step) [date step] (λ _, [date step])
    (put_engine (set_clock (date step) (date step) (w_engine w)) w) w'.
Proof.
  intros Hp Hob E. set (d := date step). set (w0 := put_engine _ w). assert (D0 : at_day d w0) by done.
  unfold run_step in E. run_inv E. apply open_day_onward in Hx as H1; [|done]. rename x into w1. fold d w0 in H1.
  pose proof (at_day_onward _ _ _ _ _ _ D0 H1) as D1.
  pose proof (strategies_kept observed _ _ _ _ _ H1 Hob) as Hob1.
  run_inv E. apply run_children_onward in Hx0 as H2; [|done|done]. rename x into w2. pose proof (at_day_onward _ _ _ _ _ _ D1 H2) as D2.
  run_inv E. apply run_parent_onward in Hx1 as H3; [|done]. rename x into w3. pose proof (at_day_onward _ _ _ _ _ _ D2 H3) as D3.
  run_inv E. apply mark_parent_onward in Hx2 as H4; [|done]. rename x into w4. pose proof (at_day_onward _ _ _ _ _ _ D3 H4) as D4.
  run_inv E. apply close_children_onward in Hx3 as H5; [|done]. rename x into w5. injection E as <-.
  pose proof (onward_trans _ _ _ _ _ _ _ _ _ H1 H2) as G. pose proof (onward_trans _ _ _ _ _ _ _ _ _ G H3) as G3.
  pose proof (onward_trans _ _ _ _ _ _ _ _ _ G3 H4) as G4. pose proof (onward_trans _ _ _ _ _ _ _ _ _ G4 H5) as G5.
  pose proof (onward_trans _ _ _ _ _ _ _ _ _ G5 (close_day_onward step w5)) as G6. cbn [app] in G6. rewrite !app_nil_r in G6.
  assert (Ecalls : step_calls cfg (w_children w) step =
    (range (childFirings step) ≫= child_calls (w_children w1) d) ++ calls_of (strategy cfg) d (parentFirings step)).
  { unfold step_calls. f_equal. apply list_bind_ext; [|done]. intros nf. symmetry. exact (child_calls_kept _ _ _ _ _ d nf H1). }
  rewrite Ecalls. eapply onward_weaken; [|exact G6]. intros j. cbn. rewrite app_nil_r. apply once_each, NoDup_seq.
Qed.

Lemma run_steps_record steps w w' : predicting (w_engine w) = false → (∀ c, c ∈ w_children w → observed (ch_strategy c)) →
  run_steps fuel cfg steps w = Some (Ok w') →
  calls (w_mem w') = calls (w_mem w) ++ (steps ≫= step_calls cfg (w_children w)) ∧
  predicting (w_engine w') = false ∧
  grows (date <$> steps) (w_account w) (w_account w') ∧ length (w_children w') = length (w_children w) ∧
  ∀ i c, w_children w !! i = Some c → ∃ c', w_children w' !! i = Some c' ∧ child_grows (date <$> steps) c c'.
Proof.
  revert w. induction steps as [|step steps IH]; intros w Hp Hob E; cbn [run_steps] in E.
  - injection E as <-. rewrite app_nil_r. split; [done|]. split; [done|]. split; [apply grows_refl|]. split; [done|].
    intros i c Hi. exists c. split; [done|apply child_grows_refl].
  - run_inv E. apply run_step_onward in Hx as Ho; [|done|done]. rename x into w1. set (w0 := put_engine _ w) in Ho.
    pose proof (strategies_kept observed _ _ _ _ _ Ho Hob) as Hob1.
    apply IH in E as (C & P & G & N & Hc); [|rewrite (sc_predicting _ _ (on_clock _ _ _ _ _ Ho)); done|done].
    rewrite bind_cons, fmap_cons. split; [rewrite C, (on_calls _ _ _ _ _ Ho), app_assoc; f_equal|].
    { apply list_bind_ext; [|done]. intros s. unfold step_calls. f_equal. apply list_bind_ext; [|done]. intros nf. exact (child_calls_kept _ _ _ _ _ _ nf Ho). }
    split; [done|]. split; [exact (grows_trans [date step] _ _ _ _ (on_parent _ _ _ _ _ Ho) G)|]. split; [rewrite N; exact (on_count _ _ _ _ _ Ho)|].
    intros i c Hi. destruct (on_children _ _ _ _ _ Ho i c Hi) as (c1 & Hi1 & En1 & Es1 & G1), (Hc i c1 Hi1) as (c2 & Hi2 & En2 & Es2 & G2).
    exists c2. split; [done|]. split; [congruence|]. split; [congruence|]. exact (grows_trans [date step] _ _ _ _ G1 G2).
Qed.
End Steps.
End Runs.

(** ** The theorems *)
Section Theorems.
Context {F : Type} `{Num F} `{NumPow F} {tz : TZDB} {fx : FmtFloat F} {go : GoMapOrder} {srt : GoSort} {sched : GoSched}.
Context {S : Type} (fuel : nat) (calls : S → list Call).
Implicit Types (w : World F S) (c : childEntry F S) (cfg : Config F S).

(** Strategies that keep their memory of calls, fetch, and act on their own
    account through the interface, and middleware that does the same. *)
Record well_behaved cfg w : Prop := mkBehaved {
  wb_parent : observed calls (strategy cfg);
  wb_children : ∀ c, c ∈ w_children w → observed calls (ch_strategy c);
  wb_middleware : Forall trading_middleware (middleware cfg);
}.

(** C4. A run that succeeds calls each strategy once for each of its firings
    and never otherwise: step by step, in every step the children that fire
    before the parent, each strategy's firings in their order; at each call
    the engine's date is the close of the step's day, its time the firing,
    and the batch carries the firing as its timestamp. *)
Theorem run_calls_strategies_in_order cfg steps w w' :
  well_behaved cfg w → predicting (w_engine w) = false →
  run_steps fuel cfg steps w = Some (Ok w') →
  calls (w_mem w') = calls (w_mem w) ++ (steps ≫= step_calls cfg (w_children w)).
Proof.
  intros [Hp Hc Hm] Hpred E. by destruct (run_steps_record fuel calls cfg Hp Hm _ _ _ Hpred Hc E) as [Hcalls _].
Qed.

(** C5. Over a run that succeeds, the equity curve of the parent and of every
    child gains at most one row for each step, stamped with the step's
    date, in the order of the steps, whatever the strategies trade; their
    transaction logs only grow; no child appears, disappears or changes its
    name or strategy. *)
Theorem run_records_once_a_day cfg steps w w' :
  well_behaved cfg w → predicting (w_engine w) = false →
  run_steps fuel cfg steps w = Some (Ok w') →
  grows (date <$> steps) (w_account w) (w_account w') ∧ length (w_children w') = length (w_children w) ∧
  ∀ i c, w_children w !! i = Some c → ∃ c', w_children w' !! i = Some c' ∧ child_grows (date <$> steps) c c'.
Proof.
  intros [Hp Hc Hm] Hpred E. by destruct (run_steps_record fuel calls cfg Hp Hm _ _ _ Hpred Hc E) as (_ & _ & Hg).
Qed.

(** *** Prediction *)
Definition call_at (d : Time) (x : Call) : Prop := ca_date x = d ∧ ca_time x = d ∧ ca_batch x = d.

Implicit Types (sn : Scene F S) (r : childRef F S) (objs : list (Account F * SimulatedBroker F)).

(** The objects of a run read back as its world. *)
Lemma mapM_deref objs off (cs : list (childEntry F S)) :
  (∀ i c, cs !! i = Some c → objs !! (off + i)%nat = Some (ch_account c, ch_broker c)) →
  mapM (deref objs) (imap (λ i c, refer c (off + i)) cs) = Some cs.
Proof.
  revert off. induction cs as [|c cs IH]; intros off Hat; [done|]. cbn [imap mapM].
  assert (Hd : deref objs (refer c (off + 0)) = Some c).
  { unfold deref. cbn [refer rf_object]. rewrite (Hat 0%nat c eq_refl). by destruct c. }
  rewrite Hd. cbn [mbind option_bind].
  rewrite (imap_ext _ (λ i c, refer c (Datatypes.S off + i))) by (intros; cbn; by rewrite Nat.add_succ_r).
  rewrite IH by (intros i c' Hi; replace (Datatypes.S off + i)%nat with (off + Datatypes.S i)%nat by lia; by apply Hat). done.
Qed.

Lemma world_of_scene sn w :
  sn_account sn = 0%nat → sn_children sn = sn_children (scene_of w) →
  (∀ j, (j < length (sn_objects (scene_of w)))%nat → sn_objects sn !! j = sn_objects (scene_of w) !! j) →
  world_of sn w = Some (mkWorld (sn_mem sn) (sn_engine sn) (w_account w) (w_broker w) (w_children w) (w_riskFree w) (w_rows w) (w_measurements w)).
Proof.
  intros Ha Hc Ho. unfold world_of. rewrite Ha, Hc, Ho by (cbn; lia). cbn [scene_of sn_objects lookup list_lookup mbind option_bind].
  pose proof (mapM_deref (sn_objects sn) 1 (w_children w)) as Hm. cbn [Nat.add] in Hm. cbn [scene_of sn_children]. rewrite Hm; [done|].
  intros i c Hi. rewrite Ho.
  - change (((λ c0 : childEntry F S, (ch_account c0, ch_broker c0)) <$> w_children w) !! i = Some (ch_account c, ch_broker c)).
    by rewrite list_lookup_fmap, Hi.
  - apply lookup_lt_Some in Hi. cbn [scene_of sn_objects length]. rewrite length_fmap. lia.
Qed.

(** Clones are new objects. *)
Record cloned sn sn' : Prop := mkCloned {
  cl_mem : sn_mem sn' = sn_mem sn;
  cl_engine : sn_engine sn' = sn_engine sn;
  cl_account : sn_account sn' = sn_account sn;
  cl_children : sn_children sn' = sn_children sn;
  cl_objects : sn_objects sn `prefix_of` sn_objects sn';
}.
Lemma clone_object_spec i sn sn' (c : nat) : clone_object i sn = Some (sn', c) →
  cloned sn sn' ∧ c = length (sn_objects sn) ∧ ∃ ak, sn_objects sn !! i = Some ak ∧ sn_objects sn' !! c = Some (Clone ak.1, NewSimulatedBroker).
Proof.
  unfold clone_object. destruct (sn_objects sn !! i) as [ak|]; [|done]. intros [= <- <-]. split; [split; try done; by apply prefix_app_r|].
  split; [done|]. exists ak. split; [done|]. cbn. by rewrite lookup_app_r, Nat.sub_diag by done.
Qed.
Lemma clone_children_spec rs sn sn' clones : clone_children rs sn = Some (sn', clones) →
  cloned sn sn' ∧ ∀ r, r ∈ clones → (length (sn_objects sn) <= rf_object r)%nat ∧ ∃ r0, r0 ∈ rs ∧ rf_strategy r = rf_strategy r0.
Proof.
  revert sn sn' clones. induction rs as [|r0 rs IH]; intros sn sn' clones; cbn [clone_children].
  { intros [= <- <-]. split; [done|]. intros r Hr. by apply not_elem_of_nil in Hr. }
  destruct (clone_object _ _) as [[sn1 c]|] eqn:E; [|done]. apply clone_object_spec in E as ([M1 E1 A1 C1 O1] & -> & _).
  cbn [mbind option_bind]. destruct (clone_children rs sn1) as [[sn2 cs]|] eqn:E2; [|done]. intros [= <- <-].
  apply IH in E2 as ([M2 E2' A2 C2 O2] & Hcs). split; [split; congruence || by etrans|].
  intros r [->|Hin]%elem_of_cons; [split; [done|]; exists r0; split; [by left|done]|].
  destruct (Hcs r Hin) as (Hle & r1 & Hr1 & Es). pose proof (prefix_length _ _ O1). split; [lia|]. exists r1. split; [by right|done].
Qed.

(** What the strategies of a prediction leave: other memory, the engine at the
    predicted firing, and every object below [n] as it was. *)
Record predicted n made sn sn' : Prop := mkPredicted {
  pd_calls : calls (sn_mem sn') = calls (sn_mem sn) ++ made;
  pd_clock : same_clock (sn_engine sn) (sn_engine sn');
  pd_account : sn_account sn' = sn_account sn;
  pd_children : sn_children sn' = sn_children sn;
  pd_objects : ∀ j, (j < n)%nat → sn_objects sn' !! j = sn_objects sn !! j;
}.
Lemma predicted_refl n sn : predicted n [] sn sn.
Proof. split; [by rewrite app_nil_r|done..]. Qed.
Lemma predicted_trans n m1 m2 sn1 sn2 sn3 : predicted n m1 sn1 sn2 → predicted n m2 sn2 sn3 → predicted n (m1 ++ m2) sn1 sn3.
Proof.
  intros [C1 K1 A1 R1 O1] [C2 K2 A2 R2 O2]. split; [by rewrite C2, C1, app_assoc|by etrans|congruence|congruence|].
  intros j Hj. by rewrite O2, O1.
Qed.

Lemma predict_on_spec whose execute st mws d i n sn sn' :
  observed calls st → Forall trading_middleware mws → (n <= i)%nat →
  currentDate (sn_engine sn) = d → currentTime (sn_engine sn) = d →
  predict_on fuel whose execute st mws d i sn = Some (Ok sn') →
  predicted n [mkCall (st_Name st) d d d] sn sn' ∧
  ∃ ak ak', sn_objects sn !! i = Some ak ∧ sn_objects sn' !! i = Some ak' ∧ trades ak.1 ak'.1.
Proof.
  intros [Oc Ok Oa] Hm Hi Hd Ht. unfold predict_on. destruct (sn_objects sn !! i) as [[a k]|] eqn:Eo; [|done].
  destruct (mapM _ _) as [children|]; [|done]. cbv zeta.
  specialize (Oc (sn_mem sn) (sn_engine sn) (child_views children) a (NewBatch d)).
  specialize (Ok (sn_mem sn) (sn_engine sn) (child_views children) a (NewBatch d)).
  specialize (Oa (sn_mem sn) (sn_engine sn) (child_views children) a (NewBatch d)).
  set (c := st_Compute _ _ _ _ _ _) in *. destruct (co_err c); [done|].
  match goal with |- context [ExecuteBatch mws (co_account c) ?k ?b] =>
    pose proof (ExecuteBatch_trades mws (co_account c) k b Hm) as He;
    destruct (ExecuteBatch mws (co_account c) k b) as [[[a' k'] b'] [err|]]; [done|] end.
  intros [= <-]. cbn [fst] in He. rewrite Hd, Ht in Oc. split; [split; try done|].
  - intros j Hj. cbn. apply list_lookup_insert_ne. lia.
  - exists (a, k), (a', k'). split; [done|]. split; [|by etrans]. cbn. apply list_lookup_insert_eq. by eapply lookup_lt_Some.
Qed.

Lemma predict_children_spec d n rs sn sn' :
  (∀ r, r ∈ rs → observed calls (rf_strategy r) ∧ (n <= rf_object r)%nat) →
  currentDate (sn_engine sn) = d → currentTime (sn_engine sn) = d →
  predict_children fuel d rs sn = Some (Ok sn') → ∃ made, Forall (call_at d) made ∧ predicted n made sn sn'.
Proof.
  revert sn. induction rs as [|r rs IH]; intros sn Hrs Hd Ht E; cbn [predict_children] in E.
  { injection E as <-. exists []. split; [done|apply predicted_refl]. }
  run_inv E. rename x into sn1. destruct (Hrs r (list_elem_of_here _ _)) as [Hob Hn].
  assert (∃ m1, Forall (call_at d) m1 ∧ predicted n m1 sn sn1) as (m1 & F1 & P1).
  { unfold predict_child in Hx. destruct (rf_schedule r) as [next|]; [|injection Hx as <-; exists []; split; [done|apply predicted_refl]].
    destruct (next _) as [u|]; [|done]. destruct (negb _); [injection Hx as <-; exists []; split; [done|apply predicted_refl]|].
    apply (predict_on_spec _ _ _ _ _ _ n) in Hx as [P _]; [|done|constructor|done|done|done].
    exists [mkCall (st_Name (rf_strategy r)) d d d]. split; [by repeat constructor|done]. }
  pose proof (pd_clock _ _ _ _ P1) as [Cd Ct _]. apply IH in E as (m2 & F2 & P2); [|intros; apply Hrs; by right|congruence|congruence].
  exists (m1 ++ m2). split; [by apply Forall_app|by eapply predicted_trans].
Qed.

(** C12. The prediction that closes a run computes the strategies as of the
    next firing of the parent's schedule, on clones, and lets nothing of it
    show: the objects the run's variables refer to, its account, its broker
    and the children's, are those of before, the children are put back, and so
    is the clock.  The predicted log extends the account's by the predicted
    transactions, so cutting it at the length of the account's log cannot
    fail. *)
Theorem prediction_is_isolated cfg w w' p :
  well_behaved cfg w → predicting (w_engine w) = false →
  recordPrediction fuel cfg w = Some (Ok (w', p)) →
  w_account w' = w_account w ∧ w_broker w' = w_broker w ∧ w_children w' = w_children w ∧ same_clock (w_engine w) (w_engine w') ∧
  schedule cfg (currentDate (w_engine w)) = Some (pr_Date p) ∧
  (∃ made, calls (w_mem w') = calls (w_mem w) ++ made ++ [mkCall (st_Name (strategy cfg)) (pr_Date p) (pr_Date p) (pr_Date p)] ∧
     Forall (call_at (pr_Date p)) made) ∧
  ∃ predicted, PredictedPortfolio fuel cfg w = Some (Ok (w', predicted)) ∧
    transactions (ledger predicted) = transactions (ledger (w_account w)) ++ pr_Transactions p ∧
    (length (annotations (w_account w)) + length (pr_Annotations p) = length (annotations predicted))%nat.
Proof.
  intros [Hp Hc Hm] Hpred. unfold recordPrediction. destruct (schedule cfg _) as [d|] eqn:Ed; [|done]. intros E.
  run_inv E. destruct x as [w1 pp]. injection E as <- <-. cbn [pr_Date pr_Transactions pr_Annotations].
  pose proof Hx as Hpp. unfold PredictedPortfolio in Hx. rewrite Ed in Hx.
  destruct (clone_object _ _) as [[sn0 clone]|] eqn:E0; [|done]. apply clone_object_spec in E0 as ([M0 N0 A0 C0 O0] & -> & ak & Ek & Ec).
  destruct (clone_children _ sn0) as [[sn1 clones]|] eqn:E1; [|done]. apply clone_children_spec in E1 as ([M1 N1 A1 C1 O1] & Hcl).
  cbv zeta in Hx. set (n := length (sn_objects (scene_of w))) in *. injection Ek as <-. cbn [fst] in Ec.
  assert (Hn0 : (n < length (sn_objects sn0))%nat) by (by eapply lookup_lt_Some).
  set (sn2 := sn_put_engine _ _) in Hx. run_inv Hx. rename x into sn3, Hx0 into Hch.
  apply (predict_children_spec d (Datatypes.S n)) in Hch as (made & Fm & [Cc [Kd Kt Kp] Ka Kr Ko]); [|intros r Hr|done|done].
  2:{ destruct (Hcl r Hr) as (Hle & r0 & Hr0 & ->). split; [|lia]. rewrite C0 in Hr0.
      cbn [scene_of sn_children] in Hr0. apply elem_of_lookup_imap in Hr0 as (i & c & -> & Hi). cbn. apply Hc. by eapply list_elem_of_lookup_2. }
  run_inv Hx. rename x into sn4, Hx0 into Hpar.
  apply (predict_on_spec _ _ _ _ _ _ n) in Hpar as [[Cp [Pd Pt Pp] Pa Pr Po] (a1 & a2 & Ea1 & Ea2 & Htr)]; [|done|done|done|cbn in *; congruence|cbn in *; congruence].
  (* what the references of the run show at the end *)
  assert (Hobjs : ∀ j, (j < n)%nat → sn_objects sn4 !! j = sn_objects (scene_of w) !! j).
  { intros j Hj. rewrite Po, Ko by lia. cbn [sn2 sn_put_engine sn_put_children sn_objects].
    rewrite <-(prefix_lookup_lt _ _ j) with (2 := O1) by lia. by rewrite <-(prefix_lookup_lt _ _ j) with (2 := O0). }
  rewrite (world_of_scene _ w) in Hx; [|cbn; cbn in *; congruence|cbn; cbn in *; congruence|exact Hobjs].
  cbn [sn_put_children sn_put_engine sn_objects sn_mem sn_engine] in Hx. rewrite Ea2 in Hx. injection Hx as <- <-.
  assert (Ea : a1 = (Clone (w_account w), NewSimulatedBroker)).
  { rewrite Ko in Ea1 by lia. cbn [sn2 sn_put_engine sn_put_children sn_objects] in Ea1.
    rewrite <-(prefix_lookup_lt _ _ n) with (2 := O1) in Ea1 by done. rewrite Ec in Ea1. by injection Ea1. }
  subst a1. destruct Htr as [_ [new Hlog] Hnotes]. cbn [fst] in Hlog, Hnotes.
  split_and!; [done|done|done| |done| |].
  - rewrite N1, N0. by split.
  - exists made. split; [|done]. cbn [w_mem]. rewrite Cp, Cc. cbn [sn2 sn_put_engine sn_put_children sn_mem]. by rewrite M1, M0, <-app_assoc.
  - exists a2.1. split; [exact Hpp|]. split; [by rewrite Hlog, drop_app_length|].
    change (annotations (Clone (w_account w))) with (annotations (w_account w)) in Hnotes. rewrite length_drop. lia.
Qed.
End Theorems.
