(* ===== verification/BacktestRuns.v ===== *)
(** * BacktestRuns: the week of Thanksgiving, run

    A parent and a child buy a share of SPY at every close of the week; the
    prices come from the test provider.  The theorems on runs are witnessed by
    this one. *)
From Stdlib Require Import ZArith Lia.
From stdpp Require Import base list gmap strings pretty.
From S2P Require Import Prelude Num GoTime Asset Period Frame Metrics FrameOps Calendar Schedule Provider DataCache Fetch.
From S2P Require Import Broker Lots Ledger Account Batch Exec SimBroker MarginCall Engine Backtest.
From S2P Require Import Samples Runs ScheduleProps PlanProps TradeFacts BacktestProps.

Local Existing Instance utc_db.
Local Existing Instance daily_cron.
Local Existing Instance blank_fmt.
Local Existing Instance canonical_order.
Local Existing Instance stable_sort_slice.
Local Existing Instance launch_order.

(** No yield is compounded in this run. *)
#[local] Instance no_power : NumPow xq := {| fpow := λ x _, x |}.

Definition close_on (n secs : Z) : Time := mkTime ((n * 86400 + secs) * ns_per_sec) nyc.
Definition week_metrics : list Metric := [MetricClose; AdjClose; MetricHigh; MetricLow; Volume; Dividend; SplitFactor].

(** SPY at 100, 101 and 102; no dividend, no split. *)
Definition week_frame : DataFrame xq :=
  build [close_on 20053 57600; close_on 20054 57600; close_on 20056 46800] [SPY] week_metrics Daily
    [[q 100; q 101; q 102]; [q 100; q 101; q 102]; [q 101; q 102; q 103]; [q 99; q 100; q 101];
     [q 1000; q 1000; q 1000]; [q 0; q 0; q 0]; [q 1; q 1; q 1]].

Definition week_engine : Engine xq :=
  match buildProviderRouting (mkEngine [NewTestProvider week_metrics week_frame] ∅ None 0 None zero_time zero_time false
    false (mkRiskFree [] [] ∅) "") with
  | Ok e => e
  | Err _ => mkEngine [] ∅ None 0 None zero_time zero_time false false (mkRiskFree [] [] ∅) ""
  end.

(** Buys a share at every call and remembers the call. *)
Definition saver (name : string) : Strategy xq (list Call) :=
  mkStrategy name (λ m e _ a b,
    mkComputed (m ++ [mkCall name (currentDate e) (currentTime e) (b_Timestamp b)]) e a (batch_Order SPY Buy (q 1) [] b) None) None None.

Definition week_config : Config xq (list Call) :=
  mkConfig (saver "parent") (Next 10 thanksgiving daily_close) (Next 10 thanksgiving daily_close) zero_asset zero_asset [] [] Ok.

Definition saver_child : childEntry xq (list Call) :=
  mkChild (saver "child") "core" (q 1) (Some (Next 10 thanksgiving daily_close)) (holding 1000 0 100) NewSimulatedBroker.

Definition week_world : World xq (list Call) :=
  mkWorld [] week_engine (holding 1000 0 100) NewSimulatedBroker [saver_child] (q 0) [] 0.

Definition week_steps : list backtestStep :=
  default [] (plan 10 week_config [saver_child] (mkTime (t_ns (day 330)) nyc) (mkTime (t_ns (day 334)) nyc)).

Definition closes_of_week : list Time := [close_on 20053 57600; close_on 20054 57600; close_on 20056 46800].

Definition succeeds {A} (m : Run A) : bool := match m with Some (Ok _) => true | _ => false end.
Lemma succeeds_with {A} (m : Run A) : succeeds m = true → ∃ x, m = Some (Ok x).
Proof. destruct m as [[x|]|]; [by exists x|done|done]. Qed.

Lemma week_runs : succeeds (run_steps 10 week_config week_steps week_world) = true.
Proof. vm_compute. reflexivity. Qed.

Lemma saver_observed name : observed id (saver name).
Proof. by split. Qed.

Lemma week_behaved : well_behaved id week_config week_world.
Proof.
  split; [apply saver_observed|intros c ->%list_elem_of_singleton; apply saver_observed|constructor].
Qed.

Lemma week_plan : plan 10 week_config [saver_child] (mkTime (t_ns (day 330)) nyc) (mkTime (t_ns (day 334)) nyc) = Some week_steps.
Proof.
  unfold week_steps. set (p := plan _ _ _ _ _). assert (Hp : bool_decide (is_Some p) = true) by (vm_compute; reflexivity).
  apply bool_decide_eq_true in Hp as [s ->]. done.
Qed.

(** Children and parent, at the close of each of the three days. *)
Lemma run_calls_strategies_in_order_witness :
  ∃ w', run_steps 10 week_config week_steps week_world = Some (Ok w') ∧
    w_mem w' = (d ← closes_of_week; [mkCall "child" d d d; mkCall "parent" d d d]).
Proof.
  destruct (succeeds_with _ week_runs) as (w' & E).
  exists w'. split; [done|].
  pose proof (run_calls_strategies_in_order 10 id week_config week_steps week_world w' week_behaved eq_refl E) as Hc.
  unfold id in Hc. rewrite Hc. vm_compute. reflexivity.
Defined.

Lemma run_records_once_a_day_witness :
  ∃ w', run_steps 10 week_config week_steps week_world = Some (Ok w') ∧
    grows closes_of_week (w_account week_world) (w_account w') ∧ length (w_children w') = 1%nat.
Proof.
  destruct (succeeds_with _ week_runs) as (w' & E).
  exists w'. split; [done|].
  destruct (run_records_once_a_day 10 id week_config week_steps week_world w' week_behaved eq_refl E) as (Hg & Hn & _).
  split; [|exact Hn]. assert (Ed : date <$> week_steps = closes_of_week) by (vm_compute; reflexivity). rewrite <-Ed. exact Hg.
Defined.

(** The world at the close of the 26th, before any trade. *)
Definition close_world : World xq (list Call) :=
  put_engine (set_clock (close_on 20053 57600) (close_on 20053 57600) week_engine) week_world.

Lemma close_behaved : well_behaved id week_config close_world.
Proof. split; [apply saver_observed|apply week_behaved|constructor]. Qed.

Lemma prediction_is_isolated_witness :
  ∃ w' p, recordPrediction 10 week_config close_world = Some (Ok (w', p)) ∧
    w_account w' = w_account close_world ∧ pr_Date p = close_on 20054 57600 ∧ length (pr_Transactions p) = 1%nat.
Proof.
  assert (Hok : succeeds (recordPrediction 10 week_config close_world) = true) by (vm_compute; reflexivity).
  destruct (succeeds_with _ Hok) as ([w' p] & E).
  destruct (prediction_is_isolated 10 id week_config close_world w' p) as (Ha & _ & _ & _ & Hd & _); [exact close_behaved|vm_compute; reflexivity|exact E|].
  exists w', p. split; [done|]. split; [exact Ha|]. split.
  - assert (En : schedule week_config (currentDate (w_engine close_world)) = Some (close_on 20054 57600)) by (vm_compute; reflexivity).
    rewrite En in Hd. by injection Hd.
  - assert (El : match recordPrediction 10 week_config close_world with Some (Ok (_, p)) => length (pr_Transactions p) | _ => 0%nat end = 1%nat)
      by (vm_compute; reflexivity). by rewrite E in El.
Defined.
