(* ===== verification/SetupProps.v ===== *)
(** * SetupProps: when a run may start and end

    The warm-up check accepts a start exactly when every asset has enough
    recorded closes before it; the end of a run is cut to a day whose prices
    can be there; restoring a snapshot gives the portfolio back. *)
From Stdlib Require Import ZArith Lia Sorted.
From stdpp Require Import base list gmap strings sorting pretty.
From S2P Require Import Prelude Num GoTime Asset Period Frame Metrics FrameOps Calendar Schedule Provider DataCache Fetch.
From S2P Require Import Broker Lots Ledger Account Batch Exec SimBroker MarginCall Engine Backtest Stats Setup.
From S2P Require Import Samples FrameProps LedgerFacts LedgerProps ScheduleProps StatsProps Sessions FetchFacts FetchChunks FetchProps ProviderProps PlanProps FetchRuns.
Local Open Scope Z_scope.
#[local] Opaque days_from_civil civil_from_days date_no year_chunk dateKey.

(** ** Walking back *)
Section Walk.
Context `{MarketZone}.
Implicit Types (from t ws : Time) (daily : NextFn) (fires : Time → Prop) (days : Z).

(** The instants of a schedule between two others, in order. *)
Definition firings_between fires start stop (l : list Time) : Prop :=
  in_time_order l ∧ ∀ t, t ∈ l ↔ fires t ∧ between start stop t.
(** From [ws] to [from] there are [days] trading days after [ws] itself. *)
Definition spaced fires ws from days : Prop :=
  fires ws ∧ t_ns ws <= t_ns from ∧ ∃ l, firings_between fires ws from l ∧ Z.of_nat (length l) = days + 1.
(** Not even so many calendar days hold that many trading days. *)
Definition sparse fires from days : Prop :=
  ∃ l, firings_between fires (AddDate from 0 0 (- (days * 8))) from l ∧ Z.of_nat (length l) <= days.

Lemma in_order_drop (l : list Time) i : in_time_order l → in_time_order (drop i l).
Proof. apply StronglySorted_drop. Qed.

Lemma last_firings fires start from l i ws :
  firings_between fires start from l → l !! i = Some ws →
  firings_between fires ws from (drop i l) ∧ fires ws ∧ t_ns ws <= t_ns from.
Proof.
  intros [Hs Hl] Hi. pose proof (proj1 (Hl ws) ltac:(by eapply list_elem_of_lookup_2)) as [Hf [Hlo Hhi]].
  split; [|done]. split; [by apply in_order_drop|]. intros t. split.
  - intros [j Hj]%list_elem_of_lookup. rewrite lookup_drop in Hj.
    pose proof (proj1 (Hl t) ltac:(by eapply list_elem_of_lookup_2)) as [Hft [_ Ht]]. split; [done|]. split; [|done].
    destruct (decide (j = 0%nat)) as [->|Hj0]; [rewrite Nat.add_0_r in Hj; simplify_eq; lia|].
    pose proof (sorted_lookup_lt _ _ i (i + j)%nat _ _ Hs ltac:(lia) Hi Hj). cbn in *. lia.
  - intros [Hft [Hge Hle]]. assert (Hin : t ∈ l) by (apply Hl; split; [done|split; [lia|done]]). apply list_elem_of_lookup in Hin as [j Hj].
    apply list_elem_of_lookup. destruct (Nat.lt_ge_cases j i) as [Hji|Hij].
    + pose proof (sorted_lookup_lt _ _ j i _ _ Hs Hji Hj Hi). cbn in *. lia.
    + exists (j - i)%nat. rewrite lookup_drop. by replace (i + (j - i))%nat with j by lia.
Qed.

(** What the walk answers then. *)
Definition walk_error from days : string :=
  "walkBackTradingDays: could not find " +:+ pretty days +:+ " trading days before " +:+ format_date from +:+ " after 3 attempts".

Lemma walk_attempts_spec daily fires `{!ScheduleLaws daily fires} from days multiples :
  0 < days →
  ∃ n0, ∀ n, (n0 <= n)%nat →
    (∃ ws, walk_attempts n daily from days multiples = run_ok ws ∧ spaced fires ws from days) ∨
    (walk_attempts n daily from days multiples = Some (Err (walk_error from days)) ∧
      ∀ k, k ∈ multiples → ∃ l, firings_between fires (AddDate from 0 0 (- (days * k))) from l ∧ Z.of_nat (length l) <= days).
Proof.
  intros Hd. induction multiples as [|k rest (n1 & IH)].
  { exists 0%nat. intros n _. right. split; [done|]. intros k Hk. by apply elem_of_nil in Hk. }
  destruct (enumerate_spec daily fires (AddDate from 0 0 (- (days * k))) from) as [n2 Hen].
  exists (Nat.max n1 n2). intros n Hn. cbn [walk_attempts]. destruct (Hen n ltac:(lia)) as (l & -> & Hs & Hl).
  destruct (Z.leb_spec (days + 1) (Z.of_nat (length l))) as [Hlen|Hlen].
  - left. assert (Hi : is_Some (l !! Z.to_nat (Z.of_nat (length l) - 1 - days))) by (apply lookup_lt_is_Some; lia).
    destruct Hi as [ws Hws]. exists ws. rewrite Hws. split; [done|].
    destruct (last_firings fires _ from l _ ws (conj Hs Hl) Hws) as (Hb & Hf & Hle). split; [done|]. split; [done|].
    eexists. split; [exact Hb|]. rewrite length_drop. lia.
  - destruct (IH n ltac:(lia)) as [Hok|[Herr Hall]]; [by left|]. right. split; [done|].
    intros k' [->|Hk']%elem_of_cons; [|by apply Hall]. exists l. split; [done|lia].
Qed.

Lemma walkBackTradingDays_spec daily fires `{!ScheduleLaws daily fires} from days :
  0 < days →
  ∃ n0, ∀ n, (n0 <= n)%nat →
    (∃ ws, walkBackTradingDays n daily from days = run_ok ws ∧ spaced fires ws from days) ∨
    (walkBackTradingDays n daily from days = Some (Err (walk_error from days)) ∧ sparse fires from days).
Proof.
  intros Hd. destruct (walk_attempts_spec daily fires from days [2; 4; 8] Hd) as [n0 Hn0]. exists n0. intros n Hn.
  unfold walkBackTradingDays. destruct (Z.ltb_spec days 0); [lia|]. destruct (Z.eqb_spec days 0); [lia|].
  destruct (Hn0 n Hn) as [Hok|[Herr Hall]]; [by left|]. right. split; [done|]. apply Hall. set_solver.
Qed.

(** An earlier instant is of the same or an earlier date, or of the next one. *)
Lemma date_no_close ws from : t_loc ws = nyc → t_loc from = nyc → t_ns ws <= t_ns from → date_no ws <= date_no from + 1.
Proof.
  intros Hw Hf Hle. Local Transparent date_no. unfold date_no, wall_secs. Local Opaque date_no. rewrite Hw, Hf.
  pose proof (offset_bound (Unix ws)). pose proof (offset_bound (Unix from)).
  assert (Unix ws <= Unix from) by (unfold Unix; by apply Z.div_le_mono).
  unfold secs_per_day. Z.to_euclidean_division_equations. lia.
Qed.
Lemma year_no_next n : year_no (n + 1) <= year_no n + 1.
Proof.
  pose proof (year_bounds n). rewrite <-(year_jan1 (year_no n + 1)). apply year_no_mono. lia.
Qed.
Lemma Year_close ws from : t_loc ws = nyc → t_loc from = nyc → t_ns ws <= t_ns from →
  year_no (date_no ws) <= year_no (date_no from) + 1.
Proof.
  intros Hw Hf Hle. pose proof (year_no_mono _ _ (date_no_close ws from Hw Hf Hle)). pose proof (year_no_next (date_no from)). lia.
Qed.
End Walk.

(** ** Enough history *)
Section Warmup.
Context {F : Type} `{Num F} `{!NumOrd F} `{NumPow F} `{MarketZone} {fx : FmtFloat F} `{GoMapOrder} `{GoSort} `{GoSched}.
Context (stamp : Z → Time) (Hst : day_stamps stamp) (T : string → Metric → Z → F).
Implicit Types (e : Engine F) (a : Asset) (assets : list Asset) (from t ws : Time) (daily : NextFn) (fires : Time → Prop).

(** The days of a range with a close on record. *)
Definition recorded_closes a (lo hi : Z) : Z :=
  Z.of_nat (length (keep (λ d, negb (is_nan (T (CompositeFigi a) MetricClose d))) (seqZ lo (hi - lo + 1)))).

Lemma keep_fmap_length {A B} (f : A → B) (P : B → bool) (l : list A) :
  length (keep P (f <$> l)) = length (keep (λ x, P (f x)) l).
Proof. induction l as [|x l IH]; [done|]. cbn [fmap list_fmap]. rewrite !keep_cons. destruct (P (f x)); cbn; by rewrite IH. Qed.

Lemma served_closes (lo hi : Z) assets (metrics : list Metric) days (df : DataFrame F) a :
  serves T lo hi assets metrics days df → MetricClose ∈ metrics → a ∈ assets →
  count_numbers (Column df a MetricClose) = recorded_closes a lo hi.
Proof.
  intros Hsv Hm Ha. unfold count_numbers, recorded_closes.
  rewrite (sv_plain _ _ _ _ _ _ _ Hsv a MetricClose Ha Hm eq_refl). f_equal. rewrite keep_fmap_length.
  apply Permutation_length. apply NoDup_Permutation.
  - apply NoDup_keep, StronglySorted_lt_NoDup, (sv_sorted _ _ _ _ _ _ _ Hsv).
  - apply NoDup_keep, NoDup_seqZ.
  - intros d. rewrite !elem_of_keep, elem_of_seqZ. split.
    + intros [Hp Hin]. split; [done|]. pose proof (sv_range _ _ _ _ _ _ _ Hsv) as Hr. rewrite Forall_forall in Hr.
      specialize (Hr d Hin). lia.
    + intros [Hp Hr]. split; [done|]. destruct (decide (d ∈ days)) as [|Hn]; [done|].
      rewrite (sv_complete _ _ _ _ _ _ _ Hsv d a MetricClose ltac:(lia) Hn Ha Hm) in Hp. by rewrite nan_is_nan in Hp.
Qed.

(** The engine's cache holds what is on record, and its providers answer with
    what is on record. *)
Definition sound_engine e : Prop :=
  cache_ok stamp T (ensure_cache e) ∧ engine_feed stamp T (unrecorded T) e [MetricClose].

Lemma fetch_closes_serves e assets ws from :
  sound_engine e → t_loc ws = nyc → t_loc from = nyc → t_ns ws <= t_ns from →
  ∃ e' df days, fetch_closes e assets ws from = Some (e', Ok df) ∧ sound_engine e' ∧
    serves T (date_no ws) (date_no from) assets [MetricClose] days df.
Proof.
  intros [Hc Hfeed] Hws Hfrom Hle. unfold fetch_closes.
  destruct (fetchRange_right stamp Hst T (unrecorded T) (λ figi m y d Hu, Hu d) e (ensure_cache e) assets [MetricClose] ws from
    Hws Hfrom (Year_close ws from Hws Hfrom Hle) Hc Hfeed) as (c' & df & days & -> & Hc' & _ & _ & Hs).
  by exists (set_cache (Some c') e), df, days.
Qed.

Lemma checkWarmupData_spec e warmup assets ws from :
  sound_engine e → t_loc ws = nyc → t_loc from = nyc → t_ns ws <= t_ns from →
  ∃ e', sound_engine e' ∧ checkWarmupData e warmup assets ws from
    = run_ok (e', keep (λ a, recorded_closes a (date_no ws) (date_no from) <? warmup) assets).
Proof.
  intros He Hws Hfrom Hle. destruct (fetch_closes_serves e assets ws from He Hws Hfrom Hle) as (e' & df & days & E & He' & Hs).
  exists e'. split; [done|]. unfold checkWarmupData. rewrite E. unfold run_ok. do 3 f_equal.
  assert (Hext : ∀ l, l ⊆ assets → keep (λ x, count_numbers (Column df x MetricClose) <? warmup) l
    = keep (λ a, recorded_closes a (date_no ws) (date_no from) <? warmup) l).
  { induction l as [|a l IH]; intros Hl; [done|]. rewrite !keep_cons, IH by set_solver.
    by rewrite (served_closes _ _ assets [MetricClose] days df a Hs ltac:(set_solver) ltac:(set_solver)). }
  by apply Hext.
Qed.

(** How many closes an asset lacks between the trading day that many trading
    days before [first] and [first], both included. *)
Definition short_by (ws first : Time) (warmup : Z) a : Z := warmup - recorded_closes a (date_no ws) (date_no first).
Definition short_of (ws first : Time) (warmup : Z) assets : list Asset := keep (λ a, 0 <? short_by ws first warmup a) assets.
Definition shortage ws first warmup a : string :=
  Ticker a +:+ " (short by " +:+ pretty (short_by ws first warmup a) +:+ " days)".

Lemma checkWarmupData_short e warmup assets ws from :
  sound_engine e → t_loc ws = nyc → t_loc from = nyc → t_ns ws <= t_ns from →
  ∃ e', sound_engine e' ∧ checkWarmupData e warmup assets ws from = run_ok (e', short_of ws from warmup assets).
Proof.
  intros He Hws Hfrom Hle. destruct (checkWarmupData_spec e warmup assets ws from He Hws Hfrom Hle) as (e' & He' & ->).
  exists e'. split; [done|]. do 3 f_equal. unfold short_of, short_by. induction assets as [|a assets IH]; [done|].
  rewrite !keep_cons, IH. do 2 f_equal. destruct (Z.ltb_spec (recorded_closes a (date_no ws) (date_no from)) warmup), (Z.ltb_spec 0 (warmup - recorded_closes a (date_no ws) (date_no from))); done || lia.
Qed.

Lemma formatWarmupShortfall_names e warmup assets ws from :
  sound_engine e → t_loc ws = nyc → t_loc from = nyc → t_ns ws <= t_ns from →
  formatWarmupShortfall e warmup (short_of ws from warmup assets) ws from
  = Some ("insufficient warmup data: " +:+ join_with ", " (shortage ws from warmup <$> short_of ws from warmup assets))%string.
Proof.
  intros He Hws Hfrom Hle. set (short := short_of ws from warmup assets).
  destruct (fetch_closes_serves e short ws from He Hws Hfrom Hle) as (e' & df & days & E & _ & Hs).
  unfold formatWarmupShortfall. rewrite E. do 2 f_equal. f_equal.
  assert (Hall : ∀ l : list Asset, (∀ a, a ∈ l → a ∈ short) → omap (shortfall df warmup) l = shortage ws from warmup <$> l).
  { induction l as [|a l IH]; intros Hl; [done|]. cbn [omap list_omap fmap list_fmap]. rewrite IH by set_solver.
    pose proof (Hl a ltac:(set_solver)) as Ha. unfold shortfall at 1.
    rewrite (served_closes _ _ short [MetricClose] days df a Hs ltac:(set_solver) Ha).
    apply elem_of_keep in Ha as [Hp _]. unfold short_by in Hp. rewrite Hp. done. }
  by apply Hall.
Qed.

(** What the strict check says about a start, once the first firing is known;
    a refusal says which assets are short, in their order, and by how many
    days. *)
Definition exact_check (trading_close : Time → Prop) (first start : Time) (warmup : Z) assets (answer : Run (Engine F * Time)) : Prop :=
  match answer with
  | Some (Ok (e', start')) => start' = start ∧ sound_engine e' ∧
      (warmup = 0 ∨ 0 < warmup ∧ assets = [] ∨
       0 < warmup ∧ ∃ ws, spaced trading_close ws first warmup ∧ short_of ws first warmup assets = [])
  | Some (Err msg) =>
      warmup < 0 ∧ msg = ("engine: negative warmup value " +:+ pretty warmup)%string ∨
      0 < warmup ∧ assets ≠ [] ∧
        (sparse trading_close first warmup ∧ msg = ("engine: computing warmup start: " +:+ walk_error first warmup)%string ∨
         ∃ ws, spaced trading_close ws first warmup ∧ short_of ws first warmup assets ≠ [] ∧
           msg = ("engine: insufficient warmup data: " +:+
                  join_with ", " (shortage ws first warmup <$> short_of ws first warmup assets))%string)
  | None => False
  end.

(** C13. The warm-up check is exact.  In the strict mode it always answers: it
    accepts the start when no warm-up is asked for, when the strategies name no
    asset, or when every asset they name has as many closes on record as the
    warm-up asks, from the trading day that many trading days before the first
    firing up to the day of the first firing, which counts too; and it refuses
    the start when the warm-up is negative, when the calendar does not hold
    that many trading days, or when some asset has too few closes, and in no
    other case.  Each refusal says so, and the last names every asset that is
    short, in order, with the number of days it lacks. *)
Theorem validateWarmup_strict e parent children benchmark (schedule daily : NextFn) (firing trading_close : Time → Prop)
    start end_ :
  ScheduleLaws schedule firing → ScheduleLaws daily trading_close → sound_engine e →
  ∃ first n0, schedule (AddDur start (-1)) = Some first ∧ ∀ fuel, (n0 <= fuel)%nat →
    exact_check trading_close first start (needed_warmup parent children) (all_strategy_assets parent children benchmark)
      (validateWarmup fuel e parent children benchmark schedule daily DateRangeModeStrict start end_).
Proof.
  intros Hsch Hday He. set (warmup := needed_warmup _ _). set (assets := all_strategy_assets _ _ _). destruct (next_total (next := schedule) (AddDur start (-1))) as [first Hfirst]. exists first.
  unfold validateWarmup, exact_check. fold warmup assets. rewrite Hfirst.
  destruct (Z.eqb_spec warmup 0) as [Hz|Hz]; [exists 0%nat; split; [done|]; intros; split_and!; auto|].
  destruct (Z.ltb_spec warmup 0) as [Hn|Hn]; [exists 0%nat; split; [done|]; intros; by left|].
  destruct assets as [|a0 rest] eqn:Hassets; [exists 0%nat; split; [done|]; intros; split; [done|]; split; [done|]; right; left; split; [lia|done]|].
  rewrite <-Hassets. destruct (walkBackTradingDays_spec daily trading_close first warmup ltac:(lia)) as [n0 Hwalk].
  exists n0. split; [done|]. intros fuel Hfuel. assert (Hne : assets ≠ []) by (by rewrite Hassets).
  destruct (Hwalk fuel Hfuel) as [(ws & -> & Hsp)|[-> Hno]]; cbn; [|right; split; [lia|]; split; [done|]; by left].
  destruct Hsp as (Hfw & Hle & Hl). pose proof (fires_loc (fires := trading_close) ws Hfw) as Hws.
  pose proof (fires_loc (fires := firing) first (proj1 (next_fires (next := schedule) _ _ Hfirst))) as Hff.
  destruct (checkWarmupData_short e warmup assets ws first He Hws Hff Hle) as (e' & He' & ->). cbn.
  pose proof (formatWarmupShortfall_names e' warmup assets ws first He' Hws Hff Hle) as Htext.
  destruct (short_of ws first warmup assets) as [|a short] eqn:Hk.
  - split; [done|]. split; [done|]. right. right. split; [lia|]. by exists ws.
  - rewrite Htext. right. split; [lia|]. split; [done|]. right. exists ws. rewrite Hk. by split_and!.
Qed.

(** ** The last day whose prices can be there *)

(** The session of day [n] is over and its closes are on record. *)
Definition published holidays assets (now : Time) (n : Z) : Prop :=
  trading holidays n = true ∧ Before (InLoc now nyc) (clock_of (day_start n) marketCloseHour 0 0 0 nyc) = false ∧
  ∀ a, a ∈ assets → is_nan (T (CompositeFigi a) MetricClose n) = false.

Lemma allStrategyAssetsPriced_spec e assets n :
  sound_engine e →
  ∃ e' b, allStrategyAssetsPriced e assets (day_start n) = Some (e', b) ∧ sound_engine e' ∧
    (b = true ↔ ∀ a, a ∈ assets → is_nan (T (CompositeFigi a) MetricClose n) = false).
Proof.
  intros He. unfold allStrategyAssetsPriced. destruct assets as [|a0 rest] eqn:Hassets.
  { exists e, true. split; [done|]. split; [done|]. split; [|done]. intros _ a Ha. by apply elem_of_nil in Ha. }
  rewrite <-Hassets. destruct (fetch_closes_serves e assets (day_start n) (day_start n) He eq_refl eq_refl (Z.le_refl _)) as (e' & df & days & -> & He' & Hs).
  eexists e', _. split; [reflexivity|]. split; [done|]. rewrite date_no_start in Hs.
  pose proof (sv_dates _ _ _ _ _ _ _ Hs) as Hdates. pose proof (sv_range _ _ _ _ _ _ _ Hs) as Hr. pose proof (sv_sorted _ _ _ _ _ _ _ Hs) as Hsort.
  destruct days as [|d [|d' days]].
  - apply fmap_nil_inv in Hdates. unfold Len. rewrite Hdates. cbn. split; [done|]. intros Hall.
    assert (Ha : a0 ∈ assets) by (rewrite Hassets; by left). specialize (Hall a0 Ha).
    rewrite (sv_complete _ _ _ _ _ _ _ Hs n a0 MetricClose ltac:(lia) (not_elem_of_nil n) Ha ltac:(set_solver)) in Hall.
    by rewrite nan_is_nan in Hall.
  - apply Forall_cons in Hr as [Hr _]. assert (d = n) as -> by lia.
    destruct (df_times df) as [|t [|? ?]] eqn:Htimes; cbn in Hdates; [done| |done]. injection Hdates as Ht.
    unfold Len, priced_on. rewrite Htimes. cbn [length Nat.eqb negb andb list_find].
    rewrite decide_True by (by rewrite !dateKey_no, Ht, date_no_start). cbn [list_find].
    rewrite forallb_forall. split; intros Hall a Ha.
    + apply list_elem_of_In in Ha as Hin. specialize (Hall a Hin).
      rewrite (sv_plain _ _ _ _ _ _ _ Hs a MetricClose Ha ltac:(set_solver) eq_refl) in Hall. cbn in Hall. by apply negb_true_iff in Hall.
    + apply list_elem_of_In in Ha.
      rewrite (sv_plain _ _ _ _ _ _ _ Hs a MetricClose Ha ltac:(set_solver) eq_refl). cbn. by rewrite Hall.
  - exfalso. inversion Hsort as [|? ? _ Hlt]; subst. apply Forall_cons in Hlt as [Hlt _]. apply Forall_cons in Hr as [Hd Hr].
    apply Forall_cons in Hr as [Hd' _]. lia.
Qed.

(** C14. A run ends on a day whose prices can be there.  With [n] the current
    day in New York, the end is cut to the end of day [k]: [k] is the current
    day when it is a trading day, its close has passed and every named asset has
    a close on record for it, and otherwise the last trading day before it.  An
    end that is not later is left alone. *)
Theorem adjustEndForExpectedEOD_exact e holidays assets (end_ now : Time) :
  sound_engine e →
  let n := date_no (InLoc now nyc) in
  ∃ k n0, (published holidays assets now n → k = n) ∧
    (¬ published holidays assets now n → k < n ∧ trading holidays k = true ∧ ∀ j, k < j < n → trading holidays j = false) ∧
    ∀ fuel, (n0 <= fuel)%nat →
      ∃ e', sound_engine e' ∧ adjustEndForExpectedEOD fuel e holidays assets end_ now
        = Some (e', if After end_ (end_of_day (day_start k)) then end_of_day (day_start k) else end_).
Proof.
  intros He n. destruct (backward_loop holidays (n - 1)) as (f & k & Hk & Ht & Hno & Hloop).
  assert (Hprev : ∀ fuel, (f <= fuel)%nat → previousTradingDay fuel holidays (day_start n) = Some (day_start k)).
  { intros fuel Hf. unfold previousTradingDay. rewrite AddDate_day. by apply Hloop. }
  unfold adjustEndForExpectedEOD, expected_last. set (local := InLoc now nyc) in *.
  change (Date (Year local) (Month local) (Day local) 0 0 0 0 nyc) with (midnight local). rewrite midnight_day. fold n.
  change (Date (Year (day_start n)) (Month (day_start n)) (Day (day_start n)) marketCloseHour 0 0 0 nyc)
    with (clock_of (day_start n) marketCloseHour 0 0 0 nyc). rewrite IsMarketDay_start.
  assert (Hearlier : ¬ published holidays assets now n → ∃ k n0,
    (published holidays assets now n → k = n) ∧
    (¬ published holidays assets now n → k < n ∧ trading holidays k = true ∧ ∀ j, k < j < n → trading holidays j = false) ∧
    ∀ fuel, (n0 <= fuel)%nat → previousTradingDay fuel holidays (day_start n) = Some (day_start k)).
  { intros Hnot. exists k, f. split; [done|]. split; [|done]. intros _. split; [lia|]. split; [done|]. intros j Hj. apply Hno. lia. }
  destruct (trading holidays n && negb (Before local (clock_of (day_start n) marketCloseHour 0 0 0 nyc))) eqn:Hopen.
  - apply andb_true_iff in Hopen as [Htr Hcl%negb_true_iff].
    destruct (allStrategyAssetsPriced_spec e assets n He) as (e' & priced & -> & He' & Hb). cbn [mbind option_bind].
    destruct priced.
    + exists n, 0%nat. assert (Hpub : published holidays assets now n) by (split; [done|split; [done|by apply Hb]]).
      split; [done|]. split; [done|]. intros fuel _. exists e'. split; [done|]. reflexivity.
    + destruct Hearlier as (k' & n0 & Hy & Hn & Hp); [by intros (_ & _ & Hall%Hb)|].
      exists k', n0. split; [done|]. split; [done|]. intros fuel Hf. exists e'. split; [done|]. rewrite Hp by done. reflexivity.
  - destruct Hearlier as (k' & n0 & Hy & Hn & Hp).
    { intros (Htr & Hcl & _). unfold local in Hopen. by rewrite Htr, Hcl in Hopen. }
    exists k', n0. split; [done|]. split; [done|]. intros fuel Hf. exists e. split; [done|]. rewrite Hp by done. reflexivity.
Qed.
End Warmup.

(** ** Snapshots *)
Section Snapshots.
Context {go : GoMapOrder}.

(** A loop that sets every key it visits from the value there and its own. *)
Lemma fold_entries {V} (g : V → option V → V) (l : list (Asset * V)) (m : gmap Asset V) k :
  NoDup l.*1 →
  let m' := fold_left (λ m kv, <[kv.1 := g kv.2 (m !! kv.1)]> m) l m in
  (∀ v, (k, v) ∈ l → m' !! k = Some (g v (m !! k))) ∧ (k ∉ l.*1 → m' !! k = m !! k).
Proof.
  cbn zeta. revert m. induction l as [|[k' v'] l IH]; intros m Hnd; [split; [intros v Hv; by apply elem_of_nil in Hv|done]|].
  cbn [fold_left fst snd]. apply NoDup_cons in Hnd as [Hnot Hnd]. destruct (IH (<[k':=g v' (m !! k')]> m) Hnd) as [IHin IHout]. split.
  - intros v [Heq|Hin]%elem_of_cons.
    + injection Heq as -> ->. rewrite IHout by done. by rewrite lookup_insert_eq.
    + rewrite (IHin v Hin). rewrite lookup_insert_ne; [done|]. intros ->. apply Hnot. by apply (list_elem_of_fmap_2 fst _ (k, v)).
  - intros Hk. apply not_elem_of_cons in Hk as [Hne Hk]. rewrite IHout by done. by rewrite lookup_insert_ne.
Qed.
Lemma range_entries {V} (g : V → option V → V) (src dst : gmap Asset V) k :
  fold_left (λ m kv, <[kv.1 := g kv.2 (m !! kv.1)]> m) (range src) dst !! k
  = match src !! k with Some v => Some (g v (dst !! k)) | None => dst !! k end.
Proof.
  destruct (fold_entries g (range src) dst k (NoDup_range_fst src)) as [Hin Hout].
  destruct (src !! k) as [v|] eqn:E; [by apply Hin, elem_of_range|]. apply Hout.
  intros ([k' v] & -> & Hkv)%list_elem_of_fmap. apply elem_of_range in Hkv. cbn in *. congruence.
Qed.
Lemma copy_map_empty {V} (src : gmap Asset V) : copy_map src ∅ = src.
Proof.
  apply map_eq. intros k. unfold copy_map. rewrite (range_entries (λ v _, v)), lookup_empty. by destruct (src !! k).
Qed.
Lemma append_map_empty {V} (src : gmap Asset (list V)) : append_map src ∅ = src.
Proof.
  apply map_eq. intros k. unfold append_map, lookup_d. rewrite (range_entries (λ v o, default [] o ++ v)), lookup_empty.
  by destruct (src !! k).
Qed.

(** What a resumed account is: the ledger without the wash-sale trackers and
    the identifiers already seen, and nothing of the settings. *)
Lemma resumed_account {F} `{Num F} {tz : TZDB} (a : Account F) :
  typed_history a → substitutions a = ∅ →
  let L := ledger a in
  WithPortfolioSnapshot (account_snapshot a) new_account
  = mkAccount (mkLedger (cash L) (holdings L) (transactions L) (taxLots L) (shortLots L) ∅ ∅ [] LotFIFO
                 (excursions L) (tradeDetails L) ∅)
      None ∅ no_margin (mkHistory (perfData (history a)) ∅ ∅ zero_asset (of_Z 0)) empty_book [] (batches a).
Proof.
  intros Ht Hsub. cbn zeta. unfold WithPortfolioSnapshot, account_snapshot, Holdings. rewrite decide_True by done.
  cbn [sn_Cash sn_Holdings sn_Transactions sn_PerfData sn_TaxLots sn_TradeDetails sn_Excursions sn_ShortLots sn_Batches
       new_account ledger history batches empty_ledger holdings taxLots shortLots excursions transactions tradeDetails
       empty_history perfData app].
  rewrite !copy_map_empty, !append_map_empty. unfold typed_history, perf_of in Ht.
  destruct (perfData (history a)) as [df|]; [|reflexivity].
  destruct (Ht df eq_refl) as [(times & eq & bm & rf & -> & _)]. reflexivity.
Qed.

Lemma steps_keep_books {tz : TZDB} {fx : FmtFloat xq} (L L' : Ledger xq) :
  rtc ledger_step L L' → ledger_ok L ∧ cash_ok L → ledger_ok L' ∧ cash_ok L'.
Proof.
  intros Hrun. induction Hrun as [|L1 L2 L3 Hs _ IH]; [done|]. intros [Hok Hcash]. apply IH.
  split; [by apply (ledger_step_ok _ _ Hs)|by apply (ledger_step_cash_ok _ _ Hs)].
Qed.

(** C15. Resuming from a snapshot restores a portfolio without active
    substitutions.  An account made from the snapshot of another one, which
    holds no substitute for another asset, has that snapshot again: cash, holdings, log, lots, trades, excursions, history and batches;
    its books balance as before, so that everything that is recorded from there
    on keeps them balanced, and its cash is still the total of its log. *)
Theorem snapshot_round_trip {tz : TZDB} {fx : FmtFloat xq} (a : Account xq) :
  typed_history a → substitutions a = ∅ → ledger_ok (ledger a) → cash_ok (ledger a) →
  let r := WithPortfolioSnapshot (account_snapshot a) new_account in
  account_snapshot r = account_snapshot a ∧
  ∀ L, rtc ledger_step (ledger r) L → ledger_ok L ∧ cash_ok L.
Proof.
  intros Ht Hsub Hok Hcash r. assert (Hr : r = _) by (by apply resumed_account). split.
  - rewrite Hr. unfold account_snapshot, Holdings, Cash. cbn [ledger history batches substitutions].
    by rewrite decide_True by done; rewrite Hsub, decide_True by done.
  - assert (Hokr : ledger_ok (ledger r) ∧ cash_ok (ledger r)).
    { rewrite Hr. cbn [ledger]. split; [|exact Hcash]. intros ast. destruct (Hok ast) as [[] ? ? ? ?].
      split; [split|..]; books; rewrite ?lookup_d_empty; try done; by apply Forall_nil_2. }
    intros L Hrun. by apply (steps_keep_books (ledger r)).
Qed.
End Snapshots.

(** ** Witnesses, and what the checks miss *)
Section Executions.
Local Existing Instances utc_db stable_sort_slice launch_order canonical_order blank_fmt daily_cron.
Local Instance no_pow : NumPow xq := {| fpow := λ x _, x |}.
Abbreviation closes := (Next 10 thanksgiving daily_close).
Abbreviation daily_closes := (market_closes thanksgiving daily_close).
Lemma closes_lawful : ScheduleLaws closes daily_closes.
Proof. apply (daily_close_lawful thanksgiving daily_close daily_close_schedule eq_refl thanksgiving_opens). Qed.
Lemma market_engine_sound : sound_engine close_stamp market_record market_engine.
Proof. split; [exact empty_cache_ok|]. intros m Hm. apply market_feed. set_solver. Qed.

(** A strategy on SPY that asks for a day of history. *)
Definition day_trader : StrategyDef := mkStrategyDef [AssetField SPY; OtherField] (Some 1).
Lemma validateWarmup_strict_witness :
  needed_warmup day_trader [] = 1 ∧ all_strategy_assets day_trader [] zero_asset = [SPY] ∧
  ∃ first n0, closes (AddDur (close_stamp 19724) (-1)) = Some first ∧ ∀ fuel, (n0 <= fuel)%nat →
    exact_check close_stamp market_record daily_closes first (close_stamp 19724) 1 [SPY]
      (validateWarmup fuel market_engine day_trader [] zero_asset closes closes DateRangeModeStrict (close_stamp 19724) (close_stamp 19725)).
Proof.
  split; [reflexivity|]. split; [reflexivity|].
  exact (validateWarmup_strict close_stamp close_stamps market_record market_engine day_trader [] zero_asset closes closes
    daily_closes daily_closes (close_stamp 19724) (close_stamp 19725) closes_lawful closes_lawful market_engine_sound).
Defined.

(** After the close of 2024-01-03, for which both assets have prices. *)
Lemma adjustEndForExpectedEOD_exact_witness :
  ∃ k n0, k = 19725 ∧ ∀ fuel, (n0 <= fuel)%nat →
    ∃ e', sound_engine close_stamp market_record e' ∧
      adjustEndForExpectedEOD fuel market_engine thanksgiving [SPY; TLT] (close_stamp 19800) (close_stamp 19725)
      = Some (e', if After (close_stamp 19800) (end_of_day (day_start k)) then end_of_day (day_start k) else close_stamp 19800).
Proof.
  destruct (adjustEndForExpectedEOD_exact close_stamp close_stamps market_record market_engine thanksgiving [SPY; TLT]
    (close_stamp 19800) (close_stamp 19725) market_engine_sound) as (k & n0 & Hpub & _ & Hrun).
  exists k, n0. split; [|exact Hrun]. apply Hpub. split; [vm_compute; reflexivity|]. split; [vm_compute; reflexivity|].
  intros a [->| ->%list_elem_of_singleton]%elem_of_cons; vm_compute; reflexivity.
Defined.

(** The account of the ledger's sample run. *)
Lemma snapshot_round_trip_witness :
  match sample_ledger with
  | Ok L =>
      let a := set_ledger L new_account in
      account_snapshot (WithPortfolioSnapshot (account_snapshot a) new_account) = account_snapshot a
  | Err _ => False
  end.
Proof.
  pose proof sample_reachable as Hr. destruct sample_ledger as [L|]; [|done]. cbv zeta.
  destruct Hr as (amount & d & method & Hr).
  destruct (steps_keep_books _ _ Hr (conj (opening_ok amount d method) (opening_cash_ok amount d method))) as [Hok Hcash].
  apply (snapshot_round_trip (set_ledger L new_account)); [by intros perf|done|exact Hok|exact Hcash].
Defined.

(** An account that holds the substitute of an asset: the snapshot lists the
    position under the original, the lots under the substitute. *)
Definition substituted : Account xq :=
  let L := Record_ (buy "b1" 1 TLT 10 20) (opening (qc_of_Z 10000) (day 0) LotFIFO) in
  set_substitutions {[SPY := mkSub SPY TLT (day 30)]} (set_ledger L new_account).
Theorem resumed_substitute_out_of_balance :
  let r := WithPortfolioSnapshot (account_snapshot substituted) new_account in
  books_ok (ledger substituted) TLT ∧
  position (ledger r) TLT = q 0 ∧ position (ledger r) SPY = q 10 ∧ ¬ books_ok (ledger r) TLT.
Proof.
  cbv zeta. split; [|split; [eval_eq|split; [eval_eq|]]].
  - assert (Hallow : trade_allowed (opening (qc_of_Z 10000) (day 0) LotFIFO) (buy "b1" 1 TLT 10 20))
      by (intros _; left; vm_compute; reflexivity).
    destruct (steps_keep_books _ _ (rtc_once _ _ (step_record _ _ Hallow)) (conj (opening_ok (qc_of_Z 10000) (day 0) LotFIFO) (opening_cash_ok (qc_of_Z 10000) (day 0) LotFIFO))) as [Hok _].
    apply Hok.
  - intros [_ Hbal _ _ _]. revert Hbal. apply (bool_decide_unpack _). vm_compute. done.
Qed.

(** A child that has children of its own cannot be given any weight: the
    weights of the nested children are added to those of their parent. *)
Theorem nested_weights_rejected :
  discoverChildren [mkChildField "outer" (Some (Ok (q 1))) 1 None [mkChildField "inner" (Some (Ok (q 1))) 2 None []]]
  = Err "discoverChildren: total child weight exceeds 1.0"%string.
Proof. vm_compute. reflexivity. Qed.

(** The permissive scan looks again only at the assets that were short before:
    SPY has closes on the first two days, TLT on the last two; the start it
    settles on leaves SPY without a close in the warm-up window. *)
Definition gap_days : list Z := [19716; 19717; 19718; 19719; 19720].
Definition gap_cells : list ((string * Metric * Z) * xq) :=
  [ ((CompositeFigi SPY, MetricClose, 19716), q 100); ((CompositeFigi SPY, MetricClose, 19717), q 101);
    ((CompositeFigi TLT, MetricClose, 19719), q 50); ((CompositeFigi TLT, MetricClose, 19720), q 52) ].
Definition gap_record (figi : string) (m : Metric) (d : Z) : xq :=
  default XNaN ((list_to_map gap_cells : gmap (string * Metric * Z) xq) !! (figi, m, d)).
Definition gap_engine : Engine xq :=
  mkEngine [NewTestProvider [MetricClose] (record_grid close_stamp gap_record gap_days [SPY; TLT] [MetricClose])]
    {[ MetricClose := 0%nat ]} None 0 None (close_stamp 19716) (close_stamp 19716) false false (mkRiskFree [] [] ∅) "ARQ".
Definition gap_closes : NextFn := λ t, head (keep (λ u, After u t) (close_stamp <$> gap_days ++ [19723; 19724])).
Definition two_assets : StrategyDef := mkStrategyDef [StaticUniverseField [SPY; TLT]] (Some 1).

Theorem permissive_start_forgets_asset :
  match validateWarmup 20 gap_engine two_assets [] zero_asset gap_closes gap_closes DateRangeModePermissive (close_stamp 19717) (close_stamp 19720) with
  | Some (Ok (e', start)) => start = close_stamp 19719 ∧ walkBackTradingDays 20 gap_closes start 1 = run_ok (close_stamp 19718) ∧
      match checkWarmupData e' 1 [SPY; TLT] (close_stamp 19718) start with Some (Ok (_, short)) => short = [SPY] | _ => False end
  | _ => False
  end.
Proof. vm_compute. split_and!; reflexivity. Qed.
End Executions.
