(* ===== verification/LiveProps.v ===== *)
(** * LiveProps: which firings live trading serves, and what a step leaves

    The loop wakes at the next firing of either schedule; a firing is passed
    over only when it falls into the time a step takes.  The equity curve grows
    at the daily close alone. *)
From Stdlib Require Import ZArith Lia.
From stdpp Require Import base list gmap strings sorting.
From S2P Require Import Prelude Num GoTime Asset Period Frame Metrics FrameOps Schedule Provider DataCache Fetch.
From S2P Require Import Broker Lots Ledger Account Batch Exec SimBroker MarginCall Engine Backtest Stats Live.
From S2P Require Import Samples Runs ScheduleProps StatsProps PlanProps TradeFacts BacktestProps FetchRuns BacktestRuns SetupProps.
Local Open Scope Z_scope.

(** ** Waking *)
Section Waking.
Context {tz : TZDB} (schedule daily : NextFn) (firing closing : Time → Prop).
Context `{!ScheduleLaws schedule firing, !ScheduleLaws daily closing}.
Implicit Types (now t : Time) (w : Wake).

Lemma same_instant t u : firing t ∨ closing t → firing u ∨ closing u → t_ns t = t_ns u → t = u.
Proof.
  intros Ht Hu Hns. assert (Hloc : ∀ v, firing v ∨ closing v → t_loc v = nyc).
  { intros v [Hv|Hv]; [exact (fires_loc (next := schedule) v Hv)|exact (fires_loc (next := daily) v Hv)]. }
  specialize (Hloc t Ht) as Et. specialize (Hloc u Hu) as Eu. destruct t, u. cbn in *. by subst.
Qed.

(** The wake-up is the next firing of either schedule, and says which ones. *)
Record wakes_at now w : Prop := {
  wa_ahead : t_ns now < t_ns (wk_at w);
  wa_strategy : wk_isStrategy w = true ↔ firing (wk_at w);
  wa_daily : wk_isDaily w = true ↔ closing (wk_at w);
  wa_some : firing (wk_at w) ∨ closing (wk_at w);
  wa_next : ∀ t, firing t ∨ closing t → t_ns now < t_ns t → t_ns (wk_at w) <= t_ns t;
}.

Lemma next_wake_spec now : ∃ w, next_wake schedule daily now = Some w ∧ wakes_at now w.
Proof.
  destruct (next_total (next := schedule) now) as [s Es]. destruct (next_total (next := daily) now) as [d Ed].
  unfold next_wake. rewrite Es, Ed. cbn [mbind option_bind]. eexists. split; [reflexivity|].
  destruct (next_fires (next := schedule) _ _ Es) as [Hs Hbs]. destruct (next_fires (next := daily) _ _ Ed) as [Hd Hbd].
  assert (Hls : ∀ t, firing t → t_ns now < t_ns t → t_ns s <= t_ns t).
  { intros t Ht Hlt. pose proof (next_least (next := schedule) _ _ t Es Ht ltac:(by apply Z.ltb_lt)) as Hb. by apply Z.ltb_ge in Hb. }
  assert (Hld : ∀ t, closing t → t_ns now < t_ns t → t_ns d <= t_ns t).
  { intros t Ht Hlt. pose proof (next_least (next := daily) _ _ t Ed Ht ltac:(by apply Z.ltb_lt)) as Hb. by apply Z.ltb_ge in Hb. }
  apply Z.ltb_lt in Hbs, Hbd. unfold After. destruct (Z.ltb_spec (t_ns d) (t_ns s)) as [Hlt|Hle]; cbn [negb]; split; cbn [wk_at wk_isStrategy wk_isDaily].
  - done.
  - split; [done|]. intros Hf. specialize (Hls d Hf Hbd). lia.
  - by rewrite Z.ltb_irrefl.
  - by right.
  - intros t [Ht|Ht] Hn; [specialize (Hls t Ht Hn); lia|by apply Hld].
  - done.
  - done.
  - split; [|intros Hc; apply negb_true_iff, Z.ltb_ge; by apply Hld].
    intros Hb%negb_true_iff%Z.ltb_ge. rewrite (same_instant s d); [done|by left|by right|lia].
  - by left.
  - intros t [Ht|Ht] Hn; [by apply Hls|specialize (Hld t Ht Hn); lia].
Qed.

Lemma wakes_at_unique now w w' : wakes_at now w → wakes_at now w' → w = w'.
Proof.
  intros H1 H2. assert (wk_at w = wk_at w') as Ew.
  { apply same_instant; [apply (wa_some _ _ H1)|apply (wa_some _ _ H2)|].
    pose proof (wa_next _ _ H1 _ (wa_some _ _ H2) (wa_ahead _ _ H2)). pose proof (wa_next _ _ H2 _ (wa_some _ _ H1) (wa_ahead _ _ H1)). lia. }
  destruct H1 as [_ S1 D1 _ _], H2 as [_ S2 D2 _ _], w as [t s d], w' as [t' s' d']. cbn in *. subst t'. f_equal.
  - destruct s, s'; naive_solver.
  - destruct d, d'; naive_solver.
Qed.
Lemma next_wake_at now w : next_wake schedule daily now = Some w → wakes_at now w.
Proof. intros E. destruct (next_wake_spec now) as (w' & E' & Hat). congruence. Qed.
Lemma wakes_of nows ws : mapM (next_wake schedule daily) nows = Some ws → ∀ ws', Forall2 wakes_at nows ws' → ws' = ws.
Proof.
  intros Hm%mapM_Some ws' Hall. revert ws Hm. induction Hall as [|now w nows ws' Hat Hall IH]; intros ws Hm.
  - by apply Forall2_nil_inv_l in Hm as ->.
  - apply Forall2_cons_inv_l in Hm as (u & us & Hu & Hm & ->). f_equal; [|by apply IH].
    by apply (wakes_at_unique now), next_wake_at.
Qed.

(** The loop sleeps until the wake-up, and looks at the clock again after the
    step. *)
Fixpoint in_time (clock : list (Time * Time)) (ws : list Wake) : Prop :=
  match clock, ws with
  | (_, woke) :: clock, w :: ws =>
      t_ns (wk_at w) <= t_ns woke ∧ (∀ c, head clock = Some c → t_ns woke <= t_ns c.1) ∧ in_time clock ws
  | _, _ => True
  end.
(** A firing that passes while the step of a wake-up is under way. *)
Fixpoint passed_over t (clock : list (Time * Time)) (ws : list Wake) : Prop :=
  match clock, ws with
  | _ :: ((now', _) :: _) as clock, w :: ws => t_ns (wk_at w) < t_ns t <= t_ns now' ∨ passed_over t clock ws
  | _, _ => False
  end.

Lemma wakes_ahead clock ws first :
  Forall2 wakes_at clock.*1 ws → in_time clock ws → head clock = Some first →
  Forall (λ w, t_ns first.1 < t_ns (wk_at w)) ws ∧ StronglySorted (λ w w', t_ns (wk_at w) < t_ns (wk_at w')) ws.
Proof.
  revert ws first. induction clock as [|[now woke] clock IH]; intros ws first Hall Hin; [done|]. intros [= <-].
  destruct ws as [|w ws]; [by apply Forall2_nil_inv_r in Hall|]. rewrite fmap_cons in Hall. apply Forall2_cons in Hall as [Hat Hall]. cbn [fst] in Hat. destruct Hin as (Hw & Hnext & Hin). cbn [fst].
  destruct clock as [|c clock].
  { apply Forall2_nil_inv_l in Hall as ->. split; [|by repeat constructor]. constructor; [exact (wa_ahead _ _ Hat)|done]. }
  destruct (IH ws c Hall Hin eq_refl) as [Ha Hs]. pose proof (Hnext c eq_refl) as Hc. pose proof (wa_ahead _ _ Hat).
  split; constructor; try done; (eapply Forall_impl; [exact Ha|]); cbn; intros; lia.
Qed.

(** Every firing from the first look to the last wake-up. *)
Lemma wakes_serve clock ws first stop t :
  Forall2 wakes_at clock.*1 ws → in_time clock ws → head clock = Some first → last ws = Some stop →
  firing t ∨ closing t → t_ns first.1 < t_ns t <= t_ns (wk_at stop) → t ∈ wk_at <$> ws ∨ passed_over t clock ws.
Proof.
  revert ws first. induction clock as [|[now woke] clock IH]; intros ws first Hall Hin; [done|]. intros [= <-] Hstop Ht [Hlo Hhi]. cbn [fst] in Hlo.
  destruct ws as [|w ws]; [by apply Forall2_nil_inv_r in Hall|]. rewrite fmap_cons in Hall. apply Forall2_cons in Hall as [Hat Hall]. cbn [fst] in Hat. destruct Hin as (Hw & Hnext & Hin).
  pose proof (wa_next _ _ Hat t Ht Hlo) as Hge. destruct (decide (t_ns t = t_ns (wk_at w))) as [He|Hne].
  { left. apply elem_of_cons. left. apply same_instant; [done|apply (wa_some _ _ Hat)|done]. }
  destruct clock as [|[now' woke'] clock].
  { apply Forall2_nil_inv_l in Hall as ->. cbn in Hstop. injection Hstop as <-. lia. }
  destruct ws as [|w' ws]; [by inversion Hall|].
  destruct (Z.le_gt_cases (t_ns t) (t_ns now')) as [Hle|Hgt].
  - right. cbn. left. lia.
  - destruct (IH (w' :: ws) (now', woke') Hall Hin eq_refl) as [Hi|Hp]; [by rewrite last_cons_cons in Hstop|done|cbn; lia| |].
    + left. apply elem_of_cons. by right.
    + right. cbn. by right.
Qed.
End Waking.

(** ** A step *)
Section Step.
Context {F : Type} `{Num F} `{NumPow F} {tz : TZDB} {fx : FmtFloat F} {go : GoMapOrder} {srt : GoSort} {sched : GoSched}.
Context {B : Type} `{!Broker B F} {S : Type} (fuel : nat).
Implicit Types (e : Engine F) (a : Account F) (k : B) (st : LiveState F B S) (cfg : LiveConfig F S) (env : LiveEnv F B) (woke : Time).

(** A strategy that changes the account at most through the interface, and
    waits that do not change the firing. *)
Record live_behaved cfg env : Prop := mkLiveBehaved {
  lb_account : ∀ m e vs a b, trades a (co_account (st_Compute (lv_strategy cfg) m e vs a b));
  lb_clock : ∀ m e vs a b, same_clock e (co_engine (st_Compute (lv_strategy cfg) m e vs a b));
  lb_wait : ∀ n e e', env_wait env n e = Some e' → same_clock e e';
  lb_middleware : Forall trading_middleware (lv_middleware cfg);
}.

(** The engine stands at the firing. *)
Definition at_firing woke e : Prop := predicting e = false ∧ currentTime e = woke ∧ currentDate e = woke.
Lemma at_firing_same woke e e' : at_firing woke e → same_clock e e' → at_firing woke e'.
Proof. intros (Hp & Ht & Hd) Hs. split_and!; [by rewrite (sc_predicting _ _ Hs)|by rewrite (sc_time _ _ Hs)|by rewrite (sc_date _ _ Hs)]. Qed.

(** What a part of a step before the close leaves: the firing, and an account
    with the history it had. *)
Definition desk_trades woke st st' : Prop :=
  at_firing woke (ls_engine st) → at_firing woke (ls_engine st') ∧ trades (ls_account st) (ls_account st').

Lemma settle_broker_trades env woke st : desk_trades woke st (settle_broker env woke st).
Proof.
  intros Hat. unfold settle_broker. pose proof (drainFills_moves (mkExec (ls_account st) (ls_broker st) None 0)) as Hd. unfold moves in Hd.
  destruct (env_Transactions _ _ _) as [k [txns|err]]; (split; [exact Hat|]); cbn [ls_account].
  - etrans; [exact Hd|]. apply trades_ledger, SyncTransactions_log.
  - exact Hd.
Qed.

Lemma check_margin_trades cfg env woke st st' :
  live_behaved cfg env → check_margin fuel cfg woke st = Some st' → desk_trades woke st st' ∧ ls_mem st' = ls_mem st ∧ ls_riskFree st' = ls_riskFree st.
Proof.
  intros Hb Hc. unfold check_margin in Hc.
  assert (Hmc : ∀ e a a' k' err, checkAndHandleMarginCall ((λ h, h e) <$> st_OnMarginCall (lv_strategy cfg)) (lv_middleware cfg) woke a (ls_broker st)
      = (a', k', err) → trades a a').
  { intros e a a' k' err Ec. pose proof (checkAndHandleMarginCall_trades ((λ h, h e) <$> st_OnMarginCall (lv_strategy cfg))
      (lv_middleware cfg) woke a (ls_broker st) (lb_middleware _ _ Hb)) as Ht. by rewrite Ec in Ht. }
  destruct (held_assets _) as [|x assets].
  - destruct (checkAndHandleMarginCall _ _ _ _ _) as [[a k] err] eqn:Ec. injection Hc as <-. split; [|done].
    intros Hat. split; [exact Hat|]. exact (Hmc _ _ _ _ _ Ec).
  - destruct (engine_FetchAt _ _ _ _ _) as [[e [df|err]]|] eqn:Ef; [| |done]; apply FetchAt_clock in Ef.
    + destruct (checkAndHandleMarginCall _ _ _ _ _) as [[a k] err] eqn:Ec. injection Hc as <-. split; [|done]. intros Hat.
      split; [by apply (at_firing_same woke (ls_engine st))|]. etrans; [|exact (Hmc _ _ _ _ _ Ec)]. done.
    + injection Hc as <-. split; [|done]. intros Hat. split; [by apply (at_firing_same woke (ls_engine st))|done].
Qed.

(** The strategy fails when it or the execution of its batch reports an error. *)
Definition strategy_failed cfg env woke st : Prop :=
  let s := CancelOpenOrders (mkExec (ls_account st) (env_attach env (ls_engine st) woke (ls_broker st)) None 0) in
  let c := st_Compute (lv_strategy cfg) (ls_mem st) (ls_engine st) [] (es_account s) (NewBatch woke) in
  is_Some (co_err c) ∨ is_Some (ExecuteBatch (lv_middleware cfg) (co_account c) (es_broker s) (co_batch c)).2.

Lemma run_strategy_spec cfg env woke st : live_behaved cfg env →
  desk_trades woke st (run_strategy cfg env woke st).1 ∧
  ls_riskFree (run_strategy cfg env woke st).1 = ls_riskFree st ∧
  ((run_strategy cfg env woke st).2 = false ↔ strategy_failed cfg env woke st).
Proof.
  intros Hb. unfold run_strategy, strategy_failed.
  set (k := env_attach _ _ _ _). pose proof (CancelOpenOrders_moves (mkExec (ls_account st) k None 0)) as Hc. unfold moves in Hc.
  set (s := CancelOpenOrders _) in *. cbv zeta. set (c := st_Compute _ _ _ _ _ _).
  pose proof (lb_account _ _ Hb (ls_mem st) (ls_engine st) [] (es_account s) (NewBatch woke)) as Ha.
  pose proof (lb_clock _ _ Hb (ls_mem st) (ls_engine st) [] (es_account s) (NewBatch woke)) as Hk. fold c in Ha, Hk.
  assert (Hac : trades (ls_account st) (co_account c)) by (etrans; [exact Hc|exact Ha]).
  destruct (co_err c); cbn [fst snd].
  - split; [intros Hat; split; [by apply (at_firing_same woke (ls_engine st))|done]|]. split; [done|]. split; [by left; eexists|done].
  - pose proof (ExecuteBatch_trades (lv_middleware cfg) (co_account c) (es_broker s) (co_batch c) (lb_middleware _ _ Hb)) as He.
    destruct (ExecuteBatch _ _ _ _) as [[[a' k'] b'] err]. cbn [fst snd] in He |- *. split.
    + intros Hat. split; [by apply (at_firing_same woke (ls_engine st))|]. by etrans.
    + split; [done|]. destruct err; split; try done; [by right; eexists|by intros [[? ?]|[? ?]]].
Qed.

Lemma fetch_prices_row cfg env woke assets n i e e' r :
  live_behaved cfg env → at_firing woke e → fetch_prices fuel n i env e assets woke = Some (e', r) →
  at_firing woke e' ∧ ∀ df, r = Ok df → df_times df = [] ∨ df_times df = [woke].
Proof.
  intros Hb. revert i e. induction n as [|n IH]; intros i e Hat; cbn [fetch_prices]; [by intros [= <- <-]|].
  destruct (engine_FetchAt _ _ _ _ _) as [[e1 [df|err]]|] eqn:Ef; [| |done]; pose proof (FetchAt_clock _ _ _ _ _ _ _ Ef) as Hs.
  - intros [= <- <-]. split; [by apply (at_firing_same woke e)|]. intros df' [= <-]. destruct Hat as (Hp & Ht & Hd).
    eapply (FetchAt_one_row fuel e assets woke); [done|congruence|]. unfold run_FetchAt. rewrite Ef. reflexivity.
  - destruct (env_wait env i e1) as [e2|] eqn:Ew; [|done]. apply IH.
    apply (at_firing_same woke e1); [by apply (at_firing_same woke e)|by apply (lb_wait _ _ Hb _ _ _ Ew)].
Qed.

Lemma live_risk_free_same e dgs woke c e' c' : live_risk_free fuel e dgs woke c = Some (e', c') → same_clock e e'.
Proof.
  unfold live_risk_free. destruct (negb _); [by intros [= <- _]|].
  destruct (engine_FetchAt _ _ _ _ _) as [[e1 [df|err]]|] eqn:Ef; [| |done]; apply FetchAt_clock in Ef; cbv zeta.
  - intros [= <- _]. etrans; [exact Ef|]. by destruct (is_nan _).
  - by intros [= <- _].
Qed.

(** The prices of the close cannot be had, in all attempts, or nobody has any. *)
Definition no_prices env assets woke : Prop :=
  ∃ e e' r, fetch_prices fuel priceAttempts 0 env e assets woke = Some (e', r) ∧ ∀ df, r = Ok df → df_times df = [].


(** The close marks what the account holds: with the frame that was fetched, or
    not at all. *)
Lemma close_live_spec cfg env woke st st' :
  live_behaved cfg env → at_firing woke (ls_engine st) → close_live fuel cfg env woke st = Some st' →
  at_firing woke (ls_engine st') ∧ ls_mem st' = ls_mem st ∧
  ∃ a, history a = mkHistory (perfData (history (ls_account st))) (positionMV (history (ls_account st)))
                    (positionQty (history (ls_account st))) (benchmark (history (ls_account st))) (riskFreeValue (history a)) ∧
    ledger a = ledger (ls_account st) ∧
    ((∃ df, ls_account st' = UpdatePrices df a ∧ (df_times df = [] ∨ df_times df = [woke]) ∧
        (df_times df = [] → ∃ x assets, no_prices env (x :: assets) woke)) ∨
     ls_account st' = a ∧ ∃ x assets, no_prices env (x :: assets) woke).
Proof.
  intros Hb Hat Hc. unfold close_live in Hc.
  destruct (live_risk_free _ _ _ _ _) as [[e c]|] eqn:Er; [|done].
  apply live_risk_free_same, (at_firing_same woke _ _ Hat) in Er.
  set (a := SetRiskFreeValue c (ls_account st)) in *.
  destruct (with_benchmark _ _) as [|x assets].
  - injection Hc as <-. split; [exact Er|]. split; [done|]. exists a. split; [done|]. split; [done|]. left. cbn [ls_account].
    eexists. split; [reflexivity|]. split; [by right|done].
  - destruct (fetch_prices _ _ _ _ _ _ _) as [[e' r]|] eqn:Ef; [|done].
    destruct (fetch_prices_row _ _ _ _ _ _ _ _ _ Hb Er Ef) as [Hat' Hrow].
    destruct r as [df|err]; injection Hc as <-; (split; [exact Hat'|]); (split; [done|]); exists a; (split; [done|]); (split; [done|]); cbn [ls_account].
    + left. exists df. split; [done|]. split; [by apply Hrow|]. intros Hn. exists x, assets, e, e', (Ok df). split; [exact Ef|]. by intros df' [= <-].
    + right. split; [done|]. exists x, assets, e, e', (Err err). by split.
Qed.

(** A step of the loop falls into the settling and the margin check, the
    strategy, and the close. *)
Record step_parts cfg env woke wake st st' (st2 st3 : LiveState F B S) (goes_on : bool) : Prop := mkParts {
  sp_margin : check_margin fuel cfg woke (settle_broker env woke (put_desk (set_clock woke woke (ls_engine st)) (ls_account st) (ls_broker st) st)) = Some st2;
  sp_strategy : (if wk_isStrategy wake then run_strategy cfg env woke st2 else (st2, true)) = (st3, goes_on);
  sp_close : if goes_on && wk_isDaily wake then close_live fuel cfg env woke st3 = Some st' else st' = st3;
  sp_before : at_firing woke (ls_engine st2) ∧ ls_mem st2 = ls_mem st;
  sp_after : at_firing woke (ls_engine st3) ∧ trades (ls_account st) (ls_account st3) ∧ ls_riskFree st3 = ls_riskFree st;
  sp_failed : goes_on = false ↔ wk_isStrategy wake = true ∧ strategy_failed cfg env woke st2;
}.

Lemma live_step_parts cfg env woke wake st st' :
  live_behaved cfg env → predicting (ls_engine st) = false → live_step fuel cfg env woke wake st = Some st' →
  ∃ st2 st3 goes_on, step_parts cfg env woke wake st st' st2 st3 goes_on.
Proof.
  intros Hb Hp Hs. unfold live_step in Hs.
  set (st0 := put_desk _ _ _ _) in *. assert (Hat0 : at_firing woke (ls_engine st0)) by done.
  destruct (settle_broker_trades env woke st0 Hat0) as [Hat1 T1].
  destruct (check_margin _ _ _ _) as [st2|] eqn:Ec; [|done].
  destruct (check_margin_trades _ _ _ _ _ Hb Ec) as (Hdesk & Em & Erf). destruct (Hdesk Hat1) as [Hat2 T2].
  assert (T02 : trades (ls_account st) (ls_account st2)) by (by etrans).
  assert (E0 : ls_riskFree (settle_broker env woke st0) = ls_riskFree st ∧ ls_mem (settle_broker env woke st0) = ls_mem st).
  { unfold settle_broker. by destruct (env_Transactions _ _ _) as [? []]. }
  destruct E0 as [Er0 Em0]. rewrite Er0 in Erf. rewrite Em0 in Em.
  destruct (wk_isStrategy wake) eqn:Ew.
  - destruct (run_strategy_spec cfg env woke st2 Hb) as (Hd & Er & Hf). destruct (Hd Hat2) as [Ha3 T3].
    destruct (run_strategy cfg env woke st2) as [st3 g] eqn:E3. cbn [fst snd] in *. exists st2, st3, g. split; rewrite ?Ew.
    + exact Ec.
    + exact E3.
    + destruct (g && wk_isDaily wake); [done|by injection Hs].
    + done.
    + split; [done|]. split; [by etrans|congruence].
    + rewrite Hf. naive_solver.
  - exists st2, st2, true. split; rewrite ?Ew; try done.
    + cbn [andb] in Hs |- *. destruct (wk_isDaily wake); [done|by injection Hs].
    + split; [done|]. intros [??]. done.
Qed.


(** An error of the strategy at the close leaves the day without a row. *)
Lemma live_error_skips_mark cfg env woke wake st st' :
  live_behaved cfg env → predicting (ls_engine st) = false → wk_isStrategy wake = true →
  (∀ m e vs a b, co_err (st_Compute (lv_strategy cfg) m e vs a b) ≠ None) →
  live_step fuel cfg env woke wake st = Some st' → curve (ls_account st') = curve (ls_account st).
Proof.
  intros Hb Hp Hw Herr Hs. destruct (live_step_parts _ _ _ _ _ _ Hb Hp Hs) as (st2 & st3 & go_on & [_ _ E4 _ (_ & T3 & _) Hgo]).
  assert (go_on = false) as ->. { apply Hgo. split; [done|]. left. apply not_eq_None_Some, Herr. }
  cbn in E4. subst st'. unfold curve. by rewrite (tr_history _ _ T3).
Qed.

(** ** The loop *)
Context (calls : S → list Call).

(** The call a step makes, and the rows it may add. *)
Definition calls_at cfg woke wake : list Call :=
  if wk_isStrategy wake then [mkCall (st_Name (lv_strategy cfg)) woke woke woke] else [].
Definition rows_at woke wake : list Time := if wk_isDaily wake then [woke] else [].

Lemma run_strategy_calls cfg env woke st :
  observed calls (lv_strategy cfg) → at_firing woke (ls_engine st) →
  calls (ls_mem (run_strategy cfg env woke st).1) = calls (ls_mem st) ++ [mkCall (st_Name (lv_strategy cfg)) woke woke woke].
Proof.
  intros Hob (_ & Ht & Hd). unfold run_strategy. set (s := CancelOpenOrders _). set (c := st_Compute _ _ _ _ _ _).
  pose proof (ob_calls _ _ Hob (ls_mem st) (ls_engine st) [] (es_account s) (NewBatch woke)) as Hc. fold c in Hc. rewrite Ht, Hd in Hc.
  destruct (co_err c); [exact Hc|]. destruct (ExecuteBatch _ _ _ _) as [[[a' k'] b'] err]. exact Hc.
Qed.

Lemma live_step_serves cfg env woke wake st st' :
  live_behaved cfg env → observed calls (lv_strategy cfg) → predicting (ls_engine st) = false →
  live_step fuel cfg env woke wake st = Some st' →
  predicting (ls_engine st') = false ∧ calls (ls_mem st') = calls (ls_mem st) ++ calls_at cfg woke wake ∧
  grows (rows_at woke wake) (ls_account st) (ls_account st').
Proof.
  intros Hb Hob Hp Hs. destruct (live_step_parts _ _ _ _ _ _ Hb Hp Hs) as (st2 & st3 & go_on & [_ E3 E4 [Hat2 Em2] (Hat3 & T3 & _) _]).
  assert (Hcalls : calls (ls_mem st3) = calls (ls_mem st) ++ calls_at cfg woke wake).
  { unfold calls_at. destruct (wk_isStrategy wake); [|injection E3 as <- _; by rewrite Em2, app_nil_r].
    rewrite <-Em2, <-(run_strategy_calls cfg env) by done. by rewrite E3. }
  pose proof (grows_trades _ _ T3) as G3. unfold rows_at. destruct (go_on && wk_isDaily wake) eqn:Eg.
  - apply andb_true_iff in Eg as [_ ->]. destruct (close_live_spec _ _ _ _ _ Hb Hat3 E4) as ([Hp4 _] & Em & a & Eha & Ela & Hm).
    split; [exact Hp4|]. split; [by rewrite Em|]. apply (grows_trans [] [woke] _ _ _ G3).
    assert (Ga : grows [] (ls_account st3) a).
    { split; [exists []; split; [done|]; unfold curve; by rewrite Eha, app_nil_r|by rewrite Ela]. }
    apply (grows_trans [] [woke] _ _ _ Ga). destruct Hm as [(df & -> & Hdf & _)|[-> _]].
    + exact (mark_day_grows df woke a Hdf).
    + apply (grows_weaken [] [woke]); [apply sublist_nil_l|apply grows_refl].
  - subst st'. destruct Hat3 as [Hp3 _]. split; [exact Hp3|]. split; [exact Hcalls|].
    by apply (grows_weaken []); [apply sublist_nil_l|].
Qed.

(** C6. Live trading serves every firing it is awake for, and each exactly
    once.  However the loop runs, it wakes for the next firing of either
    schedule after each look at the clock; its steps call the strategy once at
    each wake-up that is a firing of its schedule, dated the instant the loop
    woke, and at no other, and record a row at most at the wake-ups that close
    a day, all in order.  When the loop sleeps until the wake-up and looks at
    the clock again after the step, the wake-ups follow one another in time,
    and each firing of either schedule from the first look to the last wake-up
    is a wake-up or passed while a step was under way. *)
Theorem live_serves_firings cfg env (firing closing : Time → Prop)
    `{!ScheduleLaws (lv_schedule cfg) firing, !ScheduleLaws (lv_daily cfg) closing} (clock : list (Time * Time)) st st' :
  live_behaved cfg env → observed calls (lv_strategy cfg) → predicting (ls_engine st) = false →
  live_loop fuel cfg env clock st = Some st' →
  ∃ ws, Forall2 (wakes_at firing closing) clock.*1 ws ∧
    calls (ls_mem st') = calls (ls_mem st) ++ mjoin (zip_with (λ c w, calls_at cfg c.2 w) clock ws) ∧
    grows (mjoin (zip_with (λ c w, rows_at c.2 w) clock ws)) (ls_account st) (ls_account st') ∧
    (in_time clock ws →
       StronglySorted (λ w w', t_ns (wk_at w) < t_ns (wk_at w')) ws ∧
       ∀ first stop t, head clock = Some first → last ws = Some stop → firing t ∨ closing t →
         t_ns first.1 < t_ns t <= t_ns (wk_at stop) → t ∈ wk_at <$> ws ∨ passed_over t clock ws).
Proof.
  intros Hb Hob Hp Hl.
  assert (∃ ws, Forall2 (wakes_at firing closing) clock.*1 ws ∧
    calls (ls_mem st') = calls (ls_mem st) ++ mjoin (zip_with (λ c w, calls_at cfg c.2 w) clock ws) ∧
    grows (mjoin (zip_with (λ c w, rows_at c.2 w) clock ws)) (ls_account st) (ls_account st')) as (ws & Hall & Hcalls & Hg).
  { revert st Hp Hl. induction clock as [|[now woke] clock IH]; intros st Hp Hl; cbn [live_loop] in Hl.
    - injection Hl as <-. exists []. split; [constructor|]. split; [by rewrite app_nil_r|apply grows_refl].
    - destruct (next_wake_spec (lv_schedule cfg) (lv_daily cfg) firing closing now) as (w & Ew & Hat). rewrite Ew in Hl.
      destruct (live_step _ _ _ _ _ _) as [st1|] eqn:Es; [|done].
      destruct (live_step_serves _ _ _ _ _ _ Hb Hob Hp Es) as (Hp1 & Hc1 & Hg1).
      destruct (IH st1 Hp1 Hl) as (ws & Hall & Hc & Hg). exists (w :: ws). cbn [fmap list_fmap fst zip_with mjoin list_join snd].
      split; [by constructor|]. split; [by rewrite Hc, Hc1, app_assoc|]. by apply (grows_trans _ _ _ (ls_account st1)). }
  exists ws. split; [exact Hall|]. split; [exact Hcalls|]. split; [exact Hg|]. intros Hin. split.
  - destruct clock as [|first clock]; [apply Forall2_nil_inv_l in Hall as ->; constructor|].
    by destruct (wakes_ahead firing closing (first :: clock) ws first Hall Hin eq_refl).
  - intros first stop t Hf Hs Ht Hr.
    exact (wakes_serve (lv_schedule cfg) (lv_daily cfg) firing closing clock ws first stop t Hall Hin Hf Hs Ht Hr).
Qed.
End Step.

(** ** A live week *)
Section LiveWeek.
Local Existing Instances utc_db stable_sort_slice launch_order canonical_order blank_fmt daily_cron.
Local Instance no_live_pow : NumPow xq := {| fpow := λ x _, x |}.
Abbreviation closes := (Next 10 thanksgiving daily_close).
Abbreviation daily_closes := (market_closes thanksgiving daily_close).

(** A simulated broker with nothing to report; the waits are quiet. *)
Definition quiet : LiveEnv xq (SimulatedBroker xq) :=
  mkEnv (λ _ k, (k, Ok [])) (see 10) (λ _ e, Some e).
Definition live_saver : LiveConfig xq (list Call) := mkLive (saver "live") closes closes zero_asset zero_asset [].
Definition live_start : LiveState xq (SimulatedBroker xq) (list Call) :=
  mkLiveState [] week_engine (holding 1000 0 100) NewSimulatedBroker zero_time (q 0).
Lemma live_saver_behaved : live_behaved live_saver quiet.
Proof. split; [by split|done|by intros n e e' [= <-]|constructor]. Qed.


Abbreviation first_close := (close_on 20053 57600).
Abbreviation second_close := (close_on 20054 57600).
Abbreviation both_wake := (λ t, mkWake t true true).
Definition live_ends (r : option (LiveState xq (SimulatedBroker xq) (list Call))) : list Time * list Call :=
  match r with Some st => (curve (ls_account st), ls_mem st) | None => ([], []) end.
Lemma live_marked (r : option (LiveState xq (SimulatedBroker xq) (list Call))) ts cs :
  live_ends r = (ts, cs) → ts ≠ [] → ∃ st, r = Some st ∧ curve (ls_account st) = ts ∧ ls_mem st = cs.
Proof. destruct r as [st|]; intros [= <- <-]; [by exists st|done]. Qed.

(** Looks at ten in the morning, and a second after the close. *)
Definition two_looks : list (Time * Time) := [(close_on 20053 36000, first_close); (close_on 20053 57601, second_close)].

Lemma live_serves_firings_witness :
  ∃ st', live_loop 10 live_saver quiet two_looks live_start = Some st' ∧
    ∃ ws, Forall2 (wakes_at daily_closes daily_closes) two_looks.*1 ws ∧ wk_at <$> ws = [first_close; second_close] ∧
      ls_mem st' = [mkCall "live" first_close first_close first_close; mkCall "live" second_close second_close second_close] ∧
      grows [first_close; second_close] (ls_account live_start) (ls_account st') ∧
      ∀ t, daily_closes t → t_ns (close_on 20053 36000) < t_ns t <= t_ns second_close →
        t ∈ [first_close; second_close] ∨ passed_over t two_looks ws.
Proof.
  assert (Hr : live_ends (live_loop 10 live_saver quiet two_looks live_start) =
    ([first_close; second_close], [mkCall "live" first_close first_close first_close; mkCall "live" second_close second_close second_close]))
    by (vm_compute; reflexivity).
  destruct (live_marked _ _ _ Hr) as (st' & E & _); [done|]. exists st'. split; [exact E|].
  destruct (live_serves_firings 10 id live_saver quiet daily_closes daily_closes (ScheduleLaws0 := closes_lawful)
    (ScheduleLaws1 := closes_lawful) two_looks live_start st' live_saver_behaved (saver_observed "live") eq_refl E)
    as (ws & Hall & Hcalls & Hg & Hserved).
  assert (Hw : mapM (next_wake closes closes) two_looks.*1 = Some [both_wake first_close; both_wake second_close])
    by (vm_compute; reflexivity).
  pose proof (wakes_of closes closes daily_closes daily_closes (ScheduleLaws0 := closes_lawful) (ScheduleLaws1 := closes_lawful)
    two_looks.*1 _ Hw ws Hall) as ->.
  exists [both_wake first_close; both_wake second_close]. split; [exact Hall|]. split; [done|]. split; [exact Hcalls|]. split; [exact Hg|].
  intros t Ht Hlt. assert (Hin : in_time two_looks [both_wake first_close; both_wake second_close]).
  { split; [by vm_compute|]. split; [by intros ? [= <-]; vm_compute|]. split; [by vm_compute|]. by split. }
  destruct (Hserved Hin) as [_ Hs].
  exact (Hs (close_on 20053 36000, first_close) (both_wake second_close) t eq_refl eq_refl (or_introl Ht) Hlt).
Defined.

End LiveWeek.
