(* ===== verification/UniverseProps.v ===== *)
(** * UniverseProps: who is in the universe, and whose prices a splice shows

    The segments a splice is built of cover every date once, the earliest
    cutoff after the date deciding; the window of a splice shows, for each
    row, the data of the segment that covers the row's time.  The cache of a
    rated universe cannot be observed. *)
From Stdlib Require Import ZArith Lia Sorted.
From stdpp Require Import base list gmap strings sorting.
From S2P Require Import Prelude Num GoTime Asset Period Frame FrameOps Resample Index Universe.
From S2P Require Import Samples FrameProps FrameOpsProps ResampleProps.

(** ** Segments *)
Section Segments.
Context `{GoSort}.
Implicit Types (t asOf : Time) (fb : SplicePeriod).

(** The first fallback of the list whose cutoff is after [asOf]. *)
Definition active_fallback asOf (fbs : list SplicePeriod) : option SplicePeriod :=
  head (keep (λ fb, Before asOf (sp_Before fb)) fbs).

Lemma segments_cover asOf prev (fbs : list SplicePeriod) primary :
  (IsZero prev = true ∨ Before asOf prev = false) → Forall (λ fb, IsZero (sp_Before fb) = false) fbs →
  let '(segs, cutoff) := fallback_segments prev fbs in
  sg_asset <$> head (keep (in_segment asOf) (segs ++ [mkSegment (mk_asset "" primary) cutoff zero_time])) =
  Some (match active_fallback asOf fbs with
        | Some fb => mk_asset "" (sp_Ticker fb)
        | None => mk_asset "" primary
        end).
Proof.
  intros Hprev Hz. revert prev Hprev. induction Hz as [|fb fbs Hfb Hz IH]; intros prev Hprev; cbn [fallback_segments app].
  { rewrite keep_cons. unfold in_segment, active_fallback. cbn [sg_start sg_end].
    replace (negb (IsZero prev) && Before asOf prev) with false
      by (destruct Hprev as [->| ->]; [done|by rewrite andb_false_r]). done. }
  unfold active_fallback. rewrite keep_cons. destruct (fallback_segments (sp_Before fb) fbs) as [segs cutoff] eqn:E.
  cbn [app]. rewrite keep_cons. unfold in_segment at 1. cbn [sg_start sg_end].
  replace (negb (IsZero prev) && Before asOf prev) with false
    by (destruct Hprev as [->| ->]; [done|by rewrite andb_false_r]).
  rewrite Hfb. cbn [negb andb]. destruct (Before asOf (sp_Before fb)) eqn:Eb; cbn [negb]; [done|].
  specialize (IH (sp_Before fb)). rewrite E in IH. apply IH. by right.
Qed.

Lemma active_fallback_sorted asOf (fbs : list SplicePeriod) :
  StronglySorted (λ x y, Before (sp_Before y) (sp_Before x) = false) fbs →
  match active_fallback asOf fbs with
  | Some fb => fb ∈ fbs ∧ Before asOf (sp_Before fb) = true ∧
      ∀ fb', fb' ∈ fbs → Before asOf (sp_Before fb') = true → Before (sp_Before fb') (sp_Before fb) = false
  | None => ∀ fb, fb ∈ fbs → Before asOf (sp_Before fb) = false
  end.
Proof.
  unfold active_fallback. induction 1 as [|fb fbs Hs IH Hfb]; [intros fb []%not_elem_of_nil|].
  rewrite keep_cons. destruct (Before asOf (sp_Before fb)) eqn:E; cbn.
  - split; [left|]. split; [done|]. intros fb' [->|Hin]%elem_of_cons _; [apply Before_irrefl|].
    exact (proj1 (Forall_forall _ _) Hfb fb' Hin).
  - destruct (head (keep _ fbs)) as [fb0|].
    + destruct IH as (Hin & Hb & Hmin). split; [by right|]. split; [done|].
      intros fb' [->|Hin']%elem_of_cons Hb'; [congruence|auto].
    + intros fb' [->|Hin]%elem_of_cons; [done|auto].
Qed.
End Segments.

(** ** Caching *)
Section Rated.
Context {F : Type} `{Num F} `{GoSort} (RatedAssets : string → RatingFilter → Time → result (list Asset)).
Implicit Types (u : ratedUniverse F) (t : Time).

(** What the provider answers at a time, in ticker order. *)
Definition fresh_members u t : list Asset :=
  match RatedAssets (ru_analyst u) (ru_filter u) t with
  | Ok (a :: rest) => sort_slice by_ticker (a :: rest)
  | _ => []
  end.

(** The answers to a sequence of questions. *)
Fixpoint ask u (ts : list Time) : list (list Asset) :=
  match ts with
  | [] => []
  | t :: ts => let '(members, u) := rated_Assets RatedAssets u t in members :: ask u ts
  end.

Definition cache_fresh u : Prop :=
  ∀ k members, ru_cache u !! k = Some members → ∀ t, Unix t = k → fresh_members u t = members.

Lemma rated_Assets_fresh u t :
  (∀ an f t t', Unix t = Unix t' → RatedAssets an f t = RatedAssets an f t') → cache_fresh u →
  (rated_Assets RatedAssets u t).1 = fresh_members u t ∧ cache_fresh (rated_Assets RatedAssets u t).2 ∧
  ru_analyst (rated_Assets RatedAssets u t).2 = ru_analyst u ∧ ru_filter (rated_Assets RatedAssets u t).2 = ru_filter u.
Proof.
  intros Hsec Hc. unfold rated_Assets. destruct (ru_cache u !! Unix t) as [members|] eqn:E.
  { cbn. split; [symmetry; by apply (Hc (Unix t))|done]. }
  unfold fresh_members. destruct (RatedAssets (ru_analyst u) (ru_filter u) t) as [[|a rest]|e] eqn:Er; cbn; try done.
  split; [done|]. split; [|done]. intros k members Hk t' Ht'. cbn in Hk. unfold fresh_members. cbn [ru_analyst ru_filter].
  destruct (decide (k = Unix t)) as [->|Hne].
  - rewrite lookup_insert_eq in Hk. injection Hk as <-. rewrite (Hsec _ _ t' t Ht'), Er. done.
  - rewrite lookup_insert_ne in Hk by done. by apply (Hc k).
Qed.
End Rated.

(** ** Windows of a splice *)

(** The row a test keeps at a position, with the value beside it in any list
    as long. *)
Lemma keep_row {A} (P : A → bool) (l : list A) i x :
  keep P l !! i = Some x →
  ∃ j, l !! j = Some x ∧
    ∀ (C : Type) (k : list C), length k = length l → (keep (λ p : A * C, P p.1) (zip l k)).*2 !! i = k !! j.
Proof.
  revert i. induction l as [|a l IH]; intros i Hi; [done|]. rewrite keep_cons in Hi.
  destruct (P a) eqn:Ea; [destruct i as [|i]; cbn in Hi|].
  - injection Hi as ->. exists 0%nat. split; [done|]. intros C [|c k] Hk; [done|].
    change (zip (x :: l) (c :: k)) with ((x, c) :: zip l k). rewrite keep_cons. cbn [fst]. by rewrite Ea.
  - destruct (IH i Hi) as (j & Hj & Hv). exists (S j). split; [done|]. intros C [|c k] Hk; [done|].
    change (zip (a :: l) (c :: k)) with ((a, c) :: zip l k). rewrite keep_cons. cbn [fst]. rewrite Ea. cbn. apply Hv.
    cbn in Hk. lia.
  - destruct (IH i Hi) as (j & Hj & Hv). exists (S j). split; [done|]. intros C [|c k] Hk; [done|].
    change (zip (a :: l) (c :: k)) with ((a, c) :: zip l k). rewrite keep_cons. cbn [fst]. rewrite Ea. cbn. apply Hv.
    cbn in Hk. lia.
Qed.

(** A row of a concatenation is a row of one of the parts, in every column. *)
Lemma mjoin_lookup_rows {A B C I} (h : A → list B) (g : A → I → list C) (M : list I) (l : list A) k x :
  (∀ f, f ∈ l → ∀ m, m ∈ M → length (h f) = length (g f m)) → mjoin (h <$> l) !! k = Some x →
  ∃ f i, f ∈ l ∧ h f !! i = Some x ∧ ∀ m, m ∈ M → mjoin ((λ f, g f m) <$> l) !! k = g f m !! i.
Proof.
  revert k. induction l as [|f l IH]; intros k Hl Hk; [done|].
  change (mjoin (h <$> f :: l)) with (h f ++ mjoin (h <$> l)) in Hk.
  assert (Hlf : ∀ m, m ∈ M → length (h f) = length (g f m)) by (intros; apply Hl; [left|done]).
  destruct (decide (k < length (h f))%nat) as [Hlt|Hge].
  - rewrite lookup_app_l in Hk by done. exists f, k. split; [left|]. split; [done|]. intros m Hm.
    change (mjoin ((λ f, g f m) <$> f :: l)) with (g f m ++ mjoin ((λ f, g f m) <$> l)).
    rewrite lookup_app_l; [done|]. by rewrite <-Hlf.
  - rewrite lookup_app_r in Hk by lia. destruct (IH _ ltac:(intros; apply Hl; [by right|done]) Hk) as (f' & i & Hin & Hi & Hv).
    exists f', i. split; [by right|]. split; [done|]. intros m Hm.
    change (mjoin ((λ f, g f m) <$> f :: l)) with (g f m ++ mjoin ((λ f, g f m) <$> l)).
    rewrite lookup_app_r by (rewrite <-Hlf by done; lia). rewrite <-Hlf by done. by apply Hv.
Qed.

Lemma elem_of_mjoin_fmap {A B} (h : A → list B) (l : list A) x :
  x ∈ mjoin (h <$> l) ↔ ∃ f, f ∈ l ∧ x ∈ h f.
Proof.
  rewrite list_elem_of_join. setoid_rewrite list_elem_of_fmap. split.
  - intros (? & Hx & f & -> & Hf). eauto.
  - intros (f & Hf & Hx). eauto.
Qed.

Section Splice.
Context {F : Type} `{Num F} `{TZDB} `{GoSort}.
Implicit Types (df raw f : DataFrame F) (t u c now : Time) (s : spliceSegment) (a : Asset).

(** The rows [Between] keeps from [start] to just before [end_]: by date, or by
    instant for intraday rows. *)
Definition inside raw (start end_ : Time) t : bool := from_row raw start t && negb (past_row raw (AddDur end_ (-1)) t).

(** The rows of a segment's frame that belong in the window. *)
Definition covers raw (ws now : Time) s t : bool :=
  let '(start, end_) := segment_bounds ws now s in Before start end_ && inside raw start end_ t.

(** The cutoff [c] separates the rows by instant as it does by date: always so
    for intraday rows, and for daily rows when [c] is a midnight of the days
    the rows are stamped with. *)
Definition clean_cut df c : Prop :=
  ∀ u, u ∈ df_times df →
    from_row df c u = negb (Before u c) ∧ past_row df (AddDur c (-1)) u = negb (Before u c).

Lemma keep_ext {A} (P Q : A → bool) (l : list A) : (∀ x, P x = Q x) → keep P l = keep Q l.
Proof. intros HPQ. induction l as [|x l IH]; [done|]. by rewrite !keep_cons, HPQ, IH. Qed.

(** A nonempty selection has the assets and metrics of its frame. *)
Lemma Between_schema raw start end_ :
  df_err raw = None → (Len (Between raw start end_) =? 0)%nat = false →
  df_err (Between raw start end_) = None ∧ df_assets (Between raw start end_) = df_assets raw ∧
  df_metrics (Between raw start end_) = df_metrics raw ∧
  df_assetIndex (Between raw start end_) = index_assets 0 (df_assets raw) ∅.
Proof.
  intros He. rewrite (Between_slice raw start end_ He). cbn zeta. case_match; [done|]. done.
Qed.

(** What one segment contributes: the rows [P] keeps, under the active name. *)
Definition shows raw s (active : Asset) (P : Time → bool) (M : list Metric) f : Prop :=
  part [active] M f ∧ (0 <? Len f)%nat = true ∧ df_times f = keep P (df_times raw) ∧
  ∀ m, m ∈ M → Column f active m =
    (keep (λ p : Time * F, P p.1) (zip (df_times raw) (Column raw (sg_asset s) m))).*2.

Lemma keep_sorted (P : Time → bool) (l : list Time) :
  StronglySorted (λ u v, Before u v = true) l → StronglySorted (λ u v, Before u v = true) (keep P l).
Proof.
  induction 1 as [|u l Hl IH Hu]; [constructor|]. rewrite keep_cons. destruct (P u); [|done]. constructor; [done|].
  apply Forall_forall. intros v (_ & Hv)%elem_of_keep. by apply (proj1 (Forall_forall _ _) Hu).
Qed.

Lemma relabel_shows raw s active a0 M start end_ :
  part [a0] M raw → CompositeFigi a0 = CompositeFigi (sg_asset s) → NoDup M → chronological raw →
  (Len (Between raw start (AddDur end_ (-1))) =? 0)%nat = false →
  ∃ f, relabelSingle (Between raw start (AddDur end_ (-1))) (sg_asset s) active = Ok f ∧
    shows raw s active (inside raw start end_) M f.
Proof.
  intros Hp Hf HM Hc Hlen. pose proof (part_shape _ _ _ Hp) as Hs.
  pose proof (part_assets _ _ _ Hp) as EA. pose proof (part_metrics _ _ _ Hp) as EM.
  destruct (Between_schema raw start (AddDur end_ (-1)) (fs_err _ Hs) Hlen) as (_ & Ea & Em & _).
  pose proof (Between_shape raw start (AddDur end_ (-1)) Hs) as Hss.
  destruct (Between_rows raw start (AddDur end_ (-1)) Hs Hc) as [Ht Hcol].
  change (df_times (Between raw start (AddDur end_ (-1))) = keep (inside raw start end_) (df_times raw)) in Ht. set (sliced := Between raw start (AddDur end_ (-1))) in *.
  rewrite EA in Ea. rewrite EM in Em.
  assert (Hd : distinct sliced) by (split; [rewrite Ea; apply NoDup_singleton|by rewrite Em]).
  assert (Hdr : distinct raw) by (split; [rewrite EA; apply NoDup_singleton|by rewrite EM]).
  assert (Hcs : ∀ m, m ∈ M → Column sliced (sg_asset s) m =
    (keep (λ p : Time * F, inside raw start end_ p.1) (zip (df_times raw) (Column raw (sg_asset s) m))).*2 ∧
    length (Column sliced (sg_asset s) m) = length (df_times sliced)).
  { intros m Hm. split; [|by apply (length_Column sliced _ a0); rewrite ?Ea, ?Em; [done|done|left|done|done]].
    apply list_elem_of_lookup in Hm as (mi & Hmi).
    rewrite (Column_cell sliced _ a0 m 0 mi), (Column_cell raw _ a0 m 0 mi) by (rewrite ?Ea, ?Em, ?EA, ?EM; done).
    rewrite Em, EM. destruct (lookup_lt_is_Some_2 (df_columns raw) (0 * length M + mi)) as [col Hk].
    { rewrite (fs_columns _ Hs), EA, EM. cbn. apply lookup_lt_Some in Hmi. lia. }
    rewrite (Hcol _ col Hk). by rewrite Hk. }
  unfold relabelSingle. rewrite Ea, bool_decide_eq_true_2 by done. unfold NewDataFrame. rewrite Em.
  rewrite length_fmap. cbn [length Nat.mul]. rewrite Nat.add_0_r.
  replace ((length (df_times sliced) =? 0)%nat && (length M =? 0)%nat) with false by (unfold Len in Hlen; by rewrite Hlen).
  rewrite length_fmap, Nat.eqb_refl. cbn [negb].
  destruct (existsb _ _) eqn:Ex.
  { exfalso. apply existsb_exists in Ex as (col & Hin & Hne). apply list_elem_of_In, list_elem_of_fmap in Hin as (m & -> & Hm).
    destruct (Hcs m Hm) as [_ Hl]. rewrite Hl, Nat.eqb_refl in Hne. done. }
  clear Ex. eexists. split; [reflexivity|]. set (f := build _ _ _ _ _).
  assert (Hfs : frame_shape f).
  { split; cbn; [done|by rewrite length_fmap, Nat.add_0_r| |done]. apply Forall_fmap, Forall_forall. intros m Hm. cbn.
    by apply Hcs. }
  assert (Hfd : distinct f) by (split; [apply NoDup_singleton|done]).
  split; [split; cbn; [done| |done|done|done]|].
  { unfold sorted_times. cbn. rewrite Ht. apply keep_sorted, (part_sorted _ _ _ Hp). }
  split; [unfold Len in *; cbn [df_times f build]; by destruct (df_times sliced)|]. split; [done|].
  intros m Hm. destruct (Hcs m Hm) as [E _]. rewrite <-E. apply list_elem_of_lookup in Hm as (mi & Hmi).
  rewrite (Column_cell f active active m 0 mi) by done. cbn. by rewrite list_lookup_fmap, Hmi.
Qed.

Lemma piece_shows ds lookback metrics ws now active s raw a0 M :
  Fetch ds [sg_asset s] lookback metrics = Ok raw →
  part [a0] M raw → CompositeFigi a0 = CompositeFigi (sg_asset s) → NoDup M → chronological raw →
  ∃ o, splice_piece ds lookback metrics ws now active s = Ok o ∧
    match o with
    | None => keep (covers raw ws now s) (df_times raw) = []
    | Some f => shows raw s active (covers raw ws now s) M f
    end.
Proof.
  intros Hfetch Hp Hf HM Hc. unfold splice_piece, covers. destruct (segment_bounds ws now s) as [start end_].
  destruct (Before start end_) eqn:Eb; cbn [negb andb].
  2:{ exists None. split; [done|]. apply keep_false, Forall_forall. done. }
  rewrite Hfetch. destruct (Len (Between raw start (AddDur end_ (-1))) =? 0)%nat eqn:El.
  { exists None. split; [done|]. destruct (Between_rows raw start (AddDur end_ (-1)) (part_shape _ _ _ Hp) Hc) as [Ht _].
    change (keep (λ t, inside raw start end_ t) (df_times raw) = []). unfold inside. rewrite <-Ht.
    apply Nat.eqb_eq in El. by apply nil_length_inv. }
  destruct (relabel_shows raw s active a0 M start end_ Hp Hf HM Hc El) as (f & -> & Hsh). by exists (Some f).
Qed.

(** ** The segments of a splice do not overlap *)
Definition precedes s s' : Prop :=
  IsZero (sg_end s) = false ∧ IsZero (sg_start s') = false ∧ Before (sg_start s') (sg_end s) = false.

Lemma segments_ordered prev (fbs : list SplicePeriod) primary :
  StronglySorted (λ x y, Before (sp_Before y) (sp_Before x) = false) fbs →
  Forall (λ fb, IsZero (sp_Before fb) = false) fbs → Forall (λ fb, Before (sp_Before fb) prev = false) fbs →
  let '(segs, cutoff) := fallback_segments prev fbs in
  let all := segs ++ [mkSegment (mk_asset "" primary) cutoff zero_time] in
  StronglySorted precedes all ∧
  Forall (λ s, Before (sg_start s) prev = false ∧ (IsZero prev = false → IsZero (sg_start s) = false)) all.
Proof.
  intros Hs Hz. revert prev. induction Hs as [|fb fbs Hs IH Hfb]; intros prev Hprev; cbn [fallback_segments app].
  { split; [repeat constructor|]. constructor; [|done]. cbn. split; [apply Before_irrefl|done]. }
  apply Forall_cons in Hz as [Hzf Hz], Hprev as [Hpf Hprev]. specialize (IH Hz (sp_Before fb) Hfb).
  destruct (fallback_segments (sp_Before fb) fbs) as [segs cutoff]. cbn [app]. destruct IH as [IHs IHb]. split.
  - constructor; [done|]. eapply Forall_impl; [exact IHb|]. intros s [H1' H2']. split; [done|]. split; [auto|done].
  - constructor; [cbn; split; [apply Before_irrefl|done]|]. eapply Forall_impl; [exact IHb|]. intros s [H1' H2'].
    split; [unfold Before in *; lia|auto].
Qed.

Lemma splice_ordered lookup primary (fbs : list SplicePeriod) :
  Forall (λ fb, IsZero (sp_Before fb) = false) fbs →
  StronglySorted precedes (sp_segments (Resolve lookup (NewSplice (F:=F) primary fbs))).
Proof.
  intros Hz. unfold NewSplice. set (sorted := sort_slice _ fbs).
  assert (Hs : StronglySorted (λ x y, Before (sp_Before y) (sp_Before x) = false) sorted).
  { eapply StronglySorted_mono; [|apply sort_slice_sorted]; [intros x y Hxy; exact Hxy| |].
    - unfold Before. intros. lia.
    - intros x y z. apply not_Before_trans. }
  assert (Hz' : Forall (λ fb, IsZero (sp_Before fb) = false) sorted) by (unfold sorted; by rewrite sort_slice_perm).
  clearbody sorted. revert sorted Hs Hz'.
  assert (Hgen : ∀ sorted, StronglySorted (λ x y, Before (sp_Before y) (sp_Before x) = false) sorted →
    Forall (λ fb, IsZero (sp_Before fb) = false) sorted → ∀ prev,
    let '(segs, cutoff) := fallback_segments prev sorted in
    StronglySorted precedes (segs ++ [mkSegment (mk_asset "" primary) cutoff zero_time])).
  { intros sorted Hs Hz' prev. destruct sorted as [|fb fbs']; cbn [fallback_segments app]; [repeat constructor|].
    apply StronglySorted_inv in Hs as [Hs Hfb]. apply Forall_cons in Hz' as [Hzf Hz'].
    pose proof (segments_ordered (sp_Before fb) fbs' primary Hs Hz' Hfb) as Ho.
    destruct (fallback_segments (sp_Before fb) fbs') as [segs cutoff]. destruct Ho as [Ho Hb]. cbn [app]. constructor; [done|].
    eapply Forall_impl; [exact Hb|]. intros s [H1' H2']. split; [done|]. split; [auto|done]. }
  intros sorted Hs Hz'. specialize (Hgen sorted Hs Hz' zero_time).
  destruct (fallback_segments zero_time sorted) as [segs cutoff]. unfold Resolve, sp_segments. cbn [sp_fallbacks sp_primary].
  change [resolve_segment lookup (mkSegment (mk_asset "" primary) cutoff zero_time)] with
    (resolve_segment lookup <$> [mkSegment (mk_asset "" primary) cutoff zero_time]).
  rewrite <-fmap_app. induction Hgen as [|s segs' Hs' IH Hb]; [constructor|]. cbn. constructor; [done|].
  apply Forall_fmap. exact Hb.
Qed.

(** Rows of two segments with rows in the window are in the segments' order. *)
Lemma covers_disjoint raw raw' ws now s s' t t' :
  precedes s s' → clean_cut raw (sg_end s) → clean_cut raw' (sg_start s') →
  t ∈ df_times raw → t' ∈ df_times raw' → covers raw ws now s t = true → covers raw' ws now s' t' = true →
  Before t t' = true.
Proof.
  intros (He & Hst & Hle) Hc Hc' Ht Ht'. unfold covers, segment_bounds, inside. rewrite He, Hst. cbn [orb].
  destruct (Before now (sg_end s)) eqn:E1, (Before (sg_start s') ws) eqn:E2; rewrite !andb_true_iff, !negb_true_iff.
  1,2,3: intros [Hb1 _] [Hb2 _]; exfalso; repeat case_match; unfold Before in *; lia.
  intros [Hb1 [_ Hp]] [Hb2 [Hf _]]. destruct (Hc t Ht) as [_ Hcp], (Hc' t' Ht') as [Hcf _].
  rewrite Hcp in Hp. rewrite Hcf in Hf. unfold Before in *. lia.
Qed.

(** What the window is made of. *)
Lemma pieces_spec (piece : spliceSegment → result (option (DataFrame F))) (raw : Asset → DataFrame F) ws now active M
    (segs : list spliceSegment) :
  (∀ s, s ∈ segs → ∃ o, piece s = Ok o ∧
     match o with
     | None => keep (covers (raw (sg_asset s)) ws now s) (df_times (raw (sg_asset s))) = []
     | Some f => shows (raw (sg_asset s)) s active (covers (raw (sg_asset s)) ws now s) M f
     end) →
  ∃ ps : list (spliceSegment * DataFrame F), splice_pieces piece segs = Ok ps.*2 ∧ ps.*1 `sublist_of` segs ∧
    Forall (λ p, shows (raw (sg_asset p.1)) p.1 active (covers (raw (sg_asset p.1)) ws now p.1) M p.2) ps ∧
    ∀ s t, s ∈ segs → t ∈ df_times (raw (sg_asset s)) → covers (raw (sg_asset s)) ws now s t = true → s ∈ ps.*1.
Proof.
  induction segs as [|s segs IH]; intros Hp.
  { exists []. split; [done|]. split; [constructor|]. split; [constructor|]. intros s t []%not_elem_of_nil. }
  destruct IH as (ps & Hps & Hsub & Hsh & Hall); [intros; apply Hp; by right|].
  destruct (Hp s) as (o & Ho & Hspec); [left|]. cbn [splice_pieces]. rewrite Ho, Hps. cbn [mbind result_bind].
  destruct o as [f|].
  - exists ((s, f) :: ps). split; [done|]. split; [cbn; by constructor|]. split; [by constructor|].
    intros s' t [->|Hin]%elem_of_cons Ht Hc; [left|right; by eapply Hall].
  - exists ps. split; [done|]. split; [by constructor|]. split; [done|].
    intros s' t [->|Hin]%elem_of_cons Ht Hc; [exfalso|by eapply Hall].
    assert (Hk : t ∈ keep (covers (raw (sg_asset s)) ws now s) (df_times (raw (sg_asset s)))) by (by apply elem_of_keep).
    rewrite Hspec in Hk. by apply not_elem_of_nil in Hk.
Qed.
End Splice.

Lemma StronglySorted_sublist {A} (R : relation A) (l k : list A) :
  l `sublist_of` k → StronglySorted R k → StronglySorted R l.
Proof.
  induction 1 as [|x l k Hlk IH|x l k Hlk IH]; intros Hs; [done| |].
  - apply StronglySorted_inv in Hs as [Hs Hx]. constructor; [auto|].
    apply Forall_forall. intros y Hy. apply (proj1 (Forall_forall _ _) Hx). exact (elem_of_submseteq _ _ _ Hy (sublist_submseteq _ _ Hlk)).
  - apply StronglySorted_inv in Hs as [Hs _]. auto.
Qed.

Section Overlaps.
Context {F : Type} `{Num F} `{TZDB} `{GoSort}.
Implicit Types (f g : DataFrame F) (t : Time) (s : spliceSegment).

Lemma Start_elem f : (0 <? Len f)%nat = true → Start f ∈ df_times f ∧ End f ∈ df_times f.
Proof.
  intros (u & Hu)%Len_pos. split; [rewrite (Start_lookup _ _ Hu); by eapply list_elem_of_lookup_2|].
  destruct (lookup_lt_is_Some_2 (df_times f) (length (df_times f) - 1)%nat) as [e He]; [apply lookup_lt_Some in Hu; lia|].
  rewrite (End_lookup _ _ _ He); [by eapply list_elem_of_lookup_2|apply lookup_lt_Some in Hu; lia].
Qed.

Definition row_of (raw : Asset → DataFrame F) ws now active M (p : spliceSegment * DataFrame F) : Prop :=
  shows (raw (sg_asset p.1)) p.1 active (covers (raw (sg_asset p.1)) ws now p.1) M p.2.

Lemma shows_covers raw ws now active M p t :
  row_of raw ws now active M p → t ∈ df_times p.2 →
  covers (raw (sg_asset p.1)) ws now p.1 t = true ∧ t ∈ df_times (raw (sg_asset p.1)).
Proof. by intros (_ & _ & -> & _) ?%elem_of_keep. Qed.

(** The cutoffs of a segment cut its frame cleanly. *)
Definition clean_segment (raw : Asset → DataFrame F) s : Prop :=
  clean_cut (raw (sg_asset s)) (sg_start s) ∧ clean_cut (raw (sg_asset s)) (sg_end s).

Lemma pieces_no_overlap raw ws now active M (ps : list (spliceSegment * DataFrame F)) i j f g :
  Forall (row_of raw ws now active M) ps → Forall (clean_segment raw) ps.*1 → StronglySorted precedes ps.*1 →
  i ≠ j → ps.*2 !! i = Some f → ps.*2 !! j = Some g → ¬ overlapping f g.
Proof.
  intros Hps Hcl Hs.
  assert (Hlt : ∀ i j f g, (i < j)%nat → ps.*2 !! i = Some f → ps.*2 !! j = Some g → Before (End f) (Start g) = true).
  { clear i j f g. intros i j f g Hij Hi Hj. rewrite list_lookup_fmap in Hi, Hj.
    destruct (ps !! i) as [[s f']|] eqn:Ei; [|done]. destruct (ps !! j) as [[s' g']|] eqn:Ej; [|done].
    cbn in Hi, Hj. simplify_eq. pose proof (Forall_lookup_1 _ _ _ _ Hps Ei) as Hf. pose proof (Forall_lookup_1 _ _ _ _ Hps Ej) as Hg.
    assert (Hpre : precedes s s').
    { apply (sorted_lookup_lt precedes ps.*1 i j); [done|done| |]; by rewrite list_lookup_fmap, ?Ei, ?Ej. }
    pose proof (proj2 (Start_elem f (proj1 (proj2 Hf)))) as He. pose proof (proj1 (Start_elem g (proj1 (proj2 Hg)))) as Hst.
    destruct (shows_covers _ _ _ _ _ _ _ Hf He) as [Hce Hte]. destruct (shows_covers _ _ _ _ _ _ _ Hg Hst) as [Hcs Hts].
    assert (Hcl' : ∀ p, p ∈ ps → clean_segment raw p.1) by (intros p Hp; apply (proj1 (Forall_forall _ _) Hcl); by apply list_elem_of_fmap_2).
    eapply covers_disjoint; [exact Hpre| | |exact Hte|exact Hts|exact Hce|exact Hcs];
      [apply (Hcl' (s, f))|apply (Hcl' (s', g))]; by eapply list_elem_of_lookup_2. }
  intros Hij Hi Hj [Ho1 Ho2]. destruct (decide (i < j)%nat) as [Hl|Hg].
  - by rewrite (Hlt i j f g) in Ho1.
  - rewrite (Hlt j i g f) in Ho2; [done|lia|done|done].
Qed.
End Overlaps.

Section Properties.
Context {F : Type} `{Num F} `{TZDB} `{GoSort}.
Implicit Types (t : Time).

(** The earliest cutoff after a date decides who is in the splice.  For
    any fallbacks with real cutoffs, in any order, the asset of a date is the
    fallback with the least cutoff strictly after it, and the primary when no
    cutoff is after it. *)
Theorem Splice_membership lookup primary (fbs : list SplicePeriod) asOf :
  Forall (λ fb, IsZero (sp_Before fb) = false) fbs →
  let u := Resolve lookup (NewSplice (F:=F) primary fbs) in
  (∃ fb, fb ∈ fbs ∧ Before asOf (sp_Before fb) = true ∧ splice_Assets u asOf = [lookup (sp_Ticker fb)] ∧
     ∀ fb', fb' ∈ fbs → Before asOf (sp_Before fb') = true → Before (sp_Before fb') (sp_Before fb) = false) ∨
  ((∀ fb, fb ∈ fbs → Before asOf (sp_Before fb) = false) ∧ splice_Assets u asOf = [lookup primary]).
Proof.
  intros Hz. cbn zeta. unfold NewSplice. set (sorted := sort_slice _ fbs).
  assert (Hperm : sorted ≡ₚ fbs) by apply sort_slice_perm.
  assert (Hs : StronglySorted (λ x y, Before (sp_Before y) (sp_Before x) = false) sorted).
  { eapply StronglySorted_mono; [|apply sort_slice_sorted]; [intros x y Hxy; exact Hxy| |].
    - unfold Before. intros. lia.
    - intros x y z. apply not_Before_trans. }
  assert (Hz' : Forall (λ fb, IsZero (sp_Before fb) = false) sorted) by (by rewrite Hperm).
  pose proof (segments_cover asOf zero_time sorted primary (or_introl eq_refl) Hz') as Hc.
  pose proof (active_fallback_sorted asOf sorted Hs) as Ha.
  destruct (fallback_segments zero_time sorted) as [segs cutoff].
  assert (E : splice_Assets (F:=F) (Resolve lookup (mkSplice segs (mkSegment (mk_asset "" primary) cutoff zero_time) None)) asOf =
    [lookup (match active_fallback asOf sorted with Some fb => sp_Ticker fb | None => primary end)]).
  { unfold splice_Assets, segmentFor, sp_segments, Resolve. cbn [sp_fallbacks sp_primary].
    change [resolve_segment lookup (mkSegment (mk_asset "" primary) cutoff zero_time)] with
      (resolve_segment lookup <$> [mkSegment (mk_asset "" primary) cutoff zero_time]). rewrite <-fmap_app.
    assert (Hk : ∀ l, keep (in_segment asOf) (resolve_segment lookup <$> l) = resolve_segment lookup <$> keep (in_segment asOf) l).
    { intros l. induction l as [|s l IH]; [done|]. rewrite fmap_cons, !keep_cons, IH.
      change (in_segment asOf (resolve_segment lookup s)) with (in_segment asOf s). by destruct (in_segment asOf s). }
    rewrite Hk. destruct (head (keep (in_segment asOf) _)) as [s|] eqn:Eh; cbn in Hc; [|done]. injection Hc as Hc.
    destruct (keep (in_segment asOf) _) as [|s' l]; [done|]. cbn in Eh. injection Eh as ->. cbn. rewrite Hc.
    by destruct (active_fallback asOf sorted). }
  rewrite E. destruct (active_fallback asOf sorted) as [fb|].
  - left. destruct Ha as (Hin & Hb & Hmin). exists fb. rewrite <-Hperm. split; [done|]. split; [done|]. split; [done|].
    intros fb' Hin'. rewrite <-Hperm in Hin'. by apply Hmin.
  - right. split; [|done]. intros fb Hin. rewrite <-Hperm in Hin. by apply Ha.
Qed.

(** The cache of a rated universe is invisible.  For a provider whose
    answer depends on the time to the second, any sequence of questions to a
    new rated universe is answered as if each were put to the provider and
    sorted by ticker; an error, or no asset at all, answers nothing and is not
    remembered. *)
Theorem Rated_cache_invisible (RatedAssets : string → RatingFilter → Time → result (list Asset))
    (analyst : string) (filter : RatingFilter) (ts : list Time) :
  (∀ an f t t', Unix t = Unix t' → RatedAssets an f t = RatedAssets an f t') →
  let u := NewRated (F:=F) analyst filter in
  ask RatedAssets u ts = fresh_members RatedAssets u <$> ts ∧
  ∀ t, fresh_members RatedAssets u t ≡ₚ match RatedAssets analyst filter t with Ok members => members | Err _ => [] end.
Proof.
  intros Hsec. cbn zeta. split.
  - assert (Hgen : ∀ u : ratedUniverse F, cache_fresh RatedAssets u →
      ask RatedAssets u ts = fresh_members RatedAssets u <$> ts).
    { induction ts as [|t ts IH]; intros u Hc; [done|]. cbn [ask].
      destruct (rated_Assets_fresh RatedAssets u t Hsec Hc) as (E1 & Hc' & Ea & Ef).
      destruct (rated_Assets RatedAssets u t) as [members u']. cbn in *. rewrite E1, IH by done. f_equal.
      apply list_fmap_ext. intros i t' _. unfold fresh_members. by rewrite Ea, Ef. }
    apply Hgen. intros k members. cbn. by rewrite lookup_empty.
  - intros t. unfold fresh_members. cbn. destruct (RatedAssets analyst filter t) as [[|a rest]|e]; [done| |done].
    apply sort_slice_perm.
Qed.

(** What the window needs of the data source: for each segment a well-formed
    frame of its asset, whose rows the cutoffs of the segment cut cleanly. *)
Record segment_source (ds : DataSource F) (lookback : Period) (metrics M : list Metric)
    (raw : Asset → DataFrame F) (s : spliceSegment) : Prop := {
  src_fetch : Fetch ds [sg_asset s] lookback metrics = Ok (raw (sg_asset s));
  src_part : ∃ a0, part [a0] M (raw (sg_asset s)) ∧ CompositeFigi a0 = CompositeFigi (sg_asset s);
  src_chronological : chronological (raw (sg_asset s));
  src_clean : clean_segment raw s;
}.

Lemma merged_pieces (raw : Asset → DataFrame F) ws now active M (ps : list (spliceSegment * DataFrame F)) :
  Forall (row_of raw ws now active M) ps → Forall (clean_segment raw) ps.*1 → StronglySorted precedes ps.*1 →
  NoDup M → ps ≠ [] →
  ∃ r, MergeTimes ps.*2 = Ok r ∧ (frame_shape r ∧ sorted_times r ∧ df_assets r = [active]) ∧
    ∃ sorted, sorted ≡ₚ ps.*2 ∧ df_times r = mjoin (df_times <$> sorted) ∧
      ∀ m, m ∈ M → Column r active m = mjoin ((λ f, Column f active m) <$> sorted).
Proof.
  intros Hps Hcl Hs HM Hne.
  assert (Hparts : Forall (part [active] M) ps.*2) by (apply Forall_fmap; eapply Forall_impl; [exact Hps|]; intros p Hp; apply Hp).
  assert (Hfull : keep (λ f, (0 <? Len f)%nat) ps.*2 = ps.*2).
  { apply keep_all, Forall_fmap. eapply Forall_impl; [exact Hps|]. intros p Hp. apply Hp. }
  destruct ps as [|[s f] [|p2 ps]]; [done| |].
  { exists f. split; [done|]. split; [apply Forall_inv in Hparts; split_and!; apply Hparts|]. exists [f]. split; [done|].
    split; [cbn; by rewrite app_nil_r|]. intros m _. cbn. by rewrite app_nil_r. }
  set (ps' := (s, f) :: p2 :: ps) in *. assert (HA : NoDup (CompositeFigi <$> [active])) by apply NoDup_singleton.
  destruct (MergeTimes_spec [active] M ps'.*2 Hparts HA HM) as (sorted & Hperm & Hr); [rewrite Hfull; cbn; lia|].
  rewrite Hfull in Hperm. destruct (MergeTimes ps'.*2) as [r|e].
  - exists r. split; [done|]. destruct Hr as (Hshape & Htimes & HAr & _ & Hrows & Hcols). split; [done|].
    exists sorted. split; [done|]. split; [done|]. intros m Hm. apply Hcols; [left|done].
  - exfalso. destruct Hr as (i & j & f1 & f2 & Hij & Hi & Hj & Hov).
    apply Permutation_inj in Hperm as (_ & g & Hinj & Hg). rewrite Hg in Hi, Hj.
    eapply (pieces_no_overlap raw ws now active M ps' (g i) (g j) f1 f2); try done.
    intros E. apply Hinj in E. lia.
Qed.

(** The window of a splice.  When the data source has a well-formed
    frame for each segment's asset and the cutoffs separate its rows cleanly,
    [Window] is not an error.  The rows it returns are exactly the rows of the
    segments' frames that fall, by date, in the segment's part of the window;
    they are in order of time, all under the name of the asset active now, and
    each shows the values of its segment's own asset. *)
Theorem Splice_window format_date lookup primary (fbs : list SplicePeriod) ds lookback metrics M (raw : Asset → DataFrame F) :
  Forall (λ fb, IsZero (sp_Before fb) = false) fbs → NoDup M →
  let u := splice_SetDataSource (Resolve lookup (NewSplice primary fbs)) ds in
  let now := source_CurrentDate ds in
  let ws := period_Before lookback now in
  let active := sg_asset (segmentFor u now) in
  Forall (segment_source ds lookback metrics M raw) (sp_segments u) →
  ∃ r, splice_Window format_date u lookback metrics = Ok r ∧
    (∀ t, t ∈ df_times r ↔
       ∃ s, s ∈ sp_segments u ∧ t ∈ df_times (raw (sg_asset s)) ∧ covers (raw (sg_asset s)) ws now s t = true) ∧
    (df_times r ≠ [] → frame_shape r ∧ sorted_times r ∧ df_assets r = [active] ∧
       ∀ k t, df_times r !! k = Some t →
         ∃ s i, s ∈ sp_segments u ∧ covers (raw (sg_asset s)) ws now s t = true ∧ df_times (raw (sg_asset s)) !! i = Some t ∧
           ∀ m, m ∈ M → Column r active m !! k = Column (raw (sg_asset s)) (sg_asset s) m !! i).
Proof.
  intros Hz HM. cbn zeta. set (u := splice_SetDataSource _ ds). set (now := source_CurrentDate ds).
  set (ws := period_Before lookback now). set (active := sg_asset (segmentFor u now)). intros Hsrc.
  assert (Hord : StronglySorted precedes (sp_segments u)) by exact (splice_ordered lookup primary fbs Hz).
  rewrite Forall_forall in Hsrc.
  destruct (pieces_spec (splice_piece ds lookback metrics ws now active) raw ws now active M (sp_segments u))
    as (ps & Hps & Hsub & Hsh & Hall).
  { intros s Hin. destruct (Hsrc s Hin) as [Hf (a0 & Hp & Hfigi) Hc _]. by eapply piece_shows. }
  change (Forall (row_of raw ws now active M) ps) in Hsh.
  assert (Hpsord : StronglySorted precedes ps.*1) by (eapply StronglySorted_sublist; done).
  assert (Hpscl : Forall (clean_segment raw) ps.*1).
  { apply Forall_forall. intros s Hin. apply Hsrc. exact (elem_of_submseteq _ _ _ Hin (sublist_submseteq _ _ Hsub)). }
  assert (Hback : ∀ p t, p ∈ ps → t ∈ df_times p.2 →
    p.1 ∈ sp_segments u ∧ t ∈ df_times (raw (sg_asset p.1)) ∧ covers (raw (sg_asset p.1)) ws now p.1 t = true).
  { intros p t Hp Ht. destruct (shows_covers _ _ _ _ _ _ _ (proj1 (Forall_forall _ _) Hsh p Hp) Ht) as [Hc Hin].
    split; [|done]. eapply elem_of_submseteq; [by apply list_elem_of_fmap_2|by apply sublist_submseteq]. }
  assert (Hforth : ∀ s t, s ∈ sp_segments u → t ∈ df_times (raw (sg_asset s)) → covers (raw (sg_asset s)) ws now s t = true →
    ∃ p, p ∈ ps ∧ t ∈ df_times p.2).
  { intros s t Hin Ht Hc. pose proof (Hall s t Hin Ht Hc) as Hs. apply list_elem_of_fmap in Hs as (p & -> & Hp). exists p.
    split; [done|]. destruct (proj1 (Forall_forall _ _) Hsh p Hp) as (_ & _ & -> & _). by apply elem_of_keep. }
  assert (E : splice_Window format_date u lookback metrics =
    splice_pieces (splice_piece ds lookback metrics ws now active) (sp_segments u) ≫= λ pieces,
      match pieces with
      | [] => Ok (WithErr ("splice " +:+ Ticker active +:+ ": no data in window [" +:+
                           format_date ws +:+ ", " +:+ format_date now +:+ "]")%string)
      | _ => MergeTimes pieces
      end) by reflexivity.
  rewrite E, Hps. cbn [mbind result_bind]. clear E.
  destruct (decide (ps = [])) as [->|Hne].
  { cbn. eexists. split; [reflexivity|]. cbn. split; [|done]. intros t. split; [by intros ?%not_elem_of_nil|].
    intros (s & Hin & Ht & Hc). destruct (Hforth s t Hin Ht Hc) as (p & ?%not_elem_of_nil & _). done. }
  destruct (merged_pieces raw ws now active M ps Hsh Hpscl Hpsord HM Hne) as (r & Hr & Hpart & sorted & Hperm & Ht & Hcol).
  assert (Em : match ps.*2 with [] => Ok (WithErr ("splice " +:+ Ticker active +:+ ": no data in window [" +:+
      format_date ws +:+ ", " +:+ format_date now +:+ "]")%string) | _ => MergeTimes ps.*2 end = Ok r).
  { rewrite <-Hr. by destruct ps. }
  exists r. split; [exact Em|]. split.
  - intros t. rewrite Ht, elem_of_mjoin_fmap. split.
    + intros (f & Hf & Htf). rewrite Hperm in Hf. apply list_elem_of_fmap in Hf as (p & -> & Hp). exists p.1. by apply Hback.
    + intros (s & Hin & Hts & Hc). destruct (Hforth s t Hin Hts Hc) as (p & Hp & Htp). exists p.2.
      rewrite Hperm. split; [by apply list_elem_of_fmap_2|done].
  - intros _. split; [apply Hpart|]. split; [apply Hpart|]. split; [apply Hpart|]. intros k t Hk. rewrite Ht in Hk.
    assert (Hlens : ∀ f, f ∈ sorted → ∀ m, m ∈ M → length (df_times f) = length (Column f active m)).
    { intros f Hf m Hm. rewrite Hperm in Hf. apply list_elem_of_fmap in Hf as (p & -> & Hp).
      destruct (proj1 (Forall_forall _ _) Hsh p Hp) as (Hpp & _). symmetry. apply (length_Column _ active active);
        [apply Hpp| | |done|]; rewrite ?(part_assets _ _ _ Hpp), ?(part_metrics _ _ _ Hpp); [|left|done].
      split; [rewrite (part_assets _ _ _ Hpp); apply NoDup_singleton|by rewrite (part_metrics _ _ _ Hpp)]. }
    destruct (mjoin_lookup_rows df_times (λ f m, Column f active m) M sorted k t Hlens Hk) as (f & i & Hf & Hi & Hv).
    rewrite Hperm in Hf. apply list_elem_of_fmap in Hf as (p & -> & Hp).
    pose proof (proj1 (Forall_forall _ _) Hsh p Hp) as (Hpp & _ & Htp & Hcp).
    pose proof (Hback p t Hp (list_elem_of_lookup_2 _ _ _ Hi)) as (Hseg & _ & Hc). rewrite Htp in Hi.
    destruct (Hsrc p.1 Hseg) as [_ (a0 & Hraw & Hfigi) _ _].
    destruct (keep_row (covers (raw (sg_asset p.1)) ws now p.1) (df_times (raw (sg_asset p.1))) i t Hi)
      as (j & Hj & Hcols).
    exists p.1, j. split; [done|]. split; [done|]. split; [done|]. intros m Hm. rewrite (Hcol m Hm), (Hv m Hm), (Hcp m Hm).
    apply Hcols. rewrite (length_Column (raw (sg_asset p.1)) (sg_asset p.1) a0 m); [done|apply Hraw| | |done|].
    + split; [rewrite (part_assets _ _ _ Hraw); apply NoDup_singleton|by rewrite (part_metrics _ _ _ Hraw)].
    + rewrite (part_assets _ _ _ Hraw). left.
    + by rewrite (part_metrics _ _ _ Hraw).
Qed.
End Properties.

(** ** Witnesses *)
Section Witnesses.
Local Existing Instance utc_db.
Local Existing Instance stable_sort_slice.

(** The close of a day, at 16:00. *)
Definition close_at (n : Z) : Time := AddDur (day n) (16 * ns_per_hour).

Definition QLD : Asset := mk_asset "BBG000PT7L22" "QLD".
Definition TQQQ : Asset := mk_asset "BBG000QTG0P9" "TQQQ".
Definition by_name (ticker : string) : Asset := if bool_decide (ticker = "QLD"%string) then QLD else TQQQ.

Definition qld_frame : DataFrame xq :=
  build [close_at 0; close_at 1; close_at 2; close_at 3] [QLD] [MetricClose] Daily [[q 10; q 11; q 12; q 13]].
Definition tqqq_frame : DataFrame xq :=
  build [close_at 2; close_at 3] [TQQQ] [MetricClose] Daily [[q 32; q 33]].
Definition frame_of (a : Asset) : DataFrame xq :=
  if bool_decide (CompositeFigi a = CompositeFigi QLD) then qld_frame else tqqq_frame.

(** A source that has the two frames, on the evening of the fourth day. *)
Definition two_frames : DataSource xq := mkSource
  (λ assets _ _, match assets with a :: _ => Ok (frame_of a) | [] => Err "no asset"%string end)
  (λ assets _ _, match assets with a :: _ => Ok (frame_of a) | [] => Err "no asset"%string end)
  (close_at 3).

(** QLD before the third day. *)
Definition before_listing (c : Time) : list SplicePeriod := [mkSplicePeriod "QLD" c].

Lemma Splice_membership_witness :
  let u := Resolve by_name (NewSplice (F:=xq) "TQQQ" (before_listing (day 2))) in
  Before (close_at 1) (day 2) = true → splice_Assets u (close_at 1) = [QLD].
Proof.
  cbn zeta. intros Hb.
  assert (Hz : Forall (λ fb, IsZero (sp_Before fb) = false) (before_listing (day 2))) by (repeat constructor).
  destruct (Splice_membership (F:=xq) by_name "TQQQ" (before_listing (day 2)) (close_at 1) Hz)
    as [(fb & Hin & _ & Ha & _)|[Hno _]].
  - apply list_elem_of_singleton in Hin as ->. exact Ha.
  - exfalso. specialize (Hno (mkSplicePeriod "QLD" (day 2)) ltac:(left)). cbn [sp_Before] in Hno. congruence.
Defined.

Definition five_stars (an : string) (f : RatingFilter) (t : Time) : result (list Asset) :=
  if Matches f 5 then Ok [TLT; SPY] else Err "no rating"%string.

Lemma Rated_cache_invisible_witness :
  ask five_stars (NewRated (F:=xq) "analyst" (RatingLTE 5)) [day 0; day 1; day 0] = [[SPY; TLT]; [SPY; TLT]; [SPY; TLT]].
Proof.
  assert (Hsec : ∀ an f t t', Unix t = Unix t' → five_stars an f t = five_stars an f t') by done.
  destruct (Rated_cache_invisible (F:=xq) five_stars "analyst" (RatingLTE 5) [day 0; day 1; day 0] Hsec) as [E _].
  rewrite E. vm_compute. reflexivity.
Defined.

Lemma Splice_window_witness :
  let u := splice_SetDataSource (Resolve by_name (NewSplice "TQQQ" (before_listing (day 2)))) two_frames in
  ∃ r, splice_Window (λ _, EmptyString) u (Days 3) [MetricClose] = Ok r ∧
    close_at 1 ∈ df_times r ∧ close_at 3 ∈ df_times r.
Proof.
  cbn zeta.
  assert (Hz : Forall (λ fb, IsZero (sp_Before fb) = false) (before_listing (day 2))) by (repeat constructor).
  assert (HM : NoDup [MetricClose]) by apply NoDup_singleton.
  set (u := splice_SetDataSource (Resolve by_name (NewSplice "TQQQ" (before_listing (day 2)))) two_frames).
  assert (Es : sp_segments u = [mkSegment QLD zero_time (day 2); mkSegment TQQQ (day 2) zero_time]) by (vm_compute; reflexivity).
  assert (Hcut : ∀ (df : DataFrame xq) c,
    forallb (λ t, bool_decide (from_row df c t = negb (Before t c)) && bool_decide (past_row df (AddDur c (-1)) t = negb (Before t c)))
      (df_times df) = true → clean_cut df c).
  { intros df c Hall t Ht. rewrite forallb_forall in Hall. apply list_elem_of_In in Ht. specialize (Hall t Ht).
    apply andb_true_iff in Hall as [H1 H2]. split; by eapply bool_decide_eq_true_1. }
  assert (Hsrc : Forall (segment_source two_frames (Days 3) [MetricClose] [MetricClose] frame_of) (sp_segments u)).
  { rewrite Es. constructor; [|constructor; [|constructor]]; (split; [reflexivity| | |split; apply Hcut; vm_compute; reflexivity]).
    - exists QLD. split; [|reflexivity]. split; [split; [reflexivity|reflexivity|repeat constructor|reflexivity]|repeat constructor|done..].
    - repeat constructor; vm_compute; reflexivity.
    - exists TQQQ. split; [|reflexivity]. split; [split; [reflexivity|reflexivity|repeat constructor|reflexivity]|repeat constructor|done..].
    - repeat constructor; vm_compute; reflexivity. }
  destruct (Splice_window (λ _, EmptyString) by_name "TQQQ" (before_listing (day 2)) two_frames (Days 3) [MetricClose]
    [MetricClose] frame_of Hz HM Hsrc) as (r & Hr & Hrows & _).
  exists r. split; [exact Hr|]. fold u in Hrows. rewrite Es in Hrows.
  assert (Hin : ∀ t (l : list Time), bool_decide (t ∈ l) = true → t ∈ l) by (intros; by eapply bool_decide_eq_true_1).
  split; apply Hrows.
  - exists (mkSegment QLD zero_time (day 2)). split; [left|]. split; [apply Hin; vm_compute; reflexivity|vm_compute; reflexivity].
  - exists (mkSegment TQQQ (day 2) zero_time). split; [right; left|]. split; [apply Hin; vm_compute; reflexivity|vm_compute; reflexivity].
Defined.

(** A cutoff that is not a midnight puts the bar of its day in both parts, and
    the window is an error. *)
Theorem splice_cutoff_within_a_day :
  let u := splice_SetDataSource (Resolve by_name (NewSplice "TQQQ" (before_listing (close_at 2)))) two_frames in
  splice_Window (λ _, EmptyString) u (Days 3) [MetricClose] = Err "MergeTimes: overlapping time ranges"%string.
Proof. vm_compute. reflexivity. Qed.
End Witnesses.
