(* ===== verification/WeightingProps.v ===== *)
(** * WeightingProps: what a selection and a weighting promise

    The ranked selectors mark the best assets of every row and leave the other
    columns alone; equal weighting spreads the allocation over the marks; the
    weightings by a signal are proportional, and sum to one without rounding;
    the risk parity iteration stays on the simplex. *)
From Stdlib Require Import ZArith QArith Qcanon Lia Sorted.
From stdpp Require Import base list gmap strings sorting.
From S2P Require Import Prelude Num GoTime Asset Period Frame FrameOps Resample Batch Index Universe Weighting.
From S2P Require Import Samples FrameProps FrameOpsProps.
Local Open Scope nat_scope.

Section Selectors.
Context {F : Type} `{Num F} `{TZDB}.
Implicit Types (df r : DataFrame F) (a b : Asset) (m : Metric) (t : Time).

(** A value at the time of a row is the cell of its column. *)
Lemma ValueAt_row df a m t i :
  frame_shape df → chronological df → df_times df !! i = Some t →
  ValueAt df a m t = default fnan (Column df a m !! i).
Proof.
  intros Hs Hc Hi. unfold ValueAt, Column. rewrite (fs_err _ Hs).
  rewrite (proj2 (timeIndex_spec df t i Hc)) by eauto. case_match; [|done]. by case_match.
Qed.

(** ** Marks *)
Abbreviation selection := (gmap string (list F)).

Definition mark_all (i : nat) (figis : list string) (sel : selection) : selection :=
  fold_left (λ sel f, mark i f sel) figis sel.

Lemma mark_all_lookup i figis (sel : selection) f :
  mark_all i figis sel !! f =
  (λ col, if decide (f ∈ figis) then <[i := of_Z 1]> col else col) <$> sel !! f.
Proof.
  unfold mark_all. revert sel. induction figis as [|g figis IH]; intros sel; cbn.
  { destruct (sel !! f); cbn; [|done]. by rewrite decide_False by set_solver. }
  rewrite IH. unfold mark. destruct (decide (g = f)) as [->|Hne].
  - rewrite lookup_alter_eq. destruct (sel !! f) as [col|]; cbn; [|done]. f_equal.
    rewrite (decide_True (P := f ∈ f :: figis)) by set_solver.
    case_decide; [|done]. by rewrite list_insert_insert_eq.
  - rewrite lookup_alter_ne by done. destruct (sel !! f) as [col|]; cbn; [|done]. f_equal.
    destruct (decide (f ∈ figis)); [rewrite decide_True by set_solver|rewrite decide_False by set_solver]; done.
Qed.

(** Marking row after row: a cell is one when its row marks the identifier. *)
Lemma mark_rows (W : Time → list string) k (ts : list Time) (sel : selection) f col :
  sel !! f = Some col →
  ∃ col', fold_left (λ sel it, mark_all it.1 (W it.2) sel) (zip (seq k (length ts)) ts) sel !! f = Some col' ∧
    length col' = length col ∧
    ∀ j, j < length col → col' !! j =
      match (if decide (k <= j) then ts !! (j - k) else None) with
      | Some t => if decide (f ∈ W t) then Some (of_Z 1) else col !! j
      | None => col !! j
      end.
Proof.
  revert k sel col. induction ts as [|t ts IH]; intros k sel col Hf; cbn.
  { exists col. split_and!; [done|done|]. intros j _. by case_decide. }
  set (col1 := if decide (f ∈ W t) then <[k := of_Z 1]> col else col).
  destruct (IH (S k) (mark_all k (W t) sel) col1) as (col' & E & Hl & Hc).
  { rewrite mark_all_lookup, Hf. done. }
  assert (Hl1 : length col1 = length col) by (unfold col1; case_decide; by rewrite ?length_insert).
  exists col'. split_and!; [done|congruence|]. intros j Hj. rewrite Hc by (by rewrite Hl1).
  destruct (decide (k = j)) as [<-|Hne].
  - rewrite decide_False by lia. rewrite decide_True by lia. rewrite Nat.sub_diag. cbn. unfold col1.
    case_decide; [|done]. by rewrite list_lookup_insert_eq.
  - assert (Hcol : col1 !! j = col !! j) by (unfold col1; case_decide; [by rewrite list_lookup_insert_ne|done]).
    rewrite Hcol. destruct (decide (k <= j)) as [Hk|Hk].
    + rewrite decide_True by lia. by replace (j - k) with (S (j - S k)) by lia.
    + by rewrite decide_False by lia.
Qed.

Lemma zero_selection_lookup (l : list Asset) n a :
  a ∈ l → zero_selection (F := F) l n !! CompositeFigi a = Some (replicate n (of_Z 0)).
Proof.
  unfold zero_selection. generalize (∅ : selection) as sel. induction l as [|b l IH] using rev_ind; intros sel Ha; [set_solver|].
  rewrite fold_left_app. cbn. destruct (decide (CompositeFigi b = CompositeFigi a)) as [->|Hne].
  - by rewrite lookup_insert_eq.
  - rewrite lookup_insert_ne by done. apply IH. set_solver.
Qed.

Lemma distinct_inj df a b :
  distinct df → a ∈ df_assets df → b ∈ df_assets df → CompositeFigi a = CompositeFigi b → a = b.
Proof.
  intros [Hd _] (i & Hi)%list_elem_of_lookup (j & Hj)%list_elem_of_lookup E.
  assert (i = j) as ->; [|by simplify_eq].
  eapply (NoDup_lookup _ _ _ (CompositeFigi a) Hd); rewrite list_lookup_fmap; [by rewrite Hi|rewrite Hj; cbn; congruence].
Qed.

Lemma distinct_assets df : distinct df → NoDup (df_assets df).
Proof. intros [Hd _]. by eapply NoDup_fmap_1. Qed.

(** ** Writing the selection *)
Record selected_frame df (sel : selection) (l : list Asset) r : Prop := {
  sf_shape : frame_shape r;
  sf_distinct : distinct r;
  sf_times : df_times r = df_times df;
  sf_freq : df_freq r = df_freq df;
  sf_assets : df_assets r = df_assets df;
  sf_metrics : ∀ m, m ∈ df_metrics df → m ∈ df_metrics r;
  sf_others : ∀ a m, a ∈ df_assets df → m ∈ df_metrics df → m ≠ Selected → Column r a m = Column df a m;
  sf_kept : ∀ a, a ∈ df_assets df → a ∉ l → Selected ∈ df_metrics df → Column r a Selected = Column df a Selected;
  sf_written : ∀ a, a ∈ l → Selected ∈ df_metrics r ∧ sel !! CompositeFigi a = Some (Column r a Selected);
}.

Lemma write_selected_spec sel (l : list Asset) df :
  frame_shape df → distinct df →
  (∀ a, a ∈ l → a ∈ df_assets df ∧ ∃ col, sel !! CompositeFigi a = Some col ∧ length col = length (df_times df)) →
  selected_frame df sel l (write_selected sel l df).
Proof.
  unfold write_selected. revert df. induction l as [|a l IH]; intros df Hs Hd Hl; cbn.
  { split; try done. set_solver. }
  destruct (Hl a ltac:(left)) as (Ha & col & Hsel & Hlen). rewrite Hsel. cbn [default from_option id].
  unfold try_Insert at 2. pose proof (Insert_spec df a Selected col Hs Hd) as Hi.
  destruct (Insert df a Selected col) as [r1|e]; [|done].
  destruct Hi as [_ Hs1 Hd1 Ht1 Hf1 _ Hm1 _ Hms Hk1 Hc1 Ho1]. specialize (Hk1 Ha).
  destruct (IH r1 Hs1 Hd1) as [Hs2 Hd2 Ht2 Hf2 Ha2 Hm2 Ho2 Hp2 Hw2].
  { intros b Hb. rewrite Hk1, Ht1. apply Hl. by right. }
  split; try done; try congruence.
  - auto.
  - intros b m Hb Hm Hne. rewrite Ho2 by (rewrite ?Hk1; auto). rewrite Ho1 by (rewrite ?Hk1; auto).
    by rewrite decide_True.
  - intros b Hb Hnl Hm. rewrite Hp2 by (rewrite ?Hk1; set_solver). rewrite Ho1; [by rewrite decide_True|by rewrite Hk1|done|].
    left. intros E. apply Hnl, elem_of_cons. left. by apply (distinct_inj df).
  - intros b Hb. destruct (decide (b ∈ l)) as [Hin|Hnin]; [by apply Hw2|]. apply elem_of_cons in Hb as [->|]; [|done].
    split; [by apply Hm2|]. rewrite Hp2 by (rewrite ?Hk1; done). by rewrite Hc1, Hsel.
Qed.

(** ** Equal weights *)
Lemma equalWeightMembers_lookup (chosen : list Asset) a :
  equalWeightMembers (F := F) chosen !! a =
  if decide (a ∈ chosen) then Some (fdiv (of_Z 1) (of_Z (Z.of_nat (length chosen)))) else None.
Proof.
  unfold equalWeightMembers. generalize (fdiv (F := F) (of_Z 1) (of_Z (Z.of_nat (length chosen)))) as w. intros w.
  induction chosen as [|b l IH] using rev_ind; [by rewrite decide_False by set_solver|].
  rewrite fold_left_app. cbn. destruct (decide (a = b)) as [->|Hne].
  - rewrite lookup_insert_eq. by rewrite decide_True by set_solver.
  - rewrite lookup_insert_ne by done. rewrite IH. destruct (decide (a ∈ l)).
    + by rewrite decide_True by set_solver.
    + by rewrite decide_False by set_solver.
Qed.
End Selectors.

(** ** Ranking *)
Section Ranking.
Context {F : Type} `{NumOrd F} `{TZDB} `{GoSort}.
Implicit Types (df r : DataFrame F) (a b : Asset) (m : Metric) (t : Time) (tb : topBottomN).

Definition scored tb df t : list Asset :=
  keep (λ a, negb (is_nan (ValueAt df a (tb_metric tb) t))) (df_assets df).
Definition top_limit tb df t : nat :=
  if (tb_count tb >? Z.of_nat (length (ranked tb df t)))%Z then length (ranked tb df t) else Z.to_nat (tb_count tb).
Definition winners tb df t : list Asset := av_asset <$> take (top_limit tb df t) (ranked tb df t).

Lemma scored_omap tb df t :
  (omap (λ a, let v := ValueAt df a (tb_metric tb) t in if is_nan v then None else Some (mkAssetValue a v)) (df_assets df))
  = (λ a, mkAssetValue a (ValueAt df a (tb_metric tb) t)) <$> scored tb df t.
Proof.
  unfold scored. induction (df_assets df) as [|a l IH]; [done|]. rewrite keep_cons. cbn in *.
  destruct (is_nan _) eqn:E; cbn; rewrite IH; done.
Qed.

Lemma ranked_perm tb df t :
  ranked tb df t ≡ₚ (λ a, mkAssetValue a (ValueAt df a (tb_metric tb) t)) <$> scored tb df t.
Proof. unfold ranked. by rewrite scored_omap, sort_slice_perm. Qed.

Lemma ranked_assets tb df t : av_asset <$> ranked tb df t ≡ₚ scored tb df t.
Proof.
  rewrite ranked_perm, <-list_fmap_compose.
  replace (av_asset ∘ _) with (id (A := Asset)) by done. by rewrite list_fmap_id.
Qed.

Lemma ranked_sorted tb df t : StronglySorted (in_order (rank_before (tb_ascending tb))) (ranked tb df t).
Proof.
  unfold ranked. apply (sort_slice_sorted_on _ (λ x, is_nan (av_value x) = false)).
  - intros x y _ _. unfold rank_before. destruct (tb_ascending tb); apply flt_asym.
  - intros x y z Hx Hy Hz. unfold rank_before. destruct (tb_ascending tb); intros; eauto using flt_neg_trans.
  - rewrite scored_omap. apply Forall_fmap, Forall_forall. intros a Ha. cbn.
    apply elem_of_keep in Ha as [Ha _]. by apply negb_true_iff.
Qed.

Lemma length_ranked tb df t : length (ranked tb df t) = length (scored tb df t).
Proof. by rewrite ranked_perm, length_fmap. Qed.

Lemma length_winners tb df t :
  length (winners tb df t) = Nat.min (Z.to_nat (tb_count tb)) (length (scored tb df t)).
Proof.
  unfold winners, top_limit. rewrite length_fmap, length_take, <-length_ranked.
  rewrite Z.gtb_ltb. destruct (Z.ltb_spec (Z.of_nat (length (ranked tb df t))) (tb_count tb)); lia.
Qed.

Lemma winners_scored tb df t : winners tb df t ⊆+ scored tb df t.
Proof.
  rewrite <-ranked_assets. unfold winners. apply fmap_submseteq, sublist_submseteq, sublist_take.
Qed.

(** No asset left out ranks before a winner. *)
Lemma winners_best tb df t a b :
  a ∈ winners tb df t → b ∈ scored tb df t → b ∉ winners tb df t →
  let value c := ValueAt df c (tb_metric tb) t in
  (if tb_ascending tb then flt (value b) (value a) else flt (value a) (value b)) = false.
Proof.
  intros Ha Hb Hnb. cbn zeta. apply list_elem_of_fmap in Ha as (x & -> & Hx).
  rewrite <-ranked_assets in Hb. apply list_elem_of_fmap in Hb as (y & -> & Hy).
  assert (Hv : ∀ z, z ∈ ranked tb df t → av_value z = ValueAt df (av_asset z) (tb_metric tb) t).
  { intros z Hz. rewrite ranked_perm in Hz. by apply list_elem_of_fmap in Hz as (c & -> & _). }
  pose proof (ranked_sorted tb df t) as Hs. rewrite <-(take_drop (top_limit tb df t) (ranked tb df t)) in Hs, Hy.
  apply elem_of_app in Hy as [Hy|Hy]; [destruct Hnb; by apply list_elem_of_fmap_2|].
  assert (Hord : in_order (rank_before (tb_ascending tb)) x y).
  { apply list_elem_of_lookup in Hx as (i & Hi), Hy as (j & Hj).
    set (l1 := take _ _) in *. set (l2 := drop _ _) in *.
    eapply (sorted_lookup_lt _ _ i (length l1 + j)); [exact Hs|pose proof (lookup_lt_Some _ _ _ Hi); lia| |].
    - by rewrite lookup_app_l by (by eapply lookup_lt_Some).
    - rewrite lookup_app_r by lia. by replace (length l1 + j - length l1) with j by lia. }
  unfold in_order, rank_before in Hord. rewrite <-!Hv; [done| |].
  - rewrite <-(take_drop (top_limit tb df t)). apply elem_of_app. by left.
  - rewrite <-(take_drop (top_limit tb df t) (ranked tb df t)). apply elem_of_app. by right.
Qed.

Lemma NoDup_winners tb df t : distinct df → NoDup (winners tb df t).
Proof.
  intros Hd. assert (Hr : NoDup (av_asset <$> ranked tb df t)).
  { rewrite ranked_assets. by apply NoDup_keep, distinct_assets. }
  eapply sublist_NoDup; [exact Hr|]. apply fmap_sublist, sublist_take.
Qed.

Lemma winners_assets tb df t a : a ∈ winners tb df t → a ∈ df_assets df.
Proof.
  intros Ha. eapply elem_of_submseteq in Ha; [|apply winners_scored]. by apply elem_of_keep in Ha as [_ Ha].
Qed.

(** ** The selection of the ranked selectors *)
Lemma mark_top_all tb df (sel : gmap string (list F)) it :
  mark_top tb df sel it = mark_all it.1 (CompositeFigi <$> winners tb df it.2) sel.
Proof.
  unfold mark_top, mark_all, winners. fold (top_limit tb df it.2).
  generalize (take (top_limit tb df it.2) (ranked tb df it.2)) as l. intros l. revert sel.
  induction l as [|x l IH]; intros sel; cbn; [done|apply IH].
Qed.

Lemma top_selection tb df a :
  distinct df → a ∈ df_assets df →
  ∃ col, fold_left (mark_top tb df) (zip (seq 0 (length (df_times df))) (df_times df))
           (zero_selection (df_assets df) (length (df_times df))) !! CompositeFigi a = Some col ∧
    length col = length (df_times df) ∧
    ∀ i t, df_times df !! i = Some t →
      col !! i = Some (if decide (a ∈ winners tb df t) then of_Z 1 else of_Z 0).
Proof.
  intros Hd Ha.
  destruct (mark_rows (λ t, CompositeFigi <$> winners tb df t) 0 (df_times df)
    (zero_selection (df_assets df) (length (df_times df))) (CompositeFigi a) (replicate (length (df_times df)) (of_Z 0)))
    as (col & E & Hl & Hc); [by apply zero_selection_lookup|].
  rewrite length_replicate in *. exists col. split_and!; [|done|].
  - rewrite <-E. f_equal. apply fold_left_ext. intros. apply mark_top_all.
  - intros i t Hi. pose proof (lookup_lt_Some _ _ _ Hi). rewrite Hc by done.
    rewrite decide_True by lia. rewrite Nat.sub_0_r, Hi.
    destruct (decide (a ∈ winners tb df t)) as [Hw|Hw].
    + by rewrite decide_True by (by apply list_elem_of_fmap_2).
    + rewrite decide_False; [by apply lookup_replicate_2|].
      intros (b & Eb & Hb)%list_elem_of_fmap. apply Hw.
      by rewrite (distinct_inj df a b) by eauto using winners_assets.
Qed.

Lemma top_selected_frame tb df :
  frame_shape df → distinct df →
  ∃ sel, selected_frame df sel (df_assets df) (topBottomN_Select tb df) ∧
    ∀ a i t, a ∈ df_assets df → df_times df !! i = Some t →
      ∃ col, sel !! CompositeFigi a = Some col ∧
        col !! i = Some (if decide (a ∈ winners tb df t) then of_Z 1 else of_Z 0).
Proof.
  intros Hs Hd. unfold topBottomN_Select. cbn zeta. eexists. split.
  - apply write_selected_spec; [done|done|]. intros a Ha. split; [done|].
    destruct (top_selection tb df a Hd Ha) as (col & E & Hl & _). eauto.
  - intros a i t Ha Hi. destruct (top_selection tb df a Hd Ha) as (col & E & _ & Hc). eauto.
Qed.

Lemma marked_positive a (w : list Asset) :
  flt (of_Z 0) (if decide (a ∈ w) then of_Z 1 else of_Z 0 : F) = bool_decide (a ∈ w).
Proof.
  destruct (decide (a ∈ w)); [rewrite bool_decide_true by done; apply flt_0_1|].
  rewrite bool_decide_false by done. apply flt_irrefl.
Qed.

(** The choice read back from a frame whose marks are known. *)
Lemma CollectSelected_marks r t (w : list Asset) :
  (∀ a, a ∈ df_assets r → ValueAt r a Selected t = if decide (a ∈ w) then of_Z 1 else of_Z 0) →
  CollectSelected r t = keep (λ a, bool_decide (a ∈ w)) (df_assets r) ∧
  keep (λ a, flt (of_Z 0) (ValueAt r a Selected t)) (df_assets r) = CollectSelected r t.
Proof.
  intros Hv. assert (E : ∀ a, a ∈ df_assets r →
    flt (of_Z 0) (ValueAt r a Selected t) && negb (is_nan (ValueAt r a Selected t)) = bool_decide (a ∈ w) ∧
    flt (of_Z 0) (ValueAt r a Selected t) = bool_decide (a ∈ w)).
  { intros a Ha. rewrite (Hv a Ha), marked_positive. split; [|done].
    case_bool_decide as Hw; [|done]. cbn. pose proof (marked_positive a w) as Hp. rewrite bool_decide_true in Hp by done.
    by apply flt_nan in Hp as [_ ->]. }
  unfold CollectSelected. revert E. generalize (df_assets r) as l. induction l as [|a l IH]; intros E; [done|].
  rewrite !keep_cons. destruct (E a) as [-> ->]; [left|]. destruct IH as [<- <-]; [|done]. intros; apply E. by right.
Qed.
End Ranking.

Section SelectionProperties.
Context {F : Type} `{NumOrd F} `{TZDB} `{GoSort}.
Implicit Types (df : DataFrame F) (a b : Asset) (m : Metric) (t : Time).

(** C35. A ranked selector picks the best and equal weighting spreads over
    them.  [TopN] and [BottomN] (whose count is at least one) leave the rows,
    the assets and every other column as they were.  At each row they choose
    as many assets as the count allows among those with a value, and no chosen
    asset is beaten by one left out.  [EqualWeight] of the marked frame has one
    allocation per row, which gives every chosen asset the same share and
    nothing to the others.  This holds of binary64, NaN values included, and
    whatever order [sort.Slice] leaves ties in. *)
Theorem TopN_then_EqualWeight (df : DataFrame F) (count : Z) (m : Metric) (ascending : bool) :
  frame_shape df → distinct df → chronological df → df_assets df ≠ [] → (1 <= count)%Z →
  let r := topBottomN_Select (mkTopBottomN count m ascending) df in
  (if ascending then BottomN count m else TopN count m) = Some (mkTopBottomN count m ascending) ∧
  df_times r = df_times df ∧ df_assets r = df_assets df ∧
  (∀ a m', a ∈ df_assets df → m' ∈ df_metrics df → m' ≠ Selected → Column r a m' = Column df a m') ∧
  ∃ plan, EqualWeight r = Ok plan ∧ al_Date <$> plan = df_times df ∧
  ∀ i t alloc, df_times df !! i = Some t → plan !! i = Some alloc →
    let value a := ValueAt df a m t in
    let scored := keep (λ a, negb (is_nan (value a))) (df_assets df) in
    let chosen := CollectSelected r t in
    length chosen = Nat.min (Z.to_nat count) (length scored) ∧
    (∀ a, a ∈ chosen → a ∈ scored) ∧
    (∀ a b, a ∈ chosen → b ∈ scored → b ∉ chosen →
       (if ascending then flt (value b) (value a) else flt (value a) (value b)) = false) ∧
    ∀ a, al_Members alloc !! a =
      if decide (a ∈ chosen) then Some (fdiv (of_Z 1) (of_Z (Z.of_nat (length chosen)))) else None.
Proof.
  intros Hs Hd Hc Hne Hcount. cbn zeta. set (tb := mkTopBottomN count m ascending).
  destruct (top_selected_frame tb df Hs Hd) as (sel & [Hsr Hdr Ht Hf Ha Hm Ho _ Hw] & Hsel).
  set (r := topBottomN_Select tb df) in *. clearbody r.
  assert (Hcr : chronological r) by (unfold chronological, row_key; by rewrite Ht, Hf).
  assert (Hval : ∀ i t a, df_times df !! i = Some t → a ∈ df_assets r →
    ValueAt r a Selected t = if decide (a ∈ winners tb df t) then of_Z 1 else of_Z 0).
  { intros i t a Hi Hin. rewrite Ha in Hin. rewrite (ValueAt_row r a Selected t i) by (rewrite ?Ht; done).
    destruct (Hsel a i t Hin Hi) as (col & Ec & Hcol). destruct (Hw a Hin) as [_ Ew]. rewrite Ec in Ew.
    injection Ew as <-. by rewrite Hcol. }
  split_and!; [|done|done|done|].
  { unfold TopN, BottomN. destruct (Z.ltb_spec count 1); [lia|]. by destruct ascending. }
  assert (Hhas : HasSelectedColumn r = true).
  { apply bool_decide_eq_true. destruct (df_assets df) as [|a l]; [done|]. apply (Hw a). by left. }
  unfold EqualWeight. rewrite Hhas. eexists. split; [reflexivity|]. unfold plan_rows. rewrite Ht. split.
  { rewrite <-list_fmap_compose. apply list_fmap_id. }
  intros i t alloc Hi Hal. rewrite list_lookup_fmap, Hi in Hal. injection Hal as <-. cbn [al_Members].
  destruct (CollectSelected_marks r t (winners tb df t)) as [Hcs Hk]; [intros; by eapply Hval|].
  rewrite Hk, Hcs. rewrite Ha. clear Hk Hcs.
  set (chosen := keep _ _).
  assert (Hin : ∀ a, a ∈ chosen ↔ a ∈ winners tb df t).
  { intros a. unfold chosen. rewrite elem_of_keep, bool_decide_eq_true. split; [by intros [? _]|].
    intros; split; [done|]. by eapply winners_assets. }
  assert (Hsub : ∀ a, a ∈ winners tb df t → a ∈ scored tb df t).
  { intros a Hwa. by eapply elem_of_submseteq, winners_scored. }
  split_and!.
  - transitivity (length (winners tb df t)); [|apply (length_winners tb df t)].
    apply Permutation_length, NoDup_Permutation; [by apply NoDup_keep, distinct_assets|by apply NoDup_winners|done].
  - intros a. rewrite Hin. apply Hsub.
  - intros a b. rewrite !Hin. intros Hwa Hb Hnb. apply (winners_best tb df t a b Hwa Hb Hnb).
  - intros a. apply equalWeightMembers_lookup.
Qed.
End SelectionProperties.

(** ** Weights of one row *)
Section Members.
Context {F : Type} `{Num F}.
Implicit Types (a b : Asset) (members : gmap Asset F).

(** Entering positive weights one by one. *)
Lemma enter_positive (l : list (Asset * F)) members :
  NoDup l.*1 → (∀ a, a ∈ l.*1 → members !! a = None) →
  map_to_list (fold_left (λ mem aw, if flt (of_Z 0) aw.2 then <[aw.1 := aw.2]> mem else mem) l members) ≡ₚ
  keep (λ aw, flt (of_Z 0) aw.2) l ++ map_to_list members.
Proof.
  revert members. induction l as [|[a w] l IH]; intros members Hnd Hno; [done|]. rewrite keep_cons. cbn in *.
  apply NoDup_cons in Hnd as [Hna Hnd]. destruct (flt (of_Z 0) w).
  - rewrite IH; [|done|].
    + rewrite map_to_list_insert by (apply Hno; left). by rewrite <-Permutation_middle.
    + intros b Hb. rewrite lookup_insert_ne by set_solver. apply Hno. by right.
  - apply IH; [done|]. intros b Hb. apply Hno. by right.
Qed.

Lemma positive_members_entries (chosen : list Asset) (ws : list F) :
  NoDup chosen → length ws = length chosen →
  map_to_list (positive_members chosen ws) ≡ₚ keep (λ aw, flt (of_Z 0) aw.2) (zip chosen ws).
Proof.
  intros Hnd Hl. unfold positive_members. rewrite enter_positive.
  - by rewrite map_to_list_empty, app_nil_r.
  - by rewrite fst_zip by lia.
  - intros. apply lookup_empty.
Qed.

Lemma positive_members_lookup (chosen : list Asset) (ws : list F) a w :
  NoDup chosen → length ws = length chosen →
  positive_members chosen ws !! a = Some w ↔
  flt (of_Z 0) w = true ∧ ∃ i, chosen !! i = Some a ∧ ws !! i = Some w.
Proof.
  intros Hnd Hl. rewrite <-elem_of_map_to_list, positive_members_entries by done.
  rewrite elem_of_keep. cbn. split; intros [Hw Hz]; (split; [done|]).
  - apply list_elem_of_lookup in Hz as (i & Hi). apply lookup_zip_with_Some in Hi as (a' & w' & [= <- <-] & ? & ?). eauto.
  - destruct Hz as (i & Ha & Hwi). apply list_elem_of_lookup. exists i. apply lookup_zip_with_Some. eauto 10.
Qed.

Lemma weigh_positive (chosen : list Asset) (values : list F) (sum : F) :
  weigh chosen values sum = positive_members chosen ((λ v, fdiv v sum) <$> values).
Proof.
  unfold weigh, positive_members. generalize (∅ : gmap Asset F) as members. revert values.
  induction chosen as [|a l IH]; intros [|v values] members; cbn; [done|done|done|]. apply IH.
Qed.

Lemma equalWeightMembers_entries (chosen : list Asset) :
  NoDup chosen →
  map_to_list (equalWeightMembers (F := F) chosen) ≡ₚ
  (λ a, (a, fdiv (of_Z 1) (of_Z (Z.of_nat (length chosen))))) <$> chosen.
Proof.
  intros Hnd. apply NoDup_Permutation; [apply NoDup_map_to_list| |].
  - apply NoDup_fmap_2; [|done]. by intros ?? [= ->].
  - intros [a w]. rewrite elem_of_map_to_list, equalWeightMembers_lookup, list_elem_of_fmap. case_decide.
    + split; [intros [= <-]; eauto|intros (? & [= -> ->] & _); done].
    + split; [done|]. by intros (? & [= -> ->] & ?).
Qed.
End Members.

(** ** Exact weights *)
Definition positive_part (v : xq) : Qc :=
  match v with Fin q => if decide (0 < q)%Qc then q else 0%Qc | _ => 0%Qc end.

Lemma positive_part_nonneg v : (0 <= positive_part v)%Qc.
Proof. destruct v; cbn; try qclra. case_decide; [by apply Qclt_le_weak|qclra]. Qed.

Lemma positive_part_spec (v : xq) :
  is_inf v = false →
  positive_or_zero v = Fin (positive_part v) ∧
  ∀ s, (if is_nan v || fle v (of_Z 0) then Fin s else fadd (Fin s) v) = Fin (s + positive_part v).
Proof.
  unfold positive_or_zero. destruct v as [q| | |]; intros Hv; try done; cbn; rewrite ?qc_of_Z_0.
  - case_decide as Hq; cbn.
    + assert (E : qc_leb q 0 = false) by by apply qc_leb_false. by rewrite E.
    + assert (E : qc_leb q 0 = true) by by apply qc_leb_true, Qcnot_lt_le. rewrite E. split; [done|].
      intros s. f_equal. qclra.
  - split; [done|]. intros s. f_equal. qclra.
Qed.

Lemma positive_sum_exact (vs : list xq) :
  Forall (λ v, is_inf v = false) vs → positive_sum vs = Fin (qsum (positive_part <$> vs)).
Proof.
  intros Hvs. assert (Hgo : ∀ s : Qc,
    fold_left (λ sum v, if is_nan v || fle v (of_Z 0) then sum else fadd sum v) vs (Fin s) =
    Fin (s + qsum (positive_part <$> vs))).
  { induction Hvs as [|v vs Hv _ IH]; intros s; [cbn; f_equal; qclra|].
    rewrite fmap_cons. cbn [fold_left qsum]. rewrite (proj2 (positive_part_spec v Hv)), IH. f_equal. qclra. }
  unfold positive_sum. change (of_Z 0 : xq) with (Fin 0) at 2. rewrite Hgo. f_equal. qclra.
Qed.

Lemma qsum_zero (l : list Qc) : Forall (λ x, 0 <= x)%Qc l → qsum l = 0%Qc → Forall (λ x, x = 0%Qc) l.
Proof.
  induction 1 as [|x l Hx Hl IH]; intros Hs; [constructor|]. cbn in Hs.
  pose proof (qsum_nonneg l Hl) as Hq. constructor; [qclra|]. apply IH. qclra.
Qed.

Lemma qsum_div (l : list Qc) (t : Qc) : qsum ((λ x, x / t)%Qc <$> l) = (qsum l / t)%Qc.
Proof.
  unfold Qcdiv. induction l as [|x l IH]; [cbn; qcnra|]. rewrite fmap_cons. cbn [qsum]. rewrite IH. ring.
Qed.

Lemma qsum_const {A} (l : list A) (x : Qc) : qsum ((λ _, x) <$> l) = (qc_of_Z (Z.of_nat (length l)) * x)%Qc.
Proof.
  induction l as [|a l IH]; [change (0 = qc_of_Z 0 * x)%Qc; rewrite qc_of_Z_0; ring|]. rewrite fmap_cons. cbn [qsum length]. rewrite IH.
  replace (qc_of_Z (Z.of_nat (S (length l)))) with (1 + qc_of_Z (Z.of_nat (length l)))%Qc; [ring|].
  apply Qc_is_canon. rewrite this_add, !this_of_Z, this_1, Nat2Z.inj_succ. unfold Z.succ. rewrite inject_Z_plus. ring.
Qed.

Lemma qc_of_Z_pos (z : Z) : (0 < z)%Z → (0 < qc_of_Z z)%Qc.
Proof. intros Hz. unfold Qclt. rewrite this_0, this_of_Z. change 0%Q with (inject_Z 0). by rewrite <-Zlt_Qlt. Qed.

(** Entering the positive weights of a nonnegative vector loses nothing. *)
Lemma qsum_positive (l : list Asset) (ws : list Qc) :
  length ws = length l → Forall (λ w, 0 <= w)%Qc ws →
  ∃ k, (keep (λ aw : Asset * xq, flt (of_Z 0) aw.2) (zip l (Fin <$> ws))).*2 = Fin <$> k ∧ qsum k = qsum ws.
Proof.
  intros Hl Hws. revert l Hl. induction Hws as [|w ws Hw _ IH]; intros [|a l] Hl; try done; [by exists []|].
  destruct (IH l) as (k & Ek & Hk); [by injection Hl|]. rewrite fmap_cons. cbn [zip zip_with]. rewrite keep_cons.
  change (flt (of_Z 0) (a, Fin w).2) with (qc_ltb (qc_of_Z 0) w). destruct (qc_ltb (qc_of_Z 0) w) eqn:E; qc_bools; rewrite ?qc_of_Z_0 in E.
  - exists (w :: k). rewrite !fmap_cons, Ek. cbn [qsum]. by rewrite Hk.
  - exists k. split; [done|]. cbn. rewrite Hk. qclra.
Qed.

Lemma fsum_Fin_perm (l : list xq) (k : list Qc) : l ≡ₚ Fin <$> k → fsum l = Fin (qsum k).
Proof.
  intros Hp. apply Permutation_map_inv in Hp as (k' & -> & Hp). change (map Fin k') with (Fin <$> k'). rewrite fsum_exact.
  f_equal. symmetry. by apply qsum_perm.
Qed.

(** Equal weights sum to one. *)
Lemma equal_weights_sum (chosen : list Asset) :
  NoDup chosen → chosen ≠ [] → fsum (map_to_list (equalWeightMembers (F := xq) chosen)).*2 = of_Z 1.
Proof.
  intros Hnd Hne. set (n := qc_of_Z (Z.of_nat (length chosen))).
  assert (Hn : (0 < n)%Qc) by (apply qc_of_Z_pos; destruct chosen; [done|cbn; lia]).
  assert (Hw : fdiv (F := xq) (of_Z 1) (of_Z (Z.of_nat (length chosen))) = Fin (1 / n)).
  { cbn. fold n. rewrite (proj2 (qc_eqb_false n _)), qc_of_Z_1; [done|]. qclra. }
  rewrite (fsum_Fin_perm _ ((λ _, (1 / n)%Qc) <$> chosen)).
  - cbn. rewrite qsum_const. fold n. f_equal. unfold Qcdiv. rewrite qc_of_Z_1, Qcmult_1_l. apply Qcmult_inv_r. qclra.
  - rewrite (equalWeightMembers_entries chosen) by done. rewrite <-!list_fmap_compose. unfold compose. cbn [snd].
    by rewrite Hw.
Qed.

Lemma qc_mul_pos (a b : Qc) : (0 < a)%Qc → (0 < b)%Qc → (0 < a * b)%Qc.
Proof. qcnra. Qed.

Lemma qc_inv_pos (t : Qc) : (0 < t)%Qc → (0 < / t)%Qc.
Proof.
  intros Ht. unfold Qclt, Qcinv. change (this (Q2Qc (/ this t))) with (Qred (/ this t)).
  rewrite this_0, (Qred_correct (/ this t)). by apply Qinv_lt_0_compat.
Qed.

(** Nonnegative values over their positive sum: proportional weights that sum
    to one, with no entry for a zero. *)
Lemma weigh_exact (chosen : list Asset) (v : Asset → Qc) :
  NoDup chosen → (∀ a, a ∈ chosen → 0 <= v a)%Qc → (0 < qsum (v <$> chosen))%Qc →
  let members := weigh chosen (Fin <$> (v <$> chosen)) (Fin (qsum (v <$> chosen))) in
  fsum (map_to_list members).*2 = of_Z 1 ∧
  ∀ a, members !! a = if decide (a ∈ chosen ∧ v a ≠ 0%Qc) then Some (Fin (v a / qsum (v <$> chosen))) else None.
Proof.
  intros Hnd Hv Ht. cbn zeta. set (total := qsum (v <$> chosen)) in *.
  assert (Hz : qc_eqb total 0 = false) by (apply qc_eqb_false; qclra).
  assert (Hinv : (0 < / total)%Qc) by by apply qc_inv_pos.
  assert (Hw : (λ x, fdiv x (Fin total)) <$> (Fin <$> (v <$> chosen)) = Fin <$> ((λ x, x / total)%Qc <$> (v <$> chosen))).
  { rewrite <-!list_fmap_compose. apply list_fmap_ext. intros i a _. cbn. by rewrite Hz. }
  rewrite weigh_positive, Hw. set (ws := (λ x, x / total)%Qc <$> (v <$> chosen)).
  assert (Hl : length (Fin <$> ws) = length chosen) by (unfold ws; by rewrite !length_fmap).
  split.
  - assert (Hws : Forall (λ w, 0 <= w)%Qc ws).
    { unfold ws. apply Forall_fmap, Forall_fmap, Forall_forall. intros a Ha. cbn. unfold Qcdiv.
      apply qc_mul_nonneg; [by apply Hv|by apply Qclt_le_weak]. }
    assert (Hsum : qsum ws = 1%Qc).
    { unfold ws. rewrite qsum_div. apply Qcmult_inv_r. qclra. }
    destruct (qsum_positive chosen ws) as (k & Ek & Hk); [by rewrite length_fmap in Hl|done|].
    rewrite (fsum_Fin_perm _ k); [by rewrite Hk, Hsum|].
    rewrite <-Ek. by apply fmap_Permutation, positive_members_entries.
  - intros a. apply option_eq. intros w. rewrite positive_members_lookup by done. unfold ws.
    rewrite <-!list_fmap_compose. case_decide as Ha.
    + destruct Ha as [Ha Hp]. split.
      * intros [_ (i & Hi & Hw')]. rewrite list_lookup_fmap, Hi in Hw'. by injection Hw' as <-.
      * intros [= <-]. split.
        { cbn. apply qc_ltb_true. rewrite qc_of_Z_0. specialize (Hv a Ha). unfold Qcdiv. apply qc_mul_pos; [qclra|done]. }
        apply list_elem_of_lookup in Ha as (i & Hi). exists i. split; [done|]. by rewrite list_lookup_fmap, Hi.
    + split; [|done]. intros [Hp (i & Hi & Hw')]. rewrite list_lookup_fmap, Hi in Hw'. injection Hw' as <-. exfalso.
      apply Ha. split; [by eapply list_elem_of_lookup_2|]. intros E. cbn in Hp. rewrite E in Hp.
      apply qc_ltb_true in Hp. rewrite qc_of_Z_0 in Hp. unfold Qcdiv in Hp. rewrite Qcmult_0_l in Hp. qclra.
Qed.

(** The weights of a row of [weigh_values]. *)
Lemma weigh_values_spec (chosen : list Asset) (value : Asset → xq) :
  NoDup chosen → (∀ a, a ∈ chosen → is_inf (value a) = false) →
  let members := weigh_values chosen (value <$> chosen) in
  let pos a := positive_part (value a) in
  let total := qsum (pos <$> chosen) in
  (chosen ≠ [] → fsum (map_to_list members).*2 = of_Z 1) ∧
  ∀ a, members !! a =
    if decide (a ∈ chosen) then
      if decide (total = 0%Qc) then Some (fdiv (of_Z 1) (of_Z (Z.of_nat (length chosen))))
      else if decide (pos a = 0%Qc) then None else Some (Fin (pos a / total))
    else None.
Proof.
  intros Hnd Hinf. cbn zeta. unfold weigh_values.
  rewrite positive_sum_exact by (by apply Forall_fmap, Forall_forall). rewrite <-list_fmap_compose.
  change (positive_part ∘ value) with (λ a, positive_part (value a)).
  set (pos := λ a, positive_part (value a)). set (total := qsum (pos <$> chosen)).
  assert (Hps : positive_or_zero <$> (value <$> chosen) = Fin <$> (pos <$> chosen)).
  { rewrite <-!list_fmap_compose. apply list_fmap_ext. intros i a Hi. cbn.
    apply (positive_part_spec (value a)), Hinf. by eapply list_elem_of_lookup_2. }
  change (feq (Fin total) (of_Z 0)) with (qc_eqb total (qc_of_Z 0)). rewrite qc_of_Z_0, Hps.
  assert (Ht : (0 <= total)%Qc).
  { apply qsum_nonneg, Forall_fmap, Forall_forall. intros a _. apply positive_part_nonneg. }
  destruct (decide (total = 0%Qc)) as [Hz|Hz].
  - rewrite (proj2 (qc_eqb_true _ _) Hz). destruct (decide (chosen = [])) as [->|Hne].
    { cbn. split; [done|]. intros a. by rewrite decide_False by set_solver. }
    assert (E : (length chosen =? 0) = false) by by destruct chosen. rewrite E. cbn [andb negb].
    split; [by intros; apply equal_weights_sum|apply equalWeightMembers_lookup].
  - rewrite (proj2 (qc_eqb_false _ _) Hz). cbn [andb].
    destruct (weigh_exact chosen pos) as [Hsum Hw]; [done|intros; apply positive_part_nonneg|fold total; qclra|].
    fold total in Hsum, Hw. split; [done|]. intros a. rewrite Hw. destruct (decide (a ∈ chosen)) as [Ha|Ha].
    + fold (pos a). destruct (decide (pos a = 0%Qc)); [by rewrite decide_False by naive_solver|by rewrite decide_True].
    + by rewrite decide_False by naive_solver.
Qed.

Section WeightProperties.
Context `{TZDB}.
Implicit Types (df : DataFrame xq) (a b : Asset) (m : Metric) (t : Time).

Lemma signal_chosen_selected df t : signal_chosen df t = CollectSelected df t.
Proof.
  unfold signal_chosen, CollectSelected. induction (df_assets df) as [|a l IH]; [done|]. rewrite !keep_cons, IH.
  replace (negb (fle (ValueAt df a Selected t) (of_Z 0) || is_nan (ValueAt df a Selected t)))
    with (flt (of_Z 0) (ValueAt df a Selected t) && negb (is_nan (ValueAt df a Selected t))); [done|].
  destruct (ValueAt df a Selected t) as [q| | |]; try done. cbn. rewrite orb_false_r, andb_true_r.
  unfold qc_leb, qc_ltb. done.
Qed.

(** Signal weights are proportional and complete.  When the frame has a
    [Selected] column and no infinite signal, [WeightedBySignal] returns one
    allocation per row: the weights of a row with a chosen asset sum to one
    exactly; a chosen asset gets its share of the total of the positive
    signals (nothing when its own is not positive), or the equal share when no
    chosen asset has a positive signal; nobody else gets anything.  With the
    market capitalisation as signal, [MarketCapWeighted] returns the same plan
    whatever the data source. *)
Theorem WeightedBySignal_proportional df m :
  distinct df → HasSelectedColumn df = true →
  (∀ a t, a ∈ df_assets df → t ∈ df_times df → is_inf (ValueAt df a m t) = false) →
  ∃ plan, WeightedBySignal df m = Ok plan ∧ al_Date <$> plan = df_times df ∧
  (m = MarketCap → m ∈ df_metrics df → ∀ source, MarketCapWeighted source df = Ok plan) ∧
  ∀ i t alloc, df_times df !! i = Some t → plan !! i = Some alloc →
    let chosen := CollectSelected df t in
    let pos a := positive_part (ValueAt df a m t) in
    let total := qsum (pos <$> chosen) in
    (chosen ≠ [] → fsum (map_to_list (al_Members alloc)).*2 = of_Z 1) ∧
    ∀ a, al_Members alloc !! a =
      if decide (a ∈ chosen) then
        if decide (total = 0%Qc) then Some (fdiv (of_Z 1) (of_Z (Z.of_nat (length chosen))))
        else if decide (pos a = 0%Qc) then None else Some (Fin (pos a / total))
      else None.
Proof.
  intros Hd Hsel Hinf. unfold WeightedBySignal. rewrite Hsel. eexists. split; [reflexivity|]. unfold plan_rows. split_and!.
  - rewrite <-list_fmap_compose. apply list_fmap_id.
  - intros -> Hm source. unfold MarketCapWeighted, ensureMarketCap. rewrite Hsel, bool_decide_true by done. cbn [wrap_error].
    unfold plan_rows. f_equal. apply list_fmap_ext. intros i t _. by rewrite signal_chosen_selected.
  - intros i t alloc Hi Hal. rewrite list_lookup_fmap, Hi in Hal. injection Hal as <-. cbn [al_Members].
    rewrite signal_chosen_selected. apply (weigh_values_spec _ (λ a, ValueAt df a m t)).
    + by apply NoDup_keep, distinct_assets.
    + intros a Ha. apply elem_of_keep in Ha as [_ Ha]. apply Hinf; [done|by eapply list_elem_of_lookup_2].
Qed.
End WeightProperties.

(** ** Risk parity *)
Definition finite (x : xq) : Prop := ∃ q, x = Fin q.
Definition on_simplex (n : nat) (ws : list xq) : Prop :=
  ∃ qs, ws = Fin <$> qs ∧ length qs = n ∧ Forall (λ q, 0 <= q)%Qc qs ∧ qsum qs = 1%Qc.

Lemma fin_add x y : finite x → finite y → finite (fadd x y).
Proof. intros [a ->] [b ->]. by eexists. Qed.
Lemma fin_mul x y : finite x → finite y → finite (fmul x y).
Proof. intros [a ->] [b ->]. by eexists. Qed.
Lemma fin_div x q : finite x → q ≠ 0%Qc → finite (fdiv x (Fin q)).
Proof. intros [a ->] Hq. exists (a / q)%Qc. cbn. by rewrite (proj2 (qc_eqb_false _ _) Hq). Qed.
Lemma finite_fold {A} (f : A → xq) (l : list A) x :
  finite x → (∀ y, y ∈ l → finite (f y)) → finite (fold_left (λ r y, fadd r (f y)) l x).
Proof.
  revert x. induction l as [|y l IH]; intros x Hx Hf; cbn; [done|].
  apply IH; [apply fin_add; [done|apply Hf; left]|]. intros; apply Hf; by right.
Qed.
Lemma finite_fsum l : Forall finite l → finite (fsum l).
Proof.
  intros Hl. apply (finite_fold id); [by eexists|]. intros y Hy. rewrite Forall_forall in Hl. by apply Hl.
Qed.
Lemma finite_nth (l : list xq) i : Forall finite l → i < length l → finite (nth i l fnan).
Proof. intros Hl Hi. rewrite Forall_forall in Hl. apply Hl, list_elem_of_In, nth_In, Hi. Qed.

Section RiskParity.
Context `{NumSqrt xq} (cov : list xq) (n : nat).
Context (sqrt_nonneg : ∀ q, (0 < q)%Qc → ∃ s, fsqrt (Fin q) = Fin s ∧ (0 <= s)%Qc).
Context (n_pos : 0 < n) (cov_finite : Forall finite cov) (cov_size : length cov = n * n).
Implicit Types (ws best : list xq).

Lemma simplex_finite ws : on_simplex n ws → Forall finite ws ∧ length ws = n.
Proof.
  intros (qs & -> & Hl & _). split; [|by rewrite length_fmap]. apply Forall_fmap, Forall_true. by eexists.
Qed.

Lemma quadForm_finite ws : Forall finite ws → length ws = n → finite (quadForm cov ws n).
Proof.
  intros Hws Hl. unfold quadForm.
  assert (Hrow : ∀ i, i < n → ∀ x, finite x → finite (fold_left (λ r j,
    fadd r (fmul (fmul (nth i ws fnan) (nth (i * n + j) cov fnan)) (nth j ws fnan))) (seq 0 n) x)).
  { intros i Hi x Hx. apply (finite_fold (λ j, fmul (fmul (nth i ws fnan) (nth (i * n + j) cov fnan)) (nth j ws fnan))); [done|].
    intros j Hj%elem_of_seq. repeat apply fin_mul; apply finite_nth; try done; try lia.
    rewrite cov_size. apply cell_lt; lia. }
  assert (Hseq : ∀ i, i ∈ seq 0 n → i < n) by (intros i Hi%elem_of_seq; lia).
  assert (H0 : finite (of_Z 0)) by by eexists.
  revert Hseq H0. generalize (of_Z 0 : xq) as x. generalize (seq 0 n) at 1 3 as l.
  induction l as [|i l IH]; intros x Hseq Hx; cbn; [done|].
  apply IH; [intros; apply Hseq; by right|]. apply Hrow; [apply Hseq; left|done].
Qed.

Lemma matVecMul_finite ws : Forall finite ws → length ws = n →
  Forall finite (matVecMul cov ws n) ∧ length (matVecMul cov ws n) = n.
Proof.
  intros Hws Hl. unfold matVecMul. rewrite length_fmap, length_seq. split; [|done].
  apply Forall_fmap, Forall_forall. intros i Hi%elem_of_seq. cbn. unfold mat_row.
  apply finite_fsum, Forall_fmap, Forall_forall. intros j Hj%elem_of_seq. cbn.
  apply fin_mul; apply finite_nth; try done; [|lia]. rewrite cov_size. apply cell_lt; lia.
Qed.

Lemma target_pos : ∃ c, fdiv (F := xq) (of_Z 1) (of_Z (Z.of_nat n)) = Fin c ∧ (0 < c)%Qc ∧ qsum (replicate n c) = 1%Qc.
Proof.
  assert (Hn : (0 < qc_of_Z (Z.of_nat n))%Qc) by (apply qc_of_Z_pos; lia).
  set (c := (1 / qc_of_Z (Z.of_nat n))%Qc). exists c. cbn. rewrite (proj2 (qc_eqb_false (qc_of_Z (Z.of_nat n)) _)) by qclra. split; [done|]. split.
  - unfold c, Qcdiv. rewrite Qcmult_1_l. by apply qc_inv_pos.
  - rewrite <-(fmap_replicate (λ _ : unit, c) n tt), qsum_const, length_replicate. unfold c, Qcdiv.
    rewrite Qcmult_1_l. apply Qcmult_inv_r. qclra.
Qed.

Lemma step_weight_nonneg target (w rc : Qc) :
  (0 < target)%Qc → (0 <= w)%Qc → ∃ q, step_weight (Fin target) (Fin w) (Fin rc) = Fin q ∧ (0 <= q)%Qc.
Proof.
  intros Ht Hw. unfold step_weight.
  assert (Hgo : ∃ q, (if flt (of_Z 0) (Fin rc) then fmul (Fin w) (pow_step (fdiv (Fin target) (Fin rc))) else Fin w) = Fin q ∧
    (0 <= q)%Qc).
  { change (flt (of_Z 0) (Fin rc)) with (qc_ltb (qc_of_Z 0) rc). rewrite qc_of_Z_0.
    destruct (qc_ltb 0 rc) eqn:E; qc_bools; [|eauto].
    destruct (sqrt_nonneg (target / rc)%Qc) as (s & Es & Hs).
    { unfold Qcdiv. apply qc_mul_pos; [done|by apply qc_inv_pos]. }
    exists (w * s)%Qc. split; [|by apply qc_mul_nonneg]. unfold pow_step.
    assert (Hd : fdiv (Fin target) (Fin rc) = Fin (target / rc)).
    { cbn. rewrite (proj2 (qc_eqb_false _ _)); [done|qclra]. }
    rewrite Hd, Es. done. }
  destruct Hgo as (q & -> & Hq). exists q. split; [|done].
  change (flt (Fin q) (of_Z 0)) with (qc_ltb q (qc_of_Z 0)). rewrite qc_of_Z_0, (proj2 (qc_ltb_false _ _)); [done|qclra].
Qed.

(** One normalised step from a point of the simplex. *)
Lemma normalise_simplex ws c (rcs : list Qc) :
  on_simplex n ws → (0 < c)%Qc → length rcs = n →
  let nw := zip_with (step_weight (Fin c)) ws (Fin <$> rcs) in
  fle (fsum nw) (of_Z 0) = false → on_simplex n ((λ w, fdiv w (fsum nw)) <$> nw).
Proof.
  intros (qs & -> & Hl & Hqs & _) Hc Hlr. cbn zeta.
  assert (Hnw : ∃ ns, zip_with (step_weight (Fin c)) (Fin <$> qs) (Fin <$> rcs) = Fin <$> ns ∧ length ns = n ∧
    Forall (λ q, 0 <= q)%Qc ns).
  { clear - Hqs Hc Hl Hlr sqrt_nonneg. revert rcs Hl Hlr. generalize n as k.
    induction Hqs as [|w qs Hw _ IH]; intros k [|rc rcs] Hl Hlr; cbn in *; try lia; [by exists []|].
    destruct k as [|k]; [done|]. destruct (IH k rcs) as (ns & E & Hln & Hns); [lia|lia|].
    destruct (step_weight_nonneg c w rc Hc Hw) as (q & Eq & Hq). exists (q :: ns). rewrite fmap_cons, Eq. cbn.
    split_and!; [by f_equal|by f_equal|by constructor]. }
  destruct Hnw as (ns & -> & Hln & Hns). rewrite fsum_exact.
  change (fle (Fin (qsum ns)) (of_Z 0)) with (qc_leb (qsum ns) (qc_of_Z 0)). rewrite qc_of_Z_0. intros Hs. qc_bools.
  set (s := qsum ns) in *. assert (Hi : (0 < / s)%Qc) by by apply qc_inv_pos.
  exists ((λ x, x / s)%Qc <$> ns). split_and!; [|by rewrite length_fmap| |].
  - rewrite <-!list_fmap_compose. apply list_fmap_ext. intros i x _. cbn. rewrite (proj2 (qc_eqb_false _ _)); [done|qclra].
  - apply Forall_fmap. eapply Forall_impl; [exact Hns|]. intros x Hx. cbn. unfold Qcdiv.
    apply qc_mul_nonneg; [done|by apply Qclt_le_weak].
  - rewrite qsum_div. apply Qcmult_inv_r. fold s. qclra.
Qed.

(** The risk contributions are numbers. *)
Lemma contributions_finite ws pv :
  Forall finite ws → length ws = n → pv ≠ 0%Qc →
  ∃ rcs, zip_with (λ w r, fdiv (fmul w r) (Fin pv)) ws (matVecMul cov ws n) = Fin <$> rcs ∧ length rcs = n.
Proof.
  intros Hf Hl Hpv. destruct (matVecMul_finite ws Hf Hl) as [Hm Hml].
  set (ms := matVecMul cov ws n) in *. clearbody ms.
  rewrite <-Hl in Hml |- *. clear Hl. revert ms Hm Hml. induction Hf as [|w ws Hw _ IH]; intros [|m ms] Hm Hml; try done.
  { by exists []. }
  apply Forall_cons in Hm as [Hm Hms]. destruct (IH ms Hms) as (rcs & E & Hlr); [by injection Hml|].
  destruct (fin_div (fmul w m) pv) as [q Eq]; [by apply fin_mul|done|].
  exists (q :: rcs). cbn [zip_with length]. rewrite fmap_cons, Eq, E. cbn. by rewrite Hlr.
Qed.

Lemma iterate_simplex ws best err ws' best' err' :
  on_simplex n ws → on_simplex n best → parity_iterate cov n ws best err = Improved ws' best' err' →
  on_simplex n ws' ∧ on_simplex n best'.
Proof.
  intros Hws Hbest. unfold parity_iterate.
  destruct (simplex_finite ws Hws) as [Hf Hl].
  destruct (quadForm_finite ws Hf Hl) as [pv ->].
  change (fle (Fin pv) (of_Z 0)) with (qc_leb pv (qc_of_Z 0)). rewrite qc_of_Z_0.
  destruct (qc_leb pv 0) eqn:Epv; [done|]. qc_bools.
  destruct target_pos as (c & -> & Hc & _).
  destruct (contributions_finite ws pv Hf Hl) as (rcs & -> & Hlr); [qclra|].
  destruct (if flt _ err then _ else _) as [b e] eqn:Eb.
  assert (Hb : on_simplex n b) by (revert Eb; case_match; by intros [= <- _]).
  destruct (flt _ riskParityTolerance); [done|]. destruct (fle _ (of_Z 0)) eqn:Es; [done|]. intros [= <- <- _]. split; [|done].
  by apply normalise_simplex.
Qed.

Lemma loop_simplex iters ws best err :
  on_simplex n ws → on_simplex n best →
  match parity_loop iters cov n ws best err with
  | (Some r, converged) => on_simplex n r ∧
      (converged = true → ∃ best' err', parity_iterate cov n r best' err' = Converged)
  | (None, converged) => converged = false
  end.
Proof.
  revert ws best err. induction iters as [|iters IH]; intros ws best err Hws Hbest; cbn; [done|].
  destruct (parity_iterate cov n ws best err) as [| |ws' best' err'] eqn:E; [done|eauto|].
  destruct (iterate_simplex _ _ _ _ _ _ Hws Hbest E). by apply IH.
Qed.

(** Every finite contribution is within the largest error. *)
Lemma max_error_bound (target tol : Qc) (rcs : list Qc) (rc : Qc) :
  flt (max_error (Fin target) (Fin <$> rcs)) (Fin tol) = true → rc ∈ rcs →
  flt (fabs (fsub (Fin rc) (Fin target))) (Fin tol) = true.
Proof.
  set (dist q := if qc_ltb (q + - target) 0 then (- (q + - target))%Qc else (q + - target)%Qc).
  assert (Hgo : ∀ (l : list Qc) (m : Qc), ∃ m', fold_left (λ maxErr rc, if flt maxErr (fabs (fsub rc (Fin target)))
    then fabs (fsub rc (Fin target)) else maxErr) (Fin <$> l) (Fin m) = Fin m' ∧ (m <= m')%Qc ∧
    ∀ q, q ∈ l → (dist q <= m')%Qc).
  { induction l as [|q l IH]; intros m; [exists m; split_and!; [done|apply Qcle_refl|set_solver]|].
    rewrite fmap_cons. cbn [fold_left]. cbv zeta. change (fabs (fsub (Fin q) (Fin target))) with (Fin (dist q)).
    change (flt (Fin m) (Fin (dist q))) with (qc_ltb m (dist q)).
    destruct (qc_ltb m (dist q)) eqn:E; qc_bools.
    - destruct (IH (dist q)) as (m' & -> & Hm & Hl). exists m'. split_and!; [done|qclra|].
      intros x [->|Hx]%elem_of_cons; [done|by apply Hl].
    - destruct (IH m) as (m' & -> & Hm & Hl). exists m'. split_and!; [done|done|].
      intros x [->|Hx]%elem_of_cons; [qclra|by apply Hl]. }
  unfold max_error. cbv zeta. change (of_Z 0 : xq) with (Fin 0). destruct (Hgo rcs 0%Qc) as (m' & -> & _ & Hl).
  change (fabs (fsub (Fin rc) (Fin target))) with (Fin (dist rc)). cbn. rewrite !qc_ltb_true. intros Hm Hrc.
  specialize (Hl rc Hrc). qclra.
Qed.

(** C39. The risk parity iteration stays on the simplex and means what it
    reports.  For a finite covariance matrix of at least one asset the solver
    returns, after at most [riskParityMaxIter] steps, either nothing (a
    variance that is not positive) or one nonnegative weight per asset that
    sum to one exactly, the best found when it did not converge.  When it
    reports convergence the portfolio variance is positive and every risk
    contribution is within the tolerance of the equal share.  (Arithmetic
    without rounding; the square root of a positive number is a nonnegative
    number.) *)
Theorem solveRiskParity_on_simplex :
  match solveRiskParity cov n with
  | (Some ws, converged) =>
      on_simplex n ws ∧
      (converged = true → ∃ target pv rcs,
        fdiv (F := xq) (of_Z 1) (of_Z (Z.of_nat n)) = Fin target ∧ quadForm cov ws n = Fin pv ∧ (0 < pv)%Qc ∧
        zip_with (λ w r, fdiv (fmul w r) (Fin pv)) ws (matVecMul cov ws n) = Fin <$> rcs ∧ length rcs = n ∧
        ∀ rc, rc ∈ rcs → flt (fabs (fsub (Fin rc) (Fin target))) riskParityTolerance = true)
  | (None, converged) => converged = false
  end.
Proof.
  unfold solveRiskParity. destruct target_pos as (c & Ec & Hc & Hs).
  assert (Hstart : on_simplex n (replicate n (fdiv (of_Z 1) (of_Z (Z.of_nat n))))).
  { exists (replicate n c). rewrite Ec, fmap_replicate. split_and!; [done|by rewrite length_replicate| |done].
    apply Forall_replicate. by apply Qclt_le_weak. }
  pose proof (loop_simplex riskParityMaxIter _ _ pos_inf Hstart Hstart) as Hl.
  destruct (parity_loop _ _ _ _ _ _) as [[ws|] conv]; [|done]. destruct Hl as [Hws Hconv]. split; [done|].
  intros Hc'. destruct (Hconv Hc') as (best & err & E). destruct (simplex_finite ws Hws) as [Hf Hlen].
  destruct (quadForm_finite ws Hf Hlen) as [pv Epv]. revert E. unfold parity_iterate. rewrite Epv, Ec.
  change (fle (Fin pv) (of_Z 0)) with (qc_leb pv (qc_of_Z 0)). rewrite qc_of_Z_0.
  destruct (qc_leb pv 0) eqn:Eq; [done|]. qc_bools.
  destruct (contributions_finite ws pv Hf Hlen) as (rcs & Er & Hlr); [qclra|]. rewrite Er.
  destruct (if flt _ err then _ else _) as [b e]. destruct (flt _ riskParityTolerance) eqn:Et; [|by destruct (fle _ _)].
  intros _. exists c, pv, rcs. split_and!; try done. intros rc Hrc.
  change (riskParityTolerance : xq) with (Fin (1 / qc_of_Z 10000000000)) in *. by eapply max_error_bound.
Qed.
End RiskParity.

(** ** Witnesses *)
Section Witnesses.
Local Existing Instance utc_db.
Local Existing Instance stable_sort_slice.

Lemma TopN_then_EqualWeight_witness :
  ∃ plan, EqualWeight (topBottomN_Select (mkTopBottomN 1 MetricClose false) sample_frame) = Ok plan ∧
  ∀ i t alloc, df_times sample_frame !! i = Some t → plan !! i = Some alloc →
    length (CollectSelected (topBottomN_Select (mkTopBottomN 1 MetricClose false) sample_frame) t) =
    Nat.min 1 (length (keep (λ a, negb (is_nan (ValueAt sample_frame a MetricClose t))) (df_assets sample_frame))).
Proof.
  destruct (TopN_then_EqualWeight sample_frame 1 MetricClose false sample_frame_shape sample_frame_distinct
    sample_frame_chronological ltac:(done) ltac:(lia)) as (_ & _ & _ & _ & plan & E & _ & Hp).
  exists plan. split; [exact E|]. intros i t alloc Hi Hal. apply (Hp i t alloc Hi Hal).
Defined.

(** SPY and TLT are chosen, with signals 1 and 3. *)
Definition signal_frame : DataFrame xq :=
  build [day 0] [SPY; TLT] [Selected; "Score"%string] Daily [[q 1]; [q 1]; [q 2]; [q 3]].

Lemma signal_frame_distinct : distinct signal_frame.
Proof. apply frame_distinct. vm_compute. reflexivity. Qed.

Lemma WeightedBySignal_proportional_witness :
  ∃ plan alloc, WeightedBySignal signal_frame "Score"%string = Ok plan ∧ plan !! 0%nat = Some alloc ∧
    fsum (map_to_list (al_Members alloc)).*2 = of_Z 1 ∧ al_Members alloc !! TLT = Some (Fin (qfrac 3 4)).
Proof.
  destruct (WeightedBySignal_proportional signal_frame "Score"%string signal_frame_distinct) as (plan & E & Hd & _ & Hrow).
  - (vm_compute; reflexivity).
  - intros a t Ha Ht. cbn in Ha, Ht. apply elem_of_cons in Ha as [->|[->|[]%not_elem_of_nil]%elem_of_cons];
      apply elem_of_cons in Ht as [->|[]%not_elem_of_nil]; (vm_compute; reflexivity).
  - destruct (plan !! 0%nat) as [alloc|] eqn:Ep.
    2:{ exfalso. apply (f_equal length) in Hd. rewrite length_fmap in Hd. apply lookup_ge_None in Ep. cbn in Hd. lia. }
    exists plan, alloc. destruct (Hrow 0%nat (day 0) alloc eq_refl Ep) as [Hs Hm]. split_and!; [exact E|done| |].
    + apply Hs. intros Hc. apply (f_equal length) in Hc. vm_compute in Hc. done.
    + rewrite Hm. rewrite decide_True by (eapply bool_decide_eq_true_1; vm_compute; reflexivity).
      rewrite !decide_False by (eapply bool_decide_eq_false_1; vm_compute; reflexivity).
      f_equal.
Defined.

(** A square root from below: of [n/d] the largest [k/d] with [k*k <= n*d]. *)
Definition root_below (x : xq) : xq :=
  match x with
  | Fin v => Fin (qfrac (Z.sqrt (Qnum (this v) * Zpos (Qden (this v)))) (Qden (this v)))
  | x => x
  end.
Local Instance root_sqrt : NumSqrt xq := {| fsqrt := root_below |}.

Lemma root_below_nonneg (v : Qc) : (0 < v)%Qc → ∃ s, fsqrt (Fin v) = Fin s ∧ (0 <= s)%Qc.
Proof.
  intros _. eexists. split; [reflexivity|]. unfold qfrac, Qcle. rewrite this_0.
  change (this (Q2Qc ?x)) with (Qred x). rewrite Qred_correct. unfold Qle. cbn. pose proof (Z.sqrt_nonneg (Qnum (this v) * Zpos (Qden (this v)))). lia.
Qed.

(** Two uncorrelated assets of the same variance. *)
Definition unit_cov : list xq := [q 1; q 0; q 0; q 1].

Lemma solveRiskParity_on_simplex_witness :
  ∃ ws, solveRiskParity unit_cov 2 = (Some ws, true) ∧ on_simplex 2 ws.
Proof.
  pose proof (solveRiskParity_on_simplex unit_cov 2 root_below_nonneg ltac:(lia)
    ltac:(repeat constructor; by eexists) eq_refl) as Hs.
  assert (E : bool_decide (solveRiskParity unit_cov 2 = (Some [Fin (qfrac 1 2); Fin (qfrac 1 2)], true)) = true)
    by (vm_compute; reflexivity).
  apply bool_decide_eq_true_1 in E. rewrite E in Hs |- *. destruct Hs as [Hs _]. by eexists.
Defined.
End Witnesses.
