(* ===== verification/FillProps.v ===== *)
(** * FillProps: what the fill adjusters do to an order

    Slippage, spread and market impact are costs: in exact arithmetic no
    composition of them gives an order a better price than the base model's,
    or more shares than it asked for. *)
From Stdlib Require Import ZArith QArith Qround Qcanon Lia.
From stdpp Require Import base list gmap strings.
From S2P Require Import Prelude Num GoTime Asset Period Frame Broker Samples.

Section Costs.
Context `{NumSqrt xq}.
Implicit Types (order : Order xq) (bar : DataFrame xq) (r : FillResult xq) (adj : Adjuster xq).

(** What the code relies on of [math.Sqrt]. *)
Definition sqrt_law : Prop := ∀ x : Qc, (0 <= x)%Qc →
  ∃ y, fsqrt (Fin x) = Fin y ∧ (0 <= y)%Qc ∧ ((x <= 1)%Qc → (y <= 1)%Qc).

(** The adjusters of the package, with parameters that are fractions. *)
Inductive standard : Adjuster xq → Prop :=
  | std_percent (pct : Qc) : (0 <= pct <= 1)%Qc → standard (Slippage (Percent (Fin pct)))
  | std_fixed (amount : Qc) : (0 <= amount)%Qc → standard (Slippage (Fixed (Fin amount)))
  | std_spread (bps : Z) : (bps <= 10000)%Z → standard (SpreadAware bps)
  | std_impact (c t : Qc) : (0 <= c <= 1)%Qc → (0 <= t <= 1)%Qc →
      standard (MarketImpact (mkPreset (Fin c) (Fin t))).

(** [p] is no better than [p0] for the side that trades. *)
Definition no_better (side : Side) (p0 p : Qc) : Prop :=
  match side with Buy => (p0 <= p)%Qc | Sell => (p <= p0)%Qc end.

(** The bar quotes nothing for the asset, or quotes around the base price. *)
Definition quotes_around (p0 : Qc) bar (ast : Asset) : Prop :=
  is_nan (Value bar ast Bid) = true ∨ is_nan (Value bar ast Ask) = true ∨
  ∃ b a : Qc, Value bar ast Bid = Fin b ∧ Value bar ast Ask = Fin a ∧ (b <= p0)%Qc ∧ (p0 <= a)%Qc.

Record costs (side : Side) (p0 q0 : Qc) r : Prop := {
  co_price : ∃ p, fr_Price r = Fin p ∧ no_better side p0 p;
  co_qty : ∃ n, fr_Quantity r = Fin n ∧ (0 <= n <= q0)%Qc ∧ (fr_Partial r = false → n = q0);
}.

(** A fraction of the price, added for a buy and taken from a sale. *)
Lemma no_better_scaled side p0 p k :
  (0 <= p0)%Qc → no_better side p0 p → (0 <= k <= 1)%Qc →
  no_better side p0 (match side with Buy => p + p * k | Sell => p - p * k end)%Qc.
Proof.
  intros H0 Hp [Hk Hk']. destruct side; cbn in *; [qcnra|].
  destruct (Qclt_le_dec p 0); qcnra.
Qed.

Lemma slippage_costs side p0 q0 order bar r r' (opt : SlippageOption) d :
  o_Side order = side → costs side p0 q0 r → opt (fr_Price r) = Fin d →
  (∀ p, fr_Price r = Fin p → no_better side p0 p →
        no_better side p0 (match side with Buy => p + d | Sell => p - d end)%Qc) →
  Slippage opt order bar r = Ok r' → costs side p0 q0 r'.
Proof.
  intros Hs [(p & Hp & Hn) Hq] Hd Hw. unfold Slippage. rewrite Hd, Hs, Hp. specialize (Hw p Hp Hn).
  intros [= <-]. split; [|exact Hq]. destruct side; cbn in *; eauto.
Qed.

Lemma qc_fraction (a b : Qc) : (0 <= a)%Qc → (0 < b)%Qc → (a <= b)%Qc → (0 <= a / b <= 1)%Qc.
Proof.
  intros Ha Hb Hab. assert (Hd : (a / b * b)%Qc = a).
  { rewrite Qcmult_comm. apply Qcmult_div_r. intros ->. qclra. }
  set (k := (a / b)%Qc) in *. clearbody k. split; qcnra.
Qed.

Lemma qc_div_nonneg (a b : Qc) : (0 <= a)%Qc → (0 < b)%Qc → (0 <= a / b)%Qc.
Proof.
  intros Ha Hb. assert (Hd : (a / b * b)%Qc = a).
  { rewrite Qcmult_comm. apply Qcmult_div_r. intros ->. qclra. }
  set (k := (a / b)%Qc) in *. clearbody k. qcnra.
Qed.

Lemma qc_mul_unit (a b : Qc) : (0 <= a <= 1)%Qc → (0 <= b)%Qc → (b <= 1)%Qc → (0 <= a * b <= 1)%Qc.
Proof. intros [Ha Ha1] Hb Hb1. split; qcnra. Qed.

(** Half the fallback spread, as a fraction of the price. *)
Lemma half_spread (p : Qc) (bps : Z) : (0 < bps <= 10000)%Z →
  ∃ k, fdiv (fmul (Fin p) (of_Z bps)) (of_Z 10000) = Fin (p * k) ∧ (0 <= k <= 1)%Qc.
Proof.
  intros Hb. exists (qc_of_Z bps / qc_of_Z 10000)%Qc. split.
  - cbn. replace (qc_eqb _ _) with false by (symmetry; by apply qc_eqb_false).
    f_equal. unfold Qcdiv. by rewrite Qcmult_assoc.
  - apply qc_fraction; [rewrite <-qc_of_Z_0; apply qc_of_Z_le; lia|done|apply qc_of_Z_le; lia].
Qed.

Lemma spread_costs p0 q0 order bar r r' bps :
  (0 <= p0)%Qc → (bps <= 10000)%Z → quotes_around p0 bar (o_Asset order) →
  costs (o_Side order) p0 q0 r → SpreadAware bps order bar r = Ok r' → costs (o_Side order) p0 q0 r'.
Proof.
  intros H0 Hb Hquote [(p & Hp & Hn) Hq]. unfold SpreadAware.
  destruct (_ && _ && _ && _) eqn:Hh.
  - rewrite !andb_true_iff, !negb_true_iff in Hh. destruct Hh as [[[Eb Ea] _] _].
    destruct Hquote as [?|[?|(b & a & -> & -> & Hbid & Hask)]]; [congruence|congruence|].
    intros [= <-]. split; [|exact Hq]. cbn. destruct (o_Side order); cbn; eauto.
  - destruct (0 <? bps)%Z eqn:Hpos; [|done]. apply Z.ltb_lt in Hpos.
    destruct (half_spread p bps) as (k & Hk & Hk01); [lia|]. rewrite Hp, Hk. intros [= <-].
    pose proof (no_better_scaled (o_Side order) p0 p k H0 Hn Hk01) as Hw.
    split; [|exact Hq]. destruct (o_Side order); cbn in *; eauto.
Qed.
(** The share of the volume an order takes, capped at the threshold. *)
Lemma participation_bounds (volume : xq) (n t : Qc) (partial : bool) :
  is_nan volume = false → fle volume (of_Z 0) = false → (0 <= n)%Qc → (0 <= t <= 1)%Qc →
  let '(qty, partial', x) :=
    if flt (Fin t) (fdiv (Fin n) volume) then
      (ffloor (fmul volume (Fin t)), true, fdiv (ffloor (fmul volume (Fin t))) volume)
    else (Fin n, partial, fdiv (Fin n) volume) in
  ∃ n' x', qty = Fin n' ∧ x = Fin x' ∧ (0 <= n' <= n)%Qc ∧ (0 <= x' <= 1)%Qc ∧
    (partial' = false → n' = n ∧ partial = false).
Proof.
  intros Hnan Hpos Hn [Ht Ht1]. destruct volume as [v| | |]; [|cbn|done|done].
  2:{ replace (qc_ltb t 0) with false by (symmetry; by apply qc_ltb_false).
      exists n, 0%Qc. repeat split; try done; qclra. }
  cbn in *. rewrite qc_of_Z_0 in Hpos. apply qc_leb_false in Hpos.
  replace (qc_eqb v 0) with false by (symmetry; apply qc_eqb_false; intros ->; qclra).
  assert (Hd : (n / v * v)%Qc = n) by (rewrite Qcmult_comm; apply Qcmult_div_r; intros ->; qclra).
  cbn. destruct (qc_ltb t (n / v)) eqn:E; qc_bools.
  - set (m := qc_of_Z (Qfloor (v * t)%Qc)).
    assert (Hm : (m <= v * t)%Qc) by (unfold m, Qcle; rewrite this_of_Z; apply Qfloor_le).
    assert (Hm0 : (0 <= m)%Qc).
    { unfold m. rewrite <-qc_of_Z_0. apply qc_of_Z_le. change 0%Z with (Qfloor 0). apply Qfloor_resp_le.
      apply (qc_mul_nonneg v t); [qclra|done]. }
    exists m, (m / v)%Qc. set (k := (n / v)%Qc) in *. clearbody k m. split; [done|]. split; [done|].
    split; [split; [done|qcnra]|]. split; [apply qc_fraction; qcnra|done].
  - exists n, (n / v)%Qc. split; [done|]. split; [done|]. split; [qclra|].
    split; [|done]. set (k := (n / v)%Qc) in *. clearbody k. split; qcnra.
Qed.

Lemma impact_costs p0 q0 order bar r r' c t :
  sqrt_law → (0 <= p0)%Qc → (0 <= c <= 1)%Qc → (0 <= t <= 1)%Qc → costs (o_Side order) p0 q0 r →
  MarketImpact (mkPreset (Fin c) (Fin t)) order bar r = Ok r' → costs (o_Side order) p0 q0 r'.
Proof.
  intros Hsqrt H0 Hc Ht [(p & Hp & Hn) (n & Hq & Hn0 & Hpart)]. unfold MarketImpact. cbn [Coefficient PartialThreshold].
  set (volume := Value bar (o_Asset order) Volume).
  destruct (is_nan volume) eqn:Hnan; [done|]. destruct (fle volume (of_Z 0)) eqn:Hv; [done|].
  cbn [orb]. rewrite Hq, Hp.
  pose proof (participation_bounds volume n t (fr_Partial r) Hnan Hv (proj1 Hn0) Ht) as Hb.
  destruct (if flt _ _ then _ else _) as [[qty partial] x]. destruct Hb as (n' & x' & -> & -> & Hn' & Hx & Hp').
  destruct (Hsqrt x') as (y & -> & Hy0 & Hy1); [apply Hx|].
  assert (Hk : (0 <= c * y <= 1)%Qc) by (apply qc_mul_unit; [done|done|apply Hy1, Hx]).
  intros [= <-]. pose proof (no_better_scaled (o_Side order) p0 p (c * y) H0 Hn Hk) as Hw. split; cbn.
  - destruct (o_Side order); cbn; eexists; (split; [done|]); rewrite qc_of_Z_1.
    + replace (p * (1 + c * y))%Qc with (p + p * (c * y))%Qc by ring. exact Hw.
    + replace (p * (1 + - (c * y)))%Qc with (p - p * (c * y))%Qc by ring. exact Hw.
  - exists n'. split; [done|]. split; [destruct Hn', Hn0; qclra|].
    intros Hf. destruct (Hp' Hf) as [-> Hf']. auto.
Qed.

Lemma standard_costs p0 q0 order bar adj r r' :
  sqrt_law → (0 <= p0)%Qc → quotes_around p0 bar (o_Asset order) → standard adj →
  costs (o_Side order) p0 q0 r → adj order bar r = Ok r' → costs (o_Side order) p0 q0 r'.
Proof.
  intros Hsqrt H0 Hquote Hadj Hr. pose proof (co_price _ _ _ _ Hr) as (p & Hp & Hn). destruct Hadj.
  - eapply slippage_costs; [done|done|by rewrite Hp|]. intros p' Hp' Hn'.
    assert (p' = p) as -> by congruence. by apply no_better_scaled.
  - eapply slippage_costs; [done|done|done|]. intros p' _ Hn'. destruct (o_Side order); cbn in *; qclra.
  - by apply spread_costs.
  - by apply impact_costs.
Qed.

Lemma adjust_all_costs p0 q0 order bar adjs r r' :
  sqrt_law → (0 <= p0)%Qc → quotes_around p0 bar (o_Asset order) → Forall standard adjs →
  costs (o_Side order) p0 q0 r → adjust_all adjs order bar r = Ok r' → costs (o_Side order) p0 q0 r'.
Proof.
  intros Hsqrt H0 Hquote Hadjs. revert r. induction Hadjs as [|adj adjs Hadj _ IH]; intros r Hr; cbn.
  - by intros [= <-].
  - destruct (adj order bar r) as [r1|e] eqn:E; [|done]. apply IH. by eapply standard_costs.
Qed.

(** A fill pipeline never improves on the base price.  Whatever slippage,
    spread and market-impact adjusters it composes (percentages and impact
    coefficients between 0 and 1, a fallback spread of at most 10,000 basis
    points, quotes on either side of the base price), a buy fills at or above
    the base model's price and a sale at or below it, and the quantity filled
    is between zero and the quantity asked for, equal to it unless the fill is
    marked partial; exact arithmetic, with a square root that is non-negative
    and at most one on fractions. *)
Theorem Adjust_never_improves (base : BaseModel xq) (adjs : list (Adjuster xq)) (order : Order xq)
    (bar : DataFrame xq) (p0 q0 : Qc) (r : FillResult xq) :
  sqrt_law → Forall standard adjs → (0 <= p0)%Qc → (0 <= q0)%Qc →
  quotes_around p0 bar (o_Asset order) →
  Adjust (NewPipeline base adjs) order bar (mkFillResult (Fin p0) false (Fin q0)) = Ok r →
  ∃ p n, fr_Price r = Fin p ∧ fr_Quantity r = Fin n ∧
    match o_Side order with Buy => (p0 <= p)%Qc | Sell => (p <= p0)%Qc end ∧
    (0 <= n <= q0)%Qc ∧ (fr_Partial r = false → n = q0).
Proof.
  intros Hsqrt Hadjs Hp Hq Hquote Hr.
  destruct (adjust_all_costs p0 q0 order bar adjs (mkFillResult (Fin p0) false (Fin q0)) r)
    as [(p & Hpr & Hw) (n & Hqr & Hn & Hpart)]; try done.
  - split; [exists p0; split; [done|destruct (o_Side order); cbn; qclra]|].
    exists q0. split; [done|]. split; [qclra|done].
  - exists p, n. done.
Qed.
End Costs.

(** ** Witness *)
Section Witness.
(** A rational square root: exact on squares, else the root of the integer
    parts of numerator and denominator. *)
Definition root (x : Qc) : Qc :=
  (qc_of_Z (Z.sqrt (Qnum (this x))) / qc_of_Z (Z.sqrt (QDen (this x))))%Qc.
Local Instance root_sqrt : NumSqrt xq := {| fsqrt := λ x, match x with Fin a => Fin (root a) | x => x end |}.

Lemma root_law : sqrt_law.
Proof.
  intros x Hx. exists (root x). split; [done|]. unfold root.
  assert (Hn : (0 <= Qnum (this x))%Z).
  { unfold Qcle in Hx. rewrite this_0 in Hx. unfold Qle in Hx. cbn in Hx. lia. }
  set (n := Qnum (this x)) in *. set (d := QDen (this x)).
  assert (Hd : (1 <= Z.sqrt d)%Z) by (apply Z.sqrt_le_square; unfold d; lia).
  assert (Hden : (0 < qc_of_Z (Z.sqrt d))%Qc).
  { apply Qclt_le_trans with (y := qc_of_Z 1); [done|]. by apply qc_of_Z_le. }
  split.
  - apply qc_div_nonneg; [rewrite <-qc_of_Z_0; apply qc_of_Z_le, Z.sqrt_nonneg|done].
  - intros Hx1. apply qc_fraction; [rewrite <-qc_of_Z_0; apply qc_of_Z_le, Z.sqrt_nonneg|done|].
    apply qc_of_Z_le, Z.sqrt_le_mono. unfold Qcle in Hx1. rewrite this_1 in Hx1. unfold Qle in Hx1.
    cbn in Hx1. unfold n, d. lia.
Qed.

Definition thin_bar : DataFrame xq := bar 1 [SPY] [MetricClose; Volume] [100; 1000]%Z.
Definition all_costs : list (Adjuster xq) :=
  [Slippage (Percent (Fin (qfrac 1 100))); SpreadAware 10;
   MarketImpact (mkPreset (Fin (qfrac 1 10)) (Fin (qfrac 5 100)))].

Lemma all_costs_standard : Forall standard all_costs.
Proof.
  repeat apply Forall_cons_2; [apply std_percent|apply std_spread|apply std_impact|constructor];
    (done || (split; apply qc_leb_true; vm_compute; reflexivity)).
Qed.

Lemma Adjust_never_improves_witness :
  ∃ r p n, Adjust (NewPipeline FillAtClose all_costs) (base_order SPY Buy (q 100) (q 0) Market Day_ "") thin_bar
             (mkFillResult (q 100) false (q 100)) = Ok r ∧
    fr_Price r = Fin p ∧ fr_Quantity r = Fin n ∧ (qc_of_Z 100 <= p)%Qc ∧ (0 <= n <= qc_of_Z 100)%Qc.
Proof.
  destruct (Adjust (NewPipeline FillAtClose all_costs) (base_order SPY Buy (q 100) (q 0) Market Day_ "")
    thin_bar (mkFillResult (q 100) false (q 100))) as [r|e] eqn:E.
  2:{ apply (f_equal is_Ok) in E. vm_compute in E. discriminate. }
  destruct (Adjust_never_improves FillAtClose all_costs (base_order SPY Buy (q 100) (q 0) Market Day_ "")
    thin_bar (qc_of_Z 100) (qc_of_Z 100) r) as (p & n & Hp & Hn & Hw & Hq & _).
  - exact root_law.
  - exact all_costs_standard.
  - by apply qc_leb_true.
  - by apply qc_leb_true.
  - left. by vm_compute.
  - exact E.
  - by exists r, p, n.
Defined.
End Witness.
