(* ===== verification/SimProps.v ===== *)
(** * SimProps: the simulated broker keeps its promises

    The fill queue never blocks and keeps its order; every submitted order is
    answered by exactly one fill report; the margin and leverage checks; exit
    legs; and the limit price the fill does not look at. *)
From Stdlib Require Import ZArith Qcanon Lia.
From stdpp Require Import base list gmap strings.
From S2P Require Import Prelude Num GoTime Asset Period Frame Broker Lots Ledger Samples.
From S2P Require Import Account Batch Exec SimBroker Runs.

(** ** The channel *)
Section ChanFacts.
Context {A : Type}.
Implicit Types (c : Chan A) (x : A).

Definition chan_ok c : Prop := (length (ch_buf c) <= ch_cap c)%nat.

Lemma try_send_spec x c :
  match try_send x c with
  | Some c' => (length (ch_buf c) < ch_cap c)%nat ∧ c' = mkChan (ch_buf c ++ [x]) (ch_cap c)
  | None => (ch_cap c <= length (ch_buf c))%nat
  end.
Proof. unfold try_send. destruct (Nat.ltb_spec (length (ch_buf c)) (ch_cap c)); [done|lia]. Qed.

(** Enough room in the larger channel: everything moves over, in order. *)
Lemma move_all_ok l cap (grown : Chan A) :
  (length (ch_buf grown) + length l <= ch_cap grown)%nat →
  move_all (length l) (mkChan l cap) grown = Some (mkChan (ch_buf grown ++ l) (ch_cap grown)).
Proof.
  revert grown. induction l as [|x l IH]; intros grown Hle.
  - cbn. rewrite app_nil_r. by destruct grown.
  - cbn in *. pose proof (try_send_spec x grown) as Hs.
    destruct (try_send x grown) as [g|]; [destruct Hs as [_ ->]|lia].
    rewrite IH; cbn; [by rewrite <-app_assoc|]. rewrite length_app. cbn. lia.
Qed.

Lemma deliver_ok x c :
  chan_ok c → ∃ c', deliver x c = Some c' ∧ ch_buf c' = ch_buf c ++ [x] ∧ chan_ok c'.
Proof.
  unfold deliver, chan_ok. intros Hok. pose proof (try_send_spec x c) as Hs.
  destruct (try_send x c) as [c'|] eqn:E.
  - destruct Hs as [Hlt ->]. eexists. split; [done|]. cbn. rewrite length_app. cbn. split; [done|lia].
  - destruct c as [l cap]. cbn [ch_buf ch_cap] in *. rewrite move_all_ok by (cbn; lia). cbn [ch_buf ch_cap app].
    assert (Hlt : (length l < 2 * cap + 1)%nat) by lia.
    unfold try_send. cbn [ch_buf ch_cap]. apply Nat.ltb_lt in Hlt. rewrite Hlt. apply Nat.ltb_lt in Hlt.
    eexists. split; [done|]. cbn. rewrite length_app. cbn. split; [done|lia].
Qed.
End ChanFacts.

(** ** The broker's operations on the queue *)
Section Queue.
Context {F : Type} `{Num F} {tz : TZDB} {go : GoMapOrder}.
Implicit Types (s : SimulatedBroker F) (o : Order F) (f : Fill F).

Definition queue s : list (Fill F) := ch_buf (sb_fills s).
Definition sim_ok s : Prop := chan_ok (sb_fills s).

#[export] Instance SimulatedBroker_laws : BrokerLaws (SimulatedBroker F) F.
Proof.
  split; cbn.
  - intros s Hq. unfold try_recv. by rewrite Hq.
  - intros s f q Hq. unfold try_recv. rewrite Hq. cbn. eauto.
  - intros s id. unfold sim_Cancel. destruct (sb_pending s !! id) as [o|]; [|done].
    by destruct (decide _).
Qed.

Lemma deliverFill_spec f s :
  sim_ok s → queue (deliverFill f s) = queue s ++ [f] ∧ sim_ok (deliverFill f s) ∧
  sb_date (deliverFill f s) = sb_date s ∧ sb_pending (deliverFill f s) = sb_pending s ∧
  sb_groups (deliverFill f s) = sb_groups s.
Proof.
  intros Hok. destruct (deliver_ok f (sb_fills s) Hok) as (c & Hd & Hb & Hc).
  unfold deliverFill. rewrite Hd. by unfold queue, sim_ok.
Qed.

Lemma queue_remainder_queue o qty r s :
  queue (queue_remainder o qty r s) = queue s ∧ (sim_ok s → sim_ok (queue_remainder o qty r s)).
Proof. unfold queue_remainder. destruct (fr_Partial r); [|done]. by destruct (flt _ _). Qed.

(** A report answers an order. *)
Definition answers o s f : Prop :=
  f_OrderID f = o_ID o ∧ f_FilledAt f = sb_date s ∧
  (f_Err f ≠ None → f_Price f = of_Z 0 ∧ f_Qty f = of_Z 0).

Definition one_answer o s s' : Prop :=
  ∃ f, queue s' = queue s ++ [f] ∧ answers o s f ∧ sim_ok s'.

Lemma failOrder_answer o reason s : sim_ok s → one_answer o s (failOrder o reason s).
Proof.
  intros Hok. unfold failOrder. eexists.
  destruct (deliverFill_spec (mkFill (o_ID o) (of_Z 0) (of_Z 0) (sb_date s) (Some reason)) s Hok)
    as (-> & ? & _).
  split; [done|]. by split.
Qed.

Lemma fill_now_answer p o df s : sim_ok s → one_answer o s (fill_now p o df s).
Proof.
  intros Hok. unfold fill_now.
  destruct (FillBase _ _ _) as [base|e]; [|by apply failOrder_answer].
  destruct (feq _ _); [by apply failOrder_answer|].
  destruct (Adjust _ _ _ _) as [r|e]; [|by apply failOrder_answer].
  destruct (reject_reason _ _ _ _); [by apply failOrder_answer|].
  eexists. match goal with |- context [queue_remainder ?o ?q ?r ?s'] =>
    destruct (queue_remainder_queue o q r s') as [-> Hr] end.
  destruct (deliverFill_spec (mkFill (o_ID o) (fr_Price r) (fr_Quantity r) (sb_date s) None) s Hok)
    as (-> & Hok' & _).
  split; [done|]. split; [by split|]. by apply Hr.
Qed.

(** *** Groups of exit legs *)
Lemma group_legs_spec s ids stop tp :
  group_legs s ids = (stop, tp) →
  (∀ o, stop = Some o → o_GroupRole o = RoleStopLoss ∧ ∃ id, id ∈ ids ∧ sb_pending s !! id = Some o) ∧
  (∀ o, tp = Some o → o_GroupRole o = RoleTakeProfit ∧ ∃ id, id ∈ ids ∧ sb_pending s !! id = Some o).
Proof.
  revert stop tp. induction ids as [|id ids IH] using rev_ind; intros stop tp; unfold group_legs.
  { cbn. by intros [= <- <-]. }
  rewrite fold_left_app. fold (group_legs s ids). cbn [fold_left].
  destruct (group_legs s ids) as [st t] eqn:E. destruct (IH st t eq_refl) as [H1 H2].
  assert (Hmono : ∀ x, x ∈ ids → x ∈ ids ++ [id]) by (intros; by apply elem_of_app; left).
  assert (K1 : ∀ o, st = Some o → o_GroupRole o = RoleStopLoss ∧
    ∃ i, i ∈ ids ++ [id] ∧ sb_pending s !! i = Some o).
  { intros o Ho. destruct (H1 o Ho) as (? & i & ? & ?). split; [done|]. exists i. auto. }
  assert (K2 : ∀ o, t = Some o → o_GroupRole o = RoleTakeProfit ∧
    ∃ i, i ∈ ids ++ [id] ∧ sb_pending s !! i = Some o).
  { intros o Ho. destruct (H2 o Ho) as (? & i & ? & ?). split; [done|]. exists i. auto. }
  assert (Hid : id ∈ ids ++ [id]) by (apply elem_of_app; right; by apply list_elem_of_singleton).
  destruct (sb_pending s !! id) as [o|] eqn:Ho; [destruct (o_GroupRole o) eqn:Hr|];
    cbn; intros [= <- <-]; split; auto; intros x [= <-]; eauto.
Qed.
End Queue.

(** ** The margin checks *)
Section Accepted.
Context {tz : TZDB} {go : GoMapOrder}.
Implicit Types (s : SimulatedBroker xq) (o : Order xq) (p : PortfolioView xq).

(** A fill without an error passed the checks. *)
Lemma fill_now_accepted p o df s f :
  sim_ok s → queue (fill_now p o df s) = queue s ++ [f] → f_Err f = None →
  ∃ r, f = mkFill (o_ID o) (fr_Price r) (fr_Quantity r) (sb_date s) None ∧ reject_reason s p o r = None.
Proof.
  intros Hok. unfold fill_now.
  assert (Hfail : ∀ reason, queue (failOrder o reason s) = queue s ++ [f] → f_Err f = None → False).
  { intros reason. unfold failOrder. destruct (deliverFill_spec (mkFill (o_ID o) (of_Z 0) (of_Z 0) (sb_date s)
      (Some reason)) s Hok) as (-> & _). by intros [= <-]%app_inv_head. }
  destruct (FillBase _ _ _) as [base|e]; [|intros Hc Hn; destruct (Hfail _ Hc Hn)].
  destruct (feq _ _); [intros Hc Hn; destruct (Hfail _ Hc Hn)|].
  destruct (Adjust _ _ _ _) as [r|e]; [|intros Hc Hn; destruct (Hfail _ Hc Hn)].
  destruct (reject_reason s p o r) eqn:Hr; [intros Hc Hn; destruct (Hfail _ Hc Hn)|].
  rewrite (proj1 (queue_remainder_queue _ _ _ _)).
  destruct (deliverFill_spec (mkFill (o_ID o) (fr_Price r) (fr_Quantity r) (sb_date s) None) s Hok) as (-> & _).
  intros [= <-]%app_inv_head _. eauto.
Qed.

Lemma qc_eqb_pos (x : Qc) : (0 < x)%Qc → qc_eqb x 0 = false.
Proof. intros Hx. apply qc_eqb_false. intros ->. qclra. Qed.

(** Multiplying a quotient back. *)
Lemma qc_quotient (x y : Qc) : (0 < x)%Qc → (x * (y / x) = y)%Qc.
Proof. intros Hx. apply Qcmult_div_r. intros ->. qclra. Qed.

Definition long_part (x : Qc) : Qc := if qc_ltb 0 x then x else 0.
Definition short_part (x : Qc) : Qc := long_part (- x).

Lemma fmax_zero (x : Qc) : fmax (Fin x) (of_Z 0) = Fin (long_part x).
Proof.
  unfold fmax, long_part. cbn. rewrite qc_of_Z_0.
  by destruct (qc_ltb 0 x).
Qed.

Lemma margin_check_exact p o (r : FillResult xq) (q n px l sh : Qc) :
  v_Position p (o_Asset o) = Fin q → fr_Quantity r = Fin n → fr_Price r = Fin px →
  v_LongMarketValue p = Fin l → v_ShortMarketValue p = Fin sh →
  let q' := match o_Side o with Buy => q + n | Sell => q - n end%Qc in
  let newShort := (sh + (short_part q' - short_part q) * px)%Qc in
  margin_check p o r = mkCheck (Fin q') (Fin newShort) (Fin (l + sh))
    (Fin (l + (long_part q' - long_part q) * px + newShort)).
Proof.
  intros Hq Hn Hpx Hl Hs. cbn zeta. unfold margin_check. rewrite Hq, Hl, Hs, Hn, Hpx.
  set (q' := match o_Side o with Buy => (q + n)%Qc | Sell => (q - n)%Qc end).
  assert (Hq' : fadd (Fin q) (signed_delta o (Fin n)) = Fin q').
  { unfold signed_delta, q'. destruct (o_Side o); cbn; f_equal; qclra. }
  rewrite Hq'. change (fneg (Fin q)) with (Fin (- q)%Qc). change (fneg (Fin q')) with (Fin (- q')%Qc).
  rewrite !fmax_zero. cbn. unfold short_part. done.
Qed.
End Accepted.

(** ** Properties *)
Section Properties.
Context {F : Type} `{Num F} {tz : TZDB} {go : GoMapOrder}.

(** The fill channel never blocks and keeps the order of fills.  For a
    channel within its capacity, [deliverFill] appends exactly the fill to the
    sequence of undelivered fills, growing the channel when it is full, and
    leaves it within its capacity: the abstract queue the account drains. *)
Theorem deliverFill_is_enqueue {A : Type} (x : A) (c : Chan A) :
  (length (ch_buf c) <= ch_cap c)%nat →
  ∃ c', deliver x c = Some c' ∧ ch_buf c' = ch_buf c ++ [x] ∧
        (length (ch_buf c') <= ch_cap c')%nat ∧ (ch_cap c <= ch_cap c')%nat.
Proof.
  intros Hok. destruct (deliver_ok x c Hok) as (c' & Hd & Hb & Hc). exists c'.
  repeat split; try done. revert Hc. unfold chan_ok. rewrite Hb, length_app. cbn.
  unfold deliver in Hd. pose proof (try_send_spec x c) as Hs.
  destruct (try_send x c); [destruct Hs as [_ ->]; by injection Hd as <-|]. lia.
Qed.

(** No order vanishes.  [Submit] of an order either returns an error and
    leaves the broker as it was, or queues exactly one report carrying the
    order's ID and the simulation date (a rejected order's report has quantity
    and price zero); an exit leg of a bracket queues no report and waits among
    the pending orders.  It holds in any arithmetic and for every fill
    pipeline. *)
Theorem Submit_answers_once (p : PortfolioView F) (o : Order F) (s s' : SimulatedBroker F)
    (e : option error) :
  (length (ch_buf (sb_fills s)) <= ch_cap (sb_fills s))%nat →
  sim_Submit p o s = (s', e) →
  match e with
  | Some _ => s' = s
  | None =>
      if is_exit_leg o then queue s' = queue s ∧ sb_pending s' !! o_ID o = Some o
      else ∃ f, queue s' = queue s ++ [f] ∧ f_OrderID f = o_ID o ∧ f_FilledAt f = sb_date s ∧
           (f_Err f ≠ None → f_Price f = of_Z 0 ∧ f_Qty f = of_Z 0)
  end.
Proof.
  intros Hok. unfold sim_Submit. destruct (is_exit_leg o) eqn:Hex.
  { intros [= <- <-]. split; [done|]. cbn. by rewrite lookup_insert_eq. }
  destruct (sb_prices s) as [fetch|]; [|by intros [= <- <-]].
  destruct (fetch [o_Asset o]) as [df|[r|r]]; intros [= <- <-]; try done.
  - destruct (fill_now_answer p o df s Hok) as (f & Hq & Ha & _). by exists f.
  - match goal with |- context [failOrder o ?r s] =>
      destruct (failOrder_answer o r s Hok) as (f & Hq & Ha & _) end. by exists f.
Qed.

(** With the default pipeline the limit price of an order plays no role:
    the broker reports for a limit order what it reports for the same order
    without a limit, in any arithmetic. *)
Theorem Submit_ignores_limit (p : PortfolioView F) (o : Order F) (limit : F) (s : SimulatedBroker F) :
  sb_pipeline s = NewPipeline FillAtClose [] →
  queue (sim_Submit p (set_OrderType Limit (set_LimitPrice limit o)) s).1 = queue (sim_Submit p o s).1.
Proof.
  intros Hp. set (l := set_OrderType _ _). unfold sim_Submit.
  change (is_exit_leg l) with (is_exit_leg o). change (o_Asset l) with (o_Asset o).
  destruct (is_exit_leg o); [done|]. destruct (sb_prices s) as [fetch|]; [|done].
  destruct (fetch [o_Asset o]) as [df|[r|r]]; cbn [fst]; try done.
  unfold fill_now. rewrite Hp. unfold FillBase. cbn [p_base].
  change (FillAtClose l df) with (FillAtClose o df). destruct (FillAtClose o df) as [base|]; [|done].
  change (fill_quantity l base) with (fill_quantity o base). change (o_Asset l) with (o_Asset o).
  destruct (feq _ _); [done|]. cbn [Adjust adjust_all p_adjusters].
  change (reject_reason s p l) with (reject_reason s p o).
  destruct (reject_reason _ _ _ _); [done|].
  by rewrite (proj1 (queue_remainder_queue _ _ _ _)), (proj1 (queue_remainder_queue _ _ _ _)).
Qed.

(** C27. An order accepted on submission respects the account's limits.  When
    [Submit] of an order that is no exit leg reports a fill without error, at a
    broker that knows the account, then, at the fill's price and quantity, a
    sale that leaves the position short keeps equity at or above the initial
    margin rate of all shorts; and if a leverage cap is set, the fill either
    does not raise gross exposure or keeps it within the cap times a positive
    equity; exact arithmetic.  Exit legs and the remainders of partial fills,
    which a later bar fills, are not checked. *)
Theorem accepted_order_within_limits (p : PortfolioView xq) (o : Order xq) (s : SimulatedBroker xq)
    (f : Fill xq) (q n px l sh e rate lev : Qc) :
  (length (ch_buf (sb_fills s)) <= ch_cap (sb_fills s))%nat → sb_hasPortfolio s = true →
  is_exit_leg o = false → queue (sim_Submit p o s).1 = queue s ++ [f] → f_Err f = None →
  f_Price f = Fin px → f_Qty f = Fin n → v_Position p (o_Asset o) = Fin q →
  v_LongMarketValue p = Fin l → v_ShortMarketValue p = Fin sh → v_Equity p = Fin e →
  (if feq (sb_initialMarginRate s) (of_Z 0) then lit 1 2 else sb_initialMarginRate s) = Fin rate →
  sb_maxLeverage s = Fin lev →
  let q' := match o_Side o with Buy => q + n | Sell => q - n end%Qc in
  let newShort := (sh + (short_part q' - short_part q) * px)%Qc in
  let gross' := (l + (long_part q' - long_part q) * px + newShort)%Qc in
  (o_Side o = Sell → (q' < 0)%Qc → (0 < newShort)%Qc → (rate * newShort <= e)%Qc) ∧
  ((0 < lev)%Qc → (gross' <= l + sh)%Qc ∨ ((0 < e)%Qc ∧ (gross' <= lev * e)%Qc)).
Proof.
  intros Hok Hport Hex Hq Herr Hpx Hn Hpos Hl Hs He Hrate Hlev. cbn zeta.
  unfold sim_Submit in Hq. rewrite Hex in Hq. destruct (sb_prices s) as [fetch|].
  2:{ cbn in Hq. apply (f_equal length) in Hq. rewrite length_app in Hq. cbn in Hq. lia. }
  destruct (fetch [o_Asset o]) as [df|[x|x]]; cbn [fst] in Hq.
  2:{ unfold failOrder in Hq. match type of Hq with queue (deliverFill ?g s) = _ =>
        destruct (deliverFill_spec g s Hok) as (Hd & _) end.
      rewrite Hd in Hq. apply app_inv_head in Hq as [= <-]. done. }
  2:{ apply (f_equal length) in Hq. rewrite length_app in Hq. cbn in Hq. lia. }
  destruct (fill_now_accepted p o df s f Hok Hq Herr) as (r & -> & Hr). cbn [f_Price f_Qty] in Hpx, Hn.
  unfold reject_reason in Hr. rewrite Hport, (margin_check_exact p o r q n px l sh Hpos Hn Hpx Hl Hs) in Hr.
  destruct (short_breach _ _ _ _) eqn:Hsb; [done|]. destruct (leverage_breach _ _ _) eqn:Hlb; [done|].
  set (q' := match o_Side o with Buy => _ | Sell => _ end) in *.
  set (newShort := (sh + _)%Qc) in *. set (gross' := (l + _ + newShort)%Qc) in *. split.
  - intros Hsell Hq' Hns. unfold short_breach in Hsb. rewrite Hrate, He, Hsell in Hsb.
    cbn in Hsb. rewrite qc_of_Z_0, (proj2 (qc_ltb_true _ _) Hq'), (proj2 (qc_ltb_true _ _) Hns) in Hsb.
    cbn in Hsb. rewrite (qc_eqb_pos newShort Hns), bool_decide_eq_true_2 in Hsb by done.
    cbn in Hsb. autorewrite with qcb in Hsb.
    pose proof (qc_quotient newShort e Hns) as Hdiv.
    set (d := (e / newShort)%Qc) in *. clearbody d newShort. clear -Hsb Hns Hdiv. qcnra.
  - intros Hpl. unfold leverage_breach in Hlb. rewrite Hlev, He in Hlb. cbn in Hlb.
    rewrite qc_of_Z_0, (proj2 (qc_ltb_true _ _) Hpl) in Hlb. cbn in Hlb.
    destruct (qc_ltb (l + sh) gross') eqn:Eg; autorewrite with qcb in Eg; [right|left; exact Eg].
    cbn in Hlb. apply orb_false_iff in Hlb as [He0 Hg]. autorewrite with qcb in He0.
    rewrite (qc_eqb_pos e He0) in Hg. cbn in Hg. autorewrite with qcb in Hg. split; [exact He0|].
    pose proof (qc_quotient e gross' He0) as Hdiv.
    set (d := (gross' / e)%Qc) in *. clearbody d gross'. clear -Hg He0 Hdiv. qcnra.
Qed.

(** A bar fills at most one leg of a bracket, and the stop wins.  When a
    group has legs pending, evaluating it either changes nothing, or reports
    one fill (of the stop-loss at its stop price when the bar triggers the
    stop, otherwise of the take-profit at its limit price), drops both legs
    from the pending orders and forgets the group. *)
Theorem evaluate_group_fills_one (df : DataFrame F) (s : SimulatedBroker F) (gid : string)
    (ids : list string) (stop tp : option (Order F)) :
  (length (ch_buf (sb_fills s)) <= ch_cap (sb_fills s))%nat →
  group_legs s ids = (stop, tp) →
  let s' := evaluate_group df s (gid, ids) in
  (s' = s ∧ winner df (stop, tp) = None) ∨
  ∃ o price,
    winner df (stop, tp) = Some (o, price) ∧
    queue s' = queue s ++ [mkFill (o_ID o) price (o_Qty o) (sb_date s) None] ∧
    ((stop = Some o ∧ price = o_StopPrice o) ∨
     (tp = Some o ∧ price = o_LimitPrice o ∧
      ∀ st, stop = Some st →
        stop_triggered st (Value df (o_Asset st) MetricHigh) (Value df (o_Asset st) MetricLow)
          (Value df (o_Asset st) MetricClose) = false)) ∧
    (∀ leg, stop = Some leg ∨ tp = Some leg → sb_pending s' !! o_ID leg = None) ∧
    sb_groups s' !! gid = None.
Proof.
  intros Hok Hlegs. cbn zeta. unfold evaluate_group. rewrite Hlegs.
  destruct (winner df (stop, tp)) as [[o price]|] eqn:Hw; [|by left]. right. exists o, price.
  destruct (deliverFill_spec (mkFill (o_ID o) price (o_Qty o) (sb_date s) None) s Hok)
    as (Hq & _ & _ & Hpe & Hgr).
  split; [done|]. split; [by unfold queue in *|]. split; [|split].
  - unfold winner in Hw. destruct stop as [st|].
    + destruct (stop_triggered st _ _ _) eqn:Ht; [injection Hw as <- <-; by left|].
      destruct tp as [t|]; [|done]. destruct (tp_triggered t _ _ _); [|done].
      injection Hw as <- <-. right. split; [done|]. split; [done|]. by intros ? [= <-].
    + destruct tp as [t|]; [|done]. destruct (tp_triggered t _ _ _); [|done].
      injection Hw as <- <-. by right.
  - cbn [sb_pending sim_pending fst snd]. rewrite Hpe. intros leg Hleg.
    destruct Hleg as [->| ->]; cbn [drop_leg].
    + by rewrite lookup_delete_eq.
    + destruct stop as [st|]; cbn [drop_leg]; [|by rewrite lookup_delete_eq].
      destruct (decide (o_ID st = o_ID leg)) as [->|Hne];
        [by rewrite lookup_delete_eq|by rewrite lookup_delete_ne, lookup_delete_eq].
  - cbn. by rewrite Hgr, lookup_delete_eq.
Qed.
End Properties.

(** ** Witnesses *)
Section Witnesses.
Local Existing Instance utc_db.
Local Existing Instance blank_fmt.

Lemma deliverFill_is_enqueue_witness :
  let full := mkChan [1; 2]%nat 2 in
  deliver 3%nat full = Some (mkChan [1; 2; 3]%nat 5) ∧
  ∃ c', deliver 3%nat full = Some c' ∧ ch_buf c' = [1; 2; 3]%nat.
Proof.
  cbn zeta. split; [reflexivity|].
  destruct (deliverFill_is_enqueue 3%nat (mkChan [1; 2]%nat 2)) as (c' & Hd & Hb & _); [cbn; lia|].
  exists c'. split; [exact Hd|exact Hb].
Defined.

Definition sample_order : Order PrimFloat.float :=
  set_ID "o1" (base_order SPY Sell (of_Z 10) (of_Z 0) Market Day_ "").
Definition sample_sim : SimulatedBroker PrimFloat.float := sim_at 1 (ohlc 1 101 99 100) sim0.
Definition sample_view : PortfolioView PrimFloat.float := view (holding 1000 10 100).

Lemma Submit_answers_once_witness :
  (sim_Submit sample_view sample_order sample_sim).2 = None ∧
  ∃ f, queue (sim_Submit sample_view sample_order sample_sim).1 = [f] ∧ f_OrderID f = "o1"%string ∧
       f_FilledAt f = day 1.
Proof.
  assert (Hok : (length (ch_buf (sb_fills sample_sim)) <= ch_cap (sb_fills sample_sim))%nat)
    by (apply Nat.leb_le; vm_compute; reflexivity).
  pose proof (Submit_answers_once sample_view sample_order sample_sim _ _ Hok (surjective_pairing _)) as Ha.
  assert (E : (sim_Submit sample_view sample_order sample_sim).2 = None) by (vm_compute; reflexivity).
  rewrite E in Ha. split; [exact E|]. destruct Ha as (f & Hq & Hid & Hd & _). exists f.
  split; [exact Hq|]. split; [exact Hid|exact Hd].
Defined.

Lemma Submit_ignores_limit_witness :
  let limit_order := set_OrderType Limit (set_LimitPrice (of_Z 500) sample_order) in
  queue (sim_Submit sample_view limit_order sample_sim).1 =
    queue (sim_Submit sample_view sample_order sample_sim).1 ∧
  f_Price <$> queue (sim_Submit sample_view limit_order sample_sim).1 = [of_Z 100].
Proof.
  cbn zeta. split; [|vm_compute; reflexivity].
  apply Submit_ignores_limit. reflexivity.
Defined.

(** A bracket's exit legs at a bar that reaches both. *)
Definition sample_leg (id : string) (role : GroupRole) (stop limit : Z) : Order PrimFloat.float :=
  set_ID id (set_Group "g-exits" role (set_StopPrice (of_Z stop) (set_LimitPrice (of_Z limit)
    (base_order SPY Sell (of_Z 10) (of_Z 0) Limit GTC "")))).
Definition stop_leg := sample_leg "g-sl" RoleStopLoss 90 0.
Definition profit_leg := sample_leg "g-tp" RoleTakeProfit 0 110.
Definition legs_sim : SimulatedBroker PrimFloat.float := queue_exit profit_leg (queue_exit stop_leg sample_sim).

Lemma evaluate_group_fills_one_witness :
  let wild := ohlc 2 120 80 100 in
  let s' := evaluate_group wild legs_sim ("g-exits"%string, ["g-sl"; "g-tp"]%string) in
  winner wild (Some stop_leg, Some profit_leg) = Some (stop_leg, of_Z 90) ∧
  queue s' = [mkFill "g-sl" (of_Z 90) (of_Z 10) (day 1) None] ∧
  sb_pending s' !! "g-tp"%string = None ∧ sb_groups s' !! "g-exits"%string = None.
Proof.
  cbn zeta. set (wild := ohlc 2 120 80 100).
  assert (Hw : winner wild (Some stop_leg, Some profit_leg) = Some (stop_leg, of_Z 90))
    by (vm_compute; reflexivity).
  split; [exact Hw|].
  destruct (evaluate_group_fills_one wild legs_sim "g-exits" ["g-sl"; "g-tp"]%string
    (Some stop_leg) (Some profit_leg)) as [[_ Hn]|(o & price & Hwin & Hq & _ & Hlegs & Hgr)].
  - apply Nat.leb_le. vm_compute. reflexivity.
  - vm_compute. reflexivity.
  - rewrite Hw in Hn. discriminate Hn.
  - rewrite Hw in Hwin. injection Hwin as <- <-. split; [exact Hq|]. split; [|exact Hgr].
    apply (Hlegs profit_leg). by right.
Defined.

(** A short sale of five shares by an account with 2,000 dollars of equity. *)
Definition short_order : Order xq := set_ID "o2" (base_order SPY Sell (of_Z 15) (of_Z 0) Market Day_ "").
Definition capped_sim : SimulatedBroker xq :=
  sim_settings true (of_Z 0) (of_Z 2) (of_Z 0) (NewPipeline FillAtClose []) (sim_at 1 (ohlc 1 101 99 100) sim0).
Definition exact_view : PortfolioView xq := view (holding 1000 10 100).
Definition short_fill : Fill xq :=
  default (mkFill "" (q 0) (q 0) zero_time None) (head (queue (sim_Submit exact_view short_order capped_sim).1)).

Lemma accepted_order_within_limits_witness :
  queue (sim_Submit exact_view short_order capped_sim).1 = [short_fill] ∧ f_Qty short_fill = q 15 ∧
  (qfrac 1 2 * (0 + (short_part (qc_of_Z 10 - qc_of_Z 15) - short_part (qc_of_Z 10)) * qc_of_Z 100)
     <= qc_of_Z 2000)%Qc.
Proof.
  assert (Hok : (length (ch_buf (sb_fills capped_sim)) <= ch_cap (sb_fills capped_sim))%nat)
    by (apply Nat.leb_le; vm_compute; reflexivity).
  assert (Hq : queue (sim_Submit exact_view short_order capped_sim).1 = [short_fill]).
  { assert (Hlen : length (queue (sim_Submit exact_view short_order capped_sim).1) = 1%nat)
      by (vm_compute; reflexivity).
    unfold short_fill. destruct (queue (sim_Submit exact_view short_order capped_sim).1) as [|f [|]];
      [discriminate Hlen|reflexivity|discriminate Hlen]. }
  assert (Hn : f_Qty short_fill = q 15) by eval_eq.
  split; [exact Hq|]. split; [exact Hn|].
  assert (Hf : f_Price short_fill = q 100) by eval_eq.
  assert (Herr : f_Err short_fill = None) by (vm_compute; reflexivity).
  assert (Hp : v_Position exact_view (o_Asset short_order) = Fin (qc_of_Z 10)) by eval_eq.
  assert (Hl : v_LongMarketValue exact_view = Fin (qc_of_Z 1000)) by eval_eq.
  assert (Hs : v_ShortMarketValue exact_view = Fin 0%Qc) by eval_eq.
  assert (He : v_Equity exact_view = Fin (qc_of_Z 2000)) by eval_eq.
  assert (Hr : (if feq (sb_initialMarginRate capped_sim) (of_Z 0) then lit 1 2
    else sb_initialMarginRate capped_sim) = Fin (qfrac 1 2)) by eval_eq.
  refine (proj1 (accepted_order_within_limits exact_view short_order capped_sim short_fill _ _ _ _ _ _ _ _
    Hok eq_refl eq_refl Hq Herr Hf Hn Hp Hl Hs He Hr eq_refl) eq_refl _ _);
    vm_compute; reflexivity.
Defined.
End Witnesses.
