(* ===== verification/ExecProps.v ===== *)
(** * ExecProps: fills, groups and submission

    Proved against the interface [Broker] with its laws: draining terminates
    with an empty queue, a fill is recorded once, a filled leg cancels its
    siblings, cancelling keeps the exit legs, and a batch with sound groups
    submits each of its orders once.  The witnesses run on the simulated
    broker. *)
From Stdlib Require Import ZArith Lia.
From stdpp Require Import base list gmap strings pretty.
From S2P Require Import Prelude Num GoTime Asset Period Frame Broker Lots Ledger.
From S2P Require Import Samples Account Batch Exec SimBroker Runs SimProps.

Section Facts.
Context {F : Type} `{Num F} {tz : TZDB} {fx : FmtFloat F} {go : GoMapOrder}.
Context {B : Type} `{!Broker B F} `{!BrokerLaws B F}.
Implicit Types (s : ExecState B F) (order : Order F) (fill : Fill F).

Definition fill_queue s : list (Fill F) := bk_queue (es_broker s).
Definition orders_of s : gmap string (Order F) := pendingOrders (book (es_account s)).
Definition groups_of s : gmap string OrderGroup := pendingGroups (book (es_account s)).

(** *** The fill queue during a drain *)
Lemma cancel_sibling_queue s id : fill_queue (cancel_sibling s id) = fill_queue s.
Proof.
  unfold cancel_sibling, fill_queue. destruct has_groups; [done|]. cbn. unfold cancel.
  pose proof (cancel_queue (es_broker s) id) as Hq.
  by destruct (bk_Cancel id (es_broker s)) as [k e].
Qed.

Lemma fold_siblings_queue ids s : fill_queue (fold_left cancel_sibling ids s) = fill_queue s.
Proof. revert s. induction ids as [|id ids IH]; intros s; cbn; [done|]. by rewrite IH, cancel_sibling_queue. Qed.

Lemma cancelOCOSiblings_queue gid id s : fill_queue (cancelOCOSiblings gid id s) = fill_queue s.
Proof.
  unfold cancelOCOSiblings. destruct (_ !! gid); [|done].
  change (fill_queue (on_book ?f ?x)) with (fill_queue x). apply fold_siblings_queue.
Qed.

Lemma record_outcome_frame order fill s :
  fill_queue (record_outcome order fill s) = fill_queue s ∧
  es_account (record_outcome order fill s) = es_account s.
Proof. unfold record_outcome. destruct (es_batch s); [|done]. by destruct (_ =? _)%Z. Qed.

Lemma settle_order_queue order fill s : fill_queue (settle_order order fill s) = fill_queue s.
Proof. unfold settle_order. by destruct (flt _ _). Qed.

Lemma settle_group_queue order fill s : fill_queue (settle_group order fill s).1 = fill_queue s.
Proof.
  unfold settle_group. destruct (decide _); [done|].
  destruct (o_GroupRole order); try done; cbn; try apply cancelOCOSiblings_queue.
  by destruct (_ !! o_GroupID order).
Qed.

Lemma handle_fill_queue fill s : fill_queue (handle_fill fill s).1 = fill_queue s.
Proof.
  unfold handle_fill. destruct (_ !! f_OrderID fill) as [order|]; [|done].
  destruct (record_outcome_frame order fill s) as [Hq _].
  destruct (f_Err fill); [done|]. by rewrite settle_group_queue, settle_order_queue.
Qed.

Lemma drain_loop_queue fuel s exits :
  (length (fill_queue s) <= fuel)%nat → fill_queue (drain_loop fuel s exits).1 = [].
Proof.
  revert s exits. induction fuel as [|fuel IH]; intros s exits Hf; cbn [drain_loop].
  - cbn. by destruct (fill_queue s); [|cbn in Hf; lia].
  - unfold fill_queue in Hf. destruct (bk_queue (es_broker s)) as [|f q] eqn:Hq.
    + by rewrite (recv_none _ Hq).
    + destruct (recv_some _ _ _ Hq) as (k & -> & Hk).
      pose proof (handle_fill_queue f (put_broker k s)) as Hh.
      destruct (handle_fill f (put_broker k s)) as [s' new]. cbn [fst] in Hh. apply IH.
      rewrite Hh. unfold fill_queue. cbn. rewrite Hk. cbn in Hf. lia.
Qed.

(** *** Cancelled siblings *)
Lemma cancel_sibling_orders s id : orders_of (cancel_sibling s id) = delete id (orders_of s).
Proof.
  unfold cancel_sibling. destruct has_groups; [done|]. unfold cancel.
  by destruct (bk_Cancel id (es_broker s)).
Qed.

Lemma cancel_sibling_groups s id : groups_of (cancel_sibling s id) = groups_of s.
Proof.
  unfold cancel_sibling. destruct has_groups; [done|]. unfold cancel.
  by destruct (bk_Cancel id (es_broker s)).
Qed.

Lemma fold_siblings_orders ids s :
  orders_of (fold_left cancel_sibling ids s) = foldr delete (orders_of s) (reverse ids).
Proof.
  revert s. induction ids as [|id ids IH]; intros s; [done|]. cbn [fold_left].
  by rewrite IH, cancel_sibling_orders, reverse_cons, foldr_app.
Qed.

Lemma lookup_foldr_delete (ids : list string) (m : gmap string (Order F)) id :
  foldr delete m ids !! id = if decide (id ∈ ids) then None else m !! id.
Proof.
  induction ids as [|x ids IH]; cbn [foldr]; [done|].
  destruct (decide (x = id)) as [->|Hne].
  - rewrite lookup_delete_eq. by rewrite decide_True by set_solver.
  - rewrite lookup_delete_ne, IH by done.
    destruct (decide (id ∈ ids)); [rewrite decide_True by set_solver|rewrite decide_False by set_solver]; done.
Qed.

Lemma fold_siblings_groups ids s : groups_of (fold_left cancel_sibling ids s) = groups_of s.
Proof.
  revert s. induction ids as [|id ids IH]; intros s; [done|]. cbn [fold_left].
  by rewrite IH, cancel_sibling_groups.
Qed.

Lemma fold_siblings_exits ids s :
  deferredExits (book (es_account (fold_left cancel_sibling ids s))) = deferredExits (book (es_account s)).
Proof.
  revert s. induction ids as [|id ids IH]; intros s; [done|]. cbn [fold_left]. rewrite IH.
  unfold cancel_sibling. destruct has_groups; [done|]. unfold cancel. by destruct (bk_Cancel id (es_broker s)).
Qed.

(** What the broker is told. *)
Lemma fold_siblings_broker ids s :
  es_broker (fold_left cancel_sibling ids s) =
  if has_groups then es_broker s else fold_left (λ k id, (bk_Cancel (F := F) id k).1) ids (es_broker s).
Proof.
  revert s. induction ids as [|id ids IH]; intros s; cbn [fold_left]; [by destruct has_groups|]. rewrite IH.
  unfold cancel_sibling. destruct has_groups; [done|]. unfold cancel. by destruct (bk_Cancel id (es_broker s)).
Qed.

(** *** An order that is settled is gone *)
Lemma cancelOCOSiblings_orders gid fid s id :
  orders_of s !! id = None → orders_of (cancelOCOSiblings gid fid s) !! id = None.
Proof.
  intros Hn. unfold cancelOCOSiblings. destruct (_ !! gid); [|done].
  change (orders_of (on_book (map_groups ?f) ?x)) with (orders_of x).
  rewrite fold_siblings_orders, lookup_foldr_delete. by destruct (decide _).
Qed.

Lemma settle_group_orders order fill s id :
  orders_of s !! id = None → orders_of (settle_group order fill s).1 !! id = None.
Proof.
  intros Hn. unfold settle_group. destruct (decide _); [done|].
  destruct (o_GroupRole order); try done; cbn; try by apply cancelOCOSiblings_orders.
  by destruct (_ !! o_GroupID order).
Qed.

(** A report that leaves nothing to fill. *)
Definition completes order fill : Prop :=
  f_Err fill = None → flt (lit 1 1000000000) (fsub (o_Qty order) (f_Qty fill)) = false.

Lemma handle_fill_settles fill s order :
  orders_of s !! f_OrderID fill = Some order → completes order fill →
  orders_of (handle_fill fill s).1 !! f_OrderID fill = None.
Proof.
  intros Ho Hc. unfold handle_fill. unfold orders_of in Ho. rewrite Ho.
  destruct (f_Err fill) as [e|] eqn:He.
  - cbn. by rewrite lookup_delete_eq.
  - apply settle_group_orders. unfold settle_order. rewrite Hc by done. cbn.
    by rewrite lookup_delete_eq.
Qed.

Lemma handle_fill_unknown fill s :
  orders_of s !! f_OrderID fill = None → handle_fill fill s = (s, []).
Proof. intros Hn. unfold handle_fill. unfold orders_of in Hn. by rewrite Hn. Qed.

(** No fill brings an order back. *)
Lemma handle_fill_adds_none fill s id :
  orders_of s !! id = None → orders_of (handle_fill fill s).1 !! id = None.
Proof.
  intros Hn. destruct (orders_of s !! f_OrderID fill) as [order|] eqn:Ho;
    [|by rewrite handle_fill_unknown].
  assert (f_OrderID fill ≠ id) as Hne by congruence.
  destruct (record_outcome_frame order fill s) as (_ & Ha).
  unfold handle_fill. unfold orders_of in Ho. rewrite Ho.
  destruct (f_Err fill).
  - cbn. rewrite lookup_delete_ne, Ha by done. exact Hn.
  - apply settle_group_orders. unfold settle_order. destruct (flt _ _); cbn.
    + rewrite lookup_insert_ne, Ha by done. exact Hn.
    + rewrite lookup_delete_ne, Ha by done. exact Hn.
Qed.

Lemma drain_loop_adds_none fuel s exits id :
  orders_of s !! id = None → orders_of (drain_loop fuel s exits).1 !! id = None.
Proof.
  revert s exits. induction fuel as [|fuel IH]; intros s exits Hn; cbn [drain_loop]; [done|].
  destruct (bk_recv (es_broker s)) as [[fill k]|]; [|done].
  pose proof (handle_fill_adds_none fill (put_broker k s) id Hn) as Hh.
  destruct (handle_fill fill (put_broker k s)) as [s' new]. by apply IH.
Qed.

Lemma drain_loop_failed fuel s exits fill :
  (length (fill_queue s) <= fuel)%nat → fill ∈ fill_queue s → f_Err fill ≠ None →
  orders_of (drain_loop fuel s exits).1 !! f_OrderID fill = None.
Proof.
  revert s exits. induction fuel as [|fuel IH]; intros s exits Hf Hin He; cbn [drain_loop].
  - destruct (fill_queue s); [set_solver|cbn in Hf; lia].
  - unfold fill_queue in Hf, Hin. destruct (bk_queue (es_broker s)) as [|f q] eqn:Hq; [set_solver|].
    destruct (recv_some _ _ _ Hq) as (k & -> & Hk).
    pose proof (handle_fill_queue f (put_broker k s)) as Hh.
    apply elem_of_cons in Hin as [<-|Hin].
    + assert (orders_of (handle_fill fill (put_broker k s)).1 !! f_OrderID fill = None) as Hn.
      { destruct (orders_of (put_broker k s) !! f_OrderID fill) eqn:Ho;
          [|by rewrite handle_fill_unknown].
        eapply handle_fill_settles; [done|]. intros Hc. by destruct He. }
      destruct (handle_fill fill (put_broker k s)) as [s' new]. by apply drain_loop_adds_none.
    + destruct (handle_fill f (put_broker k s)) as [s' new]. cbn [fst] in Hh.
      assert (fill_queue s' = q) as Hs' by by rewrite Hh, <-Hk.
      apply IH; [rewrite Hs'; cbn in Hf; lia|by rewrite Hs'|done].
Qed.
End Facts.

(** ** Submission plans *)
Section Plans.
Context {F : Type} `{Num F} {tz : TZDB} {fx : FmtFloat F} {go : GoMapOrder}.
Context {B : Type} `{!Broker B F}.
Implicit Types (s : ExecState B F) (o : Order F) (spec : OrderGroupSpec F).

(** The orders one group hands to the broker. *)
Definition group_plan (all news : list (Order F)) spec : list (Order F) :=
  match gs_Type spec with
  | GroupOCO => orders_of_group (gs_GroupID spec) news
  | GroupBracket =>
      if (0 <=? gs_EntryIndex spec)%Z then
        match all !! Z.to_nat (gs_EntryIndex spec) with Some entry => [entry] | None => [] end
      else []
  end.

(** Every order a batch hands to the broker, in order: the groups, then the
    orders no group has handled. *)
Definition submission_plan (all news : list (Order F)) (specs : list (OrderGroupSpec F)) :
    list (Order F) :=
  mjoin (group_plan all news <$> specs) ++ ungrouped specs news.

(** Groups as [Batch.Order] makes them: distinct non-empty IDs, and a bracket's
    entry is the one new order tagged with its ID. *)
Record groups_sound (all news : list (Order F)) (specs : list (OrderGroupSpec F)) : Prop := {
  gso_ids : NoDup (gs_GroupID <$> specs);
  gso_nonempty : Forall (λ spec, gs_GroupID spec ≠ EmptyString) specs;
  gso_entry : Forall (λ spec, gs_Type spec = GroupBracket →
    (0 <= gs_EntryIndex spec)%Z ∧
    ∃ entry, all !! Z.to_nat (gs_EntryIndex spec) = Some entry ∧
      orders_of_group (gs_GroupID spec) news = [entry]) specs;
}.

Lemma group_plan_sound all news spec :
  (gs_Type spec = GroupBracket → (0 <= gs_EntryIndex spec)%Z ∧
    ∃ entry, all !! Z.to_nat (gs_EntryIndex spec) = Some entry ∧
      orders_of_group (gs_GroupID spec) news = [entry]) →
  group_plan all news spec = orders_of_group (gs_GroupID spec) news.
Proof.
  intros Hs. unfold group_plan. destruct (gs_Type spec); [done|].
  destruct (Hs eq_refl) as (Hi & e & -> & ->). by rewrite (proj2 (Z.leb_le _ _) Hi).
Qed.

Lemma keep_split {A} (P Q R : A → bool) (l : list A) :
  (∀ x, R x = P x || Q x) → (∀ x, P x && Q x = false) →
  keep P l ++ keep Q l ≡ₚ keep R l.
Proof.
  intros HR Hd. unfold keep. induction l as [|x l IH]; [done|]. cbn. rewrite HR.
  specialize (Hd x). destruct (P x), (Q x); cbn in *; try done.
  - by rewrite IH.
  - by rewrite <-Permutation_middle, IH.
Qed.

Definition in_groups (ids : list string) o : bool :=
  bool_decide (o_GroupID o ≠ EmptyString ∧ o_GroupID o ∈ ids).

Lemma groups_partition ids (news : list (Order F)) :
  NoDup ids → Forall (λ id, id ≠ EmptyString) ids →
  mjoin ((λ id, orders_of_group id news) <$> ids) ≡ₚ keep (in_groups ids) news.
Proof.
  induction 1 as [|id ids Hid Hnd IH]; intros Hne.
  - cbn. unfold keep, in_groups. induction news as [|o news IHn]; [done|]. cbn.
    by rewrite bool_decide_eq_false_2 by set_solver.
  - apply Forall_cons in Hne as [H0 Hne]. cbn [fmap list_fmap mjoin list_join].
    rewrite (IH Hne). unfold orders_of_group. rewrite decide_False by done.
    apply keep_split; intros o; unfold in_groups.
    + destruct (decide (o_GroupID o = id)) as [->|Hn].
      * by rewrite !bool_decide_eq_true_2 by set_solver.
      * rewrite (bool_decide_eq_false_2 _ Hn). cbn. apply bool_decide_ext. set_solver.
    + destruct (decide (o_GroupID o = id)) as [->|Hn].
      * rewrite andb_false_iff. right. apply bool_decide_eq_false_2. naive_solver.
      * by rewrite (bool_decide_eq_false_2 _ Hn).
Qed.

Lemma submission_plan_perm all news specs :
  groups_sound all news specs → submission_plan all news specs ≡ₚ news.
Proof.
  intros [Hnd Hne He]. unfold submission_plan.
  assert (Hp : group_plan all news <$> specs = (λ id, orders_of_group id news) <$> (gs_GroupID <$> specs)).
  { clear Hnd Hne. induction He as [|spec specs Hs _ IH]; [done|]. cbn.
    by rewrite group_plan_sound, IH. }
  rewrite Hp, groups_partition; [|done|by apply Forall_fmap].
  unfold ungrouped. etrans; [apply (keep_split _ _ (λ _, true))|].
  - intros o. unfold in_groups. by destruct (bool_decide _).
  - intros o. unfold in_groups. by destruct (bool_decide _).
  - by rewrite keep_all by (apply Forall_forall; done).
Qed.
End Plans.

(** *** What submission does to the state *)
Section Submission.
Context {F : Type} `{Num F} {tz : TZDB} {fx : FmtFloat F} {go : GoMapOrder}.
Context {B : Type} `{!Broker B F}.
Implicit Types (s : ExecState B F) (o : Order F) (spec : OrderGroupSpec F).

(** The broker after the orders in turn; [None] when one returns an error. *)
Fixpoint submit_seq (p : PortfolioView F) (os : list (Order F)) (k : B) : option B :=
  match os with
  | [] => Some k
  | o :: rest => match bk_Submit p o k with
                 | (k, None) => submit_seq p rest k
                 | (_, Some _) => None
                 end
  end.

(** A group submitter that submits the orders one by one, as the simulated
    broker does. *)
Definition groups_by_submit : Prop :=
  match bk_SubmitGroup with
  | None => True
  | Some sg => ∀ p os t k k', sg p os t k = (k', None) → submit_seq p os k = Some k'
  end.

(** Same account but for the book, and the same batch. *)
Definition same_but_book s s' : Prop :=
  view (es_account s') = view (es_account s) ∧ es_batch s' = es_batch s ∧ es_batchID s' = es_batchID s ∧
  ledger (es_account s') = ledger (es_account s) ∧ orders_of s' = orders_of s.

#[export] Instance same_but_book_preorder : PreOrder same_but_book.
Proof. split; repeat intro; unfold same_but_book in *; intuition congruence. Qed.

Lemma submit_seq_app p l1 l2 k k1 :
  submit_seq p l1 k = Some k1 → submit_seq p (l1 ++ l2) k = submit_seq p l2 k1.
Proof.
  revert k. induction l1 as [|o l1 IH]; intros k; cbn; [by intros [= ->]|].
  destruct (bk_Submit p o k) as [k' [e|]]; [done|apply IH].
Qed.

Lemma submit_all_seq os s s' :
  submit_all os s = (s', None) →
  submit_seq (view (es_account s)) os (es_broker s) = Some (es_broker s') ∧ same_but_book s s'.
Proof.
  revert s. induction os as [|o os IH]; intros s; cbn [submit_all submit_seq].
  { intros [= ->]. by split. }
  unfold submit. destruct (bk_Submit _ o _) as [k [e|]]; [done|]. intros Hs. apply IH in Hs as [Hq Hb].
  split; [exact Hq|]. etrans; [|exact Hb]. by split.
Qed.

Context (Hgroups : groups_by_submit).

Lemma submit_group_seq all news spec s s' :
  submit_group all news spec s = (s', None) →
  submit_seq (view (es_account s)) (group_plan all news spec) (es_broker s) = Some (es_broker s') ∧
  same_but_book s s'.
Proof.
  unfold submit_group, group_plan. destruct (gs_Type spec).
  - unfold groups_by_submit in Hgroups. destruct bk_SubmitGroup as [sg|].
    + destruct (sg _ _ _ _) as [k [e|]] eqn:E; [done|]. intros [= <-].
      split; [by apply (Hgroups _ _ _ _ _ E)|by split].
    + destruct (submit_all _ s) as [s1 [e|]] eqn:E; [done|]. intros [= <-].
      apply submit_all_seq in E as [Hq Hb]. split; [exact Hq|].
      etrans; [exact Hb|]. by split.
  - destruct (0 <=? _)%Z; [|by intros [= <-]]. destruct (all !! _) as [entry|]; [|by intros [= <-]].
    unfold submit. cbn [submit_seq]. destruct (bk_Submit _ _ _) as [k [e|]]; [done|].
    intros [= <-]. split; [done|by split].
Qed.

Lemma submit_groups_seq all news specs s s' :
  submit_groups all news specs s = (s', None) →
  submit_seq (view (es_account s)) (mjoin (group_plan all news <$> specs)) (es_broker s) =
    Some (es_broker s') ∧ same_but_book s s'.
Proof.
  revert s. induction specs as [|spec specs IH]; intros s; cbn [submit_groups].
  { intros [= ->]. by split. }
  destruct (submit_group all news spec s) as [s1 [e|]] eqn:E; [done|]. intros Hs.
  apply submit_group_seq in E as [Hq Hb]. apply IH in Hs as [Hq' Hb'].
  cbn [fmap list_fmap mjoin list_join]. split; [|by etrans].
  rewrite (submit_seq_app _ _ _ _ _ Hq). destruct Hb as [Hv _]. by rewrite <-Hv.
Qed.
End Submission.

(** *** The batch while its fills are drained *)
Section Drained.
Context {F : Type} `{Num F} {tz : TZDB} {fx : FmtFloat F} {go : GoMapOrder}.
Context {B : Type} `{!Broker B F}.
Implicit Types (s : ExecState B F) (fill : Fill F).

(** The batch gains outcomes at most. *)
Definition reported s s' : Prop :=
  ∀ b, es_batch s = Some b → ∃ os, es_batch s' = Some (set_Outcomes os b).
Lemma reported_same s s' : es_batch s' = es_batch s → reported s s'.
Proof. intros E b Hb. exists (b_Outcomes b). rewrite E, Hb. by destruct b. Qed.
Lemma reported_trans s1 s2 s3 : reported s1 s2 → reported s2 s3 → reported s1 s3.
Proof. intros H1 H2 b Hb. destruct (H1 b Hb) as [os E]. destruct (H2 _ E) as [os' E']. by exists os'. Qed.

Lemma cancelOCOSiblings_batch gid id s : es_batch (cancelOCOSiblings gid id s) = es_batch s.
Proof.
  unfold cancelOCOSiblings. destruct (_ !! gid) as [g|]; [|done]. cbn.
  generalize (keep (λ x, bool_decide (x ≠ id)) (g_OrderIDs g)). intros ids. revert s.
  induction ids as [|x ids IH]; intros s; [done|]. cbn [fold_left]. rewrite IH.
  unfold cancel_sibling. destruct has_groups; [done|]. unfold cancel. by destruct (bk_Cancel x (es_broker s)).
Qed.
Lemma settle_group_batch o fill s : es_batch (settle_group o fill s).1 = es_batch s.
Proof.
  unfold settle_group. destruct (decide _); [done|].
  destruct (o_GroupRole o); try done; cbn; try apply cancelOCOSiblings_batch. by destruct (_ !! o_GroupID o).
Qed.
Lemma handle_fill_reported fill s : reported s (handle_fill fill s).1.
Proof.
  unfold handle_fill. destruct (_ !! f_OrderID fill) as [o|]; [|by apply reported_same].
  apply (reported_trans _ (record_outcome o fill s)).
  - intros b Hb. unfold record_outcome. rewrite Hb. destruct (_ =? _)%Z; [by eexists|].
    exists (b_Outcomes b). rewrite Hb. by destruct b.
  - apply reported_same. destruct (f_Err fill); [done|]. rewrite settle_group_batch. unfold settle_order. by destruct (flt _ _).
Qed.
Lemma submitBracketExits_batch s info : es_batch (submitBracketExits s info) = es_batch s.
Proof.
  unfold submitBracketExits. cbv zeta. destruct bk_SubmitGroup; [done|]. cbn [fold_left].
  unfold submit_quiet, submit. by repeat destruct (bk_Submit _ _ _).
Qed.
Lemma drainFills_reported s : reported s (drainFills s).
Proof.
  assert (Hloop : ∀ n s exits, reported s (drain_loop n s exits).1).
  { induction n as [|n IH]; intros s0 exits; cbn [drain_loop]; [by apply reported_same|].
    destruct (bk_recv _) as [[fill k]|]; [|by apply reported_same].
    pose proof (handle_fill_reported fill (put_broker k s0)) as Hh.
    destruct (handle_fill _ _) as [s1 new]. apply (reported_trans _ s1); [exact Hh|apply IH]. }
  unfold drainFills. specialize (Hloop (length (bk_queue (es_broker s))) s []).
  destruct (drain_loop _ _ _) as [s1 exits]. cbn [fst] in Hloop. apply (reported_trans _ s1); [done|]. apply reported_same.
  clear Hloop. revert s1. induction exits as [|info exits IH]; intros s1; [done|]. cbn [fold_left]. by rewrite IH, submitBracketExits_batch.
Qed.
End Drained.

Lemma annotate_all_view {F} `{Num F} {tz : TZDB} {go : GoMapOrder} (b : Batch F) id (a : Account F) :
  view (annotate_all b id a) = view a.
Proof.
  unfold annotate_all. generalize (range (b_Annotations b)) as l. intros l. revert a.
  induction l as [|x l IH]; intros a; [done|]. cbn [fold_left]. by rewrite IH.
Qed.

(** *** Cancelling what is open *)
Section Cancel.
Context {F : Type} `{Num F} {tz : TZDB} {fx : FmtFloat F} {go : GoMapOrder}.
Context {B : Type} `{!Broker B F}.
Implicit Types (s : ExecState B F) (l : list (string * Order F)).

Lemma cancel_account id s : es_account (cancel id s).1 = es_account s.
Proof. unfold cancel. by destruct (bk_Cancel id (es_broker s)). Qed.

(** The exit leg of the group that [l] lists. *)
Definition leg_of l (gid : string) : Prop :=
  ∃ id o, (id, o) ∈ l ∧ is_exit_leg o = true ∧ o_GroupID o = gid.

Lemma and_or_none (P Q R S : Prop) : (P ∧ Q ∧ S → False) → (P ∧ Q ∧ R ↔ P ∧ Q ∧ (R ∨ S)).
Proof. tauto. Qed.

Lemma cancel_fold l s :
  NoDup l.*1 →
  let r := fold_left cancel_step l (s, mkBook ∅ ∅ ∅) in
  es_account r.1 = es_account s ∧ deferredExits r.2 = ∅ ∧
  (∀ id o, pendingOrders r.2 !! id = Some o ↔ (id, o) ∈ l ∧ is_exit_leg o = true) ∧
  (∀ gid g, pendingGroups r.2 !! gid = Some g ↔
     pendingGroups (book (es_account s)) !! gid = Some g ∧ gid ≠ EmptyString ∧ leg_of l gid).
Proof.
  induction l as [|[i x] l IH] using rev_ind; intros Hnd.
  { cbn. unfold leg_of. repeat split; try done; set_solver. }
  rewrite fmap_app in Hnd. apply NoDup_app in Hnd as (Hnd & Hi & _). cbn in Hi.
  specialize (IH Hnd). cbn zeta in *. rewrite fold_left_app. cbn [fold_left].
  destruct (fold_left cancel_step l (s, mkBook ∅ ∅ ∅)) as [s' kept]. cbn [fst snd] in IH.
  destruct IH as (Ha & Hd & Ho & Hg). cbn [cancel_step].
  assert (Hnew : ∀ o, (i, o) ∉ l).
  { intros o Hin. apply (Hi i); [|by left]. apply list_elem_of_fmap. by exists (i, o). }
  assert (Hsnoc : ∀ gid, leg_of (l ++ [(i, x)]) gid ↔ leg_of l gid ∨ (is_exit_leg x = true ∧ o_GroupID x = gid)).
  { intros gid. unfold leg_of. set_solver. }
  destruct (is_exit_leg x) eqn:Hx.
  - assert (Hins : ∀ id o, <[i:=x]> (pendingOrders kept) !! id = Some o ↔
      (id, o) ∈ l ++ [(i, x)] ∧ is_exit_leg o = true).
    { intros id o. rewrite elem_of_app, list_elem_of_singleton. destruct (decide (id = i)) as [->|Hne].
      - rewrite lookup_insert_eq. specialize (Hnew o). naive_solver.
      - rewrite lookup_insert_ne, Ho by done. naive_solver. }
    rewrite Ha. case_decide as Hgid; [|destruct (pendingGroups _ !! o_GroupID x) as [g|] eqn:Hgx]; cbn [fst snd].
    + split; [done|]. split; [done|]. split; [done|]. intros gid g. cbn. rewrite Hg, Hsnoc.
      apply and_or_none. rewrite Hgid. intros (_ & Hn & _ & ?). congruence.
    + split; [done|]. split; [done|]. split; [done|]. intros gid g'. cbn. rewrite Hsnoc.
      destruct (decide (gid = o_GroupID x)) as [->|Hne].
      * rewrite lookup_insert_eq. rewrite Hgx. clear -Hgid. tauto.
      * rewrite lookup_insert_ne, Hg by done. apply and_or_none. intros (_ & _ & _ & ?). congruence.
    + split; [done|]. split; [done|]. split; [done|]. intros gid g'. cbn. rewrite Hg, Hsnoc.
      apply and_or_none. intros (Hs & _ & _ & <-). congruence.
  - cbn [fst snd]. rewrite cancel_account. split; [done|]. split; [done|]. split.
    + intros id o. rewrite Ho, elem_of_app, list_elem_of_singleton. split; [tauto|].
      intros [[Hin|[= -> ->]] He]; [done|congruence].
    + intros gid g. rewrite Hg, Hsnoc. apply and_or_none. intros (_ & _ & ? & _). done.
Qed.
End Cancel.

(** ** Properties *)
Section Properties.
Context {F : Type} `{Num F} {tz : TZDB} {fx : FmtFloat F} {go : GoMapOrder}.
Context {B : Type} `{!Broker B F}.

(** Draining terminates, takes everything and leaves no failed order.  For
    every broker that keeps the queue laws, the drain loop run with as much fuel
    as there are queued fills ends with an empty fill queue, whatever the fills
    say and however many siblings they cancel; an order one of them reports as
    failed is no longer pending, and no order has become pending. *)
Theorem drain_takes_everything `{!BrokerLaws B F} (s : ExecState B F) :
  let s' := (drain_loop (length (fill_queue s)) s []).1 in
  fill_queue s' = [] ∧
  (∀ fill, fill ∈ fill_queue s → f_Err fill ≠ None → orders_of s' !! f_OrderID fill = None) ∧
  (∀ id, orders_of s !! id = None → orders_of s' !! id = None).
Proof.
  cbn zeta. split; [by apply drain_loop_queue|]. split.
  - intros fill Hin He. by apply drain_loop_failed.
  - intros id Hn. by apply drain_loop_adds_none.
Qed.

(** A fill is recorded once.  A report that completes a pending order (or
    reports its failure) removes the order, records exactly the transaction of
    the fill on the ledger (nothing for a failure), and handling the same
    report again changes nothing. *)
Theorem handle_fill_once `{!BrokerLaws B F} (fill : Fill F) (s : ExecState B F) (o : Order F) :
  orders_of s !! f_OrderID fill = Some o → completes o fill →
  let s1 := (handle_fill fill s).1 in
  ledger (es_account s1) = match f_Err fill with
                           | None => Record_ (fill_transaction o fill) (ledger (es_account s))
                           | Some _ => ledger (es_account s)
                           end ∧
  handle_fill fill s1 = (s1, []).
Proof.
  intros Ho Hc. cbn zeta. split.
  2:{ apply handle_fill_unknown. by eapply handle_fill_settles. }
  unfold handle_fill. unfold orders_of in Ho. rewrite Ho.
  destruct (record_outcome_frame o fill s) as [_ Ha].
  destruct (f_Err fill) as [e|]; [cbn; by rewrite Ha|].
  assert (Hg : ∀ s', ledger (es_account (settle_group o fill s').1) = ledger (es_account s')).
  { intros s'. unfold settle_group. destruct (decide _); [done|].
    assert (Hcs : ∀ g i, ledger (es_account (cancelOCOSiblings g i s')) = ledger (es_account s')).
    { intros g i. unfold cancelOCOSiblings. destruct (_ !! g) as [grp|]; [|done]. cbn.
      generalize (keep (λ id, bool_decide (id ≠ i)) (g_OrderIDs grp)). intros ids. revert s'.
      induction ids as [|id ids IH]; intros s'; [done|]. cbn [fold_left]. rewrite IH.
      unfold cancel_sibling. destruct has_groups; [done|]. unfold cancel.
      by destruct (bk_Cancel id (es_broker s')). }
    destruct (o_GroupRole o); cbn; try done. by destruct (_ !! o_GroupID o). }
  rewrite Hg. unfold settle_order. destruct (flt _ _); cbn; by rewrite Ha.
Qed.

(** C24. One exit leg filled, the others cancelled.  When a registered group's
    stop-loss or take-profit leg fills completely, handling the fill removes
    exactly the orders of the group from the pending orders and exactly that
    group from the pending groups; every other pending order and group, and
    every deferred exit, is as it was, and no exit is submitted.  At a broker
    without groups each sibling is cancelled there, in order; one with groups
    is left to cancel them itself. *)
Theorem filled_leg_cancels_siblings `{!BrokerLaws B F} (fill : Fill F) (s : ExecState B F)
    (o : Order F) (g : OrderGroup) :
  orders_of s !! f_OrderID fill = Some o → f_Err fill = None → completes o fill →
  is_exit_leg o = true → o_GroupID o ≠ EmptyString → groups_of s !! o_GroupID o = Some g →
  let r := handle_fill fill s in
  groups_of r.1 = delete (o_GroupID o) (groups_of s) ∧
  (∀ id, orders_of r.1 !! id =
         if decide (id = f_OrderID fill ∨ id ∈ g_OrderIDs g) then None else orders_of s !! id) ∧
  deferredExits (book (es_account r.1)) = deferredExits (book (es_account s)) ∧ r.2 = [] ∧
  es_broker r.1 = (if has_groups then es_broker s else
    fold_left (λ k id, (bk_Cancel (F := F) id k).1) (keep (λ id, bool_decide (id ≠ f_OrderID fill)) (g_OrderIDs g)) (es_broker s)).
Proof.
  intros Ho He Hc Hex Hgid Hg. cbn zeta. unfold handle_fill. unfold orders_of in Ho. rewrite Ho, He.
  destruct (record_outcome_frame o fill s) as [_ Ha].
  assert (Hk : es_broker (record_outcome o fill s) = es_broker s).
  { unfold record_outcome. destruct (es_batch s); [|done]. by destruct (_ =? _)%Z. }
  set (s0 := put_account _ (record_outcome o fill s)).
  set (s1 := settle_order o fill s0).
  assert (Hs1 : orders_of s1 = delete (f_OrderID fill) (orders_of s) ∧ groups_of s1 = groups_of s ∧
    deferredExits (book (es_account s1)) = deferredExits (book (es_account s)) ∧ es_broker s1 = es_broker s).
  { unfold s1, settle_order, s0, orders_of, groups_of. rewrite Hc by done. cbn. by rewrite Ha, Hk. }
  destruct Hs1 as (Hs1o & Hs1g & Hs1d & Hs1k). clearbody s1. clear s0.
  assert (settle_group o fill s1 = (cancelOCOSiblings (o_GroupID o) (f_OrderID fill) s1, [])) as ->.
  { unfold settle_group. rewrite decide_False by done. unfold is_exit_leg in Hex. by destruct (o_GroupRole o). }
  cbn [fst snd]. unfold cancelOCOSiblings. rewrite <-Hs1g in Hg. unfold groups_of in Hg. rewrite Hg. set (ids := keep _ _).
  split; [|split; [|split; [|split; [done|]]]].
  - change (groups_of (on_book (map_groups ?f) ?x)) with (f (groups_of x)). by rewrite fold_siblings_groups, Hs1g.
  - intros id. change (orders_of (on_book (map_groups ?f) ?x)) with (orders_of x).
    rewrite fold_siblings_orders, lookup_foldr_delete, Hs1o.
    assert (Hin : id ∈ reverse ids ↔ id ≠ f_OrderID fill ∧ id ∈ g_OrderIDs g).
    { rewrite elem_of_reverse. unfold ids. rewrite elem_of_keep, bool_decide_eq_true. done. }
    destruct (decide (id = f_OrderID fill)) as [->|Hne].
    + rewrite (decide_True (P := _ ∨ _)) by auto. destruct (decide _); [done|]. by rewrite lookup_delete_eq.
    + rewrite lookup_delete_ne by done. destruct (decide (id ∈ reverse ids)) as [Hi|Hi].
      * rewrite decide_True; [done|]. right. by apply Hin.
      * rewrite decide_False; [done|]. intros [?|?]; [done|]. apply Hi, Hin. done.
  - rewrite <-Hs1d. apply fold_siblings_exits.
  - rewrite <-Hs1k. apply fold_siblings_broker.
Qed.

(** Cancelling the open orders keeps exactly the protective legs.  After
    [CancelOpenOrders] the pending orders are the stop-loss and take-profit legs
    that were pending, the pending groups those a kept leg belongs to, no exit
    is deferred, and the ledger is untouched; for every broker, whatever its
    cancellations answer, and every order of map iteration. *)
Theorem CancelOpenOrders_keeps_exit_legs (s : ExecState B F) :
  let s' := CancelOpenOrders s in
  (∀ id o, orders_of s' !! id = Some o ↔ orders_of s !! id = Some o ∧ is_exit_leg o = true) ∧
  (∀ gid g, groups_of s' !! gid = Some g ↔ groups_of s !! gid = Some g ∧ gid ≠ EmptyString ∧
     ∃ id o, orders_of s !! id = Some o ∧ is_exit_leg o = true ∧ o_GroupID o = gid) ∧
  deferredExits (book (es_account s')) = ∅ ∧ ledger (es_account s') = ledger (es_account s).
Proof.
  cbn zeta. unfold CancelOpenOrders.
  destruct (cancel_fold (range (pendingOrders (book (es_account s)))) s) as (Ha & Hd & Ho & Hg);
    [apply NoDup_range_fst|].
  destruct (fold_left cancel_step _ _) as [s' kept]. cbn [fst snd] in *.
  unfold orders_of, groups_of. cbn. rewrite Ha. split; [|split; [|done]].
  - intros id o. by rewrite Ho, elem_of_range.
  - intros gid g. rewrite Hg. unfold leg_of. by setoid_rewrite elem_of_range.
Qed.

(** The batch as it is submitted: under its ID, and what the middleware makes
    of it on the first pass, with the account the middleware leaves. *)
Definition passed (mws : list (Middleware F)) (a : Account F) (b : Batch F) : Account F * Batch F :=
  let id := if (b_batchID b =? 0)%Z then Z.of_nat (length (batches a) + 1) else b_batchID b in
  let a := if (b_batchID b =? 0)%Z then set_batches (batches a ++ [(id, b_Timestamp b)]) a else a in
  let b := set_batchID id b in
  if (b_executed b =? 0)%nat && negb (b_SkipMiddleware b) then (run_middleware mws a b).1 else (a, b).
(** The orders of a pass, with their IDs, and all orders of the batch. *)
Definition new_orders (b : Batch F) : list (Order F) :=
  assign_ids b (b_batchID b) (b_executed b) (drop (b_executed b) (b_Orders b)).
Definition all_orders (b : Batch F) : list (Order F) := take (b_executed b) (b_Orders b) ++ new_orders b.

(** C22. Every order of a batch reaches the broker exactly once.  Whatever the
    middleware makes of the batch, on its first pass or a later one: when the
    groups that are new in it are as [Batch.Order] makes them (distinct IDs,
    and each bracket's entry index pointing at the one new order tagged with
    its ID), and the broker reports no error, the orders [ExecuteBatch] submits
    before it drains the fills are a permutation of the batch's new orders with
    their IDs assigned; the batch then counts all its orders as executed, so
    that a later pass submits none of them again.  The exits of a bracket,
    which the drain submits, are not orders of the batch. *)
Theorem ExecuteBatch_submits_once (mws : list (Middleware F)) (a a' : Account F) (k k' : B) (b b' : Batch F) :
  groups_by_submit → ExecuteBatch mws a k b = (a', k', b', None) →
  let a1 := (passed mws a b).1 in let b1 := (passed mws a b).2 in
  groups_sound (all_orders b1) (new_orders b1) (drop (b_executedGroups b1) (b_groups b1)) →
  (∃ plan s, plan ≡ₚ new_orders b1 ∧ submit_seq (view a1) plan k = Some (es_broker s) ∧
             a' = es_account (drainFills s) ∧ k' = es_broker (drainFills s)) ∧
  b_Orders b' = all_orders b1 ∧ b_executed b' = length (b_Orders b') ∧ b_executedGroups b' = length (b_groups b').
Proof.
  intros Hgr. unfold ExecuteBatch, passed. cbn zeta.
  set (id := if (b_batchID b =? 0)%Z then _ else _).
  set (a0 := if (b_batchID b =? 0)%Z then _ else a).
  set (mw := if _ && _ then run_middleware mws a0 (set_batchID id b) else _).
  intros E. assert (mw.2 = None) as Hmw by (by destruct mw as [[a1 b1] [e|]]).
  assert (Hp : (if (b_executed (set_batchID id b) =? 0)%nat && negb (b_SkipMiddleware (set_batchID id b))
    then (run_middleware mws a0 (set_batchID id b)).1 else (a0, set_batchID id b)) = mw.1) by (unfold mw; by destruct (_ && _)).
  rewrite Hp. destruct mw as [[a1 b1] e1]. cbn [fst snd] in *. subst e1. clear Hp. revert E.
  set (a2 := if (b_executed (set_batchID id b) =? 0)%nat then _ else a1).
  assert (Hv2 : view a2 = view a1) by (unfold a2; destruct (_ =? 0)%nat; [apply annotate_all_view|done]). clearbody a2. clear a0.
  unfold submit_batch. cbn zeta. fold (new_orders b1). fold (all_orders b1). cbn [set_Orders b_groups b_executedGroups b_batchID].
  set (specs := drop (b_executedGroups b1) (b_groups b1)).
  match goal with |- context [submit_groups (all_orders b1) (new_orders b1) specs ?s0] => set (s := s0) end.
  assert (Hs : view (es_account s) = view a1 ∧ es_broker s = k) by (split; [exact Hv2|done]).
  destruct Hs as [Hsv Hsk]. clearbody s.
  destruct (submit_groups _ _ specs s) as [s1 [e|]] eqn:E1; [done|].
  destruct (submit_all _ s1) as [s2 [e|]] eqn:E2; [done|].
  set (s3 := put_batch _ _ s2). intros [= Ha' Hk' Hb'] Hsound.
  apply (submit_groups_seq Hgr) in E1 as [Hq1 (Hv & _)]. apply submit_all_seq in E2 as [Hq2 _].
  split.
  - exists (submission_plan (all_orders b1) (new_orders b1) specs), s3. split; [by apply submission_plan_perm|].
    split; [|done]. unfold submission_plan. rewrite <-Hsk, <-Hsv.
    rewrite (submit_seq_app _ _ _ _ _ Hq1). by rewrite <-Hv.
  - destruct (drainFills_reported s3 _ eq_refl) as [os Hd]. rewrite Hd in Hb'. cbn in Hb'. by subst b'.
Qed.
End Properties.

(** ** Witnesses: the account on the simulated broker *)
Section Witnesses.
Local Existing Instance utc_db.
Local Existing Instance blank_fmt.
#[local] Abbreviation float := PrimFloat.float.

Lemma sim_groups_by_submit : groups_by_submit (F := float) (B := SimulatedBroker float).
Proof.
  intros p os t k k'. revert k. induction os as [|o os IH]; intros k; cbn.
  - by intros [= ->].
  - destruct (sim_Submit p o k) as [k1 [e|]]; [done|]. apply IH.
Qed.

(** A holder of ten shares with a pending sale. *)
Definition sample_state : ExecState (SimulatedBroker float) float :=
  on_book (map_orders (insert "o1"%string sample_order)) (mkExec (holding 1000 10 100) sample_sim None 0).
Definition sample_fill : Fill float := mkFill "o1" (of_Z 100) (of_Z 10) (day 1) None.

Lemma handle_fill_once_witness :
  let s1 := (handle_fill sample_fill sample_state).1 in
  Position (es_account s1) SPY = of_Z 0 ∧ handle_fill sample_fill s1 = (s1, []).
Proof.
  cbn zeta. split; [vm_compute; reflexivity|].
  apply (handle_fill_once sample_fill sample_state sample_order).
  - vm_compute. reflexivity.
  - intros _. vm_compute. reflexivity.
Defined.

(** The pending sale is reported as failed. *)
Definition failed_state : ExecState (SimulatedBroker float) float :=
  put_broker (failOrder sample_order "no price" sample_sim) sample_state.

Lemma drain_takes_everything_witness :
  let s' := (drain_loop (length (fill_queue failed_state)) failed_state []).1 in
  fill_queue failed_state ≠ [] ∧ fill_queue s' = [] ∧
  is_Some (orders_of failed_state !! "o1"%string) ∧ orders_of s' !! "o1"%string = None.
Proof.
  destruct (drain_takes_everything failed_state) as (Hq & Hf & _). cbn zeta.
  split; [by vm_compute|]. split; [exact Hq|]. split; [vm_compute; by eexists|].
  apply (Hf (mkFill "o1" (of_Z 0) (of_Z 0) (sb_date sample_sim) (Some "no price"%string))).
  - vm_compute. left.
  - done.
Defined.

Definition legs_state : ExecState (SimulatedBroker float) float :=
  register_group (mkGroup "other" GroupOCO ["a"; "b"]%string) (register_group (mkGroup "g-exits" GroupOCO ["g-sl"; "g-tp"]%string)
    (on_book (map_orders (λ m, <["g-tp"%string := profit_leg]> (<["g-sl"%string := stop_leg]> m)))
       sample_state)).
Definition stop_fill : Fill float := mkFill "g-sl" (of_Z 90) (of_Z 10) (day 1) None.

Lemma filled_leg_cancels_siblings_witness :
  let s1 := (handle_fill stop_fill legs_state).1 in
  orders_of s1 !! "g-tp"%string = None ∧ orders_of s1 !! "o1"%string = Some sample_order ∧
  groups_of s1 !! "g-exits"%string = None ∧ is_Some (groups_of s1 !! "other"%string).
Proof.
  cbn zeta.
  destruct (filled_leg_cancels_siblings stop_fill legs_state stop_leg
    (mkGroup "g-exits" GroupOCO ["g-sl"; "g-tp"]%string)) as (Hg & Hl & _);
    [vm_compute; reflexivity|reflexivity|intros _; vm_compute; reflexivity|reflexivity|discriminate
    |vm_compute; reflexivity|].
  split; [exact (Hl "g-tp"%string)|]. split; [etrans; [exact (Hl "o1"%string)|]; vm_compute; reflexivity|].
  cbn zeta in Hg. rewrite Hg. split; [done|]. vm_compute. by eexists.
Defined.

(** A bracketed buy followed by a plain sale. *)
Definition sample_batch : Batch float :=
  batch_Order SPY Sell (of_Z 2) []
    (batch_Order SPY Buy (of_Z 5) [WithBracket (StopLossPercent (of_Z 5)) (TakeProfitPercent (of_Z 10))]
       (NewBatch (day 1))).
Definition sample_account : Account float := holding 1000 10 100.
(** Middleware that hedges every batch with a sale of its own. *)
Definition hedging : Middleware float := λ a b, (a, batch_Order TLT Sell (of_Z 1) [] b, None).
Definition hedged_batch : Batch float := (passed [hedging] sample_account sample_batch).2.

Lemma sample_groups_sound :
  groups_sound (all_orders hedged_batch) (new_orders hedged_batch) (drop (b_executedGroups hedged_batch) (b_groups hedged_batch)).
Proof.
  split.
  - apply NoDup_singleton.
  - apply Forall_singleton. vm_compute. discriminate.
  - apply Forall_singleton. intros _. split; [vm_compute; discriminate|].
    exists (default sample_order (new_orders hedged_batch !! 0%nat)). split; vm_compute; reflexivity.
Qed.

Lemma ExecuteBatch_submits_once_witness :
  ∃ plan b' (s : ExecState (SimulatedBroker float) float), plan ≡ₚ new_orders hedged_batch ∧ length plan = 3%nat ∧
    submit_seq (view (passed [hedging] sample_account sample_batch).1) plan sample_sim = Some (es_broker s) ∧
    (ExecuteBatch [hedging] sample_account sample_sim sample_batch).1.2 = b' ∧ b_executed b' = 3%nat.
Proof.
  destruct (ExecuteBatch [hedging] sample_account sample_sim sample_batch) as [[[a' k'] b'] e] eqn:E.
  assert (He : (ExecuteBatch [hedging] sample_account sample_sim sample_batch).2 = None)
    by (vm_compute; reflexivity).
  rewrite E in He. cbn in He. subst e.
  destruct (ExecuteBatch_submits_once [hedging] sample_account a' sample_sim k' sample_batch b'
    sim_groups_by_submit E sample_groups_sound) as ((plan & s & Hp & Hs & _) & Ho & Hx & _).
  exists plan, b', s. split; [exact Hp|]. split; [rewrite Hp; reflexivity|]. split; [exact Hs|]. split; [reflexivity|].
  etrans; [exact Hx|]. etrans; [exact (f_equal length Ho)|]. vm_compute. reflexivity.
Defined.
End Witnesses.
