(* ===== verification/BatchProps.v ===== *)
(** * BatchProps: what a batch of orders promises

    Every batch the sizing operations build has the groups [ExecuteBatch]
    relies on; liquidating flattens the projected position, allocating brings
    it within one share of its target, and rebalancing empties what the target
    does not name. *)
From Stdlib Require Import ZArith QArith Qcanon Qround Lia.
From stdpp Require Import base list gmap strings pretty.
From S2P Require Import Prelude Num GoTime Asset Period Frame Broker Lots Ledger Samples.
From S2P Require Import Account Batch Exec SimBroker Runs FrameProps ExecProps.

(** ** Groups *)
Section Groups.
Context {F : Type} `{Num F} {tz : TZDB} {go : GoMapOrder}.
Implicit Types (b : Batch F) (o : Order F) (mods : list (OrderModifier F)).

(** The fields no modifier touches. *)
Definition order_core o : Asset * Side * F * F * string :=
  (o_Asset o, o_Side o, o_Qty o, o_Amount o, o_GroupID o).

Lemma apply_modifier_core s (m : OrderModifier F) :
  order_core (ms_order (apply_modifier s m)) = order_core (ms_order s).
Proof. by destruct m. Qed.

Lemma applyOrderModifiers_core o mods :
  order_core (applyOrderModifiers o mods).1.1 = order_core o.
Proof.
  unfold applyOrderModifiers. set (s0 := mkMods _ _ _ _ _).
  assert (Hs : order_core (ms_order (fold_left apply_modifier mods s0)) = order_core o).
  { change (order_core o) with (order_core (ms_order s0)). generalize s0 as s. clear s0.
    induction mods as [|m mods IH]; intros s; [done|]. cbn [fold_left]. by rewrite IH, apply_modifier_core. }
  cbn. rewrite <-Hs. by repeat case_if.
Qed.

(** The group IDs of a batch: the prefix, the time and the number of groups
    before it. *)
Definition group_name (bracket : bool) (ts : Time) (n : nat) : string :=
  ((if bracket then "bracket-" else "oco-") +:+ pretty (UnixNano ts) +:+ "-" +:+ pretty n)%string.

Lemma string_app_cancel (s t u : string) : (s +:+ t = s +:+ u → t = u)%string.
Proof.
  induction s as [|c s IH]; [done|]. change (String c s +:+ t)%string with (String c (s +:+ t)%string).
  change (String c s +:+ u)%string with (String c (s +:+ u)%string). intros [= ?]. auto.
Qed.

Lemma group_name_inj x x' ts n n' : group_name x ts n = group_name x' ts n' → n = n'.
Proof.
  unfold group_name. destruct x, x'; try done; intros Hn;
    do 3 apply string_app_cancel in Hn; by apply (inj pretty).
Qed.

Lemma group_name_nonempty x ts n : group_name x ts n ≠ EmptyString.
Proof. by destruct x. Qed.

(** What building keeps: groups named by their index, tags that name a group,
    and for a bracket exactly one tagged order, its entry. *)
Definition is_bracket (g : OrderGroupSpec F) : bool :=
  match gs_Type g with GroupBracket => true | GroupOCO => false end.

Record groups_inv b : Prop := {
  gi_name : ∀ n g, b_groups b !! n = Some g → gs_GroupID g = group_name (is_bracket g) (b_Timestamp b) n;
  gi_tag : ∀ i o, b_Orders b !! i = Some o → o_GroupID o = EmptyString ∨
    ∃ n x, (n < length (b_groups b))%nat ∧ o_GroupID o = group_name x (b_Timestamp b) n;
  gi_entry : ∀ g, g ∈ b_groups b → gs_Type g = GroupBracket →
    (0 <= gs_EntryIndex g)%Z ∧
    (∃ o, b_Orders b !! Z.to_nat (gs_EntryIndex g) = Some o ∧ o_GroupID o = gs_GroupID g) ∧
    (∀ i o, b_Orders b !! i = Some o → o_GroupID o = gs_GroupID g → i = Z.to_nat (gs_EntryIndex g));
}.

(** Untagged orders change nothing. *)
Lemma groups_inv_untagged b os :
  groups_inv b → Forall (λ o, o_GroupID o = EmptyString) os → groups_inv (add_orders os b).
Proof.
  intros [Hn Ht He] Hos. split; cbn; [done| |].
  - intros i o Hi. apply lookup_app_Some in Hi as [Hi|[_ Hi]]; [by eapply Ht|].
    left. exact (Forall_lookup_1 _ _ _ _ Hos Hi).
  - intros g Hg Hb. destruct (He g Hg Hb) as (H0 & (o & Ho & Hgo) & Hu). split; [done|]. split.
    + exists o. split; [by apply lookup_app_l_Some|done].
    + intros i o' Hi Hgo'. apply lookup_app_Some in Hi as [Hi|[_ Hi]]; [by eapply Hu|].
      exfalso. pose proof (Forall_lookup_1 _ _ _ _ Hos Hi) as Hempty. cbn in Hempty.
      apply list_elem_of_lookup in Hg as [n Hg]. rewrite Hempty, (Hn n g Hg) in Hgo'.
      by apply (group_name_nonempty _ _ _ (eq_sym Hgo')).
Qed.

(** A new group with its tagged orders at the end. *)
Lemma groups_inv_group b g os :
  groups_inv b →
  gs_GroupID g = group_name (is_bracket g) (b_Timestamp b) (length (b_groups b)) →
  Forall (λ o, o_GroupID o = gs_GroupID g) os →
  (gs_Type g = GroupBracket → gs_EntryIndex g = Z.of_nat (length (b_Orders b)) ∧ length os = 1%nat) →
  groups_inv (set_groups (b_groups b ++ [g]) (add_orders os b)).
Proof.
  intros [Hn Ht He] Hg Hos Hbr. split; cbn.
  - intros n g' Hl. apply lookup_app_Some in Hl as [Hl|[Hge Hl]]; [by apply Hn|].
    apply list_lookup_singleton_Some in Hl as [Hn0 <-]. rewrite Hg. f_equal. lia.
  - intros i o Hi. rewrite length_app. cbn. apply lookup_app_Some in Hi as [Hi|[_ Hi]].
    + destruct (Ht i o Hi) as [?|(n & x & ? & ?)]; [by left|]. right. exists n, x. split; [lia|done].
    + right. exists (length (b_groups b)), (is_bracket g). split; [lia|]. rewrite <-Hg.
      exact (Forall_lookup_1 _ _ _ _ Hos Hi).
  - intros g' Hin Hb. apply elem_of_app in Hin as [Hin|Hin].
    + destruct (He g' Hin Hb) as (H0 & (o & Ho & Hgo) & Hu). split; [done|]. split.
      { exists o. split; [by apply lookup_app_l_Some|done]. }
      intros i o' Hi Hgo'. apply lookup_app_Some in Hi as [Hi|[_ Hi]]; [by eapply Hu|]. exfalso.
      pose proof (Forall_lookup_1 _ _ _ _ Hos Hi) as Htag. cbn in Htag.
      apply list_elem_of_lookup in Hin as [n Hin]. pose proof (lookup_lt_Some _ _ _ Hin).
      rewrite Htag, Hg, (Hn n g' Hin) in Hgo'. apply group_name_inj in Hgo'. lia.
    + apply list_elem_of_singleton in Hin as ->. destruct (Hbr Hb) as [Hidx Hlen]. rewrite Hidx.
      rewrite Nat2Z.id. split; [lia|]. split.
      * destruct os as [|o []]; try done. exists o. split; [by apply list_lookup_middle|].
        exact (proj1 (Forall_singleton _ _) Hos).
      * intros i o' Hi Hgo'. apply lookup_app_Some in Hi as [Hi|[Hge Hi]].
        -- exfalso. destruct (Ht i o' Hi) as [Hempty|(n & x & Hlt & Hname)].
           ++ rewrite Hempty, Hg in Hgo'. by apply (group_name_nonempty _ _ _ (eq_sym Hgo')).
           ++ rewrite Hname, Hg in Hgo'. apply group_name_inj in Hgo'. lia.
        -- pose proof (lookup_lt_Some _ _ _ Hi). lia.
Qed.

(** *** Batches the operations build *)
Lemma batch_Order_inv ast side qty mods b : groups_inv b → groups_inv (batch_Order ast side qty mods b).
Proof.
  intros Hb. unfold batch_Order. set (o0 := base_order _ _ _ _ _ _ _).
  pose proof (applyOrderModifiers_core o0 mods) as Hcore.
  destruct (applyOrderModifiers o0 mods) as [[o bracket] oco]. cbn [fst] in Hcore.
  injection Hcore as _ _ _ _ Hgid. destruct oco as [[legA legB]|]; [|destruct bracket as [[sl tp]|]].
  - apply groups_inv_group; [done|done| |done]. cbn [gs_GroupID].
    repeat constructor; unfold oco_leg; by case_decide.
  - apply groups_inv_group; [done|done| |done]. by repeat constructor.
  - apply groups_inv_untagged; [done|]. repeat constructor. exact Hgid.
Qed.

Lemma sized_order_inv ast side qty amount mods b r e :
  match no_groups (applyOrderModifiers (base_order ast side qty amount Market Day_ "") mods) with
  | Some order => Ok (add_orders [order] b) | None => Err e end = Ok r →
  groups_inv b → groups_inv r.
Proof.
  set (o0 := base_order _ _ _ _ _ _ _). pose proof (applyOrderModifiers_core o0 mods) as Hcore.
  destruct (applyOrderModifiers o0 mods) as [[o bracket] oco]. cbn [fst] in Hcore.
  destruct bracket, oco; cbn; try done. intros [= <-] Hb. injection Hcore as _ _ _ _ Hgid.
  apply groups_inv_untagged; [done|]. by repeat constructor.
Qed.

Lemma rebalance_one_inv alloc b p : groups_inv b → groups_inv (rebalance_one alloc b p).
Proof.
  intros Hb. unfold rebalance_one. destruct (liquidations _ _) as [sells covers].
  assert (Hr : ∀ {A} (f : A → Order F) l, (∀ x, o_GroupID (f x) = EmptyString) →
    Forall (λ o, o_GroupID o = EmptyString) (f <$> l)).
  { intros A f l Hf. apply Forall_fmap, Forall_forall. intros x _. apply Hf. }
  apply groups_inv_untagged; [|by apply Hr]. apply groups_inv_untagged; [done|].
  repeat apply Forall_app_2; by apply Hr.
Qed.

(** Any sequence of [Order], [Allocate], [Liquidate], [RebalanceTo] and
    [Annotate] calls on a new batch. *)
Inductive built : Batch F → Prop :=
  | built_new ts : built (NewBatch ts)
  | built_order ast side qty mods b : built b → built (batch_Order ast side qty mods b)
  | built_allocate ast w mods b p b' : built b → Allocate ast w mods b p = Ok b' → built b'
  | built_liquidate ast mods b p b' : built b → Liquidate ast mods b p = Ok b' → built b'
  | built_rebalance allocs b p : built b → built (RebalanceTo allocs b p)
  | built_annotate key value b : built b → built (batch_Annotate key value b).

Lemma built_inv b : built b → groups_inv b.
Proof.
  induction 1 as [ts|ast side qty mods b _ IH|ast w mods b p b' _ IH Ha|ast mods b p b' _ IH Hl
                 |allocs b p _ IH|key value b _ IH].
  - split; cbn; [done|done|]. by intros g ?%not_elem_of_nil.
  - by apply batch_Order_inv.
  - unfold Allocate in Ha. destruct (feq _ _); [by injection Ha as <-|]. by eapply sized_order_inv.
  - unfold Liquidate in Hl. destruct (feq _ _); [by injection Hl as <-|]. by eapply sized_order_inv.
  - unfold RebalanceTo. revert b IH. induction allocs as [|al allocs IHa]; intros b IH; [done|].
    cbn [fold_left]. apply IHa. by apply rebalance_one_inv.
  - destruct IH as [H1 H2 H3]. by split.
Qed.

Lemma assign_ids_lookup b id n (os : list (Order F)) i :
  match assign_ids b id n os !! i, os !! i with
  | Some o', Some o => o_GroupID o' = o_GroupID o
  | None, None => True
  | _, _ => False
  end.
Proof.
  revert n i. induction os as [|o os IH]; intros n i; [done|]. destruct i as [|i]; cbn; [|apply IH].
  by case_decide.
Qed.

Lemma keep_unique {A} (P : A → bool) (l : list A) i x :
  l !! i = Some x → P x = true → (∀ j y, l !! j = Some y → P y = true → j = i) → keep P l = [x].
Proof.
  revert i. induction l as [|z l IH]; intros i Hi HP Hu; [done|]. unfold keep in *. cbn [List.filter].
  destruct i as [|i]; cbn in Hi.
  - injection Hi as ->. rewrite HP. f_equal. apply keep_none, Forall_lookup. intros j y Hj.
    destruct (P y) eqn:E; [|done]. by specialize (Hu (S j) y Hj E).
  - destruct (P z) eqn:E; [by specialize (Hu 0%nat z eq_refl E)|]. apply (IH i); [done|done|].
    intros j y Hj Hy. specialize (Hu (S j) y Hj Hy). lia.
Qed.

(** C23. A batch has the groups its execution relies on.  Whatever sequence of
    [Order] (with brackets and OCO pairs), [Allocate], [Liquidate],
    [RebalanceTo] and [Annotate] built it, its group IDs are distinct and not
    empty, and each bracket's entry index points at the one order tagged with
    the bracket's ID once the execution has assigned the order IDs. *)
Theorem built_groups_sound (b : Batch F) (id : Z) :
  built b →
  groups_sound (assign_ids b id 0 (b_Orders b)) (assign_ids b id 0 (b_Orders b)) (b_groups b).
Proof.
  intros Hb%built_inv. destruct Hb as [Hn Ht He].
  assert (Hname : ∀ g, g ∈ b_groups b → gs_GroupID g ≠ EmptyString).
  { intros g [n Hg]%list_elem_of_lookup. rewrite (Hn n g Hg). apply group_name_nonempty. }
  split.
  - apply NoDup_alt. intros i j x Hi Hj. rewrite list_lookup_fmap in Hi, Hj.
    destruct (b_groups b !! i) as [g|] eqn:Hgi; [|done]. destruct (b_groups b !! j) as [g'|] eqn:Hgj; [|done].
    cbn in Hi, Hj. assert (Heq : gs_GroupID g = gs_GroupID g') by congruence.
    rewrite (Hn i g Hgi), (Hn j g' Hgj) in Heq. by apply group_name_inj in Heq.
  - apply Forall_forall. exact Hname.
  - apply Forall_forall. intros g Hg Hbr. destruct (He g Hg Hbr) as (H0 & (o & Ho & Hgo) & Hu).
    split; [done|]. pose proof (assign_ids_lookup b id 0 (b_Orders b) (Z.to_nat (gs_EntryIndex g))) as Hl.
    rewrite Ho in Hl. destruct (assign_ids _ _ _ _ !! _) as [o'|] eqn:Ho'; [|done].
    exists o'. split; [done|]. unfold orders_of_group. rewrite decide_False by auto.
    apply (keep_unique _ _ (Z.to_nat (gs_EntryIndex g))); [done|apply bool_decide_eq_true; congruence|].
    intros j y Hj Hy%bool_decide_eq_true. pose proof (assign_ids_lookup b id 0 (b_Orders b) j) as Hlj.
    rewrite Hj in Hlj. destruct (b_Orders b !! j) as [y'|] eqn:Hy'; [|done].
    apply (Hu j y' Hy'). congruence.
Qed.
End Groups.

(** ** Projections in exact arithmetic *)
Section Sizing.
Context {tz : TZDB} {go : GoMapOrder}.
Implicit Types (b : Batch xq) (p : PortfolioView xq) (o : Order xq) (m : gmap Asset xq) (ast : Asset).

Definition projected b p ast : xq := lookup_d (of_Z 0) (ProjectedHoldings b p) ast.

(** The asset an order's shares are counted under. *)
Definition order_asset b p o : Asset :=
  if decide (v_Substitutions p = ∅) then o_Asset o
  else mapToLogical (o_Asset o) (v_Substitutions p) (b_Timestamp b).

Lemma bump_holding_lookup m ast f a (h : Qc) :
  f (lookup_d (of_Z 0) m ast) = Fin h →
  lookup_d (of_Z 0) (bump_holding m ast f) a = if decide (a = ast) then Fin h else lookup_d (of_Z 0) m a.
Proof.
  intros Hf. unfold bump_holding. rewrite Hf. cbn [feq Num_exact xeq of_Z].
  destruct (decide (a = ast)) as [->|Hne].
  - destruct (qc_eqb h (qc_of_Z 0)) eqn:E; autorewrite with lookup_d; [|done].
    apply qc_eqb_true in E. by rewrite E.
  - destruct (qc_eqb _ _); by autorewrite with lookup_d.
Qed.

(** The signed shares an order adds. *)
Definition order_shares p o : xq :=
  match o_Side o with Buy => projected_qty p o | Sell => fneg (projected_qty p o) end.

Lemma project_order_lookup b p m o a (h d : Qc) :
  lookup_d (of_Z 0) m (order_asset b p o) = Fin h → order_shares p o = Fin d →
  lookup_d (of_Z 0) (project_order b p m o) a =
    if decide (a = order_asset b p o) then Fin (h + d) else lookup_d (of_Z 0) m a.
Proof.
  intros Hh Hd. unfold project_order. fold (order_asset b p o). unfold order_shares in Hd.
  destruct (o_Side o); apply bump_holding_lookup; rewrite Hh; cbn.
  - by rewrite Hd.
  - destruct (projected_qty p o); try done. cbn in *. by injection Hd as <-.
Qed.

Lemma ProjectedHoldings_snoc b p o :
  (b_executed b <= length (b_Orders b))%nat →
  ProjectedHoldings (add_orders [o] b) p = project_order b p (ProjectedHoldings b p) o.
Proof.
  intros Hle. unfold ProjectedHoldings, unexecutedOrders. cbn [b_executed b_Orders add_orders set_Orders].
  rewrite drop_app_le by done. by rewrite fold_left_app.
Qed.

Lemma no_groups_core o mods o' :
  no_groups (applyOrderModifiers o mods) = Some o' → order_core o' = order_core o.
Proof.
  pose proof (applyOrderModifiers_core o mods) as Hc.
  destruct (applyOrderModifiers o mods) as [[o1 br] oco]. cbn in Hc |- *.
  destruct br, oco; try done. by intros [= <-].
Qed.

Lemma order_asset_core b p o ast :
  o_Asset o = ast → v_Substitutions p = ∅ ∨ mapToLogical ast (v_Substitutions p) (b_Timestamp b) = ast →
  order_asset b p o = ast.
Proof. intros Ha Hs. unfold order_asset. rewrite Ha. case_decide; [done|]. by destruct Hs. Qed.

Lemma fabs_exact (x : Qc) : fabs (Fin x) = Fin (if qc_ltb x 0 then - x else x).
Proof. reflexivity. Qed.

(** Liquidating flattens.  After [Liquidate] of an asset (without bracket or
    OCO modifiers) the projected holdings hold none of it, long or short, and
    as much of every other asset as before; in exact arithmetic, for an asset
    that is not standing in for another. *)
Theorem Liquidate_flattens (ast : Asset) (mods : list (OrderModifier xq)) (b b' : Batch xq)
    (p : PortfolioView xq) (held : Qc) :
  (b_executed b <= length (b_Orders b))%nat →
  v_Substitutions p = ∅ ∨ mapToLogical ast (v_Substitutions p) (b_Timestamp b) = ast →
  projected b p ast = Fin held → Liquidate ast mods b p = Ok b' →
  projected b' p ast = Fin 0 ∧ ∀ a, a ≠ ast → projected b' p a = projected b p a.
Proof.
  intros Hex Hs Hh. unfold Liquidate. fold (projected b p ast). rewrite Hh.
  cbn [feq Num_exact xeq of_Z]. rewrite qc_of_Z_0. destruct (qc_eqb held 0) eqn:E0.
  { intros [= <-]. apply qc_eqb_true in E0. subst held. done. }
  apply qc_eqb_false in E0. cbn [flt Num_exact xlt]. rewrite fabs_exact.
  destruct (no_groups _) as [o|] eqn:Ho; [|done]. intros [= <-]. apply no_groups_core in Ho.
  injection Ho as Hast Hside Hqty _ _.
  assert (Hd : order_shares p o = Fin (- held)).
  { unfold order_shares, projected_qty. rewrite Hside, Hqty. cbn. rewrite qc_of_Z_0.
    destruct (qc_ltb held 0) eqn:E; autorewrite with qcb in *.
    - replace (qc_eqb (- held) 0) with false by (symmetry; apply qc_eqb_false; intros ?; apply E0; qclra).
      done.
    - replace (qc_eqb held 0) with false by (symmetry; by apply qc_eqb_false). done. }
  unfold projected. rewrite (ProjectedHoldings_snoc _ _ _ Hex).
  pose proof (order_asset_core b p o ast Hast Hs) as Hoa.
  assert (Hl : lookup_d (of_Z 0) (ProjectedHoldings b p) (order_asset b p o) = Fin held)
    by (rewrite Hoa; exact Hh).
  split; [|intros a Ha]; rewrite (project_order_lookup b p _ o _ held _ Hl Hd), Hoa.
  - rewrite decide_True by done. f_equal. qclra.
  - by rewrite decide_False.
Qed.

Lemma floor_shares (a c : Qc) :
  (0 < c)%Qc → (qc_of_Z (Qfloor (a / c)%Qc) * c <= a)%Qc ∧ (a < qc_of_Z (Qfloor (a / c)%Qc) * c + c)%Qc.
Proof.
  intros Hc. set (n := Qfloor (a / c)%Qc).
  assert (Ha : a = (a / c * c)%Qc) by (rewrite Qcmult_comm, Qcmult_div_r; [done|intros ->; qclra]).
  assert (Hlo : (qc_of_Z n <= a / c)%Qc).
  { unfold Qcle. rewrite this_of_Z. apply Qfloor_le. }
  assert (Hhi : (a / c < qc_of_Z n + 1)%Qc).
  { unfold Qclt. rewrite this_add, this_of_Z, this_1. change 1%Q with (inject_Z 1). rewrite <-inject_Z_plus.
    apply Qlt_floor. }
  set (d := (a / c)%Qc) in *. set (k := qc_of_Z n) in *. clearbody d k. clear n. subst a. split; qcnra.
Qed.

(** Allocating brings a position within one share of its target.  For an
    asset with a positive price, after [Allocate] to a weight (without bracket
    or OCO modifiers) the projected position is worth the weight's share of the
    projected value, short of it by less than the price of one share when
    buying and over by less than one share when selling: it never passes the
    target.  Exact arithmetic; an asset that is not standing in for another. *)
Theorem Allocate_within_a_share (ast : Asset) (w : Qc) (mods : list (OrderModifier xq)) (b b' : Batch xq)
    (p : PortfolioView xq) (held price value : Qc) :
  (b_executed b <= length (b_Orders b))%nat →
  v_Substitutions p = ∅ ∨ mapToLogical ast (v_Substitutions p) (b_Timestamp b) = ast →
  priceOf p ast = Fin price → (0 < price)%Qc → projected b p ast = Fin held →
  ProjectedValue b p = Fin value → Allocate ast (Fin w) mods b p = Ok b' →
  ∃ worth, projectedPositionValue b' p ast = Fin worth ∧
    ((held * price <= w * value)%Qc → (w * value - price < worth)%Qc ∧ (worth <= w * value)%Qc) ∧
    ((w * value <= held * price)%Qc → (w * value <= worth)%Qc ∧ (worth < w * value + price)%Qc).
Proof.
  intros Hex Hs Hp Hpos Hh Hv.
  assert (Hppv : ∀ b0 h, projected b0 p ast = Fin h → projectedPositionValue b0 p ast = Fin (h * price)).
  { intros b0 h Hb0. unfold projectedPositionValue. rewrite Hp. cbn. rewrite qc_of_Z_0.
    rewrite (proj2 (qc_leb_false price 0) Hpos). unfold projected in Hb0. cbn in Hb0. rewrite qc_of_Z_0 in Hb0.
    by rewrite Hb0. }
  unfold Allocate. rewrite Hv, (Hppv b held Hh). cbn [fmul fsub feq Num_exact xmul xadd xneg xeq of_Z flt xlt].
  rewrite qc_of_Z_0. set (diff := (w * value + - (held * price))%Qc).
  assert (Hdiff : diff = (w * value - held * price)%Qc) by (unfold diff; qclra).
  destruct (qc_eqb diff 0) eqn:E0.
  { intros [= <-]. apply qc_eqb_true in E0. exists (held * price)%Qc. split; [by apply Hppv|]. split; qclra. }
  apply qc_eqb_false in E0. rewrite fabs_exact. set (amount := if qc_ltb diff 0 then (- diff)%Qc else diff).
  assert (Ham : (0 < amount)%Qc).
  { unfold amount. destruct (qc_ltb diff 0) eqn:E; autorewrite with qcb in E; qclra. }
  destruct (no_groups _) as [o|] eqn:Ho; [|done]. intros [= <-]. apply no_groups_core in Ho.
  injection Ho as Hast Hside Hqty Hamt _.
  set (n := qc_of_Z (Qfloor (amount / price)%Qc)).
  assert (Hn : projected_qty p o = Fin n).
  { unfold projected_qty. rewrite Hast, Hqty, Hamt, Hp. cbn. rewrite qc_of_Z_0, qc_eqb_refl. cbn.
    rewrite (proj2 (qc_ltb_true 0 price) Hpos), (proj2 (qc_ltb_true 0 amount) Ham). cbn.
    replace (qc_eqb price 0) with false; [done|]. symmetry. apply qc_eqb_false. intros ->. qclra. }
  pose proof (order_asset_core b p o ast Hast Hs) as Hoa.
  assert (Hl : lookup_d (of_Z 0) (ProjectedHoldings b p) (order_asset b p o) = Fin held)
    by (rewrite Hoa; exact Hh).
  destruct (floor_shares amount price Hpos) as [Hlo Hhi]. fold n in Hlo, Hhi.
  set (d := if qc_ltb diff 0 then (- n)%Qc else n).
  assert (Hd : order_shares p o = Fin d).
  { unfold order_shares, d. rewrite Hside, Hn. by destruct (qc_ltb diff 0). }
  exists ((held + d) * price)%Qc. split.
  { apply Hppv. unfold projected. rewrite (ProjectedHoldings_snoc _ _ _ Hex).
    rewrite (project_order_lookup b p _ o _ held d Hl Hd), Hoa. by rewrite decide_True. }
  unfold d, amount in *. clearbody n diff. clear Hppv Hn Hl Hd Hh Hv Hp d amount.
  assert (Hw : (w * value = diff + held * price)%Qc) by (rewrite Hdiff; qclra).
  rewrite Hw. destruct (qc_ltb diff 0) eqn:E; autorewrite with qcb in E; clear Hw Hdiff.
  - split; [intros; exfalso; qclra|]. intros _.
    replace ((held + - n) * price)%Qc with (held * price - n * price)%Qc by ring. split; qclra.
  - split; [|intros; exfalso; qclra]. intros _.
    replace ((held + n) * price)%Qc with (held * price + n * price)%Qc by ring. split; qclra.
Qed.

(** *** Rebalancing *)
Definition is_sale (members : gmap Asset xq) (h : Asset * xq) : bool :=
  match members !! h.1 with Some _ => false | None => negb (feq h.2 (of_Z 0)) && flt (of_Z 0) h.2 end.
Definition is_cover (members : gmap Asset xq) (h : Asset * xq) : bool :=
  match members !! h.1 with Some _ => false | None => negb (feq h.2 (of_Z 0)) && negb (flt (of_Z 0) h.2) end.

Lemma liquidations_spec (members : gmap Asset xq) hs :
  liquidations members hs =
    (keep (is_sale members) hs, (λ h : Asset * xq, (h.1, fabs h.2)) <$> keep (is_cover members) hs).
Proof.
  induction hs as [|h hs IH] using rev_ind; [done|]. unfold liquidations in *. rewrite fold_left_app, IH.
  destruct h as [ast q]. rewrite !keep_app, fmap_app. cbn [fold_left keep List.filter].
  unfold is_sale, is_cover. cbn [fst snd]. destruct (members !! ast); [cbn; by rewrite ?app_nil_r|].
  destruct (feq q (of_Z 0)); [cbn; by rewrite ?app_nil_r|].
  destruct (flt (of_Z 0) q); cbn; by rewrite ?app_nil_r.
Qed.

Lemma project_order_other b p m o a :
  a ≠ order_asset b p o → lookup_d (of_Z 0) (project_order b p m o) a = lookup_d (of_Z 0) m a.
Proof.
  intros Ha. unfold project_order. fold (order_asset b p o). unfold bump_holding.
  destruct (o_Side o); destruct (feq _ _); by autorewrite with lookup_d.
Qed.

Lemma project_others b p os m a :
  v_Substitutions p = ∅ → Forall (λ o, o_Asset o ≠ a) os →
  lookup_d (of_Z 0) (fold_left (project_order b p) os m) a = lookup_d (of_Z 0) m a.
Proof.
  intros Hs Hos. revert m. induction Hos as [|o os Ho _ IH]; intros m; [done|]. cbn [fold_left].
  rewrite IH. apply project_order_other. unfold order_asset. rewrite decide_True by done. done.
Qed.

(** One order per listed asset: the listed shares are taken away (or added). *)
Lemma project_listed b p side j (l : list (Asset * xq)) m a (h x : Qc) :
  v_Substitutions p = ∅ → NoDup l.*1 → (a, Fin x) ∈ l → x ≠ 0%Qc →
  lookup_d (of_Z 0) m a = Fin h →
  lookup_d (of_Z 0) (fold_left (project_order b p)
    ((λ s : Asset * xq, rebalance_order j s.1 side s.2 (of_Z 0)) <$> l) m) a =
    Fin (h + match side with Buy => x | Sell => - x end).
Proof.
  intros Hs Hnd Hin Hx. revert m. induction l as [|[a' x'] l IH]; intros m Hm.
  { by apply not_elem_of_nil in Hin. }
  apply NoDup_cons in Hnd as [Ha' Hnd]. cbn [fmap list_fmap fold_left fst snd].
  set (o := rebalance_order j a' side x' (of_Z 0)).
  assert (Hoa : order_asset b p o = a') by (unfold order_asset; by rewrite decide_True).
  apply elem_of_cons in Hin as [[= <- <-]|Hin].
  - rewrite project_others; [|done|].
    + rewrite (project_order_lookup b p m o a h (match side with Buy => x | Sell => - x end)).
      * by rewrite Hoa, decide_True.
      * by rewrite Hoa.
      * unfold order_shares, projected_qty. cbn. rewrite qc_of_Z_0, (proj2 (qc_eqb_false x 0) Hx). by destruct side.
    + apply Forall_fmap, Forall_forall. intros [a2 x2] H2. cbn. intros ->. apply Ha'.
      apply list_elem_of_fmap. by exists (a, x2).
  - apply IH; [done|done|]. rewrite project_order_other; [done|]. rewrite Hoa. intros ->. apply Ha'.
    apply list_elem_of_fmap. by exists (a', Fin x).
Qed.

Lemma project_listed_not b p side j (l : list (Asset * xq)) m a :
  v_Substitutions p = ∅ → a ∉ l.*1 →
  lookup_d (of_Z 0) (fold_left (project_order b p)
    ((λ s : Asset * xq, rebalance_order j s.1 side s.2 (of_Z 0)) <$> l) m) a = lookup_d (of_Z 0) m a.
Proof.
  intros Hs Ha. apply project_others; [done|]. apply Forall_fmap, Forall_forall. intros x Hx. cbn.
  intros Heq. apply Ha. apply list_elem_of_fmap. by exists x.
Qed.

Lemma strip_cash_none (members : gmap Asset xq) ast : members !! ast = None → strip_cash members !! ast = None.
Proof.
  intros Hn. unfold strip_cash. induction (map_to_list members) as [|kv l IH]; cbn; [done|].
  case_decide; [|done]. destruct (decide (kv.1 = ast)) as [->|Hne]; [apply lookup_delete_eq|].
  by rewrite lookup_delete_ne.
Qed.

Lemma member_diffs_assets b p (members : gmap Asset xq) value ast d :
  members !! ast = None → d ∈ member_diffs b p members value → d.1 ≠ ast.
Proof.
  intros Hn Hd. unfold member_diffs in Hd. apply list_elem_of_fmap in Hd as ([a x] & -> & Hin).
  apply elem_of_range in Hin. cbn. intros ->. congruence.
Qed.

Lemma NoDup_keep_fst {A C} (f : A * C → bool) (l : list (A * C)) : NoDup l.*1 → NoDup (keep f l).*1.
Proof. intros Hnd. eapply sublist_NoDup; [exact Hnd|]. apply fmap_sublist, keep_sublist. Qed.

Lemma member_orders_other (sel : Asset * xq → bool) b p (members : gmap Asset xq) value ast j side (f : xq → xq) :
  members !! ast = None →
  Forall (λ o : Order xq, o_Asset o ≠ ast)
    ((λ d : Asset * xq, rebalance_order j d.1 side (of_Z 0) (f d.2)) <$> keep sel (member_diffs b p members value)).
Proof.
  intros Hn. apply Forall_fmap, Forall_forall. intros d [_ Hd]%elem_of_keep. cbn.
  by eapply member_diffs_assets.
Qed.

Lemma ProjectedHoldings_add os b p :
  (b_executed b <= length (b_Orders b))%nat →
  ProjectedHoldings (add_orders os b) p = fold_left (project_order b p) os (ProjectedHoldings b p).
Proof.
  intros Hle. unfold ProjectedHoldings, unexecutedOrders. cbn [b_executed b_Orders add_orders set_Orders].
  rewrite drop_app_le by done. by rewrite fold_left_app.
Qed.

(** The liquidations of a held asset outside the target, with other assets'
    orders in between, leave none of it. *)
Lemma liquidations_flatten b p (members : gmap Asset xq) hs j ast (held : Qc) mid m :
  v_Substitutions p = ∅ → members !! ast = None → NoDup hs.*1 →
  (∀ x, (ast, x) ∈ hs → x = Fin held) → (held ≠ 0%Qc → (ast, Fin held) ∈ hs) →
  Forall (λ o : Order xq, o_Asset o ≠ ast) mid → lookup_d (of_Z 0) m ast = Fin held →
  let liquidate side (l : list (Asset * xq)) :=
    (λ s : Asset * xq, rebalance_order j s.1 side s.2 (of_Z 0)) <$> l in
  lookup_d (of_Z 0) (fold_left (project_order b p)
    (liquidate Buy ((λ h : Asset * xq, (h.1, fabs h.2)) <$> keep (is_cover members) hs))
    (fold_left (project_order b p) mid
      (fold_left (project_order b p) (liquidate Sell (keep (is_sale members) hs)) m))) ast = Fin 0.
Proof.
  intros Hs Hn Hnd Hin Hheld Hmid Hh. cbn beta zeta.
  set (m1 := fold_left (project_order b p)
    ((λ s : Asset * xq, rebalance_order j s.1 Sell s.2 (of_Z 0)) <$> keep (is_sale members) hs) m).
  set (m2 := fold_left (project_order b p) mid m1).
  assert (Hm2 : lookup_d (of_Z 0) m2 ast = lookup_d (of_Z 0) m1 ast) by by apply project_others.
  assert (Hsale : is_sale members (ast, Fin held) = negb (qc_eqb held 0) && qc_ltb 0 held)
    by (unfold is_sale; cbn; by rewrite Hn).
  assert (Hcover : is_cover members (ast, Fin held) = negb (qc_eqb held 0) && negb (qc_ltb 0 held))
    by (unfold is_cover; cbn; by rewrite Hn).
  assert (Hout : ∀ f, f (ast, Fin held) = false → ast ∉ (keep f hs).*1).
  { intros f Hf ([a x] & Heq & [Hfx Hx]%elem_of_keep)%list_elem_of_fmap. cbn in Heq. subst a.
    rewrite (Hin x Hx) in Hfx. congruence. }
  set (covers := (λ h : Asset * xq, (h.1, fabs h.2)) <$> keep (is_cover members) hs).
  assert (Hcfst : covers.*1 = (keep (is_cover members) hs).*1).
  { unfold covers. rewrite <-list_fmap_compose. by apply list_fmap_ext. }
  assert (Hndc : NoDup covers.*1) by (rewrite Hcfst; by apply NoDup_keep_fst).
  assert (Hnds : NoDup (keep (is_sale members) hs).*1) by by apply NoDup_keep_fst.
  destruct (decide (held = 0%Qc)) as [->|Hne]; [|destruct (qc_ltb 0 held) eqn:Hpos].
  - rewrite project_listed_not; [|done|rewrite Hcfst; apply Hout; by rewrite Hcover].
    rewrite Hm2. unfold m1. rewrite project_listed_not; [exact Hh|done|]. apply Hout. by rewrite Hsale.
  - rewrite project_listed_not; [|done|].
    2:{ rewrite Hcfst. apply Hout. rewrite Hcover. cbn. by rewrite andb_false_r. }
    rewrite Hm2. unfold m1. erewrite (project_listed b p Sell j _ _ _ held held); [|done|done| |done|exact Hh].
    { f_equal. qclra. }
    apply elem_of_keep. split; [|auto]. rewrite Hsale, (proj2 (qc_eqb_false held 0) Hne). done.
  - assert (Hm1 : lookup_d (of_Z 0) m2 ast = Fin held).
    { rewrite Hm2. unfold m1. rewrite project_listed_not; [exact Hh|done|]. apply Hout.
      rewrite Hsale. by rewrite andb_false_r. }
    autorewrite with qcb in Hpos.
    erewrite (project_listed b p Buy j _ _ _ held (- held)); [|done|done| | |exact Hm1].
    { f_equal. qclra. }
    + apply list_elem_of_fmap. exists (ast, Fin held). split.
      * cbn [fst snd]. rewrite fabs_exact. f_equal. f_equal.
        destruct (qc_ltb held 0) eqn:E; [done|]. autorewrite with qcb in E. destruct Hne. qclra.
      * apply elem_of_keep. split; [|auto]. rewrite Hcover, (proj2 (qc_eqb_false held 0) Hne). done.
    + intros H0. apply Hne. qclra.
Qed.

(** Rebalancing empties what the target does not name.  After [RebalanceTo]
    of one allocation, the projected holdings of every asset outside the
    allocation are zero, longs sold and shorts covered in full, whatever the
    order the maps are visited in and whatever the prices; exact arithmetic,
    no substitution in force. *)
Theorem RebalanceTo_empties_others (alloc : Allocation xq) (b : Batch xq) (p : PortfolioView xq)
    (ast : Asset) (held : Qc) :
  (b_executed b <= length (b_Orders b))%nat → v_Substitutions p = ∅ →
  al_Members alloc !! ast = None → projected b p ast = Fin held →
  projected (RebalanceTo [alloc] b p) p ast = Fin 0.
Proof.
  intros Hex Hs Hm Hh. cbn [RebalanceTo fold_left]. unfold rebalance_one. rewrite liquidations_spec.
  set (members := strip_cash (al_Members alloc)). assert (Hn : members !! ast = None) by by apply strip_cash_none.
  set (over := keep _ (member_diffs b p members _)).
  unfold projected. rewrite !ProjectedHoldings_add by (cbn; rewrite ?length_app; lia).
  rewrite project_others; [|done|by apply (member_orders_other _ _ _ _ _ _ _ _ (λ x, x))].
  rewrite !fold_left_app. apply (liquidations_flatten b p members _ _ ast held); [done|done| | | | |exact Hh].
  - apply NoDup_range_fst.
  - intros x Hx%elem_of_range. unfold projected, lookup_d in Hh. by rewrite Hx in Hh.
  - intros H0. apply elem_of_range. unfold projected, lookup_d in Hh.
    destruct (ProjectedHoldings b p !! ast); cbn in Hh; [by rewrite Hh|]. by injection Hh as <-.
  - by apply (member_orders_other _ _ _ _ _ _ _ _ fneg).
Qed.
End Sizing.

(** ** Witnesses *)
Section Witnesses.
Local Existing Instance utc_db.
Local Existing Instance blank_fmt.

Definition grouped_batch : Batch xq :=
  batch_Order SPY Sell (q 3) [OCO (StopLeg (q 90)) (LimitLeg (q 110))]
    (batch_Order SPY Buy (q 5) [WithBracket (StopLossPercent (q 5)) (TakeProfitPercent (q 10))]
       (batch_Order TLT Buy (q 2) [DayOrder] (NewBatch (day 1)))).

Lemma built_groups_sound_witness :
  let news := assign_ids grouped_batch 1 0 (b_Orders grouped_batch) in
  length (b_groups grouped_batch) = 2%nat ∧ groups_sound news news (b_groups grouped_batch).
Proof.
  cbn zeta. split; [reflexivity|].
  exact (built_groups_sound grouped_batch 1
    (built_order _ _ _ _ _ (built_order _ _ _ _ _ (built_order _ _ _ _ _ (built_new (day 1)))))).
Defined.

(** Ten shares at 100 and 1,000 dollars. *)
Definition sample_portfolio : PortfolioView xq := view (holding 1000 10 100).
Definition new_batch : Batch xq := NewBatch (day 1).

Lemma sample_held : projected new_batch sample_portfolio SPY = q 10.
Proof. eval_eq. Qed.

Lemma Liquidate_flattens_witness :
  match Liquidate SPY [WithJustification "exit"] new_batch sample_portfolio with
  | Ok b' => projected b' sample_portfolio SPY = Fin 0%Qc
  | Err _ => False
  end.
Proof.
  assert (E : is_Ok (Liquidate SPY [WithJustification "exit"] new_batch sample_portfolio) = true)
    by (vm_compute; reflexivity).
  destruct (Liquidate SPY _ new_batch sample_portfolio) as [b'|e] eqn:El; [|discriminate E].
  apply (Liquidate_flattens SPY [WithJustification "exit"] new_batch b' sample_portfolio (qc_of_Z 10));
    [apply Nat.leb_le; reflexivity|left; reflexivity|exact sample_held|exact El].
Defined.

Lemma Allocate_within_a_share_witness :
  match Allocate SPY (Fin (qfrac 77 100)) [] new_batch sample_portfolio with
  | Ok b' => ∃ worth, projectedPositionValue b' sample_portfolio SPY = Fin worth ∧
      (qc_of_Z 1440 < worth)%Qc ∧ (worth <= qc_of_Z 1540)%Qc
  | Err _ => False
  end.
Proof.
  assert (E : is_Ok (Allocate SPY (Fin (qfrac 77 100)) [] new_batch sample_portfolio) = true)
    by (vm_compute; reflexivity).
  destruct (Allocate SPY _ [] new_batch sample_portfolio) as [b'|e] eqn:Ea; [|discriminate E].
  assert (Hp : priceOf sample_portfolio SPY = Fin (qc_of_Z 100)) by eval_eq.
  assert (Hv : ProjectedValue new_batch sample_portfolio = Fin (qc_of_Z 2000)) by eval_eq.
  destruct (Allocate_within_a_share SPY (qfrac 77 100) [] new_batch b' sample_portfolio (qc_of_Z 10)
    (qc_of_Z 100) (qc_of_Z 2000)) as (worth & Hw & Hbuy & _);
    [apply Nat.leb_le; reflexivity|left; reflexivity|exact Hp|reflexivity|exact sample_held|exact Hv|exact Ea|].
  exists worth. split; [exact Hw|].
  assert (Ht : (qfrac 77 100 * qc_of_Z 2000)%Qc = qc_of_Z 1540)
    by (refine (bool_decide_eq_true_1 _ _); vm_compute; reflexivity).
  rewrite Ht in Hbuy.
  assert (Hs : (qc_of_Z 1540 - qc_of_Z 100)%Qc = qc_of_Z 1440)
    by (refine (bool_decide_eq_true_1 _ _); vm_compute; reflexivity).
  rewrite Hs in Hbuy. apply Hbuy. vm_compute. discriminate.
Defined.

Definition bonds_only : Allocation xq := mkAlloc (day 1) {[TLT := q 1]} "rotate".

Lemma RebalanceTo_empties_others_witness :
  projected (RebalanceTo [bonds_only] new_batch sample_portfolio) sample_portfolio SPY = Fin 0%Qc.
Proof.
  apply (RebalanceTo_empties_others bonds_only new_batch sample_portfolio SPY (qc_of_Z 10));
    [apply Nat.leb_le; reflexivity|reflexivity|vm_compute; reflexivity|exact sample_held].
Defined.
End Witnesses.
