(* ===== verification/Findings.v ===== *)
(** * Findings: runs that end where the code does not mean to

    Concrete executions of the model, each with the account, the broker and the
    bars it needs, whose result contradicts what the code sets out to do. *)
From Stdlib Require Import ZArith Qcanon Floats.
From stdpp Require Import base list gmap strings.
From S2P Require Import Prelude Num GoTime Asset Period Frame Broker Lots Ledger Samples Gains.
From S2P Require Import Account Batch Exec SimBroker Runs Risk MarginCall FrameOps Resample Index Universe Weighting.

Section Runs.
Local Existing Instance utc_db.
Local Existing Instance blank_fmt.

(** ** An OCO pair written limit leg first *)
Definition oco_batch {F} `{Num F} : Batch F :=
  batch_Order SPY Sell (of_Z 10) [OCO (LimitLeg (of_Z 110)) (StopLeg (of_Z 90))] (NewBatch (day 1)).
Definition oco_run : Account float * SimulatedBroker float :=
  next_day 2 (ohlc 2 102 98 100)
    (execute 1 (ohlc 1 101 99 100) oco_batch (holding 1000 10 100, sim0)).

(** An OCO pair whose first leg is the limit sells the position for
    nothing.  [Batch.Order] tags the first leg as the stop-loss and the second
    as the take-profit whatever their types, and the simulated broker fills a
    take-profit at its limit price, which a stop leg does not have: with the
    limit at 110 and the stop at 90, a bar between 98 and 102 sells the ten
    shares at price zero (binary64). *)
Theorem oco_limit_first_sells_at_zero :
  Position oco_run.1 SPY = of_Z 0 ∧ Cash oco_run.1 = of_Z 1000 ∧
  (λ t : TradeDetail float, (td_ExitPrice t, td_Qty t)) <$> tradeDetails (ledger oco_run.1) =
    [(of_Z 0, of_Z 10)].
Proof. split; [|split]; vm_compute; reflexivity. Qed.

(** ** A dollar order filled in two parts *)
Definition impact_sim : SimulatedBroker float :=
  SetFillPipeline (NewPipeline FillAtClose [MarketImpact LargeCap]) sim0.
Definition allocate_batch (a : Account float) : Batch float :=
  match Allocate SPY (of_Z 1) [] (NewBatch (day 1)) (view a) with Ok b => b | Err _ => NewBatch (day 1) end.
Definition cash_account : Account float :=
  set_ledger (WithCash (of_Z 20000) (day 0) empty_ledger) new_account.
Definition allocate_run : Account float * SimulatedBroker float :=
  execute 1 (ohlc 1 101 99 100) (allocate_batch cash_account) (cash_account, impact_sim).

(** The second part of a partially filled dollar order is never booked.
    An allocation of 20,000 dollars buys fifty of two hundred shares on the
    first bar; the account drops the order because it measures the remainder
    against the share quantity, which a dollar order does not set.  On the next
    bar the broker reports fifty more shares for the same order ID, and the
    account ignores the report: its position stays at fifty (binary64). *)
Theorem dollar_order_remainder_lost :
  Position allocate_run.1 SPY = of_Z 50 ∧
  (λ f : Fill float, (f_OrderID f, f_Qty f)) <$>
    ch_buf (sb_fills (EvaluatePending (sim_at 2 (ohlc 2 101 99 100) allocate_run.2))) =
    [("batch-1704153600000000000-0"%string, of_Z 50)] ∧
  Position (next_day 2 (ohlc 2 101 99 100) allocate_run).1 SPY = of_Z 50.
Proof. split; [|split]; vm_compute; reflexivity. Qed.

(** ** A capped order filled in two parts *)
Definition capped_account : Account float :=
  set_ledger (WithCash (of_Z 6000) (day 0) empty_ledger) new_account.
Definition capped_run : Account float * SimulatedBroker float :=
  execute 1 (ohlc 1 101 99 100) (batch_Order SPY Buy (of_Z 200) [] (NewBatch (day 1)))
    (capped_account, SimSetMaxLeverage (of_Z 1) impact_sim).

(** The rest of a partially filled order is not checked against the leverage
    cap.  With a cap of 1.0 and 6,000 dollars, an order for two hundred shares
    at 100 is accepted because its first part buys fifty; the next bar fills
    fifty more without a check, and the account holds a hundred shares with
    more than 4,000 dollars borrowed (binary64). *)
Theorem remainder_escapes_leverage_cap :
  let a := (next_day 2 (ohlc 2 101 99 100) capped_run).1 in
  Position capped_run.1 SPY = of_Z 50 ∧ (of_Z 0 <? Cash capped_run.1)%F = true ∧
  Position a SPY = of_Z 100 ∧ (Cash a <? - of_Z 4000)%F = true ∧ sb_maxLeverage capped_run.2 = of_Z 1.
Proof. cbv zeta. split_and!; vm_compute; reflexivity. Qed.

(** ** Housekeeping of a held substitute *)
Definition sub_account (until : Z) : Account float :=
  RegisterSubstitution SPY TLT (day until)
    (set_prices (Some (bar 1 [TLT] [MetricClose] [100%Z]))
      (set_ledger (Record_ (buy "b0" 0 TLT 10 100) (WithCash (of_Z 2000) (day 0) empty_ledger)) new_account)).
Definition dividend_bar : DataFrame float :=
  bar 1 [TLT; SPY] [MetricClose; SplitFactor; Dividend] [100; 1; 2; 400; 1; 3]%Z.

Definition housekeeping (a : Account float) : result (list (TransactionType * float)) :=
  match (Transactions (view a) (sim_at 1 dividend_bar sim0)).2 with
  | Ok ts => Ok ((λ t : BrokerTxn float, (bt_Type t, bt_Amount t)) <$> ts)
  | Err e => Err e
  end.

(** While a substitution is active its asset gets no dividends.  The
    broker walks the account's logical holdings, in which the substitute goes
    by the original's name, and skips them because the account holds nothing
    under that name; with the substitution expired the same ten shares receive
    their twenty dollars (binary64). *)
Theorem substitute_gets_no_dividend :
  housekeeping (sub_account 30) = Ok [] ∧
  housekeeping (sub_account 1) = Ok [(DividendTransaction, of_Z 20)].
Proof. split; vm_compute; reflexivity. Qed.

(** ** A margin call on a book with longs and shorts *)
Definition hedged_bar : DataFrame float := bar 1 [SPY; TLT] [MetricClose] [100; 100]%Z.
Definition hedged : Account float :=
  set_prices (Some hedged_bar)
    (set_ledger (Record_ (sell "s1" 0 TLT 1000 100) (Record_ (buy "b1" 0 SPY 1000 100)
      (WithCash (of_Z 28000) (day 0) empty_ledger)))
       (set_margin (mkMargin (of_Z 0) (of_Z 0) (of_Z 0) (of_Z 100) (of_Z 0)) new_account)).

(** Automatic liquidation does not restore the short-side margin of a
    hedged book.  The deficiency is measured in shorts to cover but unwound in
    proportion across longs and shorts, so only part of it is covered: a
    deficiency of about 6,667 dollars is still more than 3,000 after the
    liquidation, and the margin ratio stays below the maintenance rate
    (binary64). *)
Theorem auto_liquidation_leaves_deficiency :
  let '(a, _, e) := autoLiquidate [] (day 1) hedged (sim_at 1 hedged_bar sim0) in
  e = None ∧
  (of_Z 6666 <? MarginDeficiency hedged)%F = true ∧ (of_Z 3000 <? MarginDeficiency a)%F = true ∧
  (MarginRatio a <? maintenanceMarginRate a)%F = true ∧ (of_Z 28000 <=? Equity a)%F = true.
Proof. vm_compute. repeat split. Qed.

(** ** Middleware that replaces the orders under a bracket *)
Definition bracket_batch : Batch float :=
  batch_Order TLT Buy (of_Z 5) [WithBracket (StopLossPercent (of_Z 5)) (TakeProfitPercent (of_Z 10))]
    (NewBatch (day 1)).
(** An equity curve ten percent below its peak. *)
Definition drawn_down : Account float :=
  let a := holding 1000 10 100 in
  set_history (mkHistory (Some (build [day (-2); day (-1)] [portfolioAsset]
      [PortfolioEquity; PortfolioBenchmark; PortfolioRiskFree] Daily
      [[of_Z 2000; of_Z 1800]; [of_Z 0; of_Z 0]; [of_Z 0; of_Z 0]]))
    ∅ ∅ zero_asset (of_Z 0)) a.

(** A broker that acknowledges every order and fills none: it keeps what it
    was sent. *)
Definition Recorder : Type := list (Order float).
Local Instance Recorder_Broker : Broker Recorder float := {
  bk_Submit := λ _ o k, (k ++ [o], None);
  bk_SubmitGroup := None;
  bk_Cancel := λ _ k, (k, None);
  bk_queue := λ _, [];
  bk_recv := λ _, None;
}.
Definition sent_to (mws : list (Middleware float)) (a : Account float) (b : Batch float) :
    list (string * Side * float) :=
  let '(_, k, _, _) := ExecuteBatch mws a ([] : Recorder) b in
  (λ o : Order float, (o_ID o, o_Side o, o_Qty o)) <$> k.

(** The circuit breaker has its liquidation sold twice when the batch held
    a bracket.  The breaker replaces the orders with liquidation sells but
    keeps the batch's groups, so the bracket's entry index points at the
    liquidation sell, which the broker receives once as the entry of the group
    and once on its own (binary64). *)
Theorem breaker_sells_twice :
  Position drawn_down SPY = of_Z 10 ∧
  sent_to [DrawdownCircuitBreaker (lit 5 100)] drawn_down bracket_batch =
    [("batch-1704153600000000000-0"%string, Sell, of_Z 10);
     ("batch-1704153600000000000-0"%string, Sell, of_Z 10)].
Proof. split; vm_compute; reflexivity. Qed.

(** ** Exposure limits *)
Definition levered : Account float :=
  set_prices (Some (bar 1 [SPY] [MetricClose] [100%Z]))
    (set_ledger (Record_ (buy "b1" 0 SPY 300 100) (WithCash (of_Z 10000) (day 0) empty_ledger)) new_account).
Definition trim_batch : Batch float := batch_Order SPY Sell (of_Z 50) [] (NewBatch (day 1)).
Definition reach_batch : Batch float := batch_Order TLT Buy (of_Z 1000000) [] (NewBatch (day 1)).
Definition kept_orders (r : Account float * Batch float * option error) : nat := length (b_Orders r.1.2).

(** The gross exposure limit drops orders that reduce exposure and passes
    orders that raise it without bound.  Above the limit, a sale that brings
    exposure from 3.0 to 2.5 times equity is dropped at a limit of 2.0; and a
    share-count buy of an asset not held counts as zero dollars, so a million
    shares pass (binary64). *)
Theorem exposure_limit_misjudges :
  GrossLeverage levered = of_Z 3 ∧
  kept_orders (GrossExposureLimit (of_Z 2) levered trim_batch) = 0%nat ∧
  kept_orders (GrossExposureLimit (of_Z 2) (holding 1000 10 100) reach_batch) = 1%nat.
Proof. split; [|split]; vm_compute; reflexivity. Qed.

(** ** Harvesting a position the strategy already sells *)
Definition underwater : Account float := set_prices (Some (bar 1 [SPY] [MetricClose] [50%Z])) (holding 1000 10 100).
Definition selling_batch : Batch float := batch_Order SPY Sell (of_Z 10) [] (NewBatch (day 1)).
Definition harvested : Account float * Batch float * option error :=
  TaxLossHarvester (mkHarvester (lit 5 100) false ∅) underwater selling_batch.

(** The tax-loss harvester sells a position the batch already sells: it
    sizes its order by the lots held, not by the projected holdings, so a batch
    that closes ten shares ends with twenty sold and the projection short
    (binary64). *)
Theorem harvester_oversells :
  lookup_d (of_Z 0) (ProjectedHoldings selling_batch (view underwater)) SPY = of_Z 0 ∧
  lookup_d (of_Z 0) (ProjectedHoldings harvested.1.2 (view harvested.1.1)) SPY = (- of_Z 10)%F.
Proof. split; vm_compute; reflexivity. Qed.

(** ** Realized gains are always FIFO *)
Definition hifo_ledger : Ledger float :=
  Record_ (with_method LotHighestCost (sell "s1" 9 SPY 10 40))
    (Record_ (buy "b2" 1 SPY 10 50) (Record_ (buy "b1" 0 SPY 10 20) empty_ledger)).

(** The realized gains the tax code reads ignore the lot selection.  A
    highest-cost sale that takes a loss of 100 on its trade detail is replayed
    as a FIFO gain of 200 (binary64). *)
Theorem realized_gains_ignore_selection :
  td_PnL <$> tradeDetails hifo_ledger = [(- of_Z 100)%F] ∧
  RealizedGainsYTD hifo_ledger = (of_Z 0, of_Z 200).
Proof. split; vm_compute; reflexivity. Qed.

(** ** A weighting over a return that is not finite *)

(** SPY and TLT are chosen; SPY was priced at zero on the first day. *)
Definition zero_price_frame : DataFrame float :=
  build [day 0; day 1; day 2] [SPY; TLT] [Selected; AdjClose] Daily
    [of_Z <$> [1; 1; 1]%Z; of_Z <$> [0; 10; 11]%Z; of_Z <$> [1; 1; 1]%Z; of_Z <$> [50; 51; 50]%Z].

(** A volatility that is NaN empties the whole allocation.  The return from a
    zero price is infinite and the volatility NaN; NaN is not [<= 0], so it
    enters the sum of inverse volatilities, no weight compares above zero, and
    the allocation of a row with two chosen assets has no member, instead of
    the equal weights the documentation announces (binary64). *)
Theorem nan_volatility_empties_allocation :
  length (CollectSelected zero_price_frame (day 2)) = 2%nat ∧
  match InverseVolatility None zero_price_frame (Days 60) with
  | Ok plan => (λ al : Allocation float, map_to_list (al_Members al)) <$> (plan !! 2%nat) = Some []
  | Err _ => False
  end.
Proof. split; vm_compute; reflexivity. Qed.
End Runs.
